(* ===== verification/_CoqProject ===== *)
-Q . S2P
Prelude.v
Endian.v
BitCopy.v
BitStream.v
StreamIO.v
References.v
ReferencesSpec.v
Calendar.v
Array.v
Allocator.v
Address.v
AddressText.v
EventQueue.v
Cipher.v
Net.v
Connection.v
Header.v
Exchange.v
Window.v
Protocol.v
Delivery.v
HashTable.v
HashTableSpec.v
Chain.v
HashTableArray.v
HashTableArraySpec.v
IndexedString.v
IndexedStringSpec.v
SmallBlocks.v
SmallBlocksSpec.v
HashStream.v
Sha256.v
AesSpec.v
AesTables.v
Aes.v
BufferUtils.v
Md5.v
Base64.v
Yarrow.v
Puzzle.v
AsymmetricKey.v
Signature.v
ThreadQueue.v
Pending.v
PendingSpec.v
Connections.v
SocketState.v
Wire.v
Handshake.v
SocketSteps.v
Socket.v
HandshakeSpec.v
RequestSpec.v
Establish.v
Closing.v
Guards.v
Timeouts.v
Robust.v
Messages.v
Introductions.v
