(* ===== verification/Prelude.v ===== *)
(** * torque_sockets: a verification library

    The subject is the networking library of the repository: src/torque_sockets (connections
    over UDP with a handshake, a notify protocol and an event queue) and the parts of src/core
    and of the vendored src/lib/libtomcrypt it runs.  The library is header-only C++; every
    definition is translated from the source and keeps its name.

    ** The program

    A [torque_socket] owns a UDP socket.  Two sockets connect by a handshake: a challenge with a
    client puzzle, a connect request signed and encrypted under a shared elliptic-curve secret,
    and its acceptance.  A third socket that knows both may introduce them.  Established
    connections exchange numbered packets with acknowledgement masks ([torque_connection]);
    the application is told about everything through a queue of events which it polls, and a
    worker thread solves the puzzles.

    ** Files

    - Prelude: faults, the error and the state monad, machine words, bytes, bits of bytes.
    - References and ReferencesSpec (core/ref_object.h), Allocator (core/zone_allocator.h,
      page_allocator.h), SmallBlocks and SmallBlocksSpec (core/small_block_allocator.h), Array
      (core/array.h, with algorithm_templates.h and construct.h), Calendar (time.h): the foundations, each on its own.
    - Endian (core/cpu_endian.h, power_two_functions.h), BitCopy and BitStream
      (core/bit_stream.h), StreamIO (core/base_type_io.h, byte_buffer.h): memory and streams.
    - Address and AddressText (address.h), EventQueue (socket_event_queue.h), Cipher
      (symmetric_cipher.h), Net (random_generator.h, packet_stream.h, the delayed sends of
      torque_socket.h).
    - Connection (torque_connection.h); Header, Exchange, Window, Protocol and Delivery: its
      behaviour, from the bits of a header to two endpoints and the network between them.
    - HashTable and HashTableSpec (core/hash.h, hash_table_flat.h); Chain (nodes linked in a
      heap), with HashTableArray and HashTableArraySpec (core/hash_table_array.h) and
      IndexedString and IndexedStringSpec (core/indexed_string.h); BufferUtils (buffer_utils.h); Puzzle
      (client_puzzle.h, nonce.h); AsymmetricKey and Signature (asymmetric_key.h); ThreadQueue
      (core/thread_queue.h).
    - The parts of libtomcrypt the program runs: HashStream (the macro behind the hashes),
      Sha256 and Md5; AesTables and Aes, with the standard they implement in AesSpec; Yarrow
      (the generator, and AES in counter mode); Base64.  The callers of Base64 and Md5 in
      buffer_utils.h are with them.
    - Pending and PendingSpec (pending_connection.h and the list of them), Connections (the
      list and the lookup tables of torque_socket.h), SocketState (the fields of the class),
      Handshake (the senders and packet handlers), Socket (process_connections, the API in
      C++ and in C, the destructor, the other threads).
    - Wire, Messages: the datagrams as bytes.  SocketSteps, HandshakeSpec, RequestSpec: what
      the steps of the handshake do.  Establish, Closing, Guards, Timeouts, Robust,
      Introductions: theorems about sockets.

    ** How the code is modelled

    - A C++ operation is a function to [result A] or to the state monad [M S A].  What stops the
      process is a [fault]: an access outside a buffer, a null or dangling pointer that is
      followed ([null_deref]; [dead_object] where the freed object is the point), an assertion of core/assert.h (which traps in every x86 build),
      a division by zero, or a loop that outlives its bound ([out_of_fuel]).
    - Machine integers are [Z], with [u8] .. [u64] and [s64] where the code wraps.  Memory the
      code does not initialise is [indeterminate], a parameter of every theorem ([Machine]).
    - Objects that are linked or shared live in a heap, a finite map from locations
      (EventQueue, Pending, Connections, References, IndexedString, HashTableArray); [repr], [queue_holds],
      [list_of], [linked] and [tab_ok] relate it to lists.  In those of the sockets allocation is a fresh location; Allocator
      shows that blocks of a pool are apart, which is what this stands for.
    - [Prng], [BlockCipher] and [Ecc] are the calls into libtomcrypt, with the laws the
      program relies on where they are needed ([EccLaws]).  The code of the library is an
      instance of the first two ([yarrow], [aes_cipher_instance]); elliptic curves stay a
      parameter, with an instance for the witnesses.
    - Several threads are explicit steps: ThreadQueue for the workers, [solver_takes],
      [solver_finishes] and [thread_socket_receive] for the socket.
    - [deliver] (Establish) hands a datagram to [_process_packet]; the network is a list of sent
      datagrams, from which Protocol and Delivery draw in any order, any number of times.

    ** Bounds and fuel

    Every loop has fuel. The walks over lists take the number of records of the heap, which is
    enough because a list in good order does not repeat ([pchain_size], [conn_list_size]); the
    hash table the length of its array, and [remove_fuel] for a removal; the stream loops two
    passes; the puzzle solver the number of candidates; a deletion the number of objects
    ([dec_ref_drops]); the clearing of a pool or of small blocks their pages. That the fuel is
    enough is part of the theorems, which state that the result is [Ok]. The notify protocol
    is proved up to 2^32 - 2048 packets per connection ([limit]), after which the sequence
    numbers of the code wrap in ways it does not handle; arrays up to 2^31 elements
    ([max_elements]), those with a hash table up to 2^30 entries and interned strings up to
    2^30 operations, below which none of their 32-bit counters wraps.

    ** What the theorems show

    - The handshake: [handshake_establishes], and between sockets that a third introduces
      [introduction_connects]; what a side does when nobody answers:
      [unanswered_request_ends], [check_timeouts_sweeps]; the end of a connection:
      [disconnect_closes].
    - The notify protocol: [delivery_correct] and [protocol_total] for two endpoints of this
      program, [any_datagram_is_survived] for an endpoint that is sent anything.
    - Denial of service: [no_state_without_work], [strangers_change_nothing],
      [puzzle_no_replay], [puzzle_solution_accepted].
    - Data structures refine their specifications: [event_queue_fifo], [hash_table_is_map],
      [indexed_strings_are_strings], [table_array_refines_list],
      [pending_connections_are_a_list], [thread_queue_safe], [copy_bits_equals_reference].
    - Encodings and cryptography: [message_roundtrip], [any_message_is_read],
      [envelope_roundtrip], [base_64_roundtrip], [address_text_roundtrip],
      [sha256_streaming], [crc_equals_reference], [shared_secret_agrees], [aes_is_fips_197],
      [md5_is_rfc_1321], [signatures_are_accepted], [random_bytes_are_a_key_stream].
    - Memory: [array_refines_list] for the array template, [references_are_sound] and
      [only_cycles_leak] for objects and the references to them, [blocks_are_disjoint] and
      [clear_frees_every_page] for pools, [small_blocks_are_apart] for the blocks of interned strings.
    - Time: [dates_are_days_of_the_calendar], right but for the last day of a month.
    - Where the code goes wrong: [datagrams_that_stop_the_process],
      [lookups_go_wrong], the moves forward of [table_array_refines_list], and the examples
      [page_of_malloc], [status_page_denied] and those named [.._misses],
      [.._rounds], [.._loses_entry], [.._frees] and [add_again_diverges].

    ** Not modelled

    System calls (udp_socket.h, thread.h, the list of network interfaces), logging; [insert] of
    the array, which does not compile (the models of the sockets use a list for an array, which
    [array_refines_list] justifies); strings (string.h, formatted_string_buffer.h); the type
    database of src/core, the browser plugin framework and the other vendored libraries.
    Simulated loss and latency are modelled but the theorems about endpoints are for sockets
    that simulate neither. *)

From Stdlib Require Export ZArith Lia Bool List.
From stdpp Require Export base tactics option list numbers.
#[global] Open Scope Z_scope.

(** ** Faults and the result monad

    C++ code that stops abnormally is a value: an access outside a buffer, a null
    pointer that is followed, an [assert] of core/assert.h that traps, a loop that outlives
    the bound the model gives it, or an object used outside its lifetime. *)
Inductive fault : Type :=
  | out_of_bounds
  | null_deref
  | assertion_failed
  | division_by_zero
  | out_of_fuel
  | dead_object.

#[export] Instance fault_eq_dec : EqDecision fault.
Proof. solve_decision. Defined.

Inductive result (A : Type) : Type :=
  | Ok (a : A)
  | Fault (f : fault).
Arguments Ok {A} a.
Arguments Fault {A} f.

#[export] Instance result_ret : MRet result := @Ok.
#[export] Instance result_bind : MBind result := fun A B k m =>
  match m with Ok a => k a | Fault f => Fault f end.
#[export] Instance result_fmap : FMap result := fun A B g m =>
  match m with Ok a => Ok (g a) | Fault f => Fault f end.

(** [require c f] is the fault [f] unless [c] holds. *)
Definition require (c : bool) (f : fault) : result unit :=
  if c then Ok tt else Fault f.

(** [of_option f o] reads an optional value, with [f] for its absence. *)
Definition of_option {A} (f : fault) (o : option A) : result A :=
  match o with Some a => Ok a | None => Fault f end.

Lemma bind_Ok {A B} (m : result A) (k : A -> result B) b :
  (x ← m; k x) = Ok b -> exists a, m = Ok a /\ k a = Ok b.
Proof. destruct m as [a|f]; simpl; [eauto | discriminate]. Qed.

Lemma fmap_Ok {A B} (m : result A) (g : A -> B) b :
  g <$> m = Ok b -> exists a, m = Ok a /\ g a = b.
Proof. destruct m as [a|f]; simpl; intros [= <-]; eauto. Qed.

Lemma require_Ok c f u : require c f = Ok u -> c = true.
Proof. destruct c; [done | discriminate]. Qed.

Lemma of_option_Ok {A} f (o : option A) a : of_option f o = Ok a -> o = Some a.
Proof. destruct o; simpl; congruence. Qed.

(** ** Operations on a state

    [M S A] is an operation that reads and updates a state [S] and either returns an [A]
    or stops with a fault.  [zoom] runs an operation on a component of the state. *)
Definition M (S A : Type) : Type := S -> result (A * S).

#[export] Instance M_ret S : MRet (M S) := fun A a s => Ok (a, s).
#[export] Instance M_bind S : MBind (M S) := fun A B k m s =>
  match m s with Ok (a, s') => k a s' | Fault f => Fault f end.

Definition get {S} : M S S := fun s => Ok (s, s).
Definition put {S} (s : S) : M S unit := fun _ => Ok (tt, s).
Definition gets {S A} (g : S -> A) : M S A := fun s => Ok (g s, s).
Definition modify {S} (g : S -> S) : M S unit := fun s => Ok (tt, g s).
Definition lift {S A} (m : result A) : M S A := fun s =>
  match m with Ok a => Ok (a, s) | Fault f => Fault f end.
Definition zoom {S T A} (view : S -> T) (update : T -> S -> S) (m : M T A) : M S A := fun s =>
  match m (view s) with Ok (a, t) => Ok (a, update t s) | Fault f => Fault f end.

(** [when c m] is [if(c) m]. *)
Definition when {S} (c : bool) (m : M S unit) : M S unit := if c then m else mret tt.

(** One step of a computation whose first part is known. *)
Lemma bind_step {S A B} (m : M S A) a s' (k : A -> M S B) s :
  m s = Ok (a, s') -> (x ← m; k x) s = k a s'.
Proof. unfold mbind, M_bind. by intros ->. Qed.

Lemma lift_step {S A B} (m : result A) a (k : A -> M S B) s :
  m = Ok a -> (x ← lift m; k x) s = k a s.
Proof. intros ->. done. Qed.

Lemma M_bind_Ok {S A B} (m : M S A) (k : A -> M S B) s b s'' :
  (x ← m; k x) s = Ok (b, s'') -> exists a s', m s = Ok (a, s') /\ k a s' = Ok (b, s'').
Proof. unfold mbind, M_bind. destruct (m s) as [[a s']|f]; [eauto | discriminate]. Qed.

Lemma lift_Ok {S A} (m : result A) (s : S) a s' :
  lift m s = Ok (a, s') -> m = Ok a /\ s' = s.
Proof. unfold lift. destruct m; [|discriminate]. intros [= <- <-]. done. Qed.

Lemma zoom_Ok {S T A} (view : S -> T) update (m : M T A) s a s' :
  zoom view update m s = Ok (a, s') -> exists t, m (view s) = Ok (a, t) /\ s' = update t s.
Proof. unfold zoom. destruct (m (view s)) as [[b t]|f]; [|discriminate]. intros [= <- <-]. eauto. Qed.

(** Inverts every successful bind, guard and option read among the hypotheses. *)
Ltac inv_ok :=
  repeat match goal with
  | H : Ok _ = Ok _ |- _ => injection H as H; try subst
  | H : Fault _ = Ok _ |- _ => discriminate H
  | H : mret _ = Ok _ |- _ => unfold mret, result_ret in H
  | H : (_ ≫= _) _ = Ok (_, _) |- _ =>
      let x := fresh "x" in let s := fresh "s" in let Hx := fresh "Hx" in
      apply M_bind_Ok in H as (x & s & Hx & H); try (destruct x as [])
  | H : lift _ _ = Ok (_, _) |- _ => apply lift_Ok in H as [H ->]
  | H : zoom _ _ _ _ = Ok (_, _) |- _ =>
      let t := fresh "t" in apply zoom_Ok in H as (t & H & ->)
  | H : (_ ≫= _) = Ok _ |- _ =>
      let x := fresh "x" in let Hx := fresh "Hx" in
      apply bind_Ok in H as (x & Hx & H); try (destruct x as [])
  | H : (_ <$> _) = Ok _ |- _ =>
      let x := fresh "x" in let Hx := fresh "Hx" in
      apply fmap_Ok in H as (x & Hx & H)
  | H : require _ _ = Ok _ |- _ => apply require_Ok in H
  | H : of_option _ _ = Ok _ |- _ => apply of_option_Ok in H
  end.

(** ** Machine integers: a [w]-bit unsigned value is its residue modulo [2^w]. *)
Definition u8 (x : Z) : Z := x mod 2 ^ 8.
Definition u16 (x : Z) : Z := x mod 2 ^ 16.
Definition u32 (x : Z) : Z := x mod 2 ^ 32.
Definition u64 (x : Z) : Z := x mod 2 ^ 64.

(** A signed 32-bit value, read from the low 32 bits. *)
Definition s32 (x : Z) : Z := let y := u32 x in if y <? 2 ^ 31 then y else y - 2 ^ 32.

Definition in_u (w x : Z) : Prop := 0 <= x < 2 ^ w.
Notation is_u8 := (in_u 8).
Notation is_u16 := (in_u 16).
Notation is_u32 := (in_u 32).
Notation is_u64 := (in_u 64).

Lemma u8_range x : is_u8 (u8 x).
Proof. apply Z.mod_pos_bound. lia. Qed.
Lemma u16_range x : is_u16 (u16 x).
Proof. apply Z.mod_pos_bound. lia. Qed.
Lemma u32_range x : is_u32 (u32 x).
Proof. apply Z.mod_pos_bound. lia. Qed.
Lemma u64_range x : is_u64 (u64 x).
Proof. apply Z.mod_pos_bound. lia. Qed.

Lemma u8_small x : is_u8 x -> u8 x = x.
Proof. apply Z.mod_small. Qed.
Lemma u16_small x : is_u16 x -> u16 x = x.
Proof. apply Z.mod_small. Qed.
Lemma u32_small x : is_u32 x -> u32 x = x.
Proof. apply Z.mod_small. Qed.
Lemma u64_small x : is_u64 x -> u64 x = x.
Proof. apply Z.mod_small. Qed.

(** Unfolds the machine-integer vocabulary and hands the goal to [lia]. *)
Ltac zlia := unfold in_u, u8, u16, u32, u64 in *; Z.to_euclidean_division_equations; lia.

Create HintDb words discriminated.
#[export] Hint Resolve u8_range u16_range u32_range u64_range : words.
#[export] Hint Extern 1 (in_u _ _) => (split; [lia | (lia || reflexivity)]) : words.

(** ** Bitwise reasoning *)
Lemma testbit_u w x i : 0 <= w -> Z.testbit (x mod 2 ^ w) i = (Z.testbit x i && (i <? w)).
Proof.
  intros Hw. destruct (Z.ltb_spec i w).
  - destruct (Z.neg_nonneg_cases i); [by rewrite !Z.testbit_neg_r by lia |].
    by rewrite Z.mod_pow2_bits_low, andb_true_r by lia.
  - by rewrite Z.mod_pow2_bits_high, andb_false_r by lia.
Qed.

Lemma testbit_u8 x i : Z.testbit (u8 x) i = (Z.testbit x i && (i <? 8)).
Proof. by apply testbit_u. Qed.
Lemma testbit_u16 x i : Z.testbit (u16 x) i = (Z.testbit x i && (i <? 16)).
Proof. by apply testbit_u. Qed.
Lemma testbit_u32 x i : Z.testbit (u32 x) i = (Z.testbit x i && (i <? 32)).
Proof. by apply testbit_u. Qed.
Lemma testbit_u64 x i : Z.testbit (u64 x) i = (Z.testbit x i && (i <? 64)).
Proof. by apply testbit_u. Qed.

Lemma testbit_high w x i : in_u w x -> w <= i -> Z.testbit x i = false.
Proof.
  intros [Hx1 Hx2] Hi. destruct (Z.neg_nonneg_cases w).
  { rewrite Z.pow_neg_r in Hx2 by lia. lia. }
  rewrite <- (Z.mod_small x (2 ^ w)), testbit_u by lia.
  destruct (Z.ltb_spec i w); [lia | apply andb_false_r].
Qed.

Lemma in_u_of_bits w x :
  0 <= w -> 0 <= x -> (forall i, w <= i -> Z.testbit x i = false) -> in_u w x.
Proof.
  intros Hw Hx Hb. enough (x = x mod 2 ^ w) as -> by (apply Z.mod_pos_bound; lia).
  apply Z.bits_inj'. intros i Hi. rewrite testbit_u by done.
  destruct (Z.ltb_spec i w); [by rewrite andb_true_r | rewrite andb_false_r; auto with lia].
Qed.

Lemma lxor_u8 a b : is_u8 a -> is_u8 b -> is_u8 (Z.lxor a b).
Proof.
  intros Ha Hb. apply in_u_of_bits; [lia | |].
  - apply Z.lxor_nonneg. unfold in_u in *. lia.
  - intros i Hi. by rewrite Z.lxor_spec, !(testbit_high 8).
Qed.

Lemma testbit_mask n i : 0 <= n -> 0 <= i -> Z.testbit (Z.shiftl 1 n - 1) i = (i <? n).
Proof.
  intros. rewrite Z.shiftl_1_l. replace (2 ^ n - 1) with (Z.ones n) by (rewrite Z.ones_equiv; lia).
  destruct (Z.ltb_spec i n); [by apply Z.ones_spec_low | apply Z.ones_spec_high; lia].
Qed.

Lemma testbit_shiftl x n i : 0 <= i -> Z.testbit (Z.shiftl x n) i = Z.testbit x (i - n).
Proof. apply Z.shiftl_spec. Qed.
Lemma testbit_shiftr x n i : 0 <= i -> Z.testbit (Z.shiftr x n) i = Z.testbit x (i + n).
Proof. apply Z.shiftr_spec. Qed.

Create HintDb bits discriminated.
#[export] Hint Rewrite Z.land_spec Z.lor_spec Z.lxor_spec testbit_u8 testbit_u16 testbit_u32
  testbit_u64 Z.testbit_0_l : bits.
#[export] Hint Rewrite Z.lnot_spec testbit_mask testbit_shiftl testbit_shiftr using (lia || zlia) : bits.

(** Decides the integer comparisons left by [autorewrite with bits]. *)
Ltac cases_ltb :=
  repeat match goal with
  | |- context [?a <? ?b] => destruct (Z.ltb_spec a b); try lia
  | |- context [?a <=? ?b] => destruct (Z.leb_spec a b); try lia
  | |- context [?a =? ?b] => destruct (Z.eqb_spec a b); try lia
  end; cbn [andb orb negb].

Ltac simpl_bool :=
  rewrite ?andb_true_r, ?andb_false_r, ?andb_true_l, ?andb_false_l, ?orb_true_r, ?orb_false_r,
    ?orb_true_l, ?orb_false_l, ?xorb_false_r, ?xorb_false_l; simpl negb.

(** ** Byte buffers

    A buffer is the list of its bytes; an index is a C offset. *)
Notation bytes := (list Z).
Definition is_bytes (b : bytes) : Prop := Forall is_u8 b.
Definition blen (b : bytes) : Z := Z.of_nat (length b).

Definition bget (b : bytes) (i : Z) : result Z :=
  if 0 <=? i then of_option out_of_bounds (b !! Z.to_nat i) else Fault out_of_bounds.

Definition bset (b : bytes) (i v : Z) : result bytes :=
  if (0 <=? i) && (i <? blen b) then Ok (<[Z.to_nat i := v]> b) else Fault out_of_bounds.

Lemma bget_lt b i : 0 <= i < blen b -> exists v, bget b i = Ok v /\ b !! Z.to_nat i = Some v.
Proof.
  unfold bget, blen. intros Hi. destruct (Z.leb_spec 0 i); [|lia].
  destruct (lookup_lt_is_Some_2 b (Z.to_nat i)) as [v Hv]; [lia|].
  exists v. by rewrite Hv.
Qed.

Lemma bget_nth b i : 0 <= i < blen b -> bget b i = Ok (nth (Z.to_nat i) b 0).
Proof.
  intros Hi. destruct (bget_lt b i Hi) as (v & -> & Hv). f_equal. symmetry.
  by apply nth_lookup_Some.
Qed.

Lemma bget_Ok b i v : bget b i = Ok v -> 0 <= i < blen b /\ b !! Z.to_nat i = Some v.
Proof.
  unfold bget, blen. destruct (Z.leb_spec 0 i); [|done]. intros H1%of_option_Ok.
  split; [|done]. apply lookup_lt_Some in H1. lia.
Qed.

Lemma bset_lt b i v : 0 <= i < blen b -> bset b i v = Ok (<[Z.to_nat i := v]> b).
Proof.
  unfold bset. intros. destruct (Z.leb_spec 0 i); [|lia]. destruct (Z.ltb_spec i (blen b)); [done|lia].
Qed.

Lemma blen_insert (b : bytes) i v : blen (<[i := v]> b) = blen b.
Proof. unfold blen. by rewrite length_insert. Qed.

Lemma blen_nonneg b : 0 <= blen b.
Proof. unfold blen. lia. Qed.

Lemma blen_app (a b : bytes) : blen (a ++ b) = blen a + blen b.
Proof. unfold blen. rewrite length_app. lia. Qed.

Lemma take_all_bytes (b : bytes) : take (Z.to_nat (blen b)) b = b.
Proof. apply take_ge. unfold blen. lia. Qed.

Lemma is_bytes_cons v b : is_bytes (v :: b) -> is_u8 v /\ is_bytes b.
Proof. intros Hb. by inversion Hb. Qed.

Lemma is_bytes_insert b i v : is_bytes b -> is_u8 v -> is_bytes (<[i := v]> b).
Proof. intros. by apply Forall_insert. Qed.

Lemma is_bytes_lookup b i v : is_bytes b -> b !! i = Some v -> is_u8 v.
Proof. intros Hb Hv. by eapply Forall_lookup_1 in Hb. Qed.

#[export] Hint Resolve is_bytes_insert is_bytes_lookup blen_nonneg : words.
#[export] Hint Rewrite blen_insert blen_app : bytes.

(** *** The bits of a buffer: bit [i] is bit [i mod 8] of byte [i / 8]. *)
Definition bitz (b : bytes) (i : Z) : bool :=
  match b !! Z.to_nat (i / 8) with
  | Some v => (0 <=? i) && Z.testbit v (i mod 8)
  | None => false
  end.

Lemma bitz_insert b p v i :
  0 <= p < blen b -> 0 <= i ->
  bitz (<[Z.to_nat p := v]> b) i = if i / 8 =? p then Z.testbit v (i mod 8) else bitz b i.
Proof.
  unfold bitz, blen. intros Hp Hi. rewrite list_lookup_insert.
  pose proof (Z.div_pos i 8 Hi ltac:(lia)).
  destruct (Z.eqb_spec (i / 8) p) as [->|Hne].
  - rewrite decide_True by lia. destruct (Z.leb_spec 0 i); [done | lia].
  - rewrite decide_False by lia. done.
Qed.

Lemma bitz_byte b p v j :
  b !! Z.to_nat p = Some v -> 0 <= p -> 0 <= j < 8 -> bitz b (8 * p + j) = Z.testbit v j.
Proof.
  unfold bitz. intros Hv Hp Hj.
  replace ((8 * p + j) / 8) with p by zlia. replace ((8 * p + j) mod 8) with j by zlia.
  rewrite Hv. destruct (Z.leb_spec 0 (8 * p + j)); [done | lia].
Qed.

Lemma bitz_out b i : 8 * blen b <= i -> bitz b i = false.
Proof.
  unfold bitz, blen. intros Hi. rewrite lookup_ge_None_2; [done|]. zlia.
Qed.

(** Two buffers of bytes with the same length and the same bits are equal. *)
Lemma bytes_eq_bits a b :
  is_bytes a -> is_bytes b -> length a = length b ->
  (forall i, 0 <= i < 8 * blen a -> bitz a i = bitz b i) -> a = b.
Proof.
  intros Ha Hb Hl Hi. apply list_eq_same_length with (length a); [done | done |].
  intros k x y Hk Hx Hy. apply Z.bits_inj'. intros j Hj.
  destruct (Z.ltb_spec j 8).
  - specialize (Hi (8 * Z.of_nat k + j)). unfold blen in Hi.
    rewrite !(bitz_byte _ _ x), !(bitz_byte _ _ y) in Hi by (rewrite ?Nat2Z.id; done || lia).
    apply Hi. lia.
  - rewrite !(testbit_high 8) by eauto with words. done.
Qed.

(** ** Little-endian memory images of integers *)
Fixpoint le_bytes (n : nat) (x : Z) : bytes :=
  match n with
  | O => []
  | S n => u8 x :: le_bytes n (Z.shiftr x 8)
  end.

Fixpoint le_val (b : bytes) : Z :=
  match b with
  | [] => 0
  | v :: b => Z.lor (u8 v) (Z.shiftl (le_val b) 8)
  end.

Lemma length_le_bytes n x : length (le_bytes n x) = n.
Proof. revert x. induction n; simpl; auto. Qed.

Lemma blen_le_bytes n x : blen (le_bytes n x) = Z.of_nat n.
Proof. unfold blen. by rewrite length_le_bytes. Qed.

Lemma is_bytes_le_bytes n x : is_bytes (le_bytes n x).
Proof. revert x. induction n; simpl; constructor; auto with words. apply IHn. Qed.

Lemma bitz_cons v b i :
  0 <= i -> bitz (v :: b) i = if i <? 8 then Z.testbit v i else bitz b (i - 8).
Proof.
  intros Hi. unfold bitz. destruct (Z.ltb_spec i 8).
  - rewrite Z.div_small, Z.mod_small by lia. simpl. destruct (Z.leb_spec 0 i); [done | lia].
  - replace (i / 8) with (1 + (i - 8) / 8) by zlia.
    rewrite Z2Nat.inj_add by zlia. simpl.
    replace ((i - 8) mod 8) with (i mod 8) by zlia.
    destruct (b !! _); [|done].
    destruct (Z.leb_spec 0 i), (Z.leb_spec 0 (i - 8)); (done || lia).
Qed.

Lemma bitz_nil i : bitz [] i = false.
Proof. unfold bitz. by rewrite lookup_nil. Qed.

Lemma bitz_le_bytes n x i :
  0 <= i -> bitz (le_bytes n x) i = (Z.testbit x i && (i <? 8 * Z.of_nat n)).
Proof.
  revert x i. induction n as [|n IH]; intros x i Hi; cbn [le_bytes].
  - rewrite bitz_nil. destruct (Z.ltb_spec i (8 * Z.of_nat 0)); [lia | by rewrite andb_false_r].
  - rewrite bitz_cons by done. destruct (Z.ltb_spec i 8).
    + rewrite testbit_u8. cases_ltb. simpl_bool. done.
    + rewrite IH, testbit_shiftr by lia. rewrite Z.sub_add. cases_ltb; simpl_bool; done.
Qed.

Lemma le_val_nonneg b : 0 <= le_val b.
Proof.
  induction b as [|v b IH]; simpl; [lia|].
  apply Z.lor_nonneg. split; [zlia | by apply Z.shiftl_nonneg].
Qed.

Lemma testbit_le_val b i : is_bytes b -> 0 <= i -> Z.testbit (le_val b) i = bitz b i.
Proof.
  intros Hb. revert i. induction Hb as [|v b Hv Hb IH]; intros i Hi; cbn [le_val].
  - by rewrite bitz_nil, Z.testbit_0_l.
  - rewrite bitz_cons, Z.lor_spec, testbit_u8, testbit_shiftl by lia.
    destruct (Z.ltb_spec i 8).
    + by rewrite (Z.testbit_neg_r _ (i - 8)), orb_false_r, andb_true_r by lia.
    + rewrite andb_false_r, orb_false_l. apply IH. lia.
Qed.

Lemma le_val_range b : is_bytes b -> in_u (8 * blen b) (le_val b).
Proof.
  intros Hb. apply in_u_of_bits; [unfold blen; lia | apply le_val_nonneg |].
  intros i Hi. rewrite testbit_le_val by (unfold blen in *; done || lia). by apply bitz_out.
Qed.

Lemma le_val_le_bytes n x : le_val (le_bytes n x) = x mod 2 ^ (8 * Z.of_nat n).
Proof.
  apply Z.bits_inj'. intros i Hi.
  by rewrite testbit_le_val, bitz_le_bytes, testbit_u by (done || lia || apply is_bytes_le_bytes).
Qed.

Lemma le_bytes_le_val b : is_bytes b -> le_bytes (length b) (le_val b) = b.
Proof.
  intros Hb. apply bytes_eq_bits; [apply is_bytes_le_bytes | done | apply length_le_bytes |].
  intros i [Hi Hi2]. rewrite blen_le_bytes in Hi2.
  rewrite bitz_le_bytes, testbit_le_val by (done || lia). cases_ltb. by rewrite andb_true_r.
Qed.

#[export] Hint Resolve is_bytes_le_bytes : words.
#[export] Hint Rewrite length_le_bytes blen_le_bytes : bytes.

(** ** Lists *)
Lemma filter_all {A} (P : A -> Prop) `{forall x, Decision (P x)} l :
  Forall P l -> filter P l = l.
Proof. induction 1 as [|x l Hx Hl IH]; [done|]. by rewrite filter_cons_True, IH. Qed.

Lemma filter_none {A} (P : A -> Prop) `{forall x, Decision (P x)} l :
  Forall (fun x => ~ P x) l -> filter P l = [].
Proof. induction 1 as [|x l Hx Hl IH]; [done|]. by rewrite filter_cons_False. Qed.

(** *** Case analysis over a bounded integer *)
Lemma Z_enum i n : 0 <= i < Z.of_nat n -> In i (map Z.of_nat (seq 0 n)).
Proof.
  intros Hi. apply in_map_iff. exists (Z.to_nat i). split; [lia|]. apply in_seq. lia.
Qed.

(** [enum_Z i n] replaces [i], known to satisfy [0 <= i < n], by each of its values. *)
Ltac enum_Z i n :=
  let H := fresh in
  assert (H : In i (map Z.of_nat (seq 0 n))) by (apply Z_enum; lia);
  cbn in H; repeat (destruct H as [<-|H]); [.. | destruct H].
