(* ===== verification/Endian.v ===== *)
(** * Byte order and powers of two: core/cpu_endian.h, core/power_two_functions.h

    [endian_swap16/32/64] are the three overloads of [endian_swap]; the development
    fixes the little-endian build ([LITTLE_ENDIAN], the x86 platforms of
    core/platform.h), where [host_to_little_endian] is the identity and
    [host_to_big_endian] swaps.  [get_binary_log] goes through the IEEE single-precision
    image of its argument, as the code does. *)
From S2P Require Import Prelude.

(** ** cpu_endian.h *)
Definition endian_swap16 (value : Z) : Z :=
  u16 (Z.lor (Z.shiftl value 8) (Z.shiftr value 8)).

Definition endian_swap32 (value : Z) : Z :=
  Z.lor (Z.lor (Z.lor (Z.land (u32 (Z.shiftl value 24)) 0xFF000000)
                      (Z.land (u32 (Z.shiftl value 8)) 0xFF0000))
               (Z.land (Z.shiftr value 8) 0xFF00))
        (Z.land (Z.shiftr value 24) 0xFF).

(** The two 32-bit halves of the object in memory, swapped and exchanged. *)
Definition endian_swap64 (value : Z) : Z :=
  let src0 := u32 value in
  let src1 := u32 (Z.shiftr value 32) in
  let src0 := endian_swap32 src0 in
  let src1 := endian_swap32 src1 in
  let temp := src0 in
  let src0 := src1 in
  let src1 := temp in
  Z.lor src0 (Z.shiftl src1 32).

(** The [LITTLE_ENDIAN] branch. *)
Definition host_to_little_endian (value : Z) : Z := value.
Definition little_endian_to_host (value : Z) : Z := value.
Definition host_to_big_endian32 (value : Z) : Z := endian_swap32 value.

Definition buffer_to_uint32 (buffer : bytes) : result Z :=
  b0 ← bget buffer 0; b1 ← bget buffer 1; b2 ← bget buffer 2; b3 ← bget buffer 3;
  Ok (Z.lor (Z.lor (Z.lor (Z.shiftl b0 24) (Z.shiftl b1 16)) (Z.shiftl b2 8)) b3).

(** ** power_two_functions.h *)
Definition is_power_of_2 (number : Z) : bool := Z.land number (u32 (number - 1)) =? 0.

(** The bit pattern of [float32(value)] for an unsigned [value]: the leading bit gives
    the exponent, 23 further bits are kept and the rest is rounded to nearest, ties to
    even; a mantissa that rounds up to [2^24] carries into the exponent. *)
Definition float32_bits (value : Z) : Z :=
  if value =? 0 then 0 else
  let e := Z.log2 value in
  let mantissa :=
    if e <=? 23 then Z.shiftl value (23 - e)
    else
      let s := e - 23 in
      let q := Z.shiftr value s in
      let r := value mod 2 ^ s in
      if (2 * r <? 2 ^ s) || ((2 * r =? 2 ^ s) && Z.even q) then q else q + 1 in
  Z.shiftl (e + 127) 23 + (mantissa - 2 ^ 23).

Definition get_binary_log (value : Z) : Z := u32 (Z.shiftr (float32_bits value) 23 - 127).

Definition get_next_binary_log (number : Z) : Z :=
  u32 (get_binary_log number + (if is_power_of_2 number then 0 else 1)).

(** [1 << n] on an [int]: shifting by 32 or more, or out of the sign bit, is undefined;
    [get_next_power_of_2] is modelled where the shift count is below 31. *)
Definition get_next_power_of_2 (value : Z) : option Z :=
  if is_power_of_2 value then Some value
  else
    let n := u32 (get_binary_log value + 1) in
    if n <? 31 then Some (Z.shiftl 1 n) else None.

(** ** Byte swaps *)
Lemma endian_swap32_range value : is_u32 (endian_swap32 value).
Proof.
  unfold endian_swap32. apply in_u_of_bits; [lia | |].
  - repeat (apply Z.lor_nonneg; split); apply Z.land_nonneg; right; lia.
  - intros i Hi. autorewrite with bits.
    rewrite !(testbit_high 32 _ i) by (done || split; lia). by simpl_bool.
Qed.

Lemma testbit_swap32 value i :
  0 <= i < 32 -> Z.testbit (endian_swap32 value) i = Z.testbit value (8 * (3 - i / 8) + i mod 8).
Proof.
  intros Hi. unfold endian_swap32. autorewrite with bits.
  enum_Z i 32%nat; cbn -[Z.testbit]; simpl_bool;
    rewrite ?(Z.testbit_neg_r _ (Z.neg _)) by lia; reflexivity.
Qed.

Lemma endian_swap16_range value : is_u16 (endian_swap16 value).
Proof. apply u16_range. Qed.

Lemma testbit_swap16 value i :
  is_u16 value -> 0 <= i < 16 ->
  Z.testbit (endian_swap16 value) i = Z.testbit value (8 * (1 - i / 8) + i mod 8).
Proof.
  intros Hv Hi. unfold endian_swap16. autorewrite with bits.
  destruct (Z.ltb_spec i 16); [|lia]. simpl_bool. destruct (Z.ltb_spec i 8).
  - rewrite (Z.testbit_neg_r _ (i - 8)) by lia. simpl_bool. f_equal. zlia.
  - rewrite (testbit_high 16 value (i + 8)) by (done || lia). simpl_bool. f_equal. zlia.
Qed.

Lemma endian_swap64_range value : is_u64 (endian_swap64 value).
Proof.
  unfold endian_swap64. apply in_u_of_bits; [lia | |].
  - apply Z.lor_nonneg. split; [apply endian_swap32_range |].
    apply Z.shiftl_nonneg, endian_swap32_range.
  - intros i Hi. autorewrite with bits.
    rewrite !(testbit_high 32 (endian_swap32 _)) by (apply endian_swap32_range || lia). done.
Qed.

Lemma testbit_swap64 value i :
  0 <= i < 64 -> Z.testbit (endian_swap64 value) i = Z.testbit value (8 * (7 - i / 8) + i mod 8).
Proof.
  intros Hi. unfold endian_swap64. autorewrite with bits.
  destruct (Z.ltb_spec i 32).
  - rewrite testbit_swap32 by lia. rewrite testbit_u32, (Z.testbit_neg_r _ (i - 32)) by lia.
    rewrite testbit_shiftr by zlia. simpl_bool.
    destruct (Z.ltb_spec (8 * (3 - i / 8) + i mod 8) 32); [|zlia]. simpl_bool. f_equal. zlia.
  - rewrite (testbit_high 32 (endian_swap32 _)) by (apply endian_swap32_range || lia).
    rewrite testbit_swap32 by lia. simpl_bool. rewrite testbit_u32.
    destruct (Z.ltb_spec (8 * (3 - (i - 32) / 8) + (i - 32) mod 8) 32); [|zlia].
    simpl_bool. f_equal. zlia.
Qed.

(** A word whose bits are those of [x] with the bytes in reverse order has the reversed
    memory image. *)
Lemma rev_le_bytes (n : nat) x y :
  (forall i, 0 <= i < 8 * Z.of_nat n ->
    Z.testbit y i = Z.testbit x (8 * (Z.of_nat n - 1 - i / 8) + i mod 8)) ->
  le_bytes n y = reverse (le_bytes n x).
Proof.
  intros Hbits. apply bytes_eq_bits; autorewrite with bytes.
  - auto with words.
  - apply Forall_reverse, is_bytes_le_bytes.
  - by rewrite length_reverse, length_le_bytes.
  - intros i Hi. rewrite bitz_le_bytes, Hbits by lia. unfold bitz.
    rewrite reverse_lookup. 2:{ rewrite length_le_bytes. zlia. }
    rewrite length_le_bytes.
    set (k := (n - S (Z.to_nat (i / 8)))%nat).
    destruct (lookup_lt_is_Some_2 (le_bytes n x) k) as [v Hv]; [rewrite length_le_bytes; zlia|].
    rewrite Hv. cases_ltb. simpl_bool.
    pose proof (bitz_byte (le_bytes n x) (Z.of_nat k) v (i mod 8)) as Hb.
    rewrite Nat2Z.id, bitz_le_bytes in Hb by zlia.
    rewrite <- Hb by (done || zlia). subst k.
    replace (Z.of_nat (n - S (Z.to_nat (i / 8)))) with (Z.of_nat n - 1 - i / 8) by zlia.
    destruct (Z.ltb_spec (8 * (Z.of_nat n - 1 - i / 8) + i mod 8) (8 * Z.of_nat n)); [|zlia].
    by simpl_bool.
Qed.

Lemma le_bytes_inj n x y :
  in_u (8 * Z.of_nat n) x -> in_u (8 * Z.of_nat n) y -> le_bytes n x = le_bytes n y -> x = y.
Proof.
  intros Hx Hy Heq%(f_equal le_val). rewrite !le_val_le_bytes in Heq.
  by rewrite !Z.mod_small in Heq by done.
Qed.

(** Each overload of [endian_swap] reverses the bytes of its argument in memory. *)
Theorem endian_swap_reverses_bytes (v16 v32 v64 : Z) :
  is_u16 v16 ->
  le_bytes 2 (endian_swap16 v16) = reverse (le_bytes 2 v16) /\
  le_bytes 4 (endian_swap32 v32) = reverse (le_bytes 4 v32) /\
  le_bytes 8 (endian_swap64 v64) = reverse (le_bytes 8 v64).
Proof.
  intros H16. split_and!; apply rev_le_bytes; intros i Hi;
    [apply testbit_swap16 | apply testbit_swap32 | apply testbit_swap64]; (done || lia).
Qed.

(** Byte swapping is an involution on 16-, 32- and 64-bit values. *)
Lemma endian_swap16_invol v : is_u16 v -> endian_swap16 (endian_swap16 v) = v.
Proof.
  intros Hv. apply (le_bytes_inj 2); [apply endian_swap16_range | done |].
  rewrite (rev_le_bytes 2 (endian_swap16 v)), (rev_le_bytes 2 v), reverse_involutive; [done | |];
    intros; apply testbit_swap16; (done || apply endian_swap16_range).
Qed.

Lemma endian_swap32_invol v : is_u32 v -> endian_swap32 (endian_swap32 v) = v.
Proof.
  intros Hv. apply (le_bytes_inj 4); [apply endian_swap32_range | done |].
  rewrite (rev_le_bytes 4 (endian_swap32 v)), (rev_le_bytes 4 v), reverse_involutive; [done | |];
    intros; by apply testbit_swap32.
Qed.

(** ** Powers of two *)
Lemma is_power_of_2_log2 v :
  0 < v < 2 ^ 32 -> is_power_of_2 v = (v =? 2 ^ Z.log2 v).
Proof.
  intros Hv. unfold is_power_of_2. rewrite u32_small by zlia.
  pose proof (Z.log2_spec v ltac:(lia)) as Hl. pose proof (Z.log2_nonneg v).
  apply eq_true_iff_eq. rewrite !Z.eqb_eq. split.
  - intros H0. destruct (Z.eqb_spec v (2 ^ Z.log2 v)); [done|].
    assert (Hlog : Z.log2 (v - 1) = Z.log2 v) by (apply Z.log2_unique; lia).
    assert (Z.testbit (Z.land v (v - 1)) (Z.log2 v) = true) as Ht.
    { rewrite Z.land_spec, Z.bit_log2 by lia. rewrite <- Hlog, Z.bit_log2 by lia. done. }
    rewrite H0, Z.testbit_0_l in Ht. done.
  - intros ->. apply Z.bits_inj'. intros i Hi. rewrite Z.land_spec, Z.testbit_0_l, Z.pow2_bits_eqb by done.
    destruct (Z.eqb_spec (Z.log2 v) i) as [<-|]; [|done].
    rewrite andb_true_l. apply (testbit_high (Z.log2 v)); [split; lia | lia].
Qed.

(** The mantissa rounds up into the next binade exactly on the top [2^(e-24)] values. *)
Definition rounds_up_to_next (v : Z) : bool :=
  (24 <=? Z.log2 v) && (2 ^ (Z.log2 v + 1) - 2 ^ (Z.log2 v - 24) <=? v).

Lemma float32_bits_exponent v :
  0 < v -> Z.shiftr (float32_bits v) 23 =
           Z.log2 v + 127 + (if rounds_up_to_next v then 1 else 0).
Proof.
  intros Hv. unfold float32_bits, rounds_up_to_next. cbv zeta.
  pose proof (Z.log2_spec v Hv) as [Hl1 Hl2]. rewrite Z.pow_succ_r in Hl2 by apply Z.log2_nonneg.
  pose proof (Z.log2_nonneg v). set (e := Z.log2 v) in *.
  destruct (Z.eqb_spec v 0); [lia|]. rewrite Z.shiftr_div_pow2, Z.shiftl_mul_pow2 by lia.
  rewrite Z.div_add_l by lia. apply (f_equal (Z.add (e + 127))).
  destruct (Z.leb_spec e 23).
  - destruct (Z.leb_spec 24 e); [lia|]. simpl. rewrite Z.shiftl_mul_pow2 by lia.
    assert (2 ^ e * 2 ^ (23 - e) = 2 ^ 23) by (rewrite <- Z.pow_add_r by lia; f_equal; lia).
    assert (0 < 2 ^ (23 - e)) by (apply Z.pow_pos_nonneg; lia).
    apply Z.div_small. nia.
  - destruct (Z.leb_spec 24 e); [|lia]. cbn [andb]. rewrite Z.shiftr_div_pow2 by lia.
    set (s := e - 23). assert (Hs : 2 ^ s = 2 * 2 ^ (e - 24)).
    { subst s. rewrite <- Z.pow_succ_r by lia. f_equal. lia. }
    assert (He : 2 ^ e = 2 ^ 23 * 2 ^ s) by (rewrite <- Z.pow_add_r by lia; f_equal; lia).
    assert (0 < 2 ^ (e - 24)) by (apply Z.pow_pos_nonneg; lia).
    rewrite Z.pow_add_r by lia. change (2 ^ 1) with 2.
    pose proof (Z.div_mod v (2 ^ s) ltac:(lia)). pose proof (Z.mod_pos_bound v (2 ^ s) ltac:(lia)).
    set (q := v / 2 ^ s) in *. set (r := v mod 2 ^ s) in *. set (h := 2 ^ (e - 24)) in *.
    assert (2 ^ 23 <= q < 2 ^ 24) by (change (2 ^ 24) with (2 * 2 ^ 23); nia).
    destruct (Z.leb_spec (2 ^ e * 2 - h) v).
    + assert (q = 2 ^ 24 - 1) as Hq by (change (2 ^ 24) with (2 * 2 ^ 23) in *; nia).
      assert (h <= r) by (change (2 ^ 24) with (2 * 2 ^ 23) in *; nia).
      replace (Z.even q) with false by (by rewrite Hq).
      rewrite andb_false_r, orb_false_r. destruct (Z.ltb_spec (2 * r) (2 ^ s)); [lia|].
      rewrite Hq. reflexivity.
    + match goal with |- (if ?c then _ else _) / _ = _ => idtac | |- ((if ?c then _ else _) - _) / _ = _ =>
        destruct c eqn:Hc end.
      * apply Z.div_small. change (2 ^ 24) with (2 * 2 ^ 23) in *. lia.
      * apply Z.div_small. apply orb_false_iff in Hc as [Hc _].
        apply Z.ltb_ge in Hc. assert (q <> 2 ^ 24 - 1); [|change (2 ^ 24) with (2 * 2 ^ 23) in *; lia].
        intros Hq. change (2 ^ 24) with (2 * 2 ^ 23) in *. nia.
Qed.

(** [get_binary_log] is the floor of the binary logarithm, except on the values that
    round up into the next binade as floats, where it is one more. *)
Theorem get_binary_log_exact (v : Z) :
  0 < v < 2 ^ 32 ->
  get_binary_log v = Z.log2 v + (if rounds_up_to_next v then 1 else 0).
Proof.
  intros Hv. unfold get_binary_log. rewrite float32_bits_exponent by lia.
  pose proof (Z.log2_nonneg v). assert (Z.log2 v < 32) by (apply Z.log2_lt_pow2; lia).
  rewrite u32_small; destruct (rounds_up_to_next v); zlia.
Qed.

Lemma get_binary_log_small v : 0 < v < 2 ^ 24 -> get_binary_log v = Z.log2 v.
Proof.
  intros Hv. rewrite get_binary_log_exact by lia. unfold rounds_up_to_next.
  assert (Z.log2 v < 24) by (apply Z.log2_lt_pow2; lia).
  destruct (Z.leb_spec 24 (Z.log2 v)); [lia|]. simpl. lia.
Qed.

(** The first value on which the rounding shows: [2^25 - 1] has logarithm 24. *)
Example get_binary_log_rounds : get_binary_log (2 ^ 25 - 1) = 25 /\ Z.log2 (2 ^ 25 - 1) = 24.
Proof. by vm_compute. Qed.

Lemma log2_up_next v : 0 < v -> Z.log2_up v = Z.log2 v + (if v =? 2 ^ Z.log2 v then 0 else 1).
Proof.
  intros Hv. pose proof (Z.log2_spec v Hv) as [Hl1 Hl2]. pose proof (Z.log2_nonneg v).
  destruct (Z.eqb_spec v (2 ^ Z.log2 v)) as [He|He].
  - rewrite He at 1. rewrite Z.log2_up_pow2 by done. lia.
  - rewrite Z.add_1_r. apply Z.log2_up_unique; [lia|].
    rewrite Z.pred_succ. rewrite Z.pow_succ_r in * by done. lia.
Qed.

(** For arguments below [2^24], [get_next_binary_log] is the least [k] with [v <= 2^k]:
    the number of bits [write_ranged_uint32] needs for a range of size [v]. *)
Lemma get_next_binary_log_spec v : 0 < v < 2 ^ 24 -> get_next_binary_log v = Z.log2_up v.
Proof.
  intros Hv. unfold get_next_binary_log.
  rewrite get_binary_log_small, is_power_of_2_log2, log2_up_next by lia.
  pose proof (Z.log2_nonneg v). assert (Z.log2 v < 24) by (apply Z.log2_lt_pow2; lia).
  apply u32_small. destruct (v =? _); zlia.
Qed.

(** [get_next_power_of_2] is the least power of two that is at least its argument. *)
Theorem get_next_power_of_2_least (v : Z) :
  0 < v < 2 ^ 24 ->
  exists p, get_next_power_of_2 v = Some p /\ p = 2 ^ Z.log2_up v /\ v <= p < 2 * v.
Proof.
  intros Hv. unfold get_next_power_of_2.
  rewrite is_power_of_2_log2, get_binary_log_small, log2_up_next by lia.
  pose proof (Z.log2_nonneg v). assert (Z.log2 v < 24) by (apply Z.log2_lt_pow2; lia).
  pose proof (Z.log2_spec v ltac:(lia)) as [Hl1 Hl2]. rewrite Z.pow_succ_r in Hl2 by done.
  destruct (Z.eqb_spec v (2 ^ Z.log2 v)) as [He|He].
  - exists v. rewrite Z.add_0_r. split_and!; (done || lia).
  - exists (2 ^ (Z.log2 v + 1)).
    rewrite u32_small by zlia. destruct (Z.ltb_spec (Z.log2 v + 1) 31); [|lia].
    rewrite Z.shiftl_1_l, Z.pow_add_r, Z.pow_1_r by lia. split_and!; (done || lia).
Qed.
