(* ===== verification/BitCopy.v ===== *)
(** * The bit copier of core/bit_stream.h

    [_copy_bits] moves a run of bits between two byte buffers at arbitrary bit offsets,
    a byte at a time.  Its reference definition is a statement about single bits: the
    bits of the destination run are those of the source run and no other bit changes.
    [_copy_bits_correct] proves the two equal, and that no access leaves the buffers. *)
From S2P Require Import Prelude.

(** The loop of the branch where both offsets agree modulo 8. *)
Fixpoint aligned_loop (fuel : nat) (dest source : bytes) (dest_ptr source_ptr last_write_byte
    buffer : Z) : result (bytes * Z) :=
  if dest_ptr =? last_write_byte then Ok (dest, buffer)
  else match fuel with
  | O => Fault out_of_fuel
  | S fuel =>
    dest ← bset dest dest_ptr buffer;
    buffer ← bget source source_ptr;
    aligned_loop fuel dest source (dest_ptr + 1) (source_ptr + 1) last_write_byte buffer
  end.

(** The loop of the general branch; [slider] carries the bits not yet written. *)
Fixpoint slider_loop (fuel : nat) (dest source : bytes) (dest_ptr source_ptr last_write_byte
    slider up_shift : Z) : result (bytes * Z * Z) :=
  if dest_ptr =? last_write_byte then Ok (dest, source_ptr, slider)
  else match fuel with
  | O => Fault out_of_fuel
  | S fuel =>
    s ← bget source source_ptr;
    let slider := Z.lor slider (u32 (Z.shiftl s up_shift)) in
    dest ← bset dest dest_ptr (u8 slider);
    slider_loop fuel dest source (dest_ptr + 1) (source_ptr + 1) last_write_byte
      (Z.shiftr slider 8) up_shift
  end.

(** The end of the general branch: the remaining bytes and the masked last byte. *)
Definition copy_slider (dest source : bytes) (dest_ptr source_ptr last_write_byte last_write_bit
    slider up_shift : Z) : result bytes :=
  '(dest, source_ptr, slider) ←
    slider_loop (S (length dest)) dest source dest_ptr source_ptr last_write_byte slider up_shift;
  let last_write_bit_in_byte := Z.land last_write_bit 7 in
  slider ← (if up_shift <=? last_write_bit_in_byte
            then s ← bget source source_ptr; Ok (Z.lor slider (u32 (Z.shiftl s up_shift)))
            else Ok slider);
  let mask := u8 (Z.shiftl 1 (last_write_bit_in_byte + 1) - 1) in
  d ← bget dest last_write_byte;
  bset dest last_write_byte (u8 (Z.lor (Z.land slider mask) (Z.land d (Z.lnot mask)))).

Definition _copy_bits (dest : bytes) (dest_bit0 : Z) (source : bytes) (source_bit0 bit_count : Z)
    : result bytes :=
  _ ← require (negb (bit_count =? 0)) assertion_failed;
  let dest_ptr := Z.shiftr dest_bit0 3 in
  let source_ptr := Z.shiftr source_bit0 3 in
  let dest_bit := Z.land dest_bit0 7 in
  let source_bit := Z.land source_bit0 7 in
  let last_write_bit := u32 (dest_bit + bit_count - 1) in
  let last_write_byte := dest_ptr + Z.shiftr last_write_bit 3 in
  if source_bit =? dest_bit then
    let mask := u8 (Z.shiftl 1 source_bit - 1) in
    d ← bget dest dest_ptr; s ← bget source source_ptr;
    let buffer := u8 (Z.lor (Z.land d mask) (Z.land s (Z.lnot mask))) in
    '(dest, buffer) ←
      aligned_loop (S (length dest)) dest source dest_ptr (source_ptr + 1) last_write_byte buffer;
    let mask := u8 (Z.shiftl 1 (Z.land last_write_bit 7 + 1) - 1) in
    d ← bget dest last_write_byte;
    bset dest last_write_byte (u8 (Z.lor (Z.land buffer mask) (Z.land d (Z.lnot mask))))
  else
    slider ← bget source source_ptr;
    let source_ptr := source_ptr + 1 in
    if source_bit <? dest_bit then
      let up_shift := dest_bit - source_bit in
      if u32 (dest_bit + bit_count) <=? 8 then
        let mask := u8 (Z.shiftl (Z.shiftl 1 bit_count - 1) dest_bit) in
        d ← bget dest dest_ptr;
        bset dest dest_ptr
          (u8 (Z.lor (Z.land d (Z.lnot mask)) (Z.land (u8 (Z.shiftl slider up_shift)) mask)))
      else
        let mask := u8 (Z.shiftl 1 dest_bit - 1) in
        d ← bget dest dest_ptr;
        dest ← bset dest dest_ptr
          (u8 (Z.lor (Z.land d mask) (Z.land (u32 (Z.shiftl slider up_shift)) (Z.lnot mask))));
        copy_slider dest source (dest_ptr + 1) source_ptr last_write_byte last_write_bit
          (Z.shiftr slider (8 - up_shift)) up_shift
    else
      let down_shift := source_bit - dest_bit in
      let mask := u8 (Z.shiftl 1 dest_bit - 1) in
      d ← bget dest dest_ptr;
      copy_slider dest source dest_ptr source_ptr last_write_byte last_write_bit
        (Z.lor (Z.land d mask) (Z.land (Z.shiftr slider down_shift) (Z.lnot mask)))
        (8 - down_shift).

(** ** The reference: one bit at a time *)

(** What an unbounded copy would leave at bit [i]. *)
Definition stream_target (dest : bytes) (dest_bit : Z) (source : bytes) (source_bit i : Z) : bool :=
  if dest_bit <=? i then bitz source (i - dest_bit + source_bit) else bitz dest i.

(** [copied dest dest_bit source source_bit n dest'] says that [dest'] is [dest] with the
    [n] bits from [dest_bit] on replaced by those of [source] from [source_bit] on. *)
Definition copied (dest : bytes) (dest_bit : Z) (source : bytes) (source_bit n : Z)
    (dest' : bytes) : Prop :=
  is_bytes dest' /\ length dest' = length dest /\
  forall i, 0 <= i ->
    bitz dest' i = if (dest_bit <=? i) && (i <? dest_bit + n)
                   then bitz source (i - dest_bit + source_bit) else bitz dest i.

(** The bits [lo .. hi) of [dest'] follow the target [T], the others are those of [dest]. *)
Definition follows (T : Z -> bool) (lo hi : Z) (dest dest' : bytes) : Prop :=
  is_bytes dest' /\ length dest' = length dest /\
  forall i, 0 <= i ->
    bitz dest' i = if (lo <=? i) && (i <? hi) then T i else bitz dest i.

Lemma follows_refl T lo dest : is_bytes dest -> follows T lo lo dest dest.
Proof. intros. unfold follows. split_and!; [done..|]. intros. by cases_ltb. Qed.

Lemma follows_trans T lo mid hi a b c :
  lo <= mid <= hi -> follows T lo mid a b -> follows T mid hi b c -> follows T lo hi a c.
Proof.
  intros Hm (_ & Hl1 & H1) (Hb & Hl2 & H2). unfold follows. split_and!; [done | congruence |].
  intros i Hi. rewrite H2, H1 by done. cases_ltb; simpl; done.
Qed.

(** Writing the byte whose low [n] bits are those of the target and whose other bits are
    the old ones extends the followed range by [n] bits. *)
Lemma follows_write T dest p v n :
  is_bytes dest -> 0 <= p < blen dest -> is_u8 v -> 0 <= n <= 8 ->
  (forall j, 0 <= j < 8 ->
    Z.testbit v j = if j <? n then T (8 * p + j) else bitz dest (8 * p + j)) ->
  exists dest', bset dest p v = Ok dest' /\ follows T (8 * p) (8 * p + n) dest dest'.
Proof.
  intros Hd Hp Hv Hn Hbits. rewrite bset_lt by done. eexists. split; [done|].
  unfold follows. split_and!; [eauto with words | by rewrite length_insert |].
  intros i Hi. rewrite bitz_insert by done. destruct (Z.eqb_spec (i / 8) p) as [<-|Hne].
  - rewrite Hbits by zlia. replace (8 * (i / 8) + i mod 8) with i by zlia.
    destruct (Z.leb_spec (8 * (i / 8)) i); [|zlia].
    destruct (Z.ltb_spec (i mod 8) n), (Z.ltb_spec i (8 * (i / 8) + n)); (done || zlia).
  - destruct (Z.leb_spec (8 * p) i), (Z.ltb_spec i (8 * p + n)); simpl; (done || zlia).
Qed.

Lemma bget_bits b i :
  is_bytes b -> 0 <= i < blen b ->
  exists v, bget b i = Ok v /\ is_u8 v /\ forall j, 0 <= j < 8 -> Z.testbit v j = bitz b (8 * i + j).
Proof.
  intros Hb Hi. destruct (bget_lt b i Hi) as (v & Hg & Hv). exists v.
  split_and!; [done | eauto with words |]. intros j Hj.
  symmetry. apply bitz_byte; (done || lia).
Qed.

(** ** The two loops *)
Lemma aligned_loop_correct T source last fuel :
  is_bytes source ->
  forall dest dest_ptr source_ptr buffer,
  is_bytes dest -> 0 <= dest_ptr <= last -> last < blen dest ->
  0 <= source_ptr -> source_ptr + (last - dest_ptr) <= blen source ->
  last - dest_ptr <= Z.of_nat fuel ->
  is_u8 buffer -> (forall j, 0 <= j < 8 -> Z.testbit buffer j = T (8 * dest_ptr + j)) ->
  (forall i, 8 * (dest_ptr + 1) <= i -> T i = bitz source (i + 8 * (source_ptr - dest_ptr - 1))) ->
  exists dest' buffer',
    aligned_loop fuel dest source dest_ptr source_ptr last buffer = Ok (dest', buffer') /\
    follows T (8 * dest_ptr) (8 * last) dest dest' /\
    is_u8 buffer' /\ (forall j, 0 <= j < 8 -> Z.testbit buffer' j = T (8 * last + j)).
Proof.
  intros Hs. induction fuel as [|fuel IH]; intros dest dest_ptr source_ptr buffer Hd Hp Hl Hsp Hsl
    Hf Hb Hbits HT; cbn [aligned_loop]; destruct (Z.eqb_spec dest_ptr last) as [<-|Hne];
    try lia; eauto 10 using follows_refl.
  destruct (follows_write T dest dest_ptr buffer 8) as (dest1 & -> & H1); [done | lia | done | lia |..].
  { intros j Hj. rewrite Hbits by done. by cases_ltb. }
  cbn [mbind result_bind].
  destruct (bget_bits source source_ptr Hs) as (v & -> & Hv & Hvb); [lia|].
  cbn [mbind result_bind]. pose proof H1 as (Hd1 & Hl1 & _).
  destruct (IH dest1 (dest_ptr + 1) (source_ptr + 1) v) as (dest' & buffer' & -> & H2 & Hb' & Hbits').
  - done.
  - lia.
  - unfold blen in *. lia.
  - lia.
  - lia.
  - lia.
  - done.
  - intros j Hj. rewrite Hvb, HT by lia. f_equal. lia.
  - intros i Hi. rewrite HT by lia. f_equal. lia.
  - exists dest', buffer'. split_and!; try done.
    apply follows_trans with (8 * dest_ptr + 8) dest1; [lia | done |].
    by replace (8 * dest_ptr + 8) with (8 * (dest_ptr + 1)) by lia.
Qed.

(** Pushing one more source byte into the slider completes a byte of the target. *)
Lemma slider_push T source source_ptr dest_ptr slider up_shift s :
  0 < up_shift < 8 -> in_u up_shift slider -> is_u8 s -> 0 <= dest_ptr ->
  (forall j, 0 <= j < 8 -> Z.testbit s j = bitz source (8 * source_ptr + j)) ->
  (forall j, 0 <= j < up_shift -> Z.testbit slider j = T (8 * dest_ptr + j)) ->
  (forall i, 8 * dest_ptr + up_shift <= i ->
    T i = bitz source (i + 8 * (source_ptr - dest_ptr) - up_shift)) ->
  let slider' := Z.lor slider (u32 (Z.shiftl s up_shift)) in
  (forall j, 0 <= j < 8 + up_shift -> Z.testbit slider' j = T (8 * dest_ptr + j)) /\
  in_u (8 + up_shift) slider'.
Proof.
  intros Hu Hsl Hs Hp Hsb Hslb HT slider'. subst slider'. split.
  - intros j Hj. autorewrite with bits. destruct (Z.ltb_spec j up_shift).
    + rewrite Hslb, (Z.testbit_neg_r _ (j - up_shift)) by lia. by simpl_bool.
    + rewrite (testbit_high up_shift slider j) by (done || lia). rewrite Hsb by lia.
      destruct (Z.ltb_spec j 32); [|lia]. simpl_bool. rewrite HT by lia. f_equal. lia.
  - apply in_u_of_bits; [lia | |].
    + apply Z.lor_nonneg. split; [apply Hsl | apply u32_range].
    + intros j Hj. autorewrite with bits. rewrite (testbit_high up_shift slider j) by (done || lia).
      rewrite (testbit_high 8 s) by (done || lia). done.
Qed.

Lemma slider_loop_correct T source last up_shift fuel :
  is_bytes source -> 0 < up_shift < 8 ->
  forall dest dest_ptr source_ptr slider,
  is_bytes dest -> 0 <= dest_ptr <= last -> last < blen dest ->
  0 <= source_ptr -> source_ptr + (last - dest_ptr) <= blen source ->
  last - dest_ptr <= Z.of_nat fuel ->
  in_u up_shift slider ->
  (forall j, 0 <= j < up_shift -> Z.testbit slider j = T (8 * dest_ptr + j)) ->
  (forall i, 8 * dest_ptr + up_shift <= i ->
    T i = bitz source (i + 8 * (source_ptr - dest_ptr) - up_shift)) ->
  exists dest' slider',
    slider_loop fuel dest source dest_ptr source_ptr last slider up_shift =
      Ok (dest', source_ptr + (last - dest_ptr), slider') /\
    follows T (8 * dest_ptr) (8 * last) dest dest' /\
    in_u up_shift slider' /\
    (forall j, 0 <= j < up_shift -> Z.testbit slider' j = T (8 * last + j)).
Proof.
  intros Hs Hu. induction fuel as [|fuel IH]; intros dest dest_ptr source_ptr slider Hd Hp Hl Hsp
    Hsl Hf Hsli Hbits HT; cbn [slider_loop]; destruct (Z.eqb_spec dest_ptr last) as [<-|Hne];
    try lia; try (rewrite Z.sub_diag, Z.add_0_r; eauto 10 using follows_refl; fail).
  destruct (bget_bits source source_ptr Hs) as (s & -> & Hs8 & Hsb); [lia|].
  cbn [mbind result_bind].
  destruct (slider_push T source source_ptr dest_ptr slider up_shift s) as [Hpb Hpr];
    [done.. | lia | done | done | done |].
  set (slider1 := Z.lor slider _) in *.
  destruct (follows_write T dest dest_ptr (u8 slider1) 8) as (dest1 & -> & H1);
    [done | lia | apply u8_range | lia |..].
  { intros j Hj. rewrite testbit_u8, Hpb by lia. cases_ltb. by simpl_bool. }
  cbn [mbind result_bind]. pose proof H1 as (Hd1 & Hl1 & _).
  destruct (IH dest1 (dest_ptr + 1) (source_ptr + 1) (Z.shiftr slider1 8))
    as (dest' & slider' & Hloop & H2 & Hr' & Hb').
  - done.
  - lia.
  - unfold blen in *. lia.
  - lia.
  - lia.
  - lia.
  - destruct Hpr as [Hp1 Hp2]. rewrite Z.pow_add_r in Hp2 by lia. split.
    + by apply Z.shiftr_nonneg.
    + rewrite Z.shiftr_div_pow2 by lia. apply Z.div_lt_upper_bound; lia.
  - intros j Hj. rewrite testbit_shiftr, Hpb by lia. f_equal. lia.
  - intros i Hi. rewrite HT by lia. f_equal. lia.
  - exists dest', slider'. rewrite Hloop. split_and!; try done.
    + do 3 f_equal. lia.
    + apply follows_trans with (8 * dest_ptr + 8) dest1; [lia | done |].
      by replace (8 * dest_ptr + 8) with (8 * (dest_ptr + 1)) by lia.
Qed.

(** ** The last byte *)

(** The masked last byte: [n] target bits from [x], the rest from the old byte. *)
Lemma follows_masked T dest p x n d :
  is_bytes dest -> 0 <= p < blen dest -> 0 <= n <= 8 -> is_u8 d ->
  (forall j, 0 <= j < 8 -> Z.testbit d j = bitz dest (8 * p + j)) ->
  (forall j, 0 <= j < n -> Z.testbit x j = T (8 * p + j)) ->
  let mask := u8 (Z.shiftl 1 n - 1) in
  exists dest',
    bset dest p (u8 (Z.lor (Z.land x mask) (Z.land d (Z.lnot mask)))) = Ok dest' /\
    follows T (8 * p) (8 * p + n) dest dest'.
Proof.
  intros Hd Hp Hn Hd8 Hdb Hx mask. subst mask.
  apply follows_write; [done | done | apply u8_range | lia |].
  intros j Hj. autorewrite with bits. destruct (Z.ltb_spec j 8); [|lia]. simpl_bool.
  destruct (Z.ltb_spec j n); cbn [negb]; simpl_bool; [apply Hx | apply Hdb]; lia.
Qed.

Lemma land_7 x : Z.land x 7 = x mod 8.
Proof. apply (Z.land_ones x 3). lia. Qed.

Lemma copy_slider_correct T dest source dest_ptr source_ptr last last_write_bit slider up_shift :
  is_bytes source -> is_bytes dest -> 0 < up_shift < 8 ->
  0 <= dest_ptr <= last -> last < blen dest -> 0 <= source_ptr ->
  (let n := last_write_bit mod 8 + 1 in
   8 * (source_ptr + (last - dest_ptr)) + (n - up_shift) <= 8 * blen source /\
   source_ptr + (last - dest_ptr) <= blen source) ->
  in_u up_shift slider ->
  (forall j, 0 <= j < up_shift -> Z.testbit slider j = T (8 * dest_ptr + j)) ->
  (forall i, 8 * dest_ptr + up_shift <= i ->
    T i = bitz source (i + 8 * (source_ptr - dest_ptr) - up_shift)) ->
  exists dest',
    copy_slider dest source dest_ptr source_ptr last last_write_bit slider up_shift = Ok dest' /\
    follows T (8 * dest_ptr) (8 * last + (last_write_bit mod 8 + 1)) dest dest'.
Proof.
  intros Hs Hd Hu Hp Hl Hsp [Hn Hsl] Hsli Hbits HT. unfold copy_slider.
  pose proof (Z.mod_pos_bound last_write_bit 8 ltac:(lia)).
  destruct (slider_loop_correct T source last up_shift (S (length dest)) Hs Hu dest dest_ptr
    source_ptr slider) as (dest1 & slider1 & -> & H1 & Hr1 & Hb1); try done;
    [unfold blen in *; lia |].
  cbn [mbind result_bind]. rewrite land_7. set (lb := last_write_bit mod 8) in *.
  pose proof H1 as (Hd1 & Hl1 & _).
  assert (blen dest1 = blen dest) as Hbl by (unfold blen; lia).
  assert (Hslider2 : exists slider2,
    (if up_shift <=? lb
     then s ← bget source (source_ptr + (last - dest_ptr)); Ok (Z.lor slider1 (u32 (Z.shiftl s up_shift)))
     else Ok slider1) = Ok slider2 /\
    forall j, 0 <= j < lb + 1 -> Z.testbit slider2 j = T (8 * last + j)).
  { destruct (Z.leb_spec up_shift lb).
    - destruct (bget_bits source (source_ptr + (last - dest_ptr)) Hs) as (s & -> & Hs8 & Hsb); [lia|].
      eexists. split; [done|]. intros j Hj.
      destruct (slider_push T source (source_ptr + (last - dest_ptr)) last slider1 up_shift s)
        as [Hpb _]; try done; [lia | | apply Hpb; lia].
      intros i Hi. rewrite HT by lia. f_equal. lia.
    - eexists. split; [done|]. intros j Hj. apply Hb1. lia. }
  destruct Hslider2 as (slider2 & -> & Hb2). cbn [mbind result_bind].
  destruct (bget_bits dest1 last Hd1) as (d & -> & Hd8 & Hdb); [lia|]. cbn [mbind result_bind].
  destruct (follows_masked T dest1 last slider2 (lb + 1) d) as (dest' & -> & H2); try done; try lia.
  exists dest'. split; [done|]. apply follows_trans with (8 * last) dest1; (done || lia).
Qed.

(** ** Correctness of the copier *)
Lemma follows_copied dest dest_bit source source_bit n lo dest' :
  0 <= n -> lo <= dest_bit ->
  follows (stream_target dest dest_bit source source_bit) lo (dest_bit + n) dest dest' ->
  copied dest dest_bit source source_bit n dest'.
Proof.
  intros Hn Hlo (Hd & Hl & Hb). unfold copied. split_and!; [done..|]. intros i Hi. rewrite Hb by done.
  unfold stream_target. cases_ltb; done.
Qed.

Lemma shiftr_3 x : Z.shiftr x 3 = x / 8.
Proof. by rewrite Z.shiftr_div_pow2. Qed.

Section copy_bits.
Context (dest source : bytes) (dest_bit source_bit n : Z).
Hypothesis Hdest : is_bytes dest.
Hypothesis Hsource : is_bytes source.
Hypothesis Hdb : 0 <= dest_bit.
Hypothesis Hsb : 0 <= source_bit.
Hypothesis Hn : 0 < n < 2 ^ 32 - 8.
Hypothesis Hdroom : dest_bit + n <= 8 * blen dest.
Hypothesis Hsroom : source_bit + n <= 8 * blen source.

Let T := stream_target dest dest_bit source source_bit.
Let last_write_bit := dest_bit mod 8 + n - 1.
Let last := dest_bit / 8 + last_write_bit / 8.

Lemma last_byte_position : 8 * last + (last_write_bit mod 8 + 1) = dest_bit + n.
Proof. subst last last_write_bit. zlia. Qed.

(** Merging the bits below [dest_bit mod 8] of the old byte with those of [x]. *)
Lemma first_byte_bits d x j :
  is_u8 d -> 0 <= j ->
  (forall k, 0 <= k < 8 -> Z.testbit d k = bitz dest (8 * (dest_bit / 8) + k)) ->
  (j < 8 -> dest_bit mod 8 <= j ->
    Z.testbit x j = bitz source (8 * (dest_bit / 8) + j - dest_bit + source_bit)) ->
  j < 8 ->
  let mask := u8 (Z.shiftl 1 (dest_bit mod 8) - 1) in
  Z.testbit (Z.lor (Z.land d mask) (Z.land x (Z.lnot mask))) j = T (8 * (dest_bit / 8) + j).
Proof.
  intros Hd Hj Hdb8 Hx Hj8 mask. subst mask. autorewrite with bits.
  destruct (Z.ltb_spec j 8); [|lia]. simpl_bool. unfold T, stream_target.
  destruct (Z.ltb_spec j (dest_bit mod 8)), (Z.leb_spec dest_bit (8 * (dest_bit / 8) + j));
    cbn [negb]; simpl_bool; try zlia; [apply Hdb8 | apply Hx]; lia.
Qed.

Lemma copy_bits_aligned :
  source_bit mod 8 = dest_bit mod 8 ->
  exists dest', _copy_bits dest dest_bit source source_bit n = Ok dest' /\
    copied dest dest_bit source source_bit n dest'.
Proof.
  intros Heq. pose proof last_byte_position as Hlast. unfold _copy_bits.
  destruct (Z.eqb_spec n 0); [lia|]. cbn [mbind result_bind negb require].
  rewrite !shiftr_3, !land_7, Heq, Z.eqb_refl, u32_small by zlia.
  fold last_write_bit. fold last.
  destruct (bget_bits dest (dest_bit / 8) Hdest) as (d & -> & Hd8 & Hdbits); [zlia|].
  cbn [mbind result_bind].
  destruct (bget_bits source (source_bit / 8) Hsource) as (s & -> & Hs8 & Hsbits); [zlia|].
  cbn [mbind result_bind].
  set (x := Z.lor (Z.land d _) _).
  destruct (aligned_loop_correct T source last (S (length dest)) Hsource dest (dest_bit / 8)
    (source_bit / 8 + 1) (u8 x)) as (dest1 & b & -> & H1 & Hb8 & Hb); try done.
  - subst last last_write_bit. zlia.
  - subst last last_write_bit. zlia.
  - zlia.
  - subst last last_write_bit. zlia.
  - subst last last_write_bit. unfold blen in *. zlia.
  - apply u8_range.
  - intros j Hj. subst x. rewrite testbit_u8.
    destruct (Z.ltb_spec j 8); [|lia]. simpl_bool. apply first_byte_bits; try (done || lia).
    intros _ _. rewrite Hsbits by lia. f_equal. zlia.
  - intros i Hi. unfold T, stream_target. destruct (Z.leb_spec dest_bit i); [|zlia]. f_equal. zlia.
  - cbn [mbind result_bind]. pose proof H1 as (Hd1 & Hl1 & _).
    assert (blen dest1 = blen dest) as Hbl by (unfold blen; lia).
    destruct (bget_bits dest1 last Hd1) as (d' & -> & Hd8' & Hdb'); [subst last last_write_bit; zlia|].
    cbn [mbind result_bind].
    destruct (follows_masked T dest1 last b (last_write_bit mod 8 + 1) d') as (dest' & -> & H2);
      try done; [subst last last_write_bit; zlia | zlia | intros j Hj; apply Hb; zlia |].
    exists dest'. split; [done|]. apply follows_copied with (8 * (dest_bit / 8)); [lia | zlia |].
    rewrite <- Hlast. apply follows_trans with (8 * last) dest1; [|done..].
    subst last last_write_bit. zlia.
Qed.

Lemma copy_bits_down :
  dest_bit mod 8 < source_bit mod 8 ->
  exists dest', _copy_bits dest dest_bit source source_bit n = Ok dest' /\
    copied dest dest_bit source source_bit n dest'.
Proof.
  intros Hlt. pose proof last_byte_position as Hlast. unfold _copy_bits.
  destruct (Z.eqb_spec n 0); [lia|]. cbn [mbind result_bind negb require].
  rewrite !shiftr_3, !land_7, u32_small by zlia.
  fold last_write_bit. fold last.
  destruct (Z.eqb_spec (source_bit mod 8) (dest_bit mod 8)); [lia|].
  destruct (bget_bits source (source_bit / 8) Hsource) as (s & -> & Hs8 & Hsbits); [zlia|].
  cbn [mbind result_bind]. destruct (Z.ltb_spec (source_bit mod 8) (dest_bit mod 8)); [lia|].
  destruct (bget_bits dest (dest_bit / 8) Hdest) as (d & -> & Hd8 & Hdbits); [zlia|].
  cbn [mbind result_bind]. set (x := Z.lor (Z.land d _) _).
  assert (Hx : forall j, 0 <= j < 8 - (source_bit mod 8 - dest_bit mod 8) ->
    Z.testbit x j = T (8 * (dest_bit / 8) + j)).
  { intros j Hj. subst x. apply first_byte_bits; try (done || zlia).
    intros _ ?. rewrite testbit_shiftr, Hsbits by zlia. f_equal. zlia. }
  destruct (copy_slider_correct T dest source (dest_bit / 8) (source_bit / 8 + 1) last
    last_write_bit x (8 - (source_bit mod 8 - dest_bit mod 8))) as (dest' & -> & H1); try done.
  - zlia.
  - subst last last_write_bit. zlia.
  - subst last last_write_bit. zlia.
  - zlia.
  - subst last last_write_bit. cbv zeta. zlia.
  - apply in_u_of_bits; [zlia | |].
    + subst x. apply Z.lor_nonneg. split; apply Z.land_nonneg; left; [apply Hd8|].
      apply Z.shiftr_nonneg, Hs8.
    + intros i Hi. subst x. autorewrite with bits.
      rewrite (testbit_high 8 s) by (done || zlia). simpl_bool.
      destruct (Z.ltb_spec i (dest_bit mod 8)); [zlia | by simpl_bool].
  - intros i Hi. unfold T, stream_target. destruct (Z.leb_spec dest_bit i); [|zlia]. f_equal. zlia.
  - exists dest'. split; [done|]. apply follows_copied with (8 * (dest_bit / 8)); [lia | zlia |].
    by rewrite <- Hlast.
Qed.

(** The run fits in one byte of the destination. *)
Lemma copy_bits_up_short :
  source_bit mod 8 < dest_bit mod 8 -> dest_bit mod 8 + n <= 8 ->
  exists dest', _copy_bits dest dest_bit source source_bit n = Ok dest' /\
    copied dest dest_bit source source_bit n dest'.
Proof.
  intros Hlt Hshort. unfold _copy_bits.
  destruct (Z.eqb_spec n 0); [lia|]. cbn [mbind result_bind negb require].
  rewrite !shiftr_3, !land_7.
  destruct (Z.eqb_spec (source_bit mod 8) (dest_bit mod 8)); [lia|].
  destruct (bget_bits source (source_bit / 8) Hsource) as (s & -> & Hs8 & Hsbits); [zlia|].
  cbn [mbind result_bind]. destruct (Z.ltb_spec (source_bit mod 8) (dest_bit mod 8)); [|lia].
  rewrite (u32_small (dest_bit mod 8 + n)) by zlia.
  destruct (Z.leb_spec (dest_bit mod 8 + n) 8); [|lia].
  destruct (bget_bits dest (dest_bit / 8) Hdest) as (d & -> & Hd8 & Hdbits); [zlia|].
  cbn [mbind result_bind].
  set (x := Z.lor _ _). rewrite bset_lt by zlia.
  eexists. split; [done|]. unfold copied. split_and!.
  - apply is_bytes_insert; [done | apply u8_range].
  - by rewrite length_insert.
  - intros i Hi. rewrite bitz_insert by zlia.
    destruct (Z.eqb_spec (i / 8) (dest_bit / 8)) as [He|].
    2:{ destruct (Z.leb_spec dest_bit i), (Z.ltb_spec i (dest_bit + n)); cbn; (done || zlia). }
    subst x. autorewrite with bits.
    assert (Hi8 : i mod 8 <? 8 = true) by (destruct (Z.ltb_spec (i mod 8) 8); [done | zlia]).
    rewrite !Hi8. simpl_bool. rewrite Hdbits, <- He by zlia.
    replace (8 * (i / 8) + i mod 8) with i by zlia.
    replace (dest_bit <=? i) with (dest_bit mod 8 <=? i mod 8).
    2:{ destruct (Z.leb_spec dest_bit i), (Z.leb_spec (dest_bit mod 8) (i mod 8)); (done || zlia). }
    replace (i <? dest_bit + n) with (i mod 8 - dest_bit mod 8 <? n).
    2:{ destruct (Z.ltb_spec i (dest_bit + n)), (Z.ltb_spec (i mod 8 - dest_bit mod 8) n);
          (done || zlia). }
    destruct (Z.leb_spec (dest_bit mod 8) (i mod 8)).
    + rewrite testbit_mask by zlia. destruct (Z.ltb_spec (i mod 8 - dest_bit mod 8) n);
        cbn [negb andb]; simpl_bool; [|done]. rewrite Hsbits by zlia. f_equal. zlia.
    + rewrite (Z.testbit_neg_r _ (i mod 8 - dest_bit mod 8)) by lia.
      cbn [negb andb]. by simpl_bool.
Qed.

Lemma copy_bits_up_long :
  source_bit mod 8 < dest_bit mod 8 -> 8 < dest_bit mod 8 + n ->
  exists dest', _copy_bits dest dest_bit source source_bit n = Ok dest' /\
    copied dest dest_bit source source_bit n dest'.
Proof.
  intros Hlt Hlong. pose proof last_byte_position as Hlast. unfold _copy_bits.
  destruct (Z.eqb_spec n 0); [lia|]. cbn [mbind result_bind negb require].
  rewrite !shiftr_3, !land_7, (u32_small (dest_bit mod 8 + n - 1)) by zlia.
  fold last_write_bit. fold last.
  destruct (Z.eqb_spec (source_bit mod 8) (dest_bit mod 8)); [lia|].
  destruct (bget_bits source (source_bit / 8) Hsource) as (s & -> & Hs8 & Hsbits); [zlia|].
  cbn [mbind result_bind]. destruct (Z.ltb_spec (source_bit mod 8) (dest_bit mod 8)); [|lia].
  rewrite (u32_small (dest_bit mod 8 + n)) by zlia.
  destruct (Z.leb_spec (dest_bit mod 8 + n) 8); [lia|].
  destruct (bget_bits dest (dest_bit / 8) Hdest) as (d & -> & Hd8 & Hdbits); [zlia|].
  cbn [mbind result_bind]. set (x := Z.lor (Z.land d _) _).
  destruct (follows_write T dest (dest_bit / 8) (u8 x) 8) as (dest1 & -> & H1);
    [done | zlia | apply u8_range | lia | |].
  { intros j Hj. rewrite testbit_u8. destruct (Z.ltb_spec j 8); [|lia]. simpl_bool.
    subst x. apply first_byte_bits; try (done || lia).
    intros _ ?. rewrite testbit_u32, testbit_shiftl, Hsbits by zlia.
    destruct (Z.ltb_spec j 32); [|lia]. simpl_bool. f_equal. zlia. }
  cbn [mbind result_bind]. pose proof H1 as (Hd1 & Hl1 & _).
  assert (blen dest1 = blen dest) as Hbl by (unfold blen; lia).
  destruct (copy_slider_correct T dest1 source (dest_bit / 8 + 1) (source_bit / 8 + 1) last
    last_write_bit (Z.shiftr s (8 - (dest_bit mod 8 - source_bit mod 8)))
    (dest_bit mod 8 - source_bit mod 8)) as (dest' & -> & H2); try done.
  - zlia.
  - subst last last_write_bit. zlia.
  - subst last last_write_bit. zlia.
  - zlia.
  - subst last last_write_bit. cbv zeta. zlia.
  - apply in_u_of_bits; [zlia | by apply Z.shiftr_nonneg, Hs8 |].
    intros i Hi. rewrite testbit_shiftr by zlia. apply (testbit_high 8); (done || zlia).
  - intros j Hj. rewrite testbit_shiftr, Hsbits by zlia. unfold T, stream_target.
    destruct (Z.leb_spec dest_bit (8 * (dest_bit / 8 + 1) + j)); [|zlia]. f_equal. zlia.
  - intros i Hi. unfold T, stream_target. destruct (Z.leb_spec dest_bit i); [|zlia]. f_equal. zlia.
  - exists dest'. split; [done|]. apply follows_copied with (8 * (dest_bit / 8)); [lia | zlia |].
    rewrite <- Hlast. apply follows_trans with (8 * (dest_bit / 8) + 8) dest1; [|done|].
    + subst last last_write_bit. zlia.
    + by replace (8 * (dest_bit / 8) + 8) with (8 * (dest_bit / 8 + 1)) by lia.
Qed.

Lemma copy_bits_copied :
  exists dest', _copy_bits dest dest_bit source source_bit n = Ok dest' /\
    copied dest dest_bit source source_bit n dest'.
Proof.
  destruct (Z.lt_trichotomy (source_bit mod 8) (dest_bit mod 8)) as [?|[?|?]];
    [destruct (Z.le_gt_cases (dest_bit mod 8 + n) 8) | ..];
    auto using copy_bits_up_short, copy_bits_up_long, copy_bits_aligned, copy_bits_down.
Qed.
End copy_bits.

(** ** An executable reference

    [copy_bits_ref] rebuilds every byte of the destination from its eight bits. *)
Fixpoint of_bits (n : nat) (f : Z -> bool) (i : Z) : Z :=
  match n with
  | O => 0
  | S n => 2 * of_bits n f (i + 1) + Z.b2z (f i)
  end.

Lemma testbit_of_bits n f i j :
  0 <= j -> Z.testbit (of_bits n f i) j = (j <? Z.of_nat n) && f (i + j).
Proof.
  revert i j. induction n as [|n IH]; intros i j Hj; cbn [of_bits].
  - rewrite Z.testbit_0_l. destruct (Z.ltb_spec j (Z.of_nat 0)); [lia | done].
  - destruct (Z.eqb_spec j 0) as [->|].
    + rewrite Z.testbit_0_r, Z.add_0_r. by destruct (Z.ltb_spec 0 (Z.of_nat (S n))); [|lia].
    + replace j with (Z.succ (j - 1)) at 1 by lia. rewrite Z.testbit_succ_r, IH by lia.
      replace (i + 1 + (j - 1)) with (i + j) by lia. f_equal.
      destruct (Z.ltb_spec (j - 1) (Z.of_nat n)), (Z.ltb_spec j (Z.of_nat (S n))); (done || lia).
Qed.

Lemma of_bits_range n f i : in_u (Z.of_nat n) (of_bits n f i).
Proof.
  unfold in_u. revert i. induction n as [|n IH]; intros i; cbn [of_bits]; [lia|].
  specialize (IH (i + 1)). rewrite Nat2Z.inj_succ, Z.pow_succ_r by lia.
  destruct (f i); cbn [Z.b2z]; lia.
Qed.

Definition copy_bits_ref (dest : bytes) (dest_bit : Z) (source : bytes) (source_bit n : Z) : bytes :=
  map (fun p => of_bits 8 (fun i =>
         if (dest_bit <=? i) && (i <? dest_bit + n)
         then bitz source (i - dest_bit + source_bit) else bitz dest i) (8 * Z.of_nat p))
      (seq 0 (length dest)).

Lemma copied_ref dest dest_bit source source_bit n dest' :
  copied dest dest_bit source source_bit n dest' ->
  dest' = copy_bits_ref dest dest_bit source source_bit n.
Proof.
  intros (Hd & Hl & Hb). apply bytes_eq_bits; [done | | |].
  - unfold copy_bits_ref. apply Forall_map, Forall_forall. intros p _. apply (of_bits_range 8).
  - unfold copy_bits_ref. by rewrite length_map, length_seq.
  - intros i Hi. rewrite Hb by lia. unfold bitz at 3, copy_bits_ref.
    rewrite list_lookup_fmap, lookup_seq_lt by (unfold blen in *; zlia). cbn [fmap option_fmap option_map].
    rewrite testbit_of_bits by zlia.
    replace (0 + Z.to_nat (i / 8))%nat with (Z.to_nat (i / 8)) by lia.
    rewrite Z2Nat.id by zlia. replace (8 * (i / 8) + i mod 8) with i by zlia.
    destruct (Z.leb_spec 0 i); [|lia]. destruct (Z.ltb_spec (i mod 8) (Z.of_nat 8)); [done | zlia].
Qed.

(** C15. for every pair of bit offsets, a non-empty run inside both buffers is copied by
    [_copy_bits] exactly as the one-bit-at-a-time reference says, with no access outside
    either buffer, whichever of its three branches runs. *)
Theorem copy_bits_equals_reference (dest source : bytes) (dest_bit source_bit n : Z) :
  is_bytes dest -> is_bytes source ->
  0 <= dest_bit -> 0 <= source_bit -> 0 < n < 2 ^ 32 - 8 ->
  dest_bit + n <= 8 * blen dest -> source_bit + n <= 8 * blen source ->
  _copy_bits dest dest_bit source source_bit n =
    Ok (copy_bits_ref dest dest_bit source source_bit n).
Proof.
  intros. destruct (copy_bits_copied dest source dest_bit source_bit n) as (dest' & -> & Hc); try done.
  by rewrite (copied_ref _ _ _ _ _ _ Hc).
Qed.

(** The general branch at work: 17 bits of a 5-byte buffer moved down 7 bits. *)
Lemma copy_bits_equals_reference_witness :
  is_bytes [0xFF; 0xAA; 0x55; 0xCC; 0xFF] /\
  _copy_bits [1; 2; 3; 4] 5 [0xFF; 0xAA; 0x55; 0xCC; 0xFF] 12 17 =
    Ok (copy_bits_ref [1; 2; 3; 4] 5 [0xFF; 0xAA; 0x55; 0xCC; 0xFF] 12 17).
Proof.
  assert (is_bytes [0xFF; 0xAA; 0x55; 0xCC; 0xFF] /\ is_bytes [1; 2; 3; 4]) as [Hs Hd].
  { split; repeat constructor; lia. }
  split; [done|]. apply copy_bits_equals_reference; (done || (unfold blen; simpl; lia)).
Defined.

Example copy_bits_value :
  _copy_bits [1; 2; 3; 4] 5 [0xFF; 0xAA; 0x55; 0xCC; 0xFF] 12 17 = Ok [0x41; 0xAB; 0x18; 4].
Proof. vm_compute. reflexivity. Qed.
