(* ===== verification/BitStream.v ===== *)
(** * Bit streams: core/bit_stream.h

    A [bit_stream] is a cursor over a byte buffer: [bs_base] is the memory behind
    [_base_ptr], [bs_bit_num] and [bs_bit_end] are [_bit_num] and [_bit_end].  [more], the
    virtual refill hook, returns false: no class of the program overrides it.  The class
    writes and reads runs of bits through [BitCopy._copy_bits]; the abstract view is the
    list of bits written so far ([written]) and the list still to be read ([upcoming]). *)
From S2P Require Import Prelude Endian BitCopy.

Record bit_stream : Type := mk_stream {
  bs_base : bytes;
  bs_bit_num : Z;
  bs_bit_end : Z;
  bs_is_dirty : bool;
  bs_error_detected : bool
}.

Definition _init (buffer : bytes) (bit_start bit_end : Z) : bit_stream :=
  mk_stream buffer bit_start bit_end false false.

(** [bit_stream(buffer, buffer_size)] and [set_buffer]. *)
Definition new_stream (buffer : bytes) (buffer_size : Z) : bit_stream :=
  _init buffer 0 (u32 (buffer_size * 8)).
Definition set_buffer (buffer : bytes) (bit_start bit_end : Z) : bit_stream :=
  _init buffer bit_start bit_end.

Definition with_base (s : bit_stream) (b : bytes) : bit_stream :=
  mk_stream b (bs_bit_num s) (bs_bit_end s) (bs_is_dirty s) (bs_error_detected s).
Definition with_bit_num (s : bit_stream) (n : Z) : bit_stream :=
  mk_stream (bs_base s) n (bs_bit_end s) (bs_is_dirty s) (bs_error_detected s).
Definition with_dirty (s : bit_stream) : bit_stream :=
  mk_stream (bs_base s) (bs_bit_num s) (bs_bit_end s) true (bs_error_detected s).
Definition raise_error (s : bit_stream) : bit_stream :=
  mk_stream (bs_base s) (bs_bit_num s) (bs_bit_end s) (bs_is_dirty s) true.

(** Cursor operations. *)
Definition get_bit_position (s : bit_stream) : Z := bs_bit_num s.
Definition set_bit_position (s : bit_stream) (pos : Z) : bit_stream := with_bit_num s (u32 pos).
Definition get_stream_bit_size (s : bit_stream) : Z := bs_bit_end s.
Definition get_bit_space_available (s : bit_stream) : Z := u64 (bs_bit_end s - bs_bit_num s).
Definition is_full (s : bit_stream) : bool := bs_bit_num s =? bs_bit_end s.
Definition advance_to_next_byte (s : bit_stream) : bit_stream :=
  with_bit_num s (u32 (Z.shiftl (Z.shiftr (u32 (bs_bit_num s + 7)) 3) 3)).
Definition get_next_byte_position (s : bit_stream) : Z := Z.shiftr (u32 (bs_bit_num s + 7)) 3.
Definition get_byte_position (s : bit_stream) : Z := Z.shiftr (bs_bit_num s) 3.
Definition set_byte_position (s : bit_stream) (byte_pos : Z) : bit_stream :=
  with_bit_num s (u32 (Z.shiftl byte_pos 3)).
Definition get_stream_byte_size (s : bit_stream) : Z := Z.shiftr (u32 (bs_bit_end s + 7)) 3.
Definition set_stream_byte_size (s : bit_stream) (byte_size : Z) : bit_stream :=
  mk_stream (bs_base s) (bs_bit_num s) (u32 (byte_size * 8)) (bs_is_dirty s) (bs_error_detected s).

(** ** Runs of bits

    The [for(;;)] loop runs at most twice, because [more] never provides room. *)
Fixpoint write_bits_loop (fuel : nat) (s : bit_stream) (source : bytes)
    (source_bit_num write_bit_count bits_written : Z) : result (bit_stream * Z) :=
  match fuel with
  | O => Fault out_of_fuel
  | S fuel =>
    let bits_remaining := u32 (bs_bit_end s - bs_bit_num s) in
    if bits_remaining =? 0 then Ok (raise_error s, bits_written)
    else if write_bit_count <=? bits_remaining then
      base ← _copy_bits (bs_base s) (bs_bit_num s) source source_bit_num write_bit_count;
      Ok (with_bit_num (with_base s base) (u32 (bs_bit_num s + write_bit_count)),
          u32 (bits_written + write_bit_count))
    else
      base ← _copy_bits (bs_base s) (bs_bit_num s) source source_bit_num bits_remaining;
      write_bits_loop fuel
        (with_bit_num (with_base s base) (u32 (bs_bit_num s + bits_remaining)))
        source (u32 (source_bit_num + bits_remaining))
        (u32 (write_bit_count - bits_remaining)) (u32 (bits_written + bits_remaining))
  end.

Definition _write_bits (s : bit_stream) (source : bytes) (source_bit_num write_bit_count : Z)
    : result (bit_stream * Z) :=
  if write_bit_count =? 0 then Ok (s, 0)
  else write_bits_loop 2 (with_dirty s) source source_bit_num write_bit_count 0.

Fixpoint read_bits_loop (fuel : nat) (s : bit_stream) (dest : bytes)
    (dest_bit_num read_bit_count bits_read : Z) : result (bit_stream * bytes * Z) :=
  match fuel with
  | O => Fault out_of_fuel
  | S fuel =>
    let bits_remaining := u32 (bs_bit_end s - bs_bit_num s) in
    if bits_remaining =? 0 then Ok (raise_error s, dest, bits_read)
    else if read_bit_count <=? bits_remaining then
      dest ← _copy_bits dest dest_bit_num (bs_base s) (bs_bit_num s) read_bit_count;
      Ok (with_bit_num s (u32 (bs_bit_num s + read_bit_count)), dest,
          u32 (bits_read + read_bit_count))
    else
      dest ← _copy_bits dest dest_bit_num (bs_base s) (bs_bit_num s) bits_remaining;
      read_bits_loop fuel (with_bit_num s (u32 (bs_bit_num s + bits_remaining))) dest
        (u32 (dest_bit_num + bits_remaining)) (u32 (read_bit_count - bits_remaining))
        (u32 (bits_read + bits_remaining))
  end.

Definition _read_bits (s : bit_stream) (dest : bytes) (dest_bit_num read_bit_count : Z)
    : result (bit_stream * bytes * Z) :=
  if read_bit_count =? 0 then Ok (s, dest, 0)
  else read_bits_loop 2 s dest dest_bit_num read_bit_count 0.

Definition write_bytes (s : bit_stream) (source : bytes) (write_byte_count : Z)
    : result (bit_stream * Z) :=
  '(s, n) ← _write_bits s source 0 (u32 (Z.shiftl write_byte_count 3)); Ok (s, Z.shiftr n 3).

Definition read_bytes (s : bit_stream) (dest : bytes) (read_byte_count : Z)
    : result (bit_stream * bytes * Z) :=
  '(s, dest, n) ← _read_bits s dest 0 (u32 (Z.shiftl read_byte_count 3));
  Ok (s, dest, Z.shiftr n 3).

Definition write_bool (s : bit_stream) (value : bool) : result bit_stream :=
  fst <$> _write_bits s [Z.b2z value] 0 1.

Definition read_bool (s : bit_stream) : result (bit_stream * bool) :=
  '(s, dest, _) ← _read_bits s [0] 0 1;
  d ← bget dest 0; Ok (s, negb (d =? 0)).

(** Integers go through the memory image of a [uint32] local. *)
Definition _write_integer (s : bit_stream) (value bit_width : Z) : result bit_stream :=
  fst <$> _write_bits s (le_bytes 4 (host_to_little_endian value)) 0 bit_width.

Definition _read_integer (s : bit_stream) (bit_width : Z) : result (bit_stream * Z) :=
  '(s, ret, _) ← _read_bits s (le_bytes 4 0) 0 bit_width;
  Ok (s, little_endian_to_host (le_val ret)).

Definition write_ranged_uint32 (s : bit_stream) (value range_start range_end : Z)
    : result bit_stream :=
  _ ← require ((range_start <=? value) && (value <=? range_end)) assertion_failed;
  _ ← require (range_start <=? range_end) assertion_failed;
  let range_size := u32 (range_end - range_start + 1) in
  let range_bits := get_next_binary_log range_size in
  _write_integer s (u32 (value - range_start)) range_bits.

Definition read_ranged_uint32 (s : bit_stream) (range_start range_end : Z)
    : result (bit_stream * Z) :=
  _ ← require (range_start <=? range_end) assertion_failed;
  let range_size := u32 (range_end - range_start + 1) in
  let range_bits := get_next_binary_log range_size in
  '(s, val) ← _read_integer s range_bits;
  Ok (s, u32 (val + range_start)).

(** ** The abstract view *)
Definition bits_of (b : bytes) (from n : Z) : list bool :=
  (fun k => bitz b (from + k)) <$> seqZ 0 n.

Definition int_bits (w v : Z) : list bool := Z.testbit v <$> seqZ 0 w.
Definition byte_bits (b : bytes) : list bool := bits_of b 0 (8 * blen b).

Definition written (s : bit_stream) : list bool := bits_of (bs_base s) 0 (bs_bit_num s).
Definition upcoming (s : bit_stream) : list bool :=
  bits_of (bs_base s) (bs_bit_num s) (bs_bit_end s - bs_bit_num s).
Definition space (s : bit_stream) : Z := bs_bit_end s - bs_bit_num s.

(** The class invariant: the cursor is inside the stream and the stream inside the buffer. *)
Record stream_ok (s : bit_stream) : Prop := {
  ok_bytes : is_bytes (bs_base s);
  ok_cursor : 0 <= bs_bit_num s <= bs_bit_end s;
  ok_end : bs_bit_end s <= 8 * blen (bs_base s);
  ok_size : bs_bit_end s < 2 ^ 32 - 8
}.

(** [s'] is [s] after [l] was appended at the cursor. *)
Record appended (s : bit_stream) (l : list bool) (s' : bit_stream) : Prop := {
  app_ok : stream_ok s';
  app_len : length (bs_base s') = length (bs_base s);
  app_end : bs_bit_end s' = bs_bit_end s;
  app_num : bs_bit_num s' = bs_bit_num s + Z.of_nat (length l);
  app_err : bs_error_detected s' = bs_error_detected s;
  app_bits : written s' = written s ++ l
}.

(** [s'] is [s] after [l] was read at the cursor. *)
Record consumed (s : bit_stream) (l : list bool) (s' : bit_stream) : Prop := {
  con_ok : stream_ok s';
  con_base : bs_base s' = bs_base s;
  con_end : bs_bit_end s' = bs_bit_end s;
  con_num : bs_bit_num s' = bs_bit_num s + Z.of_nat (length l);
  con_err : bs_error_detected s' = bs_error_detected s;
  con_bits : upcoming s = l ++ upcoming s'
}.

(** *** Lists of bits *)
Lemma length_bits_of b from n : length (bits_of b from n) = Z.to_nat n.
Proof. unfold bits_of. by rewrite length_fmap, length_seqZ. Qed.

Lemma length_int_bits w v : length (int_bits w v) = Z.to_nat w.
Proof. unfold int_bits. by rewrite length_fmap, length_seqZ. Qed.

Lemma length_byte_bits b : length (byte_bits b) = (8 * length b)%nat.
Proof. unfold byte_bits. rewrite length_bits_of. unfold blen. lia. Qed.

Lemma bits_of_app b from n m :
  0 <= n -> 0 <= m -> bits_of b from (n + m) = bits_of b from n ++ bits_of b (from + n) m.
Proof.
  intros Hn Hm. unfold bits_of. rewrite seqZ_app by done. rewrite fmap_app. f_equal.
  rewrite (Z.add_comm 0 n), <- fmap_add_seqZ. rewrite <- list_fmap_compose.
  apply list_fmap_ext. intros i k _. cbn. f_equal. lia.
Qed.

Lemma bits_of_ext b b' from from' n :
  (forall k, 0 <= k < n -> bitz b (from + k) = bitz b' (from' + k)) ->
  bits_of b from n = bits_of b' from' n.
Proof. intros H. apply list_fmap_ext. intros i k Hk%lookup_seqZ. destruct Hk as [-> ?]. apply H. lia. Qed.

Lemma int_bits_eq_range w v v' :
  0 <= w -> int_bits w v = int_bits w v' <-> v mod 2 ^ w = v' mod 2 ^ w.
Proof.
  intros Hw. split.
  - intros Heq. apply Z.bits_inj'. intros i Hi. rewrite !testbit_u by done.
    destruct (Z.ltb_spec i w); [|by rewrite !andb_false_r].
    apply (f_equal (fun l => l !! Z.to_nat i)) in Heq. unfold int_bits in Heq.
    rewrite !list_lookup_fmap, lookup_seqZ_lt in Heq by lia. cbn in Heq.
    rewrite Z2Nat.id, Z.add_0_l in Heq by done. by injection Heq as ->.
  - intros Heq. apply list_fmap_ext. intros i k Hk%lookup_seqZ.
    destruct Hk as [-> ?]. rewrite Z.add_0_l.
    apply (f_equal (fun x => Z.testbit x (Z.of_nat i))) in Heq. rewrite !testbit_u in Heq by done.
    destruct (Z.ltb_spec (Z.of_nat i) w); [|lia]. by rewrite !andb_true_r in Heq.
Qed.

Lemma bits_of_le_bytes (n : nat) v w :
  0 <= w <= 8 * Z.of_nat n -> bits_of (le_bytes n v) 0 w = int_bits w v.
Proof.
  intros Hw. apply list_fmap_ext. intros i k Hk%lookup_seqZ.
  destruct Hk as [-> ?]. rewrite !Z.add_0_l.
  rewrite bitz_le_bytes by lia. destruct (Z.ltb_spec (Z.of_nat i) (8 * Z.of_nat n)); [|lia].
  by rewrite andb_true_r.
Qed.

Lemma byte_bits_le_bytes n v : byte_bits (le_bytes n v) = int_bits (8 * Z.of_nat n) v.
Proof. unfold byte_bits. rewrite blen_le_bytes. apply bits_of_le_bytes. lia. Qed.

(** *** Writing *)
Lemma copied_written base n source sb k base' :
  0 <= n -> 0 <= k -> copied base n source sb k base' ->
  bits_of base' 0 (n + k) = bits_of base 0 n ++ bits_of source sb k.
Proof.
  intros Hn Hk (_ & _ & Hb). rewrite bits_of_app by done. f_equal; apply bits_of_ext; intros i Hi.
  - rewrite Hb by lia. by cases_ltb.
  - rewrite Hb by lia. cases_ltb. f_equal. lia.
Qed.

Lemma space_u32 s : stream_ok s -> u32 (bs_bit_end s - bs_bit_num s) = space s.
Proof. intros [? ? ? ?]. apply u32_small. unfold space, in_u. lia. Qed.

Lemma appended_refl s : stream_ok s -> appended s [] s.
Proof. intros. split; rewrite ?app_nil_r; cbn; (done || lia). Qed.

Lemma appended_trans s1 l1 s2 l2 s3 :
  appended s1 l1 s2 -> appended s2 l2 s3 -> appended s1 (l1 ++ l2) s3.
Proof.
  intros [? ? ? ? ? Hb1] [? ? ? ? ? Hb2].
  split; rewrite ?length_app; try (done || congruence || lia).
  by rewrite Hb2, Hb1, app_assoc.
Qed.

Lemma appended_space s l s' : appended s l s' -> space s' = space s - Z.of_nat (length l).
Proof. intros [_ _ He Hn _ _]. unfold space. lia. Qed.

(** One pass of the writing loop with room for the whole run. *)
Lemma write_bits_copy s source sb n base :
  stream_ok s -> 0 <= n -> n <= space s ->
  copied (bs_base s) (bs_bit_num s) source sb n base ->
  appended s (bits_of source sb n) (with_bit_num (with_base s base) (u32 (bs_bit_num s + n))).
Proof.
  intros [Hb Hc He Hs] Hn Hsp Hcop. unfold space in Hsp.
  pose proof Hcop as (Hb' & Hl' & _). rewrite u32_small by (unfold in_u; lia).
  split; cbn; try done.
  - split; cbn; [done | lia | unfold blen in *; lia | lia].
  - rewrite length_bits_of. lia.
  - unfold written. cbn. apply copied_written; (done || lia).
Qed.

Lemma write_bits_fits s source sb n :
  stream_ok s -> is_bytes source -> 0 <= sb -> 0 <= n -> sb + n <= 8 * blen source ->
  n <= space s ->
  exists s', _write_bits s source sb n = Ok (s', n) /\ appended s (bits_of source sb n) s'.
Proof.
  intros Hok Hsrc Hsb Hn Hroom Hsp. pose proof Hok as [Hb Hc He Hs]. unfold _write_bits.
  destruct (Z.eqb_spec n 0) as [->|]; [eauto using appended_refl|].
  cbn [write_bits_loop]. cbn [bs_bit_end bs_bit_num with_dirty bs_base].
  rewrite (space_u32 s Hok). unfold space in *.
  destruct (Z.eqb_spec (bs_bit_end s - bs_bit_num s) 0); [lia|].
  destruct (Z.leb_spec n (bs_bit_end s - bs_bit_num s)); [|lia].
  destruct (copy_bits_copied (bs_base s) source (bs_bit_num s) sb n) as (base & -> & Hcop);
    try done; try lia.
  cbn [mbind result_bind]. rewrite Z.add_0_l, (u32_small n) by (unfold in_u; lia).
  eexists. split; [done|].
  destruct (write_bits_copy (with_dirty s) source sb n base) as [? ? ? ? ? ?]; try done.
Qed.

(** A run that does not fit fills the stream and raises the error flag. *)
Lemma write_bits_overflow s source sb n :
  stream_ok s -> is_bytes source -> 0 <= sb -> sb + n <= 8 * blen source ->
  8 * blen source < 2 ^ 32 -> space s < n ->
  exists s', _write_bits s source sb n = Ok (raise_error s', space s) /\
    appended s (bits_of source sb (space s)) s' /\ space s' = 0.
Proof.
  intros Hok Hsrc Hsb Hroom Hsz Hsp. pose proof Hok as [Hb Hc He Hs]. unfold _write_bits.
  destruct (Z.eqb_spec n 0) as [->|]; [unfold space in *; lia|].
  cbn [write_bits_loop]. cbn [bs_bit_end bs_bit_num with_dirty bs_base].
  rewrite (space_u32 s Hok). unfold space in *.
  destruct (Z.eqb_spec (bs_bit_end s - bs_bit_num s) 0) as [H0|].
  { rewrite H0. exists (with_dirty s). split_and!; try done.
    destruct (appended_refl (with_dirty s)) as [? ? ? ? ? ?]; done. }
  destruct (Z.leb_spec n (bs_bit_end s - bs_bit_num s)); [lia|].
  set (k := bs_bit_end s - bs_bit_num s) in *.
  destruct (copy_bits_copied (bs_base s) source (bs_bit_num s) sb k) as (base & -> & Hcop);
    try done; try lia.
  cbn [mbind result_bind]. rewrite Z.add_0_l, !(u32_small k) by (unfold in_u; lia).
  cbn. rewrite (u32_small (bs_bit_num s + k)) by (unfold in_u; lia).
  replace (bs_bit_end s - (bs_bit_num s + k)) with 0 by lia. cbn.
  eexists. split; [done|]. cbn. split; [|lia].
  replace (bs_bit_num s + k) with (u32 (bs_bit_num (with_dirty s) + k))
    by (apply u32_small; unfold in_u; cbn; lia).
  destruct (write_bits_copy (with_dirty s) source sb k base) as [? ? ? ? ? ?]; try done;
    unfold space; cbn; lia.
Qed.

(** *** Reading *)
Lemma consumed_refl s : stream_ok s -> consumed s [] s.
Proof. intros. split; cbn; (done || lia). Qed.

Lemma consumed_trans s1 l1 s2 l2 s3 :
  consumed s1 l1 s2 -> consumed s2 l2 s3 -> consumed s1 (l1 ++ l2) s3.
Proof.
  intros [? ? ? ? ? Hb1] [? ? ? ? ? Hb2].
  split; rewrite ?length_app; try (done || congruence || lia).
  by rewrite Hb1, Hb2, app_assoc.
Qed.

Lemma consumed_advance s n :
  stream_ok s -> 0 <= n -> n <= space s ->
  consumed s (bits_of (bs_base s) (bs_bit_num s) n) (with_bit_num s (u32 (bs_bit_num s + n))).
Proof.
  intros [Hb Hc He Hs] Hn Hsp. unfold space in Hsp. rewrite u32_small by (unfold in_u; lia).
  split; cbn; try done.
  - split; cbn; (done || lia).
  - rewrite length_bits_of. lia.
  - unfold upcoming. cbn. rewrite <- bits_of_app by lia. f_equal. lia.
Qed.

(** Reading [n] bits delivers the first [n] upcoming ones, or, when fewer are left, all
    of them and the error flag; the destination outside the run keeps its bits. *)
Lemma read_bits_total s dest db n :
  stream_ok s -> is_bytes dest -> 0 <= db -> 0 <= n -> db + n <= 8 * blen dest ->
  let m := Z.min n (space s) in
  exists s1 s' dest',
    _read_bits s dest db n = Ok (s', dest', m) /\
    consumed s (bits_of (bs_base s) (bs_bit_num s) m) s1 /\
    s' = (if n <=? space s then s1 else raise_error s1) /\
    copied dest db (bs_base s) (bs_bit_num s) m dest'.
Proof.
  intros Hok Hd Hdb Hn Hroom m. pose proof Hok as [Hb Hc He Hs]. unfold _read_bits.
  assert (Hcop0 : copied dest db (bs_base s) (bs_bit_num s) 0 dest).
  { unfold copied. split_and!; [done..|]. intros. cases_ltb; done. }
  destruct (Z.eqb_spec n 0) as [->|].
  { replace m with 0 by (unfold m, space; lia). exists s, s, dest.
    split_and!; [done | by apply consumed_refl | | done].
    destruct (Z.leb_spec 0 (space s)); [done | unfold space in *; lia]. }
  cbn [read_bits_loop]. rewrite (space_u32 s Hok).
  destruct (Z.eqb_spec (space s) 0) as [H0|].
  { replace m with 0 by lia. exists s, (raise_error s), dest.
    split_and!; [done | by apply consumed_refl | | done].
    destruct (Z.leb_spec n (space s)); [lia | done]. }
  destruct (Z.leb_spec n (space s)).
  - replace m with n by lia. unfold space in *.
    destruct (copy_bits_copied dest (bs_base s) db (bs_bit_num s) n) as (dest' & -> & Hcop);
      try done; try lia.
    cbn [mbind result_bind]. rewrite Z.add_0_l, (u32_small n) by (unfold in_u; lia).
    do 3 eexists. split_and!; [done | by apply consumed_advance | done | done].
  - replace m with (space s) by lia.
    destruct (copy_bits_copied dest (bs_base s) db (bs_bit_num s) (space s)) as (dest' & -> & Hcop);
      try done; try (unfold space in *; lia).
    cbn [mbind result_bind]. cbn [bs_bit_num bs_bit_end with_bit_num].
    rewrite Z.add_0_l, !(u32_small (space s)), (u32_small (bs_bit_num s + space s))
      by (unfold in_u, space in *; lia).
    replace (bs_bit_end s - (bs_bit_num s + space s)) with 0 by (unfold space; lia). cbn.
    exists (with_bit_num s (bs_bit_num s + space s)). do 2 eexists. split_and!; [done | | done..].
    pose proof (consumed_advance s (space s)) as Hadv.
    rewrite u32_small in Hadv by (unfold in_u, space in *; lia). apply Hadv; [done | | lia].
    unfold space in *. lia.
Qed.

Lemma upcoming_prefix s l r :
  stream_ok s -> upcoming s = l ++ r ->
  Z.of_nat (length l) <= space s /\ bits_of (bs_base s) (bs_bit_num s) (Z.of_nat (length l)) = l.
Proof.
  intros [Hb Hc He Hs] Hu. unfold upcoming, space in *.
  assert (Hlen : Z.of_nat (length l) <= bs_bit_end s - bs_bit_num s).
  { apply (f_equal length) in Hu. rewrite length_bits_of, length_app in Hu. lia. }
  split; [done|].
  replace (bs_bit_end s - bs_bit_num s) with
    (Z.of_nat (length l) + (bs_bit_end s - bs_bit_num s - Z.of_nat (length l))) in Hu by lia.
  rewrite bits_of_app in Hu by lia. apply app_inj_1 in Hu; [by destruct Hu|].
  rewrite length_bits_of. lia.
Qed.

Lemma consumed_upcoming s l r s' : consumed s l s' -> upcoming s = l ++ r -> upcoming s' = r.
Proof. intros [_ _ _ _ _ Hu] Hl. rewrite Hu in Hl. by apply app_inv_head in Hl. Qed.

Lemma read_bits_upcoming s dest db n l r :
  stream_ok s -> is_bytes dest -> 0 <= db -> 0 <= n -> db + n <= 8 * blen dest ->
  n = Z.of_nat (length l) -> upcoming s = l ++ r ->
  exists s' dest',
    _read_bits s dest db n = Ok (s', dest', n) /\ consumed s l s' /\
    copied dest db (bs_base s) (bs_bit_num s) n dest'.
Proof.
  intros Hok Hd Hdb Hn Hroom -> Hu.
  destruct (upcoming_prefix s l r Hok Hu) as [Hsp Hl].
  destruct (read_bits_total s dest db (Z.of_nat (length l))) as (s1 & s' & dest' & Hr & Hc & -> & Hcop);
    try done.
  rewrite Z.min_l in * by lia. destruct (Z.leb_spec (Z.of_nat (length l)) (space s)); [|lia].
  rewrite Hl in Hc. eauto 10.
Qed.

(** *** Integers, booleans and byte runs *)
Lemma write_integer_appended s v w :
  stream_ok s -> 0 <= w <= 32 -> w <= space s ->
  exists s', _write_integer s v w = Ok s' /\ appended s (int_bits w v) s'.
Proof.
  intros Hok Hw Hsp. unfold _write_integer, host_to_little_endian.
  destruct (write_bits_fits s (le_bytes 4 v) 0 w) as (s' & -> & Ha);
    auto with words; try (rewrite ?blen_le_bytes; lia).
  rewrite bits_of_le_bytes in Ha by lia. eauto.
Qed.

Lemma le_bytes_0 n : le_bytes n 0 = replicate n 0.
Proof. induction n; simpl; f_equal; auto. Qed.

(** The word left by reading into a zero word: the bits read, zero-extended. *)
Lemma copied_zero_word base bn n dest' :
  0 <= n <= 32 -> copied (le_bytes 4 0) 0 base bn n dest' ->
  is_u32 (le_val dest') /\
  forall i, 0 <= i -> Z.testbit (le_val dest') i = (i <? n) && bitz base (bn + i).
Proof.
  intros Hn (Hb & Hl & Hbits). split.
  { pose proof (le_val_range dest' Hb) as Hr. unfold blen in Hr.
    by rewrite Hl, length_le_bytes in Hr. }
  intros i Hi. rewrite testbit_le_val, Hbits by done.
  rewrite bitz_le_bytes, Z.testbit_0_l by done.
  destruct (Z.leb_spec 0 i); [|lia]. destruct (Z.ltb_spec i (0 + n)), (Z.ltb_spec i n);
    cbn [andb]; try lia; try done. f_equal. lia.
Qed.

Lemma read_integer_upcoming s w v r :
  stream_ok s -> 0 <= w <= 32 -> upcoming s = int_bits w v ++ r ->
  exists s', _read_integer s w = Ok (s', v mod 2 ^ w) /\ consumed s (int_bits w v) s'.
Proof.
  intros Hok Hw Hu. unfold _read_integer.
  destruct (read_bits_upcoming s (le_bytes 4 0) 0 w (int_bits w v) r) as (s' & dest' & -> & Hc & Hcop);
    auto with words; rewrite ?blen_le_bytes, ?length_int_bits; try lia.
  cbn [mbind result_bind]. exists s'. split; [|done]. unfold little_endian_to_host. do 2 f_equal.
  destruct (upcoming_prefix s _ r Hok Hu) as [_ Hbits]. rewrite length_int_bits, Z2Nat.id in Hbits by lia.
  apply copied_zero_word in Hcop as [_ Hv]; [|done]. apply Z.bits_inj'. intros i Hi.
  rewrite Hv, testbit_u by lia. destruct (Z.ltb_spec i w); [|by rewrite andb_false_r].
  apply (f_equal (fun l => l !! Z.to_nat i)) in Hbits. unfold bits_of, int_bits in Hbits.
  rewrite !list_lookup_fmap, lookup_seqZ_lt in Hbits by lia. cbn in Hbits.
  rewrite Z2Nat.id, Z.add_0_l in Hbits by lia. injection Hbits as Hbits.
  by rewrite Hbits, andb_true_r.
Qed.

Lemma stream_ok_raise s : stream_ok s -> stream_ok (raise_error s).
Proof. intros [? ? ? ?]. by split. Qed.

(** Reading an integer never faults: a short stream gives the bits there are. *)
Lemma read_integer_total s w :
  stream_ok s -> 0 <= w <= 32 ->
  exists s' v, _read_integer s w = Ok (s', v) /\ in_u w v /\ stream_ok s' /\
    bs_base s' = bs_base s /\ bs_bit_end s' = bs_bit_end s.
Proof.
  intros Hok Hw. unfold _read_integer.
  destruct (read_bits_total s (le_bytes 4 0) 0 w) as (s1 & s' & dest' & -> & Hc & Hs' & Hcop);
    auto with words; rewrite ?blen_le_bytes; try lia.
  cbn [mbind result_bind]. do 2 eexists. split; [done|]. destruct Hc as [Hok1 Hb1 He1 _ _ _].
  destruct Hok as [? ? ? ?].
  apply copied_zero_word in Hcop as [Hr Hv]; [|unfold space in *; lia].
  split_and!.
  - apply in_u_of_bits; [lia | apply le_val_nonneg |]. intros i Hi. unfold little_endian_to_host.
    rewrite Hv by lia. destruct (Z.ltb_spec i (Z.min w (space s))); [lia | done].
  - subst s'. destruct (w <=? space s); [done | by apply stream_ok_raise].
  - subst s'. by destruct (w <=? space s).
  - subst s'. by destruct (w <=? space s).
Qed.

Lemma write_bool_appended s b :
  stream_ok s -> 1 <= space s ->
  exists s', write_bool s b = Ok s' /\ appended s [b] s'.
Proof.
  intros Hok Hsp. unfold write_bool.
  destruct (write_bits_fits s [Z.b2z b] 0 1) as (s' & -> & Ha); auto; try (unfold blen; simpl; lia).
  { repeat constructor; destruct b; simpl; lia. }
  exists s'. split; [done|]. by destruct b.
Qed.

Lemma read_bool_upcoming s b r :
  stream_ok s -> upcoming s = b :: r ->
  exists s', read_bool s = Ok (s', b) /\ consumed s [b] s'.
Proof.
  intros Hok Hu. unfold read_bool.
  destruct (read_bits_upcoming s [0] 0 1 [b] r) as (s' & dest' & -> & Hc & (Hd & Hl & Hb)); auto;
    try (unfold blen; simpl; lia).
  { repeat constructor; lia. }
  destruct (upcoming_prefix s [b] r Hok Hu) as [_ Hp].
  destruct dest' as [|d [|]]; try discriminate. cbn. exists s'. split; [|done]. do 2 f_equal.
  assert (Hbit : Z.testbit d 0 = b).
  { specialize (Hb 0 ltac:(lia)). rewrite bitz_cons in Hb by lia.
    change (0 <? 8) with true in Hb. change ((0 <=? 0) && (0 <? 0 + 1)) with true in Hb.
    cbv iota in Hb. rewrite Hb.
    simpl in Hp. injection Hp as Hp. rewrite <- Hp. f_equal. lia. }
  assert (Hrest : forall i, 1 <= i < 8 -> Z.testbit d i = false).
  { intros i Hi. specialize (Hb i ltac:(lia)).
    destruct (Z.leb_spec 0 i), (Z.ltb_spec i (0 + 1)); try lia. cbn [andb] in Hb.
    rewrite !bitz_cons, Z.testbit_0_l, !bitz_nil in Hb by lia.
    destruct (Z.ltb_spec i 8); [done | lia]. }
  assert (Hd' : d = Z.b2z b).
  { inversion Hd as [|? ? Hd8]; subst. apply Z.bits_inj'. intros i Hi.
    destruct (Z.eqb_spec i 0) as [->|]; [by destruct (Z.testbit d 0)|].
    transitivity false.
    { destruct (Z.ltb_spec i 8); [apply Hrest; lia | apply (testbit_high 8); (done || lia)]. }
    symmetry. apply (testbit_high 1); [destruct (Z.testbit d 0); split; simpl; lia | lia]. }
  rewrite Hd'. by destruct b.
Qed.

Lemma read_bool_total s :
  stream_ok s -> exists s' b, read_bool s = Ok (s', b) /\ stream_ok s' /\
    bs_base s' = bs_base s /\ bs_bit_end s' = bs_bit_end s.
Proof.
  intros Hok. unfold read_bool.
  destruct (read_bits_total s [0] 0 1) as (s1 & s' & dest' & -> & Hc & Hs' & (Hd & Hl & _));
    auto; try (unfold blen; simpl; lia).
  { repeat constructor; lia. }
  destruct dest' as [|d [|]]; try discriminate. cbn. destruct Hc as [? ? ? _ _ _].
  do 2 eexists. split; [done|]. subst s'.
  destruct (1 <=? space s); auto using stream_ok_raise.
Qed.

Lemma write_bytes_appended s b n :
  stream_ok s -> is_bytes b -> n = blen b -> 8 * n <= space s ->
  exists s', write_bytes s b n = Ok (s', n) /\ appended s (byte_bits b) s'.
Proof.
  intros Hok Hb -> Hsp. unfold write_bytes. pose proof (blen_nonneg b). pose proof Hok as [? ? ? ?].
  rewrite Z.shiftl_mul_pow2, u32_small by (unfold in_u, space in *; lia).
  destruct (write_bits_fits s b 0 (blen b * 2 ^ 3)) as (s' & -> & Ha); auto; try lia.
  cbn [mbind result_bind]. exists s'. split.
  - do 2 f_equal. rewrite Z.shiftr_div_pow2 by lia. apply Z.div_mul. lia.
  - unfold byte_bits. by replace (8 * blen b) with (blen b * 2 ^ 3) by lia.
Qed.

Lemma bitz_take b k i : 0 <= i < 8 * Z.of_nat k -> bitz (take k b) i = bitz b i.
Proof. intros Hi. unfold bitz. rewrite lookup_take_lt; [done|]. zlia. Qed.

Lemma copied_prefix dest base bn b :
  is_bytes b -> (length b <= length dest)%nat ->
  bits_of base bn (8 * blen b) = byte_bits b ->
  forall dest', copied dest 0 base bn (8 * blen b) dest' -> take (length b) dest' = b.
Proof.
  intros Hb Hl Hbits dest' (Hd' & Hl' & Hc).
  apply bytes_eq_bits; [by apply Forall_take | done | rewrite length_take; lia |].
  intros i Hi. unfold blen in Hi. rewrite length_take in Hi.
  assert (i < 8 * blen b) by (unfold blen in *; lia).
  rewrite bitz_take, Hc by (unfold blen in *; lia).
  destruct (Z.leb_spec 0 i), (Z.ltb_spec i (0 + 8 * blen b)); try lia. cbn [andb].
  apply (f_equal (fun l => l !! Z.to_nat i)) in Hbits. unfold byte_bits, bits_of in Hbits.
  rewrite !list_lookup_fmap, lookup_seqZ_lt in Hbits by lia. cbn in Hbits.
  rewrite Z2Nat.id, !Z.add_0_l in Hbits by lia. injection Hbits as Hbits.
  rewrite <- Hbits. f_equal. lia.
Qed.

(** Reading [b] into the front of a buffer. *)
Lemma read_bytes_prefix s dest b n r :
  stream_ok s -> is_bytes dest -> is_bytes b -> (length b <= length dest)%nat -> n = blen b ->
  8 * blen b < 2 ^ 32 -> upcoming s = byte_bits b ++ r ->
  exists s' dest', read_bytes s dest n = Ok (s', dest', n) /\ consumed s (byte_bits b) s' /\
    take (length b) dest' = b /\ length dest' = length dest.
Proof.
  intros Hok Hd Hb Hl -> Hsz Hu. unfold read_bytes. pose proof (blen_nonneg b).
  assert (Hlen : blen b <= blen dest) by (unfold blen; lia).
  rewrite Z.shiftl_mul_pow2, u32_small by (unfold in_u; lia).
  destruct (read_bits_upcoming s dest 0 (blen b * 2 ^ 3) (byte_bits b) r) as (s' & dest' & -> & Hc & Hcop);
    auto; try lia.
  { rewrite length_byte_bits. unfold blen. lia. }
  cbn [mbind result_bind]. exists s', dest'. destruct (upcoming_prefix s _ r Hok Hu) as [_ Hp].
  rewrite length_byte_bits in Hp. replace (Z.of_nat (8 * length b)) with (8 * blen b) in Hp
    by (unfold blen; lia). replace (blen b * 2 ^ 3) with (8 * blen b) in * by lia.
  split; [|split; [done|]; split; [by eapply copied_prefix | apply Hcop]]. do 2 f_equal.
  rewrite Z.shiftr_div_pow2, Z.mul_comm by lia. apply Z.div_mul. lia.
Qed.

Lemma read_bytes_upcoming s dest b n r :
  stream_ok s -> is_bytes dest -> is_bytes b -> length dest = length b -> n = blen b ->
  8 * blen b < 2 ^ 32 -> upcoming s = byte_bits b ++ r ->
  exists s', read_bytes s dest n = Ok (s', b, n) /\ consumed s (byte_bits b) s'.
Proof.
  intros Hok Hd Hb Hl Hn Hsz Hu.
  destruct (read_bytes_prefix s dest b n r) as (s' & dest' & E & Hc & Ht & Hl'); try done; [lia|].
  rewrite take_ge in Ht by lia. subst dest'. by exists s'.
Qed.

Lemma read_bytes_total s dest n :
  stream_ok s -> is_bytes dest -> 0 <= n <= blen dest ->
  exists s' dest' m, read_bytes s dest n = Ok (s', dest', m) /\ stream_ok s' /\
    bs_base s' = bs_base s /\ bs_bit_end s' = bs_bit_end s /\
    is_bytes dest' /\ length dest' = length dest.
Proof.
  intros Hok Hd Hn. unfold read_bytes. rewrite Z.shiftl_mul_pow2 by lia.
  pose proof (u32_range (n * 2 ^ 3)) as [? _].
  assert (u32 (n * 2 ^ 3) <= n * 2 ^ 3) by (apply Z.mod_le; lia).
  destruct (read_bits_total s dest 0 (u32 (n * 2 ^ 3)))
    as (s1 & s' & dest' & -> & Hc & Hs' & (Hd' & Hl & _)); auto; try lia.
  cbn [mbind result_bind]. destruct Hc as [? ? ? _ _ _].
  do 3 eexists. split; [done|]. subst s'. destruct (_ <=? space s); auto 10 using stream_ok_raise.
Qed.

(** ** Ranged integers

    [write_ranged_uint32] and [read_ranged_uint32] agree on the width of the field, and
    the value comes back for every range of fewer than [2^24] values. *)
Definition range_bits (range_start range_end : Z) : Z := Z.log2_up (range_end - range_start + 1).

Lemma range_bits_width a b :
  0 <= a <= b -> b < 2 ^ 32 -> b - a < 2 ^ 24 - 1 ->
  get_next_binary_log (u32 (b - a + 1)) = range_bits a b /\ 0 <= range_bits a b <= 24.
Proof.
  intros Hab Hb Hr. rewrite u32_small, get_next_binary_log_spec by (unfold in_u; lia).
  split; [done|]. unfold range_bits. split; [apply Z.log2_up_nonneg|].
  rewrite <- (Z.log2_up_pow2 24) by lia. apply Z.log2_up_le_mono. lia.
Qed.

Lemma write_ranged_appended s v a b :
  stream_ok s -> 0 <= a <= v -> v <= b -> b < 2 ^ 32 -> b - a < 2 ^ 24 - 1 ->
  range_bits a b <= space s ->
  exists s', write_ranged_uint32 s v a b = Ok s' /\ appended s (int_bits (range_bits a b) (v - a)) s'.
Proof.
  intros Hok Hav Hvb Hb Hr Hsp. unfold write_ranged_uint32.
  destruct (range_bits_width a b) as [Hw Hw']; try lia. rewrite Hw.
  destruct (Z.leb_spec a v), (Z.leb_spec v b), (Z.leb_spec a b); try lia.
  cbn [require andb mbind result_bind]. rewrite u32_small by (unfold in_u; lia).
  apply write_integer_appended; (done || lia).
Qed.

Lemma read_ranged_upcoming s v a b r :
  stream_ok s -> 0 <= a <= v -> v <= b -> b < 2 ^ 32 -> b - a < 2 ^ 24 - 1 ->
  upcoming s = int_bits (range_bits a b) (v - a) ++ r ->
  exists s', read_ranged_uint32 s a b = Ok (s', v) /\
    consumed s (int_bits (range_bits a b) (v - a)) s'.
Proof.
  intros Hok Hav Hvb Hb Hr Hu. unfold read_ranged_uint32.
  destruct (range_bits_width a b) as [Hw Hw']; try lia. rewrite Hw.
  destruct (Z.leb_spec a b); try lia. cbn [require mbind result_bind].
  destruct (read_integer_upcoming s (range_bits a b) (v - a) r) as (s' & -> & Hc); try (done || lia).
  cbn [mbind result_bind]. exists s'. split; [|done]. do 2 f_equal.
  assert (v - a < 2 ^ range_bits a b).
  { unfold range_bits. destruct (Z.eqb_spec (b - a) 0) as [E|].
    - rewrite E. change (2 ^ Z.log2_up (0 + 1)) with 1. lia.
    - pose proof (Z.log2_up_spec (b - a + 1)). lia. }
  rewrite (Z.mod_small (v - a)) by lia. rewrite Z.sub_add. apply u32_small. unfold in_u. lia.
Qed.

Lemma read_ranged_total s a b :
  stream_ok s -> 0 <= a <= b -> b < 2 ^ 32 -> b - a < 2 ^ 24 - 1 ->
  exists s' v, read_ranged_uint32 s a b = Ok (s', v) /\ is_u32 v /\ stream_ok s' /\
    bs_base s' = bs_base s /\ bs_bit_end s' = bs_bit_end s.
Proof.
  intros Hok Hab Hb Hr. unfold read_ranged_uint32.
  destruct (range_bits_width a b) as [Hw Hw']; try lia. rewrite Hw.
  destruct (Z.leb_spec a b); try lia. cbn [require mbind result_bind].
  destruct (read_integer_total s (range_bits a b)) as (s' & v & -> & _ & Hs'); [done | lia |].
  cbn. do 2 eexists. split; [done|]. split; [apply u32_range | done].
Qed.

(** ** Fresh streams *)
Lemma new_stream_ok b :
  is_bytes b -> 8 * blen b < 2 ^ 32 - 8 -> stream_ok (new_stream b (blen b)).
Proof.
  intros Hb Hs. pose proof (blen_nonneg b). unfold new_stream.
  rewrite u32_small by (unfold in_u; lia). split; cbn; (done || lia).
Qed.

Lemma new_stream_upcoming b :
  8 * blen b < 2 ^ 32 - 8 -> upcoming (new_stream b (blen b)) = byte_bits b.
Proof.
  intros Hs. pose proof (blen_nonneg b). unfold new_stream, upcoming, byte_bits. cbn.
  rewrite u32_small by (unfold in_u; lia). f_equal. lia.
Qed.

(** The bytes before a byte-aligned cursor are what a receiver of the first
    [get_next_byte_position] bytes reads. *)
Lemma written_bytes s n :
  stream_ok s -> bs_bit_num s = 8 * n ->
  byte_bits (take (Z.to_nat n) (bs_base s)) = written s.
Proof.
  intros [Hb Hc He Hs] Hn. unfold byte_bits, written.
  assert (Hl : blen (take (Z.to_nat n) (bs_base s)) = n).
  { unfold blen in *. rewrite length_take. lia. }
  rewrite Hl, Hn. apply bits_of_ext. intros k Hk. unfold bitz.
  rewrite lookup_take_lt by zlia. done.
Qed.

Lemma byte_bits_inj a b : is_bytes a -> is_bytes b -> byte_bits a = byte_bits b -> a = b.
Proof.
  intros Ha Hb Heq.
  assert (Hl : length a = length b).
  { apply (f_equal length) in Heq. rewrite !length_byte_bits in Heq. lia. }
  apply bytes_eq_bits; [done | done | done |]. intros i Hi.
  apply (f_equal (fun l => l !! Z.to_nat i)) in Heq. unfold byte_bits, bits_of in Heq.
  rewrite !list_lookup_fmap, !lookup_seqZ_lt in Heq by (unfold blen in *; lia). cbn in Heq.
  rewrite Z2Nat.id in Heq by lia. by injection Heq.
Qed.

(** The bytes from a byte-aligned cursor to the end. *)
Lemma upcoming_bytes s n m :
  stream_ok s -> bs_bit_num s = 8 * n -> bs_bit_end s = 8 * m ->
  byte_bits (take (Z.to_nat (m - n)) (drop (Z.to_nat n) (bs_base s))) = upcoming s.
Proof.
  intros [Hb Hc He Hs] Hn Hm. unfold byte_bits, upcoming.
  assert (Hl : blen (take (Z.to_nat (m - n)) (drop (Z.to_nat n) (bs_base s))) = m - n).
  { unfold blen in *. rewrite length_take, length_drop. lia. }
  rewrite Hl, Hn, Hm. replace (8 * m - 8 * n) with (8 * (m - n)) by lia.
  apply bits_of_ext. intros k Hk. unfold bitz.
  rewrite lookup_take_lt by zlia. rewrite lookup_drop.
  replace (Z.to_nat n + Z.to_nat ((0 + k) / 8))%nat with (Z.to_nat ((8 * n + k) / 8)) by zlia.
  replace ((8 * n + k) mod 8) with ((0 + k) mod 8) by zlia.
  destruct (bs_base s !! _); [|done]. destruct (Z.leb_spec 0 (0 + k)), (Z.leb_spec 0 (8 * n + k)); (done || lia).
Qed.

(** ** Byte boundaries *)
Lemma advance_num s :
  stream_ok s -> bs_bit_end s mod 8 = 0 ->
  bs_bit_num (advance_to_next_byte s) = 8 * ((bs_bit_num s + 7) / 8) /\
  bs_bit_num s <= 8 * ((bs_bit_num s + 7) / 8) <= bs_bit_end s.
Proof.
  intros [_ Hc _ Hs] He. unfold advance_to_next_byte. cbn.
  rewrite (u32_small (_ + 7)) by (unfold in_u; lia).
  rewrite Z.shiftr_div_pow2, Z.shiftl_mul_pow2 by lia.
  rewrite u32_small by zlia. zlia.
Qed.

(** Skipping to a byte boundary appends whatever bits the buffer holds there. *)
Lemma advance_appended s :
  stream_ok s -> bs_bit_end s mod 8 = 0 ->
  exists pad, appended s pad (advance_to_next_byte s) /\
    Z.of_nat (length pad) = 8 * ((bs_bit_num s + 7) / 8) - bs_bit_num s.
Proof.
  intros Hok He. destruct (advance_num s Hok He) as [Hn Hr]. pose proof Hok as [? [? ?] ? ?].
  exists (bits_of (bs_base s) (bs_bit_num s) (8 * ((bs_bit_num s + 7) / 8) - bs_bit_num s)).
  rewrite length_bits_of. split; [|lia].
  split; rewrite ?length_bits_of; try done; rewrite ?Hn; try lia.
  - split; cbn; try done; unfold advance_to_next_byte in Hn; cbn in Hn; lia.
  - unfold written. rewrite Hn. cbn. rewrite <- (Z.add_0_l (bs_bit_num s)) at 3.
    rewrite <- bits_of_app by lia. f_equal. lia.
Qed.

Lemma advance_consumed s :
  stream_ok s -> bs_bit_end s mod 8 = 0 ->
  exists pad, consumed s pad (advance_to_next_byte s) /\
    Z.of_nat (length pad) = 8 * ((bs_bit_num s + 7) / 8) - bs_bit_num s.
Proof.
  intros Hok He. destruct (advance_num s Hok He) as [Hn Hr]. pose proof Hok as [? [? ?] ? ?].
  exists (bits_of (bs_base s) (bs_bit_num s) (8 * ((bs_bit_num s + 7) / 8) - bs_bit_num s)).
  rewrite length_bits_of. split; [|lia].
  split; rewrite ?length_bits_of; try done; rewrite ?Hn; try lia.
  - split; cbn; try done; unfold advance_to_next_byte in Hn; cbn in Hn; lia.
  - unfold upcoming. rewrite Hn. cbn [bs_base bs_bit_end advance_to_next_byte with_bit_num].
    pose proof (bits_of_app (bs_base s) (bs_bit_num s)
      (8 * ((bs_bit_num s + 7) / 8) - bs_bit_num s)
      (bs_bit_end s - 8 * ((bs_bit_num s + 7) / 8)) ltac:(lia) ltac:(lia)) as Hb.
    rewrite Zplus_minus in Hb. rewrite <- Hb. f_equal. lia.
Qed.
