(* ===== verification/StreamIO.v ===== *)
(** * Reading and writing values: core/base_type_io.h, core/byte_buffer.h, address.h

    [Codec A] is the pair of overloads [write(stream, A)] / [read(stream, A&)] with the
    bits a value occupies ([typed] values inhabit the C++ type, [valid] ones can be sent);
    [CodecLaws A] states what a packet handler relies on: writing
    appends those bits, reading them back gives the value, and reading anything else
    still leaves a well-formed stream.  A read takes the old value of its target, because
    the callers ignore the result and a short read leaves the target partly overwritten. *)
From S2P Require Import Prelude Endian BitCopy BitStream.

(** ** What C++ leaves indeterminate

    [malloc n] is the content of a fresh block of [n] bytes and [indeterminate] the
    initial value of an automatic variable; allocation failure is not modelled. *)
Class Machine : Type := {
  malloc : Z -> bytes;
  indeterminate : Z;
  malloc_bytes n : is_bytes (malloc n);
  malloc_length n : 0 <= n -> blen (malloc n) = n;
  indeterminate_range : is_u64 indeterminate
}.

(** The machine used by the examples: fresh memory reads as [0xCD]. *)
#[export] Program Instance debug_machine : Machine := {|
  malloc := fun n => replicate (Z.to_nat n) 0xCD;
  indeterminate := 0xCDCDCDCDCDCDCDCD
|}.
Next Obligation. intros n. apply Forall_replicate. split; lia. Qed.
Next Obligation. intros n Hn. unfold blen. rewrite length_replicate. lia. Qed.
Next Obligation. split; lia. Qed.

(** ** The interface *)
Class Codec (A : Type) : Type := {
  enc : A -> list bool;
  typed : A -> Prop;
  valid : A -> Prop;
  write : bit_stream -> A -> result (bit_stream * bool);
  read : bit_stream -> A -> result (bit_stream * A * bool)
}.

Class CodecLaws (A : Type) `{Codec A} : Prop := {
  write_appended s a :
    stream_ok s -> valid a -> Z.of_nat (length (enc a)) <= space s ->
    exists s' ok, write s a = Ok (s', ok) /\ appended s (enc a) s';
  read_upcoming s old a r :
    stream_ok s -> typed old -> valid a -> upcoming s = enc a ++ r ->
    exists s' ok, read s old = Ok (s', a, ok) /\ consumed s (enc a) s';
  read_total s old :
    stream_ok s -> typed old ->
    exists s' a ok, read s old = Ok (s', a, ok) /\ typed a /\ stream_ok s' /\
      bs_base s' = bs_base s /\ bs_bit_end s' = bs_bit_end s
}.

(** ** Fixed-width integers: the generic templates of base_type_io.h *)
Definition write_scalar (n : nat) (s : bit_stream) (value : Z) : result (bit_stream * bool) :=
  let temp := host_to_little_endian value in
  '(s, k) ← write_bytes s (le_bytes n temp) (Z.of_nat n); Ok (s, k =? Z.of_nat n).

Definition read_scalar (n : nat) (s : bit_stream) (old : Z) : result (bit_stream * Z * bool) :=
  '(s, image, k) ← read_bytes s (le_bytes n old) (Z.of_nat n);
  let value := le_val image in
  if negb (k =? Z.of_nat n) then Ok (s, value, false)
  else Ok (s, host_to_little_endian value, true).

Section scalar.
Context (n : nat).
Hypothesis Hn : (0 < n <= 8)%nat.
Let w := 8 * Z.of_nat n.

Lemma write_scalar_appended s a :
  stream_ok s -> in_u w a -> w <= space s ->
  exists s', write_scalar n s a = Ok (s', true) /\ appended s (int_bits w a) s'.
Proof.
  intros Hok Ha Hsp. unfold write_scalar, host_to_little_endian.
  destruct (write_bytes_appended s (le_bytes n a) (Z.of_nat n)) as (s' & -> & Happ);
    auto with words; try (by rewrite blen_le_bytes); try (subst w; lia).
  rewrite byte_bits_le_bytes in Happ. cbn. rewrite Z.eqb_refl. eauto.
Qed.

Lemma read_scalar_upcoming s old a r :
  stream_ok s -> in_u w a -> upcoming s = int_bits w a ++ r ->
  exists s', read_scalar n s old = Ok (s', a, true) /\ consumed s (int_bits w a) s'.
Proof.
  intros Hok Ha Hu. unfold read_scalar, host_to_little_endian.
  assert (Hb : byte_bits (le_bytes n a) = int_bits w a) by apply byte_bits_le_bytes.
  destruct (read_bytes_upcoming s (le_bytes n old) (le_bytes n a) (Z.of_nat n) r)
    as (s' & -> & Hc); auto with words; rewrite ?length_le_bytes, ?blen_le_bytes; try (done || lia).
  { by rewrite Hb. }
  rewrite Hb in Hc. cbn. rewrite Z.eqb_refl. cbn. exists s'. split; [|done].
  rewrite le_val_le_bytes. do 3 f_equal. by apply Z.mod_small.
Qed.

Lemma read_scalar_total s old :
  stream_ok s ->
  exists s' a ok, read_scalar n s old = Ok (s', a, ok) /\ in_u w a /\ stream_ok s' /\
    bs_base s' = bs_base s /\ bs_bit_end s' = bs_bit_end s.
Proof.
  intros Hok. unfold read_scalar, host_to_little_endian.
  destruct (read_bytes_total s (le_bytes n old) (Z.of_nat n))
    as (s' & image & k & -> & Hok' & Hb & He & Hi & Hl); auto with words;
    rewrite ?blen_le_bytes; try lia.
  assert (in_u w (le_val image)).
  { pose proof (le_val_range image Hi) as Hr. unfold blen in Hr.
    by rewrite Hl, length_le_bytes in Hr. }
  cbn. destruct (negb _); eauto 10.
Qed.
End scalar.

(** Scalars of each width, tagged so that the width selects the codec. *)
Inductive scalar (n : nat) : Type := Scalar (value : Z).
Arguments Scalar {n} value.
Definition sval {n} (x : scalar n) : Z := let 'Scalar v := x in v.

Notation uint8 := (scalar 1).
Notation uint16 := (scalar 2).
Notation uint32 := (scalar 4).
Notation uint64 := (scalar 8).

#[export] Instance scalar_eq_dec n : EqDecision (scalar n).
Proof. solve_decision. Defined.

#[export] Instance scalar_codec n : Codec (scalar n) := {|
  enc x := int_bits (8 * Z.of_nat n) (sval x);
  typed x := in_u (8 * Z.of_nat n) (sval x);
  valid x := in_u (8 * Z.of_nat n) (sval x);
  write s x := write_scalar n s (sval x);
  read s old := '(s, v, ok) ← read_scalar n s (sval old); Ok (s, Scalar v, ok)
|}.

Lemma scalar_laws n : (0 < n <= 8)%nat -> CodecLaws (scalar n).
Proof.
  intros Hn. split.
  - intros s [a] Hok Ha Hsp. cbn in *. rewrite length_int_bits in Hsp.
    destruct (write_scalar_appended n s a) as (s' & -> & ?); eauto; lia.
  - intros s [old] [a] r Hok Hold Ha Hu. cbn in *.
    destruct (read_scalar_upcoming n Hn s old a r) as (s' & -> & ?); eauto.
  - intros s [old] Hok Hold. cbn in *.
    destruct (read_scalar_total n Hn s old) as (s' & a & ok & -> & ? & ? & ? & ?); eauto.
    cbn. exists s', (Scalar a), ok. eauto.
Qed.

#[export] Instance uint8_laws : CodecLaws uint8.
Proof. apply scalar_laws. lia. Qed.
#[export] Instance uint16_laws : CodecLaws uint16.
Proof. apply scalar_laws. lia. Qed.
#[export] Instance uint32_laws : CodecLaws uint32.
Proof. apply scalar_laws. lia. Qed.
#[export] Instance uint64_laws : CodecLaws uint64.
Proof. apply scalar_laws. lia. Qed.

(** ** Ranged enumerations: [enumeration<enum_count>] *)
Definition write_enumeration (enum_count : Z) (s : bit_stream) (value : Z)
    : result (bit_stream * bool) :=
  s ← write_ranged_uint32 s value 0 (enum_count - 1); Ok (s, true).

(** Assigning the wire value goes through the constructor, which asserts its range. *)
Definition read_enumeration (enum_count : Z) (s : bit_stream) : result (bit_stream * Z * bool) :=
  '(s, value) ← read_ranged_uint32 s 0 (enum_count - 1);
  _ ← require (value <? enum_count) assertion_failed;
  Ok (s, value, true).

Lemma enumeration_roundtrip enum_count s v :
  stream_ok s -> 0 <= v < enum_count -> enum_count < 2 ^ 24 ->
  range_bits 0 (enum_count - 1) <= space s ->
  exists s', write_enumeration enum_count s v = Ok (s', true) /\
    appended s (int_bits (range_bits 0 (enum_count - 1)) v) s' /\
    forall t r, stream_ok t -> upcoming t = int_bits (range_bits 0 (enum_count - 1)) v ++ r ->
      exists t', read_enumeration enum_count t = Ok (t', v, true).
Proof.
  intros Hok Hv Hc Hsp. unfold write_enumeration.
  destruct (write_ranged_appended s v 0 (enum_count - 1)) as (s' & -> & Ha); try (done || lia).
  rewrite Z.sub_0_r in Ha. exists s'. split_and!; [done | done |]. intros t r Hot Hu.
  unfold read_enumeration.
  destruct (read_ranged_upcoming t v 0 (enum_count - 1) r) as (t' & -> & _); try (done || lia).
  { by rewrite Z.sub_0_r. }
  cbn. destruct (Z.ltb_spec v enum_count); [cbn; eauto | lia].
Qed.

(** ** Byte buffers: core/byte_buffer.h

    A [byte_buffer] is its content, [_buf_size] bytes at [_data_ptr]. *)
Module byte_buffer.
Section byte_buffer.
Context `{Machine}.

Record t : Type := mk { data : bytes }.

(** [byte_buffer(const char *string)] keeps the terminator. *)
Definition of_string (string : bytes) : t := mk (string ++ [0]).
Definition of_memory (data_ptr : bytes) : t := mk data_ptr.
Definition of_size (buffer_size : Z) : t := mk (malloc buffer_size).
Definition get_buffer_size (b : t) : Z := blen (data b).

(** [realloc] keeps the common prefix; the bytes it adds are indeterminate. *)
Definition resize (b : t) (new_buffer_size : Z) : t :=
  if new_buffer_size <=? get_buffer_size b then mk (take (Z.to_nat new_buffer_size) (data b))
  else mk (data b ++ malloc (new_buffer_size - get_buffer_size b)).

(** [memcpy(_data_ptr + start, data_buffer, buffer_size)]. *)
Definition append_buffer (b : t) (data_buffer : bytes) : t :=
  let start := get_buffer_size b in
  let b := resize b (u32 (start + blen data_buffer)) in
  mk (take (Z.to_nat start) (data b) ++ data_buffer ++
      drop (Z.to_nat (start + blen data_buffer)) (data b)).

Definition is_equal (b the_buffer : t) : bool :=
  if negb (get_buffer_size the_buffer =? get_buffer_size b) then false
  else bool_decide (data the_buffer = data b).

Definition clear (b : t) : t := mk (replicate (length (data b)) 0).

Lemma append_buffer_data b d :
  get_buffer_size b + blen d < 2 ^ 32 -> data (append_buffer b d) = data b ++ d.
Proof.
  intros Hs. pose proof (blen_nonneg (data b)). pose proof (blen_nonneg d).
  unfold append_buffer, resize, get_buffer_size in *. rewrite u32_small by (unfold in_u; lia).
  destruct (Z.leb_spec (blen (data b) + blen d) (blen (data b))).
  - assert (d = []) as -> by (destruct d; [done | unfold blen in *; simpl in *; lia]).
    cbn. rewrite Z.add_0_r. unfold blen. rewrite Nat2Z.id, firstn_all, take_ge, drop_ge by lia.
    by rewrite app_nil_r.
  - cbn. assert (Hm : blen (malloc (blen (data b) + blen d - blen (data b))) = blen d).
    { rewrite malloc_length by lia. lia. }
    rewrite take_app_le, drop_ge by (unfold blen in *; rewrite ?length_app; lia).
    rewrite take_ge by (unfold blen; lia). by rewrite app_nil_r.
Qed.

Lemma is_equal_spec a b : is_equal a b = true <-> a = b.
Proof.
  unfold is_equal, get_buffer_size. destruct a as [a], b as [b]. cbn.
  destruct (Z.eqb_spec (blen b) (blen a)); cbn.
  - rewrite bool_decide_eq_true. split; congruence.
  - split; [done|]. intros [= ->]. done.
Qed.

(** [write(stream, byte_buffer_ptr)]: the size as a [uint32], then the bytes; the
    result is the number of bytes written, read as a [bool]. *)
Definition write_buffer (s : bit_stream) (b : t) : result (bit_stream * bool) :=
  let len := get_buffer_size b in
  '(s, _) ← write s (Scalar len : uint32);
  '(s, n) ← write_bytes s (data b) len;
  Ok (s, negb (n =? 0)).

(** [read(stream, byte_buffer_ptr)] replaces the target by a new buffer of the size on
    the wire, whatever was in it. *)
Definition read_buffer (s : bit_stream) : result (bit_stream * t * bool) :=
  '(s, len, _) ← read s (Scalar (u32 indeterminate) : uint32);
  let buffer := of_size (sval len) in
  '(s, d, n) ← read_bytes s (data buffer) (sval len);
  Ok (s, mk d, negb (n =? 0)).

Definition buffer_ok (b : t) : Prop := is_bytes (data b) /\ 8 * blen (data b) < 2 ^ 32.
End byte_buffer.
End byte_buffer.
Notation byte_buffer := byte_buffer.t.

Section byte_buffer_codec.
Context `{Machine}.
Import byte_buffer.

#[export] Instance byte_buffer_codec : Codec byte_buffer := {|
  enc b := int_bits 32 (blen (data b)) ++ byte_bits (data b);
  typed b := is_bytes (data b);
  valid := buffer_ok;
  write := write_buffer;
  read s _ := read_buffer s
|}.

Lemma len_valid b : buffer_ok b -> is_u32 (blen (data b)).
Proof. intros [_ ?]. pose proof (blen_nonneg (data b)). unfold in_u. lia. Qed.

#[export] Instance byte_buffer_laws : CodecLaws byte_buffer.
Proof.
  split.
  - intros s b Hok Hb Hsp. pose proof (len_valid b Hb) as Hl. destruct Hb as [Hd Hsz].
    cbn [enc write byte_buffer_codec] in *. unfold write_buffer, get_buffer_size.
    rewrite length_app, length_int_bits, length_byte_bits in Hsp.
    destruct (write_appended s (Scalar (blen (data b)) : uint32)) as (s1 & ? & -> & Ha1);
      [done | done | cbn [enc scalar_codec sval]; rewrite length_int_bits; lia |].
    cbn [mbind result_bind].
    pose proof (appended_space _ _ _ Ha1) as Hsp1. cbn [enc scalar_codec sval] in Hsp1.
    rewrite length_int_bits in Hsp1.
    destruct (write_bytes_appended s1 (data b) (blen (data b))) as (s2 & -> & Ha2);
      [apply Ha1 | done | done | unfold blen; lia |].
    cbn. do 2 eexists. split; [done|]. by apply (appended_trans _ _ s1).
  - intros s old b r Hok _ Hb Hu. pose proof (len_valid b Hb) as Hl. destruct Hb as [Hd Hsz].
    cbn [enc read byte_buffer_codec] in *. unfold read_buffer. rewrite <- app_assoc in Hu.
    destruct (read_upcoming s (Scalar (u32 indeterminate) : uint32)
      (Scalar (blen (data b))) (byte_bits (data b) ++ r)) as (s1 & ? & -> & Hc1);
      [done | apply u32_range | done | done |].
    cbn [mbind result_bind sval].
    destruct (read_bytes_upcoming s1 (data (of_size (blen (data b)))) (data b) (blen (data b)) r)
      as (s2 & -> & Hc2); [apply Hc1 | apply malloc_bytes | done | | done | done | |].
    { cbn. pose proof (malloc_length (blen (data b)) (blen_nonneg _)). unfold blen in *. lia. }
    { eapply consumed_upcoming; eauto. }
    cbn. destruct b as [b]. do 2 eexists. split; [done|]. by apply (consumed_trans _ _ s1).
  - intros s old Hok _. cbn [read byte_buffer_codec]. unfold read_buffer.
    destruct (read_total s (Scalar (u32 indeterminate) : uint32)) as
      (s1 & [len] & ? & -> & Hlen & Hok1 & Hb1 & He1); [done | apply u32_range |].
    cbn in Hlen. cbn [mbind result_bind sval].
    destruct (read_bytes_total s1 (data (of_size len)) len) as
      (s2 & d & m & -> & Hok2 & Hb2 & He2 & Hd & _); [done | apply malloc_bytes | |].
    { cbn. rewrite malloc_length; destruct Hlen; lia. }
    cbn. do 3 eexists. split; [done|]. split_and!; (done || congruence).
Qed.
End byte_buffer_codec.

(** ** Sequences of fields

    A packet body is a list of fields; writing them in order and reading them in order is
    what every handshake message does. *)
Section fields.
Context {A B : Type} `{CodecLaws A} `{CodecLaws B}.

Lemma write_two s a b :
  stream_ok s -> valid a -> valid b ->
  Z.of_nat (length (enc a ++ enc b)) <= space s ->
  exists s1 s2 ok1 ok2, write s a = Ok (s1, ok1) /\ write s1 b = Ok (s2, ok2) /\
    appended s (enc a ++ enc b) s2.
Proof.
  intros Hok Ha Hb Hsp. rewrite length_app in Hsp.
  destruct (write_appended s a) as (s1 & ok1 & Hw1 & Ha1); [done | done | lia |].
  pose proof (appended_space _ _ _ Ha1).
  destruct (write_appended s1 b) as (s2 & ok2 & Hw2 & Ha2); [apply Ha1 | done | lia |].
  exists s1, s2, ok1, ok2. split_and!; [done | done |]. by apply (appended_trans _ _ s1).
Qed.
End fields.
