(* ===== verification/References.v ===== *)
(** * Reference counting and safe pointers: core/ref_object.h

    Objects, counted references ([ref_object_ref], the base of [ref_ptr]) and safe pointers
    ([safe_object_ref], the base of [safe_ptr]) live in a heap each.  An object knows which
    references are its members: they are destroyed with it, which may destroy other objects in
    turn. *)
From S2P Require Import Prelude.
From stdpp Require Import gmap.
#[local] Open Scope Z_scope.

Module references.
Notation loc := positive.

(** ** The data *)
Inductive member : Type :=
  | ref_member (p : loc)
  | safe_member (p : loc).

#[export] Instance member_eq_dec : EqDecision member.
Proof. solve_decision. Defined.

(** [members]: the references the object still contains, in the order of their destruction (the
    reverse of their declaration). *)
Record ref_object : Type := mk_object {
  _first_object_ref : option loc;
  _ref_count : Z;
  members : list member
}.

Record safe_object_ref : Type := mk_safe {
  _object : option loc;
  _prev_object_ref : option loc;
  _next_object_ref : option loc
}.

(** [refs]: the field [_object] of every [ref_object_ref]. *)
Record memory : Type := mk_memory {
  objects : gmap loc ref_object;
  refs : gmap loc (option loc);
  safes : gmap loc safe_object_ref
}.

Definition empty_memory : memory := mk_memory ∅ ∅ ∅.

Definition with_first (x : option loc) (o : ref_object) : ref_object :=
  mk_object x (_ref_count o) (members o).
Definition with_count (n : Z) (o : ref_object) : ref_object :=
  mk_object (_first_object_ref o) n (members o).
Definition with_members (ms : list member) (o : ref_object) : ref_object :=
  mk_object (_first_object_ref o) (_ref_count o) ms.
Definition with_object (x : option loc) (r : safe_object_ref) : safe_object_ref :=
  mk_safe x (_prev_object_ref r) (_next_object_ref r).
Definition with_prev (x : option loc) (r : safe_object_ref) : safe_object_ref :=
  mk_safe (_object r) x (_next_object_ref r).
Definition with_next (x : option loc) (r : safe_object_ref) : safe_object_ref :=
  mk_safe (_object r) (_prev_object_ref r) x.

Definition with_objects (h : gmap loc ref_object) (m : memory) : memory := mk_memory h (refs m) (safes m).
Definition with_refs (h : gmap loc (option loc)) (m : memory) : memory := mk_memory (objects m) h (safes m).
Definition with_safes (h : gmap loc safe_object_ref) (m : memory) : memory := mk_memory (objects m) (refs m) h.

(** Reading and changing what a pointer points at; it may have been deleted. *)
Definition object_at (p : loc) : M memory ref_object := fun m =>
  o ← of_option null_deref (objects m !! p); Ok (o, m).
Definition change_object (p : loc) (g : ref_object -> ref_object) : M memory unit := fun m =>
  o ← of_option null_deref (objects m !! p); Ok (tt, with_objects (<[p := g o]> (objects m)) m).
Definition ref_at (h : loc) : M memory (option loc) := fun m =>
  x ← of_option null_deref (refs m !! h); Ok (x, m).
Definition safe_at (s : loc) : M memory safe_object_ref := fun m =>
  r ← of_option null_deref (safes m !! s); Ok (r, m).
Definition change_safe (s : loc) (g : safe_object_ref -> safe_object_ref) : M memory unit := fun m =>
  r ← of_option null_deref (safes m !! s); Ok (tt, with_safes (<[s := g r]> (safes m)) m).
Definition change_refs (g : gmap loc (option loc) -> gmap loc (option loc)) : M memory unit :=
  modify (fun m => with_refs (g (refs m)) m).
Definition change_safes (g : gmap loc safe_object_ref -> gmap loc safe_object_ref) : M memory unit :=
  modify (fun m => with_safes (g (safes m)) m).

(** [if(p) f(p);] *)
Definition if_set (x : option loc) (f : loc -> M memory unit) : M memory unit :=
  match x with Some p => f p | None => mret tt end.

(** ** Safe pointers *)
Definition register_reference (this : loc) : M memory unit :=
  r ← safe_at this;
  if_set (_object r) (fun object =>
    o ← object_at object;
    let next := _first_object_ref o in
    _ ← change_safe this (with_next next);
    _ ← if_set next (fun n => change_safe n (with_prev (Some this)));
    _ ← change_safe this (with_prev None);
    change_object object (with_first (Some this))).

Definition unregister_reference (this : loc) : M memory unit :=
  r ← safe_at this;
  if_set (_object r) (fun object =>
    _ ← match _prev_object_ref r with
        | Some prev => change_safe prev (with_next (_next_object_ref r))
        | None => change_object object (with_first (_next_object_ref r))
        end;
    if_set (_next_object_ref r) (fun next => change_safe next (with_prev (_prev_object_ref r)))).

(** [safe_object_ref(ref_object *object)] and [safe_object_ref()]: the links hold [junk] until they
    are set. *)
Definition safe_construct (junk : option loc) (s : loc) (object : option loc) : M memory unit :=
  _ ← change_safes (fun h => <[s := mk_safe object junk junk]> h);
  register_reference s.

Definition safe_construct_null (junk : option loc) (s : loc) : M memory unit :=
  change_safes (fun h => <[s := mk_safe None junk junk]> h).

Definition safe_set (s : loc) (object : option loc) : M memory unit :=
  _ ← unregister_reference s;
  _ ← change_safe s (with_object object);
  register_reference s.

Definition safe_destruct (s : loc) : M memory unit :=
  _ ← unregister_reference s;
  change_safes (delete s).

(** ** Deletion *)
(** The loop of [~ref_object]. *)
Fixpoint clear_references (fuel : nat) (walk : option loc) : M memory unit :=
  match walk with
  | None => mret tt
  | Some s =>
      match fuel with
      | O => lift (Fault out_of_fuel)
      | S fuel =>
          r ← safe_at s;
          _ ← change_safe s (fun _ => mk_safe None None None);
          clear_references fuel (_next_object_ref r)
      end
  end.

(** [~ref_object], after which the memory of the object is gone. *)
Definition destroy_object (p : loc) : M memory unit :=
  o ← object_at p;
  _ ← lift (require (_ref_count o =? 0) assertion_failed);
  m ← get;
  _ ← clear_references (size (safes m)) (_first_object_ref o);
  modify (fun m => with_objects (delete p (objects m)) m).

(** [~ref_object_ref], of a reference with the function [dec] to drop what it refers to. *)
Definition destruct_with (dec : loc -> M memory unit) (h : loc) : M memory unit :=
  x ← ref_at h;
  _ ← change_refs (delete h);
  if_set x dec.

(** The members of an object are destroyed before [~ref_object] runs. *)
Fixpoint destroy_members (dec : loc -> M memory unit) (p : loc) (ms : list member) : M memory unit :=
  match ms with
  | [] => mret tt
  | m :: ms =>
      _ ← change_object p (with_members ms);
      _ ← match m with
          | ref_member h => destruct_with dec h
          | safe_member s => safe_destruct s
          end;
      destroy_members dec p ms
  end.

Definition destroy_self (dec : loc -> M memory unit) (p : loc) : M memory unit :=
  o ← object_at p;
  _ ← destroy_members dec p (members o);
  destroy_object p.

(** [ref_object::dec_ref]; the fuel bounds the nesting of deletions. *)
Fixpoint dec_ref_within (fuel : nat) (p : loc) : M memory unit :=
  match fuel with
  | O => lift (Fault out_of_fuel)
  | S fuel =>
      o ← object_at p;
      let count := u32 (_ref_count o - 1) in
      _ ← change_object p (with_count count);
      if count =? 0 then destroy_self (dec_ref_within fuel) p else mret tt
  end.

Definition dec_ref (p : loc) : M memory unit :=
  m ← get; dec_ref_within (S (size (objects m))) p.

Definition inc_ref (p : loc) : M memory unit :=
  change_object p (fun o => with_count (u32 (_ref_count o + 1)) o).

(** [delete p]. *)
Definition delete_object (p : loc) : M memory unit := destroy_self dec_ref p.

(** ** Counted references *)
Definition construct (h : loc) (the_object : option loc) : M memory unit :=
  _ ← change_refs (fun r => <[h := the_object]> r);
  if_set the_object inc_ref.

Definition destruct (h : loc) : M memory unit := destruct_with dec_ref h.

Definition set (h : loc) (the_object : option loc) : M memory unit :=
  x ← ref_at h;
  _ ← if_set x dec_ref;
  _ ← ref_at h;
  _ ← change_refs (fun r => <[h := the_object]> r);
  if_set the_object inc_ref.

(** [new T]: an object whose members are null references; the last to be destroyed is the first
    to be constructed. *)
Fixpoint construct_members (junk : option loc) (p : loc) (ms : list member) : M memory unit :=
  match ms with
  | [] => mret tt
  | m :: ms =>
      _ ← construct_members junk p ms;
      _ ← match m with
          | ref_member h => construct h None
          | safe_member s => safe_construct_null junk s
          end;
      change_object p (fun o => with_members (m :: members o) o)
  end.

Definition new_object (junk : option loc) (p : loc) (ms : list member) : M memory unit :=
  _ ← modify (fun m => with_objects (<[p := mk_object None 0 []]> (objects m)) m);
  construct_members junk p ms.

(** ** Programs *)
Inductive operation : Type :=
  | op_new (p : loc) (ms : list member)
  | op_delete (p : loc)
  | op_construct (h : loc) (x : option loc)
  | op_set (h : loc) (x : option loc)
  | op_destruct (h : loc)
  | op_safe_construct (s : loc) (x : option loc)
  | op_safe_set (s : loc) (x : option loc)
  | op_safe_destruct (s : loc).

Definition exec (junk : option loc) (op : operation) : M memory unit :=
  match op with
  | op_new p ms => new_object junk p ms
  | op_delete p => delete_object p
  | op_construct h x => construct h x
  | op_set h x => set h x
  | op_destruct h => destruct h
  | op_safe_construct s x => safe_construct junk s x
  | op_safe_set s x => safe_set s x
  | op_safe_destruct s => safe_destruct s
  end.

Fixpoint exec_all (junk : option loc) (ops : list operation) : M memory unit :=
  match ops with
  | [] => mret tt
  | op :: ops => _ ← exec junk op; exec_all junk ops
  end.

(** A reference that is the only one to an object, assigned to itself, is a use after the
    deletion; so is taking the next object of a list through the head of the list. *)
Example self_assignment_frees :
  exec_all None [op_new 1 []; op_construct 1 (Some 1%positive); op_set 1 (Some 1%positive)] empty_memory
    = Fault null_deref.
Proof. reflexivity. Qed.

Example step_to_next_frees :
  exec_all None [op_new 1 [ref_member 1]; op_new 2 []; op_construct 7 (Some 1%positive);
    op_set 1 (Some 2%positive); op_set 7 (Some 2%positive)] empty_memory = Fault null_deref.
Proof. reflexivity. Qed.

(** Objects that refer to each other are never deleted. *)
Example cycle_leaks :
  match exec_all None [op_new 1 [ref_member 1]; op_construct 7 (Some 1%positive);
    op_set 1 (Some 1%positive); op_destruct 7] empty_memory with
  | Ok (_, m) => _ref_count <$> objects m !! 1%positive = Some 1
  | Fault _ => False
  end.
Proof. reflexivity. Qed.

(** ** The list of the safe pointers of an object

    [seg h o prev x l prev' x']: from the link [x], whose predecessor is [prev], the chain runs
    through the safe pointers [l] to [o] and arrives at [x'] with predecessor [prev']. *)
Notation safe_heap := (gmap loc safe_object_ref).

Inductive seg (h : safe_heap) (o : loc) :
    option loc -> option loc -> list loc -> option loc -> option loc -> Prop :=
  | seg_nil prev x : seg h o prev x [] prev x
  | seg_cons prev s next l prev' x' :
      h !! s = Some (mk_safe (Some o) prev next) -> seg h o (Some s) next l prev' x' ->
      seg h o prev (Some s) (s :: l) prev' x'.
#[local] Hint Constructors seg : core.

Lemma seg_app h o l1 l2 prev x prev' x' :
  seg h o prev x (l1 ++ l2) prev' x' <->
  exists prev1 x1, seg h o prev x l1 prev1 x1 /\ seg h o prev1 x1 l2 prev' x'.
Proof.
  split.
  - revert prev x. induction l1 as [|s l1 IH]; intros prev x Hs; [eauto|].
    inversion Hs; subst. edestruct IH as (prev1 & x1 & H1 & H2); [done|]. eauto 6.
  - intros (prev1 & x1 & H1 & H2). induction H1; cbn; eauto.
Qed.

Lemma seg_frame h h' o l prev x prev' x' :
  (forall s, s ∈ l -> h' !! s = h !! s) -> seg h o prev x l prev' x' -> seg h' o prev x l prev' x'.
Proof.
  intros Hf Hs. induction Hs as [|prev s next l prev' x' Hs _ IH]; [done|].
  eapply seg_cons; [rewrite Hf by set_solver; done | apply IH].
  intros s' Hs'. apply Hf. set_solver.
Qed.

Lemma seg_elem h o l prev x prev' x' s :
  seg h o prev x l prev' x' -> s ∈ l -> exists r, h !! s = Some r /\ _object r = Some o.
Proof.
  induction 1 as [|prev s' next l prev' x' Hs _ IH]; [by intros ?%not_elem_of_nil|].
  intros [->|Hin]%elem_of_cons; eauto.
Qed.

(** A chain is left towards [x'] through its last pointer, and entered through the first. *)
Lemma seg_exit h o l prev x prev' x' y :
  NoDup l -> seg h o prev x l prev' x' ->
  (l = [] /\ prev' = prev /\ x' = x) \/
  exists q r, q ∈ l /\ prev' = Some q /\ h !! q = Some r /\ _object r = Some o /\
    seg (<[q := with_next y r]> h) o prev x l prev' y.
Proof.
  destruct l as [|q l0 _] using rev_ind; intros Hnd Hs; [left; by inversion Hs|right].
  apply seg_app in Hs as (prev1 & x1 & H1 & H2). inversion H2 as [|? ? ? ? ? ? Hq H3]; subst.
  inversion H3; subst. apply NoDup_app in Hnd as (_ & Hnot & _).
  eexists q, _. split_and!; [set_solver | done | done | done |].
  apply seg_app. eexists prev1, (Some q). split.
  - eapply seg_frame; [|done]. intros s Hs. rewrite lookup_insert_ne; [done|]. set_solver.
  - eapply seg_cons; [by rewrite lookup_insert_eq | constructor].
Qed.

Lemma seg_enter h o l prev x prev' y :
  NoDup l -> seg h o prev x l prev' None ->
  (l = [] /\ x = None) \/
  exists n r, n ∈ l /\ x = Some n /\ h !! n = Some r /\ _object r = Some o /\
    seg (<[n := with_prev y r]> h) o y x l prev' None.
Proof.
  intros Hnd Hs. inversion Hs as [|? n next l0 ? ? Hn H2]; subst; [by left|right].
  apply NoDup_cons in Hnd as [Hn0 _]. eexists n, _. split_and!; [set_solver | done | done | done |].
  eapply seg_cons; [by rewrite lookup_insert_eq|].
  eapply seg_frame; [|done]. intros s Hs'. rewrite lookup_insert_ne; [done|]. set_solver.
Qed.

(** The safe pointers to [o] are the list that starts at [first]. *)
Record list_of (h : safe_heap) (o : loc) (first : option loc) (l : list loc) : Prop := {
  lo_nodup : NoDup l;
  lo_seg : exists last, seg h o None first l last None;
  lo_all s r : h !! s = Some r -> _object r = Some o -> s ∈ l
}.

Record safe_ok (h : safe_heap) (firsts : gmap loc (option loc)) : Prop := {
  so_list o first : firsts !! o = Some first -> exists l, list_of h o first l;
  so_live s r o : h !! s = Some r -> _object r = Some o -> is_Some (firsts !! o)
}.

Definition same_objects (h h' : safe_heap) : Prop := forall s, _object <$> h' !! s = _object <$> h !! s.

Lemma same_objects_insert h s r r' : h !! s = Some r -> _object r' = _object r -> same_objects h (<[s := r']> h).
Proof.
  intros Hs Hr s'. destruct (decide (s' = s)) as [->|].
  - by rewrite lookup_insert_eq, Hs; cbn; rewrite Hr.
  - by rewrite lookup_insert_ne.
Qed.

Lemma same_objects_trans h1 h2 h3 : same_objects h1 h2 -> same_objects h2 h3 -> same_objects h1 h3.
Proof. intros H1 H2 s. by rewrite H2. Qed.

Lemma same_objects_back h h' s r :
  same_objects h h' -> h' !! s = Some r -> exists r0, h !! s = Some r0 /\ _object r0 = _object r.
Proof. intros Hs Hr. specialize (Hs s). rewrite Hr in Hs. destruct (h !! s); naive_solver. Qed.

(** A list of another object is not touched by changes to the pointers of [o]. *)
Lemma list_of_other h h' o o' first l :
  o' <> o -> same_objects h h' ->
  (forall s r, h !! s = Some r -> _object r <> Some o -> h' !! s = h !! s) ->
  list_of h o' first l -> list_of h' o' first l.
Proof.
  intros Ho Hsame Hf [Hnd [last Hs] Hall]. split; [done | exists last | ].
  - eapply seg_frame; [|done]. intros s Hin. destruct (seg_elem _ _ _ _ _ _ _ _ Hs Hin) as (r & Hr & Hro).
    apply (Hf s r); congruence.
  - intros s r Hr Hro. destruct (same_objects_back _ _ _ _ Hsame Hr) as (r0 & Hr0 & E).
    apply (Hall s r0); congruence.
Qed.

(** What the operations on safe pointers leave alone. *)
Definition core_of (o : ref_object) : Z * list member := (_ref_count o, members o).
Definition core (m : memory) : gmap loc (Z * list member) := core_of <$> objects m.
Definition firsts (m : memory) : gmap loc (option loc) := _first_object_ref <$> objects m.

Lemma list_of_delete h o first l s : list_of h o first l -> s ∉ l -> list_of (delete s h) o first l.
Proof.
  intros [Hnd [last Hs] Hall] Hin. split; [done | exists last | ].
  - eapply seg_frame; [|done]. intros s' Hs'. rewrite lookup_delete_ne; [done|]. set_solver.
  - intros s' r Hr%lookup_delete_Some. naive_solver.
Qed.

Lemma safe_ok_delete_null h f s r :
  h !! s = Some r -> _object r = None -> safe_ok h f -> safe_ok (delete s h) f.
Proof.
  intros Hs Hr [Hl Hlive]. split.
  - intros o first Ho. destruct (Hl o first Ho) as [l Hlo]. exists l. apply list_of_delete; [done|].
    intros Hin. destruct Hlo as [_ [last Hseg] _].
    destruct (seg_elem _ _ _ _ _ _ _ _ Hseg Hin) as (r' & Hr' & Ho'). congruence.
  - intros s' r' o Hr'%lookup_delete_Some Ho. destruct Hr' as [_ Hr']. eauto.
Qed.

(** The two assignments of [unregister_reference]. *)
Lemma unlink_before m o first l1 prev s y :
  NoDup l1 -> firsts m !! o = Some first -> seg (safes m) o None first l1 prev (Some s) ->
  exists m' first',
    match prev with
    | Some prev => change_safe prev (with_next y)
    | None => change_object o (with_first y)
    end m = Ok (tt, m') /\
    refs m' = refs m /\ core m' = core m /\ firsts m' = <[o := first']> (firsts m) /\
    same_objects (safes m) (safes m') /\ (forall s, s ∉ l1 -> safes m' !! s = safes m !! s) /\
    seg (safes m') o None first' l1 prev y.
Proof.
  intros Hnd Hf Hs. unfold firsts in Hf. rewrite lookup_fmap in Hf.
  destruct (objects m !! o) as [obj|] eqn:Eo; [|done]. injection Hf as Hf.
  destruct (seg_exit _ _ _ _ _ _ _ y Hnd Hs) as [(-> & -> & <-) | (q & r & Hq & -> & Hr & Hro & Hs')].
  - eexists _, y. unfold change_object. rewrite Eo. cbn [of_option mbind result_bind].
    split_and!; [done | done | | | done | done | constructor].
    + unfold core. cbn. rewrite fmap_insert. cbn. apply insert_id. by rewrite lookup_fmap, Eo.
    + unfold firsts. cbn. by rewrite fmap_insert.
  - eexists _, first. unfold change_safe. rewrite Hr. cbn [of_option mbind result_bind].
    split_and!; [done | done | done | | | | done].
    + cbn. symmetry. apply insert_id. unfold firsts. by rewrite lookup_fmap, Eo; cbn; rewrite Hf.
    + by apply (same_objects_insert _ _ r).
    + intros s' Hs''. cbn. rewrite lookup_insert_ne; [done|]. set_solver.
Qed.

Lemma unlink_after m o l2 prev x last y :
  NoDup l2 -> seg (safes m) o prev x l2 last None ->
  exists m' last',
    if_set x (fun next => change_safe next (with_prev y)) m = Ok (tt, m') /\
    refs m' = refs m /\ objects m' = objects m /\
    same_objects (safes m) (safes m') /\ (forall s, s ∉ l2 -> safes m' !! s = safes m !! s) /\
    seg (safes m') o y x l2 last' None.
Proof.
  intros Hnd Hs. destruct (seg_enter _ _ _ _ _ _ y Hnd Hs) as [(-> & ->) | (n & r & Hn & -> & Hr & Hro & Hs')].
  - exists m, y. split_and!; (done || constructor).
  - eexists _, last. cbn. unfold change_safe. rewrite Hr. cbn [of_option mbind result_bind].
    split_and!; [done | done | done | | | done].
    + by apply (same_objects_insert _ _ r).
    + intros s' Hs''. cbn. rewrite lookup_insert_ne; [done|]. set_solver.
Qed.

Lemma unregister_ok m s r :
  safe_ok (safes m) (firsts m) -> safes m !! s = Some r ->
  exists m', unregister_reference s m = Ok (tt, m') /\
    refs m' = refs m /\ core m' = core m /\ same_objects (safes m) (safes m') /\
    safe_ok (delete s (safes m')) (firsts m').
Proof.
  intros Hok Hs. unfold unregister_reference. erewrite bind_step by (unfold safe_at; by rewrite Hs).
  destruct (_object r) as [o|] eqn:Ero; cbn [if_set];
    [|exists m; split_and!; try done; by eapply safe_ok_delete_null].
  destruct (so_live _ _ Hok s r o Hs Ero) as [first Hfirst].
  destruct (so_list _ _ Hok o first Hfirst) as [l Hl]. destruct Hl as [Hnd [last Hseg] Hall].
  destruct (list_elem_of_split l s (Hall s r Hs Ero)) as (l1 & l2 & ->).
  apply seg_app in Hseg as (prev & x & H1 & H2). inversion H2 as [|? ? next ? ? ? Hs2 H3]; subst.
  rewrite Hs in Hs2. injection Hs2 as ->. cbn [_prev_object_ref _next_object_ref].
  apply NoDup_app in Hnd as (Hnd1 & Hdisj & Hnd2). apply NoDup_cons in Hnd2 as [Hs2 Hnd2].
  destruct (unlink_before m o first l1 prev s next Hnd1 Hfirst H1) as (m1 & first' & E1 & Er1 & Ec1 & Ef1 & Hsame1 & Hfr1 & Hseg1).
  rewrite (bind_step _ _ _ _ _ E1).
  assert (H3' : seg (safes m1) o (Some s) next l2 last None).
  { eapply seg_frame; [|done]. intros s' Hs'. apply Hfr1. intros Hin. apply (Hdisj s'); set_solver. }
  destruct (unlink_after m1 o l2 _ _ _ prev Hnd2 H3') as (m2 & last' & E2 & Er2 & Eo2 & Hsame2 & Hfr2 & Hseg2).
  exists m2. split; [done|]. split; [congruence|]. split; [unfold core in *; congruence|].
  assert (Hsame : same_objects (safes m) (safes m2)) by (by eapply same_objects_trans).
  split; [done|]. assert (Ef2 : firsts m2 = <[o := first']> (firsts m)) by (rewrite <- Ef1; unfold firsts; congruence).
  rewrite Ef2. split.
  - intros o' f' Hf'. apply lookup_insert_Some in Hf' as [[<- <-] | [Ho' Hf']].
    + exists (l1 ++ l2). split.
      * apply NoDup_app. split_and!; [done | set_solver | done].
      * exists last'. eapply seg_frame; [intros s' Hs'; apply lookup_delete_ne; set_solver|].
        apply seg_app. exists prev, next. split; [|done].
        eapply seg_frame; [|done]. intros s' Hs'. apply Hfr2. intros Hin. apply (Hdisj s'); set_solver.
      * intros s' r' Hr'%lookup_delete_Some Ho'. destruct Hr' as [Hne Hr'].
        destruct (same_objects_back _ _ _ _ Hsame Hr') as (r0 & Hr0 & E0).
        specialize (Hall s' r0 Hr0 ltac:(congruence)). set_solver.
    + destruct (so_list _ _ Hok o' f' Hf') as [l' Hl']. exists l'. apply list_of_delete.
      * eapply (list_of_other (safes m) _ o); [done | done | | done].
        intros s' r' Hr' Hne. rewrite Hfr2, Hfr1; [done | |].
        -- intros Hin. destruct (seg_elem _ _ _ _ _ _ _ _ H1 Hin) as (r'' & ? & ?). congruence.
        -- intros Hin. destruct (seg_elem _ _ _ _ _ _ _ _ H3 Hin) as (r'' & ? & ?). congruence.
      * intros Hin. destruct Hl' as [_ [last'' Hseg'] _].
        destruct (seg_elem _ _ _ _ _ _ _ _ Hseg' Hin) as (r'' & Hr'' & E''). rewrite Hs in Hr''. naive_solver.
  - intros s' r' o' Hr'%lookup_delete_Some Ho'. destruct Hr' as [Hne Hr'].
    destruct (same_objects_back _ _ _ _ Hsame Hr') as (r0 & Hr0 & E0).
    destruct (so_live _ _ Hok s' r0 o' Hr0 ltac:(congruence)) as [f' Hf'].
    destruct (decide (o' = o)) as [->|]; [by rewrite lookup_insert_eq | by rewrite lookup_insert_ne].
Qed.

Lemma list_of_restore h o first l s :
  (forall r, h !! s = Some r -> _object r <> Some o) -> list_of (delete s h) o first l -> list_of h o first l.
Proof.
  intros Hs [Hnd [last Hseg] Hall]. split; [done | exists last | ].
  - eapply seg_frame; [|done]. intros s' Hs'. destruct (seg_elem _ _ _ _ _ _ _ _ Hseg Hs') as (r & Hr & _).
    apply lookup_delete_Some in Hr as [Hne _]. symmetry. by apply lookup_delete_ne.
  - intros s' r Hr Ho. destruct (decide (s' = s)) as [->|]; [by destruct (Hs r Hr)|].
    apply (Hall s' r); [|done]. by rewrite lookup_delete_ne.
Qed.

Lemma safe_ok_restore_null h f s r :
  h !! s = Some r -> _object r = None -> safe_ok (delete s h) f -> safe_ok h f.
Proof.
  intros Hs Hr [Hl Hlive]. split.
  - intros o first Ho. destruct (Hl o first Ho) as [l Hlo]. exists l. eapply list_of_restore; [|done]. congruence.
  - intros s' r' o Hr' Ho. apply (Hlive s' r' o); [|done]. rewrite lookup_delete_ne; [done|]. congruence.
Qed.

Lemma change_safe_step {A} s g m r (k : unit -> M memory A) :
  safes m !! s = Some r ->
  (x ← change_safe s g; k x) m = k tt (with_safes (<[s := g r]> (safes m)) m).
Proof. intros Hs. apply bind_step. unfold change_safe. by rewrite Hs. Qed.

Lemma register_ok m s r :
  safe_ok (delete s (safes m)) (firsts m) -> safes m !! s = Some r ->
  (forall o, _object r = Some o -> is_Some (objects m !! o)) ->
  exists m', register_reference s m = Ok (tt, m') /\
    refs m' = refs m /\ core m' = core m /\ same_objects (safes m) (safes m') /\
    safe_ok (safes m') (firsts m').
Proof.
  intros Hok Hs Hlive. unfold register_reference. erewrite bind_step by (unfold safe_at; by rewrite Hs).
  destruct (_object r) as [o|] eqn:Ero; cbn [if_set];
    [|exists m; split_and!; try done; by eapply safe_ok_restore_null].
  destruct (Hlive o eq_refl) as [obj Eo]. erewrite bind_step by (unfold object_at; by rewrite Eo).
  set (next := _first_object_ref obj).
  assert (Hf : firsts m !! o = Some next) by (unfold firsts; by rewrite lookup_fmap, Eo).
  destruct (so_list _ _ Hok o next Hf) as [l [Hnd [last Hseg] Hall]].
  assert (Hsl : s ∉ l).
  { intros Hin. destruct (seg_elem _ _ _ _ _ _ _ _ Hseg Hin) as (r' & Hr' & _). by rewrite lookup_delete_eq in Hr'. }
  cbv zeta. rewrite (change_safe_step _ _ _ _ _ Hs).
  set (m1 := with_safes (<[s := with_next next r]> (safes m)) m).
  assert (Hseg1 : seg (safes m1) o None next l last None).
  { eapply seg_frame; [|done]. intros s' Hs'. cbn. rewrite lookup_insert_ne, lookup_delete_ne by set_solver. done. }
  destruct (unlink_after m1 o l _ _ _ (Some s) Hnd Hseg1) as (m2 & last' & E2 & Er2 & Eo2 & Hsame2 & Hfr2 & Hseg2).
  rewrite (bind_step _ _ _ _ _ E2).
  assert (Hs2 : safes m2 !! s = Some (with_next next r)) by (rewrite Hfr2 by done; cbn; by rewrite lookup_insert_eq).
  rewrite (change_safe_step _ _ _ _ _ Hs2). cbn [with_prev with_next _object _prev_object_ref _next_object_ref].
  set (h3 := <[s := _]> (safes m2)).
  unfold change_object. cbn [objects with_safes]. rewrite Eo2. change (objects m1) with (objects m). rewrite Eo.
  cbn [of_option mbind result_bind]. eexists. split; [done|]. split; [done|]. cbn [refs safes objects with_objects with_safes].
  assert (Hsame : same_objects (safes m) h3).
  { eapply same_objects_trans; [by apply (same_objects_insert _ s r (with_next next r))|].
    eapply same_objects_trans; [exact Hsame2|]. by apply (same_objects_insert _ _ (with_next next r)). }
  split; [|split; [done|]].
  { unfold core. cbn. rewrite fmap_insert. cbn. apply insert_id. by rewrite lookup_fmap, Eo. }
  assert (Ef : firsts (with_objects (<[o := with_first (Some s) obj]> (objects m)) (with_safes h3 m2))
    = <[o := Some s]> (firsts m)) by (unfold firsts; cbn; by rewrite fmap_insert).
  rewrite Ef. assert (Hs3 : h3 !! s = Some (mk_safe (Some o) None next)).
  { unfold h3. rewrite lookup_insert_eq. unfold with_prev, with_next. cbn. by rewrite Ero. }
  assert (Hdel : same_objects (delete s (safes m)) (delete s h3)).
  { intros s'. destruct (decide (s' = s)) as [->|]; [by rewrite !lookup_delete_eq|].
    rewrite !lookup_delete_ne by done. apply Hsame. }
  split.
  - intros o' f' Hf'. apply lookup_insert_Some in Hf' as [[<- <-] | [Ho' Hf']].
    + exists (s :: l). split; [by apply NoDup_cons | | ].
      * exists last'. eapply seg_cons; [exact Hs3|].
        eapply seg_frame; [|done]. intros s' Hs'. unfold h3. rewrite lookup_insert_ne; [done|]. set_solver.
      * intros s' r' Hr' Ho'. destruct (decide (s' = s)) as [->|Hne]; [set_solver|].
        assert (Hr3 : delete s h3 !! s' = Some r') by (by rewrite lookup_delete_ne).
        destruct (same_objects_back _ _ _ _ Hdel Hr3) as (r0 & Hr0 & E0).
        specialize (Hall s' r0 Hr0 ltac:(congruence)). set_solver.
    + destruct (so_list _ _ Hok o' f' Hf') as [l' Hl']. exists l'. apply (list_of_restore _ _ _ _ s).
      { rewrite Hs3. intros r' [= <-] [= E]. done. }
      eapply (list_of_other (delete s (safes m)) _ o); [done | done | | done].
      intros s' r' Hr' Hne. pose proof Hr' as [Hss Hr'']%lookup_delete_Some.
      rewrite !lookup_delete_ne by done. unfold h3. rewrite lookup_insert_ne, Hfr2 by
        (done || intros Hin; destruct (seg_elem _ _ _ _ _ _ _ _ Hseg Hin) as (r2 & ? & ?); congruence).
      cbn. by rewrite lookup_insert_ne.
  - intros s' r' o' Hr' Ho'. destruct (decide (o' = o)) as [->|]; [by rewrite lookup_insert_eq|].
    rewrite lookup_insert_ne by done. assert (Hne : s' <> s) by (intros ->; rewrite Hs3 in Hr'; injection Hr' as <-; naive_solver).
    assert (Hr3 : delete s h3 !! s' = Some r') by (by rewrite lookup_delete_ne).
    destruct (same_objects_back _ _ _ _ Hdel Hr3) as (r0 & Hr0 & E0).
    apply (so_live _ _ Hok s' r0 o' Hr0). congruence.
Qed.

(** The loop of [~ref_object] visits the list once. *)
Lemma clear_references_ok fuel o l prev x last m :
  (length l <= fuel)%nat -> NoDup l -> seg (safes m) o prev x l last None ->
  exists m', clear_references fuel x m = Ok (tt, m') /\ refs m' = refs m /\ objects m' = objects m /\
    (forall s, s ∈ l -> safes m' !! s = Some (mk_safe None None None)) /\
    (forall s, s ∉ l -> safes m' !! s = safes m !! s).
Proof.
  intros Hl Hnd Hs. remember None as e eqn:Ee in Hs. revert fuel m Hl Hnd Hs.
  induction l as [|s l IH] in prev, x |- *; intros fuel m Hl Hnd Hs; inversion Hs as [|? ? next ? ? ? Hr Hs']; subst.
  - exists m. destruct fuel; split_and!; (done || set_solver).
  - destruct fuel as [|fuel]; [cbn in Hl; lia|]. cbn [length] in Hl. apply NoDup_cons in Hnd as [Hin Hnd].
    cbn [clear_references]. erewrite bind_step by (unfold safe_at; by rewrite Hr).
    rewrite (change_safe_step _ _ _ _ _ Hr). cbn [_next_object_ref].
    destruct (IH (Some s) next fuel (with_safes (<[s := mk_safe None None None]> (safes m)) m)) as (m' & E & Er & Eo & Hc & Hfr); [lia | done | |].
    { eapply seg_frame; [|exact Hs']. intros s' Hin'. cbn. rewrite lookup_insert_ne; [done|]. set_solver. }
    exists m'. split_and!; [exact E | done | done | |].
    + intros s' [->|Hin']%elem_of_cons; [|by apply Hc]. rewrite Hfr by done. cbn. by rewrite lookup_insert_eq.
    + intros s' Hin'. rewrite Hfr by set_solver. cbn. rewrite lookup_insert_ne; [done|]. set_solver.
Qed.
End references.
