(* ===== verification/ReferencesSpec.v ===== *)
(** * Reference counting: what every program can rely on

    The invariant of References.v ([sound]) and the operations that keep it. *)
From S2P Require Import Prelude References.
From stdpp Require Import gmap.
Import references.
#[local] Open Scope Z_scope.

(** ** Counting pointers *)
Definition pointers (rf : gmap loc (option loc)) (p : loc) : nat := size (filter (fun hx => hx.2 = Some p) rf).
Definition occurrences (P : list loc) (p : loc) : nat := length (filter (fun q => q = p) P).
Definition one_if (x : option loc) (p : loc) : nat := if decide (x = Some p) then 1%nat else 0%nat.

Lemma pointers_insert rf h x p :
  rf !! h = None -> pointers (<[h := x]> rf) p = (one_if x p + pointers rf p)%nat.
Proof.
  intros Hh. unfold pointers, one_if. rewrite map_filter_insert. cbn. case_decide.
  - apply map_size_insert_None. by apply map_lookup_filter_None_2; left.
  - by rewrite delete_id by done.
Qed.

Lemma pointers_delete rf h x p :
  rf !! h = Some x -> pointers rf p = (one_if x p + pointers (delete h rf) p)%nat.
Proof.
  intros Hh. rewrite <- (insert_delete_id rf h x Hh) at 1. apply pointers_insert. apply lookup_delete_eq.
Qed.

Lemma pointers_zero rf p h : pointers rf p = 0%nat -> rf !! h <> Some (Some p).
Proof.
  intros Hp Hh. rewrite (pointers_delete _ _ _ _ Hh) in Hp. unfold one_if in Hp. rewrite decide_True in Hp by done. lia.
Qed.

Lemma pointers_none rf p : (forall h, rf !! h <> Some (Some p)) -> pointers rf p = 0%nat.
Proof.
  intros Hh. apply map_size_empty_iff, map_empty_filter_2. intros h x Hx Hp. cbn in Hp. apply (Hh h). congruence.
Qed.

Lemma pointers_size rf p : (pointers rf p <= size rf)%nat.
Proof. apply map_subseteq_size, map_filter_subseteq. Qed.

Lemma occurrences_cons q P p : occurrences (q :: P) p = (one_if (Some q) p + occurrences P p)%nat.
Proof. unfold occurrences, one_if. rewrite filter_cons. repeat case_decide; (done || congruence). Qed.

Lemma occurrences_zero P p : occurrences P p = 0%nat -> p ∉ P.
Proof.
  induction P as [|q P IH]; [intros _; apply not_elem_of_nil|]. rewrite occurrences_cons. unfold one_if.
  case_decide; [lia|]. intros H0. apply not_elem_of_cons. split; [congruence | by apply IH].
Qed.

Lemma occurrences_length P p : (occurrences P p <= length P)%nat.
Proof. apply length_filter. Qed.

(** ** The invariant

    [P] are references about to be dropped; [S] is a reference that is being assigned to and
    counts as null. *)
Definition view (S : option loc) (rf : gmap loc (option loc)) : gmap loc (option loc) :=
  match S with Some h => <[h := None]> rf | None => rf end.

Record sound (S : option loc) (P : list loc) (m : memory) : Prop := {
  snd_count p n ms :
    core m !! p = Some (n, ms) -> n = Z.of_nat (pointers (view S (refs m)) p + occurrences P p);
  snd_live h p : view S (refs m) !! h = Some (Some p) -> is_Some (core m !! p);
  snd_pending p : p ∈ P -> is_Some (core m !! p);
  snd_bound : Z.of_nat (size (refs m) + length P) < 2 ^ 32;
  snd_nodup p n ms : core m !! p = Some (n, ms) -> NoDup ms;
  snd_disjoint p p' n n' ms ms' x :
    core m !! p = Some (n, ms) -> core m !! p' = Some (n', ms') -> x ∈ ms -> x ∈ ms' -> p = p';
  snd_ref h p n ms : core m !! p = Some (n, ms) -> ref_member h ∈ ms -> is_Some (refs m !! h);
  snd_safe s p n ms : core m !! p = Some (n, ms) -> safe_member s ∈ ms -> is_Some (safes m !! s);
  snd_list : safe_ok (safes m) (firsts m)
}.

Definition owned (m : memory) (x : member) : Prop := map_Exists (fun _ o => x ∈ o.2) (core m).

#[export] Instance owned_dec m x : Decision (owned m x).
Proof. unfold owned. apply _. Defined.

Lemma owned_spec m x : owned m x <-> exists p n ms, core m !! p = Some (n, ms) /\ x ∈ ms.
Proof.
  unfold owned, map_Exists. split.
  - intros (p & [n ms] & Hp & Hx). eauto.
  - intros (p & n & ms & Hp & Hx). by exists p, (n, ms).
Qed.

(** The owner of [S] will not be deleted: it is not referred to, or a variable refers to it. *)
Definition guarded (S : option loc) (m : memory) : Prop :=
  forall h, S = Some h -> is_Some (refs m !! h) /\
    forall p n ms, core m !! p = Some (n, ms) -> ref_member h ∈ ms ->
      n = 0 \/ exists r, r <> h /\ refs m !! r = Some (Some p) /\ ~ owned m (ref_member r).

(** What dropping references may do: delete objects that were referred to, with their members,
    and clear the safe pointers to them.  The members of [E] may go before it does. *)
Record evolves (E : option loc) (m m' : memory) : Prop := {
  ev_core p n' ms' :
    core m' !! p = Some (n', ms') ->
    exists n ms, core m !! p = Some (n, ms) /\ ms' ⊆ ms /\ (E <> Some p -> ms' = ms /\ (n' = 0 -> n = 0));
  ev_idle p ms : core m !! p = Some (0, ms) -> E <> Some p -> core m' !! p = Some (0, ms);
  ev_ref h x : refs m' !! h = Some x -> refs m !! h = Some x;
  ev_root h x : refs m !! h = Some x -> ~ owned m (ref_member h) -> refs m' !! h = Some x;
  ev_safe s r' : safes m' !! s = Some r' -> exists r, safes m !! s = Some r /\
    (_object r' = _object r \/
     _object r' = None /\ exists p, _object r = Some p /\ core m' !! p = None);
  ev_safe_root s : is_Some (safes m !! s) -> ~ owned m (safe_member s) -> is_Some (safes m' !! s)
}.

Lemma evolves_refl E m : evolves E m m.
Proof. split; eauto 10. Qed.

Lemma evolves_owned E m m' x : evolves E m m' -> owned m' x -> owned m x.
Proof.
  intros He (p & n' & ms' & Hp & Hx)%owned_spec. destruct (ev_core _ _ _ He p n' ms' Hp) as (n & ms & Hp' & Hsub & _).
  apply owned_spec. exists p, n, ms. auto.
Qed.

Lemma evolves_gone E m m' p : evolves E m m' -> core m !! p = None -> core m' !! p = None.
Proof.
  intros He Hp. destruct (core m' !! p) as [[n' ms']|] eqn:Hp'; [|done].
  destruct (ev_core _ _ _ He p n' ms' Hp') as (n & ms & ? & _). congruence.
Qed.

Lemma evolves_trans E m1 m2 m3 : evolves E m1 m2 -> evolves E m2 m3 -> evolves E m1 m3.
Proof.
  intros H1 H2. split.
  - intros p n3 ms3 Hp. destruct (ev_core _ _ _ H2 _ _ _ Hp) as (n2 & ms2 & Hp2 & Hs2 & He2).
    destruct (ev_core _ _ _ H1 _ _ _ Hp2) as (n1 & ms1 & Hp1 & Hs1 & He1).
    exists n1, ms1. split; [done|]. split; [by etransitivity|]. intros HE.
    destruct (He2 HE) as [-> Hz2], (He1 HE) as [-> Hz1]. auto.
  - intros p ms Hp HE. eapply (ev_idle _ _ _ H2); [|done]. by eapply (ev_idle _ _ _ H1).
  - intros h x Hh. by eapply (ev_ref _ _ _ H1), (ev_ref _ _ _ H2).
  - intros h x Hh Ho. eapply (ev_root _ _ _ H2); [by eapply (ev_root _ _ _ H1)|].
    intros Ho'. apply Ho. by eapply evolves_owned.
  - intros s r3 Hr3. destruct (ev_safe _ _ _ H2 _ _ Hr3) as (r2 & Hr2 & Hc2).
    destruct (ev_safe _ _ _ H1 _ _ Hr2) as (r1 & Hr1 & Hc1). exists r1. split; [done|].
    destruct Hc2 as [E2 | (E2 & p & Ep & Hp)], Hc1 as [E1 | (E1 & p' & Ep' & Hp')]; try (left; congruence).
    + right. split; [congruence|]. exists p'. split; [done|]. by eapply evolves_gone.
    + right. split; [done|]. exists p. split; [congruence | done].
  - intros s Hs Ho. eapply (ev_safe_root _ _ _ H2); [by eapply (ev_safe_root _ _ _ H1)|].
    intros Ho'. apply Ho. by eapply evolves_owned.
Qed.

Lemma evolves_weaken E m m' : evolves None m m' -> evolves E m m'.
Proof.
  intros [H1 H2 H3 H4 H5 H6]. split; try done.
  - intros p n' ms' Hp. destruct (H1 p n' ms' Hp) as (n & ms & ? & ? & He). exists n, ms. split_and!; [done..|]. intros _. by apply He.
  - intros p ms Hp _. by apply H2.
Qed.

(** Once [p] is deleted nothing needs to be said about its members. *)
Lemma evolves_deleted m m' p :
  evolves (Some p) m m' -> core m' !! p = None -> (forall ms, core m !! p <> Some (0, ms)) -> evolves None m m'.
Proof.
  intros [H1 H2 H3 H4 H5 H6] Hp Hn. split; try done.
  - intros q n' ms' Hq. destruct (H1 q n' ms' Hq) as (n & ms & ? & ? & He). exists n, ms. split_and!; [done..|].
    intros _. apply He. congruence.
  - intros q ms Hq _. apply H2; [done|]. intros [= <-]. by destruct (Hn ms).
Qed.

Lemma guarded_evolves S E P m m' :
  sound S P m' -> guarded S m -> evolves E m m' ->
  (forall h p n ms, S = Some h -> E = Some p -> core m !! p = Some (n, ms) -> ref_member h ∉ ms) -> guarded S m'.
Proof.
  intros Hs Hg He HE h ->. destruct (Hg h eq_refl) as [[x Hx] Hown]. split.
  - destruct (decide (owned m (ref_member h))) as [Ho|Ho]; [|eexists; by eapply (ev_root _ _ _ He)].
    apply owned_spec in Ho as (p & n & ms & Hp & Hin).
    assert (HEp : E <> Some p) by (intros ->; by eapply (HE h p)).
    assert (Hlive : is_Some (core m' !! p)).
    { destruct (Hown p n ms Hp Hin) as [-> | (r & Hr & Hrp & Hro)]; [eexists; by eapply (ev_idle _ _ _ He)|].
      apply (snd_live _ _ _ Hs r). cbn. rewrite lookup_insert_ne by done. by eapply (ev_root _ _ _ He). }
    destruct Hlive as [[n' ms'] Hp']. destruct (ev_core _ _ _ He _ _ _ Hp') as (n0 & ms0 & Hp0 & _ & Hsame).
    destruct (Hsame HEp) as [-> _]. eapply (snd_ref _ _ _ Hs); [done|]. congruence.
  - intros p n' ms' Hp' Hin. destruct (ev_core _ _ _ He _ _ _ Hp') as (n & ms & Hp & Hsub & Hsame).
    destruct (Hown p n ms Hp (Hsub _ Hin)) as [-> | (r & Hr & Hrp & Hro)].
    + left. assert (HEp : E <> Some p) by (intros ->; eapply (HE h p); [done | done | done | by apply Hsub]).
      pose proof (ev_idle _ _ _ He p ms Hp HEp). congruence.
    + right. exists r. split; [done|]. split; [by eapply (ev_root _ _ _ He)|].
      intros Ho. apply Hro. by eapply evolves_owned.
Qed.

(** ** The number of objects that are referred to *)
Definition positive (m : memory) : nat := size (dom (filter (fun po => po.2.1 <> 0) (core m)) : gset loc).

Lemma positive_le m m' :
  (forall p n ms, core m' !! p = Some (n, ms) -> n <> 0 ->
    exists n0 ms0, core m !! p = Some (n0, ms0) /\ n0 <> 0) ->
  (positive m' <= positive m)%nat.
Proof.
  intros Hc. unfold positive. apply subseteq_size. intros p [[n ms] Hp]%elem_of_dom. apply map_lookup_filter_Some in Hp as [Hp Hn].
  destruct (Hc p n ms Hp Hn) as (n0 & ms0 & Hp0 & Hn0). apply elem_of_dom. exists (n0, ms0).
  by apply map_lookup_filter_Some.
Qed.

Lemma positive_evolves m m' : evolves None m m' -> (positive m' <= positive m)%nat.
Proof.
  intros He. apply positive_le. intros p n' ms' Hp Hn. destruct (ev_core _ _ _ He _ _ _ Hp) as (n & ms & Hp0 & _ & Hs).
  destruct (Hs ltac:(done)) as [-> _]. exists n, ms. split; [done|]. intros ->.
  pose proof (ev_idle _ _ _ He p ms Hp0 ltac:(done)). congruence.
Qed.

Lemma positive_lt m m' p n ms :
  core m !! p = Some (n, ms) -> n <> 0 -> (forall n' ms', core m' !! p = Some (n', ms') -> n' = 0) ->
  (forall q n' ms', core m' !! q = Some (n', ms') -> n' <> 0 ->
    exists n0 ms0, core m !! q = Some (n0, ms0) /\ n0 <> 0) ->
  (positive m' < positive m)%nat.
Proof.
  intros Hp Hn Hp' Hc. unfold positive. apply subset_size. split.
  - intros q [[n' ms'] Hq]%elem_of_dom. apply map_lookup_filter_Some in Hq as [Hq Hn'].
    destruct (Hc q n' ms' Hq Hn') as (n0 & ms0 & ? & ?). apply elem_of_dom. exists (n0, ms0). by apply map_lookup_filter_Some.
  - intros Hsub. assert (Hin : p ∈ (dom (filter (fun po => po.2.1 <> 0) (core m)) : gset loc)).
    { apply elem_of_dom. exists (n, ms). by apply map_lookup_filter_Some. }
    apply Hsub, elem_of_dom in Hin as [[n' ms'] Hq]. apply map_lookup_filter_Some in Hq as [Hq Hn'].
    cbn in Hn'. by apply Hn', (Hp' n' ms').
Qed.

(** ** Single steps *)
Definition put_object (p : loc) (o : ref_object) (m : memory) : memory := with_objects (<[p := o]> (objects m)) m.

Lemma core_put p o m : core (put_object p o m) = <[p := core_of o]> (core m).
Proof. unfold core, put_object. cbn. apply fmap_insert. Qed.

Lemma firsts_put p o o' m :
  objects m !! p = Some o' -> _first_object_ref o' = _first_object_ref o -> firsts (put_object p o m) = firsts m.
Proof.
  intros Hp Hf. unfold firsts, put_object. cbn. rewrite fmap_insert. apply insert_id. by rewrite lookup_fmap, Hp, <- Hf.
Qed.

Lemma core_at m p o : objects m !! p = Some o -> core m !! p = Some (_ref_count o, members o).
Proof. intros Hp. unfold core. by rewrite lookup_fmap, Hp. Qed.

Lemma object_of_core m p n ms :
  core m !! p = Some (n, ms) -> exists o, objects m !! p = Some o /\ _ref_count o = n /\ members o = ms.
Proof.
  unfold core. rewrite lookup_fmap. destruct (objects m !! p) as [o|]; [|done]. intros [= <- <-]. eauto.
Qed.

Lemma change_object_step {A} p g m o (k : unit -> M memory A) :
  objects m !! p = Some o -> (x ← change_object p g; k x) m = k tt (put_object p (g o) m).
Proof. intros Hp. apply bind_step. unfold change_object. by rewrite Hp. Qed.

Lemma one_if_same p : one_if (Some p) p = 1%nat.
Proof. unfold one_if. by rewrite decide_True. Qed.

Lemma one_if_other x p : x <> Some p -> one_if x p = 0%nat.
Proof. intros. unfold one_if. by rewrite decide_False. Qed.

Lemma view_size S rf : (forall h, S = Some h -> is_Some (rf !! h)) -> size (view S rf) = size rf.
Proof.
  destruct S as [h|]; [|done]. intros Hh. cbn. apply map_size_insert_Some. by apply Hh.
Qed.

Lemma view_delete S rf h : S <> Some h -> view S (delete h rf) = delete h (view S rf).
Proof. destruct S as [h'|]; [|done]. intros Hh. cbn. rewrite delete_insert_ne; [done|]. congruence. Qed.

Lemma view_lookup S rf h : S <> Some h -> view S rf !! h = rf !! h.
Proof. destruct S as [h'|]; [|done]. intros Hh. cbn. rewrite lookup_insert_ne; [done|]. congruence. Qed.

Lemma count_range S P p m n ms :
  sound S P m -> guarded S m -> core m !! p = Some (n, ms) -> 0 <= n < 2 ^ 32.
Proof.
  intros Hs Hg Hp. rewrite (snd_count _ _ _ Hs p n ms Hp). pose proof (snd_bound _ _ _ Hs).
  pose proof (pointers_size (view S (refs m)) p) as H1. rewrite view_size in H1 by (intros h ->; by apply Hg).
  pose proof (occurrences_length P p). lia.
Qed.

(** One reference less. *)
Lemma drop_count S P p m o :
  sound S (p :: P) m -> guarded S m -> objects m !! p = Some o ->
  u32 (_ref_count o - 1) = _ref_count o - 1 /\ 0 < _ref_count o /\
  sound S P (put_object p (with_count (_ref_count o - 1) o) m).
Proof.
  intros Hs Hg Hp. pose proof (core_at _ _ _ Hp) as Hc. pose proof (count_range _ _ _ _ _ _ Hs Hg Hc) as Hr.
  pose proof (snd_count _ _ _ Hs _ _ _ Hc) as Hn. rewrite occurrences_cons, one_if_same in Hn.
  split; [apply u32_small; unfold in_u; lia|]. split; [lia|].
  destruct Hs as [H1 H2 H3 H4 H5 H6 H7 H8 H9].
  assert (Hlook : forall q n ms, <[p := core_of (with_count (_ref_count o - 1) o)]> (core m) !! q = Some (n, ms) ->
    exists n0, core m !! q = Some (n0, ms) /\ n = n0 - if decide (q = p) then 1 else 0).
  { intros q n ms Hq. apply lookup_insert_Some in Hq as [[<- Hq] | [Hne Hq]].
    - injection Hq as <- <-. exists (_ref_count o). by rewrite decide_True.
    - exists n. rewrite decide_False by done. by rewrite Z.sub_0_r. }
  split; rewrite ?core_put, ?(firsts_put _ _ _ _ Hp); try done; cbn [refs safes put_object with_objects].
  - intros q n ms Hq. destruct (Hlook q n ms Hq) as (n0 & Hq0 & ->). rewrite (H1 q n0 ms Hq0), occurrences_cons.
    case_decide as Hd; [subst; rewrite one_if_same; lia | rewrite one_if_other by congruence; lia].
  - intros h q Hh. destruct (H2 h q Hh) as [[n ms] Hq]. apply lookup_insert_is_Some. destruct (decide (p = q)); eauto.
  - intros q Hq. destruct (H3 q ltac:(set_solver)) as [[n ms] Hq']. apply lookup_insert_is_Some. destruct (decide (p = q)); eauto.
  - cbn [length] in H4. lia.
  - intros q n ms Hq. destruct (Hlook q n ms Hq) as (n0 & Hq0 & _). eauto.
  - intros q q' n n' ms ms' x Hq Hq'. destruct (Hlook q n ms Hq) as (n0 & Hq0 & _), (Hlook q' n' ms' Hq') as (n0' & Hq0' & _). eauto.
  - intros h q n ms Hq. destruct (Hlook q n ms Hq) as (n0 & Hq0 & _). eauto.
  - intros s q n ms Hq. destruct (Hlook q n ms Hq) as (n0 & Hq0 & _). eauto.
Qed.

Lemma drop_evolves p m o :
  objects m !! p = Some o ->
  evolves (Some p) m (put_object p (with_count (_ref_count o - 1) o) m).
Proof.
  intros Hp. pose proof (core_at _ _ _ Hp) as Hc. split; rewrite ?core_put; cbn [refs safes put_object with_objects]; try by eauto.
  - intros q n' ms' Hq. apply lookup_insert_Some in Hq as [[<- Hq] | [Hne Hq]].
    + injection Hq as <- <-. eexists _, _. split_and!; done.
    + exists n', ms'. split_and!; done.
  - intros q ms Hq HE. rewrite lookup_insert_ne; [done|]. congruence.
Qed.

(** The members of a dying object go one by one. *)
Lemma pop_evolves p m o x ms :
  objects m !! p = Some o -> members o = x :: ms -> evolves (Some p) m (put_object p (with_members ms o) m).
Proof.
  intros Hp Hm. pose proof (core_at _ _ _ Hp) as Hc. split; rewrite ?core_put; cbn [refs safes put_object with_objects]; try by eauto.
  - intros q n' ms' Hq. apply lookup_insert_Some in Hq as [[<- Hq] | [Hne Hq]].
    + injection Hq as <- <-. exists (_ref_count o), (x :: ms). rewrite <- Hm at 1. split_and!; [done | set_solver | done].
    + exists n', ms'. split_and!; done.
  - intros q ms' Hq HE. rewrite lookup_insert_ne; [done|]. congruence.
Qed.

Lemma pop_sound S P p m o x ms :
  sound S P m -> objects m !! p = Some o -> members o = x :: ms ->
  sound S P (put_object p (with_members ms o) m) /\ ~ owned (put_object p (with_members ms o) m) x.
Proof.
  intros Hs Hp Hm. pose proof (core_at _ _ _ Hp) as Hc. rewrite Hm in Hc.
  destruct Hs as [H1 H2 H3 H4 H5 H6 H7 H8 H9].
  assert (Hlook : forall q n ms', <[p := core_of (with_members ms o)]> (core m) !! q = Some (n, ms') ->
    exists ms0, core m !! q = Some (n, ms0) /\ ms' ⊆ ms0 /\ (NoDup ms0 -> NoDup ms') /\ (x ∈ ms' -> q <> p)).
  { intros q n ms' Hq. apply lookup_insert_Some in Hq as [[<- Hq] | [Hne Hq]].
    - injection Hq as <- <-. exists (x :: ms). split_and!; [done | set_solver | by intros [_ ?]%NoDup_cons |].
      intros Hx. specialize (H5 _ _ _ Hc). by apply NoDup_cons in H5 as [? _].
    - exists ms'. split_and!; done. }
  split.
  - split; rewrite ?core_put, ?(firsts_put _ _ _ _ Hp); try done; cbn [refs safes put_object with_objects].
    + intros q n ms' Hq. destruct (Hlook q n ms' Hq) as (ms0 & Hq0 & _). eauto.
    + intros h q Hh. destruct (H2 h q Hh) as [[n ms'] Hq]. apply lookup_insert_is_Some. destruct (decide (p = q)); eauto.
    + intros q Hq. destruct (H3 q Hq) as [[n ms'] Hq']. apply lookup_insert_is_Some. destruct (decide (p = q)); eauto.
    + intros q n ms' Hq. destruct (Hlook q n ms' Hq) as (ms0 & Hq0 & _ & Hnd & _). eauto.
    + intros q q' n n' ms1 ms2 y Hq Hq' Hy Hy'. destruct (Hlook q n ms1 Hq) as (ms3 & ? & Hs1 & _), (Hlook q' n' ms2 Hq') as (ms4 & ? & Hs2 & _).
      eapply H6; eauto.
    + intros h q n ms' Hq Hh. destruct (Hlook q n ms' Hq) as (ms0 & Hq0 & Hsub & _). eauto.
    + intros s q n ms' Hq Hh. destruct (Hlook q n ms' Hq) as (ms0 & Hq0 & Hsub & _). eauto.
  - intros (q & n & ms' & Hq & Hx)%owned_spec. rewrite core_put in Hq.
    destruct (Hlook q n ms' Hq) as (ms0 & Hq0 & Hsub & _ & Hne). apply (Hne Hx).
    eapply H6; [exact Hq0 | exact Hc | by apply Hsub | apply list_elem_of_here].
Qed.

(** A reference that is a variable disappears, with what it refers to still to be dropped. *)
Lemma delete_ref_sound S P m h x :
  sound S P m -> S <> Some h -> refs m !! h = Some x -> ~ owned m (ref_member h) ->
  sound S (option_list x ++ P) (with_refs (delete h (refs m)) m).
Proof.
  intros [H1 H2 H3 H4 H5 H6 H7 H8 H9] HS Hh Ho.
  assert (Hv : view S (refs m) !! h = Some x) by (by rewrite view_lookup).
  split; unfold core, firsts in *; cbn [objects refs safes with_refs]; try done.
  - intros p n ms Hp. rewrite (H1 p n ms Hp), (pointers_delete _ _ _ _ Hv), view_delete by done.
    destruct x as [q|]; cbn [option_list option_rect app]; [rewrite occurrences_cons; lia | rewrite one_if_other by done; lia].
  - intros h' p. rewrite view_delete by done. intros [_ Hh']%lookup_delete_Some. eauto.
  - intros p [Hp|Hp]%elem_of_app; [|by apply H3]. destruct x as [q|]; [|set_solver].
    cbn in Hp. apply list_elem_of_singleton in Hp as ->. eauto.
  - rewrite map_size_delete_Some by eauto. rewrite length_app.
    assert (size (refs m) <> 0%nat) by (intros H0%map_size_empty_inv; rewrite H0 in Hh; by rewrite lookup_empty in Hh).
    destruct x; cbn [option_list option_rect length]; lia.
  - intros h' p n ms Hp Hin. rewrite lookup_delete_ne; [eauto|]. intros <-. apply Ho. apply owned_spec. unfold core. eauto 10.
Qed.

Lemma delete_ref_evolves p m o h ms :
  objects m !! p = Some o -> members o = ref_member h :: ms ->
  let m1 := put_object p (with_members ms o) m in evolves (Some p) m (with_refs (delete h (refs m1)) m1).
Proof.
  intros Hp Hm m1. destruct (pop_evolves p m o _ ms Hp Hm) as [H1 H2 H3 H4 H5 H6].
  assert (Ho : owned m (ref_member h)).
  { apply owned_spec. exists p, (_ref_count o), (members o). split; [by apply core_at | rewrite Hm; apply list_elem_of_here]. }
  split; try done.
  - intros h' x Hh. cbn [refs with_refs] in Hh. apply lookup_delete_Some in Hh as [_ Hh]. by apply H3.
  - intros h' x Hh Hr. cbn. rewrite lookup_delete_ne; [by apply H4|]. by intros <-.
Qed.

(** Changes to the links of safe pointers only. *)
Lemma sound_relink S P m m' :
  sound S P m -> refs m' = refs m -> core m' = core m ->
  (forall s p n ms, core m !! p = Some (n, ms) -> safe_member s ∈ ms -> is_Some (safes m' !! s)) ->
  safe_ok (safes m') (firsts m') -> sound S P m'.
Proof.
  intros [H1 H2 H3 H4 H5 H6 H7 H8 H9] Er Ec Hs Hok. split; rewrite ?Er, ?Ec; try done.
Qed.

Lemma safe_destruct_ok S P m s :
  sound S P m -> is_Some (safes m !! s) -> ~ owned m (safe_member s) ->
  exists m', safe_destruct s m = Ok (tt, m') /\ sound S P m' /\ refs m' = refs m /\ core m' = core m /\
    safes m' !! s = None /\ forall s', s' <> s -> _object <$> safes m' !! s' = _object <$> safes m !! s'.
Proof.
  intros Hs [r Hr] Ho. destruct (unregister_ok m s r (snd_list _ _ _ Hs) Hr) as (m1 & E & Er & Ec & Hsame & Hok).
  unfold safe_destruct. rewrite (bind_step _ _ _ _ _ E). eexists. split; [done|].
  assert (Hne : forall s', s' <> s -> _object <$> delete s (safes m1) !! s' = _object <$> safes m !! s').
  { intros s' Hs'. rewrite lookup_delete_ne by done. apply Hsame. }
  split_and!; [|done | done | apply lookup_delete_eq | exact Hne].
  apply (sound_relink S P m); [done..| | done].
  intros s' p n ms Hp Hin. destruct (snd_safe _ _ _ Hs s' p n ms Hp Hin) as [r' Hr'].
  assert (s' <> s) by (intros ->; apply Ho, owned_spec; eauto). cbn.
  specialize (Hne s' ltac:(done)). rewrite Hr' in Hne. destruct (delete s (safes m1) !! s'); [done | discriminate].
Qed.

Lemma safe_pop_evolves p m o s ms m' :
  objects m !! p = Some o -> members o = safe_member s :: ms ->
  let m1 := put_object p (with_members ms o) m in
  refs m' = refs m1 -> core m' = core m1 -> safes m' !! s = None ->
  (forall s', s' <> s -> _object <$> safes m' !! s' = _object <$> safes m1 !! s') -> evolves (Some p) m m'.
Proof.
  intros Hp Hm m1 Er Ec Hs Hne. destruct (pop_evolves p m o _ ms Hp Hm) as [H1 H2 H3 H4 H5 H6].
  assert (Ho : owned m (safe_member s)).
  { apply owned_spec. exists p, (_ref_count o), (members o). split; [by apply core_at | rewrite Hm; apply list_elem_of_here]. }
  split; rewrite ?Er, ?Ec; try done.
  - intros s' r' Hr'. destruct (decide (s' = s)) as [->|Hd]; [congruence|].
    specialize (Hne s' Hd). cbn in Hne. rewrite Hr' in Hne. destruct (safes m !! s') as [r|]; [|done].
    exists r. split; [done|]. left. by injection Hne.
  - intros s' [r Hr] Hr'. assert (Hd : s' <> s) by (by intros ->).
    specialize (Hne s' Hd). cbn in Hne. rewrite Hr in Hne. destruct (safes m' !! s'); [done | discriminate].
Qed.

(** [~ref_object] of an object that nothing refers to and whose members are gone. *)
Lemma destroy_object_ok S P m p :
  sound S P m -> guarded S m -> core m !! p = Some (0, []) ->
  exists m', destroy_object p m = Ok (tt, m') /\ sound S P m' /\ core m' !! p = None /\ evolves (Some p) m m'.
Proof.
  intros Hs Hg Hc. destruct (object_of_core _ _ _ _ Hc) as (o & Hp & Hn & Hm).
  assert (Hf : firsts m !! p = Some (_first_object_ref o)) by (unfold firsts; by rewrite lookup_fmap, Hp).
  destruct (so_list _ _ (snd_list _ _ _ Hs) p _ Hf) as [l [Hnd [last Hseg] Hall]].
  assert (Hlen : (length l <= size (safes m))%nat).
  { rewrite <- (size_list_to_set (C := gset loc)), <- size_dom by done. apply subseteq_size. intros s Hin.
    apply elem_of_list_to_set in Hin. destruct (seg_elem _ _ _ _ _ _ _ _ Hseg Hin) as (r & Hr & _). by apply elem_of_dom_2 in Hr. }
  destruct (clear_references_ok _ _ _ _ _ _ _ Hlen Hnd Hseg) as (m1 & E & Er & Eo & Hc1 & Hfr).
  unfold destroy_object. erewrite bind_step by (unfold object_at; by rewrite Hp).
  rewrite Hn. cbn [Z.eqb require]. rewrite (lift_step _ tt) by done.
  unfold get. unfold mbind at 1, M_bind at 1. rewrite (bind_step _ _ _ _ _ E).
  set (m' := with_objects (delete p (objects m1)) m1). exists m'. split; [done|].
  assert (Ec : core m' = delete p (core m)) by (unfold core, m'; cbn; by rewrite Eo, fmap_delete).
  assert (Ef : firsts m' = delete p (firsts m)) by (unfold firsts, m'; cbn; by rewrite Eo, fmap_delete).
  pose proof (snd_count _ _ _ Hs _ _ _ Hc) as Hz.
  assert (Hnoref : forall h, view S (refs m) !! h <> Some (Some p)) by (intros h; apply pointers_zero; lia).
  assert (HnP : p ∉ P) by (apply occurrences_zero; lia).
  assert (Hback : forall s r, safes m1 !! s = Some r -> s ∉ l /\ safes m !! s = Some r \/ r = mk_safe None None None).
  { intros s r Hr. destruct (decide (s ∈ l)) as [Hin|Hin]; [right; rewrite Hc1 in Hr by done; congruence|].
    left. by rewrite <- Hfr. }
  assert (Hdom : forall s, is_Some (safes m !! s) -> is_Some (safes m1 !! s)).
  { intros s Hs'. destruct (decide (s ∈ l)); [rewrite Hc1 by done; eauto | by rewrite Hfr]. }
  destruct Hs as [H1 H2 H3 H4 H5 H6 H7 H8 H9]. split; [|split; [by rewrite Ec, lookup_delete_eq|]].
  - split; rewrite ?Ec, ?Ef; cbn [refs safes m' with_objects]; rewrite ?Er; try done.
    + intros q n ms [_ Hq]%lookup_delete_Some. eauto.
    + intros h q Hh. rewrite lookup_delete_ne; [eauto|]. intros <-. by apply (Hnoref h).
    + intros q Hq. rewrite lookup_delete_ne; [eauto|]. by intros <-.
    + intros q n ms [_ Hq]%lookup_delete_Some. eauto.
    + intros q q' n n' ms ms' x [_ Hq]%lookup_delete_Some [_ Hq']%lookup_delete_Some. eauto.
    + intros h q n ms [_ Hq]%lookup_delete_Some. eauto.
    + intros s q n ms [_ Hq]%lookup_delete_Some. eauto.
    + destruct H9 as [Hl Hlive]. split.
      * intros q f [Hne Hq]%lookup_delete_Some. destruct (Hl q f Hq) as [lq [Hndq [lastq Hsegq] Hallq]]. exists lq.
        split; [done | exists lastq |].
        -- eapply seg_frame; [|done]. intros s Hin. apply Hfr. intros Hin'.
           destruct (seg_elem _ _ _ _ _ _ _ _ Hseg Hin') as (r & ? & ?), (seg_elem _ _ _ _ _ _ _ _ Hsegq Hin) as (r' & ? & ?). congruence.
        -- intros s r Hr Ho. destruct (Hback s r Hr) as [[_ Hr'] | ->]; [eauto | done].
      * intros s r q Hr Ho. destruct (Hback s r Hr) as [[Hin Hr'] | ->]; [|done].
        rewrite lookup_delete_ne; [eauto|]. intros <-. by apply Hin, (Hall s r).
  - split; rewrite ?Ec; cbn [refs safes m' with_objects]; rewrite ?Er; try done.
    + intros q n ms [_ Hq]%lookup_delete_Some. eauto 10.
    + intros q ms Hq HE. rewrite lookup_delete_ne; [done | congruence].
    + intros s r' Hr'. destruct (Hback s r' Hr') as [[_ Hr] | ->]; [eauto|].
      destruct (decide (s ∈ l)) as [Hin|Hin].
      * destruct (seg_elem _ _ _ _ _ _ _ _ Hseg Hin) as (r & Hr & Ho). exists r. split; [done|]. right. split; [done|].
        exists p. split; [done | apply lookup_delete_eq].
      * rewrite Hfr in Hr' by done. eauto.
    + auto.
Qed.

(** ** Deletion *)
Definition drops (bound : nat) (dec : loc -> M memory unit) : Prop := forall S P q m,
  sound S (q :: P) m -> guarded S m -> (positive m <= bound)%nat ->
  exists m', dec q m = Ok (tt, m') /\ sound S P m' /\ evolves None m m'.

(** Of [positive] only the counts matter. *)
Lemma positive_pop m m' p ms :
  (exists n ms0, core m !! p = Some (n, ms0) /\ core m' = <[p := (n, ms)]> (core m)) -> (positive m' <= positive m)%nat.
Proof.
  intros (n & ms0 & Hp & Hc). apply positive_le. intros q n' ms' Hq Hn'. rewrite Hc in Hq.
  apply lookup_insert_Some in Hq as [[<- Hq] | [Hne Hq]]; [injection Hq as <- <-|]; eauto.
Qed.

Section deletion.
Context (bound : nat) (dec : loc -> M memory unit) (Hdec : drops bound dec).

(** One member. *)
Lemma destroy_member_ok S P m p o x ms :
  sound S P m -> guarded S m -> (positive m <= bound)%nat ->
  objects m !! p = Some o -> _ref_count o = 0 -> members o = x :: ms -> (forall h, S = Some h -> x <> ref_member h /\ ref_member h ∉ ms) ->
  exists m',
    match x with ref_member h => destruct_with dec h | safe_member s => safe_destruct s end
      (put_object p (with_members ms o) m) = Ok (tt, m') /\
    sound S P m' /\ evolves (Some p) m m' /\ core m' !! p = Some (0, ms) /\ (positive m' <= bound)%nat.
Proof.
  intros Hs Hg Hb Hp Hn Hm HS. pose proof (core_at _ _ _ Hp) as Hc. rewrite Hn, Hm in Hc.
  destruct (pop_sound S P p m o x ms Hs Hp Hm) as [Hs1 Ho1]. set (m1 := put_object p (with_members ms o) m) in *.
  assert (Hc1 : core m1 !! p = Some (0, ms)) by (unfold m1; rewrite core_put, lookup_insert_eq; unfold core_of; cbn; by rewrite Hn).
  assert (Hpos : (positive m1 <= bound)%nat).
  { etransitivity; [|exact Hb]. apply (positive_pop _ _ p ms). exists 0, (x :: ms). split; [done|].
    unfold m1. rewrite core_put. unfold core_of. cbn. by rewrite Hn. }
  destruct x as [h|s].
  - destruct (snd_ref _ _ _ Hs h p 0 (ref_member h :: ms) Hc ltac:(apply list_elem_of_here)) as [x Hx].
    assert (HSh : S <> Some h) by (intros ->; by destruct (HS h eq_refl)).
    unfold destruct_with. erewrite bind_step by (unfold ref_at; cbn [refs m1 put_object with_objects]; by rewrite Hx).
    unfold change_refs, modify. erewrite bind_step by done.
    pose proof (delete_ref_sound S P m1 h x Hs1 HSh Hx Ho1) as Hs2.
    pose proof (delete_ref_evolves p m o h ms Hp Hm) as He2. cbv zeta in He2. fold m1 in He2.
    set (m2 := with_refs (delete h (refs m1)) m1) in *.
    destruct x as [q|]; cbn [if_set option_list option_rect app] in *.
    + assert (Hg2 : guarded S m2).
      { eapply guarded_evolves; [exact Hs2 | done | done|]. intros h' p' n' ms' -> [= <-] Hc' Hin.
        destruct (HS h' eq_refl) as [H1 H2]. rewrite Hc in Hc'. injection Hc' as <- <-. set_solver. }
      destruct (Hdec S P q m2 Hs2 Hg2 Hpos) as (m3 & E & Hs3 & He3). exists m3. split; [done|]. split; [done|].
      split; [eapply evolves_trans; [done | by apply evolves_weaken]|].
      split; [by apply (ev_idle _ _ _ He3) | etransitivity; [by apply positive_evolves | done]].
    + exists m2. split_and!; done.
  - destruct (safe_destruct_ok S P m1 s Hs1) as (m2 & E & Hs2 & Er & Ec & Hnone & Hne).
    { by apply (snd_safe _ _ _ Hs s p 0 (safe_member s :: ms) Hc), list_elem_of_here. } { done. }
    exists m2. split; [done|]. split; [done|]. split; [by eapply safe_pop_evolves|].
    rewrite Ec. split; [done|]. unfold positive. by rewrite Ec.
Qed.

Lemma destroy_members_ok S P ms m p :
  sound S P m -> guarded S m -> (positive m <= bound)%nat ->
  core m !! p = Some (0, ms) -> (forall h, S = Some h -> ref_member h ∉ ms) ->
  exists m', destroy_members dec p ms m = Ok (tt, m') /\
    sound S P m' /\ evolves (Some p) m m' /\ core m' !! p = Some (0, []) /\ (positive m' <= bound)%nat.
Proof.
  revert m. induction ms as [|x ms IH]; intros m Hs Hg Hb Hc HS.
  - exists m. split_and!; try done. apply evolves_refl.
  - destruct (object_of_core _ _ _ _ Hc) as (o & Hp & Hn & Hm). cbn [destroy_members].
    rewrite (change_object_step _ _ _ _ _ Hp).
    destruct (destroy_member_ok S P m p o x ms) as (m1 & E & Hs1 & He1 & Hc1 & Hb1); try done.
    { intros h ->. specialize (HS h eq_refl). set_solver. }
    rewrite (bind_step _ _ _ _ _ E).
    destruct (IH m1) as (m2 & E2 & Hs2 & He2 & Hc2 & Hb2); try done.
    { eapply guarded_evolves; [done..|]. intros h p' n ms' -> [= <-] Hc' Hin. rewrite Hc in Hc'. injection Hc' as <- <-. by apply (HS h eq_refl). }
    { intros h ->. specialize (HS h eq_refl). set_solver. }
    exists m2. split_and!; try done. by eapply evolves_trans.
Qed.

Lemma destroy_self_ok S P m p ms :
  sound S P m -> guarded S m -> (positive m <= bound)%nat ->
  core m !! p = Some (0, ms) -> (forall h, S = Some h -> ref_member h ∉ ms) ->
  exists m', destroy_self dec p m = Ok (tt, m') /\ sound S P m' /\ core m' !! p = None /\ evolves (Some p) m m'.
Proof.
  intros Hs Hg Hb Hc HS. destruct (object_of_core _ _ _ _ Hc) as (o & Hp & Hn & Hm).
  unfold destroy_self. erewrite bind_step by (unfold object_at; by rewrite Hp). rewrite Hm.
  destruct (destroy_members_ok S P ms m p) as (m1 & E1 & Hs1 & He1 & Hc1 & _); try done.
  rewrite (bind_step _ _ _ _ _ E1).
  assert (Hg1 : guarded S m1).
  { eapply guarded_evolves; [done..|]. intros h p' n ms' -> [= <-] Hc' Hin. rewrite Hc in Hc'. injection Hc' as <- <-. by apply (HS h eq_refl). }
  destruct (destroy_object_ok S P m1 p Hs1 Hg1 Hc1) as (m2 & E2 & Hs2 & Hc2 & He2).
  exists m2. split_and!; try done. by eapply evolves_trans.
Qed.
End deletion.

(** The fuel of [dec_ref_within] is enough: every nested deletion leaves fewer objects that are
    referred to. *)
Lemma dec_ref_drops fuel : drops fuel (dec_ref_within fuel).
Proof.
  induction fuel as [|fuel IH]; intros S P p m Hs Hg Hb.
  all: destruct (snd_pending _ _ _ Hs p ltac:(apply list_elem_of_here)) as [[n ms] Hc].
  all: destruct (object_of_core _ _ _ _ Hc) as (o & Hp & Hn & Hm).
  all: destruct (drop_count S P p m o Hs Hg Hp) as (Hu & Hpos & Hs1).
  { exfalso. unfold positive in Hb. apply Nat.le_0_r, size_empty_inv in Hb. apply (not_elem_of_empty (C := gset loc) p), (Hb p), elem_of_dom.
    exists (n, ms). apply map_lookup_filter_Some. split; [done | cbn; lia]. }
  cbn [dec_ref_within]. erewrite bind_step by (unfold object_at; by rewrite Hp).
  cbv zeta. rewrite Hu, (change_object_step _ _ _ _ _ Hp).
  pose proof (drop_evolves p m o Hp) as He1. set (m1 := put_object p _ m) in *.
  assert (Hc1 : core m1 !! p = Some (_ref_count o - 1, ms)) by (unfold m1; rewrite core_put, lookup_insert_eq; by rewrite <- Hm).
  assert (Hroot : forall n ms, core m1 !! p = Some (n, ms) -> n = 0 -> forall h, S = Some h -> ref_member h ∉ ms).
  { intros n' ms' Hc' -> h -> Hin. rewrite Hc1 in Hc'. injection Hc' as Hz <-.
    destruct (proj2 (Hg h eq_refl) p n ms Hc Hin) as [|(r & Hr & Hrp & _)]; [lia|].
    pose proof (snd_count _ _ _ Hs1 p _ _ Hc1) as Hn1. apply (pointers_zero (view (Some h) (refs m)) p r); [cbn in Hn1 |- *; lia|].
    rewrite view_lookup; [done | congruence]. }
  assert (Hg1 : guarded S m1).
  { intros h ->. destruct (Hg h eq_refl) as [Hh Hown]. split; [done|]. intros q n' ms' Hq Hin.
    destruct (decide (q = p)) as [->|Hne].
    - right. rewrite Hc1 in Hq. injection Hq as <- <-. destruct (Hown p n ms Hc Hin) as [|(r & Hr & Hrp & Ho)]; [lia|].
      exists r. split_and!; [done..|]. intros Ho'. by apply Ho, (evolves_owned _ _ _ _ He1).
    - unfold m1 in Hq. rewrite core_put, lookup_insert_ne in Hq by done. destruct (Hown q n' ms' Hq Hin) as [->|(r & Hr & Hrp & Ho)]; [by left|right].
      exists r. split_and!; [done..|]. intros Ho'. by apply Ho, (evolves_owned _ _ _ _ He1). }
  assert (Hcounts : forall q n' ms', core m1 !! q = Some (n', ms') -> n' <> 0 -> exists n0 ms0, core m !! q = Some (n0, ms0) /\ n0 <> 0).
  { intros q n' ms' Hq Hn'. destruct (decide (q = p)) as [->|Hne]; [exists n, ms; split; [done | lia]|].
    unfold m1 in Hq. rewrite core_put, lookup_insert_ne in Hq by done. eauto. }
  destruct (Z.eqb_spec (_ref_count o - 1) 0) as [Hz|Hz].
  - rewrite Hz in Hc1. assert (Hb1 : (positive m1 <= fuel)%nat).
    { enough (positive m1 < positive m)%nat by lia. apply (positive_lt m m1 p n ms); [done | lia | | done].
      intros n' ms' Hq. congruence. }
    destruct (destroy_self_ok fuel (dec_ref_within fuel) IH S P m1 p ms) as (m2 & E & Hs2 & Hc2 & He2); try done.
    { by eapply Hroot. }
    exists m2. split_and!; [done..|]. apply (evolves_deleted _ _ p); [by eapply evolves_trans | done |].
    intros ms' Hc'. rewrite Hc in Hc'. injection Hc' as Hc' _. lia.
  - exists m1. split_and!; [done..|]. destruct He1 as [H1 H2 H3 H4 H5 H6]. split; try done.
    + intros q n' ms' Hq. destruct (H1 q n' ms' Hq) as (n0 & ms0 & Hq0 & Hsub & Hsame). exists n0, ms0. split_and!; [done..|].
      intros _. destruct (decide (q = p)) as [->|Hne]; [|apply Hsame; congruence].
      rewrite Hc1 in Hq. injection Hq as <- <-. rewrite Hc in Hq0. injection Hq0 as <- <-. split; [done | lia].
    + intros q ms' Hq _. apply H2; [done|]. intros [= <-]. rewrite Hc in Hq. injection Hq as Hq _. lia.
Qed.

Lemma dec_ref_ok S P p m :
  sound S (p :: P) m -> guarded S m ->
  exists m', dec_ref p m = Ok (tt, m') /\ sound S P m' /\ evolves None m m'.
Proof.
  intros Hs Hg. unfold dec_ref, get. unfold mbind, M_bind. apply dec_ref_drops; [done..|].
  apply Nat.le_le_succ_r. unfold positive. rewrite <- (size_dom (D := gset loc) (objects m)). apply subseteq_size. intros q [[n ms] Hq]%elem_of_dom.
  apply map_lookup_filter_Some in Hq as [Hq _]. destruct (object_of_core _ _ _ _ Hq) as (o & Ho & _). by apply elem_of_dom_2 in Ho.
Qed.

(** ** Assigning to a reference *)
Lemma suspend_sound m h x :
  sound None [] m -> refs m !! h = Some x -> Z.of_nat (size (refs m)) + 1 < 2 ^ 32 -> sound (Some h) (option_list x) m.
Proof.
  intros [H1 H2 H3 H4 H5 H6 H7 H8 H9] Hh Hsz.
  assert (Hv : forall p, pointers (refs m) p = (one_if x p + pointers (<[h := None]> (refs m)) p)%nat).
  { intros p. rewrite (pointers_delete _ _ _ _ Hh), <- insert_delete_eq, pointers_insert by apply lookup_delete_eq.
    by rewrite (one_if_other None). }
  split; try done.
  - intros p n ms Hp. rewrite (H1 p n ms Hp). cbn [view]. rewrite Hv.
    destruct x as [q|]; cbn [option_list option_rect]; [rewrite occurrences_cons; cbn; lia | rewrite one_if_other by done; cbn; lia].
  - intros h' p Hh'. cbn in Hh'. apply lookup_insert_Some in Hh' as [[_ ?]|[_ Hh']]; [done | by apply (H2 h')].
  - intros p Hp. destruct x as [q|]; [|set_solver]. cbn in Hp. apply list_elem_of_singleton in Hp as ->. by apply (H2 h).
  - destruct x; cbn [option_list option_rect length]; lia.
Qed.

(** Any value may be put into a suspended reference. *)
Lemma overwrite_sound m h x :
  sound (Some h) [] m -> is_Some (refs m !! h) -> sound (Some h) [] (with_refs (<[h := x]> (refs m)) m).
Proof.
  intros [H1 H2 H3 H4 H5 H6 H7 H8 H9] Hh. assert (Hv : view (Some h) (<[h := x]> (refs m)) = view (Some h) (refs m)).
  { cbn. apply insert_insert_eq. }
  split; unfold core, firsts in *; cbn [objects refs safes with_refs]; rewrite ?Hv; try done.
  - by rewrite map_size_insert_Some.
  - intros h' p n ms Hp Hin. apply lookup_insert_is_Some. destruct (decide (h = h')); eauto.
Qed.

Lemma fresh_sound m h x :
  sound None [] m -> refs m !! h = None -> Z.of_nat (size (refs m)) + 1 < 2 ^ 32 ->
  sound (Some h) [] (with_refs (<[h := x]> (refs m)) m).
Proof.
  intros [H1 H2 H3 H4 H5 H6 H7 H8 H9] Hh Hsz.
  split; unfold core, firsts in *; cbn [objects refs safes with_refs view]; rewrite ?insert_insert_eq; try done.
  - intros p n ms Hp. rewrite pointers_insert by done. rewrite (one_if_other None) by done. by apply (H1 p n ms).
  - intros h' p Hh'. apply lookup_insert_Some in Hh' as [[_ ?]|[_ Hh']]; [done | by apply (H2 h')].
  - rewrite map_size_insert_None by done. cbn. lia.
  - intros h' p n ms Hp Hin. apply lookup_insert_is_Some. destruct (decide (h = h')); eauto.
Qed.

(** The new value is counted. *)
Lemma resume_ok m h x :
  sound (Some h) [] m -> refs m !! h = Some x -> (forall q, x = Some q -> is_Some (core m !! q)) ->
  exists m', if_set x inc_ref m = Ok (tt, m') /\ sound None [] m' /\ refs m' = refs m /\ safes m' = safes m /\
    forall p n' ms, core m' !! p = Some (n', ms) <->
      exists n, core m !! p = Some (n, ms) /\ n' = n + Z.of_nat (one_if x p).
Proof.
  intros [H1 H2 H3 H4 H5 H6 H7 H8 H9] Hh Hlive.
  assert (Hv : forall p, pointers (refs m) p = (one_if x p + pointers (<[h := None]> (refs m)) p)%nat).
  { intros p. rewrite (pointers_delete _ _ _ _ Hh), <- insert_delete_eq, pointers_insert by apply lookup_delete_eq.
    by rewrite (one_if_other None). }
  assert (Hlook : forall h' q, refs m !! h' = Some (Some q) -> is_Some (core m !! q)).
  { intros h' q Hq. destruct (decide (h' = h)) as [->|Hne]; [apply Hlive; congruence|].
    apply (H2 h'). cbn. by rewrite lookup_insert_ne. }
  destruct x as [q|]; cbn [if_set].
  - destruct (Hlive q eq_refl) as [[n0 ms0] Hq]. destruct (object_of_core _ _ _ _ Hq) as (o & Hp & Hn & Hm).
    unfold inc_ref, change_object. rewrite Hp. cbn [of_option mbind result_bind]. eexists. split; [done|].
    fold (put_object q (with_count (u32 (_ref_count o + 1)) o) m).
    pose proof (H1 q n0 ms0 Hq) as Hc. cbn [view] in Hc. change (occurrences [] q) with 0%nat in Hc.
    pose proof (pointers_size (refs m) q) as Hsz. rewrite Hv, one_if_same in Hsz.
    cbn in H4. rewrite u32_small by (unfold in_u; lia).
    assert (Hcore : forall p n' ms, core (put_object q (with_count (_ref_count o + 1) o) m) !! p = Some (n', ms) <->
      exists n, core m !! p = Some (n, ms) /\ n' = n + Z.of_nat (one_if (Some q) p)).
    { intros p n' ms. rewrite core_put. unfold core_of. cbn. rewrite Hn, Hm. split.
      - intros [[<- E] | [Hne E]]%lookup_insert_Some; [injection E as <- <-; exists n0; split; [done | rewrite one_if_same; lia]|].
        exists n'. split; [done|]. rewrite one_if_other by congruence. lia.
      - intros (n & E & ->). destruct (decide (q = p)) as [->|Hne].
        + rewrite lookup_insert_eq, one_if_same. rewrite Hq in E. injection E as <- <-. done.
        + rewrite lookup_insert_ne, one_if_other by congruence. rewrite E. do 2 f_equal. lia. }
    split; [|split_and!; done].
    split; rewrite ?(firsts_put _ _ _ _ Hp); cbn [refs safes put_object with_objects view]; try done.
    + intros p n' ms (n & E & ->)%Hcore. rewrite (H1 p n ms E). cbn [view]. rewrite (Hv p). lia.
    + intros h' p Hh'. rewrite core_put. apply lookup_insert_is_Some. destruct (decide (q = p)); eauto.
    + intros p Hp'. set_solver.
    + intros p n' ms (n & E & _)%Hcore. eauto.
    + intros p p' n n' ms ms' y (n1 & E1 & _)%Hcore (n2 & E2 & _)%Hcore. eauto.
    + intros h' p n' ms (n & E & _)%Hcore. eauto.
    + intros s p n' ms (n & E & _)%Hcore. eauto.
  - exists m. split; [done|]. assert (Hv' : forall p, pointers (refs m) p = pointers (<[h := None]> (refs m)) p).
    { intros p. by rewrite (Hv p), one_if_other. }
    split; [|split_and!; try done].
    + split; try done.
      * intros p n ms Hp. rewrite (H1 p n ms Hp). cbn [view]. by rewrite Hv'.
    + intros p n' ms. rewrite one_if_other by done. split; [intros Hp; exists n'; split; [done | lia] | intros (n & Hp & ->)].
      by rewrite Z.add_0_r.
Qed.

(** ** New objects *)
Definition fresh_member (m : memory) (x : member) : Prop :=
  match x with ref_member h => refs m !! h = None | safe_member s => safes m !! s = None end.

Lemma add_member_sound m p o x :
  sound None [] m -> objects m !! p = Some o -> ~ owned m x ->
  match x with ref_member h => is_Some (refs m !! h) | safe_member s => is_Some (safes m !! s) end ->
  sound None [] (put_object p (with_members (x :: members o) o) m).
Proof.
  intros [H1 H2 H3 H4 H5 H6 H7 H8 H9] Hp Ho Hx. pose proof (core_at _ _ _ Hp) as Hc.
  assert (Hnot : forall q n ms, core m !! q = Some (n, ms) -> x ∉ ms) by (intros q n ms Hq Hin; apply Ho, owned_spec; eauto).
  assert (Hlook : forall q n ms, <[p := core_of (with_members (x :: members o) o)]> (core m) !! q = Some (n, ms) ->
    exists ms0, core m !! q = Some (n, ms0) /\ (q = p /\ ms = x :: ms0 \/ q <> p /\ ms = ms0)).
  { intros q n ms [[<- Hq] | [Hne Hq]]%lookup_insert_Some; [injection Hq as <- <-|]; eauto. }
  split; rewrite ?core_put, ?(firsts_put _ _ _ _ Hp); try done; cbn [refs safes put_object with_objects].
  - intros q n ms Hq. destruct (Hlook q n ms Hq) as (ms0 & Hq0 & _). eauto.
  - intros h q Hh. apply lookup_insert_is_Some. destruct (decide (p = q)); eauto.
  - intros q Hq. set_solver.
  - intros q n ms Hq. destruct (Hlook q n ms Hq) as (ms0 & Hq0 & [[_ ->] | [_ ->]]); [|by eauto].
    apply NoDup_cons. eauto.
  - intros q q' n n' ms ms' y Hq Hq' Hy Hy'.
    destruct (Hlook q n ms Hq) as (ms0 & Hq0 & Hd), (Hlook q' n' ms' Hq') as (ms0' & Hq0' & Hd').
    destruct Hd as [[-> ->]|[Hd ->]], Hd' as [[-> ->]|[Hd' ->]]; try done; try by eauto.
    + apply elem_of_cons in Hy as [->|Hy]; [by destruct (Hnot _ _ _ Hq0') | eauto].
    + apply elem_of_cons in Hy' as [->|Hy']; [by destruct (Hnot _ _ _ Hq0) | eauto].
  - intros h q n ms Hq Hin. destruct (Hlook q n ms Hq) as (ms0 & Hq0 & [[_ ->] | [_ ->]]); [|by eauto].
    apply elem_of_cons in Hin as [<-|Hin]; eauto.
  - intros s q n ms Hq Hin. destruct (Hlook q n ms Hq) as (ms0 & Hq0 & [[_ ->] | [_ ->]]); [|by eauto].
    apply elem_of_cons in Hin as [<-|Hin]; eauto.
Qed.

Lemma not_owned_fresh m x : sound None [] m -> fresh_member m x -> ~ owned m x.
Proof.
  intros Hs Hx (p & n & ms & Hp & Hin)%owned_spec. destruct x as [h|s]; cbn in Hx.
  - destruct (snd_ref _ _ _ Hs h p n ms Hp Hin). congruence.
  - destruct (snd_safe _ _ _ Hs s p n ms Hp Hin). congruence.
Qed.

Lemma safe_construct_null_ok junk m s :
  sound None [] m -> safes m !! s = None ->
  exists m', safe_construct_null junk s m = Ok (tt, m') /\ sound None [] m' /\
    objects m' = objects m /\ refs m' = refs m /\ safes m' = <[s := mk_safe None junk junk]> (safes m).
Proof.
  intros Hs Hn. eexists. split; [done|]. split; [|done]. apply (sound_relink _ _ m); [done..| |]; cbn.
  - intros s' p n ms Hp Hin. apply lookup_insert_is_Some. destruct (decide (s = s')); [by left|right; split; [done|]].
    by eapply (snd_safe _ _ _ Hs).
  - eapply safe_ok_restore_null; [apply lookup_insert_eq | done |]. rewrite delete_insert_id by done. apply (snd_list _ _ _ Hs).
Qed.

(** The construction of members leaves everything else alone. *)
Lemma construct_members_ok junk p ms : forall m,
  sound None [] m -> core m !! p = Some (0, []) -> NoDup ms -> (forall x, x ∈ ms -> fresh_member m x) ->
  Z.of_nat (size (refs m) + length ms) < 2 ^ 32 ->
  exists m', construct_members junk p ms m = Ok (tt, m') /\ sound None [] m' /\ core m' = <[p := (0, ms)]> (core m) /\
    (forall x, x ∉ ms -> fresh_member m x -> fresh_member m' x) /\
    (forall h x, refs m !! h = Some x -> refs m' !! h = Some x) /\
    (forall s r', safes m' !! s = Some r' -> safes m !! s = Some r' \/ safe_member s ∈ ms /\ _object r' = None) /\
    (size (refs m') <= size (refs m) + length ms)%nat.
Proof.
  induction ms as [|x ms IH]; intros m Hs Hc Hnd Hf Hsz.
  - exists m. split_and!; try done; [by rewrite insert_id | auto | cbn; lia].
  - apply NoDup_cons in Hnd as [Hx Hnd]. cbn [length] in Hsz.
    destruct (IH m) as (m1 & E1 & Hs1 & Hc1 & Hf1 & Hr1 & Hsafe1 & Hsz1); try done; [set_solver | lia |].
    assert (Hfx : fresh_member m1 x) by (apply Hf1; [done | apply Hf; set_solver]).
    assert (Hox : ~ owned m1 x) by (by apply not_owned_fresh).
    cbn [construct_members]. rewrite (bind_step _ _ _ _ _ E1).
    assert (exists m2, match x with ref_member h => construct h None | safe_member s => safe_construct_null junk s end m1 = Ok (tt, m2) /\
      sound None [] m2 /\ objects m2 = objects m1 /\
      match x with ref_member h => refs m2 = <[h := None]> (refs m1) | safe_member s => refs m2 = refs m1 end /\
      match x with ref_member _ => safes m2 = safes m1 | safe_member s => safes m2 = <[s := mk_safe None junk junk]> (safes m1) end)
      as (m2 & E2 & Hs2 & Eo2 & Er2 & Es2).
    { destruct x as [h|s].
      - eexists. split; [done|]. split; [|done]. assert (Hsus : sound (Some h) [] (with_refs (<[h := None]> (refs m1)) m1)) by (apply fresh_sound; [done | done | lia]).
        destruct (resume_ok _ h None Hsus) as (m2 & E2 & Hs2 & _); [apply lookup_insert_eq | done |]. injection E2 as <-. done.
      - by apply safe_construct_null_ok. }
    rewrite (bind_step _ _ _ _ _ E2).
    assert (Hc2 : core m2 !! p = Some (0, ms)) by (unfold core in *; rewrite Eo2, Hc1; apply lookup_insert_eq).
    destruct (object_of_core _ _ _ _ Hc2) as (o & Hp & Hn & Hm). unfold change_object. rewrite Hp. cbn [of_option mbind result_bind].
    rewrite Hm. eexists. split; [done|]. fold (put_object p (with_members (x :: ms) o) m2).
    split_and!.
    + rewrite <- Hm. apply add_member_sound; [done | done | |].
      * intros Ho. apply Hox. apply owned_spec in Ho as (q & n & ms' & Hq & Hin). apply owned_spec. exists q, n, ms'.
        split; [|done]. unfold core in *. by rewrite <- Eo2.
      * destruct x; rewrite ?Er2, ?Es2, lookup_insert_eq; eauto.
    + rewrite core_put. unfold core_of. cbn. rewrite Hn. unfold core in *. rewrite Eo2, Hc1. apply insert_insert_eq.
    + intros y Hy Hfy. specialize (Hf1 y ltac:(set_solver) Hfy).
      destruct x as [h|s], y as [h'|s']; cbn in *; rewrite ?Er2, ?Es2; try done; rewrite lookup_insert_ne; (done || intros ->; set_solver).
    + intros h y Hh. specialize (Hr1 h y Hh). cbn. destruct x as [h'|s]; rewrite Er2; [|done].
      cbn in Hfx. rewrite lookup_insert_ne; [done|]. congruence.
    + intros s r' Hr'. cbn in Hr'. destruct x as [h|s']; rewrite Es2 in Hr'.
      * destruct (Hsafe1 s r' Hr') as [?|[? ?]]; [by left | right; split; [set_solver | done]].
      * apply lookup_insert_Some in Hr' as [[<- <-] | [_ Hr']]; [right; split; [set_solver | done]|].
        destruct (Hsafe1 s r' Hr') as [?|[? ?]]; [by left | right; split; [set_solver | done]].
    + cbn [refs put_object with_objects length]. destruct x as [h|s]; rewrite Er2; [|lia].
      cbn in Hfx. rewrite map_size_insert_None by done. lia.
Qed.

Lemma new_sound m p :
  sound None [] m -> core m !! p = None -> sound None [] (with_objects (<[p := mk_object None 0 []]> (objects m)) m).
Proof.
  intros [H1 H2 H3 H4 H5 H6 H7 H8 H9] Hp. fold (put_object p (mk_object None 0 []) m).
  assert (Hlook : forall q n ms, <[p := core_of (mk_object None 0 [])]> (core m) !! q = Some (n, ms) ->
    q = p /\ n = 0 /\ ms = [] \/ core m !! q = Some (n, ms)).
  { intros q n ms [[<- Hq] | [Hne Hq]]%lookup_insert_Some; [injection Hq as <- <-|]; eauto. }
  assert (Hf : firsts (put_object p (mk_object None 0 []) m) = <[p := None]> (firsts m)).
  { unfold firsts, put_object. cbn. by rewrite fmap_insert. }
  assert (Hfp : firsts m !! p = None).
  { destruct (firsts m !! p) as [f|] eqn:Ef; [|done]. unfold firsts in Ef. rewrite lookup_fmap in Ef.
    destruct (objects m !! p) as [o|] eqn:Ho; [|done]. apply core_at in Ho. congruence. }
  split; rewrite ?core_put, ?Hf; try done; cbn [refs safes put_object with_objects].
  - intros q n ms Hq. destruct (Hlook q n ms Hq) as [(-> & -> & ->) | Hq']; [|eauto]. cbn. rewrite Nat.add_0_r.
    rewrite pointers_none; [done|]. intros h Hh. destruct (H2 h p Hh). congruence.
  - intros h q Hh. apply lookup_insert_is_Some. destruct (decide (p = q)); eauto.
  - intros q Hq. set_solver.
  - intros q n ms Hq. destruct (Hlook q n ms Hq) as [(-> & -> & ->) | Hq']; [constructor | eauto].
  - intros q q' n n' ms ms' y Hq Hq' Hy Hy'.
    destruct (Hlook q n ms Hq) as [(-> & -> & ->) | ?], (Hlook q' n' ms' Hq') as [(-> & -> & ->) | ?]; (done || set_solver || eauto).
  - intros h q n ms Hq Hin. destruct (Hlook q n ms Hq) as [(-> & -> & ->) | ?]; [set_solver | eauto].
  - intros s q n ms Hq Hin. destruct (Hlook q n ms Hq) as [(-> & -> & ->) | ?]; [set_solver | eauto].
  - split.
    + intros q f [[<- <-] | [Hne Hq]]%lookup_insert_Some; [|by eapply (so_list _ _ H9)].
      exists []. split; [constructor | exists None; constructor |].
      intros s r Hr Ho. destruct (so_live _ _ H9 s r p Hr Ho). congruence.
    + intros s r q Hr Ho. apply lookup_insert_is_Some. destruct (decide (p = q)); [by left | right]. split; [done|]. by eapply (so_live _ _ H9).
Qed.

(** ** Programs *)
Definition live (m : memory) (x : option loc) : Prop := forall p, x = Some p -> is_Some (core m !! p).

(** [p] is not deleted by an assignment to [h]: nothing refers to it (and so nothing is
    dropped that would), or a variable other than [h] does. *)
Definition stays (m : memory) (h p : loc) : Prop :=
  (exists ms, core m !! p = Some (0, ms)) \/
  exists r, r <> h /\ refs m !! r = Some (Some p) /\ ~ owned m (ref_member r).

(** What the language and the callers have to respect: storage that is constructed is unused,
    what is destroyed or assigned to exists, pointers are valid, members are destroyed by their
    owner only, and an assignment deletes neither the new object nor the owner of the
    reference. *)
Definition legal (m : memory) (op : operation) : Prop :=
  match op with
  | op_new p ms =>
      core m !! p = None /\ NoDup ms /\ (forall x, x ∈ ms -> fresh_member m x) /\
      Z.of_nat (size (refs m) + length ms) < 2 ^ 32
  | op_delete p => exists ms, core m !! p = Some (0, ms)
  | op_construct h x => refs m !! h = None /\ live m x /\ Z.of_nat (size (refs m)) + 1 < 2 ^ 32
  | op_set h x =>
      is_Some (refs m !! h) /\ live m x /\ (forall p, x = Some p -> stays m h p) /\
      (forall p n ms, core m !! p = Some (n, ms) -> ref_member h ∈ ms -> stays m h p) /\
      Z.of_nat (size (refs m)) + 1 < 2 ^ 32
  | op_destruct h => is_Some (refs m !! h) /\ ~ owned m (ref_member h)
  | op_safe_construct s x => safes m !! s = None /\ live m x
  | op_safe_set s x => is_Some (safes m !! s) /\ live m x
  | op_safe_destruct s => is_Some (safes m !! s) /\ ~ owned m (safe_member s)
  end.

Definition ref_target (op : operation) : option loc :=
  match op with op_construct h _ | op_set h _ | op_destruct h => Some h | _ => None end.

(** What an operation does, apart from keeping the invariant. *)
Record effect (op : operation) (m m' : memory) : Prop := {
  ef_ref h x :
    ref_target op <> Some h -> refs m !! h = Some x -> ~ owned m (ref_member h) -> refs m' !! h = Some x;
  ef_target :
    match op with
    | op_new p ms => core m' !! p = Some (0, ms)
    | op_delete p => core m' !! p = None
    | op_construct h x | op_set h x => refs m' !! h = Some x
    | op_destruct h => refs m' !! h = None
    | op_safe_construct s x | op_safe_set s x => _object <$> safes m' !! s = Some x
    | op_safe_destruct s => safes m' !! s = None
    end;
  ef_idle p ms :
    core m' !! p = Some (0, ms) -> core m !! p = Some (0, ms) \/ op = op_new p ms;
  ef_safe s r' :
    safes m' !! s = Some r' ->
    (exists r, safes m !! s = Some r /\
      (_object r' = _object r \/ _object r' = None /\ exists p, _object r = Some p /\ core m' !! p = None)) \/
    match op with
    | op_new _ ms => safe_member s ∈ ms
    | op_safe_construct s' _ | op_safe_set s' _ => s = s'
    | _ => False
    end
}.

Definition handled (junk : option loc) (op : operation) (m : memory) : Prop :=
  exists m', exec junk op m = Ok (tt, m') /\ sound None [] m' /\ effect op m m'.

Lemma guarded_none m : guarded None m.
Proof. by intros h. Qed.

Lemma new_handled junk p ms m : sound None [] m -> legal m (op_new p ms) -> handled junk (op_new p ms) m.
Proof.
  intros Hs (Hp & Hnd & Hf & Hsz). set (m1 := with_objects (<[p := mk_object None 0 []]> (objects m)) m).
  assert (Hc1 : core m1 = <[p := (0, [])]> (core m)) by (unfold core, m1; cbn; by rewrite fmap_insert).
  destruct (construct_members_ok junk p ms m1) as (m2 & E & Hs2 & Hc2 & _ & Hr & Hsafe & _); try done.
  { by apply new_sound. } { by rewrite Hc1, lookup_insert_eq. }
  exists m2. split; [done|]. split; [done|]. split; cbn.
  - intros h x _ Hh _. by apply Hr.
  - by rewrite Hc2, lookup_insert_eq.
  - intros q ms' Hq. rewrite Hc2, Hc1, insert_insert_eq in Hq.
    apply lookup_insert_Some in Hq as [[<- Hq] | [_ Hq]]; [injection Hq as <-; by right | by left].
  - intros s r' Hr'. destruct (Hsafe s r' Hr') as [?|[? _]]; [left; eauto | by right].
Qed.

Lemma dec_ref_bound bound : drops bound dec_ref.
Proof. intros S P q m Hs Hg _. by apply dec_ref_ok. Qed.

Lemma delete_handled junk p m : sound None [] m -> legal m (op_delete p) -> handled junk (op_delete p) m.
Proof.
  intros Hs [ms Hc]. destruct (destroy_self_ok (positive m) dec_ref (dec_ref_bound _) None [] m p ms) as (m' & E & Hs' & Hp & He); try done.
  exists m'. split; [done|]. split; [done|]. split; cbn.
  - intros h x _. apply (ev_root _ _ _ He).
  - done.
  - intros q ms' Hq. left. destruct (ev_core _ _ _ He _ _ _ Hq) as (n & ms0 & Hq0 & _ & Hsame).
    destruct Hsame as [-> Hz]; [congruence|]. by rewrite <- Hz.
  - intros s r' Hr'. left. by apply (ev_safe _ _ _ He).
Qed.

Lemma construct_handled junk h x m : sound None [] m -> legal m (op_construct h x) -> handled junk (op_construct h x) m.
Proof.
  intros Hs (Hh & Hx & Hsz). pose proof (fresh_sound m h x Hs Hh Hsz) as Hs1.
  destruct (resume_ok _ h x Hs1) as (m' & E & Hs' & Er & Es & Hc); [apply lookup_insert_eq | done |].
  exists m'. split; [done|]. split; [done|]. split; cbn; rewrite ?Er, ?Es; cbn [refs safes with_refs].
  - intros h' y Hne Hy _. rewrite lookup_insert_ne; [done|]. congruence.
  - apply lookup_insert_eq.
  - intros p ms Hp. apply Hc in Hp as (n & Hp & Hn). left. change (core m !! p = Some (n, ms)) in Hp.
    pose proof (snd_count _ _ _ Hs _ _ _ Hp). assert (n = 0) as -> by lia. done.
  - intros s r' Hr'. left. eauto.
Qed.

Lemma destruct_handled junk h m : sound None [] m -> legal m (op_destruct h) -> handled junk (op_destruct h) m.
Proof.
  intros Hs ([x Hx] & Ho). pose proof (delete_ref_sound None [] m h x Hs ltac:(done) Hx Ho) as Hs1.
  set (m1 := with_refs (delete h (refs m)) m) in *.
  assert (exists m', if_set x dec_ref m1 = Ok (tt, m') /\ sound None [] m' /\ evolves None m1 m') as (m' & E & Hs' & He).
  { destruct x as [p|]; [by apply dec_ref_ok | exists m1; split_and!; (done || apply evolves_refl)]. }
  exists m'. split; [|split; [done|split]].
  - cbn [exec]. unfold destruct, destruct_with. erewrite bind_step by (unfold ref_at; by rewrite Hx).
    unfold change_refs, modify. by erewrite bind_step by done.
  - cbn. intros h' y Hne Hy Ho'. apply (ev_root _ _ _ He); [|done]. cbn. rewrite lookup_delete_ne; [done|]. congruence.
  - destruct (refs m' !! h) as [y|] eqn:Ey; [|done]. apply (ev_ref _ _ _ He) in Ey. cbn in Ey. by rewrite lookup_delete_eq in Ey.
  - intros p ms Hp. left. destruct (ev_core _ _ _ He _ _ _ Hp) as (n & ms0 & Hq0 & _ & Hsame).
    destruct Hsame as [-> Hz]; [done|]. by rewrite <- Hz.
  - intros s r' Hr'. left. by apply (ev_safe _ _ _ He).
Qed.

Lemma set_handled junk h x m : sound None [] m -> legal m (op_set h x) -> handled junk (op_set h x) m.
Proof.
  intros Hs ([y Hy] & Hx & Hstay & Hown & Hsz). pose proof (suspend_sound m h y Hs Hy Hsz) as Hs1.
  assert (Hg : guarded (Some h) m).
  { intros h' [= <-]. split; [eauto|]. intros p n ms Hp Hin.
    destruct (Hown p n ms Hp Hin) as [[ms' Hp'] | ?]; [left; congruence | by right]. }
  assert (exists m1, if_set y dec_ref m = Ok (tt, m1) /\ sound (Some h) [] m1 /\ evolves None m m1) as (m1 & E1 & Hs2 & He).
  { destruct y as [p|]; [by apply dec_ref_ok | exists m; split_and!; (done || apply evolves_refl)]. }
  assert (Hg1 : guarded (Some h) m1) by (by eapply guarded_evolves).
  destruct (proj1 (Hg1 h eq_refl)) as [y' Hy']. pose proof (overwrite_sound m1 h x Hs2 (ex_intro _ _ Hy')) as Hs3.
  set (m2 := with_refs (<[h := x]> (refs m1)) m1) in *.
  destruct (resume_ok m2 h x Hs3) as (m3 & E3 & Hs' & Er & Es & Hc); [apply lookup_insert_eq | |].
  { intros p ->. change (core m2) with (core m1). destruct (Hstay p eq_refl) as [[ms Hp] | (r & Hr & Hrp & Ho)].
    - eexists. by apply (ev_idle _ _ _ He).
    - apply (snd_live _ _ _ Hs2 r). cbn. rewrite lookup_insert_ne by done. by apply (ev_root _ _ _ He). }
  exists m3. split; [|split; [done|split]].
  - cbn [exec]. unfold set. erewrite bind_step by (unfold ref_at; by rewrite Hy). rewrite (bind_step _ _ _ _ _ E1).
    erewrite bind_step by (unfold ref_at; by rewrite Hy'). unfold change_refs, modify. by erewrite bind_step by done.
  - cbn. intros h' z Hne Hz Ho. rewrite Er. cbn. rewrite lookup_insert_ne by congruence. by apply (ev_root _ _ _ He).
  - rewrite Er. apply lookup_insert_eq.
  - intros p ms Hp. apply Hc in Hp as (n & Hp & Hn). left. change (core m1 !! p = Some (n, ms)) in Hp.
    pose proof (snd_count _ _ _ Hs2 _ _ _ Hp). assert (n = 0) as -> by lia.
    destruct (ev_core _ _ _ He _ _ _ Hp) as (n0 & ms0 & Hq0 & _ & Hsame). destruct Hsame as [-> Hz]; [done|]. by rewrite <- Hz.
  - intros s r' Hr'. left. rewrite Es in Hr'. destruct (ev_safe _ _ _ He s r' Hr') as (r & Hr & Hcase). exists r. split; [done|].
    destruct Hcase as [|(Hn & p & Hp & Hgone)]; [by left | right]. split; [done|]. exists p. split; [done|].
    destruct (core m3 !! p) as [[n' ms]|] eqn:Ep; [|done]. apply Hc in Ep as (n & Ep & _). change (core m1 !! p = Some (n, ms)) in Ep. congruence.
Qed.

(** A change of safe pointers only, [s] being the one that is assigned to. *)
Lemma relink_effect op m m' s :
  ref_target op = None -> refs m' = refs m -> core m' = core m ->
  match op with
  | op_safe_construct s' x | op_safe_set s' x => s = s' /\ _object <$> safes m' !! s = Some x
  | op_safe_destruct s' => s = s' /\ safes m' !! s = None
  | _ => False
  end ->
  (forall s', s' <> s -> _object <$> safes m' !! s' = _object <$> safes m !! s') -> effect op m m'.
Proof.
  intros Ht Er Ec Hop Hne. split; rewrite ?Er, ?Ec; [done | | by left |].
  - destruct op; try done; naive_solver.
  - intros s1 r' Hr'. destruct (decide (s1 = s)) as [->|Hd].
    + destruct op; try done; destruct Hop as [<- Hop]; [by right.. |]. congruence.
    + left. specialize (Hne s1 Hd). rewrite Hr' in Hne. destruct (safes m !! s1) as [r|]; [|done].
      exists r. split; [done|]. left. by injection Hne.
Qed.

Lemma live_objects m x r : live m x -> forall p, _object (with_object x r) = Some p -> is_Some (objects m !! p).
Proof. intros Hx p Hp. destruct (Hx p Hp) as [[n ms] Hc]. destruct (object_of_core _ _ _ _ Hc) as (o & -> & _). eauto. Qed.

Lemma safe_construct_handled junk s x m :
  sound None [] m -> legal m (op_safe_construct s x) -> handled junk (op_safe_construct s x) m.
Proof.
  intros Hs (Hn & Hx). set (m1 := with_safes (<[s := mk_safe x junk junk]> (safes m)) m).
  assert (Hs1 : safes m1 !! s = Some (mk_safe x junk junk)) by apply lookup_insert_eq.
  destruct (register_ok m1 s (mk_safe x junk junk)) as (m' & E & Er & Ec & Hsame & Hok); [|exact Hs1|by apply (live_objects m x (mk_safe x junk junk))|].
  { cbn. rewrite delete_insert_id by done. apply (snd_list _ _ _ Hs). }
  assert (Hne : forall s', s' <> s -> _object <$> safes m' !! s' = _object <$> safes m !! s').
  { intros s' Hd. rewrite Hsame. cbn. by rewrite lookup_insert_ne. }
  assert (Htarget : _object <$> safes m' !! s = Some x) by (rewrite Hsame, Hs1; done).
  exists m'. split; [|split].
  - cbn [exec]. unfold safe_construct, change_safes, modify. by erewrite bind_step by done.
  - apply (sound_relink _ _ m); try done. intros s' p n ms Hp Hin.
    destruct (snd_safe _ _ _ Hs s' p n ms Hp Hin) as [r Hr]. assert (s' <> s) by congruence.
    specialize (Hne s' ltac:(done)). rewrite Hr in Hne. destruct (safes m' !! s'); [done | discriminate].
  - by apply (relink_effect _ _ _ s).
Qed.

Lemma safe_set_handled junk s x m : sound None [] m -> legal m (op_safe_set s x) -> handled junk (op_safe_set s x) m.
Proof.
  intros Hs ([r Hr] & Hx). destruct (unregister_ok m s r (snd_list _ _ _ Hs) Hr) as (m1 & E1 & Er1 & Ec1 & Hsame1 & Hok1).
  pose proof (Hsame1 s) as Hr1. rewrite Hr in Hr1. destruct (safes m1 !! s) as [r1|] eqn:Hs1; [|discriminate].
  set (m2 := with_safes (<[s := with_object x r1]> (safes m1)) m1).
  assert (Hs2 : safes m2 !! s = Some (with_object x r1)) by apply lookup_insert_eq.
  destruct (register_ok m2 s (with_object x r1)) as (m' & E & Er & Ec & Hsame & Hok); [|exact Hs2| |].
  { cbn. by rewrite delete_insert_eq. }
  { apply live_objects. intros p Hp. change (core m2) with (core m1). rewrite Ec1. by apply Hx. }
  assert (Hne : forall s', s' <> s -> _object <$> safes m' !! s' = _object <$> safes m !! s').
  { intros s' Hd. rewrite Hsame. cbn. rewrite lookup_insert_ne by done. apply Hsame1. }
  assert (Htarget : _object <$> safes m' !! s = Some x) by (rewrite Hsame, Hs2; done).
  exists m'. split; [|split].
  - cbn [exec]. unfold safe_set. rewrite (bind_step _ _ _ _ _ E1). by rewrite (change_safe_step _ _ _ _ _ Hs1).
  - apply (sound_relink _ _ m); [done | by rewrite Er | by rewrite Ec | | done]. intros s' p n ms Hp Hin.
    destruct (snd_safe _ _ _ Hs s' p n ms Hp Hin) as [r' Hr']. destruct (decide (s' = s)) as [->|Hd].
    + destruct (safes m' !! s); [done | discriminate].
    + specialize (Hne s' Hd). rewrite Hr' in Hne. destruct (safes m' !! s'); [done | discriminate].
  - apply (relink_effect _ _ _ s); [done | by rewrite Er | by rewrite Ec | done | done].
Qed.

Lemma safe_destruct_handled junk s m : sound None [] m -> legal m (op_safe_destruct s) -> handled junk (op_safe_destruct s) m.
Proof.
  intros Hs (Hr & Ho). destruct (safe_destruct_ok None [] m s Hs Hr Ho) as (m' & E & Hs' & Er & Ec & Hn & Hne).
  exists m'. split; [done|]. split; [done|]. by apply (relink_effect _ _ _ s).
Qed.

Lemma legal_handled junk op m : sound None [] m -> legal m op -> handled junk op m.
Proof.
  destruct op; [apply new_handled | apply delete_handled | apply construct_handled | apply set_handled | apply destruct_handled
    | apply safe_construct_handled | apply safe_set_handled | apply safe_destruct_handled].
Qed.

Lemma empty_sound : sound None [] empty_memory.
Proof.
  split; unfold core, firsts; cbn; intros; rewrite ?fmap_empty in *; simplify_map_eq; try done.
  by apply not_elem_of_nil in H.
Qed.

(** What legal programs can reach. *)
Inductive reachable (junk : option loc) : memory -> Prop :=
  | reachable_empty : reachable junk empty_memory
  | reachable_step m op m' :
      reachable junk m -> legal m op -> exec junk op m = Ok (tt, m') -> reachable junk m'.

Lemma reachable_sound junk m : reachable junk m -> sound None [] m.
Proof.
  induction 1 as [|m op m' _ IH Hl E]; [apply empty_sound|].
  destruct (legal_handled junk op m IH Hl) as (m'' & E' & Hs & _). congruence.
Qed.

(** C32. Reference counting is sound.  In every state that a legal program reaches, counted
    references and safe pointers are null or point at objects that exist, and the count of an
    object is the number of references to it.  A legal operation never faults, however many
    objects it deletes in turn and whatever order they are deleted in; it leaves the references
    of the program other than its target as they were, clears the safe pointers to the objects
    that are deleted and no others, and leaves no object without references that had any. *)
Theorem references_are_sound junk m :
  reachable junk m ->
  (forall h p, refs m !! h = Some (Some p) ->
    exists o, objects m !! p = Some o /\ _ref_count o = Z.of_nat (pointers (refs m) p)) /\
  (forall s r p, safes m !! s = Some r -> _object r = Some p -> is_Some (objects m !! p)) /\
  forall op, legal m op -> exists m', exec junk op m = Ok (tt, m') /\ reachable junk m' /\ effect op m m'.
Proof.
  intros Hr. pose proof (reachable_sound _ _ Hr) as Hs. split_and!.
  - intros h p Hh. destruct (snd_live _ _ _ Hs h p Hh) as [[n ms] Hp]. destruct (object_of_core _ _ _ _ Hp) as (o & Ho & Hn & _).
    exists o. split; [done|]. rewrite Hn, (snd_count _ _ _ Hs _ _ _ Hp). cbn. by rewrite Nat.add_0_r.
  - intros s r p Hs' Hp. destruct (so_live _ _ (snd_list _ _ _ Hs) s r p Hs' Hp) as [f Hf]. unfold firsts in Hf.
    rewrite lookup_fmap in Hf. destruct (objects m !! p); [eauto | done].
  - intros op Hl. destruct (legal_handled junk op m Hs Hl) as (m' & E & _ & He). exists m'. split_and!; [done | | done].
    by eapply reachable_step.
Qed.

(** ** An example: a chain of two objects and a safe pointer to the second *)
Definition example_program : list operation :=
  [op_new 2 []; op_new 1 [ref_member 1]; op_construct 7 (Some 1%positive); op_set 1 (Some 2%positive);
   op_safe_construct 9 (Some 2%positive)].

Definition example_memory (k : nat) : memory :=
  match exec_all None (take k example_program) empty_memory with Ok (_, m) => m | Fault _ => empty_memory end.

Lemma core_lookup_list m p o : core m !! p = Some o -> (p, o) ∈ map_to_list (core m).
Proof. apply elem_of_map_to_list. Qed.

Lemma example_step k op :
  reachable None (example_memory k) -> legal (example_memory k) op ->
  exec None op (example_memory k) = Ok (tt, example_memory (S k)) -> reachable None (example_memory (S k)).
Proof. apply reachable_step. Qed.

Lemma example_reachable : reachable None (example_memory 5).
Proof.
  assert (Hlive : forall k p, is_Some (core (example_memory k) !! p) -> live (example_memory k) (Some p)) by (by intros k p ? q [= <-]).
  apply (example_step 4 (op_safe_construct 9 (Some 2%positive))); [| | reflexivity].
  2: { split; [reflexivity | apply Hlive; by eexists]. }
  apply (example_step 3 (op_set 1 (Some 2%positive))); [| | reflexivity].
  2: { split; [by eexists|]. split; [apply Hlive; by eexists|]. split; [|split; [|reflexivity]].
       - intros p [= <-]. left. by exists [].
       - intros p n ms Hp%core_lookup_list Hin. right. exists 7%positive. split; [done|].
         vm_compute in Hp. apply elem_of_cons in Hp as [[= -> -> ->] | Hp]; [by apply not_elem_of_nil in Hin|].
         apply list_elem_of_singleton in Hp as [= -> -> ->]. split; [reflexivity | by apply (bool_decide_unpack _)]. }
  apply (example_step 2 (op_construct 7 (Some 1%positive))); [| | reflexivity].
  2: { split; [reflexivity|]. split; [apply Hlive; by eexists | reflexivity]. }
  apply (example_step 1 (op_new 1 [ref_member 1])); [| | reflexivity].
  2: { split; [reflexivity|]. split; [by repeat constructor; apply not_elem_of_nil|]. split; [|reflexivity].
       by intros x ->%list_elem_of_singleton. }
  apply (example_step 0 (op_new 2 [])); [apply reachable_empty | | reflexivity].
  split; [reflexivity|]. split; [constructor|]. split; [|reflexivity]. by intros x ?%not_elem_of_nil.
Qed.

(** The last reference to the first object goes: both objects are deleted and the safe pointer
    is cleared. *)
Lemma references_are_sound_witness :
  (reachable None (example_memory 5) /\ legal (example_memory 5) (op_destruct 7)) /\
  exists m', exec None (op_destruct 7) (example_memory 5) = Ok (tt, m') /\ reachable None m' /\
    effect (op_destruct 7) (example_memory 5) m' /\
    objects m' = ∅ /\ _object <$> safes m' !! 9%positive = Some None.
Proof.
  assert (Hl : legal (example_memory 5) (op_destruct 7)) by (split; [by eexists | by apply (bool_decide_unpack _)]).
  split; [split; [apply example_reachable | done]|].
  destruct (references_are_sound None (example_memory 5) example_reachable) as (_ & _ & Hop).
  destruct (Hop _ Hl) as (m' & E & Hr & He). exists m'. split; [done|]. split; [done|]. split; [done|].
  vm_compute in E. injection E as <-. done.
Defined.

(** ** What is not freed *)
Lemma referrer m p n ms :
  sound None [] m -> core m !! p = Some (n, ms) -> n <> 0 -> exists h, refs m !! h = Some (Some p).
Proof.
  intros Hs Hp Hn. rewrite (snd_count _ _ _ Hs _ _ _ Hp) in Hn. cbn in Hn. rewrite Nat.add_0_r in Hn.
  destruct (map_choose (filter (fun hx => hx.2 = Some p) (refs m))) as (h & x & Hh).
  { intros Hemp. apply Hn. unfold pointers. by rewrite Hemp, map_size_empty. }
  apply map_lookup_filter_Some in Hh as [Hh Hx]. cbn in Hx. subst. eauto.
Qed.


Definition example_end : memory :=
  match exec None (op_destruct 7) (example_memory 5) with Ok (_, m) => m | Fault _ => empty_memory end.

