(* ===== verification/Calendar.v ===== *)
(** * Calendar time: torque_sockets/time.h

    [time] values, their making from a date and the way back.  [int32] computations wrap ([s32]);
    division and remainder of C++ are [Z.quot] and [Z.rem].  The months of [set] count from one,
    those of [get_date] from zero. *)
From S2P Require Import Prelude.
#[local] Open Scope Z_scope.

Module time.
Definition ONE_DAY : Z := 86400000.
Definition ONE_HOUR : Z := 3600000.
Definition ONE_MINUTE : Z := 60000.
Definition ONE_SECOND : Z := 1000.

Definition UNIX_TIME_TO_INT64 (t : Z) : Z := (t + 62135683200) * ONE_SECOND.

Record date_and_time : Type := mk_date {
  dt_year : Z;
  dt_month : Z;
  dt_day : Z;
  dt_hour : Z;
  dt_minute : Z;
  dt_second : Z;
  dt_millisecond : Z
}.

Definition _DaysInMonth : list Z := [0; 31; 28; 31; 30; 31; 30; 31; 31; 30; 31; 30; 31].
Definition _DaysInMonthLeap : list Z := [0; 31; 29; 31; 30; 31; 30; 31; 31; 30; 31; 30; 31].
Definition _DayNumber : list Z := [0; 31; 59; 90; 120; 151; 181; 212; 243; 273; 304; 334; 365].
Definition _DayNumberLeap : list Z := [0; 31; 60; 91; 121; 152; 182; 213; 244; 274; 305; 335; 366].

Definition _is_leap_year (year : Z) : bool :=
  (Z.land year 3 =? 0) && (negb (Z.rem year 100 =? 0) || (Z.rem year 400 =? 0)).

Definition _days_in_month (month year : Z) : Z :=
  if _is_leap_year year then nth (Z.to_nat month) _DaysInMonthLeap 0 else nth (Z.to_nat month) _DaysInMonth 0.

(** The value that [set] stores in [_time]. *)
Definition set (year month day hour minute second millisecond : Z) : Z :=
  let second := s32 (second + Z.quot millisecond 1000) in
  let millisecond := Z.rem millisecond 1000 in
  let minute := s32 (minute + Z.quot second 60) in
  let second := Z.rem second 60 in
  let hour := s32 (hour + Z.quot minute 60) in
  let minute := Z.rem minute 60 in
  let carry_days := Z.quot hour 24 in
  let hour := Z.rem hour 24 in
  let leap_year := _is_leap_year year in
  let year := year - 1 in
  let gregorian :=
    s32 (365 * year + Z.quot year 4 - Z.quot year 100 + Z.quot year 400 +
         Z.quot (367 * month - 362) 12 + day + carry_days) in
  let gregorian :=
    if leap_year then (if 2 <? month then gregorian - 1 else gregorian)
    else if 2 <? month then gregorian - 2 else gregorian in
  gregorian * ONE_DAY + (hour * ONE_HOUR + minute * ONE_MINUTE + second * ONE_SECOND + millisecond).

Definition set_date (d : date_and_time) : Z :=
  set (dt_year d) (dt_month d) (dt_day d) (dt_hour d) (dt_minute d) (dt_second d) (dt_millisecond d).

(** The loop of [get_date]: [rest] is the table from [month + 1] on. *)
Fixpoint find_month (rest : list Z) (month day : Z) : result Z :=
  match rest with
  | [] => Fault out_of_bounds
  | n :: rest => if n <=? day then find_month rest (month + 1) day else Ok month
  end.

(** Year, month and day. *)
Definition get_date (_time : Z) : result (Z * Z * Z) :=
  let gregorian := s32 (Z.quot _time ONE_DAY) in
  let prior := gregorian - 1 in
  let years400 := Z.quot prior 146097 in
  let days400 := Z.rem prior 146097 in
  let years100 := Z.quot days400 36524 in
  let days100 := Z.rem days400 36524 in
  let years4 := Z.quot days100 1461 in
  let days4 := Z.rem days100 1461 in
  let year1 := Z.quot days4 365 in
  let day1 := Z.rem days4 365 in
  let year := 400 * years400 + 100 * years100 + 4 * years4 + year1 in
  let leap_end := (years100 =? 4) || (year1 =? 4) in
  let day := if leap_end then 366 else day1 + 1 in
  let year := if leap_end then year else year + 1 in
  let day_number := if _is_leap_year year then _DayNumberLeap else _DayNumber in
  month ← find_month (tl day_number) 0 day;
  Ok (year, month, day - nth (Z.to_nat month) day_number 0).

(** Hour, minute, second and millisecond. *)
Definition get_time (_time : Z) : Z * Z * Z * Z :=
  let t := s32 (Z.rem _time ONE_DAY) in
  let hour := Z.quot t ONE_HOUR in
  let t := t - hour * ONE_HOUR in
  let minute := Z.quot t ONE_MINUTE in
  let t := t - minute * ONE_MINUTE in
  let second := Z.quot t ONE_SECOND in
  let t := t - second * ONE_SECOND in
  (hour, minute, second, t).

Definition get (_time : Z) : result date_and_time :=
  '(year, month, day) ← get_date _time;
  let '(hour, minute, second, millisecond) := get_time _time in
  Ok (mk_date year month day hour minute second millisecond).

(** Of [get_current] the part after [gettimeofday]. *)
Definition get_current (tv_sec tv_usec : Z) : Z := u64 (u64 tv_sec * 1000 + Z.quot tv_usec 1000).

(** 14 May 2009, 30 and 31 January and 31 December 2009. *)
Example some_dates :
  get_date (set 2009 5 14 10 20 30 400) = Ok (2009, 4, 14) /\
  get_date (set 2009 1 30 0 0 0 0) = Ok (2009, 0, 30) /\
  get_date (set 2009 1 31 0 0 0 0) = Ok (2009, 1, 0) /\
  get_date (set 2009 12 31 0 0 0 0) = Fault out_of_bounds /\
  set 1970 1 1 0 0 0 0 = UNIX_TIME_TO_INT64 0.
Proof. repeat split; reflexivity. Qed.

(** ** The calendar *)
Definition leap (year : Z) : bool :=
  (year mod 4 =? 0) && (negb (year mod 100 =? 0) || (year mod 400 =? 0)).
Definition year_length (year : Z) : Z := if leap year then 366 else 365.

(** Days in the years from 1 to [n]. *)
Fixpoint days_in_years (n : nat) : Z :=
  match n with O => 0 | S n => days_in_years n + year_length (Z.of_nat (S n)) end.

(** Days in the first [n] months of a year. *)
Fixpoint days_in_months (year : Z) (n : nat) : Z :=
  match n with O => 0 | S n => days_in_months year n + _days_in_month (Z.of_nat (S n)) year end.

Definition date_ok (year month day : Z) : Prop :=
  1 <= year <= 5000000 /\ 1 <= month <= 12 /\ 1 <= day <= _days_in_month month year.
Definition time_ok (hour minute second millisecond : Z) : Prop :=
  0 <= hour < 24 /\ 0 <= minute < 60 /\ 0 <= second < 60 /\ 0 <= millisecond < 1000.

Lemma leap_year_spec year : 0 <= year -> _is_leap_year year = leap year.
Proof.
  intros Hy. unfold _is_leap_year, leap. rewrite !Z.rem_mod_nonneg by lia.
  change 3 with (Z.ones 2). rewrite Z.land_ones by lia. done.
Qed.

Lemma days_in_years_closed n :
  let y := Z.of_nat n in days_in_years n = 365 * y + y / 4 - y / 100 + y / 400.
Proof.
  induction n as [|n IH]; [done|]. cbv zeta in *. cbn [days_in_years]. rewrite IH. unfold year_length, leap.
  rewrite Nat2Z.inj_succ. set (y := Z.of_nat n). unfold Z.succ. clear IH.
  destruct (Z.eqb_spec ((y + 1) mod 4) 0), (Z.eqb_spec ((y + 1) mod 100) 0), (Z.eqb_spec ((y + 1) mod 400) 0);
    cbn [andb orb negb]; zlia.
Qed.

Definition month_starts (year : Z) : list Z := if _is_leap_year year then _DayNumberLeap else _DayNumber.

(** The tables of day numbers sum up those of the lengths of the months. *)
Lemma days_in_months_table year n : (n <= 12)%nat -> days_in_months year n = nth n (month_starts year) 0.
Proof.
  unfold month_starts. induction n as [|n IH]; intros Hn; [by destruct (_is_leap_year year)|].
  cbn [days_in_months]. rewrite IH by lia. unfold _days_in_month. clear IH.
  do 12 (destruct n as [|n]; [destruct (_is_leap_year year); reflexivity|]). lia.
Qed.

(** The formula for the days in the months before is right in both kinds of years. *)
Lemma months_formula year month :
  1 <= month <= 12 ->
  days_in_months year (Z.to_nat (month - 1)) =
    Z.quot (367 * month - 362) 12 -
    (if _is_leap_year year then (if 2 <? month then 1 else 0) else if 2 <? month then 2 else 0).
Proof.
  intros Hm. rewrite days_in_months_table by lia. unfold month_starts.
  enum_Z month 13%nat; [lia|..]; destruct (_is_leap_year year); reflexivity.
Qed.

(** Evaluates look-ups of known entries in known tables. *)
Ltac eval_nth :=
  repeat match goal with
  | |- context [nth ?n ?l ?d] => let v := eval vm_compute in (nth n l d) in change (nth n l d) with v
  end.

Lemma day_of_year year month day :
  1 <= month <= 12 -> 1 <= day <= _days_in_month month year ->
  0 <= days_in_months year (Z.to_nat (month - 1)) /\
  days_in_months year (Z.to_nat (month - 1)) + day <= (if _is_leap_year year then 366 else 365).
Proof.
  intros Hm Hd. rewrite days_in_months_table by lia. revert Hd. unfold _days_in_month, month_starts.
  enum_Z month 13%nat; [lia|..]; destruct (_is_leap_year year); eval_nth; lia.
Qed.

Lemma s32_small x : - 2 ^ 31 <= x < 2 ^ 31 -> s32 x = x.
Proof. intros Hx. unfold s32, u32. destruct (Z.ltb_spec (x mod 2 ^ 32) (2 ^ 31)); zlia. Qed.

Lemma days_in_years_range year :
  1 <= year <= 5000000 -> 0 <= days_in_years (Z.to_nat (year - 1)) /\ 365 * (year - 1) <= days_in_years (Z.to_nat (year - 1)) <= 366 * (year - 1).
Proof. intros Hy. rewrite days_in_years_closed, Z2Nat.id by lia. zlia. Qed.

(** The day number of a date, 1 January of the year 1 being day 1. *)
Definition day_number (year month day : Z) : Z :=
  days_in_years (Z.to_nat (year - 1)) + days_in_months year (Z.to_nat (month - 1)) + day.
Definition milliseconds (hour minute second millisecond : Z) : Z :=
  ((hour * 60 + minute) * 60 + second) * 1000 + millisecond.

(** Within their ranges the fields of the time carry nothing over. *)
Lemma set_spec year month day hour minute second millisecond :
  date_ok year month day -> time_ok hour minute second millisecond ->
  set year month day hour minute second millisecond =
    day_number year month day * ONE_DAY + milliseconds hour minute second millisecond.
Proof.
  intros (Hy & Hm & Hd) (Hh & Hmi & Hs & Hms). pose proof (day_of_year _ _ _ Hm Hd) as [H0 H1].
  pose proof (days_in_years_range _ Hy) as [H2 H3].
  assert (Hcarry : forall a b c, 0 <= b < c -> 0 <= a < 1000 -> s32 (a + Z.quot b c) = a).
  { intros a b c Hb Ha. rewrite Z.quot_small, Z.add_0_r by lia. apply s32_small. lia. }
  unfold set. rewrite (Hcarry second millisecond), (Hcarry minute second), (Hcarry hour minute) by lia.
  rewrite (Z.quot_small hour), !Z.rem_small, Z.add_0_r by lia.
  pose proof (months_formula year month Hm) as Hf. pose proof (days_in_years_closed (Z.to_nat (year - 1))) as Hc.
  cbv zeta in Hc. rewrite Z2Nat.id in Hc by lia. unfold day_number, milliseconds.
  rewrite (Z.quot_div_nonneg (year - 1)), (Z.quot_div_nonneg (year - 1)), (Z.quot_div_nonneg (year - 1)) by lia.
  rewrite <- Hc. set (formula := Z.quot (367 * month - 362) 12) in *.
  unfold ONE_DAY, ONE_HOUR, ONE_MINUTE, ONE_SECOND.
  destruct (_is_leap_year year), (2 <? month); rewrite s32_small by lia; lia.
Qed.

Lemma rem_step a b c : 0 <= b < c -> 0 <= a -> Z.rem (a * c + b) c = b.
Proof. intros Hb Ha. rewrite Z.rem_mod_nonneg, Z.add_comm, Z.mod_add by nia. apply Z.mod_small. lia. Qed.

Lemma quot_step a b c : 0 <= b < c -> 0 <= a -> Z.quot (a * c + b) c = a.
Proof. intros Hb Ha. rewrite Z.quot_div_nonneg, Z.add_comm, Z.div_add, Z.div_small by nia. lia. Qed.

Lemma get_time_spec n hour minute second millisecond :
  0 <= n -> time_ok hour minute second millisecond ->
  get_time (n * ONE_DAY + milliseconds hour minute second millisecond) = (hour, minute, second, millisecond).
Proof.
  intros Hn (Hh & Hmi & Hs & Hms). unfold get_time, milliseconds, ONE_DAY, ONE_HOUR, ONE_MINUTE, ONE_SECOND.
  rewrite rem_step, s32_small by lia.
  replace (((hour * 60 + minute) * 60 + second) * 1000 + millisecond)
    with (hour * 3600000 + (minute * 60000 + (second * 1000 + millisecond))) by lia.
  rewrite quot_step by lia. rewrite (Z.add_comm (hour * 3600000)), Z.add_simpl_r.
  rewrite quot_step by lia. rewrite (Z.add_comm (minute * 60000)), Z.add_simpl_r.
  rewrite quot_step by lia. by rewrite (Z.add_comm (second * 1000)), Z.add_simpl_r.
Qed.

(** The years before a date in cycles of 400, 100, 4 and 1. *)
Lemma year_cycles year k :
  1 <= year -> 0 <= k < year_length year ->
  exists a b c e,
    year - 1 = 400 * a + 100 * b + 4 * c + e /\ 0 <= a /\ 0 <= b < 4 /\ 0 <= c < 25 /\ 0 <= e < 4 /\
    days_in_years (Z.to_nat (year - 1)) = 146097 * a + 36524 * b + 1461 * c + 365 * e /\
    (k < 365 \/ k = 365 /\ e = 3 /\ (c < 24 \/ b = 3)).
Proof.
  intros Hy Hk. exists ((year - 1) / 400), ((year - 1) mod 400 / 100), ((year - 1) mod 100 / 4), ((year - 1) mod 4).
  rewrite days_in_years_closed, Z2Nat.id by lia. unfold year_length, leap in Hk.
  split_and!; [zlia.. |].
  destruct (Z.eqb_spec (year mod 4) 0), (Z.eqb_spec (year mod 100) 0), (Z.eqb_spec (year mod 400) 0);
    cbn [andb orb negb] in Hk; zlia.
Qed.

(** The part of [get_date] that finds the year and the day in it. *)
Definition year_day (prior : Z) : Z * Z :=
  let days400 := Z.rem prior 146097 in
  let years100 := Z.quot days400 36524 in
  let days100 := Z.rem days400 36524 in
  let days4 := Z.rem days100 1461 in
  let year1 := Z.quot days4 365 in
  let year := 400 * Z.quot prior 146097 + 100 * years100 + 4 * Z.quot days100 1461 + year1 in
  if (years100 =? 4) || (year1 =? 4) then (year, 366) else (year + 1, Z.rem days4 365 + 1).

Lemma year_day_spec year k :
  1 <= year -> 0 <= k < year_length year ->
  year_day (days_in_years (Z.to_nat (year - 1)) + k) = (year, k + 1).
Proof.
  intros Hy Hk. destruct (year_cycles year k Hy Hk) as (a & b & c & e & Ey & Ha & Hb & Hc & He & -> & Hcase).
  unfold year_day.
  replace (146097 * a + 36524 * b + 1461 * c + 365 * e + k) with (a * 146097 + (36524 * b + 1461 * c + 365 * e + k)) by lia.
  rewrite quot_step, rem_step by lia. destruct Hcase as [Hk' | (-> & -> & [Hc' | ->])].
  - replace (36524 * b + 1461 * c + 365 * e + k) with (b * 36524 + (1461 * c + 365 * e + k)) by lia.
    rewrite quot_step, rem_step by lia. replace (1461 * c + 365 * e + k) with (c * 1461 + (365 * e + k)) by lia.
    rewrite quot_step, rem_step by lia. replace (365 * e + k) with (e * 365 + k) by lia. rewrite quot_step, rem_step by lia.
    destruct (Z.eqb_spec b 4), (Z.eqb_spec e 4); try lia. cbn [orb]. f_equal; lia.
  - replace (36524 * b + 1461 * c + 365 * 3 + 365) with (b * 36524 + (1461 * c + 1460)) by lia.
    rewrite quot_step, rem_step by lia. replace (1461 * c + 1460) with (c * 1461 + 1460) by lia.
    rewrite quot_step, rem_step by lia. change (Z.quot 1460 365) with 4. rewrite orb_true_r. f_equal; lia.
  - destruct (Z.eq_dec c 24) as [->|Hc'].
    + change (36524 * 3 + 1461 * 24 + 365 * 3 + 365) with 146096.
      change (Z.quot 146096 36524) with 4. change (Z.rem 146096 36524) with 0. change (Z.quot 0 1461) with 0.
      change (Z.rem 0 1461) with 0. change (Z.quot 0 365) with 0. cbn [orb Z.eqb Pos.eqb]. f_equal; lia.
    + replace (36524 * 3 + 1461 * c + 365 * 3 + 365) with (3 * 36524 + (1461 * c + 1460)) by lia.
      rewrite quot_step, rem_step by lia. replace (1461 * c + 1460) with (c * 1461 + 1460) by lia.
      rewrite quot_step, rem_step by lia. change (Z.quot 1460 365) with 4. rewrite orb_true_r. f_equal; lia.
Qed.

(** The loop goes one month too far on the last day of a month, and out of its table on the last
    day of the year. *)
Lemma find_month_spec year month day :
  1 <= month <= 12 -> 1 <= day <= _days_in_month month year ->
  find_month (tl (month_starts year)) 0 (days_in_months year (Z.to_nat (month - 1)) + day) =
    if day <? _days_in_month month year then Ok (month - 1) else if month <? 12 then Ok month else Fault out_of_bounds.
Proof.
  intros Hm Hd. rewrite days_in_months_table by lia. revert Hd. unfold _days_in_month, month_starts.
  enum_Z month 13%nat; [lia|..]; destruct (_is_leap_year year); eval_nth; intros Hd; cbn [tl _DayNumber _DayNumberLeap];
    cbn [find_month]; repeat match goal with |- context [?a <=? ?b] => destruct (Z.leb_spec a b); try lia end;
    match goal with |- context [day <? ?b] => destruct (Z.ltb_spec day b) end; (lia || reflexivity).
Qed.

(** C36. Dates and times.  For every date of the Gregorian calendar and every time of a day, [set]
    yields the number of days since the start of the calendar, counted from one, and the
    milliseconds of the day.  [get_time] returns the time.  The loop of [get_date] ends, with
    the date again (its month counted from zero), except on the last day of a month, which it
    gives as day 0 of the month after, and on 31 December, when it reads past its table. *)
Theorem dates_are_days_of_the_calendar (year month day hour minute second millisecond : Z) :
  date_ok year month day -> time_ok hour minute second millisecond ->
  let t := set year month day hour minute second millisecond in
  t = day_number year month day * ONE_DAY + milliseconds hour minute second millisecond /\
  get_time t = (hour, minute, second, millisecond) /\
  get_date t =
    if day <? _days_in_month month year then Ok (year, month - 1, day)
    else if month <? 12 then Ok (year, month, 0) else Fault out_of_bounds.
Proof.
  intros Hd Ht t. pose proof Hd as (Hy & Hm & Hday). pose proof (set_spec _ _ _ _ _ _ _ Hd Ht) as E. fold t in E.
  pose proof (day_of_year _ _ _ Hm Hday) as [H0 H1]. pose proof (days_in_years_range _ Hy) as [H2 H3].
  assert (Hpos : 0 <= day_number year month day) by (unfold day_number; lia).
  split; [done|]. split; [rewrite E; by apply get_time_spec|].
  assert (Hms : 0 <= milliseconds hour minute second millisecond < ONE_DAY).
  { destruct Ht as (? & ? & ? & ?). unfold milliseconds, ONE_DAY. lia. }
  unfold get_date. rewrite E, quot_step by done. rewrite s32_small by (unfold day_number in *; destruct (_is_leap_year year); lia).
  set (k := days_in_months year (Z.to_nat (month - 1)) + day - 1).
  assert (Hk : 0 <= k < year_length year).
  { unfold k, year_length. rewrite <- leap_year_spec by lia. destruct (_is_leap_year year); lia. }
  replace (day_number year month day - 1) with (days_in_years (Z.to_nat (year - 1)) + k) by (unfold day_number, k; lia).
  pose proof (year_day_spec year k ltac:(lia) Hk) as Hyd. unfold year_day in Hyd.
  set (prior := days_in_years _ + k) in *. cbv zeta in *.
  set (leap_end := (_ =? 4) || _) in *.
  match type of Hyd with (if _ then (?y, _) else _) = _ => set (y0 := y) in * end.
  assert (Hyear : (if leap_end then y0 else y0 + 1) = year /\
    (if leap_end then 366 else Z.rem (Z.rem (Z.rem (Z.rem prior 146097) 36524) 1461) 365 + 1) = k + 1)
    by (destruct leap_end; injection Hyd as -> ->; done).
  destruct Hyear as [-> ->]. fold (month_starts year). replace (k + 1) with (days_in_months year (Z.to_nat (month - 1)) + day) by (unfold k; lia).
  rewrite find_month_spec by done. pose proof (days_in_months_table year (Z.to_nat (month - 1)) ltac:(lia)) as Ht1.
  destruct (Z.ltb_spec day (_days_in_month month year)) as [Hlt|Hge]; cbn [mbind result_bind]; [do 2 f_equal; lia|].
  destruct (Z.ltb_spec month 12); [|done]. cbn [mbind result_bind]. do 2 f_equal.
  rewrite <- days_in_months_table by lia. replace (Z.to_nat month) with (S (Z.to_nat (month - 1))) by lia.
  cbn [days_in_months]. replace (Z.of_nat (S (Z.to_nat (month - 1)))) with month by lia. lia.
Qed.

Lemma dates_are_days_of_the_calendar_witness :
  (date_ok 2012 2 29 /\ time_ok 23 59 59 999) /\
  let t := set 2012 2 29 23 59 59 999 in
  t = 734562 * ONE_DAY + milliseconds 23 59 59 999 /\
  get_time t = (23, 59, 59, 999) /\ get_date t = Ok (2012, 2, 0).
Proof.
  assert (Hd : date_ok 2012 2 29) by (vm_compute; intuition congruence).
  assert (Ht : time_ok 23 59 59 999) by (vm_compute; intuition congruence).
  split; [done|]. destruct (dates_are_days_of_the_calendar 2012 2 29 23 59 59 999 Hd Ht) as (_ & H2 & H3).
  split; [reflexivity|]. split; [exact H2 | exact H3].
Defined.
End time.
