(* ===== verification/Array.v ===== *)
(** * Arrays: core/array.h, and the copies of algorithm_templates.h and construct.h

    The growing array behind the worker queue, the introductions and the addresses of a
    pending connection.  A block of memory is a list of slots, each with the object that
    lives in it; using a slot without one is the fault [dead_object].  Whatever operations
    of the class a program performs, the array behaves like a list ([array_refines_list]).

    [insert] is not modelled: it calls [copy_backwards], which is declared nowhere, so no
    program that uses it compiles. *)
From S2P Require Import Prelude.
#[local] Open Scope Z_scope.

Module array.

(** What the traits of base_type_traits.h say of an element type - scalars and pointers are
    trivial, classes are not - with its size in bytes. *)
Record element_type : Type := mk_element { is_trivial : bool; sizeof : Z }.
Definition pointer_size : Z := 8.

Section array.
Context {A : Type} (type : element_type) (default : A).

(** ** Objects in memory *)
Notation block := (list (option A)).

(** [memory_allocate] *)
Definition memory_allocate (n : Z) : block := replicate (Z.to_nat n) None.

Definition live (slot : option A) : bool := match slot with Some _ => true | None => false end.

(** [construct(ptr, x)], and [*ptr] *)
Definition construct (b : block) (i : Z) (x : A) : result block :=
  _ ← require ((0 <=? i) && (i <? Z.of_nat (length b))) out_of_bounds; Ok (<[Z.to_nat i := Some x]> b).
Definition object (b : block) (i : Z) : result A :=
  _ ← require (0 <=? i) out_of_bounds;
  slot ← of_option out_of_bounds (b !! Z.to_nat i); of_option dead_object slot.

(** The loops over [[ptr, end)] of construct.h; those for trivial types do nothing. *)
Fixpoint construct_loop (n i : nat) (b : block) : result block :=
  match n with
  | O => Ok b
  | S n => b ← construct b (Z.of_nat i) default; construct_loop n (S i) b
  end.
Definition construct_range (b : block) (ptr end_ : Z) : result block :=
  if is_trivial type then Ok b
  else _ ← require (ptr <=? end_) out_of_bounds; construct_loop (Z.to_nat (end_ - ptr)) (Z.to_nat ptr) b.

Fixpoint destroy_loop (n i : nat) (b : block) : result block :=
  match n with
  | O => Ok b
  | S n =>
      slot ← of_option out_of_bounds (b !! i);
      _ ← require (live slot) dead_object;
      destroy_loop n (S i) (<[i := None]> b)
  end.
Definition destroy (b : block) (ptr end_ : Z) : result block :=
  if is_trivial type then Ok b
  else _ ← require (0 <=? ptr) out_of_bounds; _ ← require (ptr <=? end_) out_of_bounds;
       destroy_loop (Z.to_nat (end_ - ptr)) (Z.to_nat ptr) b.

(** How a slot is copied: by the assignment of its class, by its copy constructor, or as bytes. *)
Inductive copy_kind : Type := assigning | constructing | raw.
Definition copy_allowed (k : copy_kind) (from to : option A) : bool :=
  match k with assigning => live from && live to | constructing => live from | raw => true end.

Definition source (src : option block) (b : block) : block := match src with Some s => s | None => b end.

(** The loops of [copy_aux] and [ucopy_is_trivial], from [i] of the source - the block itself
    if there is no other - to [j]; [memcpy] copies the bytes in this order as well. *)
Fixpoint copy_loop (k : copy_kind) (n : nat) (src : option block) (i : nat) (b : block) (j : nat) : result block :=
  match n with
  | O => Ok b
  | S n =>
      from ← of_option out_of_bounds (source src b !! i);
      to ← of_option out_of_bounds (b !! j);
      _ ← require (copy_allowed k from to) dead_object;
      copy_loop k n src (S i) (<[j := from]> b) (S j)
  end.

(** What trivial types copy is [(end - src) * sizeof(src_type)] bytes, the size of a pointer
    for each object. *)
Definition copy_with (k : copy_kind) (src : option block) (from end_ : Z) (b : block) (dst : Z) : result block :=
  _ ← require ((0 <=? from) && (from <=? end_) && (0 <=? dst)) out_of_bounds;
  let k := if is_trivial type then raw else k in
  let n := if is_trivial type then (end_ - from) * pointer_size / sizeof type else end_ - from in
  copy_loop k (Z.to_nat n) src (Z.to_nat from) b (Z.to_nat dst).
Definition copy := copy_with assigning.
Definition uninitialized_copy := copy_with constructing.

(** [memory_reallocate] *)
Definition memory_reallocate (b : block) (n : Z) : block :=
  take (Z.to_nat n) b ++ replicate (Z.to_nat n - length b) None.

(** ** The class *)
Record array : Type := mk_array { _public_size : Z; _array_size : Z; _array : block }.

Definition grow_to (public_size : Z) : Z := u32 (public_size + public_size / 2).
Definition shrink_to (public_size array_size : Z) : Z :=
  if public_size <? array_size / 2 then u32 (public_size + public_size / 2) else array_size.

Definition empty_array : array := mk_array 0 0 [].
Definition reserved (initial_reserve : Z) : array := mk_array 0 initial_reserve (memory_allocate initial_reserve).

Definition size (a : array) : Z := _public_size a.
Definition capacity (a : array) : Z := _array_size a.
Definition is_empty (a : array) : bool := _public_size a =? 0.
Definition at_index (a : array) (index : Z) : result A := object (_array a) index.
Definition first (a : array) : result A := at_index a 0.
Definition last (a : array) : result A := at_index a (u32 (_public_size a - 1)).

Definition _resize (size : Z) (a : array) : result array :=
  _ ← require (_public_size a <=? size) assertion_failed;
  if is_trivial type then Ok (mk_array (_public_size a) size (memory_reallocate (_array a) size))
  else
    new_array ← uninitialized_copy (Some (_array a)) 0 (_public_size a) (memory_allocate size) 0;
    _ ← destroy (_array a) 0 (_public_size a);
    Ok (mk_array (_public_size a) size new_array).

Definition reserve (size : Z) (a : array) : result array :=
  if _array_size a <? size then _resize size a else Ok a.

Definition resize (size : Z) (a : array) : result array :=
  if _public_size a <? size then
    a ← (if _array_size a <? size then _resize (grow_to size) a else Ok a);
    b ← construct_range (_array a) (_public_size a) size;
    Ok (mk_array size (_array_size a) b)
  else if size <? _public_size a then
    b ← destroy (_array a) size (_public_size a);
    let a := mk_array size (_array_size a) b in
    let new_size := shrink_to size (_array_size a) in
    if negb (new_size =? _array_size a) then _resize new_size a else Ok a
  else Ok a.

Definition compact (a : array) : result array :=
  if _public_size a <? _array_size a then _resize (_public_size a) a else Ok a.

Definition clear (a : array) : result array :=
  _ ← destroy (_array a) 0 (_public_size a); Ok empty_array.

(** The argument of [push_back] is a reference, maybe to an element of this array. *)
Inductive reference : Type := outside (x : A) | element (index : Z).

Definition push_back (x : reference) (a : array) : result array :=
  let grows := _array_size a <? u32 (_public_size a + 1) in
  a ← (if grows then _resize (grow_to (u32 (_public_size a + 1))) a else Ok a);
  v ← match x with
      | outside v => Ok v
      | element index => if grows then Fault dead_object else object (_array a) index
      end;
  b ← construct (_array a) (_public_size a) v;
  Ok (mk_array (u32 (_public_size a + 1)) (_array_size a) b).

(** [destroy(&last())] *)
Definition destroy_last (a : array) (b : block) : result block :=
  let i := u32 (_public_size a - 1) in destroy b i (i + 1).

Definition erase (index : Z) (a : array) : result array :=
  let public_size := u32 (_public_size a - 1) in
  let new_size := shrink_to public_size (_array_size a) in
  if is_trivial type then
    b ← copy None (index + 1) (_public_size a) (_array a) index;
    b ← destroy_last a b;
    _ ← require (public_size <=? new_size) assertion_failed;
    Ok (if negb (new_size =? _array_size a) then mk_array public_size new_size (memory_reallocate b new_size)
        else mk_array public_size (_array_size a) b)
  else if negb (new_size =? _array_size a) then
    _ ← require (public_size <=? new_size) assertion_failed;
    new_array ← uninitialized_copy (Some (_array a)) 0 index (memory_allocate new_size) 0;
    new_array ← uninitialized_copy (Some (_array a)) (index + 1) (_public_size a) new_array index;
    _ ← destroy (_array a) 0 (_public_size a);
    Ok (mk_array public_size new_size new_array)
  else
    b ← copy None (index + 1) (_public_size a) (_array a) index;
    b ← destroy_last a b;
    Ok (mk_array public_size (_array_size a) b).

Definition pop_front (a : array) : result array := erase 0 a.

Definition pop_back (a : array) : result array :=
  b ← destroy_last a (_array a);
  let public_size := u32 (_public_size a - 1) in
  let size := shrink_to public_size (_array_size a) in
  let a := mk_array public_size (_array_size a) b in
  if negb (size =? _array_size a) then _resize size a else Ok a.

(** [array[index] = x], and [swap] of two elements. *)
Definition set_index (index : Z) (x : A) (a : array) : result array :=
  _ ← at_index a index;
  Ok (mk_array (_public_size a) (_array_size a) (<[Z.to_nat index := Some x]> (_array a))).
Definition swap (i j : Z) (a : array) : result array :=
  temp ← at_index a i;
  y ← at_index a j;
  a ← set_index i y a;
  set_index j temp a.

Definition erase_unstable (index : Z) (a : array) : result array :=
  a ← (if negb (index =? _public_size a - 1) then swap index (u32 (_public_size a - 1)) a else Ok a);
  pop_back a.

(** [operator=] *)
Definition assign (p a : array) : result array :=
  if negb (_array_size a =? _array_size p) then
    _ ← destroy (_array a) 0 (_public_size a);
    b ← uninitialized_copy (Some (_array p)) 0 (_public_size p) (memory_allocate (_array_size p)) 0;
    Ok (mk_array (_public_size p) (_array_size p) b)
  else if _public_size p <? _public_size a then
    b ← destroy (_array a) (_public_size p) (_public_size a);
    b ← copy (Some (_array p)) 0 (_public_size p) b 0;
    Ok (mk_array (_public_size p) (_array_size a) b)
  else
    b ← copy (Some (_array p)) 0 (_public_size a) (_array a) 0;
    b ← uninitialized_copy (Some (_array p)) (_public_size a) (_public_size p) b (_public_size a);
    Ok (mk_array (_public_size p) (_array_size a) b).
Definition copy_constructor (p : array) : result array := assign p empty_array.

(** ** What the memory operations do *)
Lemma source_insert src b j x m :
  (src = None -> (j < m)%nat) -> source src (<[j := x]> b) !! m = source src b !! m.
Proof. destruct src; [done|]. intros Hm. cbn [source]. apply list_lookup_insert_ne. specialize (Hm eq_refl). lia. Qed.

Lemma copy_loop_spec k n src i b j :
  (i + n <= length (source src b))%nat -> (j + n <= length b)%nat -> (src = None -> (j <= i)%nat) ->
  (forall m x y, (m < n)%nat -> source src b !! (i + m)%nat = Some x -> b !! (j + m)%nat = Some y ->
    copy_allowed k x y = true) ->
  copy_loop k n src i b j = Ok (take j b ++ take n (drop i (source src b)) ++ drop (j + n) b).
Proof.
  revert i b j. induction n as [|n IH]; intros i b j Hi Hj Hij Hok; cbn [copy_loop].
  { rewrite Nat.add_0_r, (take_0 (drop i _)). cbn [app]. by rewrite take_drop. }
  destruct (lookup_lt_is_Some_2 (source src b) i ltac:(lia)) as [x Hx].
  destruct (lookup_lt_is_Some_2 b j ltac:(lia)) as [y Hy].
  rewrite Hx, Hy. cbn [of_option mbind result_bind].
  rewrite (Hok 0%nat x y) by (rewrite ?Nat.add_0_r; (done || lia)). cbn [require mbind result_bind].
  assert (Hlen : length (source src (<[j := x]> b)) = length (source src b)) by (destruct src; cbn; by rewrite ?length_insert).
  rewrite IH; rewrite ?Hlen, ?length_insert; try lia.
  - assert (Hd : drop (S i) (source src (<[j := x]> b)) = drop (S i) (source src b)).
    { apply list_eq. intros m. rewrite !lookup_drop, source_insert; [done|]. intros Hs. specialize (Hij Hs). lia. }
    rewrite Hd, (drop_S _ x i Hx), firstn_cons, drop_insert_lt by lia.
    rewrite (take_S_r _ _ x) by (apply list_lookup_insert_eq; lia). rewrite take_insert_ge by lia.
    rewrite <- app_assoc. cbn [app]. do 4 f_equal. f_equal. lia.
  - intros Hs. specialize (Hij Hs). lia.
  - intros m x' y' Hm Hx' Hy'. rewrite source_insert in Hx' by (intros Hs; specialize (Hij Hs); lia).
    rewrite list_lookup_insert_ne in Hy' by lia.
    apply (Hok (S m)); [lia | rewrite <- Hx'; f_equal; lia | rewrite <- Hy'; f_equal; lia].
Qed.

Lemma destroy_loop_spec n i b :
  (i + n <= length b)%nat -> (forall m x, (m < n)%nat -> b !! (i + m)%nat = Some x -> live x = true) ->
  destroy_loop n i b = Ok (take i b ++ replicate n None ++ drop (i + n) b).
Proof.
  revert i b. induction n as [|n IH]; intros i b Hi Hl; cbn [destroy_loop].
  { rewrite Nat.add_0_r. cbn [replicate app]. by rewrite take_drop. }
  destruct (lookup_lt_is_Some_2 b i ltac:(lia)) as [x Hx]. rewrite Hx. cbn [of_option mbind result_bind].
  rewrite (Hl 0%nat x) by (rewrite ?Nat.add_0_r; (done || lia)). cbn [require mbind result_bind].
  rewrite IH.
  - rewrite drop_insert_lt by lia. rewrite (take_S_r _ _ None) by (apply list_lookup_insert_eq; lia).
    rewrite take_insert_ge by lia. rewrite <- app_assoc. cbn [app replicate]. do 4 f_equal. f_equal. lia.
  - rewrite length_insert. lia.
  - intros m y Hm Hy. rewrite list_lookup_insert_ne in Hy by lia. apply (Hl (S m)); [lia|]. rewrite <- Hy. f_equal. lia.
Qed.

Lemma construct_loop_spec n i b :
  (i + n <= length b)%nat -> construct_loop n i b = Ok (take i b ++ replicate n (Some default) ++ drop (i + n) b).
Proof.
  revert i b. induction n as [|n IH]; intros i b Hi; cbn [construct_loop].
  { rewrite Nat.add_0_r. cbn [replicate app]. by rewrite take_drop. }
  unfold construct. destruct (Z.leb_spec 0 (Z.of_nat i)); [|lia]. destruct (Z.ltb_spec (Z.of_nat i) (Z.of_nat (length b))); [|lia].
  cbn [andb require mbind result_bind]. rewrite Nat2Z.id, IH by (rewrite length_insert; lia).
  rewrite drop_insert_lt by lia. rewrite (take_S_r _ _ (Some default)) by (apply list_lookup_insert_eq; lia).
  rewrite take_insert_ge by lia. rewrite <- app_assoc. cbn [app replicate]. do 4 f_equal. f_equal. lia.
Qed.

(** ** Arrays and lists *)

(** The copies of trivial types are right for those of the size of a pointer. *)
Definition type_ok : Prop := is_trivial type = true -> sizeof type = pointer_size.

(** The array has the elements [l], and memory without objects behind them. *)
Record holds (a : array) (l : list A) : Prop := {
  ho_size : _public_size a = Z.of_nat (length l);
  ho_capacity : _array_size a = Z.of_nat (length (_array a));
  ho_width : is_u32 (_array_size a);
  ho_slots : exists rest, _array a = (Some <$> l) ++ rest /\
    (is_trivial type = false -> rest = replicate (length rest) None)
}.

Lemma holds_mk l rest :
  is_u32 (Z.of_nat (length l + length rest)) -> (is_trivial type = false -> rest = replicate (length rest) None) ->
  holds (mk_array (Z.of_nat (length l)) (Z.of_nat (length l + length rest)) ((Some <$> l) ++ rest)) l.
Proof. intros Hw Hr. split; cbn; [done | by rewrite length_app, length_fmap | done | by exists rest]. Qed.

(** Every array that holds a list is of this form. *)
Lemma holds_inv a l :
  holds a l -> exists rest, a = mk_array (Z.of_nat (length l)) (Z.of_nat (length l + length rest)) ((Some <$> l) ++ rest) /\
    is_u32 (Z.of_nat (length l + length rest)) /\ (is_trivial type = false -> rest = replicate (length rest) None).
Proof.
  destruct a as [n c b]. intros [Hs Hc Hw (rest & Hb & Hr)]. cbn in *. subst. exists rest.
  rewrite length_app, length_fmap in *. done.
Qed.

Lemma lives (l : list A) : Forall (fun x => live x = true) (Some <$> l).
Proof. apply Forall_fmap. by apply Forall_true. Qed.

(** Copying elements that live, on memory that suits. *)
Lemma copy_with_spec k (from : list (option A)) src b i n j :
  type_ok -> source src b = from -> (i + n <= length from)%nat -> (j + n <= length b)%nat -> (src = None -> (j <= i)%nat) ->
  k <> raw -> Forall (fun x => live x = true) (take n (drop i from)) ->
  (is_trivial type = false -> k = assigning -> Forall (fun x => live x = true) (take n (drop j b))) ->
  copy_with k src (Z.of_nat i) (Z.of_nat (i + n)) b (Z.of_nat j) = Ok (take j b ++ take n (drop i from) ++ drop (j + n) b).
Proof.
  intros Ht Hs Hi Hj Hij Hk Hl Ha. unfold copy_with.
  destruct (Z.leb_spec 0 (Z.of_nat i)); [|lia]. destruct (Z.leb_spec (Z.of_nat i) (Z.of_nat (i + n))); [|lia].
  destruct (Z.leb_spec 0 (Z.of_nat j)); [|lia]. cbn [andb require mbind result_bind].
  assert (Hn : (if is_trivial type then (Z.of_nat (i + n) - Z.of_nat i) * pointer_size / sizeof type
    else Z.of_nat (i + n) - Z.of_nat i) = Z.of_nat n).
  { destruct (is_trivial type) eqn:E; [|lia]. rewrite (Ht E), Z.div_mul by done. lia. }
  rewrite Hn, !Nat2Z.id, <- Hs. apply copy_loop_spec; rewrite ?Hs; try done.
  intros m x y Hm Hx Hy. destruct (is_trivial type); [done|].
  assert (live x = true) as Hlx.
  { rewrite Forall_lookup in Hl. apply (Hl m). rewrite lookup_take_lt, lookup_drop by lia. done. }
  destruct k; cbn; rewrite ?Hlx; [|done | done]. cbn.
  specialize (Ha eq_refl eq_refl). rewrite Forall_lookup in Ha. apply (Ha m). rewrite lookup_take_lt, lookup_drop by lia. done.
Qed.

Lemma destroy_spec (b : block) i n :
  (i + n <= length b)%nat -> Forall (fun x => live x = true) (take n (drop i b)) ->
  destroy b (Z.of_nat i) (Z.of_nat (i + n)) =
    Ok (if is_trivial type then b else take i b ++ replicate n None ++ drop (i + n) b).
Proof.
  intros Hi Hl. unfold destroy. destruct (is_trivial type); [done|].
  destruct (Z.leb_spec 0 (Z.of_nat i)); [|lia]. destruct (Z.leb_spec (Z.of_nat i) (Z.of_nat (i + n))); [|lia].
  cbn [require mbind result_bind]. replace (Z.to_nat (Z.of_nat (i + n) - Z.of_nat i)) with n by lia.
  rewrite Nat2Z.id. apply destroy_loop_spec; [done|]. intros m x Hm Hx.
  rewrite Forall_lookup in Hl. apply (Hl m). rewrite lookup_take_lt, lookup_drop by lia. done.
Qed.

(** The sizes an array may have without its reserve wrapping around. *)
Definition max_elements : Z := 2 ^ 31.

Lemma grow_to_spec n : 0 <= n <= max_elements -> n <= grow_to n /\ is_u32 (grow_to n).
Proof. unfold grow_to, max_elements. intros Hn. rewrite u32_small by zlia. zlia. Qed.

Lemma shrink_to_spec n c :
  0 <= n <= c -> is_u32 c -> n <= shrink_to n c /\ is_u32 (shrink_to n c) /\ shrink_to n c <= 2 * n + 1.
Proof.
  unfold shrink_to. intros Hn Hc. destruct (Z.ltb_spec n (c / 2)); [rewrite u32_small by zlia|]; zlia.
Qed.

(** Resizing keeps the elements. *)
Lemma resize_spec size a l :
  type_ok -> holds a l -> Z.of_nat (length l) <= size -> is_u32 size ->
  exists a', _resize size a = Ok a' /\ holds a' l /\ _array_size a' = size.
Proof.
  intros Ht (rest & -> & Hw & Hr)%holds_inv Hs Hsz. unfold _resize. cbn [_public_size _array].
  destruct (Z.leb_spec (Z.of_nat (length l)) size); [|lia]. cbn [require mbind result_bind].
  set (m := (Z.to_nat size - length l)%nat).
  assert (Hm : Z.of_nat (length l + m) = size) by lia.
  destruct (is_trivial type) eqn:E.
  - eexists. split; [done|]. split; [|done]. unfold memory_reallocate.
    rewrite take_app_ge, length_app, length_fmap, <- app_assoc by (rewrite length_fmap; lia).
    split; cbn; [done | | done |].
    + rewrite !length_app, length_take, length_replicate, length_fmap. lia.
    + eexists. split; [done|]. by rewrite E.
  - specialize (Hr eq_refl). pose proof (copy_with_spec constructing ((Some <$> l) ++ rest) (Some ((Some <$> l) ++ rest)) (memory_allocate size) 0
      (length l) 0 Ht eq_refl) as Hcopy. rewrite drop_0, take_app_le, take_ge in Hcopy by (rewrite length_fmap; lia).
    cbn [Nat.add] in Hcopy. change (Z.of_nat 0) with 0 in Hcopy.
    unfold uninitialized_copy. rewrite Hcopy; try done.
    2: { rewrite length_app, length_fmap. lia. } 2: { unfold memory_allocate. rewrite length_replicate. lia. } 2: apply lives.
    cbn [mbind result_bind].
    pose proof (destroy_spec ((Some <$> l) ++ rest) 0 (length l)) as Hd. cbn [Nat.add] in Hd. change (Z.of_nat 0) with 0 in Hd.
    rewrite Hd; cycle 1.
    { rewrite length_app, length_fmap. lia. }
    { rewrite drop_0, take_app_le, take_ge by (rewrite length_fmap; lia). apply lives. }
    cbn [mbind result_bind]. eexists. split; [done|]. split; [|done]. rewrite (take_0 (memory_allocate _)). cbn [app].
    unfold memory_allocate. rewrite drop_replicate. split; cbn; [done | | done |].
    + rewrite length_app, length_fmap, length_replicate. lia.
    + eexists. split; [done|]. by rewrite length_replicate.
Qed.

Lemma reserve_spec n a l :
  type_ok -> holds a l -> is_u32 n -> exists a', reserve n a = Ok a' /\ holds a' l.
Proof.
  intros Ht Hh Hn. unfold reserve. destruct (Z.ltb_spec (_array_size a) n); [|by exists a].
  destruct (resize_spec n a l Ht Hh) as (a' & E & Ha & _); [|done | by exists a'].
  apply holds_inv in Hh as (rest & -> & _). cbn in *. lia.
Qed.

(** There is room behind the elements. *)
Lemma construct_behind l x slot rest :
  construct ((Some <$> l) ++ slot :: rest) (Z.of_nat (length l)) x = Ok ((Some <$> (l ++ [x])) ++ rest).
Proof.
  unfold construct. destruct (Z.leb_spec 0 (Z.of_nat (length l))); [|lia].
  destruct (Z.ltb_spec (Z.of_nat (length l)) (Z.of_nat (length ((Some <$> l) ++ slot :: rest)))) as [|Hx];
    [|rewrite length_app, length_fmap in Hx; cbn in Hx; lia].
  cbn [andb require mbind result_bind]. rewrite Nat2Z.id, insert_app_r_alt, length_fmap, Nat.sub_diag by (by rewrite length_fmap).
  by rewrite fmap_app, <- app_assoc.
Qed.

Lemma object_spec l rest i x :
  l !! i = Some x -> object ((Some <$> l) ++ rest) (Z.of_nat i) = Ok x.
Proof.
  intros Hx. unfold object. destruct (Z.leb_spec 0 (Z.of_nat i)); [|lia]. cbn [require mbind result_bind].
  rewrite Nat2Z.id, lookup_app_l by (rewrite length_fmap; by eapply lookup_lt_Some). by rewrite list_lookup_fmap, Hx.
Qed.

Definition full (a : array) : Prop := _public_size a = _array_size a.

(** A reference the array can take: not one into itself when it has to grow. *)
Definition refers (a : array) (l : list A) (r : reference) (x : A) : Prop :=
  match r with
  | outside y => y = x
  | element i => 0 <= i /\ l !! Z.to_nat i = Some x /\ ~ full a
  end.

Lemma push_back_spec r x a l :
  type_ok -> holds a l -> Z.of_nat (length l) < max_elements -> refers a l r x ->
  exists a', push_back r a = Ok a' /\ holds a' (l ++ [x]).
Proof.
  intros Ht Hh Hl Hr. pose proof (holds_inv a l Hh) as (rest & Ea & Hw & Hre). unfold push_back.
  assert (Hu : u32 (_public_size a + 1) = Z.of_nat (length l) + 1).
  { rewrite Ea. cbn. unfold max_elements in Hl. apply u32_small. zlia. }
  rewrite Hu.
  assert (Hroom : exists b, (if _array_size a <? Z.of_nat (length l) + 1 then _resize (grow_to (Z.of_nat (length l) + 1)) a
      else Ok a) = Ok b /\ holds b l /\ Z.of_nat (length l) < _array_size b /\ (~ full a -> b = a)).
  { destruct (Z.ltb_spec (_array_size a) (Z.of_nat (length l) + 1)).
    - destruct (grow_to_spec (Z.of_nat (length l) + 1)) as [Hg1 Hg2]; [lia|].
      destruct (resize_spec (grow_to (Z.of_nat (length l) + 1)) a l Ht Hh) as (b & E & Hb & Hc); [lia | done |].
      exists b. split; [done|]. split; [done|]. split; [lia|]. intros Hf. destruct Hf. unfold full. rewrite Ea in *. cbn in *. lia.
    - exists a. split; [done|]. split; [done|]. split; [lia | done]. }
  destruct Hroom as (b & Eb & Hb & Hc & Hsame). rewrite Eb. cbn [mbind result_bind].
  apply holds_inv in Hb as (rest' & -> & Hw' & Hre'). cbn [_public_size _array_size _array] in *.
  destruct rest' as [|slot rest']; [cbn in Hc; lia|].
  assert (Hv : match r with outside v => Ok v | element index =>
      if _array_size a <? Z.of_nat (length l) + 1 then Fault dead_object
      else object ((Some <$> l) ++ slot :: rest') index end = Ok x).
  { destruct r as [y|i]; cbn in Hr; [by subst|]. destruct Hr as (Hi & Hx & Hf).
    destruct (Z.ltb_spec (_array_size a) (Z.of_nat (length l) + 1)).
    - destruct Hf. unfold full. rewrite Ea in *. cbn in *. lia.
    - rewrite <- (Z2Nat.id i) by lia. by apply object_spec. }
  rewrite Hv. cbn [mbind result_bind]. rewrite construct_behind. cbn [mbind result_bind]. eexists. split; [done|].
  rewrite u32_small by (unfold max_elements in Hl; zlia).
  replace (Z.of_nat (length l) + 1) with (Z.of_nat (length (l ++ [x]))) by (rewrite length_app; cbn; lia).
  replace (length l + length (slot :: rest'))%nat with (length (l ++ [x]) + length rest')%nat
    by (rewrite length_app; cbn; lia).
  apply holds_mk; [|].
  - rewrite length_app. cbn in *. replace (length l + 1 + length rest')%nat with (length l + S (length rest'))%nat by lia. done.
  - intros E. specialize (Hre' E). by injection Hre' as _ Hre'.
Qed.

Lemma push_back_own_element i a l :
  holds a l -> full a -> Z.of_nat (length l) < max_elements -> type_ok -> push_back (element i) a = Fault dead_object.
Proof.
  intros Hh Hf Hl Ht. unfold push_back. pose proof (holds_inv a l Hh) as (rest & Ea & Hw & _).
  assert (Hu : u32 (_public_size a + 1) = Z.of_nat (length l) + 1).
  { rewrite Ea. cbn. unfold max_elements in Hl. apply u32_small. zlia. }
  rewrite Hu. assert (Hc : (_array_size a <? Z.of_nat (length l) + 1) = true).
  { apply Z.ltb_lt. unfold full in Hf. rewrite Ea in *. cbn in *. lia. }
  rewrite Hc. destruct (grow_to_spec (Z.of_nat (length l) + 1)) as [Hg1 Hg2]; [lia|].
  destruct (resize_spec (grow_to (Z.of_nat (length l) + 1)) a l Ht Hh) as (b & -> & _); [lia | done | done].
Qed.

(** The object behind the last element but one is destroyed. *)
Lemma destroy_last_spec a l z rest :
  _public_size a = Z.of_nat (S (length l)) -> Z.of_nat (S (length l)) <= max_elements ->
  exists slot, destroy_last a ((Some <$> l) ++ Some z :: rest) = Ok ((Some <$> l) ++ slot :: rest) /\
    (is_trivial type = false -> slot = None).
Proof.
  intros Hs Hm. unfold destroy_last. rewrite Hs, u32_small by (unfold max_elements in Hm; zlia).
  replace (Z.of_nat (S (length l)) - 1) with (Z.of_nat (length l)) by lia.
  replace (Z.of_nat (length l) + 1) with (Z.of_nat (length l + 1)) by lia.
  assert (Hdrop : drop (length l) ((Some <$> l) ++ Some z :: rest) = Some z :: rest)
    by (rewrite drop_app_ge, length_fmap, Nat.sub_diag by (by rewrite length_fmap); done).
  rewrite destroy_spec.
  - destruct (is_trivial type); [by exists (Some z)|]. exists None. split; [|done].
    rewrite take_app_le, take_ge by (rewrite length_fmap; lia). rewrite <- drop_drop, Hdrop. done.
  - rewrite length_app, length_fmap. cbn. lia.
  - rewrite Hdrop. cbn. by constructor.
Qed.

(** Giving memory back after an element has gone. *)
Lemma shrink_spec a l :
  type_ok -> holds a l ->
  exists a', (let size := shrink_to (_public_size a) (_array_size a) in
    if negb (size =? _array_size a) then _resize size a else Ok a) = Ok a' /\ holds a' l /\
    _array_size a' <= 2 * Z.of_nat (length l) + 1.
Proof.
  intros Ht Hh. pose proof (holds_inv a l Hh) as (rest & Ea & Hw & _). cbn zeta.
  destruct (shrink_to_spec (_public_size a) (_array_size a)) as (H1 & H2 & H3).
  { rewrite Ea. cbn. lia. } { rewrite Ea. done. }
  assert (Hs : _public_size a = Z.of_nat (length l)) by (by rewrite Ea). rewrite Hs in *.
  destruct (Z.eqb_spec (shrink_to (Z.of_nat (length l)) (_array_size a)) (_array_size a)) as [E|]; cbn [negb].
  - exists a. split; [done|]. split; [done | lia].
  - destruct (resize_spec _ a l Ht Hh H1 H2) as (a' & E & Ha & Hc). exists a'. split; [done|]. split; [done | lia].
Qed.

Lemma pop_back_spec a l z :
  type_ok -> holds a (l ++ [z]) -> Z.of_nat (S (length l)) <= max_elements ->
  exists a', pop_back a = Ok a' /\ holds a' l /\ _array_size a' <= 2 * Z.of_nat (length l) + 1.
Proof.
  intros Ht Hh Hm. apply holds_inv in Hh as (rest & -> & Hw & Hr). rewrite fmap_app, <- app_assoc. cbn [app fmap list_fmap].
  rewrite !length_app in *. cbn [length] in *. rewrite Nat.add_1_r in *. unfold pop_back. cbn [_public_size _array_size _array].
  match goal with |- context [destroy_last ?u _] => set (a0 := u) end.
  destruct (destroy_last_spec a0 l z rest eq_refl Hm) as (slot & E & Hslot). rewrite E. cbn [mbind result_bind].
  rewrite u32_small by (unfold max_elements in Hm; zlia).
  replace (Z.of_nat (S (length l)) - 1) with (Z.of_nat (length l)) by lia.
  replace (S (length l) + length rest)%nat with (length l + length (slot :: rest))%nat in * by (cbn; lia).
  apply (shrink_spec (mk_array (Z.of_nat (length l)) (Z.of_nat (length l + length (slot :: rest))) ((Some <$> l) ++ slot :: rest)) l Ht).
  apply holds_mk; [done|]. intros Hc. rewrite (Hslot Hc). cbn. f_equal. by apply Hr.
Qed.

(** The elements behind the erased one move up. *)
Lemma shift_spec l rest i z :
  type_ok -> (i < length l)%nat -> list.last l = Some z ->
  copy None (Z.of_nat i + 1) (Z.of_nat (length l)) ((Some <$> l) ++ rest) (Z.of_nat i) =
    Ok ((Some <$> delete i l) ++ Some z :: rest).
Proof.
  intros Ht Hi Hz. pose proof (copy_with_spec assigning ((Some <$> l) ++ rest) None ((Some <$> l) ++ rest) (S i) (length l - S i) i
    Ht eq_refl) as Hc.
  replace (Z.of_nat (S i)) with (Z.of_nat i + 1) in Hc by lia.
  replace (Z.of_nat (S i + (length l - S i))) with (Z.of_nat (length l)) in Hc by lia.
  assert (Hlen : (length l <= length ((Some <$> l) ++ rest))%nat) by (rewrite length_app, length_fmap; lia).
  assert (Hd : take (length l - S i) (drop (S i) ((Some <$> l) ++ rest)) = Some <$> drop (S i) l).
  { rewrite drop_app_le, take_app_le, take_ge, fmap_drop by (rewrite ?length_drop, ?length_fmap; lia). done. }
  assert (Hl : drop (i + (length l - S i)) ((Some <$> l) ++ rest) = Some z :: rest).
  { apply last_Some in Hz as (l' & ->). rewrite length_app in *. cbn in *.
    rewrite fmap_app, <- app_assoc, drop_app_ge by (rewrite length_fmap; lia). cbn.
    replace (i + (length l' + 1 - S i) - length (Some <$> l'))%nat with 0%nat by (rewrite length_fmap; lia). done. }
  unfold copy. rewrite Hc, Hd, Hl; try done; [| lia | lia | intros _; lia | |].
  - rewrite take_app_le by (rewrite length_fmap; lia). rewrite delete_take_drop, fmap_app, fmap_take, <- app_assoc. done.
  - rewrite Hd. apply lives.
  - intros _ _. rewrite drop_app_le, take_app_le by (rewrite ?length_drop, length_fmap; lia).
    apply Forall_take, Forall_drop, lives.
Qed.

Lemma taken (l : list A) rest i n : (i + n <= length l)%nat ->
  take n (drop i ((Some <$> l) ++ rest)) = Some <$> take n (drop i l).
Proof. intros Hi. by rewrite drop_app_le, take_app_le, fmap_take, fmap_drop by (rewrite ?length_drop, length_fmap; lia). Qed.

(** Elements are copied to memory behind what is there already. *)
Lemma copy_out (l front : list A) rest free i n :
  type_ok -> (i + n <= length l)%nat -> (n <= length free)%nat ->
  uninitialized_copy (Some ((Some <$> l) ++ rest)) (Z.of_nat i) (Z.of_nat (i + n)) ((Some <$> front) ++ free)
    (Z.of_nat (length front)) = Ok ((Some <$> (front ++ take n (drop i l))) ++ drop n free).
Proof.
  intros Ht Hi Hn. unfold uninitialized_copy.
  rewrite (copy_with_spec constructing ((Some <$> l) ++ rest)); try done; rewrite ?length_app, ?length_fmap; try lia.
  - rewrite taken by done. rewrite take_app_le, take_ge by (rewrite length_fmap; lia).
    rewrite drop_app_ge, length_fmap, fmap_app, <- app_assoc by (rewrite length_fmap; lia).
    do 4 f_equal. lia.
  - rewrite taken by done. apply lives.
Qed.

Lemma destroy_all (l : list A) rest : exists b, destroy ((Some <$> l) ++ rest) 0 (Z.of_nat (length l)) = Ok b.
Proof.
  pose proof (destroy_spec ((Some <$> l) ++ rest) 0 (length l)) as Hd. cbn [Nat.add] in Hd. change (Z.of_nat 0) with 0 in Hd.
  eexists. apply Hd; [rewrite length_app, length_fmap; lia | rewrite (taken l rest 0) by done; apply lives].
Qed.

Lemma erase_spec i a l :
  type_ok -> holds a l -> (i < length l)%nat -> Z.of_nat (length l) <= max_elements ->
  exists a', erase (Z.of_nat i) a = Ok a' /\ holds a' (delete i l) /\
    _array_size a' <= 2 * Z.of_nat (length (delete i l)) + 1.
Proof.
  intros Ht Hh Hi Hm. apply holds_inv in Hh as (rest & Ea & Hw & Hr).
  destruct (list.last l) as [z|] eqn:Hz; [|apply last_None in Hz; rewrite Hz in Hi; cbn in Hi; lia].
  assert (Hd : S (length (delete i l)) = length l) by (rewrite length_delete by (by apply lookup_lt_is_Some_2); lia).
  assert (Hu : u32 (Z.of_nat (length l) - 1) = Z.of_nat (length (delete i l))).
  { rewrite u32_small by (unfold max_elements in Hm; zlia). lia. }
  pose proof (shift_spec l rest i z Ht Hi Hz) as Hshift.
  destruct (destroy_last_spec a (delete i l) z rest) as (slot & El & Hslot); [by rewrite Ea, Hd | by rewrite Hd |].
  set (c := Z.of_nat (length l + length rest)) in *.
  assert (Hc : c = Z.of_nat (length (delete i l) + length (slot :: rest))) by (unfold c; cbn; lia).
  set (a1 := mk_array (Z.of_nat (length (delete i l))) c ((Some <$> delete i l) ++ slot :: rest)).
  assert (H1 : holds a1 (delete i l)).
  { unfold a1. rewrite Hc. apply holds_mk; [by rewrite <- Hc|]. intros Hf. rewrite (Hslot Hf). cbn. f_equal. by apply Hr. }
  destruct (shrink_to_spec (Z.of_nat (length (delete i l))) c) as (S1 & S2 & S3); [lia | done |].
  set (m := shrink_to (Z.of_nat (length (delete i l))) c) in *.
  unfold erase. rewrite Ea in El |- *. cbn [_public_size _array_size _array]. fold c. rewrite Hu. fold m.
  destruct (is_trivial type) eqn:E.
  - rewrite Hshift. cbn [mbind result_bind].
    rewrite El. cbn [mbind result_bind].
    destruct (Z.leb_spec (Z.of_nat (length (delete i l))) m); [|lia]. cbn [require mbind result_bind].
    destruct (shrink_spec a1 (delete i l) Ht H1) as (a' & Es & Ha & Hcap). exists a'. split; [|done].
    rewrite <- Es. cbn. fold m. destruct (negb _); [|done]. unfold _resize. cbn [_public_size _array a1].
    destruct (Z.leb_spec (Z.of_nat (length (delete i l))) m); [|lia]. by rewrite E.
  - destruct (Z.eqb_spec m c) as [Em|Em]; cbn [negb].
    + rewrite Hshift. cbn [mbind result_bind]. rewrite El. exists a1. split; [done|]. split; [done|]. cbn. lia.
    + destruct (Z.leb_spec (Z.of_nat (length (delete i l))) m); [|lia]. cbn [require mbind result_bind].
      pose proof (copy_out l [] rest (memory_allocate m) 0 i Ht ltac:(lia)
        ltac:(unfold memory_allocate; rewrite length_replicate; lia)) as C1. cbn [Nat.add app length] in C1.
      change (Z.of_nat 0) with 0 in C1. change ((Some <$> []) ++ memory_allocate m) with (memory_allocate m) in C1.
      rewrite C1, drop_0. unfold memory_allocate. rewrite drop_replicate. cbn [mbind result_bind].
      pose proof (copy_out l (take i l) rest (replicate (Z.to_nat m - i) None) (S i) (length l - S i) Ht ltac:(lia)
        ltac:(rewrite length_replicate; lia)) as C2. rewrite drop_replicate in C2.
      replace (S i + (length l - S i))%nat with (length l) in C2 by lia.
      replace (Z.of_nat (S i)) with (Z.of_nat i + 1) in C2 by lia.
      rewrite length_take, Nat.min_l, (take_ge (drop (S i) l)) in C2 by (rewrite ?length_drop; lia).
      rewrite C2, <- delete_take_drop. cbn [mbind result_bind].
      destruct (destroy_all l rest) as [b Eb]. rewrite Eb. cbn [mbind result_bind]. eexists. split; [done|].
      split; [|cbn; lia]. replace m with (Z.of_nat (length (delete i l) +
        length (replicate (A := option A) (Z.to_nat m - i - (length l - S i)) None))) at 1 by (rewrite length_replicate; lia).
      apply holds_mk; rewrite length_replicate; [|done].
      replace (Z.of_nat (length (delete i l) + (Z.to_nat m - i - (length l - S i)))) with m by lia. done.
Qed.

Lemma set_index_spec i x a l :
  holds a l -> (i < length l)%nat -> exists a', set_index (Z.of_nat i) x a = Ok a' /\ holds a' (<[i := x]> l).
Proof.
  intros (rest & -> & Hw & Hr)%holds_inv Hi. destruct (lookup_lt_is_Some_2 l i Hi) as [y Hy].
  unfold set_index, at_index. cbn [_array]. rewrite (object_spec l rest i y Hy). cbn [mbind result_bind].
  eexists. split; [done|]. cbn. rewrite Nat2Z.id, insert_app_l, <- list_fmap_insert by (by rewrite length_fmap).
  rewrite <- (length_insert l i x). apply holds_mk; by rewrite ?length_insert.
Qed.

Lemma at_index_spec i a l x : holds a l -> l !! i = Some x -> at_index a (Z.of_nat i) = Ok x.
Proof. intros (rest & -> & _ & _)%holds_inv. apply object_spec. Qed.

Lemma swap_spec i j x y a l :
  holds a l -> l !! i = Some x -> l !! j = Some y -> i <> j ->
  exists a', swap (Z.of_nat i) (Z.of_nat j) a = Ok a' /\ holds a' (<[j := x]> (<[i := y]> l)).
Proof.
  intros Hh Hi Hj Hij. unfold swap. rewrite (at_index_spec i a l x Hh Hi), (at_index_spec j a l y Hh Hj).
  cbn [mbind result_bind]. destruct (set_index_spec i y a l Hh) as (a1 & -> & H1); [by eapply lookup_lt_Some|].
  cbn [mbind result_bind]. apply set_index_spec; [done|]. rewrite length_insert. by eapply lookup_lt_Some.
Qed.

(** What [erase_unstable] leaves: the last element in the place of the erased one. *)
Definition erase_swapping (i : nat) (l : list A) : list A :=
  match list.last l with
  | Some z => let front := take (length l - 1) l in if decide (i = length l - 1)%nat then front else <[i := z]> front
  | None => []
  end.

Lemma erase_unstable_spec i a l :
  type_ok -> holds a l -> (i < length l)%nat -> Z.of_nat (length l) <= max_elements ->
  exists a', erase_unstable (Z.of_nat i) a = Ok a' /\ holds a' (erase_swapping i l) /\
    _array_size a' <= 2 * Z.of_nat (length l - 1) + 1.
Proof.
  intros Ht Hh Hi Hm. destruct (list.last l) as [z|] eqn:Hz; [|apply last_None in Hz; rewrite Hz in Hi; cbn in Hi; lia].
  unfold erase_swapping. rewrite Hz. apply last_Some in Hz as (front & ->). rewrite length_app in *. cbn [length] in *.
  rewrite Nat.add_1_r in *. replace (S (length front) - 1)%nat with (length front) by lia. rewrite take_app_length.
  assert (Hs : _public_size a = Z.of_nat (S (length front))) by (rewrite (ho_size _ _ Hh), length_app; cbn; lia).
  unfold erase_unstable. rewrite Hs, u32_small by (unfold max_elements in Hm; zlia).
  replace (Z.of_nat (S (length front)) - 1) with (Z.of_nat (length front)) by lia.
  destruct (Z.eqb_spec (Z.of_nat i) (Z.of_nat (length front))) as [E|E]; cbn [negb].
  - cbn [mbind result_bind]. rewrite decide_True by lia. by apply (pop_back_spec a front z).
  - destruct (lookup_lt_is_Some_2 front i ltac:(lia)) as [x Hx].
    destruct (swap_spec i (length front) x z a (front ++ [z]) Hh) as (a1 & -> & H1);
      [by apply lookup_app_l_Some | by apply list_lookup_middle | lia |]. cbn [mbind result_bind].
    rewrite insert_app_l, insert_app_r_alt, length_insert, Nat.sub_diag in H1 by (rewrite ?length_insert; lia).
    rewrite decide_False by lia. destruct (pop_back_spec a1 (<[i := z]> front) x Ht H1) as (a' & E' & Ha' & Hc);
      rewrite ?length_insert in *; [done|]. by exists a'.
Qed.

(** ** Resizing, clearing and assigning *)
Lemma grow_elements n a l :
  type_ok -> holds a l -> is_trivial type = false -> Z.of_nat (length l) < Z.of_nat n <= max_elements ->
  exists a', resize (Z.of_nat n) a = Ok a' /\ holds a' (l ++ replicate (n - length l) default).
Proof.
  intros Ht Hh E Hn. unfold resize. rewrite (ho_size _ _ Hh).
  destruct (Z.ltb_spec (Z.of_nat (length l)) (Z.of_nat n)); [|lia].
  destruct (grow_to_spec (Z.of_nat n)) as [G1 G2]; [lia|].
  assert (Hroom : exists b, (if _array_size a <? Z.of_nat n then _resize (grow_to (Z.of_nat n)) a else Ok a) = Ok b /\
    holds b l /\ Z.of_nat n <= _array_size b).
  { destruct (Z.ltb_spec (_array_size a) (Z.of_nat n)); [|by exists a].
    destruct (resize_spec (grow_to (Z.of_nat n)) a l Ht Hh) as (b & Eb & Hb & Hc); [lia | done |]. exists b.
    split; [done|]. split; [done | lia]. }
  destruct Hroom as (b & -> & Hb & Hc). cbn [mbind result_bind].
  apply holds_inv in Hb as (rest & -> & Hw & Hr). cbn [_public_size _array_size _array] in *. specialize (Hr E).
  unfold construct_range. rewrite E. destruct (Z.leb_spec (Z.of_nat (length l)) (Z.of_nat n)); [|lia].
  cbn [require mbind result_bind]. rewrite Nat2Z.id. replace (Z.to_nat _) with (n - length l)%nat by lia.
  rewrite construct_loop_spec by (rewrite length_app, length_fmap; lia). cbn [mbind result_bind].
  eexists. split; [done|]. rewrite take_app_le, take_ge by (rewrite length_fmap; lia).
  rewrite drop_app_ge, length_fmap by (rewrite length_fmap; lia).
  replace (length l + (n - length l) - length l)%nat with (n - length l)%nat by lia.
  rewrite <- fmap_replicate, app_assoc, <- fmap_app.
  replace (Z.of_nat n) with (Z.of_nat (length (l ++ replicate (n - length l) default))) by (rewrite length_app, length_replicate; lia).
  replace (length l + length rest)%nat with (length (l ++ replicate (n - length l) default) + length (drop (n - length l) rest))%nat
    by (rewrite length_app, length_replicate, length_drop; lia).
  apply holds_mk.
  - rewrite length_app, length_replicate, length_drop. replace (_ + _ + _)%nat with (length l + length rest)%nat by lia. done.
  - intros _. rewrite Hr, drop_replicate, length_replicate. done.
Qed.

(** The elements from [n] on are destroyed. *)
Lemma destroy_tail n (l : list A) rest :
  (n <= length l)%nat -> (is_trivial type = false -> rest = replicate (length rest) None) ->
  exists tl, destroy ((Some <$> l) ++ rest) (Z.of_nat n) (Z.of_nat (length l)) = Ok ((Some <$> take n l) ++ tl) /\
    length tl = (length l - n + length rest)%nat /\ (is_trivial type = false -> tl = replicate (length tl) None).
Proof.
  intros Hn Hr. pose proof (destroy_spec ((Some <$> l) ++ rest) n (length l - n)) as Hd.
  replace (n + (length l - n))%nat with (length l) in Hd by lia. rewrite Hd; clear Hd.
  2: { rewrite length_app, length_fmap. lia. } 2: { rewrite taken by lia. apply lives. }
  destruct (is_trivial type).
  - exists ((Some <$> drop n l) ++ rest). by rewrite app_assoc, <- fmap_app, take_drop, length_app, length_fmap, length_drop.
  - exists (replicate (length l - n) None ++ rest). rewrite take_app_le, fmap_take by (rewrite length_fmap; lia).
    rewrite drop_app_ge, length_fmap, Nat.sub_diag by (by rewrite length_fmap).
    rewrite length_app, length_replicate. split; [done|]. split; [done|]. intros _. rewrite Hr at 1 by done.
    by rewrite replicate_add.
Qed.

Lemma cut_elements n a l :
  type_ok -> holds a l -> (n < length l)%nat ->
  exists a', resize (Z.of_nat n) a = Ok a' /\ holds a' (take n l) /\ _array_size a' <= 2 * Z.of_nat n + 1.
Proof.
  intros Ht (rest & -> & Hw & Hr)%holds_inv Hn. unfold resize. cbn [_public_size _array_size _array].
  destruct (Z.ltb_spec (Z.of_nat (length l)) (Z.of_nat n)); [lia|]. destruct (Z.ltb_spec (Z.of_nat n) (Z.of_nat (length l))); [|lia].
  destruct (destroy_tail n l rest ltac:(lia) Hr) as (tl & -> & Htl & Hnone). cbn [mbind result_bind _array_size].
  assert (Hlen : length (take n l) = n) by (rewrite length_take; lia).
  replace (length l + length rest)%nat with (length (take n l) + length tl)%nat in * by lia.
  pose proof (shrink_spec (mk_array (Z.of_nat (length (take n l))) (Z.of_nat (length (take n l) + length tl))
    ((Some <$> take n l) ++ tl)) (take n l) Ht ltac:(by apply holds_mk)) as Hs.
  by rewrite Hlen in Hs |- *.
Qed.

Lemma compact_spec a l :
  type_ok -> holds a l -> exists a', compact a = Ok a' /\ holds a' l /\ _array_size a' = Z.of_nat (length l).
Proof.
  intros Ht Hh. unfold compact. rewrite (ho_size _ _ Hh).
  apply holds_inv in Hh as Hi. destruct Hi as (rest & Ea & Hw & _).
  destruct (Z.ltb_spec (Z.of_nat (length l)) (_array_size a)).
  - apply (resize_spec _ a l Ht Hh); [lia|]. rewrite Ea in *. cbn in *. unfold in_u in *. lia.
  - exists a. split; [done|]. split; [done|]. rewrite Ea in *. cbn in *. lia.
Qed.

Lemma empty_holds : holds empty_array [].
Proof. split; try done. by exists []. Qed.

Lemma reserved_holds n : is_u32 n -> holds (reserved n) [].
Proof.
  intros [Hn1 Hn2]. split; cbn; [done | unfold memory_allocate; rewrite length_replicate; lia | done |].
  exists (memory_allocate n). split; [done|]. intros _. unfold memory_allocate. by rewrite length_replicate.
Qed.

Lemma clear_spec a l : holds a l -> clear a = Ok empty_array.
Proof.
  intros (rest & -> & _)%holds_inv. unfold clear. cbn [_array _public_size].
  destruct (destroy_all l rest) as [b ->]. done.
Qed.

(** Copying the first elements of [q] over elements that live. *)
Lemma copy_over (q f : list A) qrest tl :
  type_ok -> (length f <= length q)%nat ->
  copy (Some ((Some <$> q) ++ qrest)) 0 (Z.of_nat (length f)) ((Some <$> f) ++ tl) 0 =
    Ok ((Some <$> take (length f) q) ++ tl).
Proof.
  intros Ht Hf. pose proof (copy_with_spec assigning ((Some <$> q) ++ qrest)
    (Some ((Some <$> q) ++ qrest)) ((Some <$> f) ++ tl) 0 (length f) 0 Ht eq_refl) as Hc.
  cbn [Nat.add] in Hc. change (Z.of_nat 0) with 0 in Hc. unfold copy. rewrite Hc; clear Hc; try done.
  - rewrite taken, (take_0 ((Some <$> f) ++ tl)), drop_0 by lia. cbn [app].
    by rewrite drop_app_ge, length_fmap, Nat.sub_diag by (by rewrite length_fmap).
  - rewrite length_app, length_fmap. lia.
  - rewrite length_app, length_fmap. lia.
  - rewrite taken by lia. apply lives.
  - intros _ _. rewrite taken by lia. apply lives.
Qed.

Lemma assign_elements p q a l :
  type_ok -> holds p q -> holds a l -> exists a', assign p a = Ok a' /\ holds a' q.
Proof.
  intros Ht (prest & -> & Hpw & Hpr)%holds_inv (rest & -> & Hw & Hr)%holds_inv. unfold assign.
  cbn [_public_size _array_size _array].
  destruct (Z.eqb_spec (Z.of_nat (length l + length rest)) (Z.of_nat (length q + length prest))) as [Ec|Ec]; cbn [negb].
  - destruct (Z.ltb_spec (Z.of_nat (length q)) (Z.of_nat (length l))).
    + destruct (destroy_tail (length q) l rest ltac:(lia) Hr) as (tl & -> & Htl & Hnone). cbn [mbind result_bind].
      assert (Hlen : length (take (length q) l) = length q) by (rewrite length_take; lia).
      pose proof (copy_over q (take (length q) l) prest tl Ht ltac:(lia)) as Hc. rewrite Hlen, firstn_all in Hc.
      rewrite Hc. cbn [mbind result_bind]. eexists. split; [done|].
      replace (length l + length rest)%nat with (length q + length tl)%nat in * by lia. by apply holds_mk.
    + rewrite (copy_over q l prest rest Ht) by lia. cbn [mbind result_bind].
      assert (Hcl : length (take (length l) q) = length l) by (rewrite length_take; lia).
      pose proof (copy_out q (take (length l) q) prest rest (length l) (length q - length l) Ht ltac:(lia) ltac:(lia)) as Hc.
      rewrite Hcl, (take_ge (drop _ q)), take_drop in Hc by (rewrite length_drop; lia).
      replace (length l + (length q - length l))%nat with (length q) in Hc by lia. rewrite Hc. cbn [mbind result_bind].
      eexists. split; [done|]. assert (Hlen : length (drop (length q - length l) rest) = length prest)
        by (rewrite length_drop; lia).
      rewrite Ec, <- Hlen. apply holds_mk; rewrite Hlen; [done|].
      intros E. rewrite <- Hlen, (Hr E), drop_replicate, length_replicate. done.
  - destruct (destroy_all l rest) as [b ->]. cbn [mbind result_bind].
    pose proof (copy_out q [] prest (memory_allocate (Z.of_nat (length q + length prest))) 0 (length q) Ht ltac:(lia)
      ltac:(unfold memory_allocate; rewrite length_replicate; lia)) as Hc.
    cbn [Nat.add app length] in Hc. change (Z.of_nat 0) with 0 in Hc.
    change ((Some <$> []) ++ memory_allocate (Z.of_nat (length q + length prest))) with
      (memory_allocate (Z.of_nat (length q + length prest))) in Hc.
    rewrite Hc, drop_0, firstn_all. cbn [mbind result_bind]. eexists. split; [done|].
    unfold memory_allocate. rewrite Nat2Z.id, drop_replicate.
    replace (length q + length prest - length q)%nat with (length prest) by lia.
    rewrite <- (length_replicate (A := option A) (length prest) None) at 1. apply holds_mk; rewrite length_replicate; done.
Qed.

(** ** Every program on arrays *)
Inductive operation : Type :=
  | do_push_back (r : reference)
  | do_erase (i : nat)
  | do_erase_unstable (i : nat)
  | do_pop_front
  | do_pop_back
  | do_resize (n : nat)
  | do_reserve (n : nat)
  | do_compact
  | do_clear
  | do_set (i : nat) (x : A)
  | do_assign (p : array).

Definition step (o : operation) (a : array) : result array :=
  match o with
  | do_push_back r => push_back r a
  | do_erase i => erase (Z.of_nat i) a
  | do_erase_unstable i => erase_unstable (Z.of_nat i) a
  | do_pop_front => pop_front a
  | do_pop_back => pop_back a
  | do_resize n => resize (Z.of_nat n) a
  | do_reserve n => reserve (Z.of_nat n) a
  | do_compact => compact a
  | do_clear => clear a
  | do_set i x => set_index (Z.of_nat i) x a
  | do_assign p => assign p a
  end.

(** The same operations on a list, where they are allowed.  A trivial type has no constructor
    to give new elements of [resize] a value. *)
Inductive list_step (a : array) (l : list A) : operation -> list A -> Prop :=
  | list_push_back r x : Z.of_nat (length l) < max_elements -> refers a l r x -> list_step a l (do_push_back r) (l ++ [x])
  | list_erase i : (i < length l)%nat -> list_step a l (do_erase i) (delete i l)
  | list_erase_unstable i : (i < length l)%nat -> list_step a l (do_erase_unstable i) (erase_swapping i l)
  | list_pop_front x k : l = x :: k -> list_step a l do_pop_front k
  | list_pop_back k x : l = k ++ [x] -> list_step a l do_pop_back k
  | list_cut n : (n <= length l)%nat -> list_step a l (do_resize n) (take n l)
  | list_grow n : is_trivial type = false -> Z.of_nat (length l) < Z.of_nat n <= max_elements ->
      list_step a l (do_resize n) (l ++ replicate (n - length l) default)
  | list_reserve n : is_u32 (Z.of_nat n) -> list_step a l (do_reserve n) l
  | list_compact : list_step a l do_compact l
  | list_clear : list_step a l do_clear []
  | list_set i x : (i < length l)%nat -> list_step a l (do_set i x) (<[i := x]> l)
  | list_assign p q : holds p q -> list_step a l (do_assign p) q.

(** Taking elements out gives memory back: at most half of it stays unused. *)
Definition gives_back (o : operation) : bool :=
  match o with do_erase _ | do_erase_unstable _ | do_pop_front | do_pop_back | do_compact => true | _ => false end.

Lemma step_keeps o a l k :
  type_ok -> holds a l -> Z.of_nat (length l) <= max_elements -> list_step a l o k ->
  exists a', step o a = Ok a' /\ holds a' k /\ (gives_back o = true -> _array_size a' <= 2 * Z.of_nat (length k) + 1).
Proof.
  intros Ht Hh Hm Hs. destruct Hs; cbn [step gives_back].
  - destruct (push_back_spec r x a l) as (a' & ? & ?); try done. by exists a'.
  - destruct (erase_spec i a l) as (a' & ? & ? & ?); try done. by exists a'.
  - destruct (erase_unstable_spec i a l) as (a' & ? & ? & Hc); try done. exists a'. split; [done|]. split; [done|].
    intros _. unfold erase_swapping. destruct (list.last l) eqn:Hz; [|apply last_None in Hz; subst; cbn in *; lia].
    case_decide; rewrite ?length_insert, length_take; lia.
  - subst l. destruct (erase_spec 0 a (x :: k)) as (a' & ? & ? & ?); try done; [cbn; lia|]. by exists a'.
  - subst l. destruct (pop_back_spec a k x) as (a' & ? & ? & ?); try done; [rewrite length_app in Hm; cbn in Hm; lia|]. by exists a'.
  - destruct (decide (n = length l)) as [->|].
    + exists a. rewrite firstn_all. split; [|done]. unfold resize. rewrite (ho_size _ _ Hh), Z.ltb_irrefl. done.
    + destruct (cut_elements n a l) as (a' & ? & ? & _); try done; [lia|]. by exists a'.
  - destruct (grow_elements n a l) as (a' & ? & ?); try done. by exists a'.
  - destruct (reserve_spec (Z.of_nat n) a l) as (a' & ? & ?); try done. by exists a'.
  - destruct (compact_spec a l) as (a' & ? & ? & Hc); try done. exists a'. split; [done|]. split; [done|]. lia.
  - exists empty_array. split; [by apply clear_spec with (l := l) | ]. split; [exact empty_holds | done].
  - destruct (set_index_spec i x a l) as (a' & ? & ?); try done. by exists a'.
  - destruct (assign_elements p q a l) as (a' & ? & ?); try done. by exists a'.
Qed.

(** The arrays a program can make, with the lists it means by them. *)
Inductive made : array -> list A -> Prop :=
  | made_empty : made empty_array []
  | made_reserved n : is_u32 n -> made (reserved n) []
  | made_copy p q a : made p q -> copy_constructor p = Ok a -> made a q
  | made_step o a l a' k : made a l -> Z.of_nat (length l) <= max_elements -> list_step a l o k -> step o a = Ok a' -> made a' k.

Lemma made_holds a l : type_ok -> made a l -> holds a l.
Proof.
  intros Ht. induction 1 as [|n Hn|p q a Hp IH E|o a l a' k Ha IH Hm Hs E].
  - exact empty_holds.
  - by apply reserved_holds.
  - destruct (assign_elements p q empty_array [] Ht IH empty_holds) as (a' & E' & Ha'). unfold copy_constructor in E. congruence.
  - destruct (step_keeps o a l k Ht IH Hm Hs) as (b & E' & Hb & _). congruence.
Qed.

End array.

(** ** An example *)
Definition pointers : element_type := mk_element true 8.
Definition classes : element_type := mk_element false 40.
Definition words : element_type := mk_element true 4.

(** Three elements are appended, and the second is erased. *)
Definition example (type : element_type) : result (array (A := Z)) :=
  a ← push_back type (outside 10) empty_array;
  a ← push_back type (outside 20) a;
  a ← push_back type (outside 30) a;
  erase type 1 a.

Example example_runs :
  (a ← example pointers; Ok (at_index a 1, size a)) = Ok (Ok 30, 2) /\
  (a ← example classes; Ok (at_index a 1, size a)) = Ok (Ok 30, 2).
Proof. done. Qed.

(** The copies of 4-byte integers are twice as long as they should be: they run out of the
    block of memory. *)
Example words_overrun : (a ← push_back words (outside 10) empty_array; copy_constructor words a) = Fault out_of_bounds.
Proof. done. Qed.

Definition example_array : array := match example pointers with Ok a => a | Fault _ => empty_array end.

Lemma example_made : made pointers 0 example_array [10; 30].
Proof.
  apply (made_step pointers 0 (do_erase 1) (mk_array 3 3 [Some 10; Some 20; Some 30]) [10; 20; 30]); [| done | | done].
  2: { apply (list_erase pointers 0 _ [10; 20; 30] 1). cbn. lia. }
  apply (made_step pointers 0 (do_push_back (outside 30)) (mk_array 2 3 [Some 10; Some 20; None]) [10; 20]); [| done | | done].
  2: { by apply (list_push_back pointers 0 _ [10; 20] (outside 30) 30). }
  apply (made_step pointers 0 (do_push_back (outside 20)) (mk_array 1 1 [Some 10]) [10]); [| done | | done].
  2: { by apply (list_push_back pointers 0 _ [10] (outside 20) 20). }
  apply (made_step pointers 0 (do_push_back (outside 10)) empty_array []); [| done | | done].
  - apply made_empty.
  - by apply (list_push_back pointers 0 _ [] (outside 10) 10).
Qed.

End array.
