(* ===== verification/Allocator.v ===== *)
(** * Memory pools: core/zone_allocator.h and core/page_allocator.h

    A [page_allocator] cuts blocks from pages it gets from a zone, which gets them from
    [malloc]; nothing is given back before [clear].  The event queue of a socket and the nonce
    tables of its puzzles allocate from one.  The answer of [malloc] is an argument of the
    operations. *)
From S2P Require Import Prelude.
From stdpp Require Import gmap.
#[local] Open Scope Z_scope.

Definition page_size : Z := 4096.

(** ** Zones, in the builds other than Mac OS X *)
Module zone_allocator.
(** [os]: the memory [malloc] has given out, with its size. *)
Record t : Type := mk {
  _quota : Z;
  _memory_used : Z;
  os : gmap Z Z
}.

Definition make (quota : Z) (m : gmap Z Z) : t := mk quota 0 m.

Definition with_os (m : gmap Z Z) (z : t) : t := mk (_quota z) (_memory_used z) m.

(** [answer] is what [malloc] returns if it is called; 0 is the null pointer. *)
Definition allocate_pages (answer page_count : Z) (z : t) : Z * t :=
  let allocation_size := u32 (page_count * page_size) in
  if negb (_quota z =? 0) && (_quota z <? u32 (_memory_used z + allocation_size)) then (0, z) else
  if answer =? 0 then (0, z) else (answer, with_os (<[answer := allocation_size]> (os z)) z).

(** [free] of the null pointer does nothing; of what is not allocated it stops the process. *)
Definition deallocate_pages (the_page page_count : Z) (z : t) : result t :=
  if the_page =? 0 then Ok z else
  _ ← require (bool_decide (is_Some (os z !! the_page))) out_of_bounds;
  Ok (with_os (delete the_page (os z)) z).
End zone_allocator.

(** ** Pages *)
Module page_allocator.
Section page_allocator.

(** The template parameter [alignment], a power of two. *)
Context (alignment : Z).

Definition align (x : Z) : Z := Z.land (u32 (x + (alignment - 1))) (u32 (Z.lnot (alignment - 1))).

(** The header of a page is two pointers and an integer, 24 bytes with the padding. *)
Definition page_header_size : Z := align 24.

Record page : Type := mk_page {
  prev : Z;
  page_count : Z
}.

Record t : Type := mk {
  _current_offset : Z;
  _current_page_size : Z;
  _current_page : Z;
  headers : gmap Z page;
  _allocator : zone_allocator.t
}.

Definition make (zone : zone_allocator.t) : t := mk page_size page_size 0 ∅ zone.

Definition with_allocator (z : zone_allocator.t) (p : t) : t :=
  mk (_current_offset p) (_current_page_size p) (_current_page p) (headers p) z.
Definition with_current (page size offset : Z) (p : t) : t :=
  mk offset size page (headers p) (_allocator p).
Definition with_header (a : Z) (g : page) (p : t) : t :=
  mk (_current_offset p) (_current_page_size p) (_current_page p) (<[a := g]> (headers p)) (_allocator p).
Definition without_header (a : Z) (p : t) : t :=
  mk (_current_offset p) (_current_page_size p) (_current_page p) (delete a (headers p)) (_allocator p).

Definition header_at (a : Z) (p : t) : result page := of_option null_deref (headers p !! a).

Definition new_page_count (size : Z) : Z :=
  u32 (u32 (Z.max page_size (u32 (size + page_header_size)) + page_size) - 1) / page_size.

Definition allocate (answer size : Z) (p : t) : result (Z * t) :=
  if size =? 0 then Ok (0, p) else
  let size := align size in
  if _current_page_size p <? u32 (_current_offset p + size) then
    let new_page_count := new_page_count size in
    let '(new_page, z) := zone_allocator.allocate_pages answer new_page_count (_allocator p) in
    let p := with_allocator z p in
    _ ← require (negb (new_page =? 0)) null_deref;
    let new_size := u32 (new_page_count * page_size) in
    let new_offset := u32 (page_header_size + size) in
    if u32 (_current_page_size p - _current_offset p) <=? u32 (new_size - new_offset) then
      let p := with_header new_page (mk_page (_current_page p) new_page_count) p in
      Ok (new_page + page_header_size, with_current new_page new_size new_offset p)
    else
      current ← header_at (_current_page p) p;
      let p := with_header new_page (mk_page (prev current) new_page_count) p in
      Ok (new_page + page_header_size,
          with_header (_current_page p) (mk_page new_page (page_count current)) p)
  else
    let ret := _current_page p + _current_offset p in
    Ok (ret, with_current (_current_page p) (_current_page_size p) (u32 (_current_offset p + size)) p).

(** The loop of [clear]; the fuel bounds the number of pages. *)
Fixpoint clear_loop (fuel : nat) (p : t) : result t :=
  if _current_page p =? 0 then Ok p else
  match fuel with
  | O => Fault out_of_fuel
  | S fuel =>
      current ← header_at (_current_page p) p;
      z ← zone_allocator.deallocate_pages (_current_page p) (page_count current) (_allocator p);
      let p := without_header (_current_page p) (with_allocator z p) in
      clear_loop fuel (with_current (prev current) (_current_page_size p) (_current_offset p) p)
  end.

Definition clear (p : t) : result t :=
  p ← clear_loop (size (headers p)) p;
  Ok (with_current (_current_page p) page_size page_size p).
End page_allocator.

(** A large request gets a page of its own behind the current one. *)
Example three_blocks :
  let z := zone_allocator.make 0 ∅ in
  match allocate 8 65536 100 (make z) with
  | Ok (a, p) =>
      match allocate 8 131072 10000 p with
      | Ok (b, p) =>
          match allocate 8 0 21 p with
          | Ok (c, p) => (a, b, c) = (65560, 131096, 65664) /\
              (zone_allocator.os ∘ _allocator <$> clear p) = Ok ∅
          | Fault _ => False
          end
      | Fault _ => False
      end
  | Fault _ => False
  end.
Proof. vm_compute. split; reflexivity. Qed.

(** The quota is compared with every request alone; and a request of nearly 4 GB wraps to no
    bytes, after which an allocator without pages hands out an address in the zero page. *)
Example quota_is_not_counted :
  let z := zone_allocator.make 4096 ∅ in
  match allocate 8 65536 4000 (make z) with
  | Ok (_, p) => (fst <$> allocate 8 131072 4000 p) = Ok 131096
  | Fault _ => False
  end.
Proof. reflexivity. Qed.

Example huge_request : (fst <$> allocate 8 65536 (2 ^ 32 - 1) (make (zone_allocator.make 0 ∅))) = Ok 4096.
Proof. reflexivity. Qed.
End page_allocator.

(** ** What a pool promises *)
Module pool.
Import page_allocator.

Definition region : Type := Z * Z.
Definition apart (r s : region) : Prop := r.1 + r.2 <= s.1 \/ s.1 + s.2 <= r.1.

(** The pages that are linked from [x]. *)
Inductive chain (h : gmap Z page) : Z -> list Z -> Prop :=
  | chain_nil : chain h 0 []
  | chain_cons x g l : x <> 0 -> h !! x = Some g -> chain h (prev g) l -> chain h x (x :: l).

Lemma pages_frame h h' x l : (forall y, y ∈ l -> h' !! y = h !! y) -> chain h x l -> chain h' x l.
Proof.
  intros Hf Hc. induction Hc as [|x g l Hx Hg _ IH]; [constructor|].
  apply (chain_cons _ x g); [done | rewrite Hf by apply list_elem_of_here; done | apply IH].
  intros y Hy. apply Hf. by apply list_elem_of_further.
Qed.

Section pool.
Context (k : Z) (Hk : 2 <= k <= 4).
#[local] Notation alignment := (2 ^ k).
#[local] Notation align := (align alignment).
#[local] Notation header_size := (page_header_size alignment).

Lemma align_floor x : 0 <= x -> x + (alignment - 1) < 2 ^ 32 -> align x = (x + (alignment - 1)) / alignment * alignment.
Proof.
  intros Hx Hlt. pose proof (Z.pow_pos_nonneg 2 k). unfold page_allocator.align. rewrite u32_small by (unfold in_u; lia).
  set (y := x + (alignment - 1)) in *. rewrite <- Z.shiftl_mul_pow2, <- Z.shiftr_div_pow2, <- Z.ldiff_ones_r by lia.
  apply Z.bits_inj'. intros i Hi. rewrite Z.land_spec, Z.ldiff_spec. unfold u32. rewrite testbit_u, Z.lnot_spec by lia.
  rewrite Z.ones_equiv. change (Z.pred (2 ^ k)) with (2 ^ k - 1). destruct (Z.ltb_spec i 32); [by rewrite andb_true_r|].
  by rewrite (testbit_high 32 y) by (unfold in_u; lia).
Qed.

Lemma align_spec x :
  0 <= x -> x < 2 ^ 32 - 16 -> x <= align x < x + 16 /\ (alignment | align x) /\ (x = 0 \/ 0 < align x).
Proof.
  intros Hx Hlt. assert (Ha : 4 <= alignment <= 16).
  { change 4 with (2 ^ 2). change 16 with (2 ^ 4). split; apply Z.pow_le_mono_r; lia. }
  rewrite align_floor by lia. pose proof (Z.div_mod (x + (alignment - 1)) alignment) as Hd.
  pose proof (Z.mod_pos_bound (x + (alignment - 1)) alignment). split; [nia|]. split; [by exists ((x + (alignment - 1)) / alignment)|]. nia.
Qed.

Lemma header_size_spec : 24 <= header_size < 40 /\ (alignment | header_size).
Proof. destruct (align_spec 24) as (H1 & H2 & _); [lia.. |]. unfold page_header_size. split; [lia | done]. Qed.

Lemma new_page_count_spec n :
  0 <= n <= 2 ^ 30 + 16 ->
  let c := new_page_count alignment n in
  1 <= c < 2 ^ 19 /\ n + header_size <= page_size * c /\ u32 (c * page_size) = page_size * c.
Proof.
  intros Hn. pose proof header_size_spec as [Hh _]. unfold new_page_count, page_size.
  rewrite (u32_small (n + _)) by (unfold in_u; lia). cbv zeta.
  set (m := Z.max 4096 (n + header_size)). assert (Hm : 4096 <= m <= 2 ^ 30 + 100 /\ n + header_size <= m) by lia. clearbody m.
  rewrite (u32_small (m + 4096)), (u32_small (m + 4096 - 1)) by (unfold in_u; lia).
  assert (Hc : m <= 4096 * ((m + 4096 - 1) / 4096) < m + 4096) by zlia.
  set (c := (m + 4096 - 1) / 4096) in *. split; [lia|]. split; [lia|]. rewrite u32_small by (unfold in_u; lia). lia.
Qed.

(** The pool [p] over a system whose other memory is [others] has given out the blocks [bs]. *)
Record good (others : gmap Z Z) (p : t) (bs : list region) : Prop := {
  gd_chain : exists ps, chain (headers p) (_current_page p) ps /\ NoDup ps /\ forall x, is_Some (headers p !! x) <-> x ∈ ps;
  gd_page x g : headers p !! x = Some g ->
    x <> 0 /\ (16 | x) /\ 1 <= page_count g < 2 ^ 19 /\
    zone_allocator.os (_allocator p) !! x = Some (page_size * page_count g) /\ others !! x = None;
  gd_others x : headers p !! x = None -> zone_allocator.os (_allocator p) !! x = others !! x;
  gd_apart x y n m :
    zone_allocator.os (_allocator p) !! x = Some n -> zone_allocator.os (_allocator p) !! y = Some m -> x <> y ->
    apart (x, n) (y, m);
  gd_current :
    _current_page p = 0 /\ _current_offset p = page_size /\ _current_page_size p = page_size \/
    exists g, headers p !! _current_page p = Some g /\ _current_page_size p = page_size * page_count g /\
      header_size <= _current_offset p <= _current_page_size p /\ (alignment | _current_offset p);
  gd_block b : b ∈ bs ->
    exists x g, headers p !! x = Some g /\ (alignment | b.1) /\ 0 < b.2 /\
      x + header_size <= b.1 /\ b.1 + b.2 <= x + page_size * page_count g /\
      (x = _current_page p -> b.1 + b.2 <= x + _current_offset p);
  gd_blocks : ForallOrdPairs apart bs
}.

(** [malloc] would grant the pages for the request: memory that is aligned and not in use. *)
Definition granted (p : t) (answer size : Z) : Prop :=
  let n := new_page_count alignment (align size) in
  (zone_allocator.allocate_pages answer n (_allocator p)).1 = answer /\
  answer <> 0 /\ (16 | answer) /\ zone_allocator.os (_allocator p) !! answer = None /\
  forall x m, zone_allocator.os (_allocator p) !! x = Some m -> apart (answer, page_size * n) (x, m).

Lemma granted_pages p answer size :
  granted p answer size ->
  let n := new_page_count alignment (align size) in
  zone_allocator.allocate_pages answer n (_allocator p) =
    (answer, zone_allocator.with_os (<[answer := u32 (n * page_size)]> (zone_allocator.os (_allocator p))) (_allocator p)).
Proof.
  intros (H1 & H2 & _) n. fold n in H1. revert H1. unfold zone_allocator.allocate_pages.
  destruct (negb _ && _); [cbn; congruence|]. destruct (Z.eqb_spec answer 0); [done|]. done.
Qed.

Lemma current_range others p bs :
  good others p bs -> 0 <= _current_offset p <= _current_page_size p /\ _current_page_size p < 2 ^ 31.
Proof.
  intros Hg. pose proof header_size_spec as [Hh _]. destruct (gd_current _ _ _ Hg) as [(_ & -> & ->) | (g & Hx & -> & Ho & _)]; [done|].
  destruct (gd_page _ _ _ Hg _ _ Hx) as (_ & _ & Hc & _). unfold page_size in *. lia.
Qed.

Lemma pages_apart others p bs x y g g' :
  good others p bs -> headers p !! x = Some g -> headers p !! y = Some g' -> x <> y ->
  apart (x, page_size * page_count g) (y, page_size * page_count g').
Proof.
  intros Hg Hx Hy. destruct (gd_page _ _ _ Hg _ _ Hx) as (_ & _ & _ & Ox & _), (gd_page _ _ _ Hg _ _ Hy) as (_ & _ & _ & Oy & _).
  by apply (gd_apart _ _ _ Hg).
Qed.

(** A granted page is new, and apart from the blocks given out. *)
Lemma granted_fresh others p bs answer size :
  good others p bs -> granted p answer size ->
  headers p !! answer = None /\ others !! answer = None /\
  forall b, b ∈ bs -> apart (answer, page_size * new_page_count alignment (align size)) b.
Proof.
  intros Hg (_ & _ & _ & Hn & Ha). assert (Hh : headers p !! answer = None).
  { destruct (headers p !! answer) as [g|] eqn:E; [|done]. destruct (gd_page _ _ _ Hg _ _ E) as (_ & _ & _ & O & _). congruence. }
  split; [done|]. split; [by rewrite <- (gd_others _ _ _ Hg)|].
  intros b Hb. destruct (gd_block _ _ _ Hg b Hb) as (x & g & Hx & _ & Hb2 & Hlo & Hhi & _).
  destruct (gd_page _ _ _ Hg _ _ Hx) as (_ & _ & _ & O & _). specialize (Ha x _ O).
  pose proof header_size_spec as [Hh' _]. unfold apart in *. cbn in *. lia.
Qed.

Lemma chain_in h x l : chain h x l -> x <> 0 -> x ∈ l.
Proof. destruct 1; [done | intros _; apply list_elem_of_here]. Qed.

Lemma divide_alignment x : (16 | x) -> (alignment | x).
Proof.
  intros H16. apply Z.divide_trans with 16; [|done]. exists (2 ^ (4 - k)). change 16 with (2 ^ 4).
  rewrite <- Z.pow_add_r by lia. f_equal. lia.
Qed.

(** Room in the current page. *)
Lemma cut_good others p bs size :
  good others p bs -> 0 < size <= 2 ^ 30 -> _current_offset p + align size <= _current_page_size p ->
  good others (with_current (_current_page p) (_current_page_size p) (_current_offset p + align size) p)
    ((_current_page p + _current_offset p, size) :: bs).
Proof.
  intros Hg Hs Hroom. destruct (align_spec size) as (Hs1 & Hs2 & _); [lia..|]. pose proof header_size_spec as [Hh Hha].
  destruct (gd_current _ _ _ Hg) as [(_ & Eo & Es) | (g & Hx & Es & Ho & Hd)]; [lia|].
  destruct (gd_page _ _ _ Hg _ _ Hx) as (Hx0 & Hx16 & _).
  assert (Hold : forall b, b ∈ bs -> apart (_current_page p + _current_offset p, size) b).
  { intros b Hb. destruct (gd_block _ _ _ Hg b Hb) as (y & g' & Hy & _ & Hb2 & Hlo & Hhi & Hcur).
    destruct (decide (y = _current_page p)) as [->|Hne]; [specialize (Hcur eq_refl); unfold apart; cbn; lia|].
    pose proof (pages_apart _ _ _ _ _ _ _ Hg Hy Hx Hne) as Ha. unfold apart in *. cbn in *. lia. }
  destruct Hg as [H1 H2 H3 H4 H5 H6 H7].
  split; cbn [headers _current_page _current_offset _current_page_size _allocator with_current]; try done.
  - right. exists g. split_and!; [done | done | lia | lia | by apply Z.divide_add_r].
  - intros b [->|Hb]%elem_of_cons.
    + exists (_current_page p), g. cbn [fst snd]. split_and!; [done | | lia | lia | lia | lia].
      apply Z.divide_add_r; [by apply divide_alignment | done].
    + destruct (H6 b Hb) as (y & g' & Hy & Hd' & Hb2 & Hlo & Hhi & Hcur). exists y, g'. split_and!; try done.
      intros E. specialize (Hcur E). lia.
  - constructor; [|done]. apply List.Forall_forall. intros b Hb%list_elem_of_In. by apply Hold.
Qed.

(** What a new page leaves: [p'] has the pages of [p], with other links, and the page [answer]. *)
Lemma page_good others p bs p' answer size (c := new_page_count alignment (align size)) :
  good others p bs -> 0 < size <= 2 ^ 30 -> granted p answer size ->
  zone_allocator.os (_allocator p') = <[answer := page_size * c]> (zone_allocator.os (_allocator p)) ->
  (exists ps, chain (headers p') (_current_page p') ps /\ NoDup ps /\ forall x, is_Some (headers p' !! x) <-> x ∈ ps) ->
  (forall x, page_count <$> headers p' !! x = if decide (x = answer) then Some c else page_count <$> headers p !! x) ->
  (_current_page p' = answer /\ _current_page_size p' = page_size * c /\ _current_offset p' = header_size + align size \/
   _current_page p' = _current_page p /\ _current_page p <> 0 /\ _current_page_size p' = _current_page_size p /\
     _current_offset p' = _current_offset p) ->
  good others p' ((answer + header_size, size) :: bs).
Proof.
  intros Hg Hs Hgr Eos Hchain Hcount Hcur. destruct (align_spec size) as (Hs1 & Hs2 & _); [lia..|].
  pose proof header_size_spec as [Hh Hha]. destruct (new_page_count_spec (align size) ltac:(lia)) as (Hc & Hfit & _). fold c in Hc, Hfit.
  destruct (granted_fresh _ _ _ _ _ Hg Hgr) as (Hnew & Hnone & Hap). fold c in Hap.
  pose proof Hgr as (_ & Ha0 & Ha16 & Hos & Hapart). fold c in Hapart.
  assert (Hback : forall x g', headers p' !! x = Some g' -> x = answer /\ page_count g' = c \/
    x <> answer /\ exists g, headers p !! x = Some g /\ page_count g' = page_count g).
  { intros x g' Hx. specialize (Hcount x). rewrite Hx in Hcount. cbn in Hcount. case_decide; [left; split; congruence | right; split; [done|]].
    destruct (headers p !! x) as [g|]; [|discriminate]. exists g. split; [done|]. by injection Hcount. }
  assert (Hfwd : forall x g, headers p !! x = Some g -> x <> answer /\ exists g', headers p' !! x = Some g' /\ page_count g' = page_count g).
  { intros x g Hx. assert (x <> answer) by congruence. split; [done|]. specialize (Hcount x). rewrite Hx, decide_False in Hcount by done.
    destruct (headers p' !! x) as [g'|]; [|discriminate]. exists g'. split; [done|]. by injection Hcount. }
  assert (Hpage : exists g', headers p' !! answer = Some g' /\ page_count g' = c).
  { specialize (Hcount answer). rewrite decide_True in Hcount by done. destruct (headers p' !! answer) as [g'|]; [|discriminate].
    exists g'. split; [done|]. by injection Hcount. }
  split; rewrite ?Eos; try done.
  - intros x g' Hx. destruct (Hback x g' Hx) as [[-> ->] | (Hne & g & Hx' & ->)].
    + split_and!; [done | done | lia | lia | by rewrite lookup_insert_eq | done].
    + destruct (gd_page _ _ _ Hg x g Hx') as (? & ? & ? & ? & ?). rewrite lookup_insert_ne by done. done.
  - intros x Hx. assert (Hne : x <> answer) by (destruct Hpage as (g' & ? & _); congruence).
    rewrite lookup_insert_ne by done. apply (gd_others _ _ _ Hg). destruct (headers p !! x) as [g|] eqn:E; [|done].
    destruct (Hfwd x g E) as (_ & g' & ? & _). congruence.
  - intros x y n m Hx Hy Hne. apply lookup_insert_Some in Hx as [[<- <-] | [Hxa Hx]], Hy as [[<- <-] | [Hya Hy]]; [done | ..].
    + by apply Hapart.
    + specialize (Hapart x n Hx). unfold apart in *. cbn in *. lia.
    + by apply (gd_apart _ _ _ Hg).
  - destruct Hcur as [(-> & -> & ->) | (-> & Hc0 & -> & ->)].
    + right. destruct Hpage as (g' & Hg' & Eg). exists g'. rewrite Eg. split_and!; [done | done | lia | lia | by apply Z.divide_add_r].
    + destruct (gd_current _ _ _ Hg) as [(? & _) | (g & Hx & Es & Ho & Hd)]; [done|]. right.
      destruct (Hfwd _ _ Hx) as (_ & g' & Hx' & Eg). exists g'. rewrite Eg. done.
  - intros b [->|Hb]%elem_of_cons.
    + destruct Hpage as (g' & Hg' & Eg). exists answer, g'. rewrite Eg. cbn [fst snd]. split_and!; [done | | lia | lia | lia |].
      * apply Z.divide_add_r; [by apply divide_alignment | done].
      * destruct Hcur as [(_ & _ & ->) | (-> & Hc0 & _)]; [lia|]. intros ->.
        destruct (gd_current _ _ _ Hg) as [(? & _) | (g & Hx & _)]; [done | congruence].
    + destruct (gd_block _ _ _ Hg b Hb) as (x & g & Hx & Hd & Hb2 & Hlo & Hhi & Hcb).
      destruct (Hfwd x g Hx) as (Hne & g' & Hx' & Eg). exists x, g'. rewrite Eg. split_and!; try done.
      destruct Hcur as [(-> & _) | (-> & _ & _ & ->)]; [done | done].
  - constructor; [|apply (gd_blocks _ _ _ Hg)]. apply List.Forall_forall. intros b Hb%list_elem_of_In.
    specialize (Hap b Hb). unfold apart in *. cbn in *. lia.
Qed.

Lemma chain_link others p bs answer c :
  good others p bs -> headers p !! answer = None -> answer <> 0 -> _current_page p <> 0 ->
  forall g, headers p !! _current_page p = Some g ->
  exists ps, chain (<[_current_page p := mk_page answer (page_count g)]> (<[answer := mk_page (prev g) c]> (headers p)))
      (_current_page p) ps /\ NoDup ps /\
    forall x, is_Some (<[_current_page p := mk_page answer (page_count g)]> (<[answer := mk_page (prev g) c]> (headers p)) !! x) <-> x ∈ ps.
Proof.
  intros Hg Hn Ha Hc0 g Hx. destruct (gd_chain _ _ _ Hg) as (ps & Hc & Hnd & Hdom).
  assert (Hane : answer <> _current_page p) by congruence.
  inversion Hc as [E|? g0 l _ Hg0 Hl E]; subst; [congruence|]. rewrite Hx in Hg0. injection Hg0 as <-.
  apply NoDup_cons in Hnd as [Hnl Hnd]. assert (Hal : answer ∉ l).
  { intros Hin. assert (is_Some (headers p !! answer)) as [? ?] by (apply Hdom; by apply list_elem_of_further). congruence. }
  exists (_current_page p :: answer :: l). split_and!.
  - eapply chain_cons; [done | by rewrite lookup_insert_eq |]. cbn [prev].
    eapply chain_cons; [done | by rewrite lookup_insert_ne, lookup_insert_eq |]. cbn [prev].
    eapply pages_frame; [|done]. intros y Hy. rewrite !lookup_insert_ne; [done | congruence | congruence].
  - apply NoDup_cons. split; [set_solver|]. by apply NoDup_cons.
  - intros x. rewrite !lookup_insert_is_Some', Hdom, !elem_of_cons. naive_solver.
Qed.

Lemma chain_front others p bs answer c :
  good others p bs -> headers p !! answer = None -> answer <> 0 ->
  exists ps, chain (<[answer := mk_page (_current_page p) c]> (headers p)) answer ps /\ NoDup ps /\
    forall x, is_Some (<[answer := mk_page (_current_page p) c]> (headers p) !! x) <-> x ∈ ps.
Proof.
  intros Hg Hn Ha. destruct (gd_chain _ _ _ Hg) as (ps & Hc & Hnd & Hdom).
  assert (Hal : answer ∉ ps) by (intros Hin; apply Hdom in Hin as [? ?]; congruence).
  exists (answer :: ps). split_and!.
  - eapply chain_cons; [done | by rewrite lookup_insert_eq |]. cbn [prev].
    eapply pages_frame; [|done]. intros y Hy. rewrite lookup_insert_ne; [done | congruence].
  - by apply NoDup_cons.
  - intros x. rewrite lookup_insert_is_Some', Hdom, elem_of_cons. naive_solver.
Qed.

Lemma allocate_good others p bs answer size :
  good others p bs -> 0 < size <= 2 ^ 30 -> granted p answer size ->
  exists addr p', allocate alignment answer size p = Ok (addr, p') /\ good others p' ((addr, size) :: bs).
Proof.
  intros Hg Hs Hgr. destruct (align_spec size) as (Hs1 & Hs2 & _); [lia..|]. pose proof header_size_spec as [Hh Hha].
  destruct (current_range _ _ _ Hg) as [Ho Hp]. pose proof (granted_pages _ _ _ Hgr) as Ez. cbv zeta in Ez.
  destruct (new_page_count_spec (align size) ltac:(lia)) as (Hc & Hfit & Eu).
  destruct (granted_fresh _ _ _ _ _ Hg Hgr) as (Hnew & _ & _). pose proof Hgr as (_ & Ha0 & _).
  unfold allocate. destruct (Z.eqb_spec size 0); [lia|]. cbv zeta. rewrite (u32_small (_current_offset p + _)) by (unfold in_u; lia).
  destruct (Z.ltb_spec (_current_page_size p) (_current_offset p + align size)) as [Hfull|Hroom];
    [|eexists _, _; split; [done | by apply cut_good]].
  rewrite Ez, Eu. cbn [require negb]. destruct (Z.eqb_spec answer 0); [done|]. cbn [negb require mbind result_bind].
  cbn [_current_page_size _current_offset _current_page with_allocator].
  set (c := new_page_count alignment (align size)) in *. set (z := zone_allocator.with_os _ _).
  unfold page_size in Hfit, Eu |- *. rewrite (u32_small (header_size + _)), (u32_small (4096 * c - _)), (u32_small (_ - _)) by (unfold in_u; lia).
  destruct (Z.leb_spec (_current_page_size p - _current_offset p) (4096 * c - (header_size + align size))) as [Hle|Hgt].
  - eexists _, _. split; [done|]. apply (page_good others p bs); try done.
    + cbn. destruct (chain_front _ _ _ answer c Hg Hnew Ha0) as (ps & ?). by exists ps.
    + intros x. cbn. case_decide as Hd; [subst; by rewrite lookup_insert_eq | by rewrite lookup_insert_ne by congruence].
    + left. done.
  - destruct (gd_current _ _ _ Hg) as [(_ & Eo & Es) | (g & Hx & _)]; [unfold page_size in *; lia|].
    destruct (gd_page _ _ _ Hg _ _ Hx) as (Hx0 & _). assert (Hne : answer <> _current_page p) by congruence.
    unfold header_at. cbn [headers with_allocator]. rewrite Hx. cbn [of_option mbind result_bind].
    eexists _, _. split; [done|]. apply (page_good others p bs); try done.
    + cbn. destruct (chain_link _ _ _ answer c Hg Hnew Ha0 Hx0 g Hx) as (ps & ?). by exists ps.
    + intros x. cbn. destruct (decide (x = _current_page p)) as [->|Hd].
      * rewrite lookup_insert_eq, decide_False by done. by rewrite Hx.
      * rewrite lookup_insert_ne by done. case_decide; [subst; by rewrite lookup_insert_eq | by rewrite lookup_insert_ne by congruence].
    + right. done.
Qed.

(** The loop of [clear] ends: it takes one turn for each page. *)
Lemma clear_loop_good ps : forall fuel p (others : gmap Z Z),
  (length ps <= fuel)%nat -> chain (headers p) (_current_page p) ps -> NoDup ps ->
  (forall x g, headers p !! x = Some g -> x ∈ ps) ->
  (forall x, x ∈ ps -> is_Some (zone_allocator.os (_allocator p) !! x) /\ others !! x = None) ->
  (forall x, x ∉ ps -> zone_allocator.os (_allocator p) !! x = others !! x) ->
  exists p', clear_loop fuel p = Ok p' /\ _current_page p' = 0 /\ headers p' = ∅ /\ zone_allocator.os (_allocator p') = others.
Proof.
  induction ps as [|x ps IH]; intros fuel p others Hl Hc Hnd Hdom Hos Hother; inversion Hc as [|? g ? Hx Hg Hc']; subst.
  - exists p. assert (Hend : clear_loop fuel p = Ok p) by (destruct fuel; cbn; by rewrite <- H).
    split; [done|]. split; [done|]. split.
    + apply map_empty. intros x. destruct (headers p !! x) as [g|] eqn:E; [|done]. by apply Hdom, not_elem_of_nil in E.
    + apply map_eq. intros x. apply Hother, not_elem_of_nil.
  - destruct fuel as [|fuel]; [cbn in Hl; lia|]. cbn [length] in Hl. apply NoDup_cons in Hnd as [Hnx Hnd].
    cbn [clear_loop]. destruct (Z.eqb_spec (_current_page p) 0); [done|].
    unfold header_at. rewrite Hg. cbn [of_option mbind result_bind]. unfold zone_allocator.deallocate_pages. destruct (Z.eqb_spec (_current_page p) 0); [done|].
    destruct (Hos _ (list_elem_of_here _ _)) as [Hsome Hnone]. rewrite bool_decide_eq_true_2 by done. cbn [require mbind result_bind].
    apply IH; cbn [headers _current_page _allocator with_current without_header with_allocator zone_allocator.os zone_allocator.with_os]; try done; [lia| | | |].
    + eapply pages_frame; [|done]. intros y Hy. apply lookup_delete_ne. by intros <-.
    + intros y g' [Hne Hy]%lookup_delete_Some. apply Hdom, elem_of_cons in Hy as [->|Hy]; [done | done].
    + intros y Hy. assert (y <> _current_page p) by (by intros ->). rewrite lookup_delete_ne by done. apply Hos. by apply list_elem_of_further.
    + intros y Hy. destruct (decide (y = _current_page p)) as [->|Hne]; [by rewrite lookup_delete_eq|].
      rewrite lookup_delete_ne by done. apply Hother. set_solver.
Qed.

Lemma clear_good others p bs :
  good others p bs ->
  exists p', clear p = Ok p' /\ good others p' [] /\ zone_allocator.os (_allocator p') = others.
Proof.
  intros Hg. destruct (gd_chain _ _ _ Hg) as (ps & Hc & Hnd & Hdom).
  destruct (clear_loop_good ps (size (headers p)) p others) as (p' & E & Hcur & Hh & Ho); try done.
  - rewrite <- (size_list_to_set (C := gset Z)), <- size_dom by done. apply subseteq_size. intros x Hx%elem_of_list_to_set.
    by apply elem_of_dom, Hdom.
  - intros x g Hx. apply Hdom. eauto.
  - intros x [g Hx]%Hdom. destruct (gd_page _ _ _ Hg x g Hx) as (_ & _ & _ & O & N). split; [eauto | done].
  - intros x Hx. apply (gd_others _ _ _ Hg). apply eq_None_not_Some. by rewrite Hdom.
  - unfold clear. rewrite E. cbn [mbind result_bind]. eexists. split; [done|]. split; [|done].
    split; cbn [headers _current_page _current_offset _current_page_size _allocator with_current]; rewrite ?Hh, ?Hcur, ?Ho; try done.
    + exists []. split; [constructor|]. split; [constructor|]. intros x. rewrite lookup_empty. split; [by intros [? ?] | by intros ?%not_elem_of_nil].
    + intros x y n m Hx Hy Hne. apply (gd_apart _ _ _ Hg); [| |done].
      * destruct (headers p !! x) as [g|] eqn:Eh; [destruct (gd_page _ _ _ Hg x g Eh) as (_ & _ & _ & _ & N); congruence|].
        by rewrite (gd_others _ _ _ Hg).
      * destruct (headers p !! y) as [g|] eqn:Eh; [destruct (gd_page _ _ _ Hg y g Eh) as (_ & _ & _ & _ & N); congruence|].
        by rewrite (gd_others _ _ _ Hg).
    + by left.
    + by intros b ?%not_elem_of_nil.
    + constructor.
Qed.

(** The life of a pool: requests that the system grants, and [clear]. *)
Inductive reachable (zone : zone_allocator.t) : t -> list region -> Prop :=
  | reachable_make : reachable zone (make zone) []
  | reachable_allocate p bs answer size addr p' :
      reachable zone p bs -> 0 < size <= 2 ^ 30 -> granted p answer size ->
      allocate alignment answer size p = Ok (addr, p') -> reachable zone p' ((addr, size) :: bs)
  | reachable_clear p bs p' : reachable zone p bs -> clear p = Ok p' -> reachable zone p' [].

(** The memory in use by others consists of regions that are apart. *)
Definition zone_ok (zone : zone_allocator.t) : Prop := forall x y n m,
  zone_allocator.os zone !! x = Some n -> zone_allocator.os zone !! y = Some m -> x <> y -> apart (x, n) (y, m).

Lemma make_good zone : zone_ok zone -> good (zone_allocator.os zone) (make zone) [].
Proof.
  intros Hz. split; cbn; try done.
  - exists []. split; [constructor|]. split; [constructor|]. intros x. rewrite lookup_empty. split; [by intros [? ?] | by intros ?%not_elem_of_nil].
  - by left.
  - by intros b ?%not_elem_of_nil.
  - constructor.
Qed.

Lemma pool_reachable_good zone p bs : zone_ok zone -> reachable zone p bs -> good (zone_allocator.os zone) p bs.
Proof.
  intros Hz. induction 1 as [|p bs answer size addr p' _ IH Hs Hgr E|p bs p' _ IH E]; [by apply make_good | |].
  - destruct (allocate_good _ _ _ _ _ IH Hs Hgr) as (addr' & p'' & E' & Hg). congruence.
  - destruct (clear_good _ _ _ IH) as (p'' & E' & Hg & _). congruence.
Qed.

(** C37. Blocks of a pool.  From the making of a pool on, whatever is allocated and cleared, the
    blocks given out since the last [clear] are aligned, do not overlap each other and lie in
    pages that the pool owns, behind the headers of the pages and away from the memory of
    others.  A request for up to 2^30 bytes succeeds if the system grants the pages it may
    need. *)
Theorem blocks_are_disjoint zone p bs :
  zone_ok zone -> reachable zone p bs ->
  ForallOrdPairs apart bs /\
  (forall b, b ∈ bs -> (alignment | b.1) /\
    exists x g, headers p !! x = Some g /\ zone_allocator.os zone !! x = None /\
      zone_allocator.os (_allocator p) !! x = Some (page_size * page_count g) /\
      x + header_size <= b.1 /\ b.1 + b.2 <= x + page_size * page_count g) /\
  (forall x, zone_allocator.os zone !! x <> None -> zone_allocator.os (_allocator p) !! x = zone_allocator.os zone !! x) /\
  forall answer size, 0 < size <= 2 ^ 30 -> granted p answer size ->
    exists addr p', allocate alignment answer size p = Ok (addr, p') /\ reachable zone p' ((addr, size) :: bs).
Proof.
  intros Hz Hr. pose proof (pool_reachable_good _ _ _ Hz Hr) as Hg. split; [apply (gd_blocks _ _ _ Hg)|]. split; [|split].
  - intros b Hb. destruct (gd_block _ _ _ Hg b Hb) as (x & g & Hx & Hd & _ & Hlo & Hhi & _).
    destruct (gd_page _ _ _ Hg x g Hx) as (_ & _ & _ & Ho & Hn). split; [done|]. exists x, g. done.
  - intros x Hx. apply (gd_others _ _ _ Hg). destruct (headers p !! x) as [g|] eqn:E; [|done].
    by destruct (gd_page _ _ _ Hg x g E) as (_ & _ & _ & _ & ?).
  - intros answer size Hs Hgr. destruct (allocate_good _ _ _ _ _ Hg Hs Hgr) as (addr & p' & E & _).
    exists addr, p'. split; [done|]. by eapply reachable_allocate.
Qed.

(** C38. Clearing a pool.  In every state of a pool the loop of [clear] ends: it frees every page
    once and nothing else, so that the memory of the system is what it was when the pool was
    made, and the pool is empty again. *)
Theorem clear_frees_every_page zone p bs :
  zone_ok zone -> reachable zone p bs ->
  exists p', clear p = Ok p' /\ zone_allocator.os (_allocator p') = zone_allocator.os zone /\
    _current_page p' = 0 /\ headers p' = ∅ /\ reachable zone p' [].
Proof.
  intros Hz Hr. destruct (clear_good _ _ _ (pool_reachable_good _ _ _ Hz Hr)) as (p' & E & Hg & Ho).
  exists p'. split; [done|]. split; [done|].
  assert (Hh : headers p' = ∅).
  { apply map_empty. intros x. destruct (headers p' !! x) as [g|] eqn:Ex; [|done].
    destruct (gd_page _ _ _ Hg x g Ex) as (_ & _ & _ & O & N). congruence. }
  split; [|split; [done | by eapply reachable_clear]].
  destruct (gd_current _ _ _ Hg) as [(H0 & _) | (g & Hx & _)]; [done|]. by rewrite Hh, lookup_empty in Hx.
Qed.
End pool.

(** ** An example: two pages, with memory of others between them *)
Definition example_zone : zone_allocator.t := zone_allocator.make 0 {[ 98304 := 64 ]}.

Definition example_pool : t :=
  match allocate 8 65536 100 (make example_zone) with
  | Ok (_, p) => match allocate 8 131072 10000 p with Ok (_, p) => p | Fault _ => p end
  | Fault _ => make example_zone
  end.

Lemma example_zone_ok : zone_ok example_zone.
Proof.
  intros x y n m Hx Hy Hne. apply elem_of_map_to_list in Hx, Hy. vm_compute in Hx, Hy.
  apply list_elem_of_singleton in Hx as [= -> ->], Hy as [= -> ->]. done.
Qed.

Lemma example_pool_reachable : reachable 3 example_zone example_pool [(131096, 10000); (65560, 100)].
Proof.
  eapply (reachable_allocate 3 _ _ _ 131072); [eapply (reachable_allocate 3 _ _ _ 65536); [apply reachable_make | done | | reflexivity] | done | | reflexivity].
  - split; [reflexivity|]. split; [done|]. split; [by exists 4096|]. split; [reflexivity|].
    intros x m Hx%elem_of_map_to_list. vm_compute in Hx. apply list_elem_of_singleton in Hx as [= -> ->].
    left. vm_compute. congruence.
  - split; [reflexivity|]. split; [done|]. split; [by exists 8192|]. split; [reflexivity|].
    intros x m Hx%elem_of_map_to_list. vm_compute in Hx.
    apply elem_of_cons in Hx as [[= -> ->] | Hx]; [|apply list_elem_of_singleton in Hx as [= -> ->]];
      right; vm_compute; congruence.
Qed.

Lemma blocks_are_disjoint_witness :
  (2 <= 3 <= 4 /\ zone_ok example_zone /\ reachable 3 example_zone example_pool [(131096, 10000); (65560, 100)]) /\
  ForallOrdPairs apart [(131096, 10000); (65560, 100)].
Proof.
  assert (Hk : 2 <= 3 <= 4) by lia.
  split; [split_and!; [done | done | apply example_zone_ok | apply example_pool_reachable]|].
  apply (blocks_are_disjoint 3 Hk example_zone example_pool _ example_zone_ok example_pool_reachable).
Defined.

Lemma clear_frees_every_page_witness :
  (2 <= 3 <= 4 /\ zone_ok example_zone /\ reachable 3 example_zone example_pool [(131096, 10000); (65560, 100)]) /\
  exists p', clear example_pool = Ok p' /\ zone_allocator.os (_allocator p') = {[ 98304 := 64 ]} /\
    _current_page p' = 0 /\ headers p' = ∅ /\ reachable 3 example_zone p' [].
Proof.
  assert (Hk : 2 <= 3 <= 4) by lia.
  split; [split_and!; [done | done | apply example_zone_ok | apply example_pool_reachable]|].
  exact (clear_frees_every_page 3 Hk example_zone example_pool _ example_zone_ok example_pool_reachable).
Defined.
End pool.
