(* ===== verification/Address.v ===== *)
(** * Network addresses: torque_sockets/address.h

    An [address] is a host and a port in host order.  Name resolution ([set],
    [dns_resolve], [get_interface_addresses]) belongs to the operating system. *)
From S2P Require Import Prelude Endian BitStream StreamIO.

(** [uint32 _host; uint16 _port]. *)
Record address : Type := mk_address { _host : Z; _port : Z }.

#[export] Instance address_eq_dec : EqDecision address.
Proof. solve_decision. Defined.

Inductive named_address : Type := null | localhost | broadcast | any.

Definition INADDR_BROADCAST : Z := 0xFFFFFFFF.
Definition INADDR_ANY : Z := 0.

Definition address_of_name (name : named_address) (port : Z) : address :=
  match name with
  | null => mk_address 0 port
  | localhost => mk_address 0x7f000001 port
  | broadcast => mk_address INADDR_BROADCAST port
  | any => mk_address INADDR_ANY port
  end.

Definition address_eqb (a b : address) : bool := (_host a =? _host b) && (_port a =? _port b).
Definition is_same_host (a b : address) : bool := _host a =? _host b.

(** [operator!=], with the conjunction of the source. *)
Definition address_neqb (a b : address) : bool :=
  negb (_host a =? _host b) && negb (_port a =? _port b).

Definition address_hash (a : address) : Z := Z.lxor (_host a) (u32 (Z.shiftl (_port a) 8)).

(** The socket library's [SOCKADDR_IN]: port and host in network order. *)
Record sockaddr : Type := mk_sockaddr { sa_family : Z; sin_port : Z; s_addr : Z }.
Definition AF_INET : Z := 2.
Definition htons : Z -> Z := endian_swap16.
Definition htonl : Z -> Z := endian_swap32.

Definition from_sockaddr (a : address) (socket_address : sockaddr) : address :=
  if sa_family socket_address =? AF_INET
  then mk_address (htonl (s_addr socket_address)) (htons (sin_port socket_address))
  else a.

Definition to_sockaddr (a : address) : sockaddr :=
  mk_sockaddr AF_INET (htons (_port a)) (htonl (_host a)).

Definition address_ok (a : address) : Prop := is_u32 (_host a) /\ is_u16 (_port a).

Lemma address_eqb_spec a b : address_eqb a b = true <-> a = b.
Proof.
  unfold address_eqb. rewrite andb_true_iff, !Z.eqb_eq.
  destruct a, b. cbn. split; [intros [-> ->] | intros [= -> ->]]; done.
Qed.

Lemma address_hash_range a : address_ok a -> is_u32 (address_hash a).
Proof.
  intros [[Hh Hh'] Hp]. unfold address_hash. apply in_u_of_bits; [lia | |].
  { apply Z.lxor_nonneg. pose proof (u32_range (Z.shiftl (_port a) 8)). unfold in_u in *. lia. }
  intros i Hi. rewrite Z.lxor_spec, !(testbit_high 32) by (done || apply u32_range). done.
Qed.

(** The converse of [to_sockaddr] recovers the address, whatever the target held. *)
Lemma from_to_sockaddr a old : address_ok a -> from_sockaddr old (to_sockaddr a) = a.
Proof.
  intros [Hh Hp]. unfold from_sockaddr, to_sockaddr, htons, htonl. cbn.
  rewrite endian_swap32_invol, endian_swap16_invol by done. by destruct a.
Qed.

(** [operator!=] misses addresses that differ in one component only. *)
Example address_neqb_misses :
  address_neqb (mk_address 1 80) (mk_address 1 81) = false /\ mk_address 1 80 <> mk_address 1 81.
Proof. split; [reflexivity | discriminate]. Qed.

(** ** [read]/[write] of an address: the port follows only if the host succeeded. *)
Definition write_address (s : bit_stream) (a : address) : result (bit_stream * bool) :=
  '(s, ok) ← write_scalar 4 s (_host a);
  if negb ok then Ok (s, false) else write_scalar 2 s (_port a).

Definition read_address (s : bit_stream) (old : address) : result (bit_stream * address * bool) :=
  '(s, host, ok) ← read_scalar 4 s (_host old);
  if negb ok then Ok (s, mk_address host (_port old), false)
  else
    '(s, port, ok) ← read_scalar 2 s (_port old);
    Ok (s, mk_address host port, ok).

#[export] Instance address_codec : Codec address := {|
  enc a := int_bits 32 (_host a) ++ int_bits 16 (_port a);
  typed := address_ok;
  valid := address_ok;
  write := write_address;
  read := read_address
|}.

#[export] Instance address_laws : CodecLaws address.
Proof.
  split.
  - intros s a Hok [Hh Hp] Hsp. cbn [enc write address_codec] in *. unfold write_address.
    rewrite length_app, !length_int_bits in Hsp.
    destruct (write_scalar_appended 4 s (_host a)) as (s1 & -> & Ha1); [done | done | lia |].
    pose proof (appended_space _ _ _ Ha1) as Hs1. rewrite length_int_bits in Hs1. cbn.
    destruct (write_scalar_appended 2 s1 (_port a)) as (s2 & -> & Ha2);
      [apply Ha1 | done | lia |].
    do 2 eexists. split; [done|]. by apply (appended_trans _ _ s1).
  - intros s old a r Hok _ [Hh Hp] Hu. cbn [enc read address_codec] in *. unfold read_address.
    rewrite <- app_assoc in Hu.
    destruct (read_scalar_upcoming 4 ltac:(lia) s (_host old) (_host a)
      (int_bits 16 (_port a) ++ r)) as (s1 & -> & Hc1); [done | done | done |]. cbn.
    destruct (read_scalar_upcoming 2 ltac:(lia) s1 (_port old) (_port a) r) as (s2 & -> & Hc2);
      [apply Hc1 | done | by eapply consumed_upcoming |].
    cbn. destruct a. do 2 eexists. split; [done|]. by apply (consumed_trans _ _ s1).
  - intros s old Hok [Hh Hp]. cbn [read address_codec]. unfold read_address.
    destruct (read_scalar_total 4 ltac:(lia) s (_host old))
      as (s1 & h & ok & -> & Hh' & Hok1 & Hb1 & He1); [done|]. cbn.
    destruct ok; cbn.
    + destruct (read_scalar_total 2 ltac:(lia) s1 (_port old))
        as (s2 & p & ok & -> & Hp' & Hok2 & Hb2 & He2); [done|]. cbn.
      do 3 eexists. split; [done|]. split_and!; (done || congruence).
    + do 3 eexists. split; [done|]. split_and!; done.
Qed.
