(* ===== verification/AddressText.v ===== *)
(** * Addresses as text: torque_sockets/address.h

    [address::to_string] writes an address the way people do - "localhost:80",
    "10.0.0.2:5000" - and [address::set] reads it.  Strings are their bytes, without the
    terminating zero; [atoi] and the format "%d" of the C library are written out.  The calls
    of the operating system, [inet_addr] and [gethostbyname], are a parameter ([Resolver]). *)
From Stdlib Require Import Ascii String.
From S2P Require Import Prelude Endian BitStream StreamIO Address.
#[local] Open Scope Z_scope.

Definition text (s : string) : bytes := map (fun c => Z.of_N (N_of_ascii c)) (list_ascii_of_string s).

(** [strlen], [strcmp] and [strchr] at the first [c] *)
Definition strlen (s : bytes) : Z := blen s.
Definition same_text (s t : bytes) : bool := bool_decide (s = t).
Fixpoint split_at (c : Z) (s : bytes) : bytes * option bytes :=
  match s with
  | [] => ([], None)
  | x :: s => if x =? c then ([], Some s) else let '(front, back) := split_at c s in (x :: front, back)
  end.

(** The format "%d" of a value below 10^10. *)
Fixpoint digits (fuel : nat) (n : Z) : bytes :=
  match fuel with
  | O => []
  | S fuel => if n <? 10 then [48 + n] else digits fuel (n / 10) ++ [48 + n mod 10]
  end.
Definition decimal (n : Z) : bytes := digits 10 n.

(** [atoi]: the value of [strtol], cut to an [int]. *)
Definition isspace (c : Z) : bool := (c =? 32) || ((9 <=? c) && (c <=? 13)).
Definition isdigit (c : Z) : bool := (48 <=? c) && (c <=? 57).
Fixpoint skip_spaces (s : bytes) : bytes :=
  match s with c :: t => if isspace c then skip_spaces t else s | [] => [] end.
Fixpoint number (acc : Z) (s : bytes) : Z :=
  match s with c :: s => if isdigit c then number (acc * 10 + (c - 48)) s else acc | [] => acc end.
Definition strtol (s : bytes) : Z :=
  match skip_spaces s with
  | c :: t =>
      if c =? 45 then Z.max (- 2 ^ 63) (- number 0 t)
      else Z.min (2 ^ 63 - 1) (number 0 (if c =? 43 then t else c :: t))
  | [] => 0
  end.
Definition atoi (s : bytes) : Z := s32 (strtol s).

(** The name services of the operating system, with addresses in network order. *)
Class Resolver : Type := {
  inet_addr : bytes -> Z;
  gethostbyname : bytes -> option (list Z)
}.

Definition INADDR_NONE : Z := 0xFFFFFFFF.
Definition colon : Z := 58.
Definition dot : Z := 46.

Definition dotted (a b c d : Z) : bytes := decimal a ++ dot :: decimal b ++ dot :: decimal c ++ dot :: decimal d.

Section text.
Context `{Resolver}.

(** [sockets_init] has nothing to do but on Windows. *)
Definition sockets_init : bool := true.
Definition max_address_string_len : Z := 255.

Definition dns_resolve (public_name : bytes) : bool * list address :=
  match gethostbyname public_name with
  | None => (false, [])
  | Some h_addr_list => (negb (Z.of_nat (length h_addr_list) =? 0),
      map (fun s_addr => mk_address (htonl s_addr) 0) h_addr_list)
  end.

Definition set (string : bytes) (dns_lookup : bool) (port : Z) : result (bool * address) :=
  if negb sockets_init then Ok (false, mk_address INADDR_NONE port) else
  let string := if same_text (take 3 string) (text "ip:") then drop 3 string else string in
  if max_address_string_len <? strlen string then Ok (false, mk_address INADDR_NONE port) else
  let '(remote_addr, port_string) := split_at colon string in
  let port := match port_string with
              | Some port_string => if port =? 0 then u16 (atoi port_string) else port
              | None => port
              end in
  if same_text remote_addr (text "broadcast") then Ok (true, mk_address INADDR_BROADCAST port)
  else if same_text remote_addr (text "localhost") then Ok (true, mk_address 0x7F000001 port)
  else if same_text remote_addr (text "any") then Ok (true, mk_address INADDR_ANY port)
  else
    let host := htonl (inet_addr remote_addr) in
    if (host =? INADDR_NONE) && dns_lookup then
      let '(found, resolved_addresses) := dns_resolve remote_addr in
      if negb found then Ok (false, mk_address host port)
      else a ← of_option out_of_bounds (resolved_addresses !! 0%nat); Ok (true, mk_address (_host a) port)
    else Ok (true, mk_address host port).

(** [format_string] with "%d" for each number. *)
Definition to_string (a : address) : bytes :=
  let host := _host a in
  (if host =? INADDR_BROADCAST then text "broadcast"
   else if host =? INADDR_ANY then text "any"
   else if host =? 0x7f000001 then text "localhost"
   else dotted (u8 (Z.shiftr host 24)) (u8 (Z.shiftr host 16)) (u8 (Z.shiftr host 8)) (u8 host))
  ++ colon :: decimal (_port a).

(** ** Numbers as text *)
Lemma isdigit_spec d : 0 <= d < 10 -> isdigit (48 + d) = true.
Proof. intros Hd. unfold isdigit. apply andb_true_iff. split; apply Z.leb_le; lia. Qed.

Lemma digits_isdigit fuel n : 0 <= n -> Forall (fun c => isdigit c = true) (digits fuel n).
Proof.
  revert n. induction fuel as [|fuel IH]; intros n Hn; cbn; [constructor|].
  destruct (Z.ltb_spec n 10); [by constructor; [apply isdigit_spec|]|].
  apply Forall_app. split; [apply IH; zlia|]. constructor; [apply isdigit_spec; zlia | constructor].
Qed.

Lemma number_app acc s t :
  Forall (fun c => isdigit c = true) s -> number acc (s ++ t) = number (number acc s) t.
Proof. intros Hs. revert acc. induction Hs as [|c s Hc Hs IH]; intros acc; [done|]. cbn. rewrite Hc. apply IH. Qed.

Lemma number_digits fuel n : 0 <= n < 10 ^ Z.of_nat fuel -> number 0 (digits fuel n) = n.
Proof.
  revert n. induction fuel as [|fuel IH]; intros n Hn; [cbn in *; lia|].
  rewrite Nat2Z.inj_succ, Z.pow_succ_r in Hn by lia. cbn [digits].
  destruct (Z.ltb_spec n 10).
  - cbn. rewrite isdigit_spec by lia. lia.
  - rewrite number_app by (apply digits_isdigit; zlia). rewrite IH by zlia.
    cbn. rewrite isdigit_spec by zlia. zlia.
Qed.

Lemma digits_length fuel n : (length (digits fuel n) <= fuel)%nat.
Proof.
  revert n. induction fuel as [|fuel IH]; intros n; [done|]. cbn.
  destruct (n <? 10); cbn; [lia|]. rewrite length_app. cbn. specialize (IH (n / 10)). lia.
Qed.

(** A number begins with a digit, and has nothing but digits. *)
Lemma decimal_head n : 0 <= n -> exists c t, decimal n = c :: t /\ isdigit c = true.
Proof.
  intros Hn. pose proof (digits_isdigit 10 n Hn) as Hd. unfold decimal in *.
  assert (digits 10 n <> []).
  { cbn [digits]. destruct (n <? 10); [done|]. intros Hx. by apply app_eq_nil in Hx as [_ ?]. }
  destruct (digits 10 n) as [|c t]; [done|]. inversion Hd. eauto.
Qed.

Lemma decimal_lacks c n : 0 <= n -> isdigit c = false -> c ∉ decimal n.
Proof.
  intros Hn Hc Hin. pose proof (digits_isdigit 10 n Hn) as Hd. rewrite list.Forall_forall in Hd.
  specialize (Hd c Hin). congruence.
Qed.

Lemma atoi_decimal n : 0 <= n < 2 ^ 31 -> atoi (decimal n) = n.
Proof.
  intros Hn. destruct (decimal_head n ltac:(lia)) as (c & t & E & Hc). unfold atoi, strtol. rewrite E.
  assert (48 <= c <= 57) by (unfold isdigit in Hc; apply andb_true_iff in Hc as [?%Z.leb_le ?%Z.leb_le]; lia).
  cbn [skip_spaces]. assert (isspace c = false) as -> by (unfold isspace; destruct (Z.eqb_spec c 32), (Z.leb_spec 9 c), (Z.leb_spec c 13); done || lia).
  destruct (Z.eqb_spec c 45); [lia|]. destruct (Z.eqb_spec c 43); [lia|].
  rewrite <- E. unfold decimal. rewrite number_digits by (cbn; lia). rewrite Z.min_r by lia.
  unfold s32. rewrite u32_small by zlia. destruct (Z.ltb_spec n (2 ^ 31)); lia.
Qed.

Lemma split_at_app c s t : c ∉ s -> split_at c (s ++ c :: t) = (s, Some t).
Proof.
  induction s as [|x s IH]; intros Hc; cbn; [by rewrite Z.eqb_refl|].
  rewrite not_elem_of_cons in Hc. destruct (Z.eqb_spec x c); [naive_solver|]. by rewrite IH by naive_solver.
Qed.

Lemma split_at_none c s : c ∉ s -> split_at c s = (s, None).
Proof.
  induction s as [|x s IH]; intros Hc; cbn; [done|].
  rewrite not_elem_of_cons in Hc. destruct (Z.eqb_spec x c); [naive_solver|]. by rewrite IH by naive_solver.
Qed.

(** ** Reading back what was written *)

(** [inet_addr] reads numbers and dots: the numbers are the bytes of its result in memory. *)
Class ResolverLaws : Prop := {
  inet_addr_dotted a b c d : is_u8 a -> is_u8 b -> is_u8 c -> is_u8 d ->
    inet_addr (dotted a b c d) = le_val [a; b; c; d]
}.

Lemma htonl_bytes h :
  is_u32 h -> htonl (le_val [u8 (Z.shiftr h 24); u8 (Z.shiftr h 16); u8 (Z.shiftr h 8); u8 h]) = h.
Proof.
  intros Hh. destruct (endian_swap_reverses_bytes 0 h 0 ltac:(split; lia)) as (_ & E & _).
  assert (Hr : reverse (le_bytes 4 h) = [u8 (Z.shiftr h 24); u8 (Z.shiftr h 16); u8 (Z.shiftr h 8); u8 h]).
  { cbn [le_bytes]. rewrite !Z.shiftr_shiftr by lia. done. }
  rewrite <- Hr, <- E, le_val_le_bytes, Z.mod_small by apply endian_swap32_range. by apply endian_swap32_invol.
Qed.

(** What stands before the colon, and which host it means. *)
Definition host_text (host : Z) : bytes :=
  if host =? INADDR_BROADCAST then text "broadcast"
  else if host =? INADDR_ANY then text "any"
  else if host =? 0x7f000001 then text "localhost"
  else dotted (u8 (Z.shiftr host 24)) (u8 (Z.shiftr host 16)) (u8 (Z.shiftr host 8)) (u8 host).

Definition read_host (name : bytes) : Z :=
  if same_text name (text "broadcast") then INADDR_BROADCAST
  else if same_text name (text "localhost") then 0x7F000001
  else if same_text name (text "any") then INADDR_ANY
  else htonl (inet_addr name).

Lemma dotted_head a b c d : 0 <= a -> exists x t, dotted a b c d = x :: t /\ isdigit x = true.
Proof.
  intros Ha. destruct (decimal_head a Ha) as (x & t & E & Hx). unfold dotted. rewrite E. by exists x, (t ++ dot :: decimal b ++ dot :: decimal c ++ dot :: decimal d).
Qed.

(** A text that begins with a digit is none of the names. *)
Lemma not_a_name x t name :
  isdigit x = true -> match name with c :: _ => isdigit c = false | [] => True end -> same_text (x :: t) name = false.
Proof. intros Hx Hn. apply bool_decide_eq_false_2. intros <-. congruence. Qed.

Lemma read_host_text `{!ResolverLaws} h : is_u32 h -> read_host (host_text h) = h.
Proof.
  intros Hh. unfold host_text. destruct (Z.eqb_spec h INADDR_BROADCAST) as [->|]; [done|].
  destruct (Z.eqb_spec h INADDR_ANY) as [->|]; [done|]. destruct (Z.eqb_spec h 0x7f000001) as [->|]; [done|].
  destruct (dotted_head (u8 (Z.shiftr h 24)) (u8 (Z.shiftr h 16)) (u8 (Z.shiftr h 8)) (u8 h)) as (x & t & E & Hx); [apply u8_range|].
  unfold read_host. rewrite E, !not_a_name by done. rewrite <- E, inet_addr_dotted by apply u8_range. by apply htonl_bytes.
Qed.

Lemma host_text_lacks h : colon ∉ host_text h /\ (length (host_text h) <= 43)%nat /\
  forall rest, same_text (take 3 (host_text h ++ rest)) (text "ip:") = false.
Proof.
  unfold host_text. destruct (_ =? INADDR_BROADCAST); [|destruct (_ =? INADDR_ANY); [|destruct (_ =? 0x7f000001)]].
  1-3: split_and!; [intros Hin%list_elem_of_In; vm_compute in Hin; naive_solver | vm_compute; lia |].
  1-3: intros rest; by apply bool_decide_eq_false_2.
  destruct (dotted_head (u8 (Z.shiftr h 24)) (u8 (Z.shiftr h 16)) (u8 (Z.shiftr h 8)) (u8 h)) as (x & t & E & Hx); [apply u8_range|].
  split_and!.
  - unfold dotted. rewrite !elem_of_app, !elem_of_cons, !elem_of_app, !elem_of_cons, elem_of_app, elem_of_cons.
    pose proof (decimal_lacks colon (u8 (Z.shiftr h 24)) ltac:(apply u8_range) eq_refl).
    pose proof (decimal_lacks colon (u8 (Z.shiftr h 16)) ltac:(apply u8_range) eq_refl).
    pose proof (decimal_lacks colon (u8 (Z.shiftr h 8)) ltac:(apply u8_range) eq_refl).
    pose proof (decimal_lacks colon (u8 h) ltac:(apply u8_range) eq_refl). unfold colon, dot in *. naive_solver lia.
  - unfold dotted, decimal. rewrite !length_app. cbn [length]. rewrite !length_app. cbn [length]. rewrite length_app. cbn [length].
    pose proof (digits_length 10 (u8 (Z.shiftr h 24))). pose proof (digits_length 10 (u8 (Z.shiftr h 16))).
    pose proof (digits_length 10 (u8 (Z.shiftr h 8))). pose proof (digits_length 10 (u8 h)). lia.
  - intros rest. rewrite E. apply bool_decide_eq_false_2. cbn. intros Heq. injection Heq as -> _. done.
Qed.

(** [set] on a text in the form of [to_string]. *)
Lemma set_name_spec name rest dns port :
  same_text (take 3 (name ++ colon :: rest)) (text "ip:") = false -> strlen (name ++ colon :: rest) <= max_address_string_len ->
  colon ∉ name -> (read_host name <> INADDR_NONE \/ name = text "broadcast") ->
  set (name ++ colon :: rest) dns port = Ok (true, mk_address (read_host name) (if port =? 0 then u16 (atoi rest) else port)).
Proof.
  intros Hip Hl Hc Hh. unfold set. cbn [negb sockets_init]. rewrite Hip. destruct (Z.ltb_spec max_address_string_len (strlen (name ++ colon :: rest))); [lia|].
  rewrite split_at_app by done. unfold read_host in *.
  destruct (same_text name (text "broadcast")) eqn:E1; [done|]. destruct (same_text name (text "localhost")); [done|].
  destruct (same_text name (text "any")); [done|]. destruct Hh as [Hh| ->]; [|by vm_compute in E1].
  apply Z.eqb_neq in Hh. by rewrite Hh.
Qed.

(** C31. Addresses survive being written and read.  For every address, [set] on the text of
    [to_string] - with or without "ip:" before it, with or without name lookups allowed - succeeds
    and gives the address back; if a port is passed it counts instead of the one in the text. *)
Theorem address_text_roundtrip `{!ResolverLaws} a dns :
  address_ok a ->
  set (to_string a) dns 0 = Ok (true, a) /\ set (text "ip:" ++ to_string a) dns 0 = Ok (true, a) /\
  forall port, 0 < port < 2 ^ 16 -> set (to_string a) dns port = Ok (true, mk_address (_host a) port).
Proof.
  intros [Hh Hp]. change (to_string a) with (host_text (_host a) ++ colon :: decimal (_port a)).
  destruct (host_text_lacks (_host a)) as (Hc & Hl & Hip).
  assert (Hr : read_host (host_text (_host a)) <> INADDR_NONE \/ host_text (_host a) = text "broadcast").
  { rewrite read_host_text by done. destruct (Z.eq_dec (_host a) INADDR_NONE) as [E|]; [right; by rewrite E | by left]. }
  assert (Hlen : strlen (host_text (_host a) ++ colon :: decimal (_port a)) <= max_address_string_len).
  { pose proof (digits_length 10 (_port a)). unfold strlen, blen, max_address_string_len, decimal. rewrite length_app. cbn [length]. lia. }
  assert (Hs : forall port, set (host_text (_host a) ++ colon :: decimal (_port a)) dns port =
    Ok (true, mk_address (_host a) (if port =? 0 then _port a else port))).
  { intros port. rewrite set_name_spec by done.
    by rewrite read_host_text, atoi_decimal, u16_small by (done || (unfold in_u in *; lia)). }
  split; [|split].
  - rewrite Hs. by destruct a.
  - transitivity (set (host_text (_host a) ++ colon :: decimal (_port a)) dns 0); [|rewrite Hs; by destruct a].
    unfold set. cbn [negb sockets_init]. by rewrite Hip.
  - intros port Hport. rewrite Hs. destruct (Z.eqb_spec port 0); [lia | done].
Qed.

(** A text that is too long is refused. *)
Lemma set_too_long s dns port :
  same_text (take 3 s) (text "ip:") = false -> max_address_string_len < strlen s ->
  set s dns port = Ok (false, mk_address INADDR_NONE port).
Proof. intros Hip Hl. unfold set. cbn [negb sockets_init]. rewrite Hip. destruct (Z.ltb_spec max_address_string_len (strlen s)); [done | lia]. Qed.

(** Without lookups [set] says that any text is a valid address: one that is not is taken for
    the broadcast address. *)
Lemma set_takes_anything name port :
  same_text (take 3 name) (text "ip:") = false -> strlen name <= max_address_string_len -> colon ∉ name ->
  inet_addr name = INADDR_NONE -> exists host, set name false port = Ok (true, mk_address host port) /\
    (host = INADDR_NONE \/ name = text "localhost" \/ name = text "any").
Proof.
  intros Hip Hl Hc Hn. unfold set. cbn [negb sockets_init]. rewrite Hip.
  destruct (Z.ltb_spec max_address_string_len (strlen name)); [lia|]. rewrite split_at_none by done.
  destruct (same_text name (text "broadcast")); [by exists INADDR_NONE; split; [|left]|].
  destruct (same_text name (text "localhost")) eqn:E; [apply bool_decide_eq_true in E; eauto|].
  destruct (same_text name (text "any")) eqn:E'; [apply bool_decide_eq_true in E'; eauto|].
  rewrite Hn, andb_false_r. eauto.
Qed.
End text.

(** ** An example: name services that know numbers and dots only. *)
Definition read_dotted (s : bytes) : Z :=
  match split_at dot s with
  | (a, Some s) =>
      match split_at dot s with
      | (b, Some s) =>
          match split_at dot s with
          | (c, Some d) => le_val [number 0 a; number 0 b; number 0 c; number 0 d]
          | _ => INADDR_NONE
          end
      | _ => INADDR_NONE
      end
  | _ => INADDR_NONE
  end.

#[export] Instance dotted_resolver : Resolver := {| inet_addr := read_dotted; gethostbyname _ := None |}.

#[export] Instance dotted_laws : ResolverLaws.
Proof.
  split. intros a b c d [Ha ?] [Hb ?] [Hc ?] [Hd ?]. cbn [inet_addr dotted_resolver]. unfold read_dotted, dotted.
  rewrite !split_at_app by (apply decimal_lacks; done). unfold decimal. by rewrite !number_digits by (cbn; lia).
Qed.

Lemma address_text_roundtrip_witness :
  to_string (mk_address 0x0A000002 5000) = text "10.0.0.2:5000" /\
  set (text "10.0.0.2:5000") true 0 = Ok (true, mk_address 0x0A000002 5000).
Proof.
  split; [vm_compute; reflexivity|].
  exact (proj1 (address_text_roundtrip (mk_address 0x0A000002 5000) true ltac:(split; split; cbn; lia))).
Defined.
