(* ===== verification/EventQueue.v ===== *)
(** * The event queue: torque_sockets/socket_event_queue.h

    Events and queue entries live in the queue's page allocator and are linked by
    pointers: [post_event] returns a pointer through which the caller goes on filling the
    event in.  The heap of the allocator is a pair of finite maps from locations.  The
    theorems show that the linked structure is a FIFO list of events. *)
From S2P Require Import Prelude StreamIO Address.
From stdpp Require Import gmap.
#[local] Open Scope Z_scope.

Notation loc := positive.

(** [struct torque_socket_event] of torque_sockets_c_api.h; [key] and [data] are the
    bytes the pointers denote. *)
Record torque_socket_event : Type := mk_event {
  event_type : Z;
  ev_connection : Z;
  arranger_connection : Z;
  ev_client_identity : Z;
  connection_token : Z;
  key_size : Z;
  key : bytes;
  data_size : Z;
  ev_data : bytes;
  packet_sequence : Z;
  delivered : bool;
  source_address : sockaddr
}.

Inductive torque_socket_event_type : Type :=
  | torque_connection_challenge_response_event_type
  | torque_connection_requested_event_type
  | torque_connection_arranged_connection_request_event_type
  | torque_connection_accepted_event_type
  | torque_connection_timed_out_event_type
  | torque_connection_disconnected_event_type
  | torque_connection_established_event_type
  | torque_connection_packet_event_type
  | torque_connection_packet_notify_event_type
  | torque_socket_packet_event_type.

Definition event_code (t : torque_socket_event_type) : Z :=
  match t with
  | torque_connection_challenge_response_event_type => 1
  | torque_connection_requested_event_type => 2
  | torque_connection_arranged_connection_request_event_type => 3
  | torque_connection_accepted_event_type => 4
  | torque_connection_timed_out_event_type => 5
  | torque_connection_disconnected_event_type => 6
  | torque_connection_established_event_type => 7
  | torque_connection_packet_event_type => 8
  | torque_connection_packet_notify_event_type => 9
  | torque_socket_packet_event_type => 10
  end.

Record queue_entry : Type := mk_entry { entry_event : loc; next_event : option loc }.

Record socket_event_queue : Type := mk_queue {
  _event_queue_tail : option loc;
  _event_queue_head : option loc;
  q_events : gmap loc torque_socket_event;
  q_entries : gmap loc queue_entry;
  q_next : loc
}.

Definition empty_queue : socket_event_queue := mk_queue None None ∅ ∅ 1%positive.

Definition has_event (q : socket_event_queue) : bool := bool_decide (_event_queue_head q <> None).

(** [_allocator.clear()]: every block of the queue is freed. *)
Definition clear (q : socket_event_queue) : socket_event_queue :=
  mk_queue (_event_queue_tail q) (_event_queue_head q) ∅ ∅ (q_next q).

Section ops.
Context `{Machine}.

(** The fields [post_event] leaves alone keep what the fresh block held. *)
Definition fresh_event (type connection_id : Z) : torque_socket_event :=
  mk_event type connection_id (u32 indeterminate) (u32 indeterminate) (u32 indeterminate)
    0 [] 0 [] (u32 indeterminate) (Z.odd indeterminate)
    (mk_sockaddr (u16 indeterminate) (u16 indeterminate) (u32 indeterminate)).

Definition post_event (type : torque_socket_event_type) (connection_id : Z)
    : M socket_event_queue loc := fun q =>
  let ret := q_next q in
  let entry := Pos.succ ret in
  let events := <[ret := fresh_event (event_code type) connection_id]> (q_events q) in
  let entries := <[entry := mk_entry ret None]> (q_entries q) in
  let next := Pos.succ entry in
  match _event_queue_tail q with
  | Some tail =>
      t ← of_option null_deref (entries !! tail);
      Ok (ret, mk_queue (Some entry) (_event_queue_head q) events
        (<[tail := mk_entry (entry_event t) (Some entry)]> entries) next)
  | None => Ok (ret, mk_queue (Some entry) (Some entry) events entries next)
  end.
End ops.

Definition dequeue : M socket_event_queue loc := fun q =>
  _ ← require (has_event q) assertion_failed;
  head ← of_option null_deref (_event_queue_head q);
  e ← of_option null_deref (q_entries q !! head);
  Ok (entry_event e,
    mk_queue (match next_event e with None => None | _ => _event_queue_tail q end)
      (next_event e) (q_events q) (q_entries q) (q_next q)).

(** A write through the event pointer. *)
Definition update_event (p : loc) (g : torque_socket_event -> torque_socket_event)
    : M socket_event_queue unit := fun q =>
  e ← of_option null_deref (q_events q !! p);
  Ok (tt, mk_queue (_event_queue_tail q) (_event_queue_head q) (<[p := g e]> (q_events q))
    (q_entries q) (q_next q)).

(** [memcpy(event->data, data, data_size)]: reading past [data] is out of bounds. *)
Definition set_event_data (p : loc) (data : bytes) (size : Z) : M socket_event_queue unit :=
  _ ← lift (require (size <=? blen data) out_of_bounds);
  update_event p (fun e => mk_event (event_type e) (ev_connection e) (arranger_connection e)
    (ev_client_identity e) (connection_token e) (key_size e) (key e) size
    (take (Z.to_nat size) data) (packet_sequence e) (delivered e) (source_address e)).

Definition set_event_key (p : loc) (k : bytes) (size : Z) : M socket_event_queue unit :=
  _ ← lift (require (size <=? blen k) out_of_bounds);
  update_event p (fun e => mk_event (event_type e) (ev_connection e) (arranger_connection e)
    (ev_client_identity e) (connection_token e) size (take (Z.to_nat size) k) (data_size e)
    (ev_data e) (packet_sequence e) (delivered e) (source_address e)).

(** The assignments [event->connection = ...], [event->packet_sequence = ...] and so on,
    which the callers make after posting. *)
Definition with_connection (c : Z) (e : torque_socket_event) : torque_socket_event :=
  mk_event (event_type e) c (arranger_connection e) (ev_client_identity e) (connection_token e)
    (key_size e) (key e) (data_size e) (ev_data e) (packet_sequence e) (delivered e)
    (source_address e).
Definition with_sequence (n : Z) (e : torque_socket_event) : torque_socket_event :=
  mk_event (event_type e) (ev_connection e) (arranger_connection e) (ev_client_identity e)
    (connection_token e) (key_size e) (key e) (data_size e) (ev_data e) n (delivered e)
    (source_address e).
Definition with_delivered (d : bool) (e : torque_socket_event) : torque_socket_event :=
  mk_event (event_type e) (ev_connection e) (arranger_connection e) (ev_client_identity e)
    (connection_token e) (key_size e) (key e) (data_size e) (ev_data e) (packet_sequence e) d
    (source_address e).
Definition with_source (a : sockaddr) (e : torque_socket_event) : torque_socket_event :=
  mk_event (event_type e) (ev_connection e) (arranger_connection e) (ev_client_identity e)
    (connection_token e) (key_size e) (key e) (data_size e) (ev_data e) (packet_sequence e)
    (delivered e) a.

(** ** The queue as a list *)
Inductive chain (m : gmap loc queue_entry) : option loc -> list loc -> list loc -> Prop :=
  | chain_nil : chain m None [] []
  | chain_cons p e l evs :
      m !! p = Some e -> chain m (next_event e) l evs ->
      chain m (Some p) (p :: l) (entry_event e :: evs).

(** [queue_repr q ps]: the events waiting in [q] are those at [ps], oldest first. *)
Record queue_repr (q : socket_event_queue) (ps : list loc) : Prop := {
  repr_chain : exists l, chain (q_entries q) (_event_queue_head q) l ps /\ NoDup l /\
    _event_queue_tail q = last l;
  repr_live p : p ∈ ps -> is_Some (q_events q !! p);
  repr_entries p : is_Some (q_entries q !! p) -> (p < q_next q)%positive;
  repr_events p : is_Some (q_events q !! p) -> (p < q_next q)%positive
}.

(** The abstract content: the events themselves. *)
Definition queue_holds (q : socket_event_queue) (evs : list torque_socket_event) : Prop :=
  exists ps, queue_repr q ps /\ Forall2 (fun p e => q_events q !! p = Some e) ps evs.

Lemma chain_length m h l evs : chain m h l evs -> length l = length evs.
Proof. induction 1; simpl; auto. Qed.

Lemma chain_dom m h l evs : chain m h l evs -> forall p, p ∈ l -> is_Some (m !! p).
Proof. induction 1; intros q Hq; [by apply elem_of_nil in Hq|]. apply elem_of_cons in Hq as [->|]; eauto. Qed.

Lemma chain_frame m h l evs p e : chain m h l evs -> p ∉ l -> chain (<[p := e]> m) h l evs.
Proof.
  induction 1 as [|q e' l evs Hq Hc IH]; intros Hp; [constructor|].
  apply not_elem_of_cons in Hp as [Hne Hp].
  econstructor; [by rewrite lookup_insert_ne by done | auto].
Qed.

(** Linking a new entry after the last one. *)
Lemma chain_snoc m h l evs t p ev :
  chain m h l evs -> NoDup l -> last l = Some t -> p ∉ l -> p <> t ->
  forall e, m !! t = Some e ->
  chain (<[t := mk_entry (entry_event e) (Some p)]> (<[p := mk_entry ev None]> m)) h
    (l ++ [p]) (evs ++ [ev]).
Proof.
  induction 1 as [|q e' l evs Hq Hc IH]; [done|]. intros Hnd Hl Hp Hpt e He.
  apply NoDup_cons in Hnd as [Hql Hnd]. apply not_elem_of_cons in Hp as [Hpq Hp].
  destruct l as [|q2 l].
  - inversion Hc; subst. cbn in Hl. injection Hl as ->. simplify_eq.
    refine (chain_cons _ t (mk_entry (entry_event e') (Some p)) [p] [ev] _ _);
      [by simplify_map_eq | cbn].
    refine (chain_cons _ p (mk_entry ev None) [] [] _ _); [by simplify_map_eq | constructor].
  - assert (t ∈ q2 :: l) by (rewrite last_cons_cons in Hl; by apply last_Some_elem_of).
    cbn [app]. econstructor; [|by apply IH].
    rewrite !lookup_insert_ne; [done | congruence |]. intros ->. done.
Qed.

(** [posted q evs p e]: [q] holds [evs] followed by the event [e] at [p], which was the
    last one posted and can still be filled in through [p]. *)
Definition posted (q : socket_event_queue) (evs : list torque_socket_event) (p : loc)
    (e : torque_socket_event) : Prop :=
  exists ps, queue_repr q (ps ++ [p]) /\ p ∉ ps /\ q_events q !! p = Some e /\
    Forall2 (fun p e => q_events q !! p = Some e) ps evs.

Lemma events_insert (m : gmap loc torque_socket_event) p e ps evs :
  p ∉ ps -> Forall2 (fun q x => m !! q = Some x) ps evs ->
  Forall2 (fun q x => <[p := e]> m !! q = Some x) ps evs.
Proof.
  intros Hp Hf. induction Hf as [|q x ps evs Hq Hf IH]; constructor.
  - apply not_elem_of_cons in Hp as [? _]. by rewrite lookup_insert_ne by done.
  - apply IH. by apply not_elem_of_cons in Hp as [_ ?].
Qed.

Lemma queue_repr_dom q ps p : queue_repr q ps -> p ∈ ps -> (p < q_next q)%positive.
Proof. intros Hr Hp. by apply (repr_events q ps), (repr_live q ps). Qed.

Lemma empty_queue_holds : queue_holds empty_queue [].
Proof.
  exists []. split; [split | constructor].
  - exists []. split_and!; [constructor | constructor | done].
  - intros p Hp. by apply elem_of_nil in Hp.
  - intros p [? Hl]. cbn in Hl. by rewrite lookup_empty in Hl.
  - intros p [? Hl]. cbn in Hl. by rewrite lookup_empty in Hl.
Qed.

Lemma posted_holds q evs p e : posted q evs p e -> queue_holds q (evs ++ [e]).
Proof.
  intros (ps & Hr & _ & Hp & Hf). exists (ps ++ [p]). split; [done|].
  apply Forall2_app; [done | by repeat constructor].
Qed.

Lemma has_event_holds q evs : queue_holds q evs -> has_event q = bool_decide (evs <> []).
Proof.
  intros (ps & [(l & Hc & _ & _) _ _ _] & Hf). unfold has_event.
  apply bool_decide_ext. inversion Hc; subst; inversion Hf; subst; split; congruence.
Qed.

Lemma clear_holds q : queue_holds q [] -> queue_holds (clear q) [].
Proof.
  intros (ps & [(l & Hc & Hnd & Ht) _ _ _] & Hf). apply Forall2_nil_inv_r in Hf as ->.
  inversion Hc as [Hh Hl0|]; subst. exists []. split; [split | constructor]; cbn.
  - exists []. split_and!; [rewrite <- Hh; constructor | constructor | done].
  - intros p Hp. by apply elem_of_nil in Hp.
  - intros p [? Hl]. by rewrite lookup_empty in Hl.
  - intros p [? Hl]. by rewrite lookup_empty in Hl.
Qed.

Lemma update_posted q evs p e g :
  posted q evs p e ->
  exists q', update_event p g q = Ok (tt, q') /\ posted q' evs p (g e).
Proof.
  intros (ps & Hr & Hps & Hp & Hf). unfold update_event. rewrite Hp. cbn.
  eexists. split; [done|]. exists ps. split_and!; cbn.
  - destruct Hr as [Hc Hl He Hv]. split; cbn; [done | | done |].
    + intros x Hx. destruct (decide (x = p)) as [->|]; simplify_map_eq; [eauto | by apply Hl].
    + intros x Hx. destruct (decide (x = p)) as [->|]; simplify_map_eq; [by apply Hv | by apply Hv].
  - done.
  - by simplify_map_eq.
  - by apply events_insert.
Qed.

Section post.
Context `{Machine}.

(** [post_event] never fails and appends a fresh event. *)
Lemma post_posted q evs ty c :
  queue_holds q evs ->
  exists p q', post_event ty c q = Ok (p, q') /\
    posted q' evs p (fresh_event (event_code ty) c).
Proof.
  intros (ps & Hr & Hf). pose proof Hr as [(l & Hc & Hnd & Ht) Hl He Hv].
  assert (Hnew : q_next q ∉ ps).
  { intros Hin%(queue_repr_dom _ _ _ Hr). lia. }
  assert (Hnl : Pos.succ (q_next q) ∉ l).
  { intros Hin. eapply chain_dom in Hin; [|done]. apply He in Hin. lia. }
  unfold post_event. destruct (_event_queue_tail q) as [t|] eqn:Htail.
  - assert (t ∈ l) by (by apply last_Some_elem_of).
    assert (Pos.succ (q_next q) <> t) by (intros <-; done).
    destruct (chain_dom _ _ _ _ Hc t) as [e Het]; [done|].
    rewrite lookup_insert_ne by done. rewrite Het. cbn.
    do 2 eexists. split; [done|]. exists ps. split_and!; cbn.
    + split; cbn.
      * exists (l ++ [Pos.succ (q_next q)]). split_and!.
        -- by apply chain_snoc.
        -- apply NoDup_app. split_and!; [done | | apply NoDup_singleton].
           intros x Hx ->%list_elem_of_singleton. done.
        -- by rewrite last_snoc.
      * intros p [Hp| ->%list_elem_of_singleton]%elem_of_app; [|by simplify_map_eq].
        rewrite lookup_insert_ne by (intros <-; done). by apply Hl.
      * intros p Hp. destruct (decide (p = t)) as [->|]; simplify_map_eq.
        { specialize (He t). rewrite Het in He. specialize (He ltac:(eauto)). lia. }
        destruct (decide (p = Pos.succ (q_next q))) as [->|]; [lia|].
        simplify_map_eq. specialize (He p Hp). lia.
      * intros p Hp. destruct (decide (p = q_next q)) as [->|]; [lia|].
        simplify_map_eq. specialize (Hv p Hp). lia.
    + done.
    + by simplify_map_eq.
    + by apply events_insert.
  - destruct l as [|x l]; [|by destruct (last_is_Some (x :: l)) as [_ [? Hs]]; [done | congruence]].
    inversion Hc; subst. cbn.
    do 2 eexists. split; [done|]. apply Forall2_nil_inv_l in Hf as ->.
    exists []. split_and!; cbn; [| set_solver | by simplify_map_eq | constructor].
    split; cbn.
    * exists [Pos.succ (q_next q)]. split_and!; [| apply NoDup_singleton | done].
      refine (chain_cons _ _ (mk_entry (q_next q) None) [] [] _ _);
        [by simplify_map_eq | constructor].
    * intros p ->%list_elem_of_singleton. by simplify_map_eq.
    * intros p Hp. destruct (decide (p = Pos.succ (q_next q))) as [->|]; [lia|].
      simplify_map_eq. specialize (He p Hp). lia.
    * intros p Hp. destruct (decide (p = q_next q)) as [->|]; [lia|].
      simplify_map_eq. specialize (Hv p Hp). lia.
Qed.
End post.

(** [dequeue] gives a pointer to the oldest event. *)
Lemma dequeue_holds q e evs :
  queue_holds q (e :: evs) ->
  exists p q', dequeue q = Ok (p, q') /\ q_events q' !! p = Some e /\ queue_holds q' evs.
Proof.
  intros (ps & [(l & Hc & Hnd & Ht) Hl He Hv] & Hf).
  apply Forall2_cons_inv_r in Hf as (p & ps' & Hp & Hf & ->).
  inversion Hc as [|h en l' evs' Hh Hc' Hhd]; subst. unfold dequeue, has_event.
  rewrite <- Hhd. rewrite bool_decide_eq_true_2 by done. cbn. rewrite Hh. cbn.
  do 2 eexists. split; [done|]. split; [done|].
  exists ps'. split; [|done]. apply NoDup_cons in Hnd as [_ Hnd]. split; cbn; [| | done | done].
  - exists l'. split_and!; [done | done |].
    destruct (next_event en) eqn:Hn; inversion Hc'; subst; [|done].
    by rewrite Ht, last_cons_cons.
  - intros x Hx. apply Hl. by constructor.
Qed.

(** ** Refinement: the linked queue is a list

    The socket posts an event and fills it in, hands the oldest one out, and recycles the
    allocator only when nothing waits. *)
Inductive queue_op : Type :=
  | Post (type : torque_socket_event_type) (connection_id : Z)
      (fill : torque_socket_event -> torque_socket_event)
  | Dequeue
  | ClearIfEmpty.

Section refinement.
Context `{Machine}.

(** One operation on the linked queue; [Dequeue] also reads the event it returns. *)
Definition queue_step (op : queue_op) : M socket_event_queue (option torque_socket_event) :=
  match op with
  | Post ty c fill => p ← post_event ty c; _ ← update_event p fill; mret None
  | Dequeue =>
      p ← dequeue; q ← get; e ← lift (of_option null_deref (q_events q !! p)); mret (Some e)
  | ClearIfEmpty => q ← get; _ ← when (negb (has_event q)) (modify clear); mret None
  end.

(** The same operation on a list of events. *)
Definition list_step (op : queue_op)
    : M (list torque_socket_event) (option torque_socket_event) := fun evs =>
  match op with
  | Post ty c fill => Ok (None, evs ++ [fill (fresh_event (event_code ty) c)])
  | Dequeue => match evs with e :: evs => Ok (Some e, evs) | [] => Fault assertion_failed end
  | ClearIfEmpty => Ok (None, evs)
  end.

Fixpoint run_ops {S} (step : queue_op -> M S (option torque_socket_event))
    (ops : list queue_op) : M S (list torque_socket_event) :=
  match ops with
  | [] => mret []
  | op :: ops => r ← step op; rest ← run_ops step ops; mret (option_list r ++ rest)
  end.

Lemma queue_step_refines op q evs :
  queue_holds q evs ->
  match list_step op evs with
  | Ok (r, evs') => exists q', queue_step op q = Ok (r, q') /\ queue_holds q' evs'
  | Fault f => queue_step op q = Fault f
  end.
Proof.
  intros Hq. destruct op as [ty c fill| |]; cbn.
  - unfold mbind, M_bind. destruct (post_posted q evs ty c Hq) as (p & q1 & -> & H1).
    destruct (update_posted q1 evs p _ fill H1) as (q2 & -> & H2).
    eexists. split; [done|]. by eapply posted_holds.
  - destruct evs as [|e evs].
    + unfold mbind, M_bind, dequeue. rewrite (has_event_holds q []) by done. done.
    + unfold mbind, M_bind. destruct (dequeue_holds q e evs Hq) as (p & q' & -> & He & Hq').
      cbn. rewrite He. cbn. eauto.
  - unfold mbind, M_bind. cbn. rewrite (has_event_holds q evs) by done. case_bool_decide as Hn.
    + eexists. split; [done|]. done.
    + subst evs. eexists. split; [done|]. by apply clear_holds.
Qed.

(** C11. every sequence of postings, deliveries and recyclings on the linked queue behaves
    as on a FIFO list: the same events come out, filled in as the socket filled them, and
    the only failure is taking an event from an empty queue. *)
Theorem event_queue_fifo (ops : list queue_op) :
  match run_ops list_step ops [] with
  | Ok (out, evs) =>
      exists q, run_ops queue_step ops empty_queue = Ok (out, q) /\ queue_holds q evs
  | Fault f => run_ops queue_step ops empty_queue = Fault f
  end.
Proof.
  assert (Hgen : forall q evs, queue_holds q evs ->
    match run_ops list_step ops evs with
    | Ok (out, evs') => exists q', run_ops queue_step ops q = Ok (out, q') /\ queue_holds q' evs'
    | Fault f => run_ops queue_step ops q = Fault f
    end); [|apply Hgen, empty_queue_holds].
  induction ops as [|op ops IH]; intros q evs Hq; cbn [run_ops]; [cbn; eauto|].
  pose proof (queue_step_refines op q evs Hq) as Hs. unfold mbind, M_bind.
  destruct (list_step op evs) as [[r evs']|f]; [|by rewrite Hs].
  destruct Hs as (q' & -> & Hq'). specialize (IH q' evs' Hq').
  destruct (run_ops list_step ops evs') as [[out evs'']|f]; [|by rewrite IH].
  destruct IH as (q'' & -> & Hq''). cbn. eauto.
Qed.
End refinement.
