(* ===== verification/Cipher.v ===== *)
(** * Symmetric encryption: torque_sockets/symmetric_cipher.h

    [symmetric_cipher] turns a block cipher into a byte stream cipher whose pad is fed back
    from the cipher text.  The block cipher is an interface ([BlockCipher]); the theorems
    hold for any implementation. *)
From S2P Require Import Prelude Endian BitStream StreamIO.

(** What the code calls in lib/libtomcrypt: key expansion and one ECB encryption. *)
Class BlockCipher : Type := {
  cipher_key : Type;
  rijndael_setup : bytes -> cipher_key;
  rijndael_ecb_encrypt : cipher_key -> bytes -> bytes;
  ecb_encrypt_bytes k b : is_bytes (rijndael_ecb_encrypt k b);
  ecb_encrypt_length k b : length (rijndael_ecb_encrypt k b) = 16%nat
}.

(** A keyed permutation of sixteen bytes, for evaluating examples. *)
#[export] Program Instance toy_cipher : BlockCipher := {|
  cipher_key := bytes;
  rijndael_setup key := key;
  rijndael_ecb_encrypt key b :=
    map (fun i => u8 (nth (15 - i) b 0 * 5 + nth i key 0 + Z.of_nat i)) (seq 0 16)
|}.
Next Obligation.
  intros k b. apply Forall_map, Forall_forall. intros i _. apply u8_range.
Qed.
Next Obligation. intros k b. done. Qed.

Definition block_size : Z := 16.
Definition cipher_key_size : Z := 16.

Section symmetric_cipher.
Context `{BlockCipher}.

(** [_counter] holds four words. *)
Record symmetric_cipher : Type := mk_cipher {
  _counter : list Z;
  _init_vector : bytes;
  _pad : bytes;
  _symmetric_key : cipher_key;
  _pad_len : Z
}.

(** The sixteen bytes of the counter in memory. *)
Definition counter_image (counter : list Z) : bytes := concat (map (le_bytes 4) counter).

(** [memcpy(_counter, init_vector, block_size)]. *)
Definition counter_of_image (image : bytes) : list Z :=
  map (fun i => le_val (take 4 (drop (4 * i) image))) (seq 0 4).

Definition new_cipher_key_iv (key init_vector : bytes) : symmetric_cipher :=
  let k := rijndael_setup (take 16 key) in
  let counter := counter_of_image init_vector in
  mk_cipher counter (take 16 init_vector) (rijndael_ecb_encrypt k (counter_image counter)) k 0.

(** The constructor from a shared secret; any other size than [key_size * 2] means the
    all-zero key and vector. *)
Definition new_cipher (the_bytes : byte_buffer) : symmetric_cipher :=
  if negb (byte_buffer.get_buffer_size the_bytes =? cipher_key_size * 2) then
    let buffer := replicate 16 0 in new_cipher_key_iv buffer buffer
  else
    let b := byte_buffer.data the_bytes in new_cipher_key_iv (take 16 b) (drop 16 b).

Definition get_init_vector (c : symmetric_cipher) : bytes := _init_vector c.

Definition setup_counter (c : symmetric_cipher) (v1 v2 v3 v4 : Z) : result symmetric_cipher :=
  w0 ← buffer_to_uint32 (_init_vector c);
  w1 ← buffer_to_uint32 (drop 4 (_init_vector c));
  w2 ← buffer_to_uint32 (drop 8 (_init_vector c));
  w3 ← buffer_to_uint32 (drop 12 (_init_vector c));
  let counter := host_to_little_endian <$> [u32 (w0 + v1); u32 (w1 + v2); u32 (w2 + v3); u32 (w3 + v4)] in
  Ok (mk_cipher counter (_init_vector c)
    (rijndael_ecb_encrypt (_symmetric_key c) (counter_image counter)) (_symmetric_key c) 0).

(** The top of both loops: a new pad is computed when the last one is used up. *)
Definition next_pad (c : symmetric_cipher) : symmetric_cipher :=
  if _pad_len c =? block_size then
    mk_cipher (_counter c) (_init_vector c) (rijndael_ecb_encrypt (_symmetric_key c) (_pad c))
      (_symmetric_key c) 0
  else c.

(** [_pad[_pad_len++] = encrypted_char]. *)
Definition feed_pad (c : symmetric_cipher) (encrypted_char : Z) : result symmetric_cipher :=
  pad ← bset (_pad c) (_pad_len c) encrypted_char;
  Ok (mk_cipher (_counter c) (_init_vector c) pad (_symmetric_key c) (_pad_len c + 1)).

Fixpoint encrypt (c : symmetric_cipher) (plain_text : bytes)
    : result (symmetric_cipher * bytes) :=
  match plain_text with
  | [] => Ok (c, [])
  | p :: plain_text =>
      let c := next_pad c in
      x ← bget (_pad c) (_pad_len c);
      let encrypted_char := Z.lxor p x in
      c ← feed_pad c encrypted_char;
      '(c, cipher_text) ← encrypt c plain_text;
      Ok (c, encrypted_char :: cipher_text)
  end.

Fixpoint decrypt (c : symmetric_cipher) (cipher_text : bytes)
    : result (symmetric_cipher * bytes) :=
  match cipher_text with
  | [] => Ok (c, [])
  | encrypted_char :: cipher_text =>
      let c := next_pad c in
      x ← bget (_pad c) (_pad_len c);
      c ← feed_pad c encrypted_char;
      '(c, plain_text) ← decrypt c cipher_text;
      Ok (c, Z.lxor encrypted_char x :: plain_text)
  end.

(** ** Invariant and functional behaviour *)
Record cipher_ok (c : symmetric_cipher) : Prop := {
  ok_iv : length (_init_vector c) = 16%nat;
  ok_pad : length (_pad c) = 16%nat;
  ok_pad_bytes : is_bytes (_pad c);
  ok_pad_len : 0 <= _pad_len c <= 16
}.

Lemma new_cipher_key_iv_ok k iv : length iv = 16%nat -> cipher_ok (new_cipher_key_iv k iv).
Proof.
  intros Hl. split; cbn; [rewrite length_take; lia | apply ecb_encrypt_length |
    apply ecb_encrypt_bytes | lia].
Qed.

Lemma new_cipher_ok b : cipher_ok (new_cipher b).
Proof.
  unfold new_cipher. destruct (Z.eqb_spec (byte_buffer.get_buffer_size b) (cipher_key_size * 2)) as [Hs|];
    apply new_cipher_key_iv_ok; [|done].
  unfold byte_buffer.get_buffer_size, blen, cipher_key_size in Hs. rewrite length_drop. lia.
Qed.

Lemma next_pad_ok c : cipher_ok c -> cipher_ok (next_pad c) /\ _pad_len (next_pad c) < 16.
Proof.
  intros [? ? ? ?]. unfold next_pad, block_size. destruct (Z.eqb_spec (_pad_len c) 16); cbn.
  - split; [split|]; cbn; auto using ecb_encrypt_length, ecb_encrypt_bytes; lia.
  - split; [split|]; auto; lia.
Qed.

Lemma feed_pad_ok c e :
  cipher_ok c -> _pad_len c < 16 -> is_u8 e -> exists c', feed_pad c e = Ok c' /\ cipher_ok c'.
Proof.
  intros [? Hp ? ?] Hlt He. unfold feed_pad. rewrite bset_lt by (unfold blen; lia). cbn.
  eexists. split; [done|]. split; cbn; auto using is_bytes_insert.
  - by rewrite length_insert.
  - lia.
Qed.

(** Encryption never fails, keeps the length, and decryption from the same state gives
    the plain text back and ends in the same state. *)
Lemma encrypt_decrypt c p :
  cipher_ok c -> is_bytes p ->
  exists c' ct, encrypt c p = Ok (c', ct) /\ decrypt c ct = Ok (c', p) /\
    cipher_ok c' /\ is_bytes ct /\ length ct = length p.
Proof.
  intros Hc Hp. revert c Hc. induction Hp as [|x p Hx Hp IH]; intros c Hc; cbn [encrypt decrypt].
  { exists c, []. split_and!; done || constructor. }
  destruct (next_pad_ok c Hc) as [Hn Hlt]. pose proof Hn as [_ Hl Hb [Hlo _]].
  destruct (bget_lt (_pad (next_pad c)) (_pad_len (next_pad c))) as (v & -> & Hv);
    [unfold blen; lia|]. cbn.
  destruct (feed_pad_ok (next_pad c) (Z.lxor x v)) as (c1 & Hf & Hc1);
    [done | done | eauto using lxor_u8 with words |].
  rewrite Hf. cbn. destruct (IH c1 Hc1) as (c2 & ct & -> & Hd & Hc2 & Hbt & Hlt2). cbn.
  exists c2, (Z.lxor x v :: ct). split; [done|]. cbn [decrypt].
  destruct (bget_lt (_pad (next_pad c)) (_pad_len (next_pad c))) as (v' & -> & Hv');
    [unfold blen; lia|]. cbn. simplify_eq. rewrite Hf. cbn. rewrite Hd. cbn.
  split_and!; [| done | constructor; eauto using lxor_u8 with words | by f_equal].
  do 2 f_equal. by rewrite Z.lxor_assoc, Z.lxor_nilpotent, Z.lxor_0_r.
Qed.

(** Decryption never fails either, on any bytes. *)
Lemma decrypt_total c ct :
  cipher_ok c -> is_bytes ct ->
  exists c' p, decrypt c ct = Ok (c', p) /\ cipher_ok c' /\ is_bytes p /\ length p = length ct.
Proof.
  intros Hc Hct. revert c Hc. induction Hct as [|x ct Hx Hct IH]; intros c Hc; cbn [decrypt].
  { exists c, []. split_and!; done || constructor. }
  destruct (next_pad_ok c Hc) as [Hn Hlt]. pose proof Hn as [_ Hl Hb [Hlo _]].
  destruct (bget_lt (_pad (next_pad c)) (_pad_len (next_pad c))) as (v & -> & Hv);
    [unfold blen; lia|]. cbn.
  destruct (feed_pad_ok (next_pad c) x) as (c1 & -> & Hc1); [done | done | done |]. cbn.
  destruct (IH c1 Hc1) as (c2 & p & -> & Hc2 & Hp & Hlp). cbn.
  do 2 eexists. split; [done|].
  split_and!; [done | constructor; eauto using lxor_u8 with words | by f_equal/=].
Qed.

Lemma setup_counter_total c v1 v2 v3 v4 :
  cipher_ok c -> exists c', setup_counter c v1 v2 v3 v4 = Ok c' /\ cipher_ok c'.
Proof.
  intros [Hiv ? ? ?]. unfold setup_counter.
  destruct (_init_vector c) as [|b0 [|b1 [|b2 [|b3 [|b4 [|b5 [|b6 [|b7 [|b8 [|b9 [|b10 [|b11
    [|b12 [|b13 [|b14 [|b15 [|]]]]]]]]]]]]]]]]] eqn:Hv; cbn in Hiv; try lia.
  cbn. eexists. split; [done|].
  split; cbn; auto using ecb_encrypt_length, ecb_encrypt_bytes; lia.
Qed.

(** what one party encrypts the other decrypts.  From any state of a cipher, the
    decryption of an encrypted text of any length is the text, both parties are left
    with the same state (so the next message decrypts too), and neither direction
    can run out of its pad. *)
Lemma cipher_roundtrip (c : symmetric_cipher) (m1 m2 : bytes) :
  cipher_ok c -> is_bytes m1 -> is_bytes m2 ->
  exists c1 c2 t1 t2,
    encrypt c m1 = Ok (c1, t1) /\ encrypt c1 m2 = Ok (c2, t2) /\
    decrypt c t1 = Ok (c1, m1) /\ decrypt c1 t2 = Ok (c2, m2) /\
    length t1 = length m1 /\ length t2 = length m2.
Proof.
  intros Hc H1 H2. destruct (encrypt_decrypt c m1 Hc H1) as (c1 & t1 & ? & ? & Hc1 & _ & ?).
  destruct (encrypt_decrypt c1 m2 Hc1 H2) as (c2 & t2 & ? & ? & _ & _ & ?).
  exists c1, c2, t1, t2. done.
Qed.
End symmetric_cipher.

Lemma cipher_roundtrip_witness :
  let c := new_cipher_key_iv (map Z.of_nat (seq 0 16)) (map Z.of_nat (seq 100 16)) in
  exists c1 c2 t1 t2,
    encrypt c [1; 2; 3] = Ok (c1, t1) /\ encrypt c1 (replicate 40 7) = Ok (c2, t2) /\
    decrypt c t1 = Ok (c1, [1; 2; 3]) /\ decrypt c1 t2 = Ok (c2, replicate 40 7) /\
    length t1 = 3%nat /\ length t2 = 40%nat.
Proof.
  intros c. apply (cipher_roundtrip c [1; 2; 3] (replicate 40 7)).
  - by apply new_cipher_key_iv_ok.
  - repeat constructor; lia.
  - apply Forall_replicate. split; lia.
Defined.
