(* ===== verification/Net.v ===== *)
(** * What a connection uses of its socket

    The random generator (torque_sockets/random_generator.h), the clock, the list of
    delayed datagrams and the datagrams handed to the operating system (udp_socket.h,
    [send_to] and [send_to_delayed] of torque_socket.h), with the event queue. *)
From Stdlib Require Import SpecFloat Sorted.
From S2P Require Import Prelude Endian BitStream StreamIO Address EventQueue.
#[local] Open Scope Z_scope.

(** ** Time: a 64-bit count of milliseconds (torque_sockets/time.h) *)
Notation time := Z (only parsing).
Definition time_add (a b : time) : time := a + b.
Definition time_sub (a b : time) : time := a - b.

(** ** Random numbers

    The Yarrow generator of lib/libtomcrypt, as the calls of random_generator.h see it. *)
Class Prng : Type := {
  prng_state : Type;
  yarrow_start : prng_state;
  yarrow_ready : prng_state -> prng_state;
  yarrow_add_entropy : bytes -> prng_state -> prng_state;
  yarrow_read : Z -> prng_state -> bytes * prng_state;
  yarrow_read_bytes n s : is_bytes (yarrow_read n s).1;
  yarrow_read_length n s : 0 <= n -> blen (yarrow_read n s).1 = n
}.

(** A counter, for evaluating examples. *)
#[export] Program Instance counter_prng : Prng := {|
  prng_state := Z;
  yarrow_start := 1;
  yarrow_ready s := s + 1;
  yarrow_add_entropy d s := s + blen d;
  yarrow_read n s := (map (fun i => u8 (s * 37 + Z.of_nat i * 11)) (seq 0 (Z.to_nat n)), s + 1)
|}.
Next Obligation. intros n s. apply Forall_map, Forall_forall. intros i _. apply u8_range. Qed.
Next Obligation. intros n s Hn. unfold blen. cbn. rewrite length_map, length_seq. lia. Qed.

(** [float32] and [float64] values, rounded to nearest even. *)
Notation float32 := spec_float.
Notation float64 := spec_float.
Definition float64_of_uint (x : Z) : float64 := binary_normalize 53 1024 x 0 false.
Definition float64_div : float64 -> float64 -> float64 := SFdiv 53 1024.
Definition float32_of_float64 (x : float64) : float32 :=
  match x with
  | S754_finite s m e => binary_normalize 24 128 (cond_Zopp s (Zpos m)) e s
  | _ => x
  end.
Definition float_nonzero (x : float32) : bool := match x with S754_zero _ => false | _ => true end.

Section random_generator.
Context `{Prng}.

Record random_generator : Type := mk_random {
  _random_state : prng_state;
  _entropy_added : Z
}.

Definition new_random_generator : random_generator := mk_random (yarrow_ready yarrow_start) 0.

Definition add_entropy (r : random_generator) (random_data : bytes) (data_len : Z)
    : random_generator :=
  let state := yarrow_add_entropy (take (Z.to_nat data_len) random_data) (_random_state r) in
  let added := u32 (_entropy_added r + data_len) in
  if 16 <=? added then mk_random (yarrow_ready state) 0 else mk_random state added.

Definition random_buffer (buffer_size : Z) : M random_generator bytes := fun r =>
  let '(b, s) := yarrow_read buffer_size (_random_state r) in
  Ok (b, mk_random s (_entropy_added r)).

Definition random_integer : M random_generator Z :=
  buffer ← random_buffer 4;
  b0 ← lift (bget buffer 0); b1 ← lift (bget buffer 1);
  b2 ← lift (bget buffer 2); b3 ← lift (bget buffer 3);
  mret (Z.lor (Z.lor (Z.lor (Z.shiftl b0 24) (Z.shiftl b1 16)) (Z.shiftl b2 8)) b3).

Definition random_nonce : M random_generator Z :=
  the_nonce ← random_buffer 8; mret (le_val the_nonce).

(** A range as wide as the type makes the modulus 0. *)
Definition random_in_range (range_start range_end : Z) : M random_generator Z :=
  _ ← lift (require (range_start <=? range_end) assertion_failed);
  x ← random_integer;
  let width := u32 (range_end - range_start + 1) in
  _ ← lift (require (negb (width =? 0)) division_by_zero);
  mret (u32 (x mod width + range_start)).

Definition random_unit_float : M random_generator float32 :=
  x ← random_integer;
  mret (float32_of_float64 (float64_div (float64_of_uint x) (float64_of_uint 0xFFFFFFFF))).

Definition random_bool : M random_generator bool :=
  buffer ← random_buffer 1; b ← lift (bget buffer 0); mret (Z.odd b).

Lemma random_buffer_total r n :
  0 <= n -> exists b r', random_buffer n r = Ok (b, r') /\ is_bytes b /\ blen b = n.
Proof.
  intros Hn. unfold random_buffer.
  pose proof (yarrow_read_bytes n (_random_state r)). pose proof (yarrow_read_length n (_random_state r) Hn).
  destruct (yarrow_read n (_random_state r)) as [b s]. eauto.
Qed.

Lemma random_integer_total r : exists v r', random_integer r = Ok (v, r') /\ is_u32 v.
Proof.
  unfold random_integer, mbind, M_bind.
  destruct (random_buffer_total r 4) as (b & r' & -> & Hb & Hl); [lia|].
  destruct b as [|b0 [|b1 [|b2 [|b3 [|]]]]]; cbn in Hl; try (unfold blen in Hl; simpl in Hl; lia).
  cbn. do 2 eexists. split; [done|].
  repeat apply is_bytes_cons in Hb as [? Hb].
  apply in_u_of_bits; [lia | |].
  - rewrite !Z.lor_nonneg, !Z.shiftl_nonneg. unfold in_u in *. lia.
  - intros i Hi. autorewrite with bits. by rewrite !(testbit_high 8) by (done || lia).
Qed.

Lemma random_nonce_total r : exists v r', random_nonce r = Ok (v, r') /\ is_u64 v.
Proof.
  unfold random_nonce, mbind, M_bind.
  destruct (random_buffer_total r 8) as (b & r' & -> & Hb & Hl); [lia|].
  do 2 eexists. split; [done|]. pose proof (le_val_range b Hb) as Hr. by rewrite Hl in Hr.
Qed.

(** A draw from a range that is not the whole type stays inside it. *)
Lemma random_in_range_spec r a b :
  is_u32 a -> is_u32 b -> a <= b -> b - a < 2 ^ 32 - 1 ->
  exists v r', random_in_range a b r = Ok (v, r') /\ a <= v <= b.
Proof.
  intros Ha Hb Hab Hw. unfold random_in_range, mbind, M_bind, lift.
  destruct (Z.leb_spec a b); [|lia]. cbn.
  destruct (random_integer_total r) as (v & r' & -> & Hv).
  rewrite (u32_small (b - a + 1)) by (unfold in_u in *; lia).
  destruct (Z.eqb_spec (b - a + 1) 0); [lia|]. cbn. do 2 eexists. split; [done|].
  pose proof (Z.mod_pos_bound v (b - a + 1) ltac:(lia)).
  rewrite u32_small by (unfold in_u in *; lia). lia.
Qed.
End random_generator.

(** ** Datagrams *)

(** [packet_record]: its list is kept sorted by send time. *)
Record packet_record : Type := mk_packet {
  remote_address : address;
  send_time : time;
  packet_data : bytes
}.

(** [allocate_packet_record(the_address, stream)]; the caller sets the time. *)
Definition allocate_packet_record (the_address : address) (s : bit_stream) (at_time : time)
    : packet_record :=
  mk_packet the_address at_time (take (Z.to_nat (get_next_byte_position s)) (bs_base s)).

(** *** Packet streams: torque_sockets/packet_stream.h *)
Definition max_datagram_size : Z := 1536.

Section packet_stream.
Context `{Machine}.

(** A local [packet_stream]: its buffer is not initialised. *)
Definition new_packet_stream : bit_stream := new_stream (malloc max_datagram_size) max_datagram_size.

(** [set_from_buffer]: the bytes of a datagram at the start of the internal buffer. *)
Definition set_from_buffer (s : bit_stream) (in_buffer : bytes) : result bit_stream :=
  let size := blen in_buffer in
  _ ← require (size <=? max_datagram_size) assertion_failed;
  Ok (set_buffer (in_buffer ++ drop (Z.to_nat size) (bs_base s)) 0 (size * 8)).

Lemma new_packet_stream_ok :
  stream_ok new_packet_stream /\ bs_bit_num new_packet_stream = 0 /\
  space new_packet_stream = 8 * max_datagram_size /\ blen (bs_base new_packet_stream) = max_datagram_size.
Proof.
  pose proof (malloc_length max_datagram_size ltac:(done)) as Hl.
  pose proof (new_stream_ok (malloc max_datagram_size) (malloc_bytes _)) as Hok. rewrite Hl in Hok.
  split_and!; [by apply Hok | done | done | done].
Qed.
End packet_stream.

Section net.
Context `{Machine, Prng}.

Record net : Type := mk_net {
  _random_generator : random_generator;
  _event_queue : socket_event_queue;
  _send_packet_list : list packet_record;
  _process_start_time : time;
  udp_sent : list (address * bytes)
}.

Definition with_random (r : random_generator) (n : net) : net :=
  mk_net r (_event_queue n) (_send_packet_list n) (_process_start_time n) (udp_sent n).
Definition with_events (q : socket_event_queue) (n : net) : net :=
  mk_net (_random_generator n) q (_send_packet_list n) (_process_start_time n) (udp_sent n).
Definition with_send_list (l : list packet_record) (n : net) : net :=
  mk_net (_random_generator n) (_event_queue n) l (_process_start_time n) (udp_sent n).
Definition with_time (t : time) (n : net) : net :=
  mk_net (_random_generator n) (_event_queue n) (_send_packet_list n) t (udp_sent n).
Definition with_sent (l : list (address * bytes)) (n : net) : net :=
  mk_net (_random_generator n) (_event_queue n) (_send_packet_list n) (_process_start_time n) l.

Definition random {A} (m : M random_generator A) : M net A := zoom _random_generator with_random m.
Definition events {A} (m : M socket_event_queue A) : M net A := zoom _event_queue with_events m.

(** [udp_socket::send_to]: the datagram leaves this model.  Its result, which depends on
    the operating system, is used by [torque_socket::send_to] only. *)
Definition udp_send_to (the_address : address) (buffer : bytes) (buffer_size : Z) : M net unit :=
  _ ← lift (require (buffer_size <=? blen buffer) out_of_bounds);
  modify (fun n => with_sent (udp_sent n ++ [(the_address, take (Z.to_nat buffer_size) buffer)]) n).

(** [packet_stream::send_to] and [torque_socket::send_to] of a stream. *)
Definition send_stream (the_address : address) (s : bit_stream) : M net unit :=
  udp_send_to the_address (bs_base s) (get_next_byte_position s).

Fixpoint insert_by_time (p : packet_record) (l : list packet_record) : list packet_record :=
  match l with
  | [] => [p]
  | q :: l' => if send_time q <=? send_time p then q :: insert_by_time p l' else p :: l
  end.

Definition send_to_delayed (the_address : address) (s : bit_stream) (millisecond_delay : Z)
    : M net unit :=
  modify (fun n => with_send_list
    (insert_by_time (allocate_packet_record the_address s
      (time_add (_process_start_time n) millisecond_delay)) (_send_packet_list n)) n).

(** The first loop of [process_connections]. *)
Fixpoint flush_delayed (now : time) (l : list packet_record)
    : list packet_record * list (address * bytes) :=
  match l with
  | [] => ([], [])
  | p :: l' =>
      if send_time p <? now then
        let '(rest, out) := flush_delayed now l' in (rest, (remote_address p, packet_data p) :: out)
      else (l, [])
  end.

Definition send_delayed_packets : M net unit :=
  modify (fun n =>
    let '(rest, out) := flush_delayed (_process_start_time n) (_send_packet_list n) in
    with_sent (udp_sent n ++ out) (with_send_list rest n)).

(** The list stays sorted, and exactly the packets whose time has passed are sent. *)
Definition by_time (p q : packet_record) : Prop := send_time p <= send_time q.

Lemma insert_by_time_perm p l : Permutation (insert_by_time p l) (p :: l).
Proof.
  induction l as [|q l IH]; cbn; [done|]. destruct (_ <=? _); [|done].
  rewrite IH. apply Permutation_swap.
Qed.

Lemma insert_by_time_sorted p l :
  StronglySorted by_time l -> StronglySorted by_time (insert_by_time p l).
Proof.
  induction 1 as [|q l Hs IH Hq]; cbn; [repeat constructor|].
  destruct (Z.leb_spec (send_time q) (send_time p)).
  - constructor; [done|]. rewrite insert_by_time_perm. by constructor.
  - constructor; [by constructor|]. constructor; [unfold by_time; lia|].
    eapply Forall_impl; [|exact Hq]. unfold by_time. intros. lia.
Qed.

Lemma flush_delayed_spec now l :
  StronglySorted by_time l ->
  flush_delayed now l =
    (filter (fun p => now <= send_time p) l,
     (fun p => (remote_address p, packet_data p)) <$> filter (fun p => send_time p < now) l).
Proof.
  induction 1 as [|p l Hs IH Hp]; [done|]. cbn [flush_delayed].
  destruct (Z.ltb_spec (send_time p) now).
  - rewrite IH, (filter_cons_False _ p), (filter_cons_True _ p) by lia. done.
  - rewrite (filter_cons_True _ p), (filter_cons_False _ p) by lia. f_equal.
    + f_equal. symmetry. apply filter_all. eapply Forall_impl; [|exact Hp].
      unfold by_time. intros. lia.
    + enough (filter (fun p => send_time p < now) l = []) as -> by done.
      apply filter_none. eapply Forall_impl; [|exact Hp]. unfold by_time. intros. lia.
Qed.
End net.
