(* ===== verification/Connection.v ===== *)
(** * The notify protocol of one connection: torque_sockets/torque_connection.h

    A connection numbers its data packets, acknowledges the packets of its peer with a
    sliding bit mask in every packet header, and tells the application for every packet it
    sent whether it arrived.  [window] holds the fields of the protocol itself, [ping] the
    timeout bookkeeping. *)
From Stdlib Require Import SpecFloat.
From S2P Require Import Prelude Endian BitStream StreamIO Address EventQueue Cipher Net.
#[local] Open Scope Z_scope.

(** ** Constants of [connection_constants] *)
Definition max_packet_window_size_shift : Z := 5.
Definition max_packet_window_size : Z := Z.shiftl 1 max_packet_window_size_shift.
Definition packet_window_mask : Z := max_packet_window_size - 1.
Definition max_ack_mask_size : Z := Z.shiftl 1 (max_packet_window_size_shift - 5).
Definition max_ack_byte_count : Z := Z.shiftl max_ack_mask_size 2.
Definition sequence_number_bit_size : Z := 11.
Definition sequence_number_window_size : Z := Z.shiftl 1 sequence_number_bit_size.
Definition sequence_number_mask : Z := u32 (- sequence_number_window_size).
Definition ack_sequence_number_bit_size : Z := 10.
Definition ack_sequence_number_window_size : Z := Z.shiftl 1 ack_sequence_number_bit_size.
Definition ack_sequence_number_mask : Z := u32 (- ack_sequence_number_window_size).
Definition packet_header_bit_size : Z := 3 + ack_sequence_number_bit_size + sequence_number_bit_size.
Definition packet_header_byte_size : Z := Z.shiftr (packet_header_bit_size + 7) 3.
Definition packet_header_pad_bits : Z := Z.shiftl packet_header_byte_size 3 - packet_header_bit_size.
Definition message_signature_bytes : Z := 5.
Definition default_ping_timeout : Z := 5000.
Definition default_ping_retry_count : Z := 5.

Inductive net_packet_type : Type := data_packet | ping_packet | ack_packet | invalid_packet_type.

#[export] Instance net_packet_type_eq_dec : EqDecision net_packet_type.
Proof. solve_decision. Defined.

Definition packet_code (t : net_packet_type) : Z :=
  match t with data_packet => 0 | ping_packet => 1 | ack_packet => 2 | invalid_packet_type => 3 end.

(** ** The protocol window *)
Record window : Type := mk_window {
  _last_seq_recvd_at_send : list Z;
  _last_seq_recvd : Z;
  _highest_acked_seq : Z;
  _last_send_seq : Z;
  _ack_mask : list Z;
  _last_recv_ack_ack : Z;
  _initial_send_seq : Z;
  _initial_recv_seq : Z
}.

Definition with_at_send (l : list Z) (w : window) : window :=
  mk_window l (_last_seq_recvd w) (_highest_acked_seq w) (_last_send_seq w) (_ack_mask w)
    (_last_recv_ack_ack w) (_initial_send_seq w) (_initial_recv_seq w).
Definition with_last_recvd (x : Z) (w : window) : window :=
  mk_window (_last_seq_recvd_at_send w) x (_highest_acked_seq w) (_last_send_seq w) (_ack_mask w)
    (_last_recv_ack_ack w) (_initial_send_seq w) (_initial_recv_seq w).
Definition with_highest_acked (x : Z) (w : window) : window :=
  mk_window (_last_seq_recvd_at_send w) (_last_seq_recvd w) x (_last_send_seq w) (_ack_mask w)
    (_last_recv_ack_ack w) (_initial_send_seq w) (_initial_recv_seq w).
Definition with_last_send (x : Z) (w : window) : window :=
  mk_window (_last_seq_recvd_at_send w) (_last_seq_recvd w) (_highest_acked_seq w) x (_ack_mask w)
    (_last_recv_ack_ack w) (_initial_send_seq w) (_initial_recv_seq w).
Definition with_ack_mask (l : list Z) (w : window) : window :=
  mk_window (_last_seq_recvd_at_send w) (_last_seq_recvd w) (_highest_acked_seq w)
    (_last_send_seq w) l (_last_recv_ack_ack w) (_initial_send_seq w) (_initial_recv_seq w).
Definition with_ack_ack (x : Z) (w : window) : window :=
  mk_window (_last_seq_recvd_at_send w) (_last_seq_recvd w) (_highest_acked_seq w)
    (_last_send_seq w) (_ack_mask w) x (_initial_send_seq w) (_initial_recv_seq w).

Definition set_initial_recv_sequence (sequence : Z) (w : window) : window :=
  mk_window (_last_seq_recvd_at_send w) sequence (_highest_acked_seq w) (_last_send_seq w)
    (_ack_mask w) sequence (_initial_send_seq w) sequence.

Definition has_unacked_sent_packets (w : window) : bool :=
  negb (_last_send_seq w =? _highest_acked_seq w).
Definition get_next_send_sequence (w : window) : Z := u32 (_last_send_seq w + 1).

Definition window_full (w : window) : bool :=
  max_packet_window_size - 2 <=? u32 (_last_send_seq w - _highest_acked_seq w).

(** ** Writing a header *)

(** The loop that writes [_ack_mask], one word per pass, the last one partly. *)
Fixpoint write_ack_words (n : nat) (i ack_byte_count word_count : Z) (mask : list Z)
    (s : bit_stream) : result bit_stream :=
  match n with
  | O => Ok s
  | S n =>
      word ← bget mask i;
      s ← _write_integer s word
        (if i =? word_count - 1 then (ack_byte_count - i * 4) * 8 else 32);
      write_ack_words n (i + 1) ack_byte_count word_count mask s
  end.

(** The fields in the order of the wire, up to the next byte boundary. *)
Definition write_header_fields (w : window) (packet_type : net_packet_type) (ack_byte_count : Z)
    (s : bit_stream) : result bit_stream :=
  s ← _write_integer s (packet_code packet_type) 2;
  s ← _write_integer s (_last_send_seq w) 5;
  s ← write_bool s true;
  s ← _write_integer s (Z.shiftr (_last_send_seq w) 5) (sequence_number_bit_size - 5);
  s ← _write_integer s (_last_seq_recvd w) ack_sequence_number_bit_size;
  s ← _write_integer s 0 packet_header_pad_bits;
  s ← write_ranged_uint32 s ack_byte_count 0 max_ack_byte_count;
  let word_count := Z.shiftr (ack_byte_count + 3) 2 in
  s ← write_ack_words (Z.to_nat word_count) 0 ack_byte_count word_count (_ack_mask w) s;
  Ok (advance_to_next_byte s).

Definition write_packet_header (w : window) (s : bit_stream) (packet_type : net_packet_type)
    : result (window * bit_stream) :=
  _ ← require (negb (window_full w) || negb (bool_decide (packet_type = data_packet)))
    assertion_failed;
  let ack_byte_count := Z.shiftr (u32 (_last_seq_recvd w - _last_recv_ack_ack w + 7)) 3 in
  _ ← require (ack_byte_count <=? max_ack_byte_count) assertion_failed;
  let w := if decide (packet_type = data_packet)
           then with_last_send (u32 (_last_send_seq w + 1)) w else w in
  s ← write_header_fields w packet_type ack_byte_count s;
  if decide (packet_type = data_packet) then
    at_send ← bset (_last_seq_recvd_at_send w)
      (Z.land (_last_send_seq w) packet_window_mask) (_last_seq_recvd w);
    Ok (with_at_send at_send w, s)
  else Ok (w, s).

(** ** Reading a header: the parts of [read_packet_header] *)

(** Completing a partial number: the high bits of a reference value, one window further
    when that lies before it. *)
Definition reconstruct (partial reference mask window_size : Z) : Z :=
  let x := Z.lor partial (Z.land reference mask) in
  if x <? reference then u32 (x + window_size) else x.

(** The fields before the acknowledgement bytes: the type, the low eleven bits of the
    sequence, the flag of a protocol packet, the low ten of the highest ack and the pad. *)
Definition read_header_fields (pstream : bit_stream) : result (bit_stream * (Z * Z * bool * Z * Z)) :=
  '(pstream, pk_packet_type) ← _read_integer pstream 2;
  '(pstream, pk_sequence_number) ← _read_integer pstream 5;
  '(pstream, pk_data_packet_flag) ← read_bool pstream;
  '(pstream, high) ← _read_integer pstream (sequence_number_bit_size - 5);
  let pk_sequence_number := Z.lor pk_sequence_number (u32 (Z.shiftl high 5)) in
  '(pstream, pk_highest_ack) ← _read_integer pstream ack_sequence_number_bit_size;
  '(pstream, pk_pad_bits) ← _read_integer pstream packet_header_pad_bits;
  Ok (pstream, (pk_packet_type, pk_sequence_number, pk_data_packet_flag, pk_highest_ack, pk_pad_bits)).

Fixpoint read_ack_words (n : nat) (i count word_count : Z) (mask : list Z) (s : bit_stream)
    : result (bit_stream * list Z) :=
  match n with
  | O => Ok (s, mask)
  | S n =>
      '(s, word) ← _read_integer s (if i =? word_count - 1 then (count - i * 4) * 8 else 32);
      mask ← bset mask i word;
      read_ack_words n (i + 1) count word_count mask s
  end.

(** [while(ack_mask_shift > 32)]: whole words; [max_ack_mask_size] is 1, so the inner loop
    has no pass and only the reset of word 0 is left. *)
Fixpoint shift_words (fuel : nat) (mask : list Z) (ack_mask_shift : Z) : result (list Z * Z) :=
  if ack_mask_shift >? 32 then
    match fuel with
    | O => Fault out_of_fuel
    | S fuel => mask ← bset mask 0 0; shift_words fuel mask (u32 (ack_mask_shift - 32))
    end
  else Ok (mask, ack_mask_shift).

(** The shift by less than a word.  A 32-bit shift count is taken modulo 32. *)
Fixpoint shift_bits (n : nat) (i : Z) (mask : list Z) (ack_mask_shift up_shifted : Z)
    : result (list Z) :=
  match n with
  | O => Ok mask
  | S n =>
      word ← bget mask i;
      let next_shift := Z.shiftr word (Z.land (32 - ack_mask_shift) 31) in
      mask ← bset mask i (Z.lor (u32 (Z.shiftl word (Z.land ack_mask_shift 31))) up_shifted);
      shift_bits n (i + 1) mask ack_mask_shift next_shift
  end.

Definition shift_ack_mask (packet_type : Z) (ack_mask_shift : Z) (mask : list Z) : result (list Z) :=
  '(mask, ack_mask_shift) ← shift_words 1 mask ack_mask_shift;
  let up_shifted := if packet_type =? packet_code data_packet then 1 else 0 in
  shift_bits (Z.to_nat max_ack_mask_size) 0 mask ack_mask_shift up_shifted.

(** ** The connection object *)
Record ping_state : Type := mk_ping {
  _ping_timeout : time;
  _ping_retry_count : Z;
  _ping_send_count : Z;
  _last_ping_send_time : time
}.

Section connection.
Context `{Machine, Prng, BlockCipher}.

Record torque_connection : Type := mk_connection {
  _next : option loc;
  _prev : option loc;
  _address : address;
  _connection_index : Z;
  _is_initiator : bool;
  _initiator_nonce : Z;
  _host_nonce : Z;
  _shared_secret : option byte_buffer;
  _symmetric_cipher : option symmetric_cipher;
  _window : window;
  _ping : ping_state;
  _simulated_latency : Z;
  _simulated_packet_loss : float32
}.

Definition with_window (w : window) (c : torque_connection) : torque_connection :=
  mk_connection (_next c) (_prev c) (_address c) (_connection_index c) (_is_initiator c)
    (_initiator_nonce c) (_host_nonce c) (_shared_secret c) (_symmetric_cipher c) w (_ping c)
    (_simulated_latency c) (_simulated_packet_loss c).
Definition with_ping (p : ping_state) (c : torque_connection) : torque_connection :=
  mk_connection (_next c) (_prev c) (_address c) (_connection_index c) (_is_initiator c)
    (_initiator_nonce c) (_host_nonce c) (_shared_secret c) (_symmetric_cipher c) (_window c) p
    (_simulated_latency c) (_simulated_packet_loss c).
Definition with_cipher (k : option symmetric_cipher) (c : torque_connection) : torque_connection :=
  mk_connection (_next c) (_prev c) (_address c) (_connection_index c) (_is_initiator c)
    (_initiator_nonce c) (_host_nonce c) (_shared_secret c) k (_window c) (_ping c)
    (_simulated_latency c) (_simulated_packet_loss c).
Definition with_links (next prev : option loc) (c : torque_connection) : torque_connection :=
  mk_connection next prev (_address c) (_connection_index c) (_is_initiator c)
    (_initiator_nonce c) (_host_nonce c) (_shared_secret c) (_symmetric_cipher c) (_window c)
    (_ping c) (_simulated_latency c) (_simulated_packet_loss c).
(** [set_address], [set_shared_secret] and [_host_nonce = ...], as the two places that
    create a connection call them. *)
Definition with_peer (a : address) (secret : option byte_buffer) (host_nonce : Z)
    (c : torque_connection) : torque_connection :=
  mk_connection (_next c) (_prev c) a (_connection_index c) (_is_initiator c)
    (_initiator_nonce c) host_nonce secret (_symmetric_cipher c) (_window c)
    (_ping c) (_simulated_latency c) (_simulated_packet_loss c).
Definition set_simulated_net_params (packet_loss : float32) (latency : Z)
    (c : torque_connection) : torque_connection :=
  mk_connection (_next c) (_prev c) (_address c) (_connection_index c) (_is_initiator c)
    (_initiator_nonce c) (_host_nonce c) (_shared_secret c) (_symmetric_cipher c) (_window c)
    (_ping c) latency packet_loss.

Definition set_ping_timeouts (time_per_ping : time) (ping_retry_count : Z)
    (c : torque_connection) : torque_connection :=
  with_ping (mk_ping time_per_ping ping_retry_count (_ping_send_count (_ping c))
    (_last_ping_send_time (_ping c))) c.

(** The constructor; what it does not set is indeterminate. *)
Definition new_window (initial_send_sequence : Z) : window :=
  mk_window (replicate 32 (u32 indeterminate)) 0 initial_send_sequence initial_send_sequence
    [0] 0 initial_send_sequence (u32 indeterminate).

Definition new_torque_connection (initiator_nonce initial_send_sequence connection_index : Z)
    (is_initiator : bool) : torque_connection :=
  mk_connection None None (address_of_name any 0) connection_index is_initiator initiator_nonce
    (u64 indeterminate) None None (new_window initial_send_sequence)
    (mk_ping default_ping_timeout default_ping_retry_count 0 0) 0 (S754_zero false).

(** [_symmetric_cipher->setup_counter(...)] if there is a cipher. *)
Definition setup_connection_counter (c : torque_connection) (v1 v2 v3 : Z)
    : result torque_connection :=
  match _symmetric_cipher c with
  | None => Ok c
  | Some k => k ← setup_counter k v1 v2 v3 0; Ok (with_cipher (Some k) c)
  end.

(** [_simulated_packet_loss && random_unit_float() < _simulated_packet_loss] *)
Definition simulate_loss (c : torque_connection) : M net bool :=
  if float_nonzero (_simulated_packet_loss c) then
    x ← random random_unit_float; mret (SFltb x (_simulated_packet_loss c))
  else mret false.

(** The packet is sent whatever [simulate_loss] says: the drop is only logged. *)
Definition send_packet (c : torque_connection) (packet_type : net_packet_type)
    (data : bytes) (data_size : Z) : M net (torque_connection * Z) :=
  '(w, ps) ← lift (write_packet_header (_window c) new_packet_stream packet_type);
  let c := with_window w c in
  ps ← (if decide (packet_type = data_packet) then
          '(ps, _) ← lift (write_bytes ps data data_size); mret ps
        else mret ps);
  c ← lift (setup_connection_counter c (_last_send_seq w) (_last_seq_recvd w)
              (packet_code packet_type));
  _ ← simulate_loss c;
  _ ← (if negb (_simulated_latency c =? 0)
       then send_to_delayed (_address c) ps (_simulated_latency c)
       else send_stream (_address c) ps);
  mret (c, _last_send_seq w).

Definition send_ping_packet (c : torque_connection) : M net torque_connection :=
  '(c, _) ← send_packet c ping_packet [] 0; mret c.
Definition send_ack_packet (c : torque_connection) : M net torque_connection :=
  '(c, _) ← send_packet c ack_packet [] 0; mret c.

Definition keep_alive (c : torque_connection) : torque_connection :=
  with_ping (mk_ping (_ping_timeout (_ping c)) (_ping_retry_count (_ping c)) 0 0) c.

(** The loop over the newly acknowledged packets: pass [i] reports one of them. *)
Fixpoint notify_loop (n : nat) (i pk_highest_ack : Z) (pk_ack_mask : list Z) (index : Z)
    (w : window) : M net window :=
  match n with
  | O => mret w
  | S n =>
      let notify_index := u32 (_highest_acked_seq w + i + 1) in
      let ack_mask_bit := Z.land (u32 (pk_highest_ack - notify_index)) 0x1F in
      let ack_mask_word := Z.shiftr (u32 (pk_highest_ack - notify_index)) 5 in
      word ← lift (bget pk_ack_mask ack_mask_word);
      let packet_transmit_success := negb (Z.land word (u32 (Z.shiftl 1 ack_mask_bit)) =? 0) in
      p ← events (post_event torque_connection_packet_notify_event_type index);
      _ ← events (update_event p (with_delivered packet_transmit_success));
      _ ← events (update_event p (with_sequence notify_index));
      w ← (if packet_transmit_success then
             x ← lift (bget (_last_seq_recvd_at_send w) (Z.land notify_index packet_window_mask));
             mret (with_ack_ack x w)
           else mret w);
      notify_loop n (i + 1) pk_highest_ack pk_ack_mask index w
  end.

(** What [read_packet_header] does once the header has been accepted. *)
Definition process_header (c : torque_connection) (pk_packet_type pk_sequence_number
    pk_highest_ack : Z) (pk_ack_mask : list Z) : M net (torque_connection * bool) :=
  let w := _window c in
  mask ← lift (shift_ack_mask pk_packet_type (u32 (pk_sequence_number - _last_seq_recvd w))
                 (_ack_mask w));
  let w := with_ack_mask mask w in
  let notify_count := u32 (pk_highest_ack - _highest_acked_seq w) in
  w ← notify_loop (Z.to_nat notify_count) 0 pk_highest_ack pk_ack_mask (_connection_index c) w;
  let w := if max_packet_window_size <? u32 (pk_sequence_number - _last_recv_ack_ack w)
           then with_ack_ack (u32 (pk_sequence_number - max_packet_window_size)) w else w in
  let w := with_highest_acked pk_highest_ack w in
  let c := keep_alive (with_window w c) in
  let prev_last_sequence := _last_seq_recvd w in
  let w := with_last_recvd pk_sequence_number w in
  let c := with_window w c in
  c ← (if (pk_packet_type =? packet_code ping_packet) ||
          (Z.shiftr max_packet_window_size 1 <? u32 (pk_sequence_number - _last_recv_ack_ack w))
       then send_ack_packet c else mret c);
  mret (c, negb (prev_last_sequence =? pk_sequence_number) &&
           (pk_packet_type =? packet_code data_packet)).

Definition read_packet_header (c : torque_connection) (pstream : bit_stream)
    : M net (torque_connection * bit_stream * bool) :=
  let w := _window c in
  '(pstream, (pk_packet_type, pk_sequence_number, pk_data_packet_flag, pk_highest_ack, pk_pad_bits))
    ← lift (read_header_fields pstream);
  if negb (pk_pad_bits =? 0) then mret (c, pstream, false) else
  _ ← lift (require pk_data_packet_flag assertion_failed);
  let pk_sequence_number := reconstruct pk_sequence_number (_last_seq_recvd w)
    sequence_number_mask sequence_number_window_size in
  if max_packet_window_size - 1 <? u32 (pk_sequence_number - _last_seq_recvd w)
  then mret (c, pstream, false) else
  let pk_highest_ack := reconstruct pk_highest_ack (_highest_acked_seq w)
    ack_sequence_number_mask ack_sequence_number_window_size in
  if _last_send_seq w <? pk_highest_ack then mret (c, pstream, false) else
  c ← lift (setup_connection_counter c pk_sequence_number pk_highest_ack pk_packet_type);
  '(pstream, pk_ack_byte_count) ← lift (read_ranged_uint32 pstream 0 max_ack_byte_count);
  if (max_ack_byte_count <? pk_ack_byte_count) ||
     (packet_code invalid_packet_type <=? pk_packet_type)
  then mret (c, pstream, false) else
  let pk_ack_word_count := Z.shiftr (pk_ack_byte_count + 3) 2 in
  '(pstream, pk_ack_mask) ← lift (read_ack_words (Z.to_nat pk_ack_word_count) 0
    pk_ack_byte_count pk_ack_word_count [u32 indeterminate] pstream);
  let pstream := advance_to_next_byte pstream in
  '(c, ret) ← process_header c pk_packet_type pk_sequence_number pk_highest_ack pk_ack_mask;
  mret (c, pstream, ret).

(** The event for a packet to deliver: the bytes after the header. *)
Definition post_packet_event (index seq : Z) (bstream : bit_stream) : M net unit :=
  p ← events (post_event torque_connection_packet_event_type 0);
  _ ← events (update_event p (with_sequence seq));
  _ ← events (update_event p (with_connection index));
  let pos := get_byte_position bstream in
  _ ← events (set_event_data p (drop (Z.to_nat pos) (bs_base bstream))
                (u32 (get_stream_byte_size bstream - pos)));
  mret tt.

(** [read_raw_packet]: a packet to deliver becomes an event with the rest of the bytes. *)
Definition read_raw_packet (c : torque_connection) (bstream : bit_stream)
    : M net (torque_connection * bit_stream * bool) :=
  lost ← simulate_loss c;
  if (lost : bool) then mret (c, bstream, false) else
  '(c, bstream, ok) ← read_packet_header c bstream;
  if (ok : bool) then
    _ ← post_packet_event (_connection_index c) (_last_seq_recvd (_window c)) bstream;
    mret (c, bstream, true)
  else mret (c, bstream, false).

(** [check_timeout]: [true] once every ping went unanswered. *)
Definition check_timeout (c : torque_connection) (current_time : time)
    : M net (torque_connection * bool) :=
  let p := _ping c in
  let p := if _last_ping_send_time p =? 0
           then mk_ping (_ping_timeout p) (_ping_retry_count p) (_ping_send_count p) current_time
           else p in
  let c := with_ping p c in
  if _ping_timeout p <? time_sub current_time (_last_ping_send_time p) then
    if _ping_retry_count p <=? _ping_send_count p then mret (c, true) else
    let c := with_ping (mk_ping (_ping_timeout p) (_ping_retry_count p)
                          (u32 (_ping_send_count p + 1)) current_time) c in
    c ← send_ping_packet c;
    mret (c, false)
  else mret (c, false).
End connection.
