(* ===== verification/Header.v ===== *)
(** * The packet header of the notify protocol, as bits

    [hdr] is the information in a header.  [write_packet_header] appends its bits, and
    [read_packet_header] on those bits decides and acts on exactly that information. *)
From Stdlib Require Import SpecFloat.
From S2P Require Import Prelude Endian BitStream StreamIO Address EventQueue Cipher Net Connection.
#[local] Open Scope Z_scope.

Record hdr : Type := mk_hdr {
  h_type : net_packet_type;
  h_seq : Z;
  h_ack : Z;
  h_count : Z;
  h_mask : Z
}.

Definition mask_bits (h : hdr) : list bool :=
  if h_count h =? 0 then [] else int_bits (8 * h_count h) (h_mask h).

Definition hdr_bits (h : hdr) : list bool :=
  int_bits 2 (packet_code (h_type h)) ++ int_bits 5 (h_seq h) ++ [true] ++
  int_bits 6 (Z.shiftr (h_seq h) 5) ++ int_bits 10 (h_ack h) ++ int_bits 0 0 ++
  int_bits 3 (h_count h) ++ mask_bits h.

Record hdr_ok (h : hdr) : Prop := {
  ok_seq : in_u 11 (h_seq h);
  ok_ack : in_u 10 (h_ack h);
  ok_count : 0 <= h_count h <= 4;
  ok_mask : in_u (8 * h_count h) (h_mask h)
}.

(** What a window puts in a header once the send sequence has been advanced. *)
Definition ack_bytes (w : window) : Z := (_last_seq_recvd w - _last_recv_ack_ack w + 7) mod 2 ^ 32 / 8.
Definition header_of (t : net_packet_type) (w : window) : hdr :=
  mk_hdr t (_last_send_seq w mod 2 ^ 11) (_last_seq_recvd w mod 2 ^ 10) (ack_bytes w)
    (nth 0 (_ack_mask w) 0 mod 2 ^ (8 * ack_bytes w)).

(** The window after a packet of type [t] was sent. *)
Definition sent (t : net_packet_type) (w : window) : window :=
  if decide (t = data_packet) then
    let w := with_last_send (u32 (_last_send_seq w + 1)) w in
    with_at_send (<[Z.to_nat (_last_send_seq w mod 32) := _last_seq_recvd w]>
                    (_last_seq_recvd_at_send w)) w
  else w.

(** Every reachable window: [write_packet_header] relies on the last clause. *)
Record window_ok (w : window) : Prop := {
  ok_at_send : length (_last_seq_recvd_at_send w) = 32%nat;
  ok_recvd : is_u32 (_last_seq_recvd w);
  ok_acked : is_u32 (_highest_acked_seq w);
  ok_sent : is_u32 (_last_send_seq w);
  ok_mask_word : exists m, _ack_mask w = [m] /\ is_u32 m;
  ok_ack_ack : u32 (_last_seq_recvd w - _last_recv_ack_ack w) <= 32
}.

Lemma header_of_ok t w : window_ok w -> hdr_ok (header_of t w).
Proof.
  intros [_ ? ? ? (m & Hm & ?) Ha]. unfold header_of.
  assert (0 <= ack_bytes w <= 4) by (unfold ack_bytes; zlia).
  split; cbn; [apply Z.mod_pos_bound; lia | apply Z.mod_pos_bound; lia | done |].
  apply Z.mod_pos_bound. lia.
Qed.

Lemma sent_ok t w : window_ok w -> window_ok (sent t w).
Proof.
  intros [? ? ? ? ? ?]. unfold sent. case_decide; [|by split].
  split; cbn; rewrite ?length_insert; auto with words.
Qed.

(** Only the low bits of a field are sent. *)
Lemma int_bits_mod k n v : 0 <= k <= n -> int_bits k (v mod 2 ^ n) = int_bits k v.
Proof.
  intros Hk. apply int_bits_eq_range; [lia|]. apply Z.bits_inj'. intros i Hi.
  rewrite !testbit_u by lia. cases_ltb; simpl_bool; done.
Qed.

Lemma int_bits_shiftr_mod k j n v :
  0 <= k -> 0 <= j -> j + k <= n -> int_bits k (Z.shiftr (v mod 2 ^ n) j) = int_bits k (Z.shiftr v j).
Proof.
  intros. apply int_bits_eq_range; [lia|]. apply Z.bits_inj'. intros i Hi.
  rewrite !testbit_u, !testbit_shiftr, testbit_u by lia. cases_ltb; simpl_bool; done.
Qed.

(** ** Writing *)
Lemma length_hdr_bits h :
  0 <= h_count h -> Z.of_nat (length (hdr_bits h)) = 27 + 8 * h_count h.
Proof.
  intros Hc. unfold hdr_bits, mask_bits. rewrite !length_app, !length_int_bits. cbn [length].
  destruct (Z.eqb_spec (h_count h) 0); rewrite ?length_int_bits; cbn [length]; lia.
Qed.

Lemma write_ack_words_spec s k m mask :
  stream_ok s -> 0 <= k <= 4 -> 8 * k <= space s -> mask = [m] ->
  exists s', write_ack_words (Z.to_nat (Z.shiftr (k + 3) 2)) 0 k (Z.shiftr (k + 3) 2) mask s = Ok s' /\
    appended s (if k =? 0 then [] else int_bits (8 * k) m) s'.
Proof.
  intros Hok Hk Hsp ->. destruct (Z.eqb_spec k 0) as [->|Hk0].
  { exists s. split; [done | by apply appended_refl]. }
  assert (Z.shiftr (k + 3) 2 = 1) as ->.
  { rewrite Z.shiftr_div_pow2 by lia. assert (k = 1 \/ k = 2 \/ k = 3 \/ k = 4) as
      [-> | [-> | [-> | ->]]] by lia; done. }
  change (Z.to_nat 1) with 1%nat.
  assert (write_ack_words 1 0 k 1 [m] s = s ← _write_integer s m ((k - 0 * 4) * 8); Ok s) as -> by done.
  replace ((k - 0 * 4) * 8) with (8 * k) by lia.
  destruct (write_integer_appended s m (8 * k)) as (s' & -> & Ha); [done | lia | lia |].
  cbn. eauto.
Qed.

(** [ack_byte_count] takes three bits. *)
Lemma write_count_appended s k :
  stream_ok s -> 0 <= k <= 4 -> 3 <= space s ->
  exists s', write_ranged_uint32 s k 0 4 = Ok s' /\ appended s (int_bits 3 k) s'.
Proof.
  intros Hok Hk Hsp. destruct (write_ranged_appended s k 0 4) as (s' & Hs & Ha); try (done || lia).
  change (range_bits 0 4) with 3 in Ha. rewrite Z.sub_0_r in Ha. eauto.
Qed.

Lemma read_count_upcoming s k r :
  stream_ok s -> 0 <= k <= 4 -> upcoming s = int_bits 3 k ++ r ->
  exists s', read_ranged_uint32 s 0 4 = Ok (s', k) /\ consumed s (int_bits 3 k) s'.
Proof.
  intros Hok Hk Hu. destruct (read_ranged_upcoming s k 0 4 r) as (s' & Hs & Hc); try (done || lia).
  { change (range_bits 0 4) with 3. by rewrite Z.sub_0_r. }
  change (range_bits 0 4) with 3 in Hc. rewrite Z.sub_0_r in Hc. eauto.
Qed.

(** Chains the writes of a header: each appends its bits and leaves room for the next. *)
Ltac step_write lem :=
  match goal with
  | Hs : appended ?s0 ?l ?s, Hsp : _ <= space ?s0 |- _ =>
      let s' := fresh "s" in let Ha := fresh "Ha" in let Hsp' := fresh "Hsp" in
      pose proof (appended_space _ _ _ Hs);
      destruct (lem s) as (s' & -> & Ha);
      [apply Hs | try (rewrite ?length_app, ?length_int_bits in *; cbn [length] in *; lia) .. |];
      cbn [mbind result_bind];
      pose proof (appended_trans _ _ _ _ _ Hs Ha); clear Hs Ha
  end.

Lemma header_of_bits t w m :
  _ack_mask w = [m] -> 0 <= ack_bytes w <= 4 ->
  hdr_bits (header_of t w) =
    int_bits 2 (packet_code t) ++ int_bits 5 (_last_send_seq w) ++ [true] ++
    int_bits 6 (Z.shiftr (_last_send_seq w) 5) ++ int_bits 10 (_last_seq_recvd w) ++
    int_bits 0 0 ++ int_bits 3 (ack_bytes w) ++
    (if ack_bytes w =? 0 then [] else int_bits (8 * ack_bytes w) m).
Proof.
  intros Hm Hk. unfold header_of, hdr_bits, mask_bits. cbn [h_type h_seq h_ack h_count h_mask].
  rewrite Hm. cbn [nth]. rewrite (int_bits_mod 5 11), (int_bits_shiftr_mod 6 5 11), (int_bits_mod 10 10) by lia.
  destruct (Z.eqb_spec (ack_bytes w) 0); [done|]. by rewrite int_bits_mod by lia.
Qed.

Lemma write_header_fields_spec w t s m :
  _ack_mask w = [m] -> 0 <= ack_bytes w <= 4 ->
  stream_ok s -> bs_bit_num s = 0 -> bs_bit_end s mod 8 = 0 -> 64 <= space s ->
  exists s' pad, write_header_fields w t (ack_bytes w) s = Ok s' /\
    appended s (hdr_bits (header_of t w) ++ pad) s' /\ length pad = 5%nat /\
    bs_bit_num s' = 32 + 8 * ack_bytes w.
Proof.
  intros Hm Hk4 Hok Hnum Hend Hsp. rewrite (header_of_bits _ _ m) by done.
  unfold write_header_fields, sequence_number_bit_size, ack_sequence_number_bit_size,
    max_ack_byte_count, max_ack_mask_size, max_packet_window_size_shift.
  change (11 - 5) with 6. change packet_header_pad_bits with 0.
  change (Z.shiftl (Z.shiftl 1 (5 - 5)) 2) with 4.
  pose proof (appended_refl s Hok) as Ha.
  step_write (fun s => write_integer_appended s (packet_code t) 2).
  step_write (fun s => write_integer_appended s (_last_send_seq w) 5).
  step_write (fun s => write_bool_appended s true).
  step_write (fun s => write_integer_appended s (Z.shiftr (_last_send_seq w) 5) 6).
  step_write (fun s => write_integer_appended s (_last_seq_recvd w) 10).
  step_write (fun s => write_integer_appended s 0 0).
  step_write (fun s => write_count_appended s (ack_bytes w)).
  step_write (fun s Ho Hc Hs => write_ack_words_spec s (ack_bytes w) m (_ack_mask w) Ho Hc Hs Hm).
  match goal with H : appended s _ ?t |- _ => rename H into Hall; set (l := t) in * end.
  assert (Hend' : bs_bit_end l mod 8 = 0) by by rewrite (app_end _ _ _ Hall).
  destruct (advance_appended l) as (pad & Hadv & Hpad); [apply Hall | done |].
  pose proof (app_num _ _ _ Hadv) as Hn. pose proof (app_num _ _ _ Hall) as Hn'.
  rewrite Hnum in Hn'. rewrite <- !app_assoc in Hall. cbn [app] in Hall.
  rewrite !length_app, !length_int_bits in Hn'. cbn [length] in Hn'.
  assert (Z.of_nat (length (if ack_bytes w =? 0 then [] else int_bits (8 * ack_bytes w) m)) =
    8 * ack_bytes w).
  { destruct (Z.eqb_spec (ack_bytes w) 0); rewrite ?length_int_bits; cbn [length]; lia. }
  assert (bs_bit_num l = 27 + 8 * ack_bytes w) as Hl by lia.
  exists (advance_to_next_byte l), pad. split_and!; [done | | zlia | zlia].
  pose proof (appended_trans _ _ _ _ _ Hall Hadv) as Hfin. by rewrite <- !app_assoc in Hfin.
Qed.

Lemma land_window_mask x : Z.land x packet_window_mask = x mod 32.
Proof. change packet_window_mask with (Z.ones 5). by rewrite Z.land_ones. Qed.

(** Sending never faults on a reachable window, and what goes out is [header_of]. *)
Lemma write_packet_header_spec w s t :
  window_ok w -> (t = data_packet -> window_full w = false) ->
  stream_ok s -> bs_bit_num s = 0 -> bs_bit_end s mod 8 = 0 -> 64 <= space s ->
  exists s' pad, write_packet_header w s t = Ok (sent t w, s') /\
    appended s (hdr_bits (header_of t (sent t w)) ++ pad) s' /\ length pad = 5%nat /\
    bs_bit_num s' = 32 + 8 * h_count (header_of t (sent t w)).
Proof.
  intros Hw Hfull Hok Hnum Hend Hsp. pose proof Hw as [Hl Hr Hh Hs (m & Hm & Hm') Haa].
  unfold write_packet_header.
  assert (negb (window_full w) || negb (bool_decide (t = data_packet)) = true) as ->.
  { case_bool_decide; [by rewrite Hfull | by rewrite orb_true_r]. }
  assert (Hk : Z.shiftr (u32 (_last_seq_recvd w - _last_recv_ack_ack w + 7)) 3 = ack_bytes w).
  { by rewrite Z.shiftr_div_pow2 by lia. }
  rewrite Hk. assert (Hk4 : 0 <= ack_bytes w <= 4) by (unfold ack_bytes; zlia).
  change max_ack_byte_count with 4. destruct (Z.leb_spec (ack_bytes w) 4); [|lia].
  cbn [require mbind result_bind]. rewrite land_window_mask.
  unfold sent, header_of. case_decide as Ht.
  - set (w1 := with_last_send (u32 (_last_send_seq w + 1)) w).
    destruct (write_header_fields_spec w1 t s m) as (s' & pad & Hwr & Happ & Hp & Hn); try done.
    change (ack_bytes w1) with (ack_bytes w) in Hwr. rewrite Hwr. cbn [mbind result_bind].
    rewrite bset_lt by (unfold blen; cbn; rewrite Hl; zlia).
    exists s', pad. done.
  - destruct (write_header_fields_spec w t s m) as (s' & pad & -> & Happ & Hp & Hn); try done.
    exists s', pad. done.
Qed.

(** ** Reading *)

(** The full numbers of an acceptable header, [None] for one that is dropped. *)
Definition judge (w : window) (h : hdr) : option (Z * Z) :=
  let seq := reconstruct (h_seq h) (_last_seq_recvd w) sequence_number_mask sequence_number_window_size in
  if max_packet_window_size - 1 <? u32 (seq - _last_seq_recvd w) then None else
  let ack := reconstruct (h_ack h) (_highest_acked_seq w)
    ack_sequence_number_mask ack_sequence_number_window_size in
  if _last_send_seq w <? ack then None else
  if decide (h_type h = invalid_packet_type) then None else Some (seq, ack).

Lemma packet_code_range t : 0 <= packet_code t < 4.
Proof. destruct t; cbn; lia. Qed.

(** The two parts of the sequence number on the wire. *)
Lemma seq_parts x :
  in_u 11 x -> Z.lor (x mod 2 ^ 5) (u32 (Z.shiftl (Z.shiftr x 5 mod 2 ^ 6) 5)) = x.
Proof.
  intros Hx. apply Z.bits_inj'. intros i Hi.
  rewrite Z.lor_spec, testbit_u, testbit_u32, testbit_shiftl by lia.
  destruct (Z.ltb_spec i 5).
  - rewrite (Z.testbit_neg_r _ (i - 5)) by lia. simpl_bool. done.
  - rewrite testbit_u, testbit_shiftr, Z.sub_add by lia. simpl_bool.
    destruct (Z.ltb_spec i 11).
    + destruct (Z.ltb_spec (i - 5) 6), (Z.ltb_spec i 32); try lia. by simpl_bool.
    + by rewrite (testbit_high 11) by (done || lia).
Qed.

Lemma read_ack_words_spec s k m g r :
  stream_ok s -> 0 <= k <= 4 -> in_u (8 * k) m ->
  upcoming s = (if k =? 0 then [] else int_bits (8 * k) m) ++ r ->
  exists s', read_ack_words (Z.to_nat (Z.shiftr (k + 3) 2)) 0 k (Z.shiftr (k + 3) 2) [g] s =
      Ok (s', [if k =? 0 then g else m]) /\
    consumed s (if k =? 0 then [] else int_bits (8 * k) m) s'.
Proof.
  intros Hok Hk Hm Hu. destruct (Z.eqb_spec k 0) as [->|Hk0].
  { exists s. split; [done|]. by apply consumed_refl. }
  assert (Z.shiftr (k + 3) 2 = 1) as ->.
  { rewrite Z.shiftr_div_pow2 by lia. assert (k = 1 \/ k = 2 \/ k = 3 \/ k = 4) as
      [-> | [-> | [-> | ->]]] by lia; done. }
  change (Z.to_nat 1) with 1%nat.
  assert (read_ack_words 1 0 k 1 [g] s =
    '(s, word) ← _read_integer s ((k - 0 * 4) * 8); Ok (s, [word])) as -> by done.
  replace ((k - 0 * 4) * 8) with (8 * k) by lia.
  destruct (read_integer_upcoming s (8 * k) m r) as (s' & -> & Hc); [done | lia | done |].
  cbn. rewrite Z.mod_small by done. eauto.
Qed.

(** Chains the reads of a header. *)
Ltac step_read lem :=
  match goal with
  | Hc : consumed ?s0 ?l ?s, Hu : upcoming ?s = _ ++ ?r |- _ =>
      let s' := fresh "s" in let Hc' := fresh "Hc" in let Hu' := fresh "Hu" in
      destruct (lem s r) as (s' & -> & Hc');
      [apply Hc | try (exact Hu || lia) .. |]; cbn [mbind result_bind];
      pose proof (consumed_upcoming _ _ _ _ Hc' Hu) as Hu';
      pose proof (consumed_trans _ _ _ _ _ Hc Hc'); clear Hc Hc' Hu
  end.

Definition fixed_bits (h : hdr) : list bool :=
  int_bits 2 (packet_code (h_type h)) ++ int_bits 5 (h_seq h) ++ [true] ++
  int_bits 6 (Z.shiftr (h_seq h) 5) ++ int_bits 10 (h_ack h) ++ int_bits 0 0.

Lemma hdr_bits_fixed h : hdr_bits h = fixed_bits h ++ int_bits 3 (h_count h) ++ mask_bits h.
Proof. unfold hdr_bits, fixed_bits. by rewrite <- !app_assoc. Qed.

Lemma read_header_fields_spec s h r :
  hdr_ok h -> stream_ok s -> upcoming s = fixed_bits h ++ r ->
  exists s', read_header_fields s = Ok (s', (packet_code (h_type h), h_seq h, true, h_ack h, 0)) /\
    consumed s (fixed_bits h) s'.
Proof.
  intros [Hseq Hack _ _] Hok Hu. unfold fixed_bits in *. rewrite <- !app_assoc in Hu.
  unfold read_header_fields, sequence_number_bit_size, ack_sequence_number_bit_size.
  change (11 - 5) with 6. change packet_header_pad_bits with 0.
  pose proof (consumed_refl s Hok) as Hc.
  step_read (fun s => read_integer_upcoming s 2 (packet_code (h_type h))).
  step_read (fun s => read_integer_upcoming s 5 (h_seq h)).
  step_read (fun s => read_bool_upcoming s true).
  step_read (fun s => read_integer_upcoming s 6 (Z.shiftr (h_seq h) 5)).
  step_read (fun s => read_integer_upcoming s 10 (h_ack h)).
  step_read (fun s => read_integer_upcoming s 0 0).
  rewrite (Z.mod_small (packet_code (h_type h))) by apply packet_code_range.
  rewrite (Z.mod_small (h_ack h)) by done. rewrite seq_parts by done.
  eexists. split; [done|]. match goal with H : consumed s _ _ |- _ => cbn [app] in H; by rewrite <- !app_assoc in H end.
Qed.

Section read.
Context `{Machine, Prng, BlockCipher}.

Definition conn_cipher_ok (c : torque_connection) : Prop :=
  match _symmetric_cipher c with None => True | Some k => cipher_ok k end.

Lemma setup_connection_counter_total c v1 v2 v3 :
  conn_cipher_ok c -> exists k,
    setup_connection_counter c v1 v2 v3 = Ok (with_cipher k c) /\
    conn_cipher_ok (with_cipher k c).
Proof.
  unfold conn_cipher_ok, setup_connection_counter. destruct (_symmetric_cipher c) as [k|] eqn:Hk.
  - intros Hok. destruct (setup_counter_total k v1 v2 v3 0 Hok) as (k' & -> & Hk').
    exists (Some k'). cbn. done.
  - exists None. split; [|done]. destruct c; cbn in *. by subst.
Qed.

(** A dropped header changes nothing but the counter of the cipher. *)
Definition same_but_cipher (c c' : torque_connection) : Prop :=
  conn_cipher_ok c' /\ exists k, c' = with_cipher k c.

Lemma same_but_cipher_refl c : conn_cipher_ok c -> same_but_cipher c c.
Proof. intros Hc. split; [done|]. exists (_symmetric_cipher c). by destruct c. Qed.

Lemma read_packet_header_spec c s h r n :
  conn_cipher_ok c -> hdr_ok h -> stream_ok s -> bs_bit_num s = 0 -> bs_bit_end s mod 8 = 0 ->
  upcoming s = hdr_bits h ++ r ->
  match judge (_window c) h with
  | None => exists c' s',
      read_packet_header c s n = Ok (c', s', false, n) /\ same_but_cipher c c'
  | Some (seq, ack) => exists c' s' pad,
      consumed s (hdr_bits h ++ pad) s' /\ bs_bit_num s' = 32 + 8 * h_count h /\
      same_but_cipher c c' /\
      read_packet_header c s n =
        ('(c, ret) ← process_header c' (packet_code (h_type h)) seq ack
           [if h_count h =? 0 then u32 indeterminate else h_mask h];
         mret (c, s', ret)) n
  end.
Proof.
  intros Hci Hh Hok Hnum Hend Hu. pose proof Hh as [_ _ Hcount Hmask].
  rewrite hdr_bits_fixed, <- !app_assoc in Hu. unfold read_packet_header.
  destruct (read_header_fields_spec s h _ Hh Hok Hu) as (s1 & E1 & Hc1).
  pose proof (consumed_upcoming _ _ _ _ Hc1 Hu) as Hu1.
  unfold judge. rewrite !(lift_step _ _ _ _ E1). cbn beta iota zeta. cbn [negb Z.eqb].
  rewrite !(lift_step _ tt) by done.
  set (seq := reconstruct (h_seq h) _ _ _). set (ack := reconstruct (h_ack h) _ _ _).
  destruct (_ <? u32 (seq - _)).
  { exists c, s1. split; [done | by apply same_but_cipher_refl]. }
  destruct (_last_send_seq (_window c) <? ack).
  { exists c, s1. split; [done | by apply same_but_cipher_refl]. }
  destruct (setup_connection_counter_total c seq ack (packet_code (h_type h)) Hci) as (k & E2 & Hk).
  rewrite !(lift_step _ _ _ _ E2).
  destruct (read_count_upcoming s1 (h_count h) _ (con_ok _ _ _ Hc1) Hcount Hu1) as (s2 & E3 & Hc2).
  pose proof (consumed_upcoming _ _ _ _ Hc2 Hu1) as Hu2.
  change max_ack_byte_count with 4. rewrite !(lift_step _ _ _ _ E3). cbn beta iota zeta.
  destruct (Z.ltb_spec 4 (h_count h)); [lia|]. cbn [orb].
  case_decide as Ht.
  { rewrite Ht. exists (with_cipher k c), s2. split; [done|]. split; [done | by exists k]. }
  destruct (Z.leb_spec (packet_code invalid_packet_type) (packet_code (h_type h))) as [Hle|].
  { by destruct (h_type h). }
  destruct (read_ack_words_spec s2 (h_count h) (h_mask h) (u32 indeterminate) r) as (s3 & E4 & Hc3);
    [apply Hc2 | done | done | done |].
  rewrite (lift_step _ _ _ _ E4). cbn beta iota zeta.
  pose proof (consumed_trans _ _ _ _ _ Hc1 (consumed_trans _ _ _ _ _ Hc2 Hc3)) as Hc.
  assert (Hend3 : bs_bit_end s3 mod 8 = 0) by by rewrite (con_end _ _ _ Hc).
  destruct (advance_consumed s3) as (pad & Hadv & Hpad); [apply Hc | done |].
  exists (with_cipher k c), (advance_to_next_byte s3), pad.
  split_and!.
  - rewrite hdr_bits_fixed. by apply (consumed_trans _ _ s3).
  - pose proof (con_num _ _ _ Hadv) as Hn. pose proof (con_num _ _ _ Hc) as Hn'.
    pose proof (length_hdr_bits h ltac:(lia)) as Hl. rewrite hdr_bits_fixed in Hl.
    unfold mask_bits in Hl. rewrite Hnum in Hn'. zlia.
  - split; [done | by exists k].
  - done.
Qed.
End read.
