(* ===== verification/Exchange.v ===== *)
(** * One endpoint of the notify protocol

    The functional behaviour of [send_packet], [process_header] and [read_raw_packet] of
    torque_connection.h: what they do to the window, to the event queue and to the wire,
    as pure functions of the window and of the header. *)
From Stdlib Require Import SpecFloat.
From S2P Require Import Prelude Endian BitStream StreamIO Address EventQueue Cipher Net Connection Header.
#[local] Open Scope Z_scope.

(** ** Pure descriptions *)

(** Report [i] of a header that acknowledges up to [ack] with the mask [m]. *)
Definition note (w : window) (ack m i : Z) : Z * bool :=
  let n := u32 (_highest_acked_seq w + i + 1) in (n, Z.testbit m (u32 (ack - n))).

Definition notes (w : window) (ack m : Z) : list (Z * bool) :=
  note w ack m <$> seqZ 0 (u32 (ack - _highest_acked_seq w)).

(** A delivered packet moves [_last_recv_ack_ack] to what was received when it was sent. *)
Definition ack_ack_step (at_send : list Z) (x : Z) (r : Z * bool) : Z :=
  if r.2 then nth (Z.to_nat (r.1 mod 32)) at_send 0 else x.

Definition bump (seq x : Z) : Z := if 32 <? u32 (seq - x) then u32 (seq - 32) else x.

Definition shifted (t : net_packet_type) (shift m : Z) : Z :=
  Z.lor (u32 (Z.shiftl m shift)) (if decide (t = data_packet) then 1 else 0).

(** The window after a packet of type [t] numbered [seq], with [ack] and [m], came in. *)
Definition received (t : net_packet_type) (seq ack m : Z) (w : window) : window :=
  mk_window (_last_seq_recvd_at_send w) seq ack (_last_send_seq w)
    [shifted t (u32 (seq - _last_seq_recvd w)) (nth 0 (_ack_mask w) 0)]
    (bump seq (foldl (ack_ack_step (_last_seq_recvd_at_send w)) (_last_recv_ack_ack w) (notes w ack m)))
    (_initial_send_seq w) (_initial_recv_seq w).

Definition answers (t : net_packet_type) (w : window) : bool :=
  bool_decide (t = ping_packet) || (16 <? u32 (_last_seq_recvd w - _last_recv_ack_ack w)).

Lemma received_ok t seq ack m w :
  window_ok w -> is_u32 seq -> is_u32 ack -> window_ok (received t seq ack m w).
Proof.
  intros [Hl ? ? ? _ ?] Hs Ha. unfold received. split; cbn; auto.
  - eexists. split; [done|]. unfold shifted. apply in_u_of_bits; [lia | |].
    + apply Z.lor_nonneg. split; [apply u32_range | case_decide; lia].
    + intros i Hi. rewrite Z.lor_spec, (testbit_high 32) by (done || apply u32_range).
      apply (testbit_high 1); [case_decide; split; lia | lia].
  - unfold bump. destruct (Z.ltb_spec 32 (u32 (seq - foldl (ack_ack_step (_last_seq_recvd_at_send w))
      (_last_recv_ack_ack w) (notes w ack m)))); [|done]. zlia.
Qed.

(** ** Acknowledgement mask *)
Lemma shift_ack_mask_spec t shift m :
  0 <= shift <= 31 -> is_u32 m ->
  shift_ack_mask (packet_code t) shift [m] = Ok [shifted t shift m].
Proof.
  intros Hs Hm. unfold shift_ack_mask, shift_words.
  destruct (Z.gtb_spec shift 32); [lia|]. cbn [mbind result_bind].
  change (Z.to_nat max_ack_mask_size) with 1%nat. cbn.
  assert (Z.land shift 31 = shift) as ->.
  { change 31 with (Z.ones 5). rewrite Z.land_ones, Z.mod_small by lia. done. }
  unfold shifted. f_equal. f_equal. f_equal. by destruct t.
Qed.

Lemma test_mask_bit x k :
  0 <= k < 32 -> negb (Z.land x (u32 (Z.shiftl 1 k)) =? 0) = Z.testbit x k.
Proof.
  intros Hk. rewrite Z.shiftl_1_l, u32_small by (split; [lia|]; apply Z.pow_lt_mono_r; lia).
  destruct (Z.testbit x k) eqn:Hb.
  - destruct (Z.eqb_spec (Z.land x (2 ^ k)) 0) as [He|]; [|done].
    apply (f_equal (fun y => Z.testbit y k)) in He.
    by rewrite Z.land_spec, Z.pow2_bits_true, Hb, Z.testbit_0_l in He by lia.
  - destruct (Z.eqb_spec (Z.land x (2 ^ k)) 0) as [He|Hne]; [done|]. destruct Hne.
    apply Z.bits_inj'. intros i Hi. rewrite Z.land_spec, Z.testbit_0_l, Z.pow2_bits_eqb by lia.
    destruct (Z.eqb_spec k i) as [<-|]; [by rewrite Hb | apply andb_false_r].
Qed.

Section exchange.
Context `{Machine, Prng, BlockCipher}.

(** ** Notifications *)
Definition notify_event (index : Z) (r : Z * bool) : torque_socket_event :=
  with_sequence r.1 (with_delivered r.2
    (fresh_event (event_code torque_connection_packet_notify_event_type) index)).

Lemma post_event_net ty c n evs :
  queue_holds (_event_queue n) evs ->
  exists p q, events (post_event ty c) n = Ok (p, with_events q n) /\
    posted q evs p (fresh_event (event_code ty) c).
Proof.
  intros Hq. destruct (post_posted _ _ ty c Hq) as (p & q & E & Hp).
  exists p, q. split; [|done]. unfold events, zoom. by rewrite E.
Qed.

Lemma update_event_net q n evs p e g :
  posted q evs p e ->
  exists q', events (update_event p g) (with_events q n) = Ok (tt, with_events q' n) /\
    posted q' evs p (g e).
Proof.
  intros Hp. destruct (update_posted _ _ _ _ g Hp) as (q' & E & Hp').
  exists q'. split; [|done]. unfold events, zoom. cbn. by rewrite E.
Qed.

Lemma notify_loop_spec k i ack m index w n evs :
  queue_holds (_event_queue n) evs -> length (_last_seq_recvd_at_send w) = 32%nat ->
  0 <= i -> i + Z.of_nat k = u32 (ack - _highest_acked_seq w) -> i + Z.of_nat k <= 32 ->
  exists q, notify_loop k i ack [m] index w n =
      Ok (with_ack_ack (foldl (ack_ack_step (_last_seq_recvd_at_send w)) (_last_recv_ack_ack w)
            (note w ack m <$> seqZ i (Z.of_nat k))) w, with_events q n) /\
    queue_holds q (evs ++ (notify_event index <$> (note w ack m <$> seqZ i (Z.of_nat k)))).
Proof.
  revert i w n evs. induction k as [|k IH]; intros i w n evs Hq Hl Hi Hsum Hle.
  { exists (_event_queue n). cbn. rewrite app_nil_r. split; [|done]. by destruct w, n. }
  cbn [notify_loop]. set (idx := u32 (_highest_acked_seq w + i + 1)).
  assert (Hd : u32 (ack - idx) = Z.of_nat k).
  { subst idx. clear -Hsum Hi Hle. zlia. }
  rewrite Hd.
  assert (Z.shiftr (Z.of_nat k) 5 = 0) as ->.
  { rewrite Z.shiftr_div_pow2 by lia. apply Z.div_small. lia. }
  rewrite (lift_step _ m) by done.
  assert (Z.land (Z.of_nat k) 0x1F = Z.of_nat k) as ->.
  { change 0x1F with (Z.ones 5). rewrite Z.land_ones, Z.mod_small by lia. done. }
  rewrite test_mask_bit by lia.
  rewrite seqZ_cons by lia. cbn [fmap list_fmap].
  replace (Z.pred (Z.of_nat (S k))) with (Z.of_nat k) by lia.
  set (r := note w ack m i). assert (Hr : r = (idx, Z.testbit m (Z.of_nat k))).
  { unfold r, note. fold idx. by rewrite Hd. }
  destruct (post_event_net torque_connection_packet_notify_event_type index n evs Hq)
    as (p & q1 & E1 & Hp1). rewrite (bind_step _ _ _ _ _ E1).
  destruct (update_event_net q1 n evs p _ (with_delivered (Z.testbit m (Z.of_nat k))) Hp1)
    as (q2 & E2 & Hp2). rewrite (bind_step _ _ _ _ _ E2).
  destruct (update_event_net q2 n evs p _ (with_sequence idx) Hp2) as (q3 & E3 & Hp3).
  rewrite (bind_step _ _ _ _ _ E3). apply posted_holds in Hp3.
  cbn [fold_left]. rewrite land_window_mask, Hr, <- Z.add_1_r.
  set (x := ack_ack_step (_last_seq_recvd_at_send w) (_last_recv_ack_ack w) (idx, Z.testbit m (Z.of_nat k))).
  assert (E4 : (if Z.testbit m (Z.of_nat k)
    then x ← lift (bget (_last_seq_recvd_at_send w) (idx mod 32)); mret (with_ack_ack x w)
    else mret w) (with_events q3 n) = Ok (with_ack_ack x w, with_events q3 n)).
  { subst x. unfold ack_ack_step. cbn [fst snd]. destruct (Z.testbit m (Z.of_nat k)).
    - rewrite (lift_step _ (nth (Z.to_nat (idx mod 32)) (_last_seq_recvd_at_send w) 0)); [done|].
      apply bget_nth. unfold blen. rewrite Hl. zlia.
    - by destruct w. }
  rewrite (bind_step _ _ _ _ _ E4).
  destruct (IH (i + 1) (with_ack_ack x w) (with_events q3 n) _ Hp3) as (q & E5 & Hq5); try (done || lia).
  { cbn. lia. }
  exists q. cbn [_last_seq_recvd_at_send _last_recv_ack_ack with_ack_ack] in E5.
  rewrite E5. split; [done|]. rewrite <- app_assoc in Hq5. cbn [app] in Hq5. exact Hq5.
Qed.

(** ** Sending *)

(** The state every connection is created in as to [set_simulated_net_params]. *)
Definition quiet (c : torque_connection) : Prop :=
  _simulated_latency c = 0 /\ float_nonzero (_simulated_packet_loss c) = false.

Definition conn_ok (c : torque_connection) : Prop :=
  window_ok (_window c) /\ conn_cipher_ok c /\ quiet c.

(** [encodes b h payload]: the datagram [b] carries the header [h] and [payload]. *)
Definition encodes (b : bytes) (h : hdr) (payload : bytes) : Prop :=
  is_bytes b /\ is_bytes payload /\ blen b <= max_datagram_size /\
  exists pad, length pad = 5%nat /\ byte_bits b = hdr_bits h ++ pad ++ byte_bits payload.

Lemma send_stream_spec a s n k :
  stream_ok s -> bs_bit_num s = 8 * k ->
  send_stream a s n = Ok (tt, with_sent (udp_sent n ++ [(a, take (Z.to_nat k) (bs_base s))]) n).
Proof.
  intros [Hb Hc He Hs] Hk. unfold send_stream, udp_send_to.
  assert (get_next_byte_position s = k) as ->.
  { unfold get_next_byte_position. rewrite u32_small by (unfold in_u; lia).
    rewrite Z.shiftr_div_pow2 by lia. zlia. }
  destruct (Z.leb_spec k (blen (bs_base s))); [|lia]. done.
Qed.

(** The header and the payload in a fresh packet stream. *)
Lemma fill_packet c t d size :
  window_ok (_window c) -> (t = data_packet -> window_full (_window c) = false) ->
  is_bytes d -> size = blen d -> blen d <= 1480 ->
  exists s1 s2 k, write_packet_header (_window c) new_packet_stream t = Ok (sent t (_window c), s1) /\
    (if decide (t = data_packet) then '(s, _) ← write_bytes s1 d size; Ok s else Ok s1) = Ok s2 /\
    stream_ok s2 /\ bs_bit_num s2 = 8 * k /\
    encodes (take (Z.to_nat k) (bs_base s2)) (header_of t (sent t (_window c)))
      (if decide (t = data_packet) then d else []).
Proof.
  intros Hw Hfull Hd -> Hsz. destruct new_packet_stream_ok as (Hok & Hnum & Hsp & Hlen).
  change (8 * max_datagram_size) with 12288 in Hsp.
  destruct (write_packet_header_spec _ new_packet_stream t Hw Hfull Hok Hnum)
    as (s1 & pad & E1 & Ha1 & Hp & Hn1); [done | lia |].
  pose proof (ok_count _ (header_of_ok t _ (sent_ok t _ Hw))) as Hc.
  pose proof (appended_space _ _ _ Ha1) as Hs1. rewrite length_app, Hp in Hs1.
  pose proof (length_hdr_bits (header_of t (sent t (_window c))) ltac:(lia)) as Hlh.
  assert (Hfin : forall s2 payload, is_bytes payload ->
    appended s1 (byte_bits payload) s2 -> bs_bit_num s2 = bs_bit_num s1 + 8 * blen payload ->
    stream_ok s2 /\ bs_bit_num s2 = 8 * (bs_bit_num s2 / 8) /\
    encodes (take (Z.to_nat (bs_bit_num s2 / 8)) (bs_base s2))
      (header_of t (sent t (_window c))) payload).
  { intros s2 payload Hpl Ha2 Hn2. pose proof (appended_trans _ _ _ _ _ Ha1 Ha2) as Ha.
    assert (Hk : bs_bit_num s2 = 8 * (bs_bit_num s2 / 8)) by (rewrite Hn2, Hn1; zlia).
    split_and!; [apply Ha | done |]. pose proof (app_ok _ _ _ Ha) as [Hb ? ? ?].
    split_and!; [by apply Forall_take | done | |].
    - unfold blen. rewrite length_take, (app_len _ _ _ Ha). unfold blen in Hlen. lia.
    - exists pad. split; [done|]. rewrite (written_bytes s2) by (done || apply Ha).
      rewrite (app_bits _ _ _ Ha), <- app_assoc. unfold written. by rewrite Hnum. }
  case_decide as Ht.
  - destruct (write_bytes_appended s1 d (blen d)) as (s2 & E2 & Ha2); [apply Ha1 | done | done | lia |].
    destruct (Hfin s2 d Hd Ha2) as (? & ? & ?).
    { rewrite (app_num _ _ _ Ha2), length_byte_bits. unfold blen. lia. }
    exists s1, s2, (bs_bit_num s2 / 8). rewrite E2. done.
  - destruct (Hfin s1 []) as (? & ? & ?); [constructor | apply appended_refl, Ha1 | |].
    { unfold blen. cbn. lia. }
    exists s1, s1, (bs_bit_num s1 / 8). done.
Qed.

Lemma send_packet_spec c t d n :
  conn_ok c -> (t = data_packet -> window_full (_window c) = false) ->
  is_bytes d -> blen d <= 1480 ->
  exists c' b, send_packet c t d (blen d) n =
      Ok (c', _last_send_seq (sent t (_window c)), with_sent (udp_sent n ++ [(_address c, b)]) n) /\
    same_but_cipher (with_window (sent t (_window c)) c) c' /\
    encodes b (header_of t (sent t (_window c))) (if decide (t = data_packet) then d else []).
Proof.
  intros (Hw & Hci & Hlat & Hloss) Hfull Hd Hsz.
  destruct (fill_packet c t d (blen d) Hw Hfull Hd eq_refl Hsz) as (s1 & s2 & k & E1 & E2 & Hok2 & Hk & Henc).
  destruct (setup_connection_counter_total (with_window (sent t (_window c)) c)
    (_last_send_seq (sent t (_window c))) (_last_seq_recvd (sent t (_window c))) (packet_code t))
    as (ci & E3 & Hci'); [done|].
  exists (with_cipher ci (with_window (sent t (_window c)) c)), (take (Z.to_nat k) (bs_base s2)).
  split_and!; [| by split; [|exists ci] | done].
  unfold send_packet. rewrite (lift_step _ _ _ _ E1). cbn beta iota zeta.
  assert (E2' : (if decide (t = data_packet) then '(ps, _) ← lift (write_bytes s1 d (blen d)); mret ps
    else mret s1) n = Ok (s2, n)).
  { case_decide; [|by simplify_eq/=]. unfold mbind, M_bind, lift.
    destruct (write_bytes s1 d (blen d)) as [[s ?]|]; by simplify_eq/=. }
  rewrite (bind_step _ _ _ _ _ E2'), (lift_step _ _ _ _ E3).
  assert (E4 : simulate_loss (with_cipher ci (with_window (sent t (_window c)) c)) n = Ok (false, n)).
  { unfold simulate_loss. cbn. by rewrite Hloss. }
  rewrite (bind_step _ _ _ _ _ E4). cbn [_simulated_latency _address with_cipher with_window].
  rewrite Hlat. cbn [negb Z.eqb]. by rewrite (bind_step _ _ _ _ _ (send_stream_spec _ s2 n k Hok2 Hk)).
Qed.

(** ** Receiving *)

(** What a connection keeps across packets. *)
(** What a connection keeps for good. *)
Record same_peer (c c' : torque_connection) : Prop := {
  sp_address : _address c' = _address c;
  sp_index : _connection_index c' = _connection_index c;
  sp_links : _next c' = _next c /\ _prev c' = _prev c;
  sp_nonces : _initiator_nonce c' = _initiator_nonce c /\ _host_nonce c' = _host_nonce c;
  sp_secret : _shared_secret c' = _shared_secret c
}.

Lemma same_peer_trans c1 c2 c3 : same_peer c1 c2 -> same_peer c2 c3 -> same_peer c1 c3.
Proof. intros [? ? [? ?] [? ?] ?] [? ? [? ?] [? ?] ?]. split; try split; congruence. Qed.

Lemma same_but_cipher_ok c c' : conn_ok c -> same_but_cipher c c' ->
  conn_ok c' /\ _window c' = _window c /\ same_peer c c'.
Proof. intros (Hw & Hc & Hq) [Hc' [k ->]]. done. Qed.

(** *** Watching a connection *)

(** What [check_timeout] decides: all is well, ask with a ping, or give up. *)
Inductive watch_verdict : Type := alive | ask | dead.
Definition started (now : time) (p : ping_state) : ping_state :=
  if _last_ping_send_time p =? 0 then mk_ping (_ping_timeout p) (_ping_retry_count p) (_ping_send_count p) now else p.
Definition judge_connection (now : time) (c : torque_connection) : watch_verdict :=
  let p := started now (_ping c) in
  if _ping_timeout p <? time_sub now (_last_ping_send_time p) then
    if _ping_retry_count p <=? _ping_send_count p then dead else ask
  else alive.
Definition ping_after (now : time) (c : torque_connection) : ping_state :=
  let p := started now (_ping c) in
  match judge_connection now c with
  | ask => mk_ping (_ping_timeout p) (_ping_retry_count p) (u32 (_ping_send_count p + 1)) now
  | _ => p
  end.

(** The connection after that; what is not mentioned may have moved on with the ping. *)
Record watched (now : time) (c c' : torque_connection) : Prop := {
  wc_ok : conn_ok c';
  wc_peer : same_peer c c';
  wc_ping : _ping c' = ping_after now c;
  wc_window : _window c' = _window c
}.

Lemma check_timeout_spec c now n :
  conn_ok c -> exists c' out,
    check_timeout c now n =
      Ok (c', if judge_connection now c is dead then true else false, with_sent (udp_sent n ++ out) n) /\
    watched now c c' /\
    match judge_connection now c with
    | ask => exists b, out = [(_address c, b)] /\ encodes b (header_of ping_packet (_window c')) []
    | _ => out = []
    end.
Proof.
  intros Hc. unfold check_timeout. fold (started now (_ping c)). unfold judge_connection.
  set (p := started now (_ping c)). set (late := _ping_timeout p <? _) in *.
  assert (Hsame : forall v, judge_connection now c = v -> v <> ask ->
    with_sent (udp_sent n ++ []) n = n /\ watched now c (with_ping p c)).
  { intros v Hv Hne. split; [rewrite app_nil_r; by destruct n|]. split; try done.
    unfold ping_after. rewrite Hv. by destruct v. }
  unfold judge_connection in Hsame. fold p late in Hsame. destruct late eqn:Hlate.
  - destruct (_ping_retry_count p <=? _) eqn:Hcount.
    + destruct (Hsame dead) as [Hn Hw]; [done..|]. exists (with_ping p c), []. by rewrite Hn.
    + set (c1 := with_ping _ _).
      destruct (send_packet_spec c1 ping_packet [] n) as (c' & b & E & Hs & Henc); try done; [constructor|].
      change (blen []) with 0 in E. cbn [sent decide] in Hs, Henc.
      destruct (same_but_cipher_ok c1 c') as (Hok & Hw & Hp); [by destruct c | by destruct c1 |].
      exists c', [(_address c, b)]. split; [|split].
      * unfold send_ping_packet, mbind, M_bind. by rewrite E.
      * destruct Hs as [_ [k ->]]. split; try done. unfold ping_after, judge_connection. fold p late.
        by rewrite Hlate, Hcount.
      * exists b. split; [done|]. by rewrite Hw.
  - destruct (Hsame alive) as [Hn Hw]; [done..|]. exists (with_ping p c), []. by rewrite Hn.
Qed.

Definition answer_of (c : torque_connection) (w : window) (t : net_packet_type)
    (out : list (address * bytes)) : Prop :=
  if answers t w then exists b, out = [(_address c, b)] /\ encodes b (header_of ack_packet w) []
  else out = [].

Lemma answer_spec c t n :
  conn_ok c ->
  exists c' out,
    (if (packet_code t =? packet_code ping_packet) ||
        (Z.shiftr max_packet_window_size 1 <? u32 (_last_seq_recvd (_window c) - _last_recv_ack_ack (_window c)))
     then send_ack_packet c else mret c) n = Ok (c', with_sent (udp_sent n ++ out) n) /\
    same_but_cipher c c' /\ answer_of c (_window c) t out.
Proof.
  intros Hc. unfold answer_of.
  assert ((packet_code t =? packet_code ping_packet) ||
    (Z.shiftr max_packet_window_size 1 <? u32 (_last_seq_recvd (_window c) - _last_recv_ack_ack (_window c)))
    = answers t (_window c)) as ->.
  { unfold answers. by destruct t. }
  destruct (answers t (_window c)).
  - destruct (send_packet_spec c ack_packet [] n) as (c' & b & E & Hs & Henc); try done.
    { constructor. }
    cbn [sent] in *. exists c', [(_address c, b)]. split_and!.
    + unfold send_ack_packet. change (blen []) with 0 in E. by rewrite (bind_step _ _ _ _ _ E).
    + replace (with_window (sent ack_packet (_window c)) c) with c in Hs by by destruct c. done.
    + by exists b.
  - exists c, []. split_and!; [|by apply same_but_cipher_refl, Hc | done].
    rewrite app_nil_r. by destruct n.
Qed.

Lemma process_header_spec c t seq ack m n evs :
  conn_ok c -> queue_holds (_event_queue n) evs -> is_u32 seq -> is_u32 ack ->
  u32 (seq - _last_seq_recvd (_window c)) <= 31 ->
  u32 (ack - _highest_acked_seq (_window c)) <= 32 ->
  exists c' q out,
    process_header c (packet_code t) seq ack [m] n =
      Ok (c', negb (_last_seq_recvd (_window c) =? seq) && bool_decide (t = data_packet),
          with_sent (udp_sent n ++ out) (with_events q n)) /\
    _window c' = received t seq ack m (_window c) /\ conn_ok c' /\ same_peer c c' /\
    queue_holds q (evs ++ (notify_event (_connection_index c) <$> notes (_window c) ack m)) /\
    answer_of c (_window c') t out.
Proof.
  intros (Hw & Hci & Hq) Hevs Hseq Hack Hsh Hnc. set (w := _window c) in *.
  pose proof Hw as [Hl Hr ? ? (m0 & Hm0 & Hm0u) Haa].
  unfold process_header. fold w. rewrite Hm0.
  rewrite (lift_step _ _ _ _ (shift_ack_mask_spec t (u32 (seq - _last_seq_recvd w)) m0
    (conj (proj1 (u32_range _)) Hsh) Hm0u)).
  set (mask' := shifted t (u32 (seq - _last_seq_recvd w)) m0).
  destruct (notify_loop_spec (Z.to_nat (u32 (ack - _highest_acked_seq w))) 0 ack m
    (_connection_index c) (with_ack_mask [mask'] w) n evs) as (q & E & Hq'); try done.
  { cbn. pose proof (u32_range (ack - _highest_acked_seq w)) as [? _]. lia. }
  { pose proof (u32_range (ack - _highest_acked_seq w)) as [? _]. lia. }
  cbn [_highest_acked_seq with_ack_mask]. rewrite (bind_step _ _ _ _ _ E).
  rewrite Z2Nat.id in * by apply (u32_range (ack - _highest_acked_seq w)).
  change (note (with_ack_mask [mask'] w) ack m) with (note w ack m) in *.
  change (note w ack m <$> seqZ 0 (u32 (ack - _highest_acked_seq w))) with (notes w ack m) in *.
  match goal with |- context [keep_alive (with_window ?x c)] => set (wz := x) end.
  set (w' := received t seq ack m w).
  assert (Hw' : with_last_recvd seq wz = w').
  { unfold wz, w', received, bump. cbn [_last_recv_ack_ack with_ack_ack with_ack_mask
      _last_seq_recvd_at_send]. rewrite Hm0. cbn [nth]. fold mask'.
    change max_packet_window_size with 32. by destruct (32 <? _). }
  rewrite Hw'. set (c1 := with_window w' (keep_alive (with_window wz c))).
  assert (Hc1 : conn_ok c1).
  { split; [by apply received_ok | by split]. }
  assert (Hlr : _last_seq_recvd wz = _last_seq_recvd w).
  { unfold wz. by destruct (max_packet_window_size <? _). }
  rewrite Hlr.
  destruct (answer_spec c1 t (with_events q n) Hc1) as (c' & out & E2 & Hs & Hans).
  change (_window c1) with w' in E2. change (_last_seq_recvd w') with seq in E2.
  rewrite (bind_step _ _ _ _ _ E2).
  destruct (same_but_cipher_ok c1 c' Hc1 Hs) as (Hc' & Hwc' & Hp').
  exists c', q, out. split_and!; [| by rewrite Hwc' | done | by apply (same_peer_trans c c1) | done | by rewrite Hwc'].
  unfold mret, M_ret. do 3 f_equal. by destruct t.
Qed.

(** ** A datagram, from the socket to the application *)
Lemma datagram_stream b :
  is_bytes b -> blen b <= max_datagram_size ->
  exists s, set_from_buffer new_packet_stream b = Ok s /\ stream_ok s /\ bs_bit_num s = 0 /\
    bs_bit_end s = 8 * blen b /\ upcoming s = byte_bits b.
Proof.
  intros Hb Hs. destruct new_packet_stream_ok as ([Hnb _ _ _] & _ & _ & Hlen).
  pose proof (blen_nonneg b). unfold set_from_buffer.
  destruct (Z.leb_spec (blen b) max_datagram_size); [|lia]. cbn [require mbind result_bind].
  set (base := b ++ drop (Z.to_nat (blen b)) (bs_base new_packet_stream)).
  unfold max_datagram_size in *.
  eexists. split; [done|]. unfold set_buffer, _init. split_and!.
  - assert (is_bytes base) by (apply Forall_app; split; [done | by apply Forall_drop]).
    assert (blen base = 1536).
    { unfold base. rewrite blen_app. unfold blen in *. rewrite length_drop. lia. }
    split; cbn; (done || lia).
  - done.
  - cbn. lia.
  - unfold upcoming, byte_bits. cbn. replace (blen b * 8 - 0) with (8 * blen b) by lia.
    apply bits_of_ext. intros k Hk. unfold bitz, base. rewrite lookup_app_l; [done|].
    unfold blen in *. zlia.
Qed.

Definition packet_event (index seq : Z) (payload : bytes) : torque_socket_event :=
  let e := fresh_event (event_code torque_connection_packet_event_type) 0 in
  mk_event (event_type e) index (arranger_connection e) (ev_client_identity e)
    (connection_token e) (key_size e) (key e) (blen payload) payload seq (delivered e)
    (source_address e).

(** Is a packet of type [t] numbered [seq] handed to the application? *)
Definition fresh_data (t : net_packet_type) (w : window) (seq : Z) : bool :=
  negb (_last_seq_recvd w =? seq) && bool_decide (t = data_packet).

Definition mask_of (h : hdr) : Z := if h_count h =? 0 then u32 indeterminate else h_mask h.

(** The header of a datagram of this protocol, read from the stream that carries it. *)
Lemma payload_upcoming b h payload s s' pad :
  encodes b h payload -> 0 <= h_count h -> stream_ok s -> bs_bit_num s = 0 ->
  bs_bit_end s = 8 * blen b -> upcoming s = byte_bits b ->
  consumed s (hdr_bits h ++ pad) s' -> bs_bit_num s' = 32 + 8 * h_count h ->
  take (Z.to_nat (blen b - (4 + h_count h))) (drop (Z.to_nat (4 + h_count h)) (bs_base s')) = payload.
Proof.
  intros (Hb & Hp & _ & pad' & Hl' & Hbits) Hc Hok Hnum Hend Hu Hcon Hn'.
  pose proof (con_bits _ _ _ Hcon) as Hcb. rewrite Hu, Hbits, <- app_assoc in Hcb.
  apply app_inv_head in Hcb. pose proof (con_num _ _ _ Hcon) as Hnn.
  rewrite length_app in Hnn. pose proof (length_hdr_bits h Hc).
  apply app_inj_1 in Hcb as [_ Hpay]; [|lia].
  apply byte_bits_inj; [apply Forall_take, Forall_drop, (ok_bytes s'), Hcon | done |].
  rewrite Hpay. apply upcoming_bytes; [apply Hcon | lia |]. by rewrite (con_end _ _ _ Hcon).
Qed.

(** The event of a delivered packet. *)
Lemma deliver_event_spec n q evs index seq payload bstream k m :
  q = _event_queue n -> queue_holds q evs -> stream_ok bstream ->
  bs_bit_num bstream = 8 * k -> bs_bit_end bstream = 8 * m ->
  take (Z.to_nat (m - k)) (drop (Z.to_nat k) (bs_base bstream)) = payload ->
  blen payload = m - k ->
  exists q',
    post_packet_event index seq bstream n = Ok (tt, with_events q' n) /\
    queue_holds q' (evs ++ [packet_event index seq payload]).
Proof.
  intros -> Hq Hok Hk Hm Hpay Hlen. unfold post_packet_event. pose proof Hok as [_ [Hk0 Hkm] Hme Hms].
  destruct (post_event_net torque_connection_packet_event_type 0 n evs Hq) as (p & q1 & E1 & H1').
  rewrite (bind_step _ _ _ _ _ E1).
  destruct (update_event_net q1 n evs p _ (with_sequence seq) H1') as (q2 & E2 & H2).
  rewrite (bind_step _ _ _ _ _ E2).
  destruct (update_event_net q2 n evs p _ (with_connection index) H2) as (q3 & E3 & H3).
  rewrite (bind_step _ _ _ _ _ E3).
  assert (get_byte_position bstream = k) as ->.
  { unfold get_byte_position. rewrite Hk, Z.shiftr_div_pow2 by lia. zlia. }
  assert (get_stream_byte_size bstream = m) as ->.
  { unfold get_stream_byte_size. rewrite u32_small by (unfold in_u; lia).
    rewrite Z.shiftr_div_pow2 by lia. zlia. }
  rewrite u32_small by (unfold in_u; lia).
  unfold set_event_data. destruct (Z.leb_spec (m - k) (blen (drop (Z.to_nat k) (bs_base bstream)))).
  2: { unfold blen in *. rewrite length_drop in *. lia. }
  match goal with |- context [update_event p ?f] => set (g := f) end.
  destruct (update_posted _ _ _ _ g H3) as (q4 & E4 & Hp4).
  exists q4. split.
  - unfold mbind, M_bind, events, zoom, lift. cbn. by rewrite E4.
  - apply posted_holds in Hp4. unfold g in Hp4. rewrite Hpay in Hp4. unfold packet_event.
    rewrite Hlen. done.
Qed.

(** The whole path of a datagram.  A header the window rejects changes nothing but the
    cipher counter; an accepted one updates the window to [received], posts one notification per
    newly acknowledged packet in order, posts the payload if the packet is new data,
    and answers with an [ack_packet] exactly when [answers] says so. *)
Lemma read_raw_packet_spec c b h payload n evs :
  conn_ok c -> encodes b h payload -> hdr_ok h -> queue_holds (_event_queue n) evs ->
  exists s, set_from_buffer new_packet_stream b = Ok s /\
  match judge (_window c) h with
  | None => exists c' s',
      read_raw_packet c s n = Ok (c', s', false, n) /\ same_but_cipher c c'
  | Some (seq, ack) =>
      is_u32 seq -> is_u32 ack -> u32 (ack - _highest_acked_seq (_window c)) <= 32 ->
      exists c' s' q out,
        read_raw_packet c s n = Ok (c', s', fresh_data (h_type h) (_window c) seq,
          with_events q (with_sent (udp_sent n ++ out) n)) /\
        _window c' = received (h_type h) seq ack (mask_of h) (_window c) /\
        conn_ok c' /\ same_peer c c' /\
        queue_holds q (evs ++ (notify_event (_connection_index c) <$> notes (_window c) ack (mask_of h)) ++
          (if fresh_data (h_type h) (_window c) seq
           then [packet_event (_connection_index c) seq payload] else [])) /\
        answer_of c (_window c') (h_type h) out
  end.
Proof.
  intros Hc Henc Hh Hq. pose proof Henc as (Hb & Hp & Hsz & pad & Hpl & Hbits).
  destruct (datagram_stream b Hb Hsz) as (s & Es & Hok & Hnum & Hend & Hu).
  exists s. split; [done|].
  assert (Eloss : simulate_loss c n = Ok (false, n)).
  { unfold simulate_loss. destruct Hc as (_ & _ & _ & Hf). by rewrite Hf. }
  pose proof (read_packet_header_spec c s h (pad ++ byte_bits payload) n) as Hr.
  rewrite Hu, Hbits in Hr. specialize (Hr (proj1 (proj2 Hc)) Hh Hok Hnum).
  specialize (Hr ltac:(rewrite Hend; zlia) eq_refl).
  unfold read_raw_packet. rewrite !(bind_step _ _ _ _ _ Eloss).
  destruct (judge (_window c) h) as [[seq ack]|] eqn:Hj.
  2: { destruct Hr as (c' & s' & Er & Hs). exists c', s'.
       by rewrite (bind_step _ _ _ _ _ Er). }
  intros Hseq Hack Hcnt.
  destruct Hr as (c1 & s' & pad' & Hcon & Hnum' & Hsame & Er).
  destruct (same_but_cipher_ok c c1 Hc Hsame) as (Hc1 & Hw1 & Hp1). pose proof Hp1 as [Ha1 Hi1 _ _ _].
  assert (Hsh : u32 (seq - _last_seq_recvd (_window c)) <= 31).
  { unfold judge in Hj. destruct (Z.ltb_spec (max_packet_window_size - 1)
      (u32 (reconstruct (h_seq h) (_last_seq_recvd (_window c)) sequence_number_mask
        sequence_number_window_size - _last_seq_recvd (_window c)))) as [|Hle]; [done|].
    change (max_packet_window_size - 1) with 31 in Hle.
    destruct (_last_send_seq (_window c) <? _); [done|]. case_decide; [done|]. by simplify_eq. }
  destruct (process_header_spec c1 (h_type h) seq ack (mask_of h) n evs)
    as (c' & q & out & Ep & Hw' & Hc' & Hp' & Hq' & Hans);
    rewrite ?Hw1; try done. rewrite ?Hw1, ?Hi1 in *.
  fold (fresh_data (h_type h) (_window c) seq) in Ep.
  assert (Er' : read_packet_header c s n = Ok (c', s', fresh_data (h_type h) (_window c) seq,
    with_sent (udp_sent n ++ out) (with_events q n))).
  { rewrite Er. unfold mask_of in Ep. by rewrite (bind_step _ _ _ _ _ Ep). }
  rewrite (bind_step _ _ _ _ _ Er'). unfold answer_of in *. rewrite Ha1 in Hans.
  destruct (fresh_data (h_type h) (_window c) seq) eqn:Hf.
  - pose proof (ok_count _ Hh) as Hcount.
    pose proof (payload_upcoming b h payload s s' pad' Henc (proj1 Hcount) Hok Hnum Hend Hu Hcon Hnum') as Hpay.
    destruct (deliver_event_spec (with_sent (udp_sent n ++ out) (with_events q n)) q _
      (_connection_index c') (_last_seq_recvd (_window c')) payload s' (4 + h_count h) (blen b)
      eq_refl Hq') as (q' & E' & Hq''); [apply Hcon | lia | | done | |].
    { by rewrite (con_end _ _ _ Hcon). }
    { apply (f_equal length) in Hbits. rewrite !length_app, !length_byte_bits in Hbits.
      pose proof (length_hdr_bits h (proj1 Hcount)). unfold blen in *. lia. }
    exists c', s', q', out. split_and!; [| done | done | by eapply same_peer_trans | | done].
    + by rewrite (bind_step _ _ _ _ _ E').
    + rewrite Hw' in Hq''. cbn in Hq''. by rewrite (sp_index _ _ Hp'), Hi1, <- app_assoc in Hq''.
  - exists c', s', q, out. split_and!; [done | done | done | by eapply same_peer_trans | | done].
    by rewrite app_nil_r.
Qed.
End exchange.
