(* ===== verification/Window.v ===== *)
(** * Sequence numbers without wrap-around

    The arithmetic of one window while its numbers stay below [2^32]: which full numbers
    [judge] recovers from partial ones, and what [received] does to the mask, the reports
    and the acknowledged acknowledgements.  Protocol.v builds the two-party argument on it. *)
From S2P Require Import Prelude Endian BitStream StreamIO EventQueue Net Connection Header Exchange.
#[local] Open Scope Z_scope.

(** ** Completing partial numbers *)
Lemma high_part x k mask :
  is_u32 x -> 0 <= k <= 32 -> mask = u32 (- Z.shiftl 1 k) ->
  Z.land x mask = x - x mod 2 ^ k.
Proof.
  intros Hx Hk ->. rewrite Z.shiftl_1_l.
  assert (Hm : forall i, 0 <= i -> Z.testbit (u32 (- 2 ^ k)) i = (k <=? i) && (i <? 32)).
  { intros i Hi. rewrite testbit_u32. replace (- 2 ^ k) with (Z.lnot (Z.ones k)).
    - rewrite Z.lnot_spec, Z.testbit_ones_nonneg by lia. cases_ltb; done.
    - rewrite Z.ones_equiv. unfold Z.lnot. lia. }
  transitivity (Z.shiftl (Z.shiftr x k) k).
  - apply Z.bits_inj'. intros i Hi. rewrite Z.land_spec, Hm, Z.shiftl_spec by lia.
    destruct (Z.leb_spec k i).
    + rewrite Z.shiftr_spec, Z.sub_add by lia. destruct (Z.ltb_spec i 32); simpl_bool; [done|].
      by rewrite (testbit_high 32) by done.
    + rewrite (Z.testbit_neg_r _ (i - k)) by lia. by simpl_bool.
  - rewrite Z.shiftl_mul_pow2, Z.shiftr_div_pow2 by lia.
    pose proof (Z.div_mod x (2 ^ k) ltac:(lia)). lia.
Qed.

Lemma lor_low_high p x k :
  0 <= k -> 0 <= p < 2 ^ k -> Z.lor p (x - x mod 2 ^ k) = x - x mod 2 ^ k + p.
Proof.
  intros Hk Hp. rewrite Z.add_comm, <- Z.lxor_lor, Z.add_nocarry_lxor; [done | |];
  apply Z.bits_inj'; intros i Hi; rewrite Z.land_spec, Z.testbit_0_l;
  replace (x - x mod 2 ^ k) with (Z.shiftl (x / 2 ^ k) k) by
    (rewrite Z.shiftl_mul_pow2 by lia; pose proof (Z.div_mod x (2 ^ k) ltac:(lia)); lia);
  rewrite Z.shiftl_spec by lia; (destruct (Z.ltb_spec i k);
    [rewrite (Z.testbit_neg_r _ (i - k)) by lia | rewrite (testbit_high k) by done]); by simpl_bool.
Qed.

(** A number of the window after [reference] is recovered; one of the window before it
    comes out one window too high. *)
Lemma reconstruct_spec k x reference mask size :
  0 <= k <= 16 -> mask = u32 (- Z.shiftl 1 k) -> size = Z.shiftl 1 k ->
  0 <= x < 2 ^ 32 - 2 ^ k -> 0 <= reference < 2 ^ 32 - 2 ^ k ->
  reconstruct (x mod 2 ^ k) reference mask size =
    if (reference <=? x) then (if x <? reference + 2 ^ k then x
       else reconstruct (x mod 2 ^ k) reference mask size)
    else if reference - 2 ^ k <=? x then x + 2 ^ k
    else reconstruct (x mod 2 ^ k) reference mask size.
Proof.
  intros Hk Hm Hs Hx Hr. pose proof (Z.pow_pos_nonneg 2 k ltac:(lia) ltac:(lia)).
  assert (Hrec : reconstruct (x mod 2 ^ k) reference mask size =
    let y := reference - reference mod 2 ^ k + x mod 2 ^ k in
    if y <? reference then y + 2 ^ k else y).
  { unfold reconstruct. rewrite (high_part reference k) by (unfold in_u; (done || lia)).
    rewrite lor_low_high by (lia || apply Z.mod_pos_bound; lia).
    destruct (Z.ltb_spec (reference - reference mod 2 ^ k + x mod 2 ^ k) reference); [|done].
    rewrite Hs, Z.shiftl_1_l, u32_small; [done|].
    pose proof (Z.mod_pos_bound x (2 ^ k) ltac:(lia)). pose proof (Z.mod_pos_bound reference (2 ^ k) ltac:(lia)).
    pose proof (Z.mod_le reference (2 ^ k) ltac:(lia) ltac:(lia)). unfold in_u. lia. }
  pose proof (Z.mod_pos_bound x (2 ^ k) ltac:(lia)) as Hbx.
  pose proof (Z.mod_pos_bound reference (2 ^ k) ltac:(lia)) as Hbr.
  pose proof (Z.div_mod x (2 ^ k) ltac:(lia)) as Hdx.
  pose proof (Z.div_mod reference (2 ^ k) ltac:(lia)) as Hdr.
  set (qx := x / 2 ^ k) in *. set (qr := reference / 2 ^ k) in *.
  set (rx := x mod 2 ^ k) in *. set (rr := reference mod 2 ^ k) in *.
  destruct (Z.leb_spec reference x); [destruct (Z.ltb_spec x (reference + 2 ^ k)); [|done] |
    destruct (Z.leb_spec (reference - 2 ^ k) x); [|done]]; rewrite Hrec; cbn zeta;
    destruct (Z.ltb_spec (reference - rr + rx) reference).
  all: assert (qx = qr \/ qx = qr + 1 \/ qx = qr - 1) as [Hq|[Hq|Hq]] by nia; rewrite Hq in *; nia.
Qed.

(** ** Windows whose numbers do not wrap *)
Definition limit : Z := 2 ^ 32 - 2048.

Record no_wrap (w : window) : Prop := {
  nw_recvd : 0 <= _last_seq_recvd w < limit;
  nw_acked : 0 <= _highest_acked_seq w <= _last_send_seq w;
  nw_sent : _last_send_seq w < limit;
  nw_window : _last_send_seq w <= _highest_acked_seq w + 30;
  nw_ack_ack : 0 <= _last_recv_ack_ack w <= _last_seq_recvd w;
  nw_unacked : _last_seq_recvd w <= _last_recv_ack_ack w + 32
}.

(** A new window that knows the first number of its peer. *)
Lemma fresh_window_ok `{Machine} s r :
  is_u32 s -> is_u32 r -> window_ok (set_initial_recv_sequence r (new_window s)).
Proof.
  intros Hs Hr. split; cbn; auto with words.
  - exists 0. split; [done | split; lia].
  - by rewrite Z.sub_diag.
Qed.

Lemma fresh_no_wrap `{Machine} s r :
  0 <= s < limit -> 0 <= r < limit -> no_wrap (set_initial_recv_sequence r (new_window s)).
Proof. intros Hs Hr. split; cbn; lia. Qed.

(** A packet from the recent past of the peer, with the numbers [seq] and [ack], is
    accepted if neither number is behind the window, and dropped otherwise. *)
Lemma judge_spec w h seq ack :
  no_wrap w -> h_seq h = seq mod 2 ^ 11 -> h_ack h = ack mod 2 ^ 10 ->
  h_type h <> invalid_packet_type -> 0 <= seq < limit -> 0 <= ack ->
  _last_seq_recvd w - 2017 < seq <= _last_seq_recvd w + 31 ->
  _highest_acked_seq w - 993 < ack <= _last_send_seq w ->
  judge w h = if (_last_seq_recvd w <=? seq) && (_highest_acked_seq w <=? ack)
              then Some (seq, ack) else None.
Proof.
  intros [Hr Ha Hs Hw _ _] Hhs Hha Ht Hseq Hack0 Hd Had. unfold judge, limit in *. rewrite Hhs, Hha.
  rewrite (reconstruct_spec 11) by (done || lia).
  rewrite (reconstruct_spec 10) by (done || lia).
  change (max_packet_window_size - 1) with 31.
  destruct (Z.leb_spec (_last_seq_recvd w) seq); cbn [andb].
  - destruct (Z.ltb_spec seq (_last_seq_recvd w + 2 ^ 11)); [|lia].
    rewrite u32_small by (unfold in_u; lia).
    destruct (Z.ltb_spec 31 (seq - _last_seq_recvd w)); [lia|].
    destruct (Z.leb_spec (_highest_acked_seq w) ack).
    + destruct (Z.ltb_spec ack (_highest_acked_seq w + 2 ^ 10)); [|lia].
      destruct (Z.ltb_spec (_last_send_seq w) ack); [lia|]. by rewrite decide_False.
    + destruct (Z.leb_spec (_highest_acked_seq w - 2 ^ 10) ack); [|lia].
      destruct (Z.ltb_spec (_last_send_seq w) (ack + 2 ^ 10)); [done | lia].
  - destruct (Z.leb_spec (_last_seq_recvd w - 2 ^ 11) seq); [|lia].
    rewrite u32_small by (unfold in_u; lia).
    destruct (Z.ltb_spec 31 (seq + 2 ^ 11 - _last_seq_recvd w)); [done | lia].
Qed.

(** Bit [i] of the new mask stands for the packet [i] before the one just received. *)
Lemma testbit_shifted t s m i :
  0 <= s <= 31 -> 0 <= i < 32 ->
  Z.testbit (shifted t s m) i =
    (bool_decide (s <= i) && Z.testbit m (i - s)) || (bool_decide (t = data_packet) && (i =? 0)).
Proof.
  intros Hs Hi. unfold shifted. rewrite Z.lor_spec, testbit_u32, Z.shiftl_spec by lia.
  destruct (Z.ltb_spec i 32); [|lia]. simpl_bool. f_equal.
  - case_bool_decide; [done | by rewrite Z.testbit_neg_r by lia].
  - case_decide; [rewrite bool_decide_true by done | rewrite bool_decide_false by done; apply Z.testbit_0_l].
    destruct (Z.eqb_spec i 0) as [->|]; [done|]. apply (testbit_high 1); [split; lia | lia].
Qed.

Lemma notes_no_wrap w ack m :
  no_wrap w -> _highest_acked_seq w <= ack <= _last_send_seq w ->
  notes w ack m = (fun n => (n, Z.testbit m (ack - n))) <$>
    seqZ (_highest_acked_seq w + 1) (ack - _highest_acked_seq w).
Proof.
  intros [_ Ha Hs Hw _ _] Hack. unfold notes, note, limit in *.
  rewrite u32_small by (unfold in_u; lia).
  pose proof (fmap_add_seqZ (_highest_acked_seq w + 1) 0 (ack - _highest_acked_seq w)) as E.
  rewrite Z.add_0_r in E. rewrite <- E, <- list_fmap_compose. apply list_fmap_ext.
  intros i k [-> Hk]%lookup_seqZ. cbn. rewrite !u32_small by (unfold in_u; try rewrite u32_small; unfold in_u; lia).
  f_equal; [lia | f_equal; lia].
Qed.

(** The new [_last_recv_ack_ack] before the adjustment is the old one or an entry of the
    send log for a packet reported as delivered. *)
Lemma ack_ack_fold at_send x rs :
  foldl (ack_ack_step at_send) x rs = x \/
  exists n, (n, true) ∈ rs /\ foldl (ack_ack_step at_send) x rs = nth (Z.to_nat (n mod 32)) at_send 0.
Proof.
  revert x. induction rs as [|[n b] rs IH]; intros x; [by left|].
  change (foldl (ack_ack_step at_send) x ((n, b) :: rs))
    with (foldl (ack_ack_step at_send) (ack_ack_step at_send x (n, b)) rs).
  destruct (IH (ack_ack_step at_send x (n, b))) as [->|(k & Hk & ->)].
  - unfold ack_ack_step. destruct b; [right; exists n | by left]. cbn. split; [constructor | done].
  - right. exists k. split; [by constructor | done].
Qed.

Lemma bump_no_wrap seq x :
  0 <= x <= seq -> 0 <= seq < limit -> bump seq x = Z.max x (seq - 32).
Proof.
  intros Hx Hs. unfold bump, limit in *. rewrite u32_small by (unfold in_u; lia).
  destruct (Z.ltb_spec 32 (seq - x)); [rewrite u32_small by (unfold in_u; lia)|]; lia.
Qed.

(** Sending without wrap-around. *)
Lemma window_full_no_wrap w :
  no_wrap w -> window_full w = (30 <=? _last_send_seq w - _highest_acked_seq w).
Proof.
  intros [_ Ha Hs Hw _ _]. unfold window_full, limit in *.
  change (max_packet_window_size - 2) with 30. by rewrite u32_small by (unfold in_u; lia).
Qed.

Lemma ack_bytes_no_wrap w :
  no_wrap w -> ack_bytes w = (_last_seq_recvd w - _last_recv_ack_ack w + 7) / 8.
Proof. intros [? _ _ _ ? ?]. unfold ack_bytes. by rewrite Z.mod_small by (unfold limit in *; lia). Qed.

(** The mask a receiver reconstructs agrees with the sender's on every packet the sender
    still has to acknowledge; no bit of an absent mask is ever looked at. *)
Lemma mask_of_header `{Machine} t w m n :
  no_wrap w -> _ack_mask w = [m] -> _last_recv_ack_ack w < n <= _last_seq_recvd w ->
  Z.testbit (mask_of (header_of t w)) (_last_seq_recvd w - n) = Z.testbit m (_last_seq_recvd w - n).
Proof.
  intros Hw Hm Hn. unfold mask_of, header_of. cbn [h_count h_mask]. rewrite ack_bytes_no_wrap by done.
  destruct Hw as [_ _ _ _ ? ?]. rewrite Hm. cbn [nth].
  set (k := (_last_seq_recvd w - _last_recv_ack_ack w + 7) / 8).
  assert (8 * k >= _last_seq_recvd w - _last_recv_ack_ack w) by (subst k; zlia).
  destruct (Z.eqb_spec k 0); [lia|]. rewrite testbit_u by lia.
  destruct (Z.ltb_spec (_last_seq_recvd w - n) (8 * k)); [by rewrite andb_true_r | lia].
Qed.
