(* ===== verification/Protocol.v ===== *)
(** * Two connections and the network between them

    Two endpoints exchange datagrams over a network that loses, reorders and duplicates
    them at will.  The endpoints run the code of torque_connection.h; the log of what each
    has sent ([ep_wire]) is the network.  The invariant relates the sender's window, the
    receiver's window and every datagram under way, and gives the correctness of
    the delivery notifications. *)
From Stdlib Require Import SpecFloat Sorted.
From S2P Require Import Prelude Endian BitStream StreamIO Address EventQueue Cipher Net Connection Header Exchange Window.
#[local] Open Scope Z_scope.

(** A datagram with what its sender knew: its window right after sending, and the payload. *)
Record wire_packet : Type := mk_wire {
  wp_data : bytes;
  wp_type : net_packet_type;
  wp_window : window;
  wp_payload : bytes
}.
Definition wp_seq (p : wire_packet) : Z := _last_send_seq (wp_window p).
Definition wp_ack (p : wire_packet) : Z := _last_seq_recvd (wp_window p).

(** What an application and the network see of an endpoint: the reports on the packets it
    sent, the packets handed to it, and its datagrams. *)
Record view : Type := mk_view {
  v_window : window;
  v_reports : list (Z * bool);
  v_handed : list (Z * bytes);
  v_wire : list wire_packet
}.

Notation at_ w n := (nth (Z.to_nat (n mod 32)) (_last_seq_recvd_at_send w) 0) (only parsing).

(** The numbers of the pings and acks an endpoint has sent. *)
Definition ping_numbers (l : list wire_packet) : list Z :=
  wp_seq <$> filter (fun p => wp_type p <> data_packet) l.

(** [snapshot acc handed acked w]: in the window [w] of a receiver every set bit of the
    mask is an accepted packet, every clear bit one that was not handed over, and
    the peer knows about everything [w] no longer reports. *)
Record snapshot (acc handed : list Z) (acked : Z) (w : window) : Prop := {
  sn_no_wrap : no_wrap w;
  sn_ack_ack : _last_recv_ack_ack w <= acked;
  sn_mask : exists m, _ack_mask w = [m] /\ forall i, 0 <= i < 32 ->
    if Z.testbit m i then _last_seq_recvd w - i ∈ acc else _last_seq_recvd w - i ∉ handed
}.

(** The data flowing from [x], whose first number is [s0 + 1], to [y]. *)
Record flow (s0 : Z) (x y : view) (acc : list Z) : Prop := {
  fl_start : s0 <= _highest_acked_seq (v_window x);
  fl_recvd : _highest_acked_seq (v_window x) <= _last_seq_recvd (v_window y) <= _last_send_seq (v_window x);
  fl_snap : snapshot acc (v_handed y).*1 (_highest_acked_seq (v_window x)) (v_window y);
  fl_acks p : p ∈ v_wire y -> wp_ack p <= _last_seq_recvd (v_window y) /\
    snapshot acc (v_handed y).*1 (_highest_acked_seq (v_window x)) (wp_window p);
  fl_acc n : n ∈ acc -> s0 < n <= _last_seq_recvd (v_window y) /\
    (n ∈ (v_handed y).*1 \/ n ∈ ping_numbers (v_wire x));
  fl_handed n : n ∈ (v_handed y).*1 -> n ∈ acc;
  fl_sorted : StronglySorted Z.lt (v_handed y).*1;
  fl_last : _last_seq_recvd (v_window y) = s0 \/ _last_seq_recvd (v_window y) ∈ (v_handed y).*1 \/
    _last_seq_recvd (v_window y) ∈ ping_numbers (v_wire x);
  fl_wire p : p ∈ v_wire x -> s0 <= wp_seq p <= _last_send_seq (v_window x) /\
    (wp_type p = data_packet -> s0 < wp_seq p) /\
    (_highest_acked_seq (v_window x) < wp_seq p -> at_ (v_window x) (wp_seq p) <= wp_ack p);
  fl_log n : _highest_acked_seq (v_window x) < n <= _last_send_seq (v_window x) ->
    0 <= at_ (v_window x) n <= _last_seq_recvd (v_window x) /\
    (n ∈ acc -> at_ (v_window x) n <= _highest_acked_seq (v_window y));
  fl_reports : (v_reports x).*1 = seqZ (s0 + 1) (_highest_acked_seq (v_window x) - s0);
  fl_truth n b : (n, b) ∈ v_reports x -> if b : bool then n ∈ acc else n ∉ (v_handed y).*1;
  fl_payload n d : (n, d) ∈ v_handed y -> exists p, p ∈ v_wire x /\
    wp_type p = data_packet /\ wp_seq p = n /\ wp_payload p = d
}.

Lemma snapshot_mono acc handed acked w acc' handed' acked' :
  snapshot acc handed acked w -> acc ⊆ acc' -> acked <= acked' ->
  (forall n, n ∈ handed' -> n ∈ handed \/ _last_seq_recvd w < n) ->
  snapshot acc' handed' acked' w.
Proof.
  intros [Hn Ha (m & Hm & Hb)] Hacc Hle Hh. split; [done | lia |].
  exists m. split; [done|]. intros i Hi. specialize (Hb i Hi). destruct (Z.testbit m i); [by apply Hacc|].
  intros [Hin|]%Hh; [done | lia].
Qed.

Lemma ping_numbers_app l p :
  ping_numbers (l ++ [p]) = ping_numbers l ++ (if decide (wp_type p = data_packet) then [] else [wp_seq p]).
Proof.
  unfold ping_numbers. rewrite list.filter_app, fmap_app. f_equal. case_decide as Hd.
  - by rewrite filter_cons_False by (intros ?; done).
  - by rewrite filter_cons_True.
Qed.

Lemma sorted_snoc l x :
  StronglySorted Z.lt l -> (forall a, a ∈ l -> a < x) -> StronglySorted Z.lt (l ++ [x]).
Proof.
  induction 1 as [|y l Hs IH Hy]; intros Hx; [repeat constructor|]. cbn. constructor.
  - apply IH. intros a Ha. apply Hx. by constructor.
  - apply Forall_app. split; [done|]. repeat constructor. apply Hx. by constructor.
Qed.

(** ** Sending *)
Definition view_send (t : net_packet_type) (b d : bytes) (x : view) : view :=
  mk_view (sent t (v_window x)) (v_reports x) (v_handed x)
    (v_wire x ++ [mk_wire b t (sent t (v_window x)) d]).

Lemma sent_no_wrap t w :
  no_wrap w -> (t = data_packet -> window_full w = false /\ _last_send_seq w + 1 < limit) ->
  no_wrap (sent t w) /\ _last_send_seq (sent t w) = _last_send_seq w + (if decide (t = data_packet) then 1 else 0).
Proof.
  intros Hw Hf. unfold sent. case_decide as Ht; [|split; [done | lia]].
  destruct (Hf Ht) as [Hfull Hlim]. rewrite window_full_no_wrap in Hfull by done.
  destruct Hw. apply Z.leb_gt in Hfull. unfold limit in *.
  assert (u32 (_last_send_seq w + 1) = _last_send_seq w + 1) as E by (apply u32_small; unfold in_u; lia).
  split; [|exact E]. split; cbn; rewrite ?E; unfold limit; lia.
Qed.

Lemma sent_fields t w :
  _last_seq_recvd (sent t w) = _last_seq_recvd w /\ _highest_acked_seq (sent t w) = _highest_acked_seq w /\
  _last_recv_ack_ack (sent t w) = _last_recv_ack_ack w /\ _ack_mask (sent t w) = _ack_mask w.
Proof. unfold sent. by case_decide. Qed.

(** The log entries of unacknowledged packets survive a send. *)
Lemma sent_log t w n :
  no_wrap w -> length (_last_seq_recvd_at_send w) = 32%nat ->
  (t = data_packet -> window_full w = false /\ _last_send_seq w + 1 < limit) ->
  _highest_acked_seq w < n <= _last_send_seq (sent t w) ->
  at_ (sent t w) n = if decide (t = data_packet /\ n = _last_send_seq w + 1) then _last_seq_recvd w else at_ w n.
Proof.
  intros Hw Hl Hf Hn. destruct (sent_no_wrap t w Hw Hf) as [_ Hs].
  rewrite Hs in Hn. unfold sent. case_decide as Ht; [|by rewrite decide_False by tauto].
  destruct (Hf Ht) as [Hfull Hlim]. rewrite window_full_no_wrap in Hfull by done. apply Z.leb_gt in Hfull.
  destruct Hw. unfold limit in *. cbn [_last_seq_recvd_at_send with_at_send with_last_send _last_send_seq _last_seq_recvd].
  rewrite u32_small by (unfold in_u; lia). rewrite nth_lookup, list_lookup_insert.
  destruct (decide (n = _last_send_seq w + 1)) as [->|Hne].
  - rewrite decide_True by (rewrite Hl; zlia). by rewrite decide_True.
  - rewrite !decide_False by (try tauto; zlia). by rewrite nth_lookup.
Qed.

Section send.
Context (t : net_packet_type) (b d : bytes) (x : view).
Hypothesis Hlen : length (_last_seq_recvd_at_send (v_window x)) = 32%nat.
Hypothesis Hf : t = data_packet ->
  window_full (v_window x) = false /\ _last_send_seq (v_window x) + 1 < limit.

(** Sending keeps the flow to the peer. *)
Lemma send_flow_out s0 y acc :
  no_wrap (v_window x) -> flow s0 x y acc -> flow s0 (view_send t b d x) y acc.
Proof.
  intros Hw Hfl. destruct (sent_no_wrap t _ Hw Hf) as [Hw' Hs].
  destruct (sent_fields t (v_window x)) as (Hr & Ha & Hk & Hm).
  assert (Hp : forall n, n ∈ ping_numbers (v_wire x) -> n ∈ ping_numbers (v_wire (view_send t b d x))).
  { intros n Hn. cbn [view_send v_wire]. rewrite ping_numbers_app, elem_of_app. by left. }
  pose proof (nw_acked _ Hw). destruct Hfl. split; cbn [view_send v_window v_reports v_handed v_wire];
    rewrite ?Ha, ?Hr; try done.
  - rewrite Hs. case_decide; lia.
  - intros n Hn. destruct (fl_acc0 n Hn) as [? [?|?]]; eauto.
  - destruct fl_last0 as [?|[?|?]]; eauto.
  - intros p [Hp'|Hp']%elem_of_app.
    + destruct (fl_wire0 p Hp') as (Hsq & Hd & Hat). split_and!; [lia | rewrite Hs; case_decide; lia | done |].
      intros Hlt. rewrite sent_log by (try done; rewrite Hs; case_decide; lia).
      rewrite decide_False by lia. by apply Hat.
    + apply list_elem_of_singleton in Hp' as ->. unfold wp_seq, wp_ack. cbn [wp_window wp_type].
      rewrite Hs. split_and!; [case_decide; lia | lia | intros ->; case_decide; [lia | done] |].
      rewrite Hr. intros Hlt. rewrite sent_log by (try done; rewrite Hs; case_decide; lia).
      destruct (decide (t = data_packet)).
      * rewrite decide_True by done. lia.
      * rewrite decide_False by tauto. rewrite Z.add_0_r. apply fl_log0. lia.
  - intros n Hn. rewrite sent_log by done.
    destruct (decide (t = data_packet /\ n = _last_send_seq (v_window x) + 1)) as [[Hd ->]|Hd].
    + split; [destruct Hw; lia|]. intros Hin%fl_acc0. lia.
    + apply fl_log0. rewrite Hs in Hn. destruct (decide (t = data_packet)); [|lia].
      destruct (decide (n = _last_send_seq (v_window x) + 1)); [tauto | lia].
  - intros n e Hin. destruct (fl_payload0 n e Hin) as (p & ? & ? & ? & ?).
    exists p. split_and!; try done. apply elem_of_app. by left.
Qed.

(** Sending keeps the flow from the peer: the new datagram carries the present mask. *)
Lemma send_flow_in s0 y acc :
  flow s0 y x acc -> flow s0 y (view_send t b d x) acc.
Proof.
  intros Hfl. pose proof (sn_no_wrap _ _ _ _ (fl_snap _ _ _ _ Hfl)) as Hw.
  destruct (sent_no_wrap t _ Hw Hf) as [Hw' Hs].
  destruct (sent_fields t (v_window x)) as (Hr & Ha & Hk & Hm).
  assert (Hsn : snapshot acc (v_handed x).*1 (_highest_acked_seq (v_window y)) (sent t (v_window x))).
  { destruct (fl_snap _ _ _ _ Hfl) as [_ ? ?]. split; rewrite ?Hk, ?Hm, ?Hr; done. }
  destruct Hfl. split; cbn [view_send v_window v_reports v_handed v_wire]; rewrite ?Hr, ?Ha; try done.
  intros p [Hp|Hp]%elem_of_app; [by apply fl_acks0|].
  apply list_elem_of_singleton in Hp as ->. unfold wp_ack. cbn. rewrite Hr. split; [lia | done].
Qed.
End send.

(** ** Receiving *)
Definition view_recv (t : net_packet_type) (seq ack m : Z) (d : bytes) (x : view) : view :=
  mk_view (received t seq ack m (v_window x)) (v_reports x ++ notes (v_window x) ack m)
    (v_handed x ++ (if fresh_data t (v_window x) seq then [(seq, d)] else [])) (v_wire x).

Definition accept (t : net_packet_type) (seq : Z) (acc : list Z) : list Z :=
  if decide (t = data_packet) then acc ++ [seq] else acc.

Lemma accept_subset t seq acc : acc ⊆ accept t seq acc.
Proof. unfold accept. case_decide; [|done]. intros n Hn. apply elem_of_app. by left. Qed.

Section recv.
Context `{Machine} (sx sy : Z) (x y : view) (accx accy : list Z) (p : wire_packet).
Hypothesis Hout : flow sx x y accx.
Hypothesis Hin : flow sy y x accy.
Hypothesis Hp : p ∈ v_wire y.
Hypothesis Hseq : _last_seq_recvd (v_window x) <= wp_seq p.
Hypothesis Hack : _highest_acked_seq (v_window x) <= wp_ack p.
Hypothesis Hmask : exists m, _ack_mask (v_window x) = [m].

Let t := wp_type p.
Let seq := wp_seq p.
Let ack := wp_ack p.
Let m := mask_of (header_of t (wp_window p)).
Let x' := view_recv t seq ack m (wp_payload p) x.

Lemma recv_nw : no_wrap (v_window x) /\ no_wrap (v_window y) /\
  ack <= _last_send_seq (v_window x) /\ seq <= _last_send_seq (v_window y) /\
  seq <= _last_seq_recvd (v_window x) + 30.
Proof.
  pose proof (sn_no_wrap _ _ _ _ (fl_snap _ _ _ _ Hin)) as Hwx.
  pose proof (sn_no_wrap _ _ _ _ (fl_snap _ _ _ _ Hout)) as Hwy.
  split_and!; [done | done | | |].
  - destruct (fl_acks _ _ _ _ Hout p Hp) as [Ha _]. pose proof (fl_recvd _ _ _ _ Hout). subst ack. lia.
  - destruct (fl_wire _ _ _ _ Hin p Hp) as [Ha _]. subst seq. lia.
  - destruct (fl_wire _ _ _ _ Hin p Hp) as [Ha _]. pose proof (fl_recvd _ _ _ _ Hin). destruct Hwy.
    subst seq. lia.
Qed.

(** What the reports of this packet say is true of the peer. *)
Lemma recv_notes :
  notes (v_window x) ack m =
    (fun n => (n, Z.testbit m (ack - n))) <$>
      seqZ (_highest_acked_seq (v_window x) + 1) (ack - _highest_acked_seq (v_window x)) /\
  forall n b, (n, b) ∈ notes (v_window x) ack m ->
    _highest_acked_seq (v_window x) < n <= ack /\
    if b : bool then n ∈ accx else n ∉ (v_handed y).*1.
Proof.
  destruct recv_nw as (Hwx & Hwy & Hle & _). rewrite notes_no_wrap by done. split; [done|].
  intros n b (k & [= -> ->] & Hk%elem_of_seqZ)%list_elem_of_fmap. split; [lia|].
  destruct (fl_acks _ _ _ _ Hout p Hp) as [_ [Hnw Hka (mm & Hm & Hbits)]].
  unfold m, ack, wp_ack in *. rewrite (mask_of_header t (wp_window p) mm) by (done || lia).
  specialize (Hbits (_last_seq_recvd (wp_window p) - k)).
  replace (_last_seq_recvd (wp_window p) - (_last_seq_recvd (wp_window p) - k)) with k in Hbits by lia.
  apply Hbits. destruct Hnw. lia.
Qed.

Lemma recv_flow_out : flow sx x' y accx.
Proof.
  destruct recv_nw as (Hwx & Hwy & Hle & Hsq & _). destruct recv_notes as [Hnotes Htrue].
  pose proof (fl_acks _ _ _ _ Hout p Hp) as [Hay _]. fold ack in Hay.
  destruct Hout. subst x'. split; cbn [view_recv v_window v_reports v_handed v_wire received
    _last_seq_recvd _highest_acked_seq _last_send_seq _last_seq_recvd_at_send]; try done.
  - subst ack. lia.
  - lia.
  - eapply snapshot_mono; [done | reflexivity | done | intros; by left].
  - intros q Hq. destruct (fl_acks0 q Hq) as [? ?]. split; [done|].
    eapply snapshot_mono; [done | reflexivity | done | intros; by left].
  - intros q Hq. destruct (fl_wire0 q Hq) as (? & ? & Hat). split_and!; [lia | lia | done |].
    intros Hlt. apply Hat. subst ack. lia.
  - intros n Hn. destruct (fl_log0 n) as [Hb Hacc]; [subst ack; lia|]. split; [|done]. subst seq. lia.
  - rewrite fmap_app, fl_reports0, Hnotes, <- list_fmap_compose.
    replace (ack - sx) with ((_highest_acked_seq (v_window x) - sx) + (ack - _highest_acked_seq (v_window x))) by lia.
    rewrite seqZ_app by (subst ack; lia). f_equal.
    replace (sx + 1 + (_highest_acked_seq (v_window x) - sx)) with (_highest_acked_seq (v_window x) + 1) by lia.
    apply list_fmap_id.
  - intros n b [Hn|Hn]%elem_of_app; [by apply fl_truth0 | by apply Htrue].
Qed.

(** The new [_last_recv_ack_ack] is known to the peer. *)
Lemma recv_ack_ack :
  let k := _last_recv_ack_ack (received t seq ack m (v_window x)) in
  0 <= k <= seq /\ seq <= k + 32 /\ k <= _highest_acked_seq (v_window y).
Proof.
  destruct recv_nw as (Hwx & Hwy & Hle & Hsq & Hsq30). destruct recv_notes as [_ Htrue].
  pose proof (sn_ack_ack _ _ _ _ (fl_snap _ _ _ _ Hin)) as Hka.
  cbn. set (f := foldl _ _ _).
  assert (Hfold : 0 <= f <= seq /\ f <= _highest_acked_seq (v_window y)).
  { destruct (ack_ack_fold (_last_seq_recvd_at_send (v_window x)) (_last_recv_ack_ack (v_window x))
      (notes (v_window x) ack m)) as [E|(n & Hn & E)]; fold f in E; rewrite E.
    - destruct Hwx. subst seq. lia.
    - destruct (Htrue n true Hn) as [Hr Hacc].
      destruct (fl_log _ _ _ _ Hout n) as [? Hlog]; [subst ack; lia|]. specialize (Hlog Hacc). subst seq. lia. }
  rewrite bump_no_wrap by (destruct Hwy; lia). destruct Hwy. lia.
Qed.

Lemma recv_snapshot :
  snapshot (accept t seq accy) (v_handed x').*1 (_highest_acked_seq (v_window y)) (v_window x').
Proof.
  destruct recv_nw as (Hwx & Hwy & Hle & Hsq & Hsq30). destruct recv_ack_ack as (Hk1 & Hk2 & Hk3).
  pose proof (fl_snap _ _ _ _ Hin) as [_ _ (mm & Hm & Hbits)].
  assert (Hsh : u32 (seq - _last_seq_recvd (v_window x)) = seq - _last_seq_recvd (v_window x)).
  { apply u32_small. subst seq. split; [lia|]. destruct Hwx, Hwy. unfold limit in *. lia. }
  split; [| done |].
  - destruct Hwx, Hwy. split; subst x'; cbn -[bump limit] in *; subst seq ack; lia.
  - subst x'. cbn -[bump limit shifted fresh_data]. eexists. split; [done|]. intros i Hi.
    rewrite Hm, Hsh. cbn [nth]. rewrite testbit_shifted by (subst seq; lia).
    unfold fresh_data, accept. fold t. rewrite !fmap_app.
    destruct (decide (seq - _last_seq_recvd (v_window x) <= i)) as [Hge|Hlt].
    + rewrite bool_decide_true by done. cbn [andb].
      specialize (Hbits (i - (seq - _last_seq_recvd (v_window x))) ltac:(subst seq; lia)).
      replace (_last_seq_recvd (v_window x) - (i - (seq - _last_seq_recvd (v_window x)))) with (seq - i) in Hbits by lia.
      destruct (Z.testbit mm _); cbn [orb].
      * destruct (decide (t = data_packet)); [|done]. apply elem_of_app. by left.
      * destruct (decide (t = data_packet)) as [Ht|Ht].
        -- rewrite bool_decide_true by done. destruct (Z.eqb_spec i 0) as [->|]; cbn [andb].
           { rewrite elem_of_app, list_elem_of_singleton. right. lia. }
           rewrite andb_true_r, elem_of_app. intros [?|Hin']; [done|].
           destruct (negb _); cbn in Hin'; [apply list_elem_of_singleton in Hin'; lia | by apply elem_of_nil in Hin'].
        -- rewrite bool_decide_false by done. rewrite andb_false_r. cbn. by rewrite app_nil_r.
    + rewrite bool_decide_false by done. cbn [andb orb].
      assert (Hno : forall n, n ∈ (v_handed x).*1 -> n <= _last_seq_recvd (v_window x)).
      { intros n Hn%(fl_handed _ _ _ _ Hin)%(fl_acc _ _ _ _ Hin). lia. }
      destruct (decide (t = data_packet)) as [Ht|Ht].
      * rewrite bool_decide_true by done. cbn [andb]. destruct (Z.eqb_spec i 0) as [->|].
        { rewrite elem_of_app, list_elem_of_singleton. right. lia. }
        rewrite andb_true_r, elem_of_app. intros [?%Hno|Hin']; [lia|].
        destruct (negb _); cbn in Hin'; [apply list_elem_of_singleton in Hin'; lia | by apply elem_of_nil in Hin'].
      * rewrite bool_decide_false by done. rewrite andb_false_r. cbn [andb fmap list_fmap].
        rewrite app_nil_r. intros ?%Hno. lia.
Qed.

Lemma recv_flow_in : flow sy y x' (accept t seq accy).
Proof.
  destruct recv_nw as (Hwx & Hwy & Hle & Hsq & Hsq30). pose proof recv_snapshot as Hsn.
  destruct (fl_wire _ _ _ _ Hin p Hp) as (Hs1 & Hs2 & Hs3). fold seq ack t in Hs1, Hs2, Hs3.
  destruct Hin. change (v_window x') with (received t seq ack m (v_window x)) in *.
  assert (Hfr : fresh_data t (v_window x) seq = bool_decide (t = data_packet /\ _last_seq_recvd (v_window x) < seq)).
  { unfold fresh_data. destruct (Z.eqb_spec (_last_seq_recvd (v_window x)) seq); cbn [negb andb].
    - symmetry. apply bool_decide_false. lia.
    - apply bool_decide_ext. subst seq. split; [split; [done | lia] | tauto]. }
  assert (Hh : forall n, n ∈ (v_handed x').*1 <-> n ∈ (v_handed x).*1 \/
    (n = seq /\ t = data_packet /\ _last_seq_recvd (v_window x) < seq)).
  { intros n. subst x'. cbn [view_recv v_handed]. rewrite fmap_app, elem_of_app, Hfr.
    case_bool_decide as Hb; cbn; rewrite ?list_elem_of_singleton, ?elem_of_nil; (split; [intros [?|?] | intros [?|(-> & ?)]]); tauto. }
  split; change (_last_seq_recvd (v_window x')) with seq;
    change (_highest_acked_seq (v_window x')) with ack; change (v_wire x') with (v_wire x); try done.
  - subst seq. lia.
  - intros q Hq. destruct (fl_acks0 q Hq) as [Hq1 Hq2]. split; [subst seq; lia|].
    eapply snapshot_mono; [done | apply accept_subset | done |].
    intros n [?|(-> & _ & ?)]%Hh; [by left|]. right. unfold wp_ack in Hq1. lia.
  - intros n Hn. unfold accept in Hn. destruct (decide (t = data_packet)) as [Ht|].
    + apply elem_of_app in Hn as [Hn| ->%list_elem_of_singleton].
      * destruct (fl_acc0 n Hn) as [? [?|?]]; (split; [subst seq; lia|]); [left; apply Hh; by left | by right].
      * split; [specialize (Hs2 Ht); subst seq; lia|].
        destruct (decide (_last_seq_recvd (v_window x) < seq)) as [|Heq].
        { left. apply Hh. by right. }
        assert (_last_seq_recvd (v_window x) = seq) as <- by (subst seq; lia).
        destruct fl_last0 as [?|[?|?]]; [specialize (Hs2 Ht); lia | left; apply Hh; by left | by right].
    + destruct (fl_acc0 n Hn) as [? [?|?]]; (split; [subst seq; lia|]); [left; apply Hh; by left | by right].
  - intros n [Hn%fl_handed0|(-> & Ht & _)]%Hh; [by apply accept_subset|].
    unfold accept. rewrite decide_True by done. apply elem_of_app. right. by apply list_elem_of_singleton.
  - subst x'. cbn [view_recv v_handed]. rewrite fmap_app, Hfr. case_bool_decide as Hf; [|by rewrite app_nil_r].
    change ([(seq, wp_payload p)].*1) with [seq].
    apply sorted_snoc; [done|]. intros a Ha%fl_handed0%fl_acc0. lia.
  - destruct (decide (t = data_packet)) as [Ht|Ht].
    + destruct (decide (_last_seq_recvd (v_window x) < seq)).
      { right. left. apply Hh. by right. }
      assert (_last_seq_recvd (v_window x) = seq) as <- by (subst seq; lia).
      destruct fl_last0 as [?|[?|?]]; [by left | right; left; apply Hh; by left | by right; right].
    + right. right. unfold ping_numbers. apply list_elem_of_fmap. exists p. split; [done|].
      by apply list_elem_of_filter.
  - intros n Hn. destruct (fl_log0 n Hn) as [Hb Hacc]. split; [done|].
    intros Hin'. unfold accept in Hin'. destruct (decide (t = data_packet)) as [Ht|].
    + apply elem_of_app in Hin' as [Hin'%Hacc| ->%list_elem_of_singleton].
      * subst ack. lia.
      * apply Hs3. lia.
    + apply Hacc in Hin'. subst ack. lia.
  - intros n b Hn. specialize (fl_truth0 n b Hn). destruct b; [by apply accept_subset|].
    intros [?|(-> & Ht & Hlt)]%Hh; [done|].
    assert (Hn1 : seq ∈ (v_reports y).*1) by (apply list_elem_of_fmap; by exists (seq, false)).
    rewrite fl_reports0 in Hn1. apply elem_of_seqZ in Hn1. lia.
  - intros n d [Hn|Hn]%elem_of_app; [by apply fl_payload0|].
    rewrite Hfr in Hn. case_bool_decide as Hf; [|by apply elem_of_nil in Hn].
    apply list_elem_of_singleton in Hn. injection Hn as -> ->. exists p. split_and!; try done. apply Hf.
Qed.
End recv.
