(* ===== verification/Delivery.v ===== *)
(** * Delivery notifications are right

    The code of torque_connection.h run at both ends of a network (Protocol.v has the
    invariant).  [delivery_correct] is the guarantee the API promises its users:
    every packet sent is reported exactly once, in order, and truthfully. *)
From Stdlib Require Import SpecFloat Sorted.
From stdpp Require Import relations.
From S2P Require Import Prelude Endian BitStream StreamIO Address EventQueue Cipher Net Connection Header Exchange Window Protocol.
#[local] Open Scope Z_scope.

Section delivery.
Context `{Machine, Prng, BlockCipher}.

(** A connection with its socket's resources, and the log of the datagrams it sent. *)
Record endpoint : Type := mk_endpoint {
  ep_conn : torque_connection;
  ep_net : net;
  ep_wire : list wire_packet
}.

(** The datagrams added to [udp_sent] by an operation, with the window they left. *)
Definition log (t : net_packet_type) (payload : bytes) (n : net) (c' : torque_connection) (n' : net)
    : list wire_packet :=
  (fun d => mk_wire d.2 t (_window c') payload) <$> drop (length (udp_sent n)) (udp_sent n').

(** The application sends a datagram. *)
Definition act_send (d : bytes) (e : endpoint) : result endpoint :=
  '(c, _, n) ← send_packet (ep_conn e) data_packet d (blen d) (ep_net e);
  Ok (mk_endpoint c n (ep_wire e ++ log data_packet d (ep_net e) c n)).

(** The socket checks for a timeout. *)
Definition act_timeout (now : time) (e : endpoint) : result endpoint :=
  '(c, _, n) ← check_timeout (ep_conn e) now (ep_net e);
  Ok (mk_endpoint c n (ep_wire e ++ log ping_packet [] (ep_net e) c n)).

(** The network delivers a datagram. *)
Definition act_receive (b : bytes) (e : endpoint) : result endpoint :=
  s ← set_from_buffer new_packet_stream b;
  '(c, _, _, n) ← read_raw_packet (ep_conn e) s (ep_net e);
  Ok (mk_endpoint c n (ep_wire e ++ log ack_packet [] (ep_net e) c n)).

(** The events an application finds in its queue. *)
Definition report_of (e : torque_socket_event) : option (Z * bool) :=
  if event_type e =? event_code torque_connection_packet_notify_event_type
  then Some (packet_sequence e, delivered e) else None.
Definition packet_of (e : torque_socket_event) : option (Z * bytes) :=
  if event_type e =? event_code torque_connection_packet_event_type
  then Some (packet_sequence e, ev_data e) else None.

(** ** The steps of one side *)

(** A datagram of the recent past: the header has 11 and 10 bits for its two numbers. *)
Definition recent (w : window) (p : wire_packet) : Prop :=
  _last_seq_recvd w - 2017 < wp_seq p /\ _highest_acked_seq w - 993 < wp_ack p.

Inductive local_step (a b : endpoint) : endpoint -> Prop :=
  | step_send d a' :
      is_bytes d -> blen d <= 1480 -> window_full (_window (ep_conn a)) = false ->
      _last_send_seq (_window (ep_conn a)) + 1 < limit ->
      act_send d a = Ok a' -> local_step a b a'
  | step_timeout now a' : act_timeout now a = Ok a' -> local_step a b a'
  | step_receive p a' :
      p ∈ ep_wire b -> recent (_window (ep_conn a)) p ->
      act_receive (wp_data p) a = Ok a' -> local_step a b a'.

Inductive step : endpoint * endpoint -> endpoint * endpoint -> Prop :=
  | step_left a b a' : local_step a b a' -> step (a, b) (a', b)
  | step_right a b b' : local_step b a b' -> step (a, b) (a, b').

(** A connection as [accept_connection] and [_handle_connect_accept] of torque_socket.h
    create it, with the initial numbers of both sides agreed. *)
Record connected (initial_send initial_recv : Z) (e : endpoint) : Prop := {
  cn_window : _window (ep_conn e) = set_initial_recv_sequence initial_recv (new_window initial_send);
  cn_quiet : quiet (ep_conn e);
  cn_cipher : conn_cipher_ok (ep_conn e);
  cn_queue : queue_holds (_event_queue (ep_net e)) [];
  cn_wire : ep_wire e = []
}.

(** ** Refinement of the code by the views *)
Record shows (e : endpoint) (v : view) : Prop := {
  sh_conn : conn_ok (ep_conn e);
  sh_window : _window (ep_conn e) = v_window v;
  sh_wire : ep_wire e = v_wire v;
  sh_data p : p ∈ ep_wire e -> encodes (wp_data p) (header_of (wp_type p) (wp_window p)) (wp_payload p) /\
    window_ok (wp_window p) /\ wp_type p <> invalid_packet_type;
  sh_events : exists evs, queue_holds (_event_queue (ep_net e)) evs /\
    omap report_of evs = v_reports v /\ omap packet_of evs = v_handed v
}.

Lemma log_one t payload n c' a b :
  log t payload n c' (with_sent (udp_sent n ++ [(a, b)]) n) = [mk_wire b t (_window c') payload].
Proof. unfold log. cbn. by rewrite drop_app_length. Qed.

Lemma log_none t payload n c' : log t payload n c' n = [].
Proof. unfold log. by rewrite drop_all. Qed.

(** One datagram leaves an endpoint. *)
Lemma shows_send e v t d :
  shows e v -> t <> invalid_packet_type ->
  (t = data_packet -> window_full (_window (ep_conn e)) = false) -> is_bytes d -> blen d <= 1480 ->
  exists c n b, send_packet (ep_conn e) t d (blen d) (ep_net e) = Ok (c, _last_send_seq (sent t (v_window v)), n) /\
    shows (mk_endpoint c n (ep_wire e ++ log t (if decide (t = data_packet) then d else []) (ep_net e) c n))
      (view_send t b (if decide (t = data_packet) then d else []) v).
Proof.
  intros [Hc Hw Hwi Hda Hev] Ht Hf Hd Hsz.
  destruct (send_packet_spec (ep_conn e) t d (ep_net e) Hc Hf Hd Hsz) as (c & b & E & Hs & Henc).
  assert (Hcw : conn_ok (with_window (sent t (_window (ep_conn e))) (ep_conn e))).
  { destruct Hc as (? & ? & ?). split; [by apply sent_ok | done]. }
  destruct (same_but_cipher_ok _ c Hcw Hs) as (Hc' & Hw' & _). cbn in Hw'. rewrite Hw in *.
  do 3 eexists. split; [exact E|]. rewrite log_one. split; cbn; try done.
  - by rewrite Hwi, Hw'.
  - intros p [Hp|Hp]%elem_of_app; [by apply Hda|]. apply list_elem_of_singleton in Hp as ->. cbn.
    rewrite Hw'. split_and!; [done | apply sent_ok; rewrite <- Hw; apply Hc | done].
Qed.

Lemma shows_ping e v p :
  shows e v -> shows (mk_endpoint (with_ping p (ep_conn e)) (ep_net e) (ep_wire e)) v.
Proof. intros [Hc Hw Hwi Hda Hev]. by split. Qed.

Lemma act_timeout_spec e v now :
  shows e v -> exists e', act_timeout now e = Ok e' /\
    (shows e' v \/ exists b, shows e' (view_send ping_packet b [] v)).
Proof.
  intros He. unfold act_timeout, check_timeout.
  set (p0 := if _last_ping_send_time _ =? 0 then _ else _). cbn zeta.
  pose proof (shows_ping e v p0 He) as He0.
  destruct (_ping_timeout p0 <? _).
  2: { eexists. split; [done|]. left. cbn. rewrite log_none, app_nil_r. exact He0. }
  destruct (_ping_retry_count p0 <=? _).
  { eexists. split; [done|]. left. cbn. rewrite log_none, app_nil_r. exact He0. }
  set (p1 := mk_ping _ _ _ _). set (c1 := with_ping p1 (with_ping p0 (ep_conn e))).
  destruct (shows_send (mk_endpoint c1 (ep_net e) (ep_wire e)) v ping_packet [])
    as (c & n & b & E & Hs); try done; [by apply (shows_ping _ _ p1 He0) | constructor |].
  change (blen []) with 0 in E. cbn [ep_conn ep_net] in E.
  unfold send_ping_packet, mbind, M_bind. cbn [ep_conn]. fold c1. rewrite E.
  eexists. split; [done|]. right. exists b. exact Hs.
Qed.

(** *** Events *)
Lemma reports_notify index l :
  omap report_of (notify_event index <$> l) = l /\ omap packet_of (notify_event index <$> l) = [].
Proof. induction l as [|[n b] l [IH1 IH2]]; [done|]. cbn in *. by rewrite IH1, IH2. Qed.

Lemma shows_events evs idx rs fresh seq payload reports handed :
  omap report_of evs = reports -> omap packet_of evs = handed ->
  let evs' := evs ++ (notify_event idx <$> rs) ++
    (if fresh : bool then [packet_event idx seq payload] else []) in
  omap report_of evs' = reports ++ rs /\
  omap packet_of evs' = handed ++ (if fresh then [(seq, payload)] else []).
Proof.
  intros <- <- evs'. subst evs'. rewrite !omap_app.
  destruct (reports_notify idx rs) as [-> ->]. destruct fresh; cbn; by rewrite ?app_nil_r.
Qed.

(** One datagram arrives: it is dropped, or processed, or processed and answered. *)
Lemma act_receive_spec e v p seq ack :
  shows e v -> no_wrap (v_window v) ->
  encodes (wp_data p) (header_of (wp_type p) (wp_window p)) (wp_payload p) ->
  window_ok (wp_window p) ->
  judge (v_window v) (header_of (wp_type p) (wp_window p)) = Some (seq, ack) \/
    judge (v_window v) (header_of (wp_type p) (wp_window p)) = None ->
  0 <= seq < limit -> _highest_acked_seq (v_window v) <= ack <= _last_send_seq (v_window v) ->
  exists e', act_receive (wp_data p) e = Ok e' /\
    match judge (v_window v) (header_of (wp_type p) (wp_window p)) with
    | None => shows e' v
    | Some _ =>
        let v' := view_recv (wp_type p) seq ack (mask_of (header_of (wp_type p) (wp_window p)))
          (wp_payload p) v in
        shows e' v' \/ exists b, shows e' (view_send ack_packet b [] v')
    end.
Proof.
  intros [Hc Hw Hwi Hda (evs & Hq & Hrep & Hhan)] Hnw Henc Hwp Hj Hseq Hack.
  destruct (read_raw_packet_spec (ep_conn e) (wp_data p) _ _ (ep_net e) evs Hc Henc
    (header_of_ok _ _ Hwp) Hq) as (s & Es & Hr). rewrite Hw in Hr.
  unfold act_receive. rewrite Es. cbn [mbind result_bind].
  destruct Hj as [Hj|Hj]; rewrite Hj in *.
  2: { destruct Hr as (c' & s' & E & Hs). rewrite E. eexists. split; [done|].
       rewrite log_none, app_nil_r. destruct (same_but_cipher_ok _ _ Hc Hs) as (Hc' & Hw' & _).
       split; cbn; try done; [by rewrite Hw' | eauto]. }
  destruct Hr as (c' & s' & q & out & E & Hw' & Hc' & _ & Hq' & Hans).
  { unfold limit in *. unfold in_u. lia. }
  { destruct Hnw. unfold limit in *. unfold in_u. lia. }
  { destruct Hnw. unfold limit in *. rewrite u32_small by (unfold in_u; lia). lia. }
  rewrite E. eexists. split; [done|]. unfold answer_of in Hans. cbn [h_type header_of] in *.
  set (v' := view_recv _ _ _ _ _ _).
  assert (Hev : exists evs', queue_holds q evs' /\ omap report_of evs' = v_reports v' /\
    omap packet_of evs' = v_handed v').
  { eexists. split; [exact Hq'|]. by apply shows_events. }
  destruct (answers (wp_type p) (_window c')).
  - destruct Hans as (b & -> & Hencb). right. exists b.
    unfold log. cbn [udp_sent with_events with_sent]. rewrite drop_app_length. cbn [fmap list_fmap snd].
    split; cbn [ep_conn ep_net ep_wire]; try done; [by rewrite Hwi, Hw' |].
    intros x [Hx|Hx]%elem_of_app; [by apply Hda|]. apply list_elem_of_singleton in Hx as ->. cbn.
    split_and!; [done | apply Hc' | done].
  - subst out. left. unfold log. cbn [udp_sent with_events with_sent].
    rewrite app_nil_r, drop_all, app_nil_r. by split.
Qed.

(** ** The invariant of the pair *)
Definition good (sa sb : Z) (a b : endpoint) : Prop :=
  exists va vb acca accb, shows a va /\ shows b vb /\ flow sa va vb acca /\ flow sb vb va accb.

Lemma good_swap sa sb a b : good sa sb a b -> good sb sa b a.
Proof. intros (va & vb & acca & accb & ? & ? & ? & ?). exists vb, va, accb, acca. done. Qed.

Lemma good_send sa sb va vb acca accb t bs d b e' :
  (t = data_packet -> window_full (v_window va) = false /\ _last_send_seq (v_window va) + 1 < limit) ->
  window_ok (v_window va) -> shows e' (view_send t bs d va) -> shows b vb ->
  flow sa va vb acca -> flow sb vb va accb -> good sa sb e' b.
Proof.
  intros Hf Hw He Hb Ha1 Ha2. exists (view_send t bs d va), vb, acca, accb. split_and!; [done | done | |].
  - apply send_flow_out; [apply Hw | done | apply (sn_no_wrap _ _ _ _ (fl_snap _ _ _ _ Ha2)) | done].
  - by apply send_flow_in; [apply Hw | ..].
Qed.

(** A recent datagram of the peer, as [act_receive_spec] wants it. *)
Lemma recent_judge sa sb va vb acca accb p :
  flow sa va vb acca -> flow sb vb va accb -> p ∈ v_wire vb -> recent (v_window va) p ->
  wp_type p <> invalid_packet_type -> 0 <= sb ->
  judge (v_window va) (header_of (wp_type p) (wp_window p)) =
    if (_last_seq_recvd (v_window va) <=? wp_seq p) && (_highest_acked_seq (v_window va) <=? wp_ack p)
    then Some (wp_seq p, wp_ack p) else None.
Proof.
  intros Ha Hb Hp [Hr1 Hr2] Ht Hsb.
  pose proof (sn_no_wrap _ _ _ _ (fl_snap _ _ _ _ Hb)) as Hwa.
  pose proof (sn_no_wrap _ _ _ _ (fl_snap _ _ _ _ Ha)) as Hwb.
  destruct (fl_wire _ _ _ _ Hb p Hp) as (Hs & _ & _). destruct (fl_acks _ _ _ _ Ha p Hp) as [Hk [Hnw _ _]].
  pose proof (fl_recvd _ _ _ _ Ha). pose proof (fl_recvd _ _ _ _ Hb). destruct Hwb.
  apply judge_spec; try done; [lia | | lia | lia].
  unfold wp_ack. destruct Hnw. lia.
Qed.

Lemma receive_good sa sb a b p :
  0 <= sb -> good sa sb a b -> p ∈ ep_wire b -> recent (_window (ep_conn a)) p ->
  exists a', act_receive (wp_data p) a = Ok a' /\ good sa sb a' b.
Proof.
  intros Hsb (va & vb & acca & accb & Ha & Hb & Hfa & Hfb) Hp Hrec.
  destruct (sh_data _ _ Hb p Hp) as (Henc & Hwp & Ht).
  rewrite (sh_window _ _ Ha) in Hrec. rewrite (sh_wire _ _ Hb) in Hp.
  pose proof (recent_judge sa sb va vb acca accb p Hfa Hfb Hp Hrec Ht Hsb) as Hj.
  pose proof (sn_no_wrap _ _ _ _ (fl_snap _ _ _ _ Hfb)) as Hnw.
  pose proof (sn_no_wrap _ _ _ _ (fl_snap _ _ _ _ Hfa)) as Hnwb.
  assert (Hwa : window_ok (v_window va)) by (rewrite <- (sh_window _ _ Ha); apply (sh_conn _ _ Ha)).
  destruct ((_last_seq_recvd (v_window va) <=? wp_seq p) && (_highest_acked_seq (v_window va) <=? wp_ack p)) eqn:Hcond.
  - apply andb_true_iff in Hcond as [Hs%Z.leb_le Hk%Z.leb_le].
    destruct (recv_nw sa sb va vb acca accb p Hfa Hfb Hp) as (_ & _ & Hle & Hsq & _).
    destruct (act_receive_spec a va p (wp_seq p) (wp_ack p) Ha Hnw Henc Hwp) as (a' & E & Hsh).
    { by left. } { destruct Hnw, Hnwb. lia. } { lia. }
    exists a'. split; [done|]. rewrite Hj in Hsh. set (v' := view_recv _ _ _ _ _ _) in Hsh.
    assert (Ho : flow sa v' vb acca) by (eapply recv_flow_out; eauto).
    assert (Hi : flow sb vb v' (accept (wp_type p) (wp_seq p) accb)).
    { eapply recv_flow_in; eauto. }
    destruct Hsh as [Hsh|(bs & Hsh)]; [by exists v', vb, acca, (accept (wp_type p) (wp_seq p) accb)|].
    eapply good_send; [| | exact Hsh | exact Hb | exact Ho | exact Hi]; [done|].
    apply (received_ok (wp_type p)); [done | |]; unfold in_u; destruct Hnw, Hnwb; unfold limit in *; lia.
  - destruct (act_receive_spec a va p (_last_seq_recvd (v_window va)) (_highest_acked_seq (v_window va))
      Ha Hnw Henc Hwp) as (a' & E & Hsh).
    { by right. } { destruct Hnw; lia. } { destruct Hnw. lia. }
    exists a'. split; [done|]. rewrite Hj in Hsh. by exists va, vb, acca, accb.
Qed.

Lemma timeout_good sa sb a b now :
  good sa sb a b -> exists a', act_timeout now a = Ok a' /\ good sa sb a' b.
Proof.
  intros (va & vb & acca & accb & Ha & Hb & Hfa & Hfb).
  destruct (act_timeout_spec a va now Ha) as (a' & E & Hsh). exists a'. split; [done|].
  destruct Hsh as [Hsh|(bs & Hsh)]; [by exists va, vb, acca, accb|].
  eapply good_send; eauto; [done|]. rewrite <- (sh_window _ _ Ha). apply (sh_conn _ _ Ha).
Qed.

Lemma send_good sa sb a b d :
  good sa sb a b -> is_bytes d -> blen d <= 1480 -> window_full (_window (ep_conn a)) = false ->
  _last_send_seq (_window (ep_conn a)) + 1 < limit ->
  exists a', act_send d a = Ok a' /\ good sa sb a' b.
Proof.
  intros (va & vb & acca & accb & Ha & Hb & Hfa & Hfb) Hd Hsz Hfull Hlim.
  destruct (shows_send a va data_packet d Ha) as (c & n & bs & E & Hsh); try done.
  eexists. split; [unfold act_send; by rewrite E|]. rewrite (sh_window _ _ Ha) in *.
  eapply good_send; eauto. rewrite <- (sh_window _ _ Ha). apply (sh_conn _ _ Ha).
Qed.

Lemma local_good sa sb a b a' : 0 <= sb -> good sa sb a b -> local_step a b a' -> good sa sb a' b.
Proof.
  intros Hsb Hg Hs. destruct Hs as [d a' Hd Hsz Hf Hl E | now a' E | p a' Hp Hr E].
  - destruct (send_good sa sb a b d Hg Hd Hsz Hf Hl) as (a2 & E2 & ?). rewrite E in E2. by simplify_eq.
  - destruct (timeout_good sa sb a b now Hg) as (a2 & E2 & ?). rewrite E in E2. by simplify_eq.
  - destruct (receive_good sa sb a b p Hsb Hg Hp Hr) as (a2 & E2 & ?). rewrite E in E2. by simplify_eq.
Qed.

Lemma connected_shows s r e :
  0 <= s < limit -> 0 <= r < limit -> connected s r e ->
  shows e (mk_view (set_initial_recv_sequence r (new_window s)) [] [] []).
Proof.
  intros Hs Hr [Hw Hq Hc Hev Hwi]. split; cbn; try done.
  - split; [|done]. rewrite Hw. unfold limit in *. apply fresh_window_ok; unfold in_u; lia.
  - rewrite Hwi. intros p Hp. by apply elem_of_nil in Hp.
  - by exists [].
Qed.

Lemma connected_flow sa sb :
  0 <= sa < limit -> 0 <= sb < limit ->
  flow sa (mk_view (set_initial_recv_sequence sb (new_window sa)) [] [] [])
          (mk_view (set_initial_recv_sequence sa (new_window sb)) [] [] []) [].
Proof.
  intros Ha Hb. split; cbn; try (intros; exfalso; by eapply elem_of_nil); try lia.
  - split; [split; cbn; lia | cbn; lia |]. exists 0. split; [done|].
    intros i Hi. rewrite Z.testbit_0_l. by intros ?%elem_of_nil.
  - constructor.
  - by rewrite Z.sub_diag.
Qed.

Lemma connected_good sa sb a b :
  0 <= sa < limit -> 0 <= sb < limit -> connected sa sb a -> connected sb sa b -> good sa sb a b.
Proof.
  intros Hsa Hsb Ha Hb. do 2 eexists. exists [], []. split_and!;
    [by apply (connected_shows sa sb) | by apply (connected_shows sb sa) | by apply connected_flow | by apply connected_flow].
Qed.

Lemma reachable_good sa sb x y :
  0 <= sa -> 0 <= sb -> good sa sb x.1 x.2 -> rtc step x y -> good sa sb y.1 y.2.
Proof.
  intros Hsa Hsb Hg Hr. induction Hr as [|x y z Hs _ IH]; [done|]. apply IH.
  destruct Hs as [a b a' Hl | a b b' Hl]; cbn in *; [by eapply local_good|].
  apply good_swap. eapply local_good; [done | by apply good_swap | done].
Qed.

(** What the application at [x] has been told of its packets, against what the one at
    [y] was given. *)
Definition truthful (s0 : Z) (x y : endpoint) : Prop :=
  exists evx evy,
    queue_holds (_event_queue (ep_net x)) evx /\ queue_holds (_event_queue (ep_net y)) evy /\
    let reports := omap report_of evx in
    let handed := omap packet_of evy in
    (reports.*1 = seqZ (s0 + 1) (Z.of_nat (length reports)) /\
    (forall n, (n, true) ∈ reports -> n ∈ handed.*1 \/ n ∈ ping_numbers (ep_wire x)) /\
    (forall n, (n, false) ∈ reports -> n ∉ handed.*1) /\
    StronglySorted Z.lt handed.*1 /\
    (forall n d, (n, d) ∈ handed -> exists p, p ∈ ep_wire x /\ wp_type p = data_packet /\
      wp_seq p = n /\ wp_payload p = d)).

Lemma flow_truthful s0 x y vx vy acc :
  shows x vx -> shows y vy -> flow s0 vx vy acc -> truthful s0 x y.
Proof.
  intros [_ _ Hwx _ (evx & Hqx & Hrx & _)] [_ _ _ _ (evy & Hqy & _ & Hhy)] Hf.
  exists evx, evy. split_and!; try done. rewrite Hrx, Hhy, Hwx.
  pose proof (fl_reports _ _ _ _ Hf) as Hrep. pose proof (fl_start _ _ _ _ Hf) as Hst.
  assert (Hlen : Z.of_nat (length (v_reports vx)) = _highest_acked_seq (v_window vx) - s0).
  { rewrite <- (length_fmap fst), Hrep, length_seqZ. lia. }
  split_and!; [by rewrite Hlen | | | apply Hf | apply Hf].
  - intros n Hn. by apply (fl_truth _ _ _ _ Hf), (fl_acc _ _ _ _ Hf) in Hn as [_ ?].
  - intros n Hn. exact (fl_truth _ _ _ _ Hf n false Hn).
Qed.


(** C4. the protocol code never stops.  In every reachable state of the same system, sending
    a datagram while the window is open, checking for a timeout at any time, and receiving
    any recent datagram of the peer all complete: no assertion fails (in particular the
    one on the number of acknowledgement bytes), no array is indexed out of its bounds,
    and an acknowledgement mask that was not sent is never consulted. *)
Theorem protocol_total (sa sb : Z) (a b a' b' : endpoint) :
  0 <= sa < limit -> 0 <= sb < limit ->
  connected sa sb a -> connected sb sa b -> rtc step (a, b) (a', b') ->
  (forall d, is_bytes d -> blen d <= 1480 -> window_full (_window (ep_conn a')) = false ->
    _last_send_seq (_window (ep_conn a')) + 1 < limit -> exists e, act_send d a' = Ok e) /\
  (forall now, exists e, act_timeout now a' = Ok e) /\
  (forall p, p ∈ ep_wire b' -> recent (_window (ep_conn a')) p ->
    exists e, act_receive (wp_data p) a' = Ok e).
Proof.
  intros Hsa Hsb Ha Hb Hr. pose proof (connected_good sa sb a b Hsa Hsb Ha Hb) as Hg.
  pose proof (reachable_good sa sb (a, b) (a', b') (proj1 Hsa) (proj1 Hsb) Hg Hr) as Hg'. cbn in Hg'.
  split_and!.
  - intros d Hd Hsz Hf Hl. destruct (send_good _ _ _ _ d Hg' Hd Hsz Hf Hl) as (e & ? & _). eauto.
  - intros now. destruct (timeout_good _ _ _ _ now Hg') as (e & ? & _). eauto.
  - intros p Hp Hrec. destruct (receive_good _ _ _ _ p (proj1 Hsb) Hg' Hp Hrec) as (e & ? & _). eauto.
Qed.
End delivery.

(** ** Runs *)
Inductive move : Type :=
  | Send (d : bytes)
  | Timeout (now : time)
  | Receive (k : nat).

Section run.
Context `{Machine, Prng, BlockCipher}.

(** [Receive k]: the network delivers the [k]-th datagram the other side sent. *)
Definition do_move (m : move) (a b : endpoint) : result endpoint :=
  match m with
  | Send d => act_send d a
  | Timeout now => act_timeout now a
  | Receive k => p ← of_option out_of_bounds (ep_wire b !! k); act_receive (wp_data p) a
  end.

(** [true] moves the first endpoint. *)
Fixpoint run (ms : list (bool * move)) (ab : endpoint * endpoint) : result (endpoint * endpoint) :=
  match ms with
  | [] => Ok ab
  | (true, m) :: ms => a ← do_move m ab.1 ab.2; run ms (a, ab.2)
  | (false, m) :: ms => b ← do_move m ab.2 ab.1; run ms (ab.1, b)
  end.

(** The assumptions of [local_step], as a test. *)
Definition allowed (m : move) (a b : endpoint) : bool :=
  match m with
  | Send d => forallb (fun x => (0 <=? x) && (x <? 2 ^ 8)) d && (blen d <=? 1480) &&
      negb (window_full (_window (ep_conn a))) && (_last_send_seq (_window (ep_conn a)) + 1 <? limit)
  | Timeout _ => true
  | Receive k => match ep_wire b !! k with
                 | Some p => (_last_seq_recvd (_window (ep_conn a)) - 2017 <? wp_seq p) &&
                             (_highest_acked_seq (_window (ep_conn a)) - 993 <? wp_ack p)
                 | None => false
                 end
  end.

Fixpoint run_allowed (ms : list (bool * move)) (ab : endpoint * endpoint) : bool :=
  match ms with
  | [] => true
  | (true, m) :: ms => allowed m ab.1 ab.2 &&
      match do_move m ab.1 ab.2 with Ok a => run_allowed ms (a, ab.2) | Fault _ => false end
  | (false, m) :: ms => allowed m ab.2 ab.1 &&
      match do_move m ab.2 ab.1 with Ok b => run_allowed ms (ab.1, b) | Fault _ => false end
  end.

Lemma do_move_step m a b a' : allowed m a b = true -> do_move m a b = Ok a' -> local_step a b a'.
Proof.
  destruct m as [d|now|k]; cbn; intros Ha E.
  - repeat apply andb_true_iff in Ha as [Ha ?]. apply step_send with d; try done.
    + apply Forall_forall. intros x Hx.
      rewrite forallb_forall in Ha. specialize (Ha x Hx). unfold in_u. lia.
    + lia.
    + by apply negb_true_iff.
    + lia.
  - by apply step_timeout with now.
  - destruct (ep_wire b !! k) as [p|] eqn:Hp; [|done]. cbn in E.
    apply step_receive with p; [by eapply list_elem_of_lookup_2 | | done]. split; lia.
Qed.

Lemma run_step ms ab ab' : run_allowed ms ab = true -> run ms ab = Ok ab' -> rtc step ab ab'.
Proof.
  revert ab. induction ms as [|[[] m] ms IH]; intros [a b]; cbn [run run_allowed fst snd];
    intros Ha E; [by simplify_eq | |]; apply andb_true_iff in Ha as [Ha Hr].
  - destruct (do_move m a b) as [a'|] eqn:Em; [|done]. cbn in E.
    eapply rtc_l; [apply step_left; by eapply do_move_step | by apply IH].
  - destruct (do_move m b a) as [b'|] eqn:Em; [|done]. cbn in E.
    eapply rtc_l; [apply step_right; by eapply do_move_step | by apply IH].
Qed.
End run.

(** A fresh connection on a socket with nothing to do. *)
Definition fresh_endpoint (s r index : Z) : endpoint :=
  mk_endpoint (with_window (set_initial_recv_sequence r (new_window s))
      (new_torque_connection 77 s index true))
    (mk_net new_random_generator empty_queue [] 0 []) [].

Lemma fresh_endpoint_connected s r index : connected s r (fresh_endpoint s r index).
Proof. split; try done. apply empty_queue_holds. Qed.

(** What is in the queue, oldest first. *)
Fixpoint queue_list (fuel : nat) (q : socket_event_queue) : list torque_socket_event :=
  match fuel with
  | O => []
  | S fuel =>
      match dequeue q with
      | Ok (p, q') => match q_events q !! p with Some e => e :: queue_list fuel q' | None => [] end
      | Fault _ => []
      end
  end.

(** Three packets, the second lost, acknowledged by a packet of the peer. *)
Definition lossy_run : list (bool * move) :=
  [(true, Send [1; 2; 3]); (true, Send [4]); (true, Send [5; 6]);
   (false, Receive 0); (false, Receive 2); (false, Receive 0); (false, Send [9]); (true, Receive 0)].

Example lossy_run_reports :
  match run lossy_run (fresh_endpoint 1000 2000 1, fresh_endpoint 2000 1000 1) with
  | Ok (a, b) => omap report_of (queue_list 20 (_event_queue (ep_net a))) =
                   [(1001, true); (1002, false); (1003, true)] /\
                 omap packet_of (queue_list 20 (_event_queue (ep_net b))) =
                   [(1001, [1; 2; 3]); (1003, [5; 6])]
  | Fault _ => False
  end.
Proof. vm_compute. split; reflexivity. Qed.

(** A packet overtaken by a ping with its number: the receiver drops the data but sets its
    bit, and the sender is told that it was delivered. *)
Example reported_but_not_handed :
  match run [(true, Send [1; 2; 3]); (true, Timeout 1); (true, Timeout 6000);
             (false, Receive 1); (false, Receive 0); (false, Send [9]); (true, Receive 1)]
        (fresh_endpoint 1000 2000 1, fresh_endpoint 2000 1000 1) with
  | Ok (a, b) => omap report_of (queue_list 20 (_event_queue (ep_net a))) = [(1001, true)] /\
                 omap packet_of (queue_list 20 (_event_queue (ep_net b))) = []
  | Fault _ => False
  end.
Proof. vm_compute. split; reflexivity. Qed.

Definition is_ok {A} (r : result A) : bool := match r with Ok _ => true | Fault _ => false end.

Lemma is_ok_spec {A} (r : result A) : is_ok r = true -> exists x, r = Ok x.
Proof. destruct r; [eauto | done]. Qed.

Lemma lossy_run_ok :
  exists ab, run lossy_run (fresh_endpoint 1000 2000 1, fresh_endpoint 2000 1000 1) = Ok ab.
Proof. apply is_ok_spec. vm_compute. reflexivity. Qed.

Lemma lossy_run_allowed :
  run_allowed lossy_run (fresh_endpoint 1000 2000 1, fresh_endpoint 2000 1000 1) = true.
Proof. vm_compute. reflexivity. Qed.


Lemma protocol_total_witness :
  exists a b, run lossy_run (fresh_endpoint 1000 2000 1, fresh_endpoint 2000 1000 1) = Ok (a, b) /\
    (forall now, exists e, act_timeout now a = Ok e) /\
    (forall p, p ∈ ep_wire b -> recent (_window (ep_conn a)) p -> exists e, act_receive (wp_data p) a = Ok e).
Proof.
  destruct lossy_run_ok as ([a b] & E). exists a, b. split; [exact E|].
  refine (proj2 (protocol_total 1000 2000 (fresh_endpoint 1000 2000 1) (fresh_endpoint 2000 1000 1) a b _ _ _ _ _)).
  - unfold limit. lia.
  - unfold limit. lia.
  - apply fresh_endpoint_connected.
  - apply fresh_endpoint_connected.
  - exact (run_step lossy_run _ _ lossy_run_allowed E).
Defined.
