(* ===== verification/HashTableSpec.v ===== *)
(** * Hash tables refine association lists

    Total correctness of insertion and lookup in core/hash_table_flat.h on tables nothing
    was removed from, and what removal does guarantee: it terminates and keeps every other entry
    in the table (though not where [find] looks for it: see [remove_loses_entry]). *)
From Stdlib Require Import Sorted.
From S2P Require Import Prelude HashTable.
#[local] Open Scope Z_scope.

Section spec.
Context {K V : Type} `{EqDecision K} (hash : K -> Z).

Notation entry := (option (K * V)).
Notation table := (list entry).

Definition entries (t : table) : list (K * V) := omap id t.

Definition filled (t : table) (i : Z) : Prop := exists kv, t !! Z.to_nat i = Some (Some kv).
Definition hole (t : table) (i : Z) : Prop := t !! Z.to_nat i = Some None.

(** The bucket a key belongs to. *)
Definition home (size : Z) (k : K) : Z := if hash k <? size then 0 else hash k mod size.

Lemma home_range size k : 0 < size -> 0 <= home size k < size.
Proof. intros Hs. unfold home. destruct (_ <? _); [lia | by apply Z.mod_pos_bound]. Qed.

Lemma new_counter_home size k :
  0 < size -> new_counter (hash k) size = Ok (mk_counter (home size k) size).
Proof. intros Hs. unfold new_counter. by destruct (Z.ltb_spec 0 size); [|lia]. Qed.

Lemma counter_incr_mod i size :
  0 <= i < size -> size < 2 ^ 32 -> counter_incr (mk_counter i size) = mk_counter ((i + 1) mod size) size.
Proof.
  intros Hi Hs. unfold counter_incr. cbn. rewrite u32_small by (unfold in_u; lia). f_equal.
  destruct (Z.leb_spec size (i + 1)).
  - replace (i + 1) with size by lia. by rewrite Z.mod_same by lia.
  - by rewrite Z.mod_small by lia.
Qed.

Lemma slot_filled_or_hole (t : table) i :
  0 <= i < Z.of_nat (length t) ->
  (exists kv, slot t i = Ok (Some kv) /\ t !! Z.to_nat i = Some (Some kv)) \/ slot t i = Ok None /\ hole t i.
Proof.
  intros Hi. unfold slot, hole. destruct (Z.leb_spec 0 i); [|lia].
  destruct (lookup_lt_is_Some_2 t (Z.to_nat i)) as [[kv|] E]; [lia | |]; rewrite E; cbn; eauto.
Qed.

Lemma slot_hole (t : table) i : 0 <= i -> hole t i -> slot t i = Ok None.
Proof. intros Hi Hh. unfold slot. destruct (Z.leb_spec 0 i); [|lia]. by rewrite Hh. Qed.

Lemma cyclic_step s size j : 0 < size -> ((s + 1) mod size + j) mod size = (s + (1 + j)) mod size.
Proof. intros Hs. rewrite Zplus_mod_idemp_l. f_equal. lia. Qed.

(** *** Entries of a table *)
Lemma entries_insert (t : table) i e e' :
  t !! i = Some e' ->
  Permutation (option_list e' ++ entries (<[i := e]> t)) (option_list e ++ entries t).
Proof.
  intros Hi. rewrite <- (take_drop_middle t i e' Hi) at 2.
  rewrite insert_take_drop by (by eapply lookup_lt_Some). unfold entries. rewrite !omap_app. cbn.
  destruct e, e'; cbn; rewrite <- ?Permutation_middle; try done. apply Permutation_swap.
Qed.

Lemma entries_lookup (t : table) kv : kv ∈ entries t <-> exists i, t !! i = Some (Some kv).
Proof.
  unfold entries. rewrite list_elem_of_omap. split.
  - intros (e & He & E). cbn in E. subst e. by apply list_elem_of_lookup_1.
  - intros [i Hi]. exists (Some kv). split; [by eapply list_elem_of_lookup_2 | done].
Qed.

Lemma entries_replicate n : entries (replicate n None) = [].
Proof. induction n; [done|]. done. Qed.

(** A table with fewer entries than buckets has a hole, within one turn of any bucket. *)
Lemma entries_hole (t : table) :
  (length (entries t) < length t)%nat -> exists i, (i < length t)%nat /\ hole t (Z.of_nat i).
Proof.
  unfold hole. induction t as [|[kv|] t IH]; cbn; intros Hl; [lia | |].
  - destruct IH as (i & Hi & Hh); [unfold entries in *; cbn in *; lia|]. exists (S i).
    split; [lia|]. rewrite Nat2Z.id in *. done.
  - exists 0%nat. split; [lia | done].
Qed.

Lemma hole_distance (t : table) s :
  (length (entries t) < length t)%nat -> 0 <= s < Z.of_nat (length t) ->
  exists d, 0 <= d < Z.of_nat (length t) /\ hole t ((s + d) mod Z.of_nat (length t)).
Proof.
  intros Hl Hs. destruct (entries_hole t Hl) as (i & Hi & Hh).
  exists ((Z.of_nat i - s) mod Z.of_nat (length t)). split; [apply Z.mod_pos_bound; lia|].
  rewrite Zplus_mod_idemp_r. replace (s + (Z.of_nat i - s)) with (Z.of_nat i) by lia.
  by rewrite Z.mod_small by lia.
Qed.

(** *** The probing loops *)
Lemma probe_spec (t : table) size fuel s d :
  size = Z.of_nat (length t) -> size < 2 ^ 32 -> 0 <= s < size ->
  0 <= d <= Z.of_nat fuel -> hole t ((s + d) mod size) ->
  exists j, 0 <= j <= d /\
    probe fuel t (mk_counter s size) = Ok (mk_counter ((s + j) mod size) size) /\
    hole t ((s + j) mod size) /\ forall j', 0 <= j' < j -> filled t ((s + j') mod size).
Proof.
  intros Hsz Hlim. revert s d. induction fuel as [|fuel IH]; intros s d Hs Hd Hh.
  all: destruct (slot_filled_or_hole t s) as [(kv & Es & Ht)|[Es Ht]]; [lia | |];
    cbn [probe _index]; rewrite Es; cbn [mbind result_bind].
  - replace d with 0 in Hh by lia. unfold hole in Hh. rewrite Z.add_0_r, Z.mod_small in Hh by lia. congruence.
  - exists 0. rewrite Z.add_0_r, Z.mod_small by lia. split_and!; try done; lia.
  - destruct (decide (d = 0)) as [->|].
    { unfold hole in Hh. rewrite Z.add_0_r, Z.mod_small in Hh by lia. congruence. }
    rewrite counter_incr_mod by lia.
    destruct (IH ((s + 1) mod size) (d - 1)) as (j & Hj & -> & Hhj & Hfj).
    { apply Z.mod_pos_bound. lia. } { lia. }
    { rewrite cyclic_step by lia. by replace (s + (1 + (d - 1))) with (s + d) by lia. }
    rewrite cyclic_step in Hhj |- * by lia. exists (1 + j). split_and!; [lia | lia | done | done |].
    intros j' Hj'. destruct (decide (j' = 0)) as [->|].
    { rewrite Z.add_0_r, Z.mod_small by lia. by exists kv. }
    specialize (Hfj (j' - 1) ltac:(lia)). rewrite cyclic_step in Hfj by lia.
    by replace (s + (1 + (j' - 1))) with (s + j') in Hfj by lia.
  - exists 0. rewrite Z.add_0_r, Z.mod_small by lia. split_and!; try done; lia.
Qed.

Lemma find_loop_spec (t : table) size fuel s d k nf :
  size = Z.of_nat (length t) -> size < 2 ^ 32 -> 0 <= s < size ->
  0 <= d <= Z.of_nat fuel -> hole t ((s + d) mod size) ->
  exists i, find_loop fuel k t (mk_counter s size) nf = Ok i /\
    ((0 <= i < size /\ exists v, t !! Z.to_nat i = Some (Some (k, v))) \/
     (i = nf /\ exists j, 0 <= j /\ hole t ((s + j) mod size) /\
       forall j', 0 <= j' < j -> exists k' v, t !! Z.to_nat ((s + j') mod size) = Some (Some (k', v)) /\ k' <> k)).
Proof.
  intros Hsz Hlim. revert s d. induction fuel as [|fuel IH]; intros s d Hs Hd Hh.
  all: destruct (slot_filled_or_hole t s) as [([k' v] & Es & Ht)|[Es Ht]]; [lia | |];
    cbn [find_loop _index]; rewrite Es; cbn [mbind result_bind].
  - replace d with 0 in Hh by lia. unfold hole in Hh. rewrite Z.add_0_r, Z.mod_small in Hh by lia. congruence.
  - exists nf. split; [done|]. right. split; [done|]. exists 0. rewrite Z.add_0_r, Z.mod_small by lia.
    split_and!; try done; lia.
  - destruct (decide (k' = k)) as [->|Hne].
    { exists s. split; [done|]. left. split; [done | by exists v]. }
    destruct (decide (d = 0)) as [->|].
    { unfold hole in Hh. rewrite Z.add_0_r, Z.mod_small in Hh by lia. congruence. }
    rewrite counter_incr_mod by lia.
    destruct (IH ((s + 1) mod size) (d - 1)) as (i & -> & Hi).
    { apply Z.mod_pos_bound. lia. } { lia. }
    { rewrite cyclic_step by lia. by replace (s + (1 + (d - 1))) with (s + d) by lia. }
    exists i. split; [done|]. destruct Hi as [?|(-> & j & Hj & Hhj & Hfj)]; [by left | right].
    split; [done|]. rewrite cyclic_step in Hhj by lia. exists (1 + j). split_and!; [lia | done |].
    intros j' Hj'. destruct (decide (j' = 0)) as [->|].
    { rewrite Z.add_0_r, Z.mod_small by lia. by exists k', v. }
    specialize (Hfj (j' - 1) ltac:(lia)). rewrite cyclic_step in Hfj by lia.
    by replace (s + (1 + (j' - 1))) with (s + j') in Hfj by lia.
  - exists nf. split; [done|]. right. split; [done|]. exists 0. rewrite Z.add_0_r, Z.mod_small by lia.
    split_and!; try done; lia.
Qed.

(** ** Reachability: from the home bucket of an entry to the entry there is no hole. *)
Definition reachable (t : table) : Prop :=
  let size := Z.of_nat (length t) in
  forall i kv, 0 <= i < size -> t !! Z.to_nat i = Some (Some kv) ->
    forall j, 0 <= j < (i - home size kv.1) mod size -> filled t ((home size kv.1 + j) mod size).

Lemma insert_in_table_spec k v (t : table) size :
  size = Z.of_nat (length t) -> size < 2 ^ 32 -> (length (entries t) < length t)%nat ->
  exists t' i, _insert_in_table hash k v t size = Ok (t', i) /\ length t' = length t /\
    Permutation (entries t') ((k, v) :: entries t) /\ (reachable t -> reachable t') /\
    0 <= i < size /\ t' !! Z.to_nat i = Some (Some (k, v)).
Proof.
  intros Hsz Hlim Hl. assert (Hpos : 0 < size) by lia. unfold _insert_in_table.
  rewrite new_counter_home by done. cbn [mbind result_bind].
  pose proof (home_range size k Hpos) as Hh.
  destruct (hole_distance t (home size k) Hl) as (d & Hd & Hhd); [lia|]. rewrite <- Hsz in *.
  destruct (probe_spec t size (length t) (home size k) d) as (j & Hj & -> & Hhj & Hfj); try done; [lia|].
  cbn [mbind result_bind _index].
  set (i := (home size k + j) mod size) in *.
  assert (Hi : 0 <= i < size) by (apply Z.mod_pos_bound; lia).
  eexists _, i. split; [done|]. split; [apply length_insert|]. split_and!; [| | lia | lia |].
  - pose proof (entries_insert t (Z.to_nat i) (Some (k, v)) None Hhj) as Hp. done.
  - intros Hr. unfold reachable. rewrite length_insert, <- Hsz. intros i' kv Hi' Hlk j' Hj'.
    assert (Hmono : forall x, filled t x -> filled (<[Z.to_nat i := Some (k, v)]> t) x).
    { intros x [kv' Hx]. unfold filled. rewrite list_lookup_insert. case_decide; eauto. }
    rewrite list_lookup_insert in Hlk. case_decide as Hd'.
    + destruct Hd' as [Hii _]. assert (i' = i) as -> by lia. injection Hlk as <-. cbn in *.
      apply Hmono, Hfj. split; [lia|].
      enough ((i - home size k) mod size = j) by lia. unfold i.
      rewrite Zminus_mod_idemp_l. replace (home size k + j - home size k) with j by lia.
      apply Z.mod_small. lia.
    + apply Hmono. unfold reachable in Hr. rewrite <- Hsz in Hr. by apply (Hr i').
  - apply list_lookup_insert_eq. lia.
Qed.

Lemma reachable_empty n : reachable (replicate n None).
Proof. intros i kv Hi Hlk. by apply lookup_replicate in Hlk as [? _]. Qed.

Lemma rehash_spec (old t : table) size :
  size = Z.of_nat (length t) -> size < 2 ^ 32 ->
  (length (entries old) + length (entries t) < length t)%nat ->
  exists t', rehash hash old t size = Ok t' /\ length t' = length t /\
    Permutation (entries t') (entries old ++ entries t) /\ (reachable t -> reachable t').
Proof.
  revert t. induction old as [|[[k v]|] old IH]; intros t Hsz Hlim Hl; cbn [rehash].
  - exists t. done.
  - change (entries (Some (k, v) :: old)) with ((k, v) :: entries old) in *. cbn [length] in Hl.
    destruct (insert_in_table_spec k v t size) as (t1 & i & -> & Hl1 & Hp1 & Hr1 & _); try done; [lia|].
    cbn [mbind result_bind]. pose proof (Permutation_length Hp1) as Hpl. cbn in Hpl.
    destruct (IH t1) as (t2 & -> & Hl2 & Hp2 & Hr2); try done; [congruence | lia |].
    exists t2. split_and!; [done | congruence | | auto].
    rewrite Hp2, Hp1. cbn. by rewrite Permutation_middle.
  - by apply IH.
Qed.

(** ** The invariant of a table, and of one that nothing was removed from *)
Record table_sane (h : hash_table_flat K V) : Prop := {
  ts_size : _table_size h = Z.of_nat (length (_table h));
  ts_prime : _table_size h = 0 \/ _table_size h ∈ primes;
  ts_count : _entry_count h = Z.of_nat (length (entries (_table h)));
  ts_threshold : _resize_threshold h = Z.shiftr (_table_size h) 1;
  ts_load : _entry_count h <= _resize_threshold h
}.

Record table_ok (h : hash_table_flat K V) : Prop := {
  tb_sane : table_sane h;
  tb_bound : _table_size h <= Z.max 5 (6 * _entry_count h + 3);
  tb_reachable : reachable (_table h)
}.

Lemma prime_bounds p : p ∈ primes -> 5 <= p < 2 ^ 32.
Proof.
  intros Hp. assert (Forall (fun p => 5 <= p < 2 ^ 32) primes) as Hf by (unfold primes; repeat constructor; lia).
  rewrite Forall_forall in Hf. apply Hf. by apply list_elem_of_In.
Qed.

(** The next size has more than twice the room of the threshold. *)
Lemma next_prime_room n p :
  n = 0 \/ n ∈ primes -> 0 <= n < 2 ^ 31 -> next_larger_hash_prime n = Ok p ->
  Z.shiftr n 1 < Z.shiftr p 1 /\ p <= Z.max 5 (3 * n) /\ p ∈ primes.
Proof.
  intros Hn Hlt E.
  enough ((Z.shiftr n 1 < Z.shiftr p 1 /\ p <= Z.max 5 (3 * n)) /\ p ∈ primes) by tauto. split.
  - destruct Hn as [->|Hn]; [vm_compute in E; injection E as <-; done|].
    unfold primes in Hn. repeat (apply elem_of_cons in Hn as [->|Hn];
      [(exfalso; lia) || (vm_compute in E; injection E as <-; done)|]). by apply elem_of_nil in Hn.
  - destruct (next_larger_hash_prime_spec n) as (q & E' & _ & Hq & _); [lia | congruence].
Qed.

Lemma table_room h : table_sane h -> 0 < _table_size h -> (length (entries (_table h)) < length (_table h))%nat.
Proof.
  intros [Hs _ Hc Ht Hl] Hpos. rewrite Z.shiftr_div_pow2 in Ht by lia. rewrite Hc, Ht, Hs in Hl.
  change (2 ^ 1) with 2 in Hl. zlia.
Qed.

Lemma _init_ok : table_ok (_init 0).
Proof. split; [split; try done; by left | done | done]. Qed.

(** The first half of [_insert]: a table with room for one more entry. *)
Definition make_room (h : hash_table_flat K V) : result (hash_table_flat K V) :=
  if _resize_threshold h <=? _entry_count h then
    new_size ← next_larger_hash_prime (_table_size h);
    let new_threshold := Z.shiftr new_size 1 in
    _ ← require (_entry_count h <? new_threshold) assertion_failed;
    new_table ← rehash hash (_table h) (_alloc_table new_size) new_size;
    Ok (mk_table new_table (_entry_count h) new_size new_threshold)
  else Ok h.

Lemma make_room_sane h :
  table_sane h -> _table_size h < 2 ^ 31 ->
  exists h', make_room h = Ok h' /\ table_sane h' /\ _table_size h' ∈ primes /\
    Permutation (entries (_table h')) (entries (_table h)) /\
    _entry_count h' = _entry_count h /\ _entry_count h' < _resize_threshold h' /\
    (table_ok h -> table_ok h').
Proof.
  intros Hok Hlt. pose proof Hok as [Hs Hp Hc Ht Hl]. unfold make_room.
  destruct (Z.leb_spec (_resize_threshold h) (_entry_count h)).
  2: { exists h. split_and!; try done. destruct Hp as [Hp|]; [|done].
       rewrite Hp in Ht. change (Z.shiftr 0 1) with 0 in Ht. lia. }
  destruct (next_larger_hash_prime_spec (_table_size h)) as (p & E & Hnp & Hpp & _); [lia|].
  rewrite E. cbn [mbind result_bind].
  destruct (next_prime_room (_table_size h) p Hp ltac:(lia) E) as (Hroom & Hp3 & _). pose proof (prime_bounds p Hpp) as Hpb.
  destruct (Z.ltb_spec (_entry_count h) (Z.shiftr p 1)); [|lia]. cbn [require mbind result_bind].
  destruct (rehash_spec (_table h) (_alloc_table p) p) as (t' & -> & Hl' & Hp' & Hr').
  { unfold _alloc_table. rewrite length_replicate. lia. } { lia. }
  { unfold _alloc_table. rewrite entries_replicate, length_replicate. cbn [length].
    rewrite Z.shiftr_div_pow2 in * by lia. zlia. }
  unfold _alloc_table in *. rewrite entries_replicate, app_nil_r in Hp'. rewrite length_replicate in Hl'.
  assert (Hsane : table_sane (mk_table t' (_entry_count h) p (Z.shiftr p 1))).
  { split; cbn; try done; [lia | by right | by rewrite Hp' | lia]. }
  eexists. split; [done|]. split_and!; try done.
  intros [_ Hbd _]. split; [done | | apply Hr', reachable_empty]. cbn.
  rewrite Z.shiftr_div_pow2 in Ht by lia. destruct Hp as [Hp|Hp%prime_bounds]; zlia.
Qed.

Lemma insert_sane k v h :
  table_sane h -> _table_size h < 2 ^ 31 ->
  exists h' i, _insert hash k v h = Ok (h', i) /\ table_sane h' /\ (table_ok h -> table_ok h') /\
    Permutation (entries (_table h')) ((k, v) :: entries (_table h)) /\
    _entry_count h' = _entry_count h + 1 /\ _value h' i = Some v.
Proof.
  intros Hok Hlt. destruct (make_room_sane h Hok Hlt) as (h1 & E1 & Hok1 & Hpr & Hp1 & Hc1 & Hlt1 & Himp).
  unfold _insert. fold (make_room h). rewrite E1. cbn [mbind result_bind].
  pose proof (prime_bounds _ Hpr) as Hb. pose proof Hok1 as [Hs _ Hc Ht Hl].
  destruct (insert_in_table_spec k v (_table h1) (_table_size h1)) as (t' & i & E & Hl' & Hp' & Hr' & Hi & Hlk).
  { done. } { lia. } { apply table_room; [done | lia]. }
  rewrite E. cbn [mbind result_bind].
  assert (Hbnd : _entry_count h1 + 1 < 2 ^ 32).
  { rewrite Z.shiftr_div_pow2 in Ht by lia. zlia. }
  rewrite u32_small by (unfold in_u; lia).
  assert (Hsane : table_sane (mk_table t' (_entry_count h1 + 1) (_table_size h1) (_resize_threshold h1))).
  { split; cbn; try done; [lia | by right | | lia]. rewrite Hp'. cbn. lia. }
  eexists _, i. split; [done|]. split_and!; [done | | | |].
  - intros [_ Hbd Hr]%Himp. split; [done | cbn; lia | by apply Hr'].
  - cbn. by rewrite Hp', Hp1.
  - cbn. lia.
  - unfold _value. cbn. destruct (Z.ltb_spec i (_table_size h1)); [by rewrite Hlk | lia].
Qed.

Lemma insert_ok k v h :
  table_ok h -> _table_size h < 2 ^ 31 ->
  exists h' i, _insert hash k v h = Ok (h', i) /\ table_ok h' /\
    Permutation (entries (_table h')) ((k, v) :: entries (_table h)) /\
    _entry_count h' = _entry_count h + 1 /\ _value h' i = Some v.
Proof.
  intros Hok Hlt. destruct (insert_sane k v h (tb_sane h Hok) Hlt) as (h' & i & E & _ & Himp & H').
  exists h', i. split; [done|]. split; [by apply Himp | done].
Qed.

(** A key found is an entry; in a table that nothing was removed from, a key that is not
    found is not in the table. *)
Lemma find_sane k h :
  table_sane h ->
  exists i, _find hash k h = Ok i /\
    ((exists v, _value h i = Some v /\ (k, v) ∈ entries (_table h) /\ 0 <= i /\
       _table h !! Z.to_nat i = Some (Some (k, v))) \/
     (_value h i = None /\ (reachable (_table h) -> forall v, (k, v) ∉ entries (_table h)))).
Proof.
  intros Hok. pose proof Hok as [Hs Hp _ _ _]. unfold _find.
  destruct (Z.eqb_spec (_table_size h) 0) as [Hz|Hz].
  { exists 0. split; [done|]. right. unfold _value. rewrite Hz. split; [done|].
    intros _ v Hv. destruct (_table h); [by apply elem_of_nil in Hv | cbn in Hs; lia]. }
  assert (Hpos : 0 < _table_size h) by lia.
  assert (Hlim : _table_size h < 2 ^ 32) by (destruct Hp as [|Hp]; [lia | by apply prime_bounds]).
  rewrite new_counter_home by done. cbn [mbind result_bind].
  set (size := _table_size h) in *. set (t := _table h) in *.
  pose proof (home_range size k Hpos) as Hh.
  destruct (hole_distance t (home size k)) as (d & Hd & Hhd); [by apply table_room | lia |].
  rewrite <- Hs in *.
  destruct (find_loop_spec t size (length t) (home size k) d k size) as (i & -> & Hi); try done; [lia|].
  exists i. split; [done|]. unfold _value. fold size t.
  destruct Hi as [(Hi & v & Hlk)|(-> & j & Hj & Hhj & Hfj)].
  - left. exists v. destruct (Z.ltb_spec i size); [|lia]. rewrite Hlk. split_and!; [done | | lia | done].
    apply entries_lookup. eauto.
  - right. destruct (Z.ltb_spec size size); [lia|]. split; [done|].
    intros Hr v [n Hn]%entries_lookup.
    pose proof (lookup_lt_Some _ _ _ Hn) as Hnl.
    set (dn := (Z.of_nat n - home size k) mod size).
    assert (Hdn : (home size k + dn) mod size = Z.of_nat n).
    { unfold dn. rewrite Zplus_mod_idemp_r. replace (home size k + (Z.of_nat n - home size k)) with (Z.of_nat n) by lia.
      apply Z.mod_small. lia. }
    destruct (decide (dn < j)) as [Hlt|Hge].
    + destruct (Hfj dn) as (k' & v' & Hlk & Hne).
      { split; [apply Z.mod_pos_bound; lia | done]. }
      rewrite Hdn, Nat2Z.id in Hlk. congruence.
    + destruct (decide (j = dn)) as [->|].
      { unfold hole in Hhj. rewrite Hdn, Nat2Z.id in Hhj. congruence. }
      unfold reachable in Hr. rewrite <- Hs in Hr.
      destruct (Hr (Z.of_nat n) (k, v) ltac:(lia)) with (j := j) as [kv Hkv];
        [by rewrite Nat2Z.id | cbn; fold dn; lia |].
      cbn in Hkv. unfold hole in Hhj. congruence.
Qed.

Lemma find_ok k h :
  table_ok h ->
  exists i, _find hash k h = Ok i /\
    ((exists v, _value h i = Some v /\ (k, v) ∈ entries (_table h)) \/
     (_value h i = None /\ forall v, (k, v) ∉ entries (_table h))).
Proof.
  intros [Hok _ Hr]. destruct (find_sane k h Hok) as (i & E & [(v & Hv & Hin & _)|[Hv Hno]]); exists i; eauto 10.
Qed.

(** ** A table is a finite map *)
Fixpoint insert_all (kvs : list (K * V)) (h : hash_table_flat K V) : result (hash_table_flat K V) :=
  match kvs with
  | [] => Ok h
  | (k, v) :: kvs => '(h, _) ← _insert hash k v h; insert_all kvs h
  end.

Lemma insert_all_ok kvs h :
  table_ok h -> _entry_count h + Z.of_nat (length kvs) <= 2 ^ 28 ->
  exists h', insert_all kvs h = Ok h' /\ table_ok h' /\
    Permutation (entries (_table h')) (kvs ++ entries (_table h)) /\
    _entry_count h' = _entry_count h + Z.of_nat (length kvs).
Proof.
  revert h. induction kvs as [|[k v] kvs IH]; intros h Hok Hl; cbn [insert_all length] in *.
  { exists h. split_and!; try done. lia. }
  pose proof (tb_bound _ Hok). pose proof (ts_count _ (tb_sane _ Hok)).
  destruct (insert_ok k v h Hok) as (h1 & i & -> & Hok1 & Hp1 & Hc1 & _); [lia|].
  cbn [mbind result_bind]. destruct (IH h1 Hok1) as (h2 & -> & Hok2 & Hp2 & Hc2); [lia|].
  exists h2. split_and!; [done | done | | lia]. rewrite Hp2, Hp1. cbn. by rewrite Permutation_middle.
Qed.

(** The table after insertions *)
Lemma insert_all_find (kvs : list (K * V)) :
  NoDup kvs.*1 -> Z.of_nat (length kvs) <= 2 ^ 28 ->
  exists h, insert_all kvs (_init 0) = Ok h /\ _entry_count h = Z.of_nat (length kvs) /\
    forall k, exists r, find_value hash k h = Ok r /\ forall v, r = Some v <-> (k, v) ∈ kvs.
Proof.
  intros Hnd Hl. destruct (insert_all_ok kvs (_init 0) _init_ok) as (h & E & Hok & Hp & Hc); [cbn; lia|].
  cbn in Hp. rewrite app_nil_r in Hp. exists h. split_and!; [done | cbn in Hc; lia |]. intros k.
  destruct (find_ok k h Hok) as (i & Ei & Hi). unfold find_value. rewrite Ei. cbn [mbind result_bind].
  exists (_value h i). split; [done|]. intros v. destruct Hi as [(v' & -> & Hin)|[-> Hno]].
  - rewrite Hp in Hin. split; [by intros [= ->]|]. intros Hv. f_equal.
    apply list_elem_of_lookup_1 in Hin as [n1 H1]. apply list_elem_of_lookup_1 in Hv as [n2 H2].
    assert (n1 = n2) as ->.
    { eapply NoDup_lookup; [exact Hnd | |]; rewrite list_lookup_fmap; [by rewrite H1 | by rewrite H2]. }
    congruence.
  - split; [done|]. intros Hv. exfalso. apply (Hno v). by rewrite Hp.
Qed.

(** ** Removal *)

(** How far an entry is from its bucket; every move of [_remove] lowers the total. *)
Definition displacement (size i : Z) (e : entry) : Z :=
  match e with Some kv => (i - home size kv.1) mod size | None => 0 end.

Fixpoint potential_from (size i : Z) (t : table) : Z :=
  match t with [] => 0 | e :: t => displacement size i e + potential_from size (i + 1) t end.
Definition potential (t : table) : Z := potential_from (Z.of_nat (length t)) 0 t.

Lemma potential_from_insert size i (t : table) n e e' :
  t !! n = Some e' ->
  potential_from size i (<[n := e]> t) =
    potential_from size i t - displacement size (i + Z.of_nat n) e' + displacement size (i + Z.of_nat n) e.
Proof.
  revert i n. induction t as [|x t IH]; intros i [|n] Hn; try done.
  - injection Hn as ->. change (<[0%nat := e]> (e' :: t)) with (e :: t).
    cbn [potential_from]. rewrite Z.add_0_r. lia.
  - change (<[S n := e]> (x :: t)) with (x :: <[n := e]> t). cbn [potential_from].
    rewrite (IH (i + 1) n Hn). replace (i + 1 + Z.of_nat n) with (i + Z.of_nat (S n)) by lia. lia.
Qed.

Lemma potential_insert (t : table) i e e' :
  0 <= i -> t !! Z.to_nat i = Some e' ->
  potential (<[Z.to_nat i := e]> t) =
    potential t - displacement (Z.of_nat (length t)) i e' + displacement (Z.of_nat (length t)) i e.
Proof.
  intros Hi Hlk. unfold potential. rewrite length_insert, (potential_from_insert _ _ _ _ _ e') by done.
  by rewrite Z.add_0_l, Z2Nat.id by done.
Qed.

Lemma displacement_range size i e : 0 < size -> 0 <= displacement size i e < size.
Proof. intros Hs. destruct e; cbn; [by apply Z.mod_pos_bound | lia]. Qed.

Lemma potential_range (t : table) : 0 <= potential t <= Z.of_nat (length t) * Z.of_nat (length t).
Proof.
  unfold potential. set (size := Z.of_nat (length t)) at 1 2 3.
  assert (Hgen : forall i (t' : table), 0 < size \/ t' = [] ->
    0 <= potential_from size i t' <= size * Z.of_nat (length t')).
  { intros i t'. revert i. induction t' as [|e t' IH]; intros i Hs; cbn [potential_from length]; [lia|].
    assert (0 < size) by (destruct Hs; [done | discriminate]).
    specialize (IH (i + 1) ltac:(by left)). pose proof (displacement_range size i e ltac:(done)). lia. }
  apply Hgen. subst size. destruct t; [by right | left; cbn; lia].
Qed.

Lemma distance_zero size s b : 0 <= s < size -> 0 <= b < size -> (b - s) mod size = 0 -> b = s.
Proof.
  intros Hs Hb E. apply Z.mod_divide in E as [q E]; [|lia].
  assert (q = 0 \/ q >= 1 \/ q <= -1) as [->|[?|?]] by lia; nia.
Qed.

Lemma reinsert_probe_spec (t : table) size fuel s b :
  size = Z.of_nat (length t) -> size < 2 ^ 32 -> 0 <= s < size -> 0 <= b < size ->
  (b - s) mod size <= Z.of_nat fuel ->
  exists j, 0 <= j <= (b - s) mod size /\
    reinsert_probe fuel t (mk_counter s size) b = Ok (mk_counter ((s + j) mod size) size) /\
    (j < (b - s) mod size -> hole t ((s + j) mod size)).
Proof.
  intros Hsz Hlim. revert s. induction fuel as [|fuel IH]; intros s Hs Hb Hd.
  all: pose proof (Z.mod_pos_bound (b - s) size ltac:(lia)) as Hmb.
  all: destruct (slot_filled_or_hole t s) as [(kv & Es & Ht)|[Es Ht]]; [lia | |];
    cbn [reinsert_probe _index]; rewrite Es; cbn [mbind result_bind].
  2, 4: exists 0; rewrite Z.add_0_r, (Z.mod_small s) by lia; split_and!; (done || lia).
  - assert (Hbs : (b - s) mod size = 0) by lia.
    assert (b = s) as -> by by apply (distance_zero size).
    rewrite Z.eqb_refl. cbn [negb]. exists 0. rewrite Z.add_0_r, (Z.mod_small s) by lia. split_and!; (done || lia).
  - destruct (Z.eqb_spec s b) as [->|Hne]; cbn [negb].
    { exists 0. rewrite Z.sub_diag, Z.add_0_r, Zmod_0_l, (Z.mod_small b) by lia. split_and!; (done || lia). }
    rewrite counter_incr_mod by lia.
    assert (Hdec : (b - (s + 1) mod size) mod size = (b - s) mod size - 1).
    { rewrite Zminus_mod_idemp_r. symmetry. apply Z.mod_unique with ((b - s) / size).
      - left. split; [|lia]. enough ((b - s) mod size <> 0) by lia. intros E.
        by apply Hne, eq_sym, (distance_zero size).
      - pose proof (Z.div_mod (b - s) size ltac:(lia)). lia. }
    destruct (IH ((s + 1) mod size)) as (j & Hj & -> & Hhj).
    { apply Z.mod_pos_bound. lia. } { done. } { lia. }
    rewrite cyclic_step in Hhj |- * by lia. exists (1 + j). rewrite Hdec in *. split_and!; [lia | lia | done |].
    intros ?. apply Hhj. lia.
Qed.

(** One move of [_remove]: the entry at [b] goes to the hole at [c], nearer its bucket. *)
Lemma move_entry (t : table) size kv b c j :
  size = Z.of_nat (length t) -> 0 <= b < size -> c = (home size kv.1 + j) mod size ->
  0 <= j < (b - home size kv.1) mod size -> t !! Z.to_nat b = Some (Some kv) -> hole t c ->
  let t' := <[Z.to_nat b := None]> (<[Z.to_nat c := Some kv]> t) in
  length t' = length t /\ hole t' b /\ Permutation (entries t') (entries t) /\ potential t' < potential t.
Proof.
  intros Hsz Hb Hc Hj Hlk Hh t'. pose proof (home_range size kv.1 ltac:(lia)) as Hhm.
  assert (Hcr : 0 <= c < size) by (rewrite Hc; apply Z.mod_pos_bound; lia).
  assert (Hne : Z.to_nat b <> Z.to_nat c).
  { intros E. unfold hole in Hh. rewrite <- E in Hh. congruence. }
  assert (Hlk' : <[Z.to_nat c := Some kv]> t !! Z.to_nat b = Some (Some kv)).
  { by rewrite list_lookup_insert_ne by done. }
  subst t'. rewrite !length_insert. split_and!; [done | | |].
  - unfold hole. apply list_lookup_insert_eq. rewrite length_insert. lia.
  - pose proof (entries_insert _ _ None (Some kv) Hlk') as H1.
    pose proof (entries_insert _ _ (Some kv) None Hh) as H2. cbn [option_list app] in H1, H2.
    apply (Permutation_cons_inv (a := kv)). by rewrite H1, H2.
  - rewrite (potential_insert _ b None (Some kv)) by (done || lia).
    rewrite (potential_insert t c (Some kv) None) by (done || lia). rewrite length_insert, <- Hsz.
    cbn [displacement]. enough ((c - home size kv.1) mod size = j) by lia.
    rewrite Hc, Zminus_mod_idemp_l. replace (home size kv.1 + j - home size kv.1) with j by lia.
    pose proof (Z.mod_pos_bound (b - home size kv.1) size ltac:(lia)). apply Z.mod_small. lia.
Qed.

Lemma remove_loop_spec fuel (t : table) size b j :
  size = Z.of_nat (length t) -> size < 2 ^ 32 -> 0 <= b < size -> 1 <= j <= size ->
  hole t ((b + j) mod size) -> potential t * size + j <= Z.of_nat fuel ->
  exists t', remove_loop hash fuel t size (mk_counter b size) = Ok t' /\
    length t' = length t /\ Permutation (entries t') (entries t).
Proof.
  intros Hsz Hlim. revert t b j Hsz. induction fuel as [|fuel IH]; intros t b j Hsz Hb Hj Hh Hf.
  { pose proof (potential_range t). nia. }
  cbn [remove_loop]. rewrite counter_incr_mod by lia. cbn zeta. cbn [_index].
  set (b' := (b + 1) mod size). assert (Hb' : 0 <= b' < size) by (apply Z.mod_pos_bound; lia).
  destruct (slot_filled_or_hole t b') as [([k v] & Es & Ht)|[Es Ht]]; [lia | |]; rewrite Es; cbn [mbind result_bind].
  2: { by exists t. }
  assert (Hj2 : 2 <= j).
  { destruct (decide (j = 1)) as [->|]; [|lia]. fold b' in Hh. unfold hole in Hh. congruence. }
  assert (Hh' : hole t ((b' + (j - 1)) mod size)).
  { unfold b'. rewrite cyclic_step by lia. by replace (b + (1 + (j - 1))) with (b + j) by lia. }
  rewrite new_counter_home by lia. cbn [mbind result_bind _index].
  pose proof (home_range size k ltac:(lia)) as Hhm.
  destruct (Z.eqb_spec (home size k) b') as [Heq|Hne]; [by apply (IH t b' (j - 1)); try done; lia|].
  pose proof (Z.mod_pos_bound (b' - home size k) size ltac:(lia)) as Hdist.
  destruct (reinsert_probe_spec t size (length t) (home size k) b') as (i & Hi & -> & Hhi); try (done || lia).
  cbn [mbind result_bind _index]. set (c := (home size k + i) mod size) in *.
  destruct (Z.eqb_spec c b') as [Heq|Hne']; [by apply (IH t b' (j - 1)); try done; lia|].
  assert (Hilt : i < (b' - home size k) mod size).
  { destruct (decide (i = (b' - home size k) mod size)) as [->|]; [|lia]. destruct Hne'.
    unfold c. rewrite Zplus_mod_idemp_r. replace (home size k + (b' - home size k)) with b' by lia.
    apply Z.mod_small. lia. }
  pose proof (Hhi Hilt) as Hhc.
  destruct (move_entry t size (k, v) b' c i) as (Hl & Hhb & Hp & Hpot); try (done || (cbn; lia)).
  cbn zeta in *. set (t' := <[Z.to_nat b' := None]> (<[Z.to_nat c := Some (k, v)]> t)) in *.
  destruct (IH t' b' size) as (t2 & -> & Hl2 & Hp2).
  { by rewrite Hl. } { done. } { lia. }
  { replace (b' + size) with (b' + 1 * size) by lia. rewrite Z.mod_add, Z.mod_small by lia. done. }
  { nia. }
  exists t2. split_and!; [done | congruence | by rewrite Hp2].
Qed.

(** Removing the entry at a valid pointer. *)
Lemma remove_index_spec (h : hash_table_flat K V) (i : Z) (kv : K * V) :
  _table_size h = Z.of_nat (length (_table h)) -> _table_size h < 2 ^ 32 -> 0 <= i ->
  _table h !! Z.to_nat i = Some (Some kv) ->
  exists h', _remove hash i h = Ok (h', true) /\
    Permutation (entries (_table h)) (kv :: entries (_table h')) /\
    _table_size h' = _table_size h /\ _entry_count h' = u32 (_entry_count h - 1) /\
    Z.of_nat (length (_table h')) = _table_size h /\ _resize_threshold h' = _resize_threshold h.
Proof.
  intros Hsz Hlim Hi Hlk. pose proof (lookup_lt_Some _ _ _ Hlk) as Hlt. unfold _remove.
  destruct (Z.leb_spec (_table_size h) i); [lia|]. unfold slot. destruct (Z.leb_spec 0 i); [|lia].
  rewrite Hlk. cbn [of_option mbind result_bind]. set (t := <[Z.to_nat i := None]> (_table h)).
  assert (Hlt' : length t = length (_table h)) by apply length_insert.
  assert (Hhole : hole t i) by (apply list_lookup_insert_eq; lia).
  unfold new_counter. destruct (Z.ltb_spec 0 (_table_size h)); [|lia]. cbn [require mbind result_bind].
  destruct (Z.ltb_spec i (_table_size h)); [|lia].
  pose proof (potential_range t) as Hpot. rewrite Hlt', <- Hsz in Hpot.
  pose proof (entries_insert _ _ None (Some kv) Hlk) as Hp. cbn [option_list app] in Hp. fold t in Hp.
  destruct (remove_loop_spec (remove_fuel (length t)) t (_table_size h) 0
    (if decide (i = 0) then _table_size h else i)) as (t' & -> & Hl & Hp'); try (done || lia).
  - case_decide; lia.
  - case_decide as Hi0; rewrite Z.add_0_l; [rewrite Z.mod_same by lia; by rewrite Hi0 in Hhole | by rewrite Z.mod_small by lia].
  - assert (Hn : Z.of_nat (length t) = _table_size h) by lia. unfold remove_fuel.
    rewrite !Nat2Z.inj_add, !Nat2Z.inj_mul, Hn. case_decide; nia.
  - cbn [mbind result_bind]. eexists. split; [done|]. cbn. split_and!; [by rewrite Hp', Hp | done | done | lia | done].
Qed.

(** [remove(key)]: total on every table, and drops at most an entry with that key. *)
Lemma remove_sane k h :
  table_sane h ->
  exists h' b, HashTable.remove hash k h = Ok (h', b) /\ table_sane h' /\ _table_size h' = _table_size h /\
    if b then exists v, Permutation (entries (_table h)) ((k, v) :: entries (_table h')) else h' = h.
Proof.
  intros Hok. unfold HashTable.remove. destruct (find_sane k h Hok) as (i & E & Hi); rewrite E; cbn [mbind result_bind].
  destruct Hi as [(v & Hv & Hin & Hi & Hlk)|[Hv _]]; rewrite Hv.
  2: { by exists h, false. }
  pose proof Hok as [Hs Hp Hc Ht Hl].
  assert (Hlim : _table_size h < 2 ^ 32) by (destruct Hp as [|Hp]; [lia | by apply prime_bounds]).
  destruct (remove_index_spec h i (k, v) Hs Hlim Hi Hlk) as (h' & E' & Hperm & Hsz & Hcnt & Hlen & Hth).
  rewrite E'. cbn [mbind result_bind]. exists h', true. split; [done|]. split; [|split; [done | by exists v]].
  pose proof (Permutation_length Hperm) as Hpl. cbn [length] in Hpl.
  assert (Hbnd : _entry_count h < 2 ^ 32). { rewrite Z.shiftr_div_pow2 in Ht by lia. zlia. }
  rewrite u32_small in Hcnt by (unfold in_u; lia).
  split; [by rewrite Hsz, Hlen | by rewrite Hsz | lia | by rewrite Hsz, Hth | rewrite Hth; lia].
Qed.

(** C14. A table built by insertions is the finite map of what was inserted: inserting any
    list of up to 2^28 bindings with distinct keys into an empty table succeeds, through every
    growth of the table; afterwards [find] returns the value of each inserted key and reports
    every other key as absent, and both always terminate.  Removing the entry at a valid pointer
    terminates and drops exactly that entry: the loop that reinserts overflowed entries ends,
    whatever the layout of the table, and the table then holds the other entries, each once. *)
Theorem hash_table_is_map :
  (forall kvs : list (K * V), NoDup kvs.*1 -> Z.of_nat (length kvs) <= 2 ^ 28 ->
    exists h, insert_all kvs (_init 0) = Ok h /\ _entry_count h = Z.of_nat (length kvs) /\
      forall k, exists r, find_value hash k h = Ok r /\ forall v, r = Some v <-> (k, v) ∈ kvs) /\
  (forall (h : hash_table_flat K V) (i : Z) (kv : K * V),
    _table_size h = Z.of_nat (length (_table h)) -> _table_size h < 2 ^ 32 -> 0 <= i ->
    _table h !! Z.to_nat i = Some (Some kv) ->
    exists h', _remove hash i h = Ok (h', true) /\
      Permutation (entries (_table h)) (kv :: entries (_table h')) /\
      _table_size h' = _table_size h /\ _entry_count h' = u32 (_entry_count h - 1)).
Proof.
  split; [exact insert_all_find|]. intros h i kv Hsz Hlim Hi Hlk.
  destruct (remove_index_spec h i kv Hsz Hlim Hi Hlk) as (h' & ? & ? & ? & ? & _). eauto 10.
Qed.
End spec.

Lemma hash_table_is_map_witness :
  let h := mk_table [Some (1, 10); Some (2, 20); Some (3, 30); None; None] 3 5 2 in
  (exists h, insert_all u32 [(7, 70); (300, 30); (5, 50)] (_init 0) = Ok h /\ _entry_count h = 3 /\
    forall k, exists r, find_value u32 k h = Ok r /\
      forall v, r = Some v <-> (k, v) ∈ [(7, 70); (300, 30); (5, 50)]) /\
  exists h', _remove u32 1 h = Ok (h', true) /\
    Permutation [(1, 10); (2, 20); (3, 30)] ((2, 20) :: entries (_table h')) /\
    _table_size h' = 5 /\ _entry_count h' = 2.
Proof.
  intros h. destruct (hash_table_is_map (V := Z) u32) as [Hinsert Hremove]. split.
  - apply (Hinsert [(7, 70); (300, 30); (5, 50)]).
    + apply (bool_decide_unpack _). vm_compute. exact I.
    + cbn. lia.
  - apply (Hremove h 1 (2, 20)); [reflexivity | cbn; lia | lia | reflexivity].
Defined.
