(* ===== verification/Chain.v ===== *)
(** * Chains of nodes in a heap

    What the hash tables with chains share (IndexedString, HashTableArray): the list of nodes a
    pointer leads to, and tables of such lists. *)
From S2P Require Import Prelude.
From stdpp Require Import gmap.

Notation loc := positive.

(** ** Rows of locations *)
Lemma elem_of_row (cs : list (list loc)) i l p : cs !! i = Some l -> p ∈ l -> p ∈ concat cs.
Proof. intros Hi Hp. apply list_elem_of_In, in_concat. exists l. split; apply list_elem_of_In; [by eapply list_elem_of_lookup_2 | done]. Qed.

Lemma row_of (cs : list (list loc)) p : p ∈ concat cs -> exists i l, cs !! i = Some l /\ p ∈ l.
Proof.
  intros (l & Hl & Hp)%list_elem_of_In%in_concat. apply list_elem_of_In in Hl, Hp.
  apply list_elem_of_lookup_1 in Hl as [i Hi]. eauto.
Qed.

Lemma row_nodup (cs : list (list loc)) i l : NoDup (concat cs) -> cs !! i = Some l -> NoDup l.
Proof.
  revert i. induction cs as [|c cs IH]; intros [|i] Hn Hi; try done; cbn [concat] in Hn;
    apply list.NoDup_app in Hn as (Hc & _ & Hr); [by injection Hi as <- | by eapply IH].
Qed.

Lemma rows_apart (cs : list (list loc)) : forall i j l r q,
  NoDup (concat cs) -> cs !! i = Some l -> cs !! j = Some r -> q ∈ l -> q ∈ r -> i = j.
Proof.
  induction cs as [|c cs IH]; intros [|i] [|j] l r q Hn Hi Hj Hl Hr; try done; cbn in *; apply list.NoDup_app in Hn as (_ & Hd & Hn).
  - injection Hi as ->. destruct (Hd q Hl). by eapply elem_of_row.
  - injection Hj as ->. destruct (Hd q Hr). by eapply elem_of_row.
  - f_equal. by eapply IH.
Qed.

Lemma concat_insert_cons (cs : list (list loc)) i l p :
  cs !! i = Some l -> concat (<[i := p :: l]> cs) ≡ₚ p :: concat cs.
Proof.
  revert i. induction cs as [|c cs IH]; intros [|i] Hi; try done; cbn in *.
  - by injection Hi as ->.
  - rewrite IH by done. by rewrite Permutation_middle.
Qed.

Lemma concat_insert_middle (cs : list (list loc)) i l1 p l2 :
  cs !! i = Some (l1 ++ p :: l2) -> concat cs ≡ₚ p :: concat (<[i := l1 ++ l2]> cs).
Proof.
  revert i. induction cs as [|c cs IH]; intros [|i] Hi; try done; cbn in *.
  - injection Hi as ->. rewrite <- Permutation_middle. done.
  - rewrite (IH i) by done. by rewrite Permutation_middle.
Qed.

Section chain.
Context {N : Type} {next : N -> option loc}.

Fixpoint chain (ns : gmap loc N) (h : option loc) (l : list loc) : Prop :=
  match l with
  | [] => h = None
  | p :: l => h = Some p /\ exists nd, ns !! p = Some nd /\ chain ns (next nd) l
  end.

(** A chain depends on the links of its nodes only. *)
Lemma chain_agree ns ns' l : forall h,
  (forall p, p ∈ l -> next <$> ns' !! p = next <$> ns !! p) -> chain ns h l -> chain ns' h l.
Proof.
  induction l as [|p l IH]; intros h Ha; [done|]. intros (-> & nd & Hp & Hc). split; [done|].
  pose proof (Ha p ltac:(left)) as Hn. rewrite Hp in Hn. destruct (ns' !! p) as [nd'|]; [|done].
  exists nd'. split; [done|]. injection Hn as ->. apply IH; [|done]. intros q Hq. apply Ha. by right.
Qed.

Lemma chain_lives ns l : forall h p, chain ns h l -> p ∈ l -> is_Some (ns !! p).
Proof.
  induction l as [|q l IH]; intros h p; [by intros _ ?%elem_of_nil|]. intros (-> & nd & Hq & Hc) [->|Hp]%elem_of_cons.
  - by eexists.
  - by eapply IH.
Qed.

Lemma chain_insert ns h l p nd : p ∉ l -> chain ns h l -> chain (<[p := nd]> ns) h l.
Proof. intros Hp. apply chain_agree. intros q Hq. rewrite lookup_insert_ne; [done|]. by intros ->. Qed.

Lemma chain_fuel ns (l : list loc) :
  NoDup l -> (forall p, p ∈ l -> is_Some (ns !! p)) -> (length l <= base.size (ns : gmap loc N))%nat.
Proof.
  intros Hn Hl. rewrite <- (size_list_to_set (C := gset loc)), <- size_dom by done.
  apply subseteq_size. intros p Hp. apply elem_of_dom, Hl. by apply elem_of_list_to_set in Hp.
Qed.

(** Chains that agree with the memory before, row by row. *)
Lemma chains_agree ns ns' hs (cs : list (list loc)) :
  (forall p, p ∈ concat cs -> next <$> ns' !! p = next <$> ns !! p) ->
  Forall2 (chain ns) hs cs -> Forall2 (chain ns') hs cs.
Proof.
  intros Ha HF. apply Forall2_same_length_lookup. apply Forall2_same_length_lookup in HF as [Hl HF].
  split; [done|]. intros i h l Hh Hi. eapply chain_agree; [|by eapply HF]. intros p Hp. by eapply Ha, elem_of_row.
Qed.
End chain.
Arguments chain {N} next ns h l.
