(* ===== verification/HashTableArray.v ===== *)
(** * Arrays with a hash table: core/hash_table_array.h

    The entries stand in an array, in an order the program chooses, and in the chains of a hash
    table by key; within a chain they are in the order of the array, so that [find] and
    [next_match] give equal keys in that order.  The nodes live in a heap.  A [pointer] is the
    table it was made for and an index; a table that has grown is another one.  The theorem is in
    HashTableArraySpec. *)
From S2P Require Import Prelude HashTable Chain.
From stdpp Require Import gmap.
#[local] Open Scope Z_scope.

Section hash_table_array.
Context {K V : Type} `{EqDecision K} (hash : K -> Z).

Record node : Type := mk_node {
  next_hash : option loc;
  index : Z;
  node_hash : Z;
  hash_index : Z;
  key : K;
  value : V
}.

(** The table, with the memory its nodes are in, and which table it is. *)
Record table : Type := mk_table {
  nodes : gmap loc node;
  next_block : loc;
  identity : nat;
  table_size : Z;
  count : Z;
  hash_table : list (option loc);
  array : list (option loc)
}.

Definition with_nodes (ns : gmap loc node) (t : table) : table :=
  mk_table ns (next_block t) (identity t) (table_size t) (count t) (hash_table t) (array t).
Definition with_buckets (hs : list (option loc)) (t : table) : table :=
  mk_table (nodes t) (next_block t) (identity t) (table_size t) (count t) hs (array t).
Definition with_array (a : list (option loc)) (t : table) : table :=
  mk_table (nodes t) (next_block t) (identity t) (table_size t) (count t) (hash_table t) a.
Definition with_table_count (n : Z) (t : table) : table :=
  mk_table (nodes t) (next_block t) (identity t) (table_size t) n (hash_table t) (array t).

Definition with_next (h : option loc) (nd : node) : node :=
  mk_node h (index nd) (node_hash nd) (hash_index nd) (key nd) (value nd).
Definition with_index (i : Z) (nd : node) : node :=
  mk_node (next_hash nd) i (node_hash nd) (hash_index nd) (key nd) (value nd).
Definition with_hash (h i : Z) (nd : node) : node := mk_node (next_hash nd) (index nd) h i (key nd) (value nd).
Definition with_key (k : K) (nd : node) : node :=
  mk_node (next_hash nd) (index nd) (node_hash nd) (hash_index nd) k (value nd).
Definition with_value (v : V) (nd : node) : node :=
  mk_node (next_hash nd) (index nd) (node_hash nd) (hash_index nd) (key nd) v.

(** [table::get_null] *)
Definition null_table : table := mk_table ∅ 1 0 0 0 [] [].

(** *** Memory *)
Definition node_at (p : loc) : M table node := fun t => nd ← of_option dead_object (nodes t !! p); Ok (nd, t).
Definition change_node (p : loc) (g : node -> node) : M table unit := fun t =>
  nd ← of_option dead_object (nodes t !! p); Ok (tt, with_nodes (<[p := g nd]> (nodes t)) t).

Definition array_at (i : Z) : M table loc := fun t =>
  slot ← of_option out_of_bounds (array t !! Z.to_nat i); p ← of_option null_deref slot; Ok (p, t).
Definition array_set (i : Z) (p : loc) : M table unit := fun t =>
  _ ← of_option out_of_bounds (array t !! Z.to_nat i); Ok (tt, with_array (<[Z.to_nat i := Some p]> (array t)) t).

(** A pointer to a pointer: a bucket of the table, or [next_hash] of a node. *)
Inductive slot : Type := in_bucket (i : Z) | in_node (p : loc).
Definition read_slot (w : slot) : M table (option loc) :=
  match w with
  | in_bucket i => fun t => h ← of_option out_of_bounds (hash_table t !! Z.to_nat i); Ok (h, t)
  | in_node p => nd ← node_at p; mret (next_hash nd)
  end.
Definition write_slot (w : slot) (h : option loc) : M table unit :=
  match w with
  | in_bucket i => fun t =>
      _ ← of_option out_of_bounds (hash_table t !! Z.to_nat i); Ok (tt, with_buckets (<[Z.to_nat i := h]> (hash_table t)) t)
  | in_node p => change_node p (with_next h)
  end.

(** While there is a node at [walk] that passes the test, [walk] moves to its link. *)
Fixpoint advance (fuel : nat) (walk : slot) (test : node -> bool) : M table slot :=
  h ← read_slot walk;
  match h, fuel with
  | None, _ => mret walk
  | Some _, O => lift (Fault out_of_fuel)
  | Some q, S fuel => nd ← node_at q; if test nd then advance fuel (in_node q) test else mret walk
  end.

(** [walk] moves on until it points to [the_node]. *)
Fixpoint seek (fuel : nat) (walk : slot) (the_node : loc) : M table slot :=
  h ← read_slot walk;
  match h, fuel with
  | None, _ => lift (Fault null_deref)
  | Some q, O => if decide (q = the_node) then mret walk else lift (Fault out_of_fuel)
  | Some q, S fuel => if decide (q = the_node) then mret walk else seek fuel (in_node q) the_node
  end.

Definition fuel : M table nat := gets (fun t => base.size (nodes t)).

(** ** [struct table] *)
Definition remove_from_hash (the_node : loc) : M table unit :=
  nd ← node_at the_node;
  n ← fuel;
  walk ← seek n (in_bucket (hash_index nd)) the_node;
  nd ← node_at the_node;
  write_slot walk (next_hash nd).

(** [the_node->next_hash = *walk; *walk = the_node;] *)
Definition link (walk : slot) (the_node : loc) : M table unit :=
  h ← read_slot walk;
  _ ← change_node the_node (with_next h);
  write_slot walk (Some the_node).

Definition insert_in_hash (the_node : loc) : M table unit :=
  nd ← node_at the_node;
  size ← gets table_size;
  _ ← lift (require (negb (size =? 0)) division_by_zero);
  let h := hash (key nd) in
  _ ← change_node the_node (with_hash h (h mod size));
  n ← fuel;
  walk ← advance n (in_bucket (h mod size)) (fun other => index other <? index nd);
  link walk the_node.

(** [for(i = ..; i < next_index; i++)]: the entries behind move up by one. *)
Fixpoint shift_back (n : nat) (i : Z) : M table unit :=
  match n with
  | O => mret tt
  | S n =>
      renum ← array_at (i + 1);
      nd ← node_at renum;
      _ ← lift (require (index nd =? u32 (i + 1)) assertion_failed);
      _ ← array_set i renum;
      _ ← change_node renum (with_index i);
      shift_back n (i + 1)
  end.

(** The second part of [move_item_back]: the node moves in its chain, to keep the order of the array. *)
Definition move_back_in_chain (the_node : loc) (next_index : Z) : M table unit :=
  nd ← node_at the_node;
  match next_hash nd with
  | None => mret tt
  | Some next =>
      other ← node_at next;
      if index other <? next_index then
        n ← fuel;
        walk ← seek n (in_bucket (hash_index nd)) the_node;
        _ ← write_slot walk (next_hash nd);
        first ← read_slot walk;
        first ← lift (of_option null_deref first);
        walk ← advance n (in_node first) (fun other => index other <? next_index);
        link walk the_node
      else mret tt
  end.

Definition move_item_back (item : Z) (back_count : Z) : M table unit :=
  c ← gets count;
  _ ← lift (require (item <? c) assertion_failed);
  let next_index := u32 (item + back_count) in
  if c <=? next_index then mret tt else
  the_node ← array_at item;
  _ ← shift_back (Z.to_nat (next_index - item)) item;
  _ ← array_set next_index the_node;
  _ ← change_node the_node (with_index next_index);
  move_back_in_chain the_node next_index.

Fixpoint shift_forward (n : nat) (i : Z) : M table unit :=
  match n with
  | O => mret tt
  | S n =>
      renum ← array_at (i - 1);
      nd ← node_at renum;
      _ ← lift (require (index nd =? i - 1) assertion_failed);
      _ ← array_set i renum;
      _ ← change_node renum (with_index i);
      shift_forward n (i - 1)
  end.

(** The loops of [move_item_forward] look at nodes without a null test. *)
Fixpoint advance_forward (fuel : nat) (walk : slot) (next_index : Z) : M table slot :=
  h ← read_slot walk;
  p ← lift (of_option null_deref h);
  nd ← node_at p;
  if index nd <? next_index then
    match fuel with O => lift (Fault out_of_fuel) | S fuel => advance_forward fuel (in_node p) next_index end
  else mret walk.
Fixpoint search_link (fuel : nat) (search the_node : loc) : M table loc :=
  nd ← node_at search;
  if decide (next_hash nd = Some the_node) then mret search
  else match fuel with
       | O => lift (Fault out_of_fuel)
       | S fuel => next ← lift (of_option null_deref (next_hash nd)); search_link fuel next the_node
       end.

(** The new index is computed from [count], the size of the table, instead of [forward_count]. *)
Definition move_item_forward (item : Z) (forward_count : Z) : M table unit :=
  c ← gets count;
  _ ← lift (require (item <? c) assertion_failed);
  let next_index := u32 (item - c) in
  the_node ← array_at item;
  _ ← shift_forward (Z.to_nat (item - next_index)) item;
  _ ← array_set next_index the_node;
  _ ← change_node the_node (with_index next_index);
  nd ← node_at the_node;
  n ← fuel;
  walk ← advance_forward n (in_bucket (hash_index nd)) next_index;
  h ← read_slot walk;
  if decide (h = Some the_node) then mret tt else
  _ ← link walk the_node;
  spliced ← node_at the_node;
  search ← lift (of_option null_deref (next_hash spliced));
  search ← search_link n search the_node;
  change_node search (with_next (next_hash nd)).

Definition set_item_index (item_index new_index : Z) : M table unit :=
  c ← gets count;
  _ ← lift (require (item_index <? c) assertion_failed);
  if item_index <? new_index then move_item_back item_index (u32 (new_index - item_index))
  else if new_index <? item_index then move_item_forward item_index (u32 (item_index - new_index))
  else mret tt.

Definition set_item_key (item : Z) (new_key : K) : M table unit :=
  c ← gets count;
  _ ← lift (require (item <? c) assertion_failed);
  the_node ← array_at item;
  _ ← remove_from_hash the_node;
  _ ← change_node the_node (with_key new_key);
  insert_in_hash the_node.

Fixpoint key_walk (fuel : nat) (walk : option loc) (k : K) : M table (option loc) :=
  match walk, fuel with
  | None, _ => mret None
  | Some _, O => lift (Fault out_of_fuel)
  | Some p, S fuel =>
      nd ← node_at p;
      if decide (key nd = k) then mret (Some p) else key_walk fuel (next_hash nd) k
  end.

Definition next_match (item : Z) : M table Z :=
  c ← gets count;
  _ ← lift (require (item <? c) assertion_failed);
  the_node ← array_at item;
  nd ← node_at the_node;
  n ← fuel;
  walk ← key_walk n (next_hash nd) (key nd);
  match walk with
  | Some p => other ← node_at p; mret (index other)
  | None => mret c
  end.

Fixpoint close_gap (n : nat) (i : Z) : M table unit :=
  match n with
  | O => mret tt
  | S n =>
      p ← array_at (i + 1);
      _ ← array_set i p;
      _ ← change_node p (with_index i);
      close_gap n (i + 1)
  end.

Definition remove (item : Z) : M table unit :=
  c ← gets count;
  _ ← lift (require (item <? c) assertion_failed);
  the_node ← array_at item;
  _ ← remove_from_hash the_node;
  _ ← close_gap (Z.to_nat (c - 1 - item)) item;
  _ ← modify (with_table_count (c - 1));
  modify (fun t => with_nodes (delete the_node (nodes t)) t).

Definition find (k : K) : M table Z :=
  size ← gets table_size;
  if size =? 0 then mret 0 else
  h ← read_slot (in_bucket (hash k mod size));
  n ← fuel;
  walk ← key_walk n h k;
  match walk with
  | Some p => nd ← node_at p; mret (index nd)
  | None => mret size
  end.

(** [table::insert] of a node that has just been made *)
Definition insert_node (the_node : loc) : M table Z :=
  c ← gets count;
  size ← gets table_size;
  _ ← lift (require (c <? size) assertion_failed);
  _ ← change_node the_node (with_index c);
  _ ← array_set c the_node;
  _ ← modify (with_table_count (c + 1));
  _ ← insert_in_hash the_node;
  nd ← node_at the_node;
  mret (index nd).

(** ** [hash_table_array] *)

(** The loop of [_check_size], from the last entry to the first: each is put in front of its new
    chain. *)
Fixpoint rehash (n : nat) (new_table_size : Z) (old_array : list (option loc)) (new_hash new_array : list (option loc))
    : M table (list (option loc) * list (option loc)) :=
  match n with
  | O => mret (new_hash, new_array)
  | S i =>
      p ← lift (slot ← of_option out_of_bounds (old_array !! i); of_option null_deref slot);
      nd ← node_at p;
      let hash_index := node_hash nd mod new_table_size in
      h ← lift (of_option out_of_bounds (new_hash !! Z.to_nat hash_index));
      _ ← change_node p (fun nd => with_next h (with_hash (node_hash nd) hash_index nd));
      rehash i new_table_size old_array (<[Z.to_nat hash_index := Some p]> new_hash) (<[i := Some p]> new_array)
  end.

Definition _check_size (reserve_size : Z) : M table unit :=
  t ← get;
  if table_size t <=? reserve_size then
    size ← lift (next_larger_hash_prime reserve_size);
    let empty := replicate (Z.to_nat size) None in
    '(new_hash, new_array) ← rehash (Z.to_nat (count t)) size (array t) empty empty;
    modify (fun t => mk_table (nodes t) (next_block t) (S (identity t)) size (count t) new_hash new_array)
  else mret tt.

(** [pointer]: the table it is for, and an index *)
Record pointer : Type := mk_pointer { _table : nat; _index : Z }.

(** [new node(key, value)]: the other fields are set before they are read. *)
Definition new_node (k : K) (v : V) : M table loc := fun t =>
  let p := next_block t in
  Ok (p, mk_table (<[p := mk_node None 0 0 0 k v]> (nodes t)) (Pos.succ p) (identity t) (table_size t) (count t) (hash_table t) (array t)).

Definition _insert (the_key : K) (the_value : V) (index : Z) : M table pointer :=
  c ← gets count;
  _ ← _check_size (u32 (c + 1));
  p ← new_node the_key the_value;
  i ← insert_node p;
  id ← gets identity;
  c ← gets count;
  _ ← when (index <? c) (set_item_index i index);
  mret (mk_pointer id i).

Definition max_value_uint32 : Z := 2 ^ 32 - 1.
Definition insert (the_key : K) (the_value : V) : M table pointer := _insert the_key the_value max_value_uint32.

Definition at_index (i : Z) : M table pointer := id ← gets identity; mret (mk_pointer id i).
Definition find_pointer (k : K) : M table pointer := i ← find k; at_index i.
Definition first : M table pointer := at_index 0.
Definition last : M table pointer := c ← gets count; at_index (if negb (c =? 0) then c - 1 else 0).
Definition reserve (n : Z) : M table unit := _check_size n.

(** The operations of a pointer are those of its table: the null table has no entry, and a table
    that has been replaced is freed. *)
Definition in_table {A} (p : pointer) (null : result A) (op : M table A) : M table A := fun t =>
  if decide (_table p = identity t) then op t
  else match _table p with O => lift null t | _ => Fault dead_object end.

Definition is_valid (p : pointer) : M table bool := in_table p (Ok false) (c ← gets count; mret (_index p <? c)).
Definition entry {A} (p : pointer) (field : node -> A) : M table (option A) :=
  in_table p (Ok None) (
    c ← gets count;
    if _index p <? c then n ← array_at (_index p); nd ← node_at n; mret (Some (field nd)) else mret None).
Definition get_key (p : pointer) : M table (option K) := entry p key.
Definition get_value (p : pointer) : M table (option V) := entry p value.
(** [*p.value() = v] *)
Definition set_value (p : pointer) (v : V) : M table unit :=
  in_table p (Fault null_deref) (
    c ← gets count;
    _ ← lift (require (_index p <? c) null_deref);
    n ← array_at (_index p); change_node n (with_value v)).
Definition move_back (p : pointer) (n : Z) : M table unit := in_table p (Fault assertion_failed) (move_item_back (_index p) n).
Definition move_forward (p : pointer) (n : Z) : M table unit := in_table p (Fault assertion_failed) (move_item_forward (_index p) n).
Definition set_index (p : pointer) (i : Z) : M table unit := in_table p (Fault assertion_failed) (set_item_index (_index p) i).
Definition set_key (p : pointer) (k : K) : M table unit := in_table p (Fault assertion_failed) (set_item_key (_index p) k).
Definition go_to_next_match (p : pointer) : M table pointer :=
  i ← in_table p (Fault assertion_failed) (next_match (_index p)); mret (mk_pointer (_table p) i).
Definition remove_entry (p : pointer) : M table unit := in_table p (Fault assertion_failed) (remove (_index p)).

Definition insert_unique (k : K) (v : V) : M table pointer :=
  p ← find_pointer k;
  ok ← is_valid p;
  if ok : bool then mret (mk_pointer 0 0) else insert k v.
End hash_table_array.
