(* ===== verification/HashTableArraySpec.v ===== *)
(** * What an array with a hash table promises

    The table of HashTableArray is a list of entries that can be looked up by key: whatever a
    program does with it, indices, [find] and [next_match] give what they give on the list
    ([table_array_refines_list]).  Moving an entry forward never works. *)
From S2P Require Import Prelude HashTable Chain HashTableArray.
From stdpp Require Import gmap.
#[local] Open Scope Z_scope.

Section spec.
Context {K V : Type} `{EqDecision K} (hash : K -> Z).

Notation node := (node (K := K) (V := V)).
Notation table := (table (K := K) (V := V)).
Notation chain := (Chain.chain (next_hash (K := K) (V := V))).
Implicit Types (t : table) (ns : gmap loc node) (nd : node).

(** Everything of a node but its link *)
Definition body nd : node := with_next None nd.
Definition same_bodies ns ns' : Prop := forall p, body <$> ns' !! p = body <$> ns !! p.

Lemma bodies_trans ns1 ns2 ns3 : same_bodies ns1 ns2 -> same_bodies ns2 ns3 -> same_bodies ns1 ns3.
Proof. intros H1 H2 p. by rewrite H2, H1. Qed.
Lemma bodies_link ns p nd h : ns !! p = Some nd -> same_bodies ns (<[p := with_next h nd]> ns).
Proof.
  intros Hp q. destruct (decide (p = q)) as [<-|]; [by rewrite lookup_insert_eq, Hp | by rewrite lookup_insert_ne].
Qed.
Lemma bodies_some ns ns' p : same_bodies ns ns' -> is_Some (ns' !! p) <-> is_Some (ns !! p).
Proof. intros Hs. rewrite <- (fmap_is_Some body (ns' !! p)), <- (fmap_is_Some body (ns !! p)). by rewrite Hs. Qed.
Lemma bodies_lookup ns ns' p nd :
  same_bodies ns ns' -> ns !! p = Some nd -> exists nd', ns' !! p = Some nd' /\ body nd' = body nd.
Proof.
  intros Hs Hp. specialize (Hs p). rewrite Hp in Hs. destruct (ns' !! p) as [nd'|]; [|done]. apply (inj Some) in Hs. by exists nd'.
Qed.

Lemma node_read {A} t p nd (k : node -> M table A) : nodes t !! p = Some nd -> (nd ← node_at p; k nd) t = k nd t.
Proof. intros Hn. unfold node_at, mbind, M_bind. by rewrite Hn. Qed.
Lemma node_change {A} t p nd g (k : M table A) :
  nodes t !! p = Some nd -> (_ ← change_node p g; k) t = k (with_nodes (<[p := g nd]> (nodes t)) t).
Proof. intros Hn. unfold change_node, mbind, M_bind. by rewrite Hn. Qed.

(** ** Rows: the chains of the buckets *)
Definition rows_are t (f : Z -> list loc) : Prop :=
  forall b, 0 <= b < table_size t -> exists h, hash_table t !! Z.to_nat b = Some h /\ chain (nodes t) h (f b).
Definition apart t (f : Z -> list loc) : Prop :=
  (forall b, 0 <= b < table_size t -> NoDup (f b)) /\
  (forall b b' p, 0 <= b < table_size t -> 0 <= b' < table_size t -> p ∈ f b -> p ∈ f b' -> b = b').
Definition upd (f : Z -> list loc) (b : Z) (l : list loc) (b' : Z) : list loc := if decide (b' = b) then l else f b'.

(** What is not touched when links change *)
Record relinked t t' : Prop := {
  rl_bodies : same_bodies (nodes t) (nodes t');
  rl_block : next_block t' = next_block t;
  rl_identity : identity t' = identity t;
  rl_size : table_size t' = table_size t;
  rl_count : count t' = count t;
  rl_array : array t' = array t;
  rl_buckets : length (hash_table t') = length (hash_table t)
}.

Lemma relinked_trans t1 t2 t3 : relinked t1 t2 -> relinked t2 t3 -> relinked t1 t3.
Proof. intros [] []. split; try congruence. Qed.

(** The slot behind the nodes [l1] of a chain *)
Definition slot_after (b : Z) (l1 : list loc) : slot := match list.last l1 with None => in_bucket b | Some q => in_node q end.

Lemma chain_app ns l1 : forall h l2, chain ns h (l1 ++ l2) ->
  exists h2, chain ns h2 l2 /\ match list.last l1 with None => h2 = h | Some q => exists nd, ns !! q = Some nd /\ next_hash nd = h2 end.
Proof.
  induction l1 as [|p l1 IH]; intros h l2 Hc; [by exists h|]. destruct Hc as (-> & nd & Hn & Hc).
  destruct (IH _ _ Hc) as (h2 & Hc2 & Hl). exists h2. split; [done|]. rewrite last_cons.
  destruct (list.last l1) as [q|]; [done|]. exists nd. by split.
Qed.

Lemma chain_head ns h l : chain ns h l -> h = head l.
Proof. destruct l; [done | by intros [-> _]]. Qed.

Lemma read_after t f b l1 l2 :
  rows_are t f -> 0 <= b < table_size t -> f b = l1 ++ l2 -> read_slot (slot_after b l1) t = Ok (head l2, t).
Proof.
  intros Hr Hb Hf. destruct (Hr b Hb) as (h & Hh & Hc). rewrite Hf in Hc. destruct (chain_app _ _ _ _ Hc) as (h2 & Hc2 & Hl).
  apply chain_head in Hc2. unfold slot_after. destruct (list.last l1) as [q|]; cbn [read_slot].
  - destruct Hl as (nd & Hn & <-). rewrite (node_read _ _ _ _ Hn). by rewrite <- Hc2.
  - subst h2 h. by rewrite Hh.
Qed.

Lemma chain_relink ns l1 : forall h p nd x l2 l3,
  chain ns h (l1 ++ p :: l2) -> NoDup (l1 ++ [p]) -> ns !! p = Some nd -> chain ns x l3 -> (forall q, q ∈ l3 -> q ∉ l1 ++ [p]) ->
  chain (<[p := with_next x nd]> ns) h (l1 ++ p :: l3).
Proof.
  induction l1 as [|q l1 IH]; intros h p nd x l2 l3 Hc Hnd Hp Hx Hd; destruct Hc as (-> & ndq & Hq & Hc).
  - cbn [app]. split; [done|]. exists (with_next x nd). rewrite lookup_insert_eq. split; [done|]. apply chain_insert; [|done].
    intros Hin. apply (Hd _ Hin). by left.
  - cbn [app] in *. apply list.NoDup_cons in Hnd as [Hqn Hnd]. split; [done|]. exists ndq. rewrite lookup_insert_ne.
    + split; [done|]. eapply IH; try done. intros r Hr Hin. apply (Hd r Hr). by right.
    + intros ->. apply Hqn, elem_of_app. right. by left.
Qed.

Lemma last_split (l : list loc) q : list.last l = Some q -> exists l', l = l' ++ [q].
Proof. intros H. by apply last_Some in H. Qed.

Lemma write_after t f b l1 l2 x l3 :
  rows_are t f -> apart t f -> 0 <= b < table_size t -> f b = l1 ++ l2 -> chain (nodes t) x l3 -> (forall q, q ∈ l3 -> q ∉ l1) ->
  exists t', write_slot (slot_after b l1) x t = Ok (tt, t') /\ rows_are t' (upd f b (l1 ++ l3)) /\ relinked t t' /\
    (forall q, q ∉ l1 -> nodes t' !! q = nodes t !! q).
Proof.
  intros Hr [Hnd Hap] Hb Hf Hx Hd. destruct (Hr b Hb) as (h & Hh & Hc). pose proof (Hnd b Hb) as Hndb. rewrite Hf in Hc, Hndb.
  unfold slot_after. destruct (list.last l1) as [p|] eqn:Hlast; cbn [write_slot].
  - destruct (last_split _ _ Hlast) as [l1' ->]. destruct (chain_app _ _ _ _ Hc) as (h2 & Hc2 & Hl). rewrite Hlast in Hl.
    destruct Hl as (nd & Hn & _). unfold change_node. rewrite Hn. cbn [of_option mbind result_bind].
    eexists. split; [done|]. split; [|split; [split; cbn; try done; by apply bodies_link|]].
    + intros b' Hb'. cbn in Hb'. destruct (Hr b' Hb') as (h' & Hh' & Hc'). exists h'. split; [done|]. cbn. unfold upd.
      case_decide as Hbb.
      * subst b'. rewrite Hh in Hh'. injection Hh' as <-. rewrite <- app_assoc in *.
        eapply chain_relink; try done. apply list.NoDup_app in Hndb as (H1 & H2 & H3). apply list.NoDup_app. split; [done|].
        split; [|by apply NoDup_singleton]. intros q Hq ->%list_elem_of_singleton. apply (H2 p Hq). by left.
      * eapply chain_insert, Hc'. intros Hin. apply Hbb. eapply (Hap b' b p); try done. rewrite Hf. apply elem_of_app. left.
        apply elem_of_app. right. by left.
    + intros q Hq. cbn. rewrite lookup_insert_ne; [done|]. intros <-. apply Hq, elem_of_app. right. by left.
  - apply last_None in Hlast as ->. rewrite Hh. cbn [of_option mbind result_bind].
    eexists. split; [done|]. split; [|split; [split; cbn; try done; by rewrite length_insert | done]].
    intros b' Hb'. cbn in *. unfold upd. case_decide as Hbb.
    + subst b'. exists x. split; [|done]. apply list_lookup_insert_eq. by apply lookup_lt_Some in Hh.
    + destruct (Hr b' Hb') as (h' & Hh' & Hc'). exists h'. rewrite list_lookup_insert_ne by lia. done.
Qed.

(** ** The loops *)
Lemma slot_after_snoc b l q : slot_after b (l ++ [q]) = in_node q.
Proof. unfold slot_after. by rewrite last_snoc. Qed.

Lemma advance_spec t f b test : rows_are t f -> 0 <= b < table_size t -> forall l2 l1 l3 n,
  f b = l1 ++ l2 ++ l3 -> (length (l2 ++ l3) <= n)%nat ->
  (forall p, p ∈ l2 -> exists nd, nodes t !! p = Some nd /\ test nd = true) ->
  (forall p, head l3 = Some p -> exists nd, nodes t !! p = Some nd /\ test nd = false) ->
  advance n (slot_after b l1) test t = Ok (slot_after b (l1 ++ l2), t).
Proof.
  intros Hr Hb. induction l2 as [|q l2 IH]; intros l1 l3 n Hf Hl Hyes Hno.
  - rewrite app_nil_r. destruct n as [|n]; cbn [advance]; rewrite (bind_step _ _ _ _ _ (read_after _ _ _ _ _ Hr Hb Hf)).
    + destruct l3; [done | cbn in Hl; lia].
    + cbn [app head]. destruct l3 as [|p l3]; [done|]. cbn [head]. destruct (Hno p eq_refl) as (nd & Hn & Ht).
      rewrite (node_read _ _ _ _ Hn). by rewrite Ht.
  - destruct n as [|n]; [cbn in Hl; lia|]. cbn [advance]. rewrite (bind_step _ _ _ _ _ (read_after _ _ _ _ _ Hr Hb Hf)).
    cbn [app head]. destruct (Hyes q ltac:(left)) as (nd & Hn & Ht). rewrite (node_read _ _ _ _ Hn), Ht.
    rewrite <- (slot_after_snoc b l1). rewrite (IH (l1 ++ [q]) l3 n); [by rewrite <- app_assoc | by rewrite <- app_assoc | cbn in Hl; lia | | done].
    intros p Hp. apply Hyes. by right.
Qed.

Lemma seek_spec t f b p : rows_are t f -> 0 <= b < table_size t -> forall l2 l1 l3 n,
  f b = l1 ++ l2 ++ p :: l3 -> p ∉ l2 -> (length l2 <= n)%nat ->
  seek n (slot_after b l1) p t = Ok (slot_after b (l1 ++ l2), t).
Proof.
  intros Hr Hb. induction l2 as [|q l2 IH]; intros l1 l3 n Hf Hp Hl.
  - rewrite app_nil_r. destruct n; cbn [seek]; rewrite (bind_step _ _ _ _ _ (read_after _ _ _ _ _ Hr Hb Hf)); cbn [app head];
      by rewrite decide_True.
  - apply not_elem_of_cons in Hp as [Hpq Hp]. destruct n as [|n]; [cbn in Hl; lia|]. cbn [seek].
    rewrite (bind_step _ _ _ _ _ (read_after _ _ _ _ _ Hr Hb Hf)). cbn [app head]. rewrite decide_False by done.
    rewrite <- (slot_after_snoc b l1). rewrite (IH (l1 ++ [q]) l3 n); [by rewrite <- app_assoc | by rewrite <- app_assoc | done | cbn in Hl; lia].
Qed.

Lemma rows_fuel t f b : rows_are t f -> apart t f -> 0 <= b < table_size t -> (length (f b) <= base.size (nodes t))%nat.
Proof. intros Hr [Hnd _] Hb. destruct (Hr b Hb) as (h & _ & Hc). apply chain_fuel; [by apply Hnd|]. intros p Hp. by eapply chain_lives. Qed.

Lemma rows_ext t f f' : (forall b, 0 <= b < table_size t -> f b = f' b) -> rows_are t f -> rows_are t f'.
Proof. intros He Hr b Hb. destruct (Hr b Hb) as (h & Hh & Hc). exists h. by rewrite <- He. Qed.

(** A change of a node outside of the chains, or of something else than a link *)
Lemma rows_nodes t f ns' :
  (forall b p, 0 <= b < table_size t -> p ∈ f b -> next_hash <$> ns' !! p = next_hash <$> nodes t !! p) -> rows_are t f ->
  rows_are (with_nodes ns' t) f.
Proof.
  intros He Hr b Hb. destruct (Hr b Hb) as (h & Hh & Hc). exists h. split; [done|]. cbn. eapply chain_agree, Hc. intros p Hp.
  by apply (He b).
Qed.

Lemma node_next t f b l1 p l2 nd :
  rows_are t f -> 0 <= b < table_size t -> f b = l1 ++ p :: l2 -> nodes t !! p = Some nd -> chain (nodes t) (next_hash nd) l2.
Proof.
  intros Hr Hb Hf Hn. destruct (Hr b Hb) as (h & _ & Hc). rewrite Hf in Hc.
  destruct (chain_app _ _ _ _ Hc) as (h2 & (_ & nd' & Hn' & Hc') & _). by simplify_eq.
Qed.

Lemma array_unlink_spec t f b l1 p l2 nd :
  rows_are t f -> apart t f -> 0 <= b < table_size t -> f b = l1 ++ p :: l2 -> nodes t !! p = Some nd ->
  exists t', write_slot (slot_after b l1) (next_hash nd) t = Ok (tt, t') /\ rows_are t' (upd f b (l1 ++ l2)) /\ relinked t t' /\
    nodes t' !! p = Some nd.
Proof.
  intros Hr Ha Hb Hf Hn. pose proof (proj1 Ha b Hb) as Hnd. rewrite Hf in Hnd. apply list.NoDup_app in Hnd as (_ & Hd & Hnd).
  destruct (write_after t f b l1 (p :: l2) (next_hash nd) l2) as (t' & E & Hr' & Hrl & Hs); try done.
  { by eapply node_next. } { intros q Hq Hq1. apply (Hd q Hq1). by right. }
  exists t'. split_and!; try done. rewrite Hs; [done|]. intros Hp. apply (Hd p Hp). by left.
Qed.

Lemma array_link_spec t f b l1 p l2 nd :
  rows_are t f -> apart t f -> 0 <= b < table_size t -> f b = l1 ++ l2 -> nodes t !! p = Some nd ->
  (forall b', 0 <= b' < table_size t -> p ∉ f b') ->
  exists t', link (slot_after b l1) p t = Ok (tt, t') /\ rows_are t' (upd f b (l1 ++ p :: l2)) /\ relinked t t'.
Proof.
  intros Hr Ha Hb Hf Hn Hp. unfold link. rewrite (bind_step _ _ _ _ _ (read_after _ _ _ _ _ Hr Hb Hf)), (node_change _ _ _ _ _ Hn).
  set (t1 := with_nodes _ t). assert (Hr1 : rows_are t1 f).
  { apply rows_nodes; [|done]. intros b' q Hb' Hq. rewrite lookup_insert_ne; [done|]. intros <-. by apply (Hp b'). }
  assert (Hc2 : chain (nodes t1) (head l2) l2).
  { destruct (Hr1 b Hb) as (h & _ & Hc). rewrite Hf in Hc. destruct (chain_app _ _ _ _ Hc) as (h2 & Hc2 & _).
    by rewrite <- (chain_head _ _ _ Hc2). }
  pose proof (proj1 Ha b Hb) as Hnd. rewrite Hf in Hnd. apply list.NoDup_app in Hnd as (_ & Hd & _). pose proof (Hp b Hb) as Hpb.
  rewrite Hf in Hpb. destruct (write_after t1 f b l1 l2 (Some p) (p :: l2)) as (t' & E & Hr' & Hrl & _); try done.
  - split; [done|]. eexists. split; [apply lookup_insert_eq | done].
  - intros q [->|Hq]%elem_of_cons Hq1; [|by apply (Hd q)]. apply Hpb, elem_of_app. by left.
  - exists t'. split_and!; try done. eapply relinked_trans, Hrl. split; try done. by apply bodies_link.
Qed.

(** ** Entries: the nodes in the order of the array, with their keys and values *)
Notation item := (loc * (K * V))%type.
Implicit Types (xs ys zs : list item).

Definition row (size : Z) xs (b : Z) : list loc := (filter (fun x => hash x.2.1 mod size = b) xs).*1.

Lemma row_app size xs ys b : row size (xs ++ ys) b = row size xs b ++ row size ys b.
Proof. unfold row. by rewrite filter_app, fmap_app. Qed.
Lemma row_cons_in size p k v xs : row size ((p, (k, v)) :: xs) (hash k mod size) = p :: row size xs (hash k mod size).
Proof. unfold row. by rewrite filter_cons_True. Qed.
Lemma row_cons_out size p k v xs b : hash k mod size <> b -> row size ((p, (k, v)) :: xs) b = row size xs b.
Proof. intros Hb. unfold row. by rewrite filter_cons_False. Qed.
Lemma in_row size xs b p : p ∈ row size xs b <-> exists k v, (p, (k, v)) ∈ xs /\ hash k mod size = b.
Proof.
  unfold row. rewrite list_elem_of_fmap. split.
  - intros ([q [k v]] & -> & Hq). apply list_elem_of_filter in Hq as [Hb Hq]. by exists k, v.
  - intros (k & v & Hp & Hb). exists (p, (k, v)). split; [done|]. by apply list_elem_of_filter.
Qed.
Lemma row_in size xs b p : p ∈ row size xs b -> p ∈ xs.*1.
Proof. rewrite in_row. intros (k & v & Hp & _). apply list_elem_of_fmap. by exists (p, (k, v)). Qed.

Lemma row_sublist size xs b : row size xs b `sublist_of` xs.*1.
Proof. apply fmap_sublist, sublist_filter. Qed.

Lemma entry_one xs p kv kv' : NoDup xs.*1 -> (p, kv) ∈ xs -> (p, kv') ∈ xs -> kv = kv'.
Proof.
  intros Hn (i & Hi)%list_elem_of_lookup (j & Hj)%list_elem_of_lookup.
  assert (i = j) as <- by (apply (NoDup_lookup _ _ _ p Hn); by rewrite list_lookup_fmap, ?Hi, ?Hj). congruence.
Qed.

Lemma row_apart t xs : NoDup xs.*1 -> apart t (row (table_size t) xs).
Proof.
  intros Hn. split.
  - intros b _. by eapply sublist_NoDup, row_sublist.
  - intros b b' p _ _ (k & v & Hp & Hb)%in_row (k' & v' & Hp' & Hb')%in_row.
    pose proof (entry_one _ _ _ _ Hn Hp Hp') as [= -> ->]. congruence.
Qed.

(** The nodes hold the entries. *)
Definition bodies_are ns (size : Z) xs : Prop := forall i p k v,
  xs !! i = Some (p, (k, v)) ->
  exists nd, ns !! p = Some nd /\ body nd = mk_node None (Z.of_nat i) (hash k) (hash k mod size) k v.

Lemma bodies_are_same ns ns' size xs : same_bodies ns ns' -> bodies_are ns size xs -> bodies_are ns' size xs.
Proof.
  intros Hs Hb i p k v Hi. destruct (Hb _ _ _ _ Hi) as (nd & Hn & He). destruct (bodies_lookup _ _ _ _ Hs Hn) as (nd' & Hn' & He').
  exists nd'. split; [done|]. congruence.
Qed.

Record tab_ok t xs : Prop := {
  to_buckets : Z.of_nat (length (hash_table t)) = table_size t;
  to_slots : Z.of_nat (length (array t)) = table_size t;
  to_count : count t = Z.of_nat (length xs);
  to_room : xs = [] /\ table_size t = 0 \/ Z.of_nat (length xs) < table_size t;
  to_small : table_size t < 2 ^ 31;
  to_array : exists rest, array t = (Some <$> xs.*1) ++ rest;
  to_bodies : bodies_are (nodes t) (table_size t) xs;
  to_rows : rows_are t (row (table_size t) xs);
  to_nodup : NoDup xs.*1;
  to_nodes : forall p, is_Some (nodes t !! p) <-> p ∈ xs.*1;
  to_fresh : forall p, p ∈ xs.*1 -> (p < next_block t)%positive;
  to_identity : identity t = 0%nat <-> table_size t = 0
}.

(** ** The chains when an entry goes or comes *)
Lemma remove_from_hash_spec t xs p k v zs nd :
  0 < table_size t -> rows_are t (row (table_size t) (xs ++ (p, (k, v)) :: zs)) -> NoDup (xs ++ (p, (k, v)) :: zs).*1 ->
  nodes t !! p = Some nd -> hash_index nd = hash k mod table_size t ->
  exists t', remove_from_hash p t = Ok (tt, t') /\ rows_are t' (row (table_size t) (xs ++ zs)) /\ relinked t t' /\ nodes t' !! p = Some nd.
Proof.
  intros Hpos Hr Hnd Hn Hi. pose proof (row_apart t _ Hnd) as Ha. set (b := hash k mod table_size t).
  assert (Hb : 0 <= b < table_size t) by by apply Z.mod_pos_bound.
  assert (Hf : row (table_size t) (xs ++ (p, (k, v)) :: zs) b = row (table_size t) xs b ++ p :: row (table_size t) zs b).
  { unfold b. by rewrite row_app, row_cons_in. }
  unfold remove_from_hash. rewrite (node_read _ _ _ _ Hn), Hi. unfold fuel at 1. unfold gets at 1, mbind at 1, M_bind at 1.
  pose proof (rows_fuel _ _ _ Hr Ha Hb) as Hfuel. rewrite Hf, length_app in Hfuel. cbn [length] in Hfuel.
  pose proof (proj1 Ha b Hb) as Hnd'. rewrite Hf in Hnd'. apply list.NoDup_app in Hnd' as (_ & Hd & _).
  rewrite (bind_step _ _ _ _ _ (seek_spec t _ b p Hr Hb (row (table_size t) xs b) [] _ (base.size (nodes t)) Hf ltac:(intros Hp; apply (Hd p Hp); by left) ltac:(lia))).
  rewrite (node_read _ _ _ _ Hn). cbn [app].
  destruct (array_unlink_spec _ _ _ _ _ _ _ Hr Ha Hb Hf Hn) as (t' & E & Hr' & Hrl & Hn'). exists t'. split_and!; try done.
  eapply rows_ext, Hr'. intros b' _. unfold upd. rewrite !row_app. case_decide as Hbb; [by subst b'|].
  by rewrite (row_cons_out _ _ _ _ _ _ (not_eq_sym Hbb)).
Qed.

Lemma gets_step {S A B} (g : S -> A) (k : A -> M S B) s : (x ← gets g; k x) s = k (g s) s.
Proof. done. Qed.

Lemma insert_in_hash_spec t xs p zs nd :
  0 < table_size t -> rows_are t (row (table_size t) (xs ++ zs)) -> NoDup (xs ++ (p, (key nd, value nd)) :: zs).*1 ->
  nodes t !! p = Some nd ->
  (forall q, q ∈ xs.*1 -> exists nd', nodes t !! q = Some nd' /\ index nd' < index nd) ->
  (forall q, q ∈ zs.*1 -> exists nd', nodes t !! q = Some nd' /\ index nd <= index nd') ->
  exists t', insert_in_hash hash p t = Ok (tt, t') /\ rows_are t' (row (table_size t) (xs ++ (p, (key nd, value nd)) :: zs)) /\
    relinked (with_nodes (<[p := with_hash (hash (key nd)) (hash (key nd) mod table_size t) nd]> (nodes t)) t) t'.
Proof.
  intros Hpos Hr Hnd Hn Hxs Hzs. unfold insert_in_hash. rewrite (node_read _ _ _ _ Hn), gets_step.
  destruct (Z.eqb_spec (table_size t) 0); [lia|]. cbn [negb require lift]. rewrite (lift_step _ tt) by done.
  set (b := hash (key nd) mod table_size t). rewrite (node_change _ _ _ _ _ Hn). unfold fuel at 1. rewrite gets_step.
  set (nd1 := with_hash _ _ nd). set (t1 := with_nodes _ t).
  rewrite fmap_app, fmap_cons in Hnd. cbn [fst] in Hnd.
  assert (Hp : p ∉ (xs ++ zs).*1).
  { rewrite fmap_app. apply list.NoDup_app in Hnd as (_ & Hd & Hz). apply list.NoDup_cons in Hz as [Hz _].
    intros [Hp|Hp]%elem_of_app; [apply (Hd p Hp); by left | done]. }
  assert (Hnd2 : NoDup (xs ++ zs).*1).
  { rewrite fmap_app. rewrite <- Permutation_middle in Hnd. by apply list.NoDup_cons in Hnd as [_ Hnd]. }
  assert (Hother : forall q, q ∈ (xs ++ zs).*1 -> nodes t1 !! q = nodes t !! q).
  { intros q Hq. cbn. rewrite lookup_insert_ne; [done|]. by intros <-. }
  assert (Hr1 : rows_are t1 (row (table_size t1) (xs ++ zs))).
  { apply rows_nodes; [|done]. intros b' q _ Hq%row_in. pose proof (Hother q Hq) as E. cbn in E. by rewrite E. }
  assert (Hb : 0 <= b < table_size t1) by by apply Z.mod_pos_bound.
  assert (Hf : row (table_size t1) (xs ++ zs) b = [] ++ row (table_size t1) xs b ++ row (table_size t1) zs b) by by rewrite row_app.
  pose proof (row_apart t1 _ Hnd2) as Ha. pose proof (rows_fuel _ _ _ Hr1 Ha Hb) as Hfuel. rewrite Hf in Hfuel.
  rewrite (bind_step _ _ _ _ _ (advance_spec t1 _ b (fun other => index other <? index nd) Hr1 Hb (row (table_size t1) xs b) [] _ (base.size (nodes t1)) Hf Hfuel
    ltac:(intros q Hq%row_in; destruct (Hxs q Hq) as (nd' & Hn' & Hi); exists nd'; split; [rewrite Hother; [done|]; rewrite fmap_app; apply elem_of_app; by left | by apply Z.ltb_lt])
    ltac:(intros q Hq%head_Some_elem_of%row_in; destruct (Hzs q Hq) as (nd' & Hn' & Hi); exists nd'; split; [rewrite Hother; [done|]; rewrite fmap_app; apply elem_of_app; by right | by apply Z.ltb_ge]))).
  cbn [app]. destruct (array_link_spec t1 _ b (row (table_size t1) xs b) p (row (table_size t1) zs b) nd1 Hr1 Ha Hb Hf) as (t' & E & Hr' & Hrl).
  { cbn. by rewrite lookup_insert_eq. } { intros b' _ Hin%row_in. done. }
  exists t'. split_and!; try done. eapply rows_ext, Hr'. intros b' _. unfold upd. rewrite !row_app. case_decide as Hbb.
  - subst b'. by rewrite row_cons_in.
  - by rewrite (row_cons_out _ _ _ _ _ _ (not_eq_sym Hbb)).
Qed.

(** ** The array when entries move up *)
Lemma array_at_step {A} t i p (k : loc -> M table A) : array t !! Z.to_nat i = Some (Some p) -> (q ← array_at i; k q) t = k p t.
Proof. intros Hi. unfold array_at, mbind, M_bind. by rewrite Hi. Qed.
Lemma array_set_step {A} t i p (k : M table A) :
  (Z.to_nat i < length (array t))%nat -> (_ ← array_set i p; k) t = k (with_array (<[Z.to_nat i := Some p]> (array t)) t).
Proof. intros [o Hi]%lookup_lt_is_Some_2. unfold array_set, mbind, M_bind. by rewrite Hi. Qed.

Fixpoint reindex ns (i : Z) (qs : list loc) : gmap loc node :=
  match qs with [] => ns | q :: qs => reindex (alter (with_index i) q ns) (i + 1) qs end.

Lemma reindex_next qs : forall ns i p, next_hash <$> reindex ns i qs !! p = next_hash <$> ns !! p.
Proof.
  induction qs as [|q qs IH]; intros ns i p; [done|]. cbn [reindex]. rewrite IH.
  destruct (decide (p = q)) as [->|]; [by rewrite lookup_alter_eq; destruct (ns !! q) | by rewrite lookup_alter_ne].
Qed.
Lemma reindex_out qs : forall ns i p, p ∉ qs -> reindex ns i qs !! p = ns !! p.
Proof.
  induction qs as [|q qs IH]; intros ns i p Hp; [done|]. apply not_elem_of_cons in Hp as [Hq Hp]. cbn [reindex].
  rewrite IH by done. by rewrite lookup_alter_ne.
Qed.
Lemma reindex_in qs : forall ns i j q, NoDup qs -> qs !! j = Some q -> reindex ns i qs !! q = with_index (i + Z.of_nat j) <$> ns !! q.
Proof.
  induction qs as [|q' qs IH]; intros ns i [|j] q Hn Hj; [done | done | |]; apply list.NoDup_cons in Hn as [Hq Hn]; cbn in Hj; cbn [reindex].
  - injection Hj as ->. rewrite reindex_out, lookup_alter_eq by done. do 2 f_equal. lia.
  - rewrite (IH _ _ j) by done. rewrite lookup_alter_ne by (intros ->; by eapply Hq, list_elem_of_lookup_2).
    do 2 f_equal. lia.
Qed.

Lemma change_is_alter ns p nd g : ns !! p = Some nd -> <[p := g nd]> ns = alter g p ns.
Proof.
  intros Hn. apply map_eq. intros q. destruct (decide (q = p)) as [->|].
  - by rewrite lookup_insert_eq, lookup_alter_eq, Hn.
  - by rewrite lookup_insert_ne, lookup_alter_ne.
Qed.

Lemma alter_lives ns g p q : is_Some (alter g p ns !! q) <-> is_Some (ns !! q).
Proof. destruct (decide (q = p)) as [->|]; [by rewrite lookup_alter_eq, fmap_is_Some | by rewrite lookup_alter_ne]. Qed.

(** The slot [o] is closed: the nodes behind it move up, and the last slot keeps what it held. *)
Lemma close_gap_spec qs : forall t a o rest,
  array t = a ++ o :: (Some <$> qs) ++ rest -> (forall q, q ∈ qs -> is_Some (nodes t !! q)) ->
  exists o', close_gap (length qs) (Z.of_nat (length a)) t =
    Ok (tt, with_array (a ++ (Some <$> qs) ++ o' :: rest) (with_nodes (reindex (nodes t) (Z.of_nat (length a)) qs) t)).
Proof.
  induction qs as [|q qs IH]; intros t a o rest Ha Hq.
  - exists o. destruct t. cbn in *. by subst.
  - cbn [length close_gap]. rewrite (array_at_step _ _ q).
    2: { rewrite Ha, lookup_app_r by lia. by replace (Z.to_nat (Z.of_nat (length a) + 1) - length a)%nat with 1%nat by lia. }
    rewrite array_set_step by (rewrite Ha, length_app; cbn; lia).
    destruct (Hq q ltac:(left)) as [nd Hn]. rewrite (node_change _ _ nd) by done. cbn [nodes with_array].
    set (t1 := with_nodes _ _).
    destruct (IH t1 (a ++ [Some q]) (Some q) rest) as [o' E].
    { subst t1. cbn. rewrite Ha, Nat2Z.id, insert_app_r_alt by done. by rewrite Nat.sub_diag, <- app_assoc. }
    { intros r Hr. cbn. rewrite (change_is_alter _ _ _ _ Hn), alter_lives. apply Hq. by right. }
    rewrite length_app in E. cbn [length] in E. replace (Z.of_nat (length a + 1)) with (Z.of_nat (length a) + 1) in E by lia.
    exists o'. rewrite E. cbn [nodes with_nodes t1 reindex fmap list_fmap]. rewrite (change_is_alter _ _ _ _ Hn).
    by rewrite <- app_assoc.
Qed.

Lemma shift_back_spec qs : forall t a o rest,
  array t = a ++ o :: (Some <$> qs) ++ rest -> NoDup qs -> Z.of_nat (length (array t)) <= 2 ^ 31 ->
  (forall j q, qs !! j = Some q -> exists nd, nodes t !! q = Some nd /\ index nd = Z.of_nat (length a) + 1 + Z.of_nat j) ->
  shift_back (length qs) (Z.of_nat (length a)) t = close_gap (length qs) (Z.of_nat (length a)) t.
Proof.
  induction qs as [|q qs IH]; intros t a o rest Ha Hnd Hsmall Hq; [done|]. cbn [length close_gap shift_back].
  assert (Hat : array t !! Z.to_nat (Z.of_nat (length a) + 1) = Some (Some q)).
  { rewrite Ha, lookup_app_r by lia. by replace (Z.to_nat (Z.of_nat (length a) + 1) - length a)%nat with 1%nat by lia. }
  rewrite !(array_at_step _ _ _ _ Hat). destruct (Hq 0%nat q eq_refl) as (nd & Hn & Hi). rewrite (node_read _ _ _ _ Hn).
  assert (Z.of_nat (length a) < Z.of_nat (length (array t))) by (rewrite Ha, length_app; cbn; lia).
  rewrite (lift_step _ tt).
  2: { unfold u32. rewrite Z.mod_small by lia. rewrite Hi. by destruct (Z.eqb_spec (Z.of_nat (length a) + 1 + Z.of_nat 0) (Z.of_nat (length a) + 1)); [|lia]. }
  rewrite !array_set_step by lia. rewrite !(node_change _ _ nd) by done. cbn [nodes with_array].
  set (t1 := with_nodes _ _). apply list.NoDup_cons in Hnd as [Hqn Hnd].
  specialize (IH t1 (a ++ [Some q]) (Some q) rest). rewrite length_app in IH. cbn [length] in IH.
  replace (Z.of_nat (length a + 1)) with (Z.of_nat (length a) + 1) in IH by lia. apply IH; try done.
  - subst t1. cbn. rewrite Ha, Nat2Z.id, insert_app_r_alt by done. by rewrite Nat.sub_diag, <- app_assoc.
  - subst t1. cbn. by rewrite length_insert.
  - intros j r Hj. cbn. rewrite lookup_insert_ne by (intros ->; by eapply Hqn, list_elem_of_lookup_2).
    destruct (Hq (S j) r Hj) as (nd' & Hn' & Hi'). exists nd'. split; [done|]. lia.
Qed.

(** ** What a table in order gives at an entry *)
Lemma entry_node t xs p k v zs : tab_ok t (xs ++ (p, (k, v)) :: zs) ->
  exists nd, nodes t !! p = Some nd /\ body nd = mk_node None (Z.of_nat (length xs)) (hash k) (hash k mod table_size t) k v.
Proof. intros Ht. apply (to_bodies _ _ Ht). by apply list_lookup_middle. Qed.

Lemma entry_slot t xs x zs : tab_ok t (xs ++ x :: zs) -> array t !! length xs = Some (Some x.1).
Proof.
  intros Ht. destruct (to_array _ _ Ht) as [rest ->]. rewrite !fmap_app, <- app_assoc.
  apply list_lookup_middle. by rewrite !length_fmap.
Qed.

Lemma entry_sizes t xs x zs : tab_ok t (xs ++ x :: zs) ->
  0 < table_size t /\ Z.of_nat (length xs) < count t /\ count t = Z.of_nat (length xs) + 1 + Z.of_nat (length zs) /\ count t < table_size t.
Proof.
  intros Ht. rewrite (to_count _ _ Ht). destruct (to_room _ _ Ht) as [[E _]|Hr]; [by destruct xs|].
  rewrite length_app in *. cbn [length] in *. lia.
Qed.

Lemma bodies_before ns size xs zs q : bodies_are ns size (xs ++ zs) -> q ∈ xs.*1 ->
  exists nd, ns !! q = Some nd /\ index nd < Z.of_nat (length xs).
Proof.
  intros Hb ([q' [k v]] & -> & (i & Hi)%list_elem_of_lookup)%list_elem_of_fmap. pose proof (lookup_lt_Some _ _ _ Hi).
  destruct (Hb i q' k v) as (nd & Hn & He); [by rewrite lookup_app_l|]. exists nd. split; [done|]. injection He as E _ _ _ _. cbn in *. lia.
Qed.

Lemma bodies_after ns size xs x zs q : bodies_are ns size (xs ++ x :: zs) -> q ∈ zs.*1 ->
  exists nd, ns !! q = Some nd /\ Z.of_nat (length xs) < index nd.
Proof.
  intros Hb ([q' [k v]] & -> & (i & Hi)%list_elem_of_lookup)%list_elem_of_fmap.
  destruct (Hb (length xs + S i)%nat q' k v) as (nd & Hn & He).
  { rewrite lookup_app_r by lia. by replace (length xs + S i - length xs)%nat with (S i) by lia. }
  exists nd. split; [done|]. injection He as E _ _ _ _. cbn in *. lia.
Qed.

Lemma nodup_middle xs x zs : NoDup (xs ++ x :: zs).*1 -> x.1 ∉ (xs ++ zs).*1 /\ NoDup (xs ++ zs).*1.
Proof. rewrite !fmap_app, fmap_cons, <- Permutation_middle. apply list.NoDup_cons. Qed.

(** *** Another key or value for an entry *)
Lemma bodies_change ns size xs p kv k' v' zs nd :
  bodies_are ns size (xs ++ (p, kv) :: zs) -> NoDup (xs ++ (p, kv) :: zs).*1 ->
  body nd = mk_node None (Z.of_nat (length xs)) (hash k') (hash k' mod size) k' v' ->
  bodies_are (<[p := nd]> ns) size (xs ++ (p, (k', v')) :: zs).
Proof.
  intros Hb [Hp _]%nodup_middle Hnd i q k v Hi. cbn in Hp. destruct (decide (i = length xs)) as [->|Hne].
  - rewrite list_lookup_middle in Hi by done. simplify_eq. exists nd. by rewrite lookup_insert_eq.
  - assert ((xs ++ (p, kv) :: zs) !! i = Some (q, (k, v)) /\ (q, (k, v)) ∈ xs ++ zs) as [Hi' Hq].
    { destruct (decide (i < length xs)%nat).
      - rewrite lookup_app_l in * by done. split; [done|]. apply elem_of_app. left. by eapply list_elem_of_lookup_2.
      - rewrite lookup_app_r in * by lia. destruct (i - length xs)%nat as [|j] eqn:E; [lia|]. split; [done|]. apply elem_of_app. right.
        by eapply list_elem_of_lookup_2. }
    destruct (Hb _ _ _ _ Hi') as (nd' & Hn & He). exists nd'. split; [|done]. rewrite lookup_insert_ne; [done|]. intros <-.
    apply Hp, list_elem_of_fmap. by exists (p, (k, v)).
Qed.

Lemma tab_change t t' xs p kv k' v' zs nd :
  tab_ok t (xs ++ (p, kv) :: zs) -> body nd = mk_node None (Z.of_nat (length xs)) (hash k') (hash k' mod table_size t) k' v' ->
  relinked (with_nodes (<[p := nd]> (nodes t)) t) t' -> rows_are t' (row (table_size t) (xs ++ (p, (k', v')) :: zs)) ->
  tab_ok t' (xs ++ (p, (k', v')) :: zs).
Proof.
  intros Ht Hb [Hs H1 H2 H3 H4 H5 H6] Hr. cbn in *.
  assert (Hfst : (xs ++ (p, (k', v')) :: zs).*1 = (xs ++ (p, kv) :: zs).*1) by by rewrite !fmap_app.
  assert (Hlen : length (xs ++ (p, (k', v')) :: zs) = length (xs ++ (p, kv) :: zs)) by by rewrite !length_app.
  split; rewrite ?Hfst, ?Hlen, ?H1, ?H2, ?H3, ?H4, ?H5, ?H6; try apply Ht.
  - right. destruct (to_room _ _ Ht) as [[E _]|?]; [by destruct xs | done].
  - eapply bodies_are_same, bodies_change; [exact Hs | apply Ht | apply Ht | done].
  - done.
  - intros q. rewrite (bodies_some _ _ _ Hs), lookup_insert_is_Some, (to_nodes _ _ Ht).
    assert (p ∈ (xs ++ (p, kv) :: zs).*1) by (rewrite fmap_app; apply elem_of_app; right; by left).
    destruct (decide (p = q)) as [<-|]; naive_solver.
Qed.

Lemma relinked_insert t t1 p nd : relinked t t1 ->
  relinked (with_nodes (<[p := nd]> (nodes t)) t) (with_nodes (<[p := nd]> (nodes t1)) t1).
Proof.
  intros []. split; try done. intros q. cbn.
  destruct (decide (p = q)) as [<-|]; [by rewrite !lookup_insert_eq | by rewrite !lookup_insert_ne].
Qed.

Lemma set_item_key_spec t xs p k v zs k' : tab_ok t (xs ++ (p, (k, v)) :: zs) ->
  exists t', set_item_key hash (Z.of_nat (length xs)) k' t = Ok (tt, t') /\ tab_ok t' (xs ++ (p, (k', v)) :: zs) /\ identity t' = identity t.
Proof.
  intros Ht. destruct (entry_sizes _ _ _ _ Ht) as (Hpos & Hc & _). destruct (entry_node _ _ _ _ _ _ Ht) as (nd & Hn & Hb).
  unfold set_item_key. rewrite gets_step, (lift_step _ tt) by (by apply Z.ltb_lt in Hc as ->).
  rewrite (array_at_step _ _ p) by (rewrite Nat2Z.id; apply (entry_slot _ _ _ _ Ht)).
  destruct (remove_from_hash_spec _ _ _ _ _ _ _ Hpos (to_rows _ _ Ht) (to_nodup _ _ Ht) Hn) as (t1 & E1 & Hr1 & Hrl1 & Hn1); [by injection Hb|].
  rewrite (bind_step _ _ _ _ _ E1), (node_change _ _ _ _ _ Hn1). set (nd2 := with_key k' nd). set (t2 := with_nodes _ t1).
  assert (Hs2 : table_size t2 = table_size t) by apply Hrl1.
  destruct (nodup_middle _ _ _ (to_nodup _ _ Ht)) as [Hp Hnd]. cbn [fst] in Hp.
  assert (value nd2 = v /\ key nd2 = k' /\ index nd2 = Z.of_nat (length xs)) as (Hv & Hk & Hi) by (injection Hb; done).
  assert (Hother : forall q, q ∈ (xs ++ zs).*1 -> same_bodies (nodes t) (nodes t1) ->
            forall x, nodes t !! q = Some x -> exists y, nodes t2 !! q = Some y /\ index y = index x).
  { intros q Hq Hs x Hx. destruct (bodies_lookup _ _ _ _ Hs Hx) as (y & Hy & [= E _ _ _ _]). exists y. split; [|done].
    cbn. rewrite lookup_insert_ne; [done|]. by intros <-. }
  destruct (insert_in_hash_spec t2 xs p zs nd2) as (t' & E & Hr' & Hrl).
  - by rewrite Hs2.
  - rewrite Hs2. apply rows_nodes; [|done]. intros b q _ Hq%row_in. rewrite lookup_insert_ne; [done|]. by intros <-.
  - rewrite Hv, Hk, fmap_app. pose proof (to_nodup _ _ Ht) as Hn'. by rewrite fmap_app in Hn'.
  - apply lookup_insert_eq.
  - intros q Hq. destruct (bodies_before _ _ _ _ _ (to_bodies _ _ Ht) Hq) as (x & Hx & Hlt).
    destruct (Hother q ltac:(rewrite fmap_app; apply elem_of_app; by left) (rl_bodies _ _ Hrl1) x Hx) as (y & Hy & Ey). exists y. split; [done | lia].
  - intros q Hq. destruct (bodies_after _ _ _ _ _ _ (to_bodies _ _ Ht) Hq) as (x & Hx & Hlt).
    destruct (Hother q ltac:(rewrite fmap_app; apply elem_of_app; by right) (rl_bodies _ _ Hrl1) x Hx) as (y & Hy & Ey). exists y. split; [done | lia].
  - exists t'. rewrite Hv, Hk in *. split; [done|]. split; [|by rewrite (rl_identity _ _ Hrl); apply Hrl1].
    rewrite Hs2 in *. eapply (tab_change t t' _ _ _ _ _ _ (with_hash (hash k') (hash k' mod table_size t) nd2)); [done | | | done].
    + transitivity (mk_node None (index nd2) (hash k') (hash k' mod table_size t) (key nd2) (value nd2)); [done | congruence].
    + eapply relinked_trans, Hrl. cbn [nodes with_nodes t2]. rewrite insert_insert_eq. exact (relinked_insert _ _ p _ Hrl1).
Qed.

Lemma set_value_spec t xs p k v zs v' : tab_ok t (xs ++ (p, (k, v)) :: zs) ->
  exists t', set_value (mk_pointer (identity t) (Z.of_nat (length xs))) v' t = Ok (tt, t') /\ tab_ok t' (xs ++ (p, (k, v')) :: zs) /\ identity t' = identity t.
Proof.
  intros Ht. destruct (entry_sizes _ _ _ _ Ht) as (Hpos & Hc & _). destruct (entry_node _ _ _ _ _ _ Ht) as (nd & Hn & Hb).
  unfold set_value, in_table. cbn [_table _index]. rewrite decide_True by done.
  rewrite gets_step, (lift_step _ tt) by (by apply Z.ltb_lt in Hc as ->).
  rewrite (array_at_step _ _ p) by (rewrite Nat2Z.id; apply (entry_slot _ _ _ _ Ht)).
  unfold change_node. rewrite Hn. cbn [of_option mbind result_bind]. eexists. split; [done|]. split; [|done].
  eapply (tab_change t _ _ _ _ _ _ _ (with_value v' nd)); [done | | by split |].
  - destruct nd. unfold body in *. cbn in *. by injection Hb as -> -> -> -> ->.
  - eapply rows_ext, rows_nodes; [| |apply Ht].
    + intros b _. cbn. rewrite !row_app. f_equal. unfold row. rewrite !filter_cons. cbn. by case_decide.
    + intros b q _ _. destruct (decide (q = p)) as [->|]; [by rewrite lookup_insert_eq, Hn | by rewrite lookup_insert_ne].
Qed.

(** *** The nodes of a part of the array *)
Definition bodies_from ns (size n : Z) xs : Prop := forall i p k v,
  xs !! i = Some (p, (k, v)) ->
  exists nd, ns !! p = Some nd /\ body nd = mk_node None (n + Z.of_nat i) (hash k) (hash k mod size) k v.

Lemma bodies_are_from ns size xs : bodies_are ns size xs <-> bodies_from ns size 0 xs.
Proof. done. Qed.

Lemma bodies_from_app ns size n xs zs :
  bodies_from ns size n (xs ++ zs) <-> bodies_from ns size n xs /\ bodies_from ns size (n + Z.of_nat (length xs)) zs.
Proof.
  split.
  - intros Hb. split.
    + intros i p k v Hi. apply (Hb i). rewrite lookup_app_l; [done|]. by eapply lookup_lt_Some.
    + intros i p k v Hi. destruct (Hb (length xs + i)%nat p k v) as (nd & Hn & E).
      { rewrite lookup_app_r by lia. by replace (length xs + i - length xs)%nat with i by lia. }
      exists nd. split; [done|]. rewrite E. f_equal. lia.
  - intros [Hx Hz] i p k v Hi. apply lookup_app_Some in Hi as [Hi|[Hl Hi]]; [by apply Hx|].
    destruct (Hz _ _ _ _ Hi) as (nd & Hn & E). exists nd. split; [done|]. rewrite E. f_equal. lia.
Qed.

Lemma bodies_from_one ns size n p k v zs : bodies_from ns size n ((p, (k, v)) :: zs) <->
  (exists nd, ns !! p = Some nd /\ body nd = mk_node None n (hash k) (hash k mod size) k v) /\ bodies_from ns size (n + 1) zs.
Proof.
  rewrite (bodies_from_app _ _ _ [(p, (k, v))] zs). cbn [length]. apply and_iff_compat_r. split.
  - intros Hb. destruct (Hb 0%nat p k v eq_refl) as (nd & Hn & E). exists nd. split; [done|]. rewrite E. f_equal. lia.
  - intros (nd & Hn & E) [|i] q k' v' Hi; [|by destruct i]. cbn in Hi. simplify_eq. exists nd. split; [done|]. rewrite E. f_equal. lia.
Qed.

Lemma bodies_from_other ns ns' size n xs : (forall q, q ∈ xs.*1 -> ns' !! q = ns !! q) -> bodies_from ns size n xs -> bodies_from ns' size n xs.
Proof.
  intros Hq Hb i p k v Hi. rewrite Hq; [by apply Hb|]. apply list_elem_of_fmap. exists (p, (k, v)). split; [done|]. by eapply list_elem_of_lookup_2.
Qed.

Lemma bodies_from_reindex ns size m n xs : NoDup xs.*1 -> bodies_from ns size m xs -> bodies_from (reindex ns n xs.*1) size n xs.
Proof.
  intros Hnd Hb i p k v Hi. destruct (Hb _ _ _ _ Hi) as (nd & Hn & E). exists (with_index (n + Z.of_nat i) nd). split.
  - rewrite (reindex_in _ _ _ i), Hn; [done | done|]. by rewrite list_lookup_fmap, Hi.
  - destruct nd. unfold body in *. cbn in *. by injection E as -> -> -> -> ->.
Qed.

Lemma nodup_parts xs zs : NoDup (xs ++ zs).*1 -> NoDup xs.*1 /\ NoDup zs.*1 /\ (forall q, q ∈ xs.*1 -> q ∈ zs.*1 -> False).
Proof. rewrite fmap_app. intros (H1 & H2 & H3)%list.NoDup_app. naive_solver. Qed.

Lemma bodies_close ns size xs p kv zs :
  NoDup (xs ++ (p, kv) :: zs).*1 -> bodies_are ns size (xs ++ (p, kv) :: zs) ->
  bodies_are (delete p (reindex ns (Z.of_nat (length xs)) zs.*1)) size (xs ++ zs).
Proof.
  destruct kv as [k v]. intros Hnd. rewrite !bodies_are_from, !bodies_from_app, bodies_from_one. intros (Hx & _ & Hz).
  destruct (nodup_middle _ _ _ Hnd) as [Hp Hnd']. destruct (nodup_parts _ _ Hnd') as (_ & Hnz & Hd). rewrite fmap_app, not_elem_of_app in Hp. cbn [fst] in Hp.
  split.
  - eapply bodies_from_other, Hx. intros q Hq. rewrite lookup_delete_ne by naive_solver. apply reindex_out. naive_solver.
  - eapply bodies_from_other, bodies_from_reindex, Hz; [|done]. intros q Hq. apply lookup_delete_ne. naive_solver.
Qed.

Lemma array_remove_spec t xs p kv zs : tab_ok t (xs ++ (p, kv) :: zs) ->
  exists t', HashTableArray.remove (Z.of_nat (length xs)) t = Ok (tt, t') /\ tab_ok t' (xs ++ zs) /\ identity t' = identity t.
Proof.
  destruct kv as [k v]. intros Ht. destruct (entry_sizes _ _ _ _ Ht) as (Hpos & Hc & Hcount & Hroom). destruct (entry_node _ _ _ _ _ _ Ht) as (nd & Hn & Hb).
  pose proof (to_nodup _ _ Ht) as Hnd. destruct (nodup_middle _ _ _ Hnd) as [Hp Hnd']. cbn [fst] in Hp.
  unfold HashTableArray.remove. rewrite gets_step, (lift_step _ tt) by (by apply Z.ltb_lt in Hc as ->).
  rewrite (array_at_step _ _ p) by (rewrite Nat2Z.id; apply (entry_slot _ _ _ _ Ht)).
  destruct (remove_from_hash_spec _ _ _ _ _ _ _ Hpos (to_rows _ _ Ht) Hnd Hn) as (t1 & E1 & Hr1 & [Hs H1 H2 H3 H4 H5 H6] & Hn1); [by injection Hb|].
  rewrite (bind_step _ _ _ _ _ E1). destruct (to_array _ _ Ht) as [rest Ha].
  destruct (close_gap_spec zs.*1 t1 (Some <$> xs.*1) (Some p) rest) as [o' E].
  { by rewrite H5, Ha, !fmap_app, <- app_assoc. }
  { intros q Hq. rewrite (bodies_some _ _ _ Hs), (to_nodes _ _ Ht), fmap_app. apply elem_of_app. right. by right. }
  rewrite !length_fmap in E. replace (Z.to_nat (count t - 1 - Z.of_nat (length xs))) with (length zs) by lia.
  rewrite (bind_step _ _ _ _ _ E). eexists. split; [done|]. split; [|done].
  assert (Hne : Z.of_nat (length (xs ++ zs)) < table_size t) by (rewrite length_app; lia).
  split; cbn; rewrite ?H1, ?H2, ?H3, ?H4, ?H5, ?H6; try apply Ht; try done.
  - rewrite <- (to_slots _ _ Ht), Ha, !fmap_app, !length_app. cbn. rewrite !length_fmap. lia.
  - rewrite length_app. lia.
  - by right.
  - exists (o' :: rest). by rewrite !fmap_app, <- app_assoc.
  - eapply bodies_close; [done|]. eapply bodies_are_same, Ht. done.
  - rewrite <- H3 in Hr1 |- *. intros b Hb'. destruct (Hr1 b Hb') as (h & Hh & Hch). exists h. split; [done|]. eapply chain_agree, Hch.
    intros q Hq%row_in. cbn [nodes with_nodes with_array with_table_count]. rewrite lookup_delete_ne by (by intros <-). apply reindex_next.
  - intros q. rewrite lookup_delete_is_Some. rewrite <- (fmap_is_Some next_hash), reindex_next, fmap_is_Some, (bodies_some _ _ _ Hs), (to_nodes _ _ Ht).
    rewrite !fmap_app, fmap_cons, <- Permutation_middle, elem_of_cons, <- fmap_app. cbn [fst]. split; [naive_solver|]. intros Hq. split; [by intros -> | by right].
  - intros q Hq. apply (to_fresh _ _ Ht). rewrite fmap_app, fmap_cons, <- Permutation_middle, <- fmap_app. by right.
Qed.

(** *** A new entry *)
Lemma relinked_fields t t' : relinked t t' ->
  next_block t' = next_block t /\ identity t' = identity t /\ table_size t' = table_size t /\ count t' = count t /\ array t' = array t /\
  length (hash_table t') = length (hash_table t).
Proof. intros []. split_and!; done. Qed.

Lemma insert_node_spec t xs k v : tab_ok t xs -> Z.of_nat (length xs) + 1 < table_size t ->
  exists p t', (p ← new_node k v; insert_node hash p) t = Ok (Z.of_nat (length xs), t') /\ tab_ok t' (xs ++ [(p, (k, v))]) /\ identity t' = identity t.
Proof.
  intros Ht Hroom. set (p := next_block t). exists p. unfold new_node, insert_node. unfold mbind at 1, M_bind at 1.
  fold p. set (t0 := mk_table _ _ _ _ _ _ _). rewrite !gets_step. cbn [count table_size t0]. rewrite (to_count _ _ Ht).
  set (c := Z.of_nat (length xs)) in *. rewrite (lift_step _ tt) by (by destruct (Z.ltb_spec c (table_size t)); [|lia]).
  assert (Hp : p ∉ xs.*1) by (intros Hin; pose proof (to_fresh _ _ Ht _ Hin); subst p; lia).
  rewrite (node_change _ _ (mk_node None 0 0 0 k v)) by apply lookup_insert_eq.
  pose proof (to_slots _ _ Ht) as Hslots. rewrite array_set_step by (cbn; lia). cbn [nodes array with_nodes t0].
  unfold modify at 1. unfold mbind at 1, M_bind at 1. set (nd := with_index c (mk_node None 0 0 0 k v)). set (t2 := with_table_count _ _).
  assert (Hn2 : nodes t2 !! p = Some nd) by apply lookup_insert_eq.
  assert (Hother : forall q, q ∈ xs.*1 -> nodes t2 !! q = nodes t !! q).
  { intros q Hq. cbn. rewrite !lookup_insert_ne; [done| |]; by intros <-. }
  destruct (insert_in_hash_spec t2 xs p [] nd) as (t' & E & Hr' & Hrl); cbn [table_size t2 with_table_count with_array with_nodes t0] in *.
  - lia.
  - rewrite app_nil_r. change (rows_are (with_nodes (nodes t2) t) (row (table_size t) xs)). apply rows_nodes; [|apply Ht].
    intros b q _ Hq%row_in. by rewrite Hother.
  - rewrite fmap_app. apply list.NoDup_app. split; [apply Ht|]. split; [|by apply NoDup_singleton]. by intros q Hq ->%list_elem_of_singleton.
  - done.
  - intros q Hq. destruct (bodies_before (nodes t) (table_size t) xs [] q) as (x & Hx & Hlt); [by rewrite app_nil_r; apply Ht | done|].
    exists x. by rewrite Hother.
  - by intros q ?%elem_of_nil.
  - rewrite (bind_step _ _ _ _ _ E). destruct (relinked_fields _ _ Hrl) as (H1 & H2 & H3 & H4 & H5 & H6). cbn in H1, H2, H3, H4, H5, H6.
    pose proof (rl_bodies _ _ Hrl) as Hs. cbn [nodes with_nodes] in Hs. set (nd' := with_hash _ _ nd) in Hs.
    destruct (bodies_lookup _ _ p nd' Hs) as (x & Hx & Ex); [by rewrite lookup_insert_eq|]. rewrite (node_read _ _ _ _ Hx).
    exists t'. split; [by injection Ex as -> _ _ _ _|]. split; [|by rewrite H2].
    assert (Hnodes : forall q, q ∈ xs.*1 -> (<[p := nd']> (nodes t2)) !! q = nodes t !! q).
    { intros q Hq. rewrite lookup_insert_ne by (by intros <-). by apply Hother. }
    split; rewrite ?H1, ?H2, ?H3, ?H4, ?H5, ?H6; try apply Ht.
    + by rewrite length_insert.
    + rewrite length_app. cbn [length]. lia.
    + right. rewrite length_app. cbn [length]. lia.
    + destruct (to_array _ _ Ht) as [rest Ha]. rewrite Ha in Hslots |- *. rewrite length_app, !length_fmap in Hslots. destruct rest as [|o rest]; [cbn in Hslots; lia|].
      exists rest. unfold c. rewrite Nat2Z.id, insert_app_r_alt by (by rewrite !length_fmap). by rewrite !length_fmap, Nat.sub_diag, !fmap_app, <- app_assoc.
    + eapply bodies_are_same; [exact Hs|]. rewrite bodies_are_from, bodies_from_app. split.
      * eapply bodies_from_other; [|apply Ht]. done.
      * apply bodies_from_one. split; [|by intros [|i]]. exists nd'. by rewrite lookup_insert_eq.
    + done.
    + rewrite fmap_app. apply list.NoDup_app. split; [apply Ht|]. split; [|by apply NoDup_singleton]. by intros q Hq ->%list_elem_of_singleton.
    + intros q. rewrite (bodies_some _ _ _ Hs), fmap_app, elem_of_app, fmap_cons, elem_of_cons. cbn [fst fmap list_fmap]. rewrite elem_of_nil.
      destruct (decide (p = q)) as [<-|Hne]; [rewrite lookup_insert_eq; naive_solver|]. cbn. rewrite !lookup_insert_ne, (to_nodes _ _ Ht) by done. naive_solver.
    + intros q. rewrite fmap_app, elem_of_app, fmap_cons, elem_of_cons. intros [Hq%(to_fresh _ _ Ht)|[->|?%elem_of_nil]]; [cbn; lia | cbn; lia | done].
Qed.

(** *** A larger table *)
Definition buckets_are ns (size : Z) (hs : list (option loc)) xs : Prop :=
  forall b, 0 <= b < size -> exists h, hs !! Z.to_nat b = Some h /\ chain ns h (row size xs b).

Record rehashed (size : Z) ns ns' xs : Prop := {
  rh_other : forall q, q ∉ xs.*1 -> ns' !! q = ns !! q;
  rh_node : forall p kv nd, (p, kv) ∈ xs -> ns !! p = Some nd ->
    exists nd', ns' !! p = Some nd' /\ body nd' = body (with_hash (node_hash nd) (node_hash nd mod size) nd)
}.

Lemma buckets_cons ns size hs p k v xs nd h :
  0 < size -> p ∉ xs.*1 -> hs !! Z.to_nat (hash k mod size) = Some h -> buckets_are ns size hs xs ->
  buckets_are (<[p := with_next h nd]> ns) size (<[Z.to_nat (hash k mod size) := Some p]> hs) ((p, (k, v)) :: xs).
Proof.
  intros Hpos Hp Hh Hr b Hb. pose proof (Z.mod_pos_bound (hash k) size Hpos). destruct (Hr b Hb) as (h' & Hh' & Hc).
  assert (Hpr : p ∉ row size xs b) by by intros ?%row_in.
  destruct (decide (hash k mod size = b)) as [<-|Hne].
  - exists (Some p). rewrite list_lookup_insert_eq by (by eapply lookup_lt_Some). split; [done|]. rewrite row_cons_in. split; [done|].
    exists (with_next h nd). rewrite lookup_insert_eq. split; [done|]. apply chain_insert; [done|]. cbn. congruence.
  - exists h'. rewrite list_lookup_insert_ne by lia. split; [done|]. rewrite row_cons_out by done. by apply chain_insert.
Qed.

Lemma array_rehash_spec size old : 0 < size -> forall xs ys t nh a,
  NoDup (xs ++ ys).*1 -> (forall i p, xs.*1 !! i = Some p -> old !! i = Some (Some p)) ->
  (forall p k v, (p, (k, v)) ∈ xs -> exists nd, nodes t !! p = Some nd /\ node_hash nd = hash k) -> buckets_are (nodes t) size nh ys ->
  exists nh' ns', rehash (length xs) size old nh (replicate (length xs) None ++ a) t = Ok ((nh', (Some <$> xs.*1) ++ a), with_nodes ns' t) /\
    length nh' = length nh /\ buckets_are ns' size nh' (xs ++ ys) /\ rehashed size (nodes t) ns' xs.
Proof.
  intros Hpos. induction xs as [|[p [k v]] xs IH] using rev_ind; intros ys t nh a Hnd Hold Hn Hr.
  - exists nh, (nodes t). split; [by destruct t|]. split_and!; try done. split; [done|]. by intros ? ? ? ?%elem_of_nil.
  - rewrite length_app, Nat.add_1_r. cbn [rehash].
    rewrite (lift_step _ p) by (by rewrite (Hold (length xs) p) by (rewrite fmap_app; apply list_lookup_middle; by rewrite length_fmap)).
    destruct (Hn p k v) as (nd & Hp & Hh); [apply elem_of_app; right; by left|]. rewrite (node_read _ _ _ _ Hp), Hh.
    destruct (Hr (hash k mod size)) as (h & Hslot & _); [by apply Z.mod_pos_bound|]. rewrite Hslot, (lift_step _ h) by done.
    rewrite (node_change _ _ _ _ _ Hp). rewrite <- app_assoc in Hnd. cbn [app] in Hnd. destruct (nodup_middle _ _ _ Hnd) as [Hpn _]. cbn [fst] in Hpn.
    rewrite fmap_app, not_elem_of_app in Hpn. destruct Hpn as [Hpx Hpy].
    set (nd1 := with_next h (with_hash (node_hash nd) (hash k mod size) nd)). set (t1 := with_nodes _ t).
    destruct (IH ((p, (k, v)) :: ys) t1 (<[Z.to_nat (hash k mod size) := Some p]> nh) (Some p :: a)) as (nh' & ns' & E & Hl & Hr' & [Ho Hb]).
    + done.
    + intros i q Hi. apply Hold. rewrite fmap_app, lookup_app_l; [done|]. by eapply lookup_lt_Some.
    + intros q k' v' Hq. destruct (Hn q k' v') as (x & Hx & Hxh); [apply elem_of_app; by left|]. exists x. split; [|done]. cbn.
      rewrite lookup_insert_ne; [done|]. intros <-. apply Hpx, list_elem_of_fmap. by exists (p, (k', v')).
    + cbn. by apply buckets_cons.
    + exists nh', ns'. rewrite length_insert in Hl. split_and!; [| done | by rewrite <- app_assoc |].
      * rewrite replicate_S_end, <- app_assoc. rewrite insert_app_r_alt by (by rewrite length_replicate).
        rewrite length_replicate, Nat.sub_diag. rewrite fmap_app, fmap_app, <- app_assoc. exact E.
      * split.
        -- intros q. rewrite fmap_app, not_elem_of_app. intros [Hqx Hqp]. rewrite Ho by done. cbn. rewrite lookup_insert_ne; [done|].
           intros <-. apply Hqp. by left.
        -- intros q kv x [Hq|Hq]%elem_of_app Hx.
           ++ apply (Hb q kv x Hq). cbn. rewrite lookup_insert_ne; [done|]. intros <-. apply Hpx, list_elem_of_fmap. by exists (p, kv).
           ++ apply list_elem_of_singleton in Hq. simplify_eq. exists nd1. rewrite Ho by done. cbn. rewrite lookup_insert_eq. split; [done|]. unfold nd1. by rewrite !Hh.
Qed.

Lemma _check_size_spec t xs n : tab_ok t xs -> 0 <= n < 2 ^ 30 ->
  exists t', _check_size n t = Ok (tt, t') /\ tab_ok t' xs /\ n < table_size t' /\
    identity t' = if decide (table_size t <= n) then S (identity t) else identity t.
Proof.
  intros Ht Hn. unfold _check_size, get. unfold mbind at 1, M_bind at 1. destruct (Z.leb_spec (table_size t) n) as [Hle|Hlt].
  2: { exists t. rewrite decide_False by lia. done. }
  assert (Hl : Z.of_nat (length xs) <= n) by (destruct (to_room _ _ Ht) as [[-> _]|?]; cbn; lia).
  rewrite decide_True by done. destruct (next_larger_hash_prime_spec n) as (size & Es & Hsz & Hp & Hmin); [lia|]. rewrite (lift_step _ _ _ _ Es).
  assert (size <= 1610612741) by (apply Hmin; [by apply (bool_decide_unpack _) | lia]).
  destruct (to_array _ _ Ht) as [rest Ha]. rewrite (to_count _ _ Ht), Nat2Z.id. cbv zeta. set (empty := replicate (Z.to_nat size) None).
  assert (He : empty = replicate (length xs) None ++ replicate (Z.to_nat size - length xs) None).
  { rewrite <- replicate_add. unfold empty. f_equal. lia. }
  destruct (array_rehash_spec size (array t) ltac:(lia) xs [] t empty (replicate (Z.to_nat size - length xs) None)) as (nh & ns & E & Hlen & Hr & Hre).
  { rewrite app_nil_r. apply Ht. }
  { intros i p Hi. rewrite Ha, lookup_app_l; [by rewrite list_lookup_fmap, Hi|]. rewrite length_fmap. by eapply lookup_lt_Some. }
  { intros p k v (i & Hi)%list_elem_of_lookup. destruct (to_bodies _ _ Ht _ _ _ _ Hi) as (nd & Hnd & [= _ E _ _ _]). by exists nd. }
  { intros b Hb. exists None. split; [|done]. apply lookup_replicate_2. lia. }
  rewrite <- He in E. rewrite (bind_step _ _ _ _ _ E). unfold modify. eexists. split; [done|]. rewrite app_nil_r in Hr.
  split; [|split; [cbn; lia | done]]. split; cbn; try apply Ht; try done.
  - rewrite Hlen. unfold empty. rewrite length_replicate. lia.
  - rewrite length_app, !length_fmap, length_replicate. lia.
  - right. lia.
  - lia.
  - by eexists.
  - intros i p k v Hi. destruct (to_bodies _ _ Ht _ _ _ _ Hi) as (nd & Hnd & Eb). pose proof (list_elem_of_lookup_2 _ _ _ Hi) as Hin.
    destruct (rh_node _ _ _ _ Hre _ _ _ Hin Hnd) as (nd' & Hnd' & Eb'). exists nd'. split; [done|]. rewrite Eb'.
    destruct nd. unfold body in *. cbn in *. by injection Eb as -> -> -> -> ->.
  - intros p. rewrite <- (to_nodes _ _ Ht). destruct (decide (p ∈ xs.*1)) as [Hin|Hout]; [|by rewrite (rh_other _ _ _ _ Hre)].
    pose proof (proj2 (to_nodes _ _ Ht p) Hin) as Hs. split; [done|]. intros _. destruct Hs as [nd Hnd].
    apply list_elem_of_fmap in Hin as ([q kv] & -> & Hin). destruct (rh_node _ _ _ _ Hre _ _ _ Hin Hnd) as (nd' & Hnd' & _). by exists nd'.
  - lia.
Qed.

(** *** Moving an entry back *)
Lemma head_row_index ns size n xs b q :
  bodies_from ns size n xs -> head (row size xs b) = Some q ->
  exists nd, ns !! q = Some nd /\ n <= index nd < n + Z.of_nat (length xs).
Proof.
  intros Hb Hq. apply head_Some_elem_of, in_row in Hq as (k & v & (i & Hi)%list_elem_of_lookup & _). pose proof (lookup_lt_Some _ _ _ Hi).
  destruct (Hb _ _ _ _ Hi) as (nd & Hn & [= E _ _ _ _]). exists nd. split; [done|]. lia.
Qed.

Lemma row_index ns size n xs b q :
  bodies_from ns size n xs -> q ∈ row size xs b -> exists nd, ns !! q = Some nd /\ n <= index nd < n + Z.of_nat (length xs).
Proof.
  intros Hb (k & v & (i & Hi)%list_elem_of_lookup & _)%in_row. pose proof (lookup_lt_Some _ _ _ Hi).
  destruct (Hb _ _ _ _ Hi) as (nd & Hn & [= E _ _ _ _]). exists nd. split; [done|]. lia.
Qed.

Lemma move_back_in_chain_spec t xs p k v ms zs :
  0 < table_size t -> rows_are t (row (table_size t) (xs ++ (p, (k, v)) :: ms ++ zs)) ->
  NoDup (xs ++ (p, (k, v)) :: ms ++ zs).*1 -> bodies_are (nodes t) (table_size t) (xs ++ ms ++ (p, (k, v)) :: zs) ->
  exists t', move_back_in_chain p (Z.of_nat (length xs) + Z.of_nat (length ms)) t = Ok (tt, t') /\
    rows_are t' (row (table_size t) (xs ++ ms ++ (p, (k, v)) :: zs)) /\ relinked t t'.
Proof.
  intros Hpos Hr Hnd Hbod. set (size := table_size t) in *. set (next_index := _ + _). set (b := hash k mod size).
  assert (Hb : 0 <= b < size) by by apply Z.mod_pos_bound.
  rewrite bodies_are_from, !bodies_from_app, bodies_from_one, Z.add_0_l in Hbod. fold next_index in Hbod.
  destruct Hbod as (_ & Hms & (nd & Hn & Ebody) & Hzs).
  assert (Hi : hash_index nd = b) by by injection Ebody.
  pose proof (row_apart t _ Hnd) as Ha. fold size in Ha.
  assert (Hf : row size (xs ++ (p, (k, v)) :: ms ++ zs) b = row size xs b ++ p :: row size ms b ++ row size zs b).
  { unfold b. by rewrite row_app, row_cons_in, row_app. }
  pose proof (chain_head _ _ _ (node_next _ _ _ _ _ _ _ Hr Hb Hf Hn)) as Hnext.
  assert (Hsame : row size ms b = [] -> forall b', row size (xs ++ (p, (k, v)) :: ms ++ zs) b' = row size (xs ++ ms ++ (p, (k, v)) :: zs) b').
  { intros Hm b'. rewrite !row_app. f_equal. destruct (decide (b = b')) as [<-|Hbb].
    - unfold b in *. by rewrite !row_cons_in, row_app, Hm.
    - by rewrite !row_cons_out, row_app. }
  unfold move_back_in_chain. rewrite (node_read _ _ _ _ Hn). destruct (row size ms b) as [|m ms'] eqn:Hm.
  - exists t. split; [|split; [by eapply rows_ext, Hr; intros; apply Hsame | by split]]. rewrite Hnext. cbn [app].
    destruct (head (row size zs b)) as [q|] eqn:Hq; [|done].
    destruct (head_row_index _ _ _ _ _ _ Hzs Hq) as (x & Hx & Hxi). rewrite (node_read _ _ _ _ Hx).
    by destruct (Z.ltb_spec (index x) next_index); [lia|].
  - rewrite Hnext. cbn [app head]. destruct (row_index _ _ _ _ b m Hms) as (x & Hx & Hxi); [rewrite Hm; by left|].
    rewrite (node_read _ _ _ _ Hx). fold next_index in Hxi. destruct (Z.ltb_spec (index x) next_index); [|lia].
    unfold fuel at 1. rewrite gets_step, Hi. pose proof (rows_fuel _ _ _ Hr Ha Hb) as Hfuel. rewrite Hf, length_app in Hfuel. cbn [length app] in Hfuel.
    pose proof (proj1 Ha b Hb) as Hndb. rewrite Hf in Hndb. apply list.NoDup_app in Hndb as (_ & Hd & _).
    rewrite (bind_step _ _ _ _ _ (seek_spec t _ b p Hr Hb (row size xs b) [] _ (base.size (nodes t)) Hf ltac:(intros Hp; apply (Hd p Hp); by left) ltac:(lia))).
    cbn [app]. destruct (array_unlink_spec _ _ _ _ _ _ _ Hr Ha Hb Hf Hn) as (t1 & E1 & Hr1 & Hrl1 & Hn1).
    rewrite Hnext in E1. cbn [app head] in E1. rewrite (bind_step _ _ _ _ _ E1).
    destruct (nodup_middle _ _ _ Hnd) as [Hp Hnd']. cbn [fst] in Hp. pose proof (relinked_fields _ _ Hrl1) as (_ & _ & Hs1 & _).
    assert (Hr1' : rows_are t1 (row size (xs ++ ms ++ zs))).
    { eapply rows_ext, Hr1. intros b' _. unfold upd. rewrite !row_app. case_decide as Hbb; [subst b'; by rewrite Hm|].
      by rewrite row_cons_out, row_app. }
    pose proof (row_apart t1 _ Hnd') as Ha1. rewrite Hs1 in Ha1. fold size in Ha1.
    assert (Hf1 : row size (xs ++ ms ++ zs) b = row size xs b ++ (m :: ms') ++ row size zs b) by by rewrite !row_app, Hm.
    assert (Hb1 : 0 <= b < table_size t1) by by rewrite Hs1.
    rewrite (bind_step _ _ _ _ _ (read_after _ _ _ _ _ Hr1' Hb1 Hf1)). cbn [app head of_option]. rewrite (lift_step _ m) by done.
    rewrite <- (slot_after_snoc b (row size xs b)).
    assert (Hother : forall q x, nodes t !! q = Some x -> exists y, nodes t1 !! q = Some y /\ index y = index x).
    { intros q y Hy. destruct (bodies_lookup _ _ _ _ (rl_bodies _ _ Hrl1) Hy) as (z & Hz & [= E _ _ _ _]). by exists z. }
    rewrite (bind_step _ _ _ _ _ (advance_spec t1 _ b (fun other => index other <? next_index) Hr1' Hb1 ms' (row size xs b ++ [m]) (row size zs b) (base.size (nodes t))
      ltac:(by rewrite <- app_assoc) ltac:(rewrite length_app; cbn in Hfuel; try rewrite length_app in Hfuel; lia)
      ltac:(intros q Hq; destruct (row_index _ _ _ _ b q Hms ltac:(rewrite Hm; by right)) as (y & Hy & Hyi); destruct (Hother _ _ Hy) as (z & Hz & Ez); exists z; split; [done|]; apply Z.ltb_lt; lia)
      ltac:(intros q Hq; destruct (head_row_index _ _ _ _ _ _ Hzs Hq) as (y & Hy & Hyi); destruct (Hother _ _ Hy) as (z & Hz & Ez); exists z; split; [done|]; apply Z.ltb_ge; lia))).
    destruct (array_link_spec t1 _ b ((row size xs b ++ [m]) ++ ms') p (row size zs b) nd Hr1' Ha1 Hb1) as (t' & E & Hr' & Hrl); [by rewrite Hf1, <- !app_assoc | done | by intros b' _ ?%row_in |].
    exists t'. split; [done|]. split; [|by eapply relinked_trans].
    eapply rows_ext, Hr'. intros b' _. unfold upd. rewrite !row_app. case_decide as Hbb.
    + subst b'. unfold b at 3. rewrite row_cons_in. fold b. by rewrite Hm, <- !app_assoc.
    + by rewrite (row_cons_out size p k v zs b') by done.
Qed.

(** Reassembled from the table the array part of [move_item_back] has left *)
Lemma tab_moved t t3 t' xs x ms zs :
  tab_ok t (xs ++ x :: ms ++ zs) -> bodies_are (nodes t3) (table_size t) (xs ++ ms ++ x :: zs) ->
  (forall q, is_Some (nodes t3 !! q) <-> is_Some (nodes t !! q)) ->
  (exists rest, array t3 = (Some <$> (xs ++ ms ++ x :: zs).*1) ++ rest) -> length (array t3) = length (array t) ->
  t3 = mk_table (nodes t3) (next_block t) (identity t) (table_size t) (count t) (hash_table t) (array t3) ->
  relinked t3 t' -> rows_are t' (row (table_size t) (xs ++ ms ++ x :: zs)) -> tab_ok t' (xs ++ ms ++ x :: zs).
Proof.
  intros Ht Hb Hl Ha Hla E3 Hrl Hr. destruct (relinked_fields _ _ Hrl) as (H1 & H2 & H3 & H4 & H5 & H6). rewrite E3 in H1, H2, H3, H4, H6.
  cbn in H1, H2, H3, H4, H6.
  assert (Hperm : xs ++ ms ++ x :: zs ≡ₚ xs ++ x :: ms ++ zs) by by rewrite Permutation_middle.
  pose proof (Permutation_length Hperm) as Hlen. pose proof (fmap_Permutation fst _ _ Hperm) as Hfst.
  split; rewrite ?H1, ?H2, ?H3, ?H4, ?H5, ?H6, ?Hlen; try apply Ht; try done.
  - rewrite Hla. apply Ht.
  - right. destruct (to_room _ _ Ht) as [[E _]|?]; [by destruct xs | done].
  - eapply bodies_are_same, Hb. apply Hrl.
  - rewrite Hfst. apply Ht.
  - intros q. rewrite Hfst, <- (to_nodes _ _ Ht), <- Hl. apply bodies_some, Hrl.
  - intros q. rewrite Hfst. apply Ht.
Qed.

Lemma move_item_back_spec t xs p kv ms zs : tab_ok t (xs ++ (p, kv) :: ms ++ zs) ->
  exists t', move_item_back (Z.of_nat (length xs)) (Z.of_nat (length ms)) t = Ok (tt, t') /\ tab_ok t' (xs ++ ms ++ (p, kv) :: zs) /\ identity t' = identity t.
Proof.
  destruct kv as [k v]. intros Ht. destruct (entry_sizes _ _ _ _ Ht) as (Hpos & Hc & Hcount & Hroom). destruct (entry_node _ _ _ _ _ _ Ht) as (nd & Hn & Eb).
  pose proof (to_nodup _ _ Ht) as Hnd. pose proof (to_small _ _ Ht) as Hsmall. pose proof (to_slots _ _ Ht) as Hslots. rewrite length_app in Hcount.
  unfold move_item_back. rewrite gets_step, (lift_step _ tt) by (by apply Z.ltb_lt in Hc as ->). cbv zeta.
  replace (u32 (Z.of_nat (length xs) + Z.of_nat (length ms))) with (Z.of_nat (length xs) + Z.of_nat (length ms)) by (unfold u32; rewrite Z.mod_small; lia).
  set (next_index := _ + _). destruct (Z.leb_spec (count t) next_index); [lia|].
  rewrite (array_at_step _ _ p) by (rewrite Nat2Z.id; apply (entry_slot _ _ _ _ Ht)).
  destruct (to_array _ _ Ht) as [rest Ha]. assert (Ha' : array t = (Some <$> xs.*1) ++ Some p :: (Some <$> ms.*1) ++ (Some <$> zs.*1) ++ rest).
  { rewrite Ha. repeat (rewrite fmap_app || rewrite fmap_cons). rewrite <- !app_assoc. cbn. by rewrite <- !app_assoc. }
  pose proof (to_bodies _ _ Ht) as Hbod. rewrite bodies_are_from, bodies_from_app, bodies_from_one, bodies_from_app, Z.add_0_l in Hbod.
  destruct Hbod as (Hbx & _ & Hbm & Hbz). destruct (nodup_middle _ _ _ Hnd) as [Hp Hnd']. cbn [fst] in Hp. rewrite !fmap_app, !not_elem_of_app in Hp.
  destruct Hp as (Hpx & Hpm & Hpz). destruct (nodup_parts _ _ Hnd') as (_ & Hnmz & Hdx). destruct (nodup_parts _ _ Hnmz) as (Hnm & _ & Hdm).
  destruct (close_gap_spec ms.*1 t _ _ _ Ha') as [o' E].
  { intros q Hq. rewrite (to_nodes _ _ Ht), fmap_app, fmap_cons, fmap_app, !elem_of_app, elem_of_cons, elem_of_app. naive_solver. }
  pose proof (shift_back_spec ms.*1 t _ _ _ Ha' Hnm ltac:(lia)) as Es. rewrite !length_fmap in *. rewrite E in Es.
  replace (Z.to_nat (next_index - Z.of_nat (length xs))) with (length ms) by lia. erewrite bind_step; [|apply Es].
  2: { intros j q Hj. rewrite list_lookup_fmap in Hj. destruct (ms !! j) as [[q' [k' v']]|] eqn:Hmj; [|done]. injection Hj as <-.
       destruct (Hbm _ _ _ _ Hmj) as (x & Hx & [= Ex _ _ _ _]). by exists x. }
  rewrite array_set_step by (cbn; rewrite !length_app, !length_fmap; cbn; lia). cbn [nodes array with_nodes with_array].
  rewrite (node_change _ _ nd) by (cbn; by rewrite reindex_out). cbn [nodes with_nodes with_array]. set (ns := <[p := _]> _).
  set (t3 := with_nodes ns _).
  assert (Hns : forall q, next_hash <$> ns !! q = next_hash <$> nodes t !! q).
  { intros q. unfold ns. destruct (decide (p = q)) as [<-|]; [by rewrite lookup_insert_eq, Hn | by rewrite lookup_insert_ne, reindex_next]. }
  assert (Hout : forall q, q ∈ xs.*1 \/ q ∈ zs.*1 -> ns !! q = nodes t !! q).
  { intros q Hq. unfold ns. rewrite lookup_insert_ne by (intros <-; tauto). apply reindex_out. intros Hqm. destruct Hq as [Hq|Hq]; [|by eapply Hdm].
    eapply Hdx; [done|]. rewrite fmap_app. apply elem_of_app. by left. }
  assert (Hb3 : bodies_are ns (table_size t) (xs ++ ms ++ (p, (k, v)) :: zs)).
  { rewrite bodies_are_from, !bodies_from_app, bodies_from_one, Z.add_0_l. split_and!.
    - eapply bodies_from_other, Hbx. naive_solver.
    - eapply bodies_from_other, bodies_from_reindex, Hbm; [|done]. intros q Hq. unfold ns. rewrite lookup_insert_ne; [done|]. by intros <-.
    - exists (with_index next_index nd). unfold ns. rewrite lookup_insert_eq. split; [done|]. destruct nd. unfold body in *. cbn in *. by injection Eb as -> -> -> -> ->.
    - replace (Z.of_nat (length xs) + Z.of_nat (length ms) + 1) with (Z.of_nat (length xs) + 1 + Z.of_nat (length ms)) by lia.
      eapply bodies_from_other, Hbz. naive_solver. }
  destruct (move_back_in_chain_spec t3 xs p k v ms zs) as (t' & Et & Hr' & Hrl); try done.
  { apply (rows_nodes (with_array (array t3) t)); [intros; apply Hns | apply Ht]. }
  exists t'. split; [exact Et|]. split; [|by rewrite (rl_identity _ _ Hrl)].
  eapply (tab_moved t t3); try done.
  - intros q. change (nodes t3) with ns. by rewrite <- (fmap_is_Some next_hash), Hns, fmap_is_Some.
  - exists rest. cbn. replace (Z.to_nat next_index) with (length ((Some <$> xs.*1) ++ (Some <$> ms.*1)) + 0)%nat by (rewrite length_app, !length_fmap; lia).
    rewrite app_assoc, insert_app_r. repeat (rewrite fmap_app || rewrite fmap_cons). rewrite <- !app_assoc. cbn. by rewrite <- ?app_assoc.
  - cbn. rewrite length_insert, Ha', !length_app. cbn. rewrite !length_app. lia.
Qed.

(** ** Looking up *)
Lemma head_filter {A} (P : A -> Prop) `{!forall x, Decision (P x)} (l : list A) : head (filter P l) = snd <$> list_find P l.
Proof.
  induction l as [|x l IH]; [done|]. rewrite filter_cons. cbn [list_find]. case_decide; [done|]. rewrite IH.
  by destruct (list_find P l) as [[]|].
Qed.

Lemma key_walk_spec t k ys : forall h n,
  chain (nodes t) h ys.*1 -> (forall p k v, (p, (k, v)) ∈ ys -> exists nd, nodes t !! p = Some nd /\ key nd = k) -> (length ys <= n)%nat ->
  key_walk n h k t = Ok (fst <$> head (filter (fun x => x.2.1 = k) ys), t).
Proof.
  induction ys as [|[p [k' v]] ys IH]; intros h n Hc Hk Hn; cbn in Hc.
  - subst h. by destruct n.
  - destruct Hc as (-> & nd & Hp & Hc). destruct n as [|n]; [cbn in Hn; lia|]. cbn [key_walk]. rewrite (node_read _ _ _ _ Hp).
    destruct (Hk p k' v ltac:(left)) as (nd' & Hp' & Hkey). assert (nd' = nd) as -> by congruence. rewrite Hkey, filter_cons. cbn [snd fst].
    case_decide; [done|]. apply IH; [done | | cbn in Hn; lia]. intros q kq vq Hq. apply (Hk q kq vq). by right.
Qed.

Definition matching (k : K) xs : option (nat * item) := list_find (fun x => x.2.1 = k) xs.

(** The entries of the bucket a key belongs to, that have it, are the entries that have it. *)
Lemma bucket_matches size k xs : fst <$> head (filter (fun x => x.2.1 = k) (filter (fun x : item => hash x.2.1 mod size = hash k mod size) xs)) =
  (fun m => m.2.1) <$> matching k xs.
Proof.
  rewrite list_filter_filter. rewrite (list_filter_iff _ (fun x => x.2.1 = k)) by naive_solver. rewrite head_filter. unfold matching.
  by destruct (list_find _ xs).
Qed.

Lemma entries_keys ns size n xs p k v : bodies_from ns size n xs -> (p, (k, v)) ∈ xs -> exists nd, ns !! p = Some nd /\ key nd = k.
Proof. intros Hb (i & Hi)%list_elem_of_lookup. destruct (Hb _ _ _ _ Hi) as (nd & Hn & [= _ _ _ E _]). by exists nd. Qed.

Lemma matching_index ns size n k xs i x : bodies_from ns size n xs -> matching k xs = Some (i, x) ->
  exists nd, ns !! x.1 = Some nd /\ index nd = n + Z.of_nat i.
Proof.
  destruct x as [p [k' v]]. intros Hb (Hi & _)%list_find_Some. destruct (Hb _ _ _ _ Hi) as (nd & Hn & [= E _ _ _ _]). by exists nd.
Qed.

Lemma array_find_spec t xs k : tab_ok t xs ->
  HashTableArray.find hash k t = Ok (match matching k xs with Some (i, _) => Z.of_nat i | None => table_size t end, t).
Proof.
  intros Ht. unfold HashTableArray.find. rewrite gets_step. destruct (Z.eqb_spec (table_size t) 0) as [E|Hpos].
  { destruct (to_room _ _ Ht) as [[-> _]|?]; [by rewrite E | lia]. }
  pose proof (to_buckets _ _ Ht). set (b := hash k mod table_size t). assert (Hb : 0 <= b < table_size t) by (apply Z.mod_pos_bound; lia).
  destruct (to_rows _ _ Ht b Hb) as (h & Hh & Hc). unfold read_slot. unfold mbind at 1, M_bind at 1. rewrite Hh. cbn [of_option mbind result_bind].
  unfold fuel at 1. rewrite gets_step. pose proof (rows_fuel _ _ _ (to_rows _ _ Ht) (row_apart t _ (to_nodup _ _ Ht)) Hb) as Hfuel.
  unfold row in Hfuel, Hc. rewrite length_fmap in Hfuel.
  rewrite (bind_step _ _ _ _ _ (key_walk_spec t k _ h _ Hc ltac:(intros p k' v [_ Hp]%list_elem_of_filter; by eapply (entries_keys _ _ 0 _ _ _ _ (to_bodies _ _ Ht))) Hfuel)).
  unfold b. rewrite bucket_matches. destruct (matching k xs) as [[i x]|] eqn:Hm; cbn [fmap option_fmap option_map]; [|done].
  destruct (matching_index _ _ 0 _ _ _ _ (to_bodies _ _ Ht) Hm) as (nd & Hn & Hi). cbn [fst snd]. rewrite (node_read _ _ _ _ Hn). unfold mret, M_ret. by rewrite Hi.
Qed.

Lemma next_match_spec t xs p k v zs : tab_ok t (xs ++ (p, (k, v)) :: zs) ->
  next_match (Z.of_nat (length xs)) t =
    Ok (match matching k zs with Some (j, _) => Z.of_nat (length xs) + 1 + Z.of_nat j | None => count t end, t).
Proof.
  intros Ht. destruct (entry_sizes _ _ _ _ Ht) as (Hpos & Hc & _). destruct (entry_node _ _ _ _ _ _ Ht) as (nd & Hn & Eb).
  unfold next_match. rewrite gets_step, (lift_step _ tt) by (by apply Z.ltb_lt in Hc as ->).
  rewrite (array_at_step _ _ p) by (rewrite Nat2Z.id; apply (entry_slot _ _ _ _ Ht)). rewrite (node_read _ _ _ _ Hn). unfold fuel at 1. rewrite gets_step.
  assert (key nd = k) as -> by by injection Eb. set (b := hash k mod table_size t). assert (Hb : 0 <= b < table_size t) by by apply Z.mod_pos_bound.
  assert (Hf : row (table_size t) (xs ++ (p, (k, v)) :: zs) b = row (table_size t) xs b ++ p :: row (table_size t) zs b).
  { unfold b. by rewrite row_app, row_cons_in. }
  pose proof (node_next _ _ _ _ _ _ _ (to_rows _ _ Ht) Hb Hf Hn) as Hch.
  pose proof (rows_fuel _ _ _ (to_rows _ _ Ht) (row_apart t _ (to_nodup _ _ Ht)) Hb) as Hfuel. assert (Hfuel' : (length (row (table_size t) zs b) <= base.size (nodes t))%nat) by (rewrite Hf, length_app in Hfuel; cbn [length] in Hfuel; lia).
  pose proof (to_bodies _ _ Ht) as Hbod. rewrite bodies_are_from, bodies_from_app, bodies_from_one, Z.add_0_l in Hbod. destruct Hbod as (_ & _ & Hbz).
  unfold row in Hch, Hfuel'. rewrite length_fmap in Hfuel'.
  rewrite (bind_step _ _ _ _ _ (key_walk_spec t k _ _ _ Hch ltac:(intros q k' v' [_ Hq]%list_elem_of_filter; by eapply entries_keys) Hfuel')).
  unfold b. rewrite bucket_matches. destruct (matching k zs) as [[i x]|] eqn:Hm; cbn [fmap option_fmap option_map]; [|done].
  destruct (matching_index _ _ _ _ _ _ _ Hbz Hm) as (nd' & Hn' & Hi). cbn [fst snd]. rewrite (node_read _ _ _ _ Hn'). unfold mret, M_ret. by rewrite Hi.
Qed.

(** Moving forward writes past the end of the array. *)
Lemma move_item_forward_faults t xs x zs n : tab_ok t (xs ++ x :: zs) ->
  move_item_forward (Z.of_nat (length xs)) n t = Fault out_of_bounds.
Proof.
  intros Ht. destruct (entry_sizes _ _ _ _ Ht) as (Hpos & Hc & Hcount & Hroom). pose proof (to_small _ _ Ht). pose proof (to_slots _ _ Ht).
  unfold move_item_forward. rewrite gets_step, (lift_step _ tt) by (by apply Z.ltb_lt in Hc as ->). cbv zeta.
  assert (u32 (Z.of_nat (length xs) - count t) = Z.of_nat (length xs) - count t + 2 ^ 32) as ->.
  { unfold u32. symmetry. apply (Z.mod_unique _ _ (-1)); lia. }
  rewrite (array_at_step _ _ x.1) by (rewrite Nat2Z.id; apply (entry_slot _ _ _ _ Ht)).
  replace (Z.to_nat (Z.of_nat (length xs) - _)) with 0%nat by lia. cbn [shift_forward].
  assert (Hi : array t !! Z.to_nat (Z.of_nat (length xs) - count t + 2 ^ 32) = None) by (apply lookup_ge_None_2; lia).
  unfold array_set, mret, mbind, M_ret, M_bind. by rewrite Hi.
Qed.

(** *** [_insert], up to the move to its index *)
Lemma bind_assoc {S A B C} (m : M S A) (g : A -> M S B) (k : B -> M S C) s : (x ← m; y ← g x; k y) s = (y ← (x ← m; g x); k y) s.
Proof. unfold mbind, M_bind. by destruct (m s) as [[]|]. Qed.

Lemma _insert_start t xs k v i : tab_ok t xs -> Z.of_nat (length xs) + 1 < 2 ^ 30 ->
  exists p t', tab_ok t' (xs ++ [(p, (k, v))]) /\
    identity t' = (if decide (table_size t <= Z.of_nat (length xs) + 1) then S (identity t) else identity t) /\
    _insert hash k v i t = (_ ← when (i <? Z.of_nat (length xs) + 1) (set_item_index (Z.of_nat (length xs)) i); mret (mk_pointer (identity t') (Z.of_nat (length xs)))) t'.
Proof.
  intros Ht Hn. unfold _insert. rewrite gets_step, (to_count _ _ Ht). unfold u32. rewrite Z.mod_small by lia.
  destruct (_check_size_spec t xs (Z.of_nat (length xs) + 1) Ht) as (t1 & E1 & Ht1 & Hs1 & Hi1); [lia|]. rewrite (bind_step _ _ _ _ _ E1).
  destruct (insert_node_spec t1 xs k v Ht1 Hs1) as (p & t' & E & Ht' & Hi'). exists p, t'. split; [done|]. split; [by rewrite Hi'|].
  rewrite bind_assoc, (bind_step _ _ _ _ _ E), !gets_step, (to_count _ _ Ht'), length_app. cbn [length].
  by replace (Z.of_nat (length xs + 1)) with (Z.of_nat (length xs) + 1) by lia.
Qed.

(** ** The list *)
Notation items := (list (K * V)).
Implicit Type l : items.

Inductive operation : Type :=
  | op_insert (k : K) (v : V)
  | op_insert_unique (k : K) (v : V)
  | op_remove (i : nat)
  | op_set_key (i : nat) (k : K)
  | op_set_value (i : nat) (v : V)
  | op_move_back (i n : nat)
  | op_set_index (i j : nat)
  | op_reserve (n : nat).

Definition here t (i : nat) : pointer := mk_pointer (identity t) (Z.of_nat i).
Definition with_here {A} (i : nat) (op : pointer -> M table A) : M table A := p ← at_index (Z.of_nat i); op p.

Definition run (op : operation) : M table unit :=
  match op with
  | op_insert k v => _ ← HashTableArray.insert hash k v; mret tt
  | op_insert_unique k v => _ ← insert_unique hash k v; mret tt
  | op_remove i => with_here i remove_entry
  | op_set_key i k => with_here i (fun p => set_key hash p k)
  | op_set_value i v => with_here i (fun p => set_value p v)
  | op_move_back i n => with_here i (fun p => move_back p (Z.of_nat n))
  | op_set_index i j => with_here i (fun p => set_index p (Z.of_nat j))
  | op_reserve n => reserve (Z.of_nat n)
  end.

Definition find_key (k : K) l : option nat := fst <$> list_find (fun x => x.1 = k) l.

(** The entry [i] moves up by [n]. *)
Definition moved (i n : nat) l : items :=
  match l !! i with Some x => take (i + n) (delete i l) ++ x :: drop (i + n) (delete i l) | None => l end.

(** What an operation makes of the list; [None] where it is not for an entry of the list, would move
    one forward, or is beyond the sizes the table is made for. *)
Definition appended l k v : option items := if Z.of_nat (length l) + 1 <? 2 ^ 30 then Some (l ++ [(k, v)]) else None.
Definition moved_back l (i n : nat) : option items :=
  if bool_decide (i + n < length l)%nat then Some (moved i n l)
  else if bool_decide (i < length l)%nat && (Z.of_nat (i + n) <? 2 ^ 32) then Some l else None.
Definition list_step l (op : operation) : option items :=
  match op with
  | op_insert k v => appended l k v
  | op_insert_unique k v => match find_key k l with Some _ => Some l | None => appended l k v end
  | op_remove i => _ ← l !! i; Some (delete i l)
  | op_set_key i k => x ← l !! i; Some (<[i := (k, x.2)]> l)
  | op_set_value i v => x ← l !! i; Some (<[i := (x.1, v)]> l)
  | op_move_back i n => moved_back l i n
  | op_set_index i j => if bool_decide (i <= j)%nat then moved_back l i (j - i) else None
  | op_reserve n => if Z.of_nat n <? 2 ^ 30 then Some l else None
  end.

Definition abs t l : Prop := exists xs, tab_ok t xs /\ xs.*2 = l.

(** The tables a program makes *)
Inductive made : table -> items -> Prop :=
  | made_null : made null_table []
  | made_step t l op l' t' : made t l -> list_step l op = Some l' -> run op t = Ok (tt, t') -> made t' l'.

Lemma null_abs : abs null_table [].
Proof.
  exists []. split; [|done]. split; cbn; try done.
  - by left.
  - by exists [].
  - intros b Hb. cbn in Hb. lia.
  - by apply NoDup_nil_2.
  - intros p. split; [by intros [? ?%lookup_empty_Some] | by intros ?%elem_of_nil].
  - by intros p ?%elem_of_nil.
Qed.

Lemma split_at xs i kv : xs.*2 !! i = Some kv -> exists ys p zs, xs = ys ++ (p, kv) :: zs /\ length ys = i.
Proof.
  rewrite list_lookup_fmap. intros ([p kv'] & Hi & ->)%fmap_Some. exists (take i xs), p, (drop (S i) xs). split.
  - symmetry. by apply take_drop_middle.
  - rewrite length_take. apply lookup_lt_Some in Hi. lia.
Qed.

Lemma with_here_step {A} t i (op : pointer -> M table A) : with_here i op t = op (here t i) t.
Proof. done. Qed.

Lemma in_table_here {A} t i null (op : M table A) : in_table (here t i) null op t = op t.
Proof. unfold in_table. by rewrite decide_True. Qed.

Lemma abs_count t l : abs t l -> count t = Z.of_nat (length l).
Proof. intros (xs & Ht & <-). rewrite length_fmap. apply Ht. Qed.

Lemma insert_abs t l k v i : abs t l -> Z.of_nat (length l) + 1 < 2 ^ 30 -> Z.of_nat (length l) <= i ->
  exists t', _insert hash k v i t = Ok (here t' (length l), t') /\ abs t' (l ++ [(k, v)]) /\
    identity t' = if decide (table_size t <= Z.of_nat (length l) + 1) then S (identity t) else identity t.
Proof.
  intros (xs & Ht & <-). rewrite length_fmap. intros Hn Hi. destruct (_insert_start t xs k v i Ht Hn) as (p & t' & Ht' & Hid & ->).
  exists t'. split; [|split; [|done]].
  - destruct (Z.ltb_spec i (Z.of_nat (length xs) + 1)); cbn [when]; [|done]. assert (i = Z.of_nat (length xs)) as -> by lia.
    rewrite (bind_step _ tt t'); [done|]. unfold set_item_index. rewrite gets_step, (to_count _ _ Ht'), length_app. cbn [length].
    rewrite (lift_step _ tt) by (by destruct (Z.ltb_spec (Z.of_nat (length xs)) (Z.of_nat (length xs + 1))); [|lia]).
    by rewrite Z.ltb_irrefl.
  - exists (xs ++ [(p, (k, v))]). by rewrite fmap_app.
Qed.

Lemma find_key_matching k xs : find_key k xs.*2 = fst <$> matching k xs.
Proof. unfold find_key, matching. rewrite list_find_fmap. by destruct (list_find _ xs) as [[]|]. Qed.

Lemma find_key_some k l i : find_key k l = Some i -> (i < length l)%nat.
Proof. unfold find_key. intros ([j x] & (Hj & _)%list_find_Some & ->)%fmap_Some. by eapply lookup_lt_Some. Qed.

Lemma find_abs t l k : abs t l ->
  exists z, find_pointer hash k t = Ok (mk_pointer (identity t) z, t) /\
    match find_key k l with Some i => z = Z.of_nat i | None => Z.of_nat (length l) <= z end.
Proof.
  intros (xs & Ht & <-). unfold find_pointer. rewrite (bind_step _ _ _ _ _ (array_find_spec _ _ k Ht)). eexists. split; [done|].
  rewrite find_key_matching, length_fmap. destruct (matching k xs) as [[i x]|]; [done|]. cbn.
  destruct (to_room _ _ Ht) as [[-> ->]|?]; cbn; lia.
Qed.

Lemma is_valid_abs t l z : abs t l -> is_valid (mk_pointer (identity t) z) t = Ok (z <? Z.of_nat (length l), t).
Proof. intros Ha. unfold is_valid, in_table. rewrite decide_True by done. cbn [_index]. by rewrite gets_step, (abs_count _ _ Ha). Qed.

Lemma insert_unique_abs t l k v : abs t l ->
  insert_unique hash k v t = match find_key k l with Some _ => Ok (mk_pointer 0 0, t) | None => HashTableArray.insert hash k v t end.
Proof.
  intros Ha. unfold insert_unique. destruct (find_abs _ _ k Ha) as (z & E & Hz). rewrite (bind_step _ _ _ _ _ E).
  rewrite (bind_step _ _ _ _ _ (is_valid_abs _ _ z Ha)). destruct (find_key k l) as [i|] eqn:Hf.
  - apply find_key_some in Hf. subst z. by destruct (Z.ltb_spec (Z.of_nat i) (Z.of_nat (length l))); [|lia].
  - by destruct (Z.ltb_spec z (Z.of_nat (length l))); [lia|].
Qed.

Lemma appended_abs t l k v l' : abs t l -> appended l k v = Some l' ->
  exists t', HashTableArray.insert hash k v t = Ok (here t' (length l), t') /\ abs t' l'.
Proof.
  intros Ha. unfold appended. case_match eqn:Hlt; [|done]. apply Z.ltb_lt in Hlt. intros [= <-].
  destruct (insert_abs t l k v max_value_uint32 Ha Hlt) as (t' & E & Ha' & _); [unfold max_value_uint32; lia|]. by exists t'.
Qed.

Lemma moved_split (ys ms zs : items) x : moved (length ys) (length ms) (ys ++ x :: ms ++ zs) = ys ++ ms ++ x :: zs.
Proof.
  unfold moved. rewrite list_lookup_middle, delete_middle by done. rewrite app_assoc.
  rewrite take_app_length', drop_app_length' by (by rewrite length_app). by rewrite <- app_assoc.
Qed.

Lemma move_back_abs t l i n l' : abs t l -> moved_back l i n = Some l' ->
  exists t', move_item_back (Z.of_nat i) (Z.of_nat n) t = Ok (tt, t') /\ abs t' l'.
Proof.
  intros Ha Hm. assert (Hi : (i < length l)%nat).
  { unfold moved_back in Hm. repeat case_bool_decide; try done; lia. }
  destruct (lookup_lt_is_Some_2 l i Hi) as [kv Hkv]. destruct Ha as (xs & Ht & <-). destruct (split_at _ _ _ Hkv) as (ys & p & zs & -> & <-).
  rewrite length_fmap, length_app in Hi. unfold moved_back in Hm. rewrite length_fmap, length_app in Hm. cbn [length] in Hm.
  case_bool_decide as Hin.
  - rewrite <- (take_drop n zs) in Ht, Hm. set (ms := take n zs) in *. assert (length ms = n) as Hn by (unfold ms; rewrite length_take; lia).
    destruct (move_item_back_spec _ _ _ _ _ _ Ht) as (t' & E & Ht' & _). rewrite Hn in E. exists t'. split; [done|].
    eexists. split; [done|]. injection Hm as <-. rewrite !fmap_app, !fmap_cons, !fmap_app. cbn [snd].
    rewrite <- (moved_split (ys.*2) ms.*2 (drop n zs).*2 kv). by rewrite !length_fmap, Hn.
  - case_bool_decide; [|done]. cbn [andb] in Hm. case_match eqn:Hlt; [|done]. apply Z.ltb_lt in Hlt. injection Hm as <-.
    destruct (entry_sizes _ _ _ _ Ht) as (_ & Hc & Hcount & _). exists t. split; [|by eexists].
    unfold move_item_back. rewrite gets_step, (lift_step _ tt) by (by apply Z.ltb_lt in Hc as ->). cbv zeta. unfold u32.
    rewrite Z.mod_small by lia. by destruct (Z.leb_spec (count t) (Z.of_nat (length ys) + Z.of_nat n)); [|lia].
Qed.

(** At an entry of the list *)
Lemma at_entry t l i kv : abs t l -> l !! i = Some kv ->
  exists xs p zs, tab_ok t (xs ++ (p, kv) :: zs) /\ l = xs.*2 ++ kv :: zs.*2 /\ i = length xs.
Proof.
  intros (xs & Ht & <-) Hi. destruct (split_at _ _ _ Hi) as (ys & p & zs & -> & <-). exists ys, p, zs. split; [done|]. by rewrite fmap_app.
Qed.

Lemma array_run_spec t l op l' : abs t l -> list_step l op = Some l' -> exists t', run op t = Ok (tt, t') /\ abs t' l'.
Proof.
  intros Ha Hs. destruct op as [k v|k v|i|i k|i v|i n|i j|n]; cbn [list_step run] in *; rewrite ?with_here_step.
  - destruct (appended_abs _ _ _ _ _ Ha Hs) as (t' & E & Ha'). exists t'. by rewrite (bind_step _ _ _ _ _ E).
  - pose proof (insert_unique_abs t l k v Ha) as E. destruct (find_key k l) as [i|]; [|destruct (appended_abs _ _ _ _ _ Ha Hs) as (t' & E' & Ha'); rewrite E' in E].
    + injection Hs as <-. exists t. by rewrite (bind_step _ _ _ _ _ E).
    + exists t'. by rewrite (bind_step _ _ _ _ _ E).
  - destruct (l !! i) as [kv|] eqn:Hi; [|done]. injection Hs as <-. destruct (at_entry _ _ _ _ Ha Hi) as (xs & p & zs & Ht & -> & ->).
    unfold remove_entry. rewrite in_table_here. destruct (array_remove_spec _ _ _ _ _ Ht) as (t' & E & Ht' & _). exists t'. split; [done|].
    exists (xs ++ zs). split; [done|]. by rewrite <- (length_fmap snd xs), delete_middle, fmap_app.
  - destruct (l !! i) as [[k' v]|] eqn:Hi; [|done]. injection Hs as <-. destruct (at_entry _ _ _ _ Ha Hi) as (xs & p & zs & Ht & -> & ->).
    unfold set_key. rewrite in_table_here. destruct (set_item_key_spec _ _ _ _ _ _ k Ht) as (t' & E & Ht' & _). exists t'. split; [done|].
    eexists. split; [done|]. rewrite fmap_app, fmap_cons. rewrite <- (length_fmap snd xs). by rewrite insert_app_r_alt, Nat.sub_diag by done.
  - destruct (l !! i) as [[k v']|] eqn:Hi; [|done]. injection Hs as <-. destruct (at_entry _ _ _ _ Ha Hi) as (xs & p & zs & Ht & -> & ->).
    destruct (set_value_spec _ _ _ _ _ _ v Ht) as (t' & E & Ht' & _). exists t'. split; [done|].
    eexists. split; [done|]. rewrite fmap_app, fmap_cons. rewrite <- (length_fmap snd xs). by rewrite insert_app_r_alt, Nat.sub_diag by done.
  - unfold move_back. rewrite in_table_here. by apply (move_back_abs t l).
  - case_bool_decide as Hij; [|done]. destruct (move_back_abs _ _ _ _ _ Ha Hs) as (t' & E & Ha'). unfold set_index. rewrite in_table_here.
    assert (Hj : (i < length l)%nat /\ Z.of_nat j < 2 ^ 32).
    { pose proof (abs_count _ _ Ha). destruct Ha as (xs & Ht & <-). rewrite length_fmap in *. pose proof (to_small _ _ Ht). pose proof (to_room _ _ Ht).
      unfold moved_back in Hs. rewrite length_fmap in Hs. repeat case_bool_decide; cbn [andb] in Hs; try done; [naive_solver lia|].
      case_match eqn:Hlt; [|done]. apply Z.ltb_lt in Hlt. lia. }
    cbn [_index here]. unfold set_item_index. rewrite gets_step, (abs_count _ _ Ha), (proj2 (Z.ltb_lt (Z.of_nat i) (Z.of_nat (length l)))), (lift_step _ tt) by (done || lia).
    destruct (Z.ltb_spec (Z.of_nat i) (Z.of_nat j)).
    + replace (u32 (Z.of_nat j - Z.of_nat i)) with (Z.of_nat (j - i)) by (unfold u32; rewrite Z.mod_small; lia). by exists t'.
    + assert (j = i) as -> by lia. rewrite Z.ltb_irrefl, Nat.sub_diag in *. exists t. split; [done|]. unfold moved_back in Hs.
      rewrite Nat.add_0_r, bool_decide_eq_true_2 in Hs by lia. injection Hs as <-. destruct (lookup_lt_is_Some_2 l i) as [kv Hkv]; [lia|].
      destruct (at_entry _ _ _ _ Ha Hkv) as (xs & p & zs & Ht & -> & ->). pose proof (moved_split xs.*2 [] zs.*2 kv) as E'. rewrite length_fmap in E'. cbn [app length] in E'. by rewrite E'.
  - case_match eqn:Hlt; [|done]. apply Z.ltb_lt in Hlt. injection Hs as <-. destruct Ha as (xs & Ht & <-).
    destruct (_check_size_spec t xs (Z.of_nat n) Ht) as (t' & E & Ht' & _); [lia|]. exists t'. split; [done|]. by exists xs.
Qed.

Lemma made_abs t l : made t l -> abs t l.
Proof.
  induction 1 as [|t l op l' t' _ IH Hs E]; [apply null_abs|].
  destruct (array_run_spec _ _ _ _ IH Hs) as (t'' & E' & Ha). by assert (t'' = t') as -> by congruence.
Qed.

Lemma entry_abs {A} t l i (field : node -> A) (g : K * V -> A) :
  abs t l -> (forall nd, field nd = g (key nd, value nd)) -> entry (here t i) field t = Ok (g <$> l !! i, t).
Proof.
  intros Ha Hg. unfold entry. rewrite in_table_here, gets_step, (abs_count _ _ Ha). cbn [_index here].
  destruct (l !! i) as [[k v]|] eqn:Hi.
  - pose proof (lookup_lt_Some _ _ _ Hi). destruct (at_entry _ _ _ _ Ha Hi) as (xs & p & zs & Ht & -> & ->).
    destruct (Z.ltb_spec (Z.of_nat (length xs)) (Z.of_nat (length (xs.*2 ++ (k, v) :: zs.*2)))); [|lia].
    rewrite (array_at_step _ _ p) by (rewrite Nat2Z.id; apply (entry_slot _ _ _ _ Ht)).
    destruct (entry_node _ _ _ _ _ _ Ht) as (nd & Hn & [= _ _ _ Ek Ev]). rewrite (node_read _ _ _ _ Hn), Hg. unfold mret, M_ret. cbn. congruence.
  - apply lookup_ge_None in Hi. by destruct (Z.ltb_spec (Z.of_nat i) (Z.of_nat (length l))); [lia|].
Qed.

Lemma next_match_abs t l i kv : abs t l -> l !! i = Some kv ->
  go_to_next_match (here t i) t =
    Ok (here t (match find_key kv.1 (drop (S i) l) with Some j => i + 1 + j | None => length l end)%nat, t).
Proof.
  intros Ha Hi. destruct (at_entry _ _ _ _ Ha Hi) as (xs & p & zs & Ht & -> & ->). destruct kv as [k v]. unfold go_to_next_match.
  pose proof (abs_count _ _ Ha) as Hc. erewrite bind_step; [|rewrite in_table_here; apply (next_match_spec _ _ _ _ _ _ Ht)].
  assert (drop (S (length xs)) (xs.*2 ++ (k, v) :: zs.*2) = zs.*2) as ->.
  { rewrite <- (length_fmap snd xs). by rewrite (cons_middle (k, v)), app_assoc, drop_app_length' by (rewrite length_app; cbn; lia). }
  cbn [fst]. rewrite find_key_matching. unfold mret, M_ret, here. cbn [_table]. do 3 f_equal. destruct (matching k zs) as [[j x]|]; cbn; [lia | done].
Qed.

Lemma move_forward_abs t l i n : abs t l -> (i < length l)%nat -> move_item_forward (Z.of_nat i) n t = Fault out_of_bounds.
Proof.
  intros Ha [kv Hkv]%lookup_lt_is_Some_2. destruct (at_entry _ _ _ _ Ha Hkv) as (xs & p & zs & Ht & _ & ->).
  by apply (move_item_forward_faults _ _ _ _ _ Ht).
Qed.

Lemma set_forward_abs t l i j : abs t l -> 0 <= j -> j < Z.of_nat i -> (i < length l)%nat -> set_item_index (Z.of_nat i) j t = Fault out_of_bounds.
Proof.
  intros Ha Hj Hij Hi. unfold set_item_index. rewrite gets_step, (abs_count _ _ Ha), (proj2 (Z.ltb_lt (Z.of_nat i) (Z.of_nat (length l)))), (lift_step _ tt) by (done || lia).
  destruct (Z.ltb_spec (Z.of_nat i) j); [lia|]. destruct (Z.ltb_spec j (Z.of_nat i)); [|lia]. by apply (move_forward_abs _ l).
Qed.

Lemma insert_forward_abs t l k v i : abs t l -> Z.of_nat (length l) + 1 < 2 ^ 30 -> 0 <= i < Z.of_nat (length l) -> _insert hash k v i t = Fault out_of_bounds.
Proof.
  intros (xs & Ht & <-). rewrite length_fmap. intros Hn Hi. destruct (_insert_start t xs k v i Ht Hn) as (p & t' & Ht' & _ & ->).
  destruct (Z.ltb_spec i (Z.of_nat (length xs) + 1)); [|lia]. cbn [when]. unfold mbind, M_bind.
  rewrite (set_forward_abs t' (xs ++ [(p, (k, v))]).*2); [done | by eexists | lia | lia|]. rewrite length_fmap, length_app. cbn. lia.
Qed.

(** C35. The array with a hash table is a list that can be searched: after any sequence of
    insertions, removals, changes of key or value, moves to the back and reservations that the
    abstract list allows, from the empty table on, (1) the count, validity, keys and values through
    pointers are those of the list; (2) [find] gives the first entry with the key, and an invalid
    pointer if there is none, and [next_match] the next one behind; (3) each operation the list
    allows succeeds and the table represents its result; (4) [insert] returns a pointer to the last
    entry, and if the table was too small every pointer made before is dead; (5) a move forward,
    whether by [move_forward], [set_index] or [insert] at the index of an entry, never succeeds: it
    writes outside of the array. *)
Theorem table_array_refines_list t l : made t l ->
  (count t = Z.of_nat (length l) /\
   forall i, is_valid (here t i) t = Ok (bool_decide (i < length l)%nat, t) /\
     get_key (here t i) t = Ok (fst <$> l !! i, t) /\ get_value (here t i) t = Ok (snd <$> l !! i, t)) /\
  (forall k, exists z, find_pointer hash k t = Ok (mk_pointer (identity t) z, t) /\
     match find_key k l with Some i => z = Z.of_nat i | None => Z.of_nat (length l) <= z end) /\
  (forall i kv, l !! i = Some kv -> go_to_next_match (here t i) t =
     Ok (here t (match find_key kv.1 (drop (S i) l) with Some j => i + 1 + j | None => length l end)%nat, t)) /\
  (forall op l', list_step l op = Some l' -> exists t', run op t = Ok (tt, t') /\ made t' l') /\
  (forall k v, Z.of_nat (length l) + 1 < 2 ^ 30 -> exists t', HashTableArray.insert hash k v t = Ok (here t' (length l), t') /\
     if decide (table_size t <= Z.of_nat (length l) + 1) then identity t <> 0%nat -> forall i, get_key (here t i) t' = Fault dead_object
     else identity t' = identity t) /\
  (forall i, (i < length l)%nat ->
     (forall n, move_forward (here t i) n t = Fault out_of_bounds) /\
     (forall j, 0 <= j < Z.of_nat i -> set_index (here t i) j t = Fault out_of_bounds) /\
     (forall k v, Z.of_nat (length l) + 1 < 2 ^ 30 -> _insert hash k v (Z.of_nat i) t = Fault out_of_bounds)).
Proof.
  intros Hm. pose proof (made_abs _ _ Hm) as Ha. split_and!.
  - by apply abs_count.
  - intros i. split_and!.
    + unfold here. rewrite (is_valid_abs _ _ _ Ha). do 2 f_equal. case_bool_decide; [apply Z.ltb_lt | apply Z.ltb_ge]; lia.
    + by apply entry_abs.
    + by apply entry_abs.
  - intros k. by apply find_abs.
  - intros i kv. by apply next_match_abs.
  - intros op l' Hs. destruct (array_run_spec _ _ _ _ Ha Hs) as (t' & E & _). exists t'. split; [done|]. by eapply made_step.
  - intros k v Hn. destruct (insert_abs t l k v max_value_uint32 Ha Hn) as (t' & E & _ & Hi); [unfold max_value_uint32; lia|].
    exists t'. split; [done|]. case_decide; [|done]. intros H0 i. unfold get_key, entry, in_table. cbn [_table here].
    rewrite decide_False by lia. by destruct (identity t).
  - intros i Hi. split_and!.
    + intros n. unfold move_forward. rewrite in_table_here. by apply (move_forward_abs _ l).
    + intros j Hj. unfold set_index. rewrite in_table_here. apply (set_forward_abs _ l); (done || lia).
    + intros k v Hn. apply (insert_forward_abs _ l); (done || lia).
Qed.
End spec.

(** *** An example: two entries with the same key, and the first moved behind another *)
Definition example_ops : list (operation (K := Z) (V := Z)) :=
  [op_insert 5 50; op_insert 10 1; op_insert 5 51; op_move_back 0 1].
Fixpoint run_table (ops : list (operation (K := Z) (V := Z))) (t : table) : result table :=
  match ops with [] => Ok t | op :: ops => s ← run u32 op t; run_table ops s.2 end.
Definition example_table : table := match run_table example_ops null_table with Ok t => t | Fault _ => null_table end.

Lemma made_all ops : forall t l, made u32 t l -> forall l', foldl (fun l op => l ← l; list_step l op) (Some l) ops = Some l' ->
  exists t', run_table ops t = Ok t' /\ made u32 t' l'.
Proof.
  induction ops as [|op ops IH]; intros t l Hm l' Hl; cbn [foldl run_table] in *; [exists t; by simplify_eq|].
  cbn in Hl. destruct (list_step l op) as [l1|] eqn:Hs; [|exfalso; clear -Hl; by induction ops].
  destruct (array_run_spec u32 _ _ _ _ (made_abs u32 _ _ Hm) Hs) as (t1 & E & _). rewrite E. cbn. eapply IH, Hl. by eapply made_step.
Qed.

Lemma table_array_refines_list_witness :
  find_pointer u32 5 example_table = Ok (here example_table 1, example_table) /\
  go_to_next_match (here example_table 1) example_table = Ok (here example_table 2, example_table) /\
  move_forward (here example_table 1) 1 example_table = Fault out_of_bounds.
Proof.
  assert (Hm : made u32 example_table [(10, 1); (5, 50); (5, 51)]).
  { destruct (made_all example_ops _ _ (made_null u32) [(10, 1); (5, 50); (5, 51)] eq_refl) as (t & E & Hm).
    unfold example_table. by rewrite E. }
  destruct (table_array_refines_list u32 _ _ Hm) as (_ & Hf & Hn & _ & _ & Hw). split; [|split].
  - destruct (Hf 5) as (z & E & Hz). assert (z = 1) as -> by exact Hz. exact E.
  - exact (Hn 1%nat (5, 50) eq_refl).
  - apply (Hw 1%nat); [cbn; lia].
Defined.
