(* ===== verification/IndexedString.v ===== *)
(** * Interned strings: core/indexed_string.h

    An [indexed_string] is a pointer to a counted node of a table in which every string is
    kept once, so that comparing strings is comparing pointers - or the numbers of the nodes,
    which strings that differ in case only share.  The nodes live in a heap and are linked
    into the chains of a hash table that grows; the block allocator they come from is taken
    for fresh locations.  The theorem is in IndexedStringSpec. *)
From S2P Require Import Prelude HashTable.
From stdpp Require Import gmap.
#[local] Open Scope Z_scope.

Notation loc := positive.

(** [struct node]; [string_data] is the text with the 0 at its end. *)
Record node : Type := mk_node {
  ref_count : Z;
  case_insensitive_string_id : Z;
  next_hash : option loc;
  node_hash : Z;
  string_len : Z;
  string_data : bytes
}.

(** The table, with the memory its nodes are in. *)
Record table : Type := mk_table {
  nodes : gmap loc node;
  next_block : loc;
  _hash_table : list (option loc);
  _table_size : Z;
  _entry_count : Z;
  _resize_threshold : Z;
  _current_string_id : Z
}.

Definition with_nodes (ns : gmap loc node) (t : table) : table :=
  mk_table ns (next_block t) (_hash_table t) (_table_size t) (_entry_count t) (_resize_threshold t) (_current_string_id t).
Definition with_buckets (hs : list (option loc)) (t : table) : table :=
  mk_table (nodes t) (next_block t) hs (_table_size t) (_entry_count t) (_resize_threshold t) (_current_string_id t).
Definition with_entry_count (n : Z) (t : table) : table :=
  mk_table (nodes t) (next_block t) (_hash_table t) (_table_size t) n (_resize_threshold t) (_current_string_id t).

(** *** Access to nodes: to one that has been freed it is [dead_object]. *)
Definition node_at (p : loc) : M table node := fun t => nd ← of_option dead_object (nodes t !! p); Ok (nd, t).
Definition change_node (p : loc) (g : node -> node) : M table unit := fun t =>
  nd ← of_option dead_object (nodes t !! p); Ok (tt, with_nodes (<[p := g nd]> (nodes t)) t).
Definition with_next (h : option loc) (nd : node) : node :=
  mk_node (ref_count nd) (case_insensitive_string_id nd) h (node_hash nd) (string_len nd) (string_data nd).
Definition with_count (n : Z) (nd : node) : node :=
  mk_node n (case_insensitive_string_id nd) (next_hash nd) (node_hash nd) (string_len nd) (string_data nd).

(** [_get_null_node]: the node of the empty string is static and starts with half of the
    counter's range. *)
Definition null_node : loc := 1%positive.
Definition null_count : Z := 0x7FFFFFFF.
Definition empty_node : node := mk_node null_count 0 None 0 0 [0].

Definition max_string_length : Z := 1536 - 24.

(** [_init] *)
Definition new_table : result table :=
  table_size ← next_larger_hash_prime 3;
  Ok (mk_table {[null_node := empty_node]} 2 (replicate (Z.to_nat table_size) None) table_size 0 (Z.shiftr table_size 1) 1).

(** ** Strings *)
Inductive string_compare_result : Type := not_at_all_equal | equal_in_the_case_insensitive_way | totally_equal.

(** [tolower] of the C locale, and the value of a [char8] *)
Definition tolower (c : Z) : Z := if (65 <=? c) && (c <=? 90) then c + 32 else c.
Definition char8 (c : Z) : Z := if c <? 128 then c else c - 256.

Fixpoint compare_loop (buffer stored_string : bytes) (r : string_compare_result) : result string_compare_result :=
  match buffer, stored_string with
  | c1 :: buffer, c2 :: stored_string =>
      if c2 =? 0 then Ok not_at_all_equal
      else if c1 =? c2 then compare_loop buffer stored_string r
      else if negb (tolower c1 =? tolower c2) then Ok not_at_all_equal
      else compare_loop buffer stored_string equal_in_the_case_insensitive_way
  | [], c2 :: _ => Ok (if negb (c2 =? 0) then not_at_all_equal else r)
  | _, [] => Fault out_of_bounds
  end.
Definition _compare_strings (buffer stored_string : bytes) : result string_compare_result :=
  compare_loop buffer stored_string totally_equal.

Definition hash_step (result c : Z) : Z :=
  Z.lxor (Z.lor (u32 (Z.shiftl result 4)) (Z.shiftr result 28)) (u32 (char8 (tolower c))).
Definition hash_string_no_case (buffer : bytes) : Z := fold_left hash_step buffer 0.

(** [buffer] cut to the length that is passed and to what fits a block *)
Definition cut (buffer : bytes) (buffer_len : Z) : result bytes :=
  let buffer_len := if max_string_length <? buffer_len then max_string_length else buffer_len in
  _ ← require (buffer_len <=? blen buffer) out_of_bounds;
  Ok (take (Z.to_nat buffer_len) buffer).

Definition bucket_at (bucket : Z) : M table (option loc) := fun t =>
  h ← of_option out_of_bounds (_hash_table t !! Z.to_nat bucket); Ok (h, t).

(** ** The operations of the table *)
Fixpoint find_walk (fuel : nat) (walk : option loc) (hash : Z) (buffer : bytes) (full_match : bool) : M table (option loc) :=
  match walk, fuel with
  | None, _ => mret None
  | Some _, O => lift (Fault out_of_fuel)
  | Some p, S fuel =>
      nd ← node_at p;
      if node_hash nd =? hash then
        val ← lift (_compare_strings buffer (string_data nd));
        match val with
        | not_at_all_equal => find_walk fuel (next_hash nd) hash buffer full_match
        | totally_equal => mret (Some p)
        | equal_in_the_case_insensitive_way =>
            if full_match then find_walk fuel (next_hash nd) hash buffer full_match else mret (Some p)
        end
      else find_walk fuel (next_hash nd) hash buffer full_match
  end.

Definition find (buffer : bytes) (buffer_len : Z) (full_match : bool) : M table (option loc) :=
  buffer ← lift (cut buffer buffer_len);
  let hash := hash_string_no_case buffer in
  size ← gets _table_size;
  walk ← bucket_at (hash mod size);
  ns ← gets nodes;
  find_walk (base.size ns) walk hash buffer full_match.

(** A pointer to a pointer: a bucket of the table, or [next_hash] of a node. *)
Inductive slot : Type := in_bucket (i : Z) | in_node (p : loc).
Definition read_slot (w : slot) : M table (option loc) :=
  match w with in_bucket i => bucket_at i | in_node p => nd ← node_at p; mret (next_hash nd) end.
Definition write_slot (w : slot) (h : option loc) : M table unit :=
  match w with
  | in_bucket i => fun t =>
      _ ← of_option out_of_bounds (_hash_table t !! Z.to_nat i);
      Ok (tt, with_buckets (<[Z.to_nat i := h]> (_hash_table t)) t)
  | in_node p => change_node p (with_next h)
  end.

Fixpoint unlink_walk (fuel : nat) (walk : slot) (the_node : loc) : M table unit :=
  h ← read_slot walk;
  match h, fuel with
  | None, _ => mret tt
  | Some _, O => lift (Fault out_of_fuel)
  | Some p, S fuel =>
      if decide (p = the_node) then nd ← node_at the_node; write_slot walk (next_hash nd)
      else unlink_walk fuel (in_node p) the_node
  end.

Definition remove (the_node : loc) : M table unit :=
  nd ← node_at the_node;
  size ← gets _table_size;
  ns ← gets nodes;
  _ ← unlink_walk (base.size ns) (in_bucket (node_hash nd mod size)) the_node;
  _ ← modify (fun t => with_nodes (delete the_node (nodes t)) t);
  modify (fun t => with_entry_count (u32 (_entry_count t - 1)) t).

Definition node_reference_to_zero (the_node : loc) : M table unit :=
  nd ← node_at the_node;
  _ ← lift (require (ref_count nd =? 0) assertion_failed);
  remove the_node.

(** The first loop of [insert]: the node of the string, or the number it is to have. *)
Fixpoint insert_walk (fuel : nat) (walk : option loc) (hash : Z) (buffer : bytes) (string_id : Z) : M table (loc + Z) :=
  match walk, fuel with
  | None, _ => mret (inr string_id)
  | Some _, O => lift (Fault out_of_fuel)
  | Some p, S fuel =>
      nd ← node_at p;
      if node_hash nd =? hash then
        val ← lift (_compare_strings buffer (string_data nd));
        match val with
        | not_at_all_equal => insert_walk fuel (next_hash nd) hash buffer string_id
        | equal_in_the_case_insensitive_way =>
            insert_walk fuel (next_hash nd) hash buffer (case_insensitive_string_id nd)
        | totally_equal => mret (inl p)
        end
      else insert_walk fuel (next_hash nd) hash buffer string_id
  end.

(** The loops that move the chains to a larger table. *)
Fixpoint move_chain (fuel : nat) (chain : option loc) (new_table : list (option loc)) (new_table_size : Z)
    : M table (list (option loc)) :=
  match chain, fuel with
  | None, _ => mret new_table
  | Some _, O => lift (Fault out_of_fuel)
  | Some p, S fuel =>
      nd ← node_at p;
      let new_index := Z.to_nat (node_hash nd mod new_table_size) in
      h ← lift (of_option out_of_bounds (new_table !! new_index));
      _ ← change_node p (with_next h);
      move_chain fuel (next_hash nd) (<[new_index := Some p]> new_table) new_table_size
  end.

Fixpoint move_chains (fuel : nat) (rows new_table : list (option loc)) (new_table_size : Z) : M table (list (option loc)) :=
  match rows with
  | [] => mret new_table
  | chain :: rows =>
      new_table ← move_chain fuel chain new_table new_table_size;
      move_chains fuel rows new_table new_table_size
  end.

Definition grow : M table unit :=
  table_size ← gets _table_size;
  new_table_size ← lift (next_larger_hash_prime table_size);
  rows ← gets _hash_table;
  ns ← gets nodes;
  new_table ← move_chains (base.size ns) rows (replicate (Z.to_nat new_table_size) None) new_table_size;
  modify (fun t => mk_table (nodes t) (next_block t) new_table new_table_size (_entry_count t)
    (Z.shiftr new_table_size 1) (_current_string_id t)).

(** [if(string_id == 0) string_id = _current_string_id++;] *)
Definition new_id (string_id : Z) : M table Z :=
  if string_id =? 0 then
    id ← gets _current_string_id;
    _ ← modify (fun t => mk_table (nodes t) (next_block t) (_hash_table t) (_table_size t) (_entry_count t)
      (_resize_threshold t) (u32 (id + 1)));
    mret id
  else mret string_id.

(** The end of [insert]: the new node is the first of its chain. *)
Definition add_node (buffer : bytes) (hash string_id : Z) : M table loc :=
  size ← gets _table_size;
  h ← bucket_at (hash mod size);
  new_node ← gets next_block;
  _ ← modify (fun t =>
    mk_table (<[new_node := mk_node 0 string_id h hash (blen buffer) (buffer ++ [0])]> (nodes t)) (Pos.succ new_node)
      (<[Z.to_nat (hash mod size) := Some new_node]> (_hash_table t)) size (_entry_count t)
      (_resize_threshold t) (_current_string_id t));
  mret new_node.

Definition insert (buffer : bytes) (buffer_len : Z) : M table loc :=
  if buffer_len =? 0 then mret null_node else
  buffer ← lift (cut buffer buffer_len);
  let hash := hash_string_no_case buffer in
  size ← gets _table_size;
  walk ← bucket_at (hash mod size);
  ns ← gets nodes;
  found ← insert_walk (base.size ns) walk hash buffer 0;
  match found with
  | inl p => mret p
  | inr string_id =>
      _ ← modify (fun t => with_entry_count (u32 (_entry_count t + 1)) t);
      t ← get;
      _ ← when (_resize_threshold t <? _entry_count t) grow;
      string_id ← new_id string_id;
      add_node buffer hash string_id
  end.

(** ** [indexed_string]: a pointer to a node *)
Definition add_reference (_node : loc) : M table loc :=
  _ ← change_node _node (fun nd => with_count (u32 (ref_count nd + 1)) nd); mret _node.

Definition empty_string : M table loc := add_reference null_node.
Definition new_string (buffer : bytes) (buffer_len : Z) : M table loc :=
  _node ← insert buffer buffer_len; add_reference _node.
Definition copy_string (s : loc) : M table loc := add_reference s.

Definition destroy_string (_node : loc) : M table unit :=
  _ ← change_node _node (fun nd => with_count (u32 (ref_count nd - 1)) nd);
  nd ← node_at _node;
  when (ref_count nd =? 0) (node_reference_to_zero _node).

(** [operator=], which gives the new value of [_node] *)
Definition assign_string (_node the_string : loc) : M table loc :=
  _ ← destroy_string _node; add_reference the_string.

Definition c_str (_node : loc) : M table bytes := nd ← node_at _node; mret (string_data nd).
Definition not_empty (_node : loc) : M table bool :=
  nd ← node_at _node; mret (negb (case_insensitive_string_id nd =? 0)).
Definition hash (_node : loc) : M table Z := nd ← node_at _node; mret (case_insensitive_string_id nd).

Definition compare (_node the_string : loc) (case_sensitive : bool) : M table bool :=
  if decide (the_string = _node) then mret true
  else if case_sensitive then mret false
  else nd ← node_at the_string; nd' ← node_at _node;
       mret (case_insensitive_string_id nd =? case_insensitive_string_id nd').

(** ** The test of the file: six strings, compared, and destroyed again *)
Definition example_strings : list bytes :=
  [[72; 101; 108; 108; 111]; [104; 101; 76; 76; 111]; [72; 101; 108; 108; 111]; [97; 32; 83; 72; 111; 114; 84; 33]; [70; 111]; [102; 79]].

Fixpoint make_all (l : list bytes) : M table (list loc) :=
  match l with
  | [] => mret []
  | s :: l => p ← new_string s (blen s); ps ← make_all l; mret (p :: ps)
  end.
Fixpoint destroy_all (l : list loc) : M table unit :=
  match l with [] => mret tt | p :: l => _ ← destroy_string p; destroy_all l end.

Example strings_are_compared :
  (t ← new_table;
   '(ps, t) ← make_all example_strings t;
   let s i := nth i ps null_node in
   '(a, _) ← compare (s 0%nat) (s 1%nat) false t;
   '(b, _) ← compare (s 0%nat) (s 2%nat) false t;
   '(c, _) ← compare (s 0%nat) (s 2%nat) true t;
   '(d, _) ← compare (s 0%nat) (s 1%nat) true t;
   '(_, t') ← destroy_all ps t;
   Ok (a, b, c, d, base.size (nodes t), _table_size t, base.size (nodes t'))) = Ok (true, true, true, false, 6%nat, 11, 1%nat).
Proof. vm_compute. reflexivity. Qed.

(** A string that is assigned to itself while it is the only one of its kind is gone before it is
    counted again. *)
Example self_assignment_uses_freed_memory :
  (t ← new_table; '(s, t) ← new_string [65; 66] 2 t; '(_, t) ← assign_string s s t; Ok (nodes t !! s)) = Fault dead_object.
Proof. vm_compute. reflexivity. Qed.
