(* ===== verification/IndexedStringSpec.v ===== *)
(** * What interned strings promise

    The table of IndexedString is a finite map from nodes to strings in which every string
    occurs once and strings that differ in case only share a number; handles are the strings
    themselves.  Whatever a program does with handles - make, copy, assign, compare, destroy -
    gives what it gives for strings, and the nodes are exactly the strings in use
    ([indexed_strings_are_strings]). *)
From S2P Require Import Prelude HashTable IndexedString Chain.
From stdpp Require Import gmap.
#[local] Open Scope Z_scope.

#[local] Notation chain := (Chain.chain next_hash).

(** ** Text *)
Definition lower (s : bytes) : bytes := tolower <$> s.

Definition comparison (s1 s2 : bytes) (r : string_compare_result) : string_compare_result :=
  if decide (s1 = s2) then r
  else if decide (lower s1 = lower s2) then equal_in_the_case_insensitive_way else not_at_all_equal.

Lemma compare_loop_spec s1 : forall s2 r, 0 ∉ s2 -> compare_loop s1 (s2 ++ [0]) r = Ok (comparison s1 s2 r).
Proof.
  induction s1 as [|c1 s1 IH]; intros [|c2 s2] r Hs; cbn [compare_loop app]; [done | | done |].
  - apply not_elem_of_cons in Hs as [Hc _]. destruct (Z.eqb_spec c2 0); [congruence | done].
  - apply not_elem_of_cons in Hs as [Hc Hs]. destruct (Z.eqb_spec c2 0); [congruence|].
    unfold comparison. change (lower (c1 :: s1)) with (tolower c1 :: lower s1). change (lower (c2 :: s2)) with (tolower c2 :: lower s2).
    destruct (Z.eqb_spec c1 c2) as [<-|Hne]; [|destruct (Z.eqb_spec (tolower c1) (tolower c2)) as [Hl|Hl]; cbn [negb]].
    + rewrite IH by done. unfold comparison. repeat case_decide; (congruence || done).
    + rewrite IH by done. unfold comparison. rewrite (decide_False (P := c1 :: s1 = c2 :: s2)) by congruence.
      rewrite Hl. repeat case_decide; (congruence || done).
    + rewrite !decide_False by congruence. done.
Qed.

Lemma hash_lower s s' : lower s = lower s' -> hash_string_no_case s = hash_string_no_case s'.
Proof.
  unfold hash_string_no_case. generalize 0 as r. revert s'.
  induction s as [|c s IH]; intros [|c' s'] r [=]; cbn [fold_left]; [done|].
  assert (hash_step r c = hash_step r c') as -> by (unfold hash_step; congruence). by apply IH.
Qed.

(** Everything of a node but its link *)
Definition body (nd : node) : node := with_next None nd.
Definition same_bodies (ns ns' : gmap loc node) : Prop := forall p, body <$> ns' !! p = body <$> ns !! p.

Lemma same_bodies_refl ns : same_bodies ns ns. Proof. done. Qed.
Lemma same_bodies_trans ns1 ns2 ns3 : same_bodies ns1 ns2 -> same_bodies ns2 ns3 -> same_bodies ns1 ns3.
Proof. intros H1 H2 p. by rewrite H2, H1. Qed.
Lemma same_bodies_link ns p nd h : ns !! p = Some nd -> same_bodies ns (<[p := with_next h nd]> ns).
Proof.
  intros Hp q. destruct (decide (p = q)) as [<-|]; [by rewrite lookup_insert_eq, Hp | by rewrite lookup_insert_ne].
Qed.
Lemma same_bodies_lookup ns ns' p nd' :
  same_bodies ns ns' -> ns' !! p = Some nd' -> exists nd, ns !! p = Some nd /\ body nd' = body nd.
Proof. intros Hs Hp. specialize (Hs p). rewrite Hp in Hs. destruct (ns !! p) as [nd|]; [|done]. apply (inj Some) in Hs. by exists nd. Qed.

(** ** The table *)

(** [linked]: the table with the chains [cs] of its buckets. *)
Record linked (t : table) (cs : list (list loc)) : Prop := {
  lk_positive : 0 < _table_size t;
  lk_size : Z.of_nat (length cs) = _table_size t;
  lk_chains : Forall2 (chain (nodes t)) (_hash_table t) cs;
  lk_bucket : forall i l p nd, cs !! i = Some l -> p ∈ l -> nodes t !! p = Some nd -> node_hash nd mod _table_size t = Z.of_nat i;
  lk_nodup : NoDup (concat cs);
  lk_nodes : forall p, is_Some (nodes t !! p) <-> p = null_node \/ p ∈ concat cs;
  lk_null : null_node ∉ concat cs;
  lk_fresh : forall p, is_Some (nodes t !! p) -> (p < next_block t)%positive
}.

(** What is in the nodes: the text of each, and its number. *)
Record text_node (nd : node) (s : bytes) (id : Z) : Prop := {
  tn_data : string_data nd = s ++ [0];
  tn_hash : node_hash nd = hash_string_no_case s;
  tn_len : string_len nd = blen s;
  tn_id : case_insensitive_string_id nd = id
}.

Definition text_ok (s : bytes) : Prop := 0 ∉ s /\ blen s <= max_string_length.

Record contents (t : table) (G : gmap loc (bytes * Z)) : Prop := {
  ct_nodes : forall p, p <> null_node -> is_Some (nodes t !! p) -> is_Some (G !! p);
  ct_text : forall p s id, G !! p = Some (s, id) -> exists nd, nodes t !! p = Some nd /\ text_node nd s id;
  ct_ok : forall p s id, G !! p = Some (s, id) -> s <> [] /\ text_ok s /\ 0 < id < _current_string_id t;
  ct_one : forall p q s i j, G !! p = Some (s, i) -> G !! q = Some (s, j) -> p = q;
  ct_case : forall p q s s' i j, G !! p = Some (s, i) -> G !! q = Some (s', j) -> (i = j <-> lower s = lower s');
  ct_null : G !! null_node = None /\ exists nd, nodes t !! null_node = Some nd /\ text_node nd [] 0
}.

Lemma text_node_body nd nd' s id : body nd' = body nd -> text_node nd s id -> text_node nd' s id.
Proof. destruct nd, nd'. cbn. intros [= -> -> -> -> ->] []. by split. Qed.

(** The chain of a bucket, and room to walk it. *)
Lemma bucket_chain t cs i :
  linked t cs -> 0 <= i < _table_size t ->
  exists h l, bucket_at i t = Ok (h, t) /\ cs !! Z.to_nat i = Some l /\ _hash_table t !! Z.to_nat i = Some h /\
    chain (nodes t) h l /\ (length l <= base.size (nodes t))%nat.
Proof.
  intros Hk Hi. pose proof (lk_size _ _ Hk) as Hsz.
  destruct (lookup_lt_is_Some_2 cs (Z.to_nat i)) as [l Hl]; [lia|].
  destruct (Forall2_lookup_r _ _ _ _ _ (lk_chains _ _ Hk) Hl) as (h & Hh & Hc).
  exists h, l. unfold bucket_at. rewrite Hh. split_and!; try done.
  apply chain_fuel; [by eapply row_nodup, Hl; apply Hk|]. intros p Hp. by eapply chain_lives.
Qed.

Lemma hash_bucket t cs h : linked t cs -> 0 <= h mod _table_size t < _table_size t.
Proof. intros Hk. apply Z.mod_pos_bound, Hk. Qed.

(** A text is in the chain its hash leads to, if it is in the table. *)
Lemma text_in_row t cs G p s id l :
  linked t cs -> contents t G -> G !! p = Some (s, id) ->
  cs !! Z.to_nat (hash_string_no_case s mod _table_size t) = Some l -> p ∈ l.
Proof.
  intros Hk Hc Hp Hl. destruct (ct_text _ _ Hc _ _ _ Hp) as (nd & Hn & Ht).
  assert (p ∈ concat cs) as Hin.
  { destruct (proj1 (lk_nodes _ _ Hk p) ltac:(by eexists)) as [->|]; [|done].
    pose proof (proj1 (ct_null _ _ Hc)). congruence. }
  destruct (row_of _ _ Hin) as (i & l' & Hi & Hpl). pose proof (lk_bucket _ _ Hk _ _ _ _ Hi Hpl Hn) as Hb.
  rewrite (tn_hash _ _ _ Ht) in Hb. rewrite Hb, Nat2Z.id in Hl. congruence.
Qed.

(** ** Walking a chain *)
Definition known (t : table) (G : gmap loc (bytes * Z)) (l : list loc) : Prop := forall p, p ∈ l -> exists s id, G !! p = Some (s, id).

Lemma known_row t cs G i l : linked t cs -> contents t G -> cs !! i = Some l -> known t G l.
Proof.
  intros Hk Hc Hi p Hp. pose proof (elem_of_row _ _ _ _ Hi Hp) as Hin.
  destruct (ct_nodes _ _ Hc p) as [[s id] Hg].
  - intros ->. by apply (lk_null _ _ Hk).
  - apply Hk. by right.
  - by exists s, id.
Qed.

(** The comparison at a node of the chain. *)
Lemma node_step {B} t G p s id text (on_not on_ci on_eq : node -> M table B) :
  contents t G -> G !! p = Some (s, id) ->
  exists nd, nodes t !! p = Some nd /\ text_node nd s id /\
  (nd ← node_at p;
   if node_hash nd =? hash_string_no_case text then
     val ← lift (_compare_strings text (string_data nd));
     match val with not_at_all_equal => on_not nd | equal_in_the_case_insensitive_way => on_ci nd | totally_equal => on_eq nd end
   else on_not nd) t =
  (if decide (text = s) then on_eq nd t else if decide (lower text = lower s) then on_ci nd t else on_not nd t).
Proof.
  intros Hc Hp. destruct (ct_text _ _ Hc _ _ _ Hp) as (nd & Hn & Ht). exists nd. split; [done|]. split; [done|].
  unfold node_at, mbind at 1, M_bind at 1. rewrite Hn. cbn [of_option mbind result_bind].
  destruct Ht as [Hd Hh _ _]. rewrite Hh, Hd.
  assert (Hz : 0 ∉ s) by (by apply (ct_ok _ _ Hc _ _ _ Hp)).
  unfold _compare_strings. rewrite compare_loop_spec by done.
  destruct (Z.eqb_spec (hash_string_no_case s) (hash_string_no_case text)) as [He|He].
  - unfold mbind, M_bind, lift. unfold comparison. by repeat case_decide.
  - rewrite !decide_False; [done | |]; intros E; apply He; [by apply hash_lower | by rewrite E].
Qed.

Lemma insert_walk_spec t G text : contents t G -> forall l fuel h id0,
  chain (nodes t) h l -> known t G l -> (length l <= fuel)%nat ->
  exists r, insert_walk fuel h (hash_string_no_case text) text id0 t = Ok (r, t) /\
  ((exists p id, p ∈ l /\ G !! p = Some (text, id) /\ r = inl p) \/
   ((forall p id, p ∈ l -> G !! p <> Some (text, id)) /\
    ((r = inr id0 /\ forall p s id, p ∈ l -> G !! p = Some (s, id) -> lower text <> lower s) \/
     exists p s id, p ∈ l /\ G !! p = Some (s, id) /\ lower text = lower s /\ r = inr id))).
Proof.
  intros Hc. induction l as [|p l IH]; intros fuel h id0 Hch Hkn Hf.
  { cbn in Hch. subst h. exists (inr id0). split; [by destruct fuel|]. right.
    split; [intros ?? Hp; by apply elem_of_nil in Hp|]. left. split; [done|]. intros ??? Hp; by apply elem_of_nil in Hp. }
  destruct Hch as (-> & nd & Hn & Hch). destruct fuel as [|fuel]; [cbn in Hf; lia|].
  destruct (Hkn p ltac:(left)) as (s & id & Hp).
  destruct (node_step t G p s id text (fun nd => insert_walk fuel (next_hash nd) (hash_string_no_case text) text id0)
    (fun nd => insert_walk fuel (next_hash nd) (hash_string_no_case text) text (case_insensitive_string_id nd))
    (fun _ => mret (inl p)) Hc Hp) as (nd' & Hn' & Ht & E).
  rewrite Hn in Hn'. injection Hn' as <-. cbn [insert_walk].
  assert (Hkl : known t G l) by (intros q Hq; apply Hkn; by right). assert (Hfl : (length l <= fuel)%nat) by (cbn in Hf; lia).
  rewrite E. clear E. case_decide as He; [|case_decide as Hl].
  - subst s. exists (inl p). split; [done|]. left. exists p, id. split; [left | done].
  - destruct (IH fuel (next_hash nd) (case_insensitive_string_id nd) Hch Hkl Hfl) as (r & Er & Hr). exists r. split; [done|].
    destruct Hr as [(q & j & Hq & Hg & ->)|(Hno & Hr)]; [left; exists q, j; split; [by right | done]|]. right.
    split. { intros q j [->|Hq]%elem_of_cons; [rewrite Hp; congruence | by apply Hno]. }
    right. destruct Hr as [[-> _]|(q & s' & j & Hq & Hg & Hls & ->)].
    + exists p, s, id. split; [left|]. rewrite (tn_id _ _ _ Ht). done.
    + exists q, s', j. split; [by right | done].
  - destruct (IH fuel (next_hash nd) id0 Hch Hkl Hfl) as (r & Er & Hr). exists r. split; [done|].
    destruct Hr as [(q & j & Hq & Hg & ->)|(Hno & Hr)]; [left; exists q, j; split; [by right | done]|]. right.
    split. { intros q j [->|Hq]%elem_of_cons; [rewrite Hp; congruence | by apply Hno]. }
    destruct Hr as [[-> Hnl]|(q & s' & j & Hq & Hg & Hls & ->)]; [left | right; exists q, s', j; split; [by right | done]].
    split; [done|]. intros q s' j [->|Hq]%elem_of_cons Hg; [congruence | by eapply Hnl].
Qed.

(** [find]: the node of the text, or any node that differs in case only. *)
Lemma find_walk_spec t G text full : contents t G -> forall l fuel h,
  chain (nodes t) h l -> known t G l -> (length l <= fuel)%nat ->
  exists r, find_walk fuel h (hash_string_no_case text) text full t = Ok (r, t) /\
  match r with
  | Some p => p ∈ l /\ exists s id, G !! p = Some (s, id) /\ if full then s = text else lower s = lower text
  | None => forall p s id, p ∈ l -> G !! p = Some (s, id) -> if full then s <> text else lower s <> lower text
  end.
Proof.
  intros Hc. induction l as [|p l IH]; intros fuel h Hch Hkn Hf.
  { cbn in Hch. subst h. exists None. split; [by destruct fuel|]. intros ??? Hp; by apply elem_of_nil in Hp. }
  destruct Hch as (-> & nd & Hn & Hch). destruct fuel as [|fuel]; [cbn in Hf; lia|].
  destruct (Hkn p ltac:(left)) as (s & id & Hp).
  destruct (node_step t G p s id text (fun nd => find_walk fuel (next_hash nd) (hash_string_no_case text) text full)
    (fun nd => if full then find_walk fuel (next_hash nd) (hash_string_no_case text) text full else mret (Some p))
    (fun _ => mret (Some p)) Hc Hp) as (nd' & Hn' & Ht & E).
  rewrite Hn in Hn'. injection Hn' as <-. cbn [find_walk].
  assert (Hkl : known t G l) by (intros q Hq; apply Hkn; by right). assert (Hfl : (length l <= fuel)%nat) by (cbn in Hf; lia).
  assert (Hrest : text <> s -> (full = false -> lower text <> lower s) ->
    exists r, find_walk fuel (next_hash nd) (hash_string_no_case text) text full t = Ok (r, t) /\
    match r with
    | Some q => q ∈ p :: l /\ exists s id, G !! q = Some (s, id) /\ if full then s = text else lower s = lower text
    | None => forall q s id, q ∈ p :: l -> G !! q = Some (s, id) -> if full then s <> text else lower s <> lower text
    end).
  { intros Hne Hnl. destruct (IH fuel (next_hash nd) Hch Hkl Hfl) as (r & Er & Hr). exists r. split; [done|].
    destruct r as [q|]; [destruct Hr as [Hq Hr]; split; [by right | done]|].
    intros q s' j [->|Hq]%elem_of_cons Hg; [|by eapply Hr]. rewrite Hp in Hg. injection Hg as <- _.
    destruct full; [congruence | intros E'; by apply Hnl]. }
  rewrite E. clear E. case_decide as He; [|case_decide as Hl].
  - subst s. exists (Some p). split; [done|]. split; [left|]. exists text, id. by destruct full.
  - destruct full; [by apply Hrest|]. exists (Some p). split; [done|]. split; [left|]. by exists s, id.
  - by apply Hrest.
Qed.

(** ** Moving the chains to a larger table *)
Definition placed (size : Z) (ns : gmap loc node) (cs : list (list loc)) : Prop :=
  forall i l p nd, cs !! i = Some l -> p ∈ l -> ns !! p = Some nd -> node_hash nd mod size = Z.of_nat i.

Lemma placed_bodies size ns ns' cs : same_bodies ns ns' -> placed size ns cs -> placed size ns' cs.
Proof.
  intros Hs Hpl i l p nd' Hi Hp Hn. destruct (same_bodies_lookup _ _ _ _ Hs Hn) as (nd & Hn' & Hb).
  assert (node_hash nd' = node_hash nd) as -> by exact (f_equal node_hash Hb). by eapply Hpl.
Qed.

Lemma move_chain_spec size l : forall fuel h nt ncs t,
  0 < size -> Z.of_nat (length ncs) = size ->
  chain (nodes t) h l -> NoDup (l ++ concat ncs) -> Forall2 (chain (nodes t)) nt ncs -> placed size (nodes t) ncs ->
  (length l <= fuel)%nat ->
  exists ns' nt' ncs', move_chain fuel h nt size t = Ok (nt', with_nodes ns' t) /\
    Forall2 (chain ns') nt' ncs' /\ placed size ns' ncs' /\ length ncs' = length ncs /\ concat ncs' ≡ₚ l ++ concat ncs /\
    same_bodies (nodes t) ns' /\ (forall q, q ∉ l -> ns' !! q = nodes t !! q).
Proof.
  induction l as [|p l IH]; intros fuel h nt ncs t Hpos Hsz Hch Hnd HF Hpl Hf.
  { cbn in Hch. subst h. exists (nodes t), nt, ncs. split_and!; try done. destruct t. by destruct fuel. }
  destruct Hch as (-> & nd & Hn & Hch). destruct fuel as [|fuel]; [cbn in Hf; lia|].
  cbn [app] in Hnd. apply list.NoDup_cons in Hnd as [Hp Hnd].
  assert (Hpl' : p ∉ l) by (intros Hin; apply Hp, elem_of_app; by left).
  assert (Hpc : forall i r, ncs !! i = Some r -> p ∉ r).
  { intros i r Hi Hin. apply Hp, elem_of_app. right. by eapply elem_of_row. }
  pose proof (Z.mod_pos_bound (node_hash nd) size Hpos) as Hb. set (i := Z.to_nat (node_hash nd mod size)).
  destruct (lookup_lt_is_Some_2 ncs i) as [r Hr]; [subst i; lia|].
  destruct (Forall2_lookup_r _ _ _ _ _ HF Hr) as (h0 & Hh0 & Hc0).
  set (ns1 := <[p := with_next h0 nd]> (nodes t)).
  destruct (IH fuel (next_hash nd) (<[i := Some p]> nt) (<[i := p :: r]> ncs) (with_nodes ns1 t))
    as (ns' & nt' & ncs' & E & HF' & Hpl1 & Hlen & Hperm & Hsb & Hout); cbn [nodes with_nodes].
  - done.
  - by rewrite length_insert.
  - by apply chain_insert.
  - rewrite (concat_insert_cons _ _ _ _ Hr), <- Permutation_middle. apply list.NoDup_cons. split; [|done]. done.
  - apply Forall2_insert.
    + eapply chains_agree, HF. intros q Hq. subst ns1. rewrite lookup_insert_ne; [done|].
      intros ->. by apply Hp, elem_of_app; right.
    + split; [done|]. exists (with_next h0 nd). subst ns1. rewrite lookup_insert_eq. split; [done|].
      apply chain_insert; [by eapply Hpc | done].
  - assert (Hsame : same_bodies (nodes t) ns1) by (by apply same_bodies_link).
    intros j r' q ndq Hj Hq Hnq. destruct (decide (i = j)) as [<-|].
    + rewrite list_lookup_insert_eq in Hj by (by apply lookup_lt_Some in Hr). injection Hj as <-.
      apply elem_of_cons in Hq as [->|Hq].
      * subst ns1. rewrite lookup_insert_eq in Hnq. injection Hnq as <-. cbn. subst i. lia.
      * by eapply (placed_bodies _ _ _ _ Hsame Hpl).
    + rewrite list_lookup_insert_ne in Hj by done. by eapply (placed_bodies _ _ _ _ Hsame Hpl).
  - cbn in Hf. lia.
  - exists ns', nt', ncs'. split_and!; try done.
    + cbn [move_chain]. unfold node_at, mbind at 1, M_bind at 1. rewrite Hn. cbn [of_option mbind result_bind].
      fold i. rewrite (lift_step _ h0) by (by rewrite Hh0).
      rewrite (bind_step _ tt (with_nodes ns1 t)) by (unfold change_node; by rewrite Hn). by rewrite E.
    + by rewrite Hlen, length_insert.
    + rewrite Hperm, (concat_insert_cons _ _ _ _ Hr). cbn. by rewrite Permutation_middle.
    + eapply same_bodies_trans, Hsb. by apply same_bodies_link.
    + intros q Hq. apply not_elem_of_cons in Hq as [Hq1 Hq2]. rewrite Hout by done. cbn [nodes with_nodes]. subst ns1. by rewrite lookup_insert_ne.
Qed.

Lemma move_chains_spec size fuel cs : forall rows nt ncs t,
  0 < size -> Z.of_nat (length ncs) = size ->
  Forall2 (chain (nodes t)) rows cs -> NoDup (concat cs ++ concat ncs) ->
  Forall2 (chain (nodes t)) nt ncs -> placed size (nodes t) ncs -> (forall l, l ∈ cs -> (length l <= fuel)%nat) ->
  exists ns' nt' ncs', move_chains fuel rows nt size t = Ok (nt', with_nodes ns' t) /\
    Forall2 (chain ns') nt' ncs' /\ placed size ns' ncs' /\ length ncs' = length ncs /\
    concat ncs' ≡ₚ concat cs ++ concat ncs /\ same_bodies (nodes t) ns'.
Proof.
  induction cs as [|l cs IH]; intros rows nt ncs t Hpos Hsz Hrows Hnd HF Hpl Hfu.
  { apply Forall2_nil_inv_r in Hrows as ->. exists (nodes t), nt, ncs. split_and!; try done. by destruct t. }
  apply Forall2_cons_inv_r in Hrows as (h & rows' & Hch & Hrows & ->). cbn [concat] in Hnd. rewrite <- app_assoc in Hnd.
  assert (Hsub : NoDup (l ++ concat ncs)).
  { rewrite app_assoc, (Permutation_app_comm l), <- app_assoc in Hnd. by apply list.NoDup_app in Hnd as (_ & _ & ?). }
  destruct (move_chain_spec size l fuel h nt ncs t) as (ns1 & nt1 & ncs1 & E1 & HF1 & Hpl1 & Hlen1 & Hperm1 & Hsb1 & Hout1);
    [done.. | apply Hfu; left |].
  destruct (IH rows' nt1 ncs1 (with_nodes ns1 t)) as (ns' & nt' & ncs' & E & HF' & Hpl' & Hlen & Hperm & Hsb); cbn [nodes with_nodes]; try done.
  - by rewrite Hlen1.
  - eapply chains_agree, Hrows. intros q Hq. rewrite Hout1; [done|]. intros Hql.
    apply list.NoDup_app in Hnd as (_ & Hd & _). apply (Hd q Hql), elem_of_app. by left.
  - rewrite Hperm1, app_assoc, (Permutation_app_comm (concat cs)), <- app_assoc. done.
  - intros r Hr. apply Hfu. by right.
  - exists ns', nt', ncs'. split_and!; try done.
    + cbn [move_chains]. rewrite (bind_step _ _ _ _ _ E1). by rewrite E.
    + by rewrite Hlen.
    + rewrite Hperm, Hperm1. cbn. by rewrite !app_assoc, (Permutation_app_comm (concat cs)).
    + by eapply same_bodies_trans.
Qed.

Lemma same_bodies_some ns ns' p : same_bodies ns ns' -> is_Some (ns' !! p) <-> is_Some (ns !! p).
Proof. intros Hs. rewrite <- (fmap_is_Some body (ns' !! p)), <- (fmap_is_Some body (ns !! p)). by rewrite Hs. Qed.

Lemma same_bodies_text ns ns' p nd s id :
  same_bodies ns ns' -> ns !! p = Some nd -> text_node nd s id -> exists nd', ns' !! p = Some nd' /\ text_node nd' s id.
Proof.
  intros Hs Hn Ht. destruct (proj2 (same_bodies_some ns ns' p Hs) ltac:(by eexists)) as [nd' Hn'].
  destruct (same_bodies_lookup _ _ _ _ Hs Hn') as (nd0 & Hn0 & Hb). rewrite Hn in Hn0. injection Hn0 as <-.
  exists nd'. split; [done|]. by eapply text_node_body.
Qed.

Lemma contents_bodies t t' G :
  same_bodies (nodes t) (nodes t') -> _current_string_id t' = _current_string_id t -> contents t G -> contents t' G.
Proof.
  intros Hs Hcur [H1 H2 H3 H4 H5 (H6 & nd & Hn & Ht)]. split; try done.
  - intros p Hp Hx. apply H1; [done|]. by apply (same_bodies_some _ _ p Hs).
  - intros p s id Hp. destruct (H2 p s id Hp) as (nd' & Hn' & Ht'). by eapply same_bodies_text.
  - rewrite Hcur. done.
  - split; [done|]. by eapply same_bodies_text.
Qed.

Lemma chain_empty_rows n ns : Forall2 (chain ns) (replicate n None) (replicate n []).
Proof. induction n; cbn; by constructor. Qed.

Lemma concat_empty_rows n : concat (replicate n ([] : list loc)) = [].
Proof. by induction n. Qed.

Lemma grow_spec t cs G :
  linked t cs -> contents t G -> _table_size t < 4294967291 ->
  exists t' cs', grow t = Ok (tt, t') /\ linked t' cs' /\ contents t' G /\ same_bodies (nodes t) (nodes t') /\
    _entry_count t' = _entry_count t /\ _current_string_id t' = _current_string_id t /\
    _resize_threshold t' = Z.shiftr (_table_size t') 1.
Proof.
  intros Hk Hc Hmax. pose proof (lk_positive _ _ Hk) as Hpos.
  destruct (next_larger_hash_prime_spec (_table_size t)) as (size & Es & Hsz & _); [lia|].
  destruct (move_chains_spec size (base.size (nodes t)) cs (_hash_table t) (replicate (Z.to_nat size) None) (replicate (Z.to_nat size) []) t)
    as (ns' & nt' & ncs' & E & HF & Hpl & Hlen & Hperm & Hsb).
  - lia.
  - rewrite length_replicate. lia.
  - apply Hk.
  - rewrite concat_empty_rows, app_nil_r. apply Hk.
  - apply chain_empty_rows.
  - intros i l p nd Hi Hp. apply lookup_replicate in Hi as [-> _]. by apply elem_of_nil in Hp.
  - intros l [i Hi]%list_elem_of_lookup_1. destruct (Forall2_lookup_r _ _ _ _ _ (lk_chains _ _ Hk) Hi) as (h & _ & Hch).
    apply chain_fuel; [by eapply row_nodup, Hi; apply Hk|]. intros p Hp. by eapply chain_lives.
  - rewrite concat_empty_rows, app_nil_r in Hperm. rewrite length_replicate in Hlen.
    eexists _, ncs'. split; [|split; [|split; [|split]]].
    + unfold grow. unfold gets, mbind at 1, M_bind at 1. rewrite (lift_step _ size) by done.
      unfold mbind at 1, M_bind at 1. unfold mbind at 1, M_bind at 1. rewrite (bind_step _ _ _ _ _ E). reflexivity.
    + split; cbn; try done; try lia.
      * rewrite Hperm. apply Hk.
      * intros p. rewrite (same_bodies_some _ _ _ Hsb), Hperm. apply Hk.
      * rewrite Hperm. apply Hk.
      * intros p. rewrite (same_bodies_some _ _ _ Hsb). apply Hk.
    + by eapply contents_bodies, Hc.
    + done.
    + done.
Qed.

(** ** A new node *)
Lemma contents_insert t t' G p nd text id :
  contents t G -> nodes t' = <[p := nd]> (nodes t) -> _current_string_id t' = _current_string_id t -> text_node nd text id ->
  p <> null_node -> G !! p = None -> text <> [] -> text_ok text -> 0 < id < _current_string_id t ->
  (forall p s j, G !! p = Some (s, j) -> s <> text /\ (id = j <-> lower text = lower s)) ->
  contents t' (<[p := (text, id)]> G).
Proof.
  intros [H1 H2 H3 H4 H5 (H6 & nd0 & Hn0 & Ht0)] En Ecur Htn Hp0 HpG Hne Hok Hid Hnew. split; rewrite ?En, ?Ecur.
  - intros q Hq. destruct (decide (q = p)) as [->|]; [rewrite !lookup_insert_eq; by eexists|].
    rewrite !lookup_insert_ne by done. by apply H1.
  - intros q s j. destruct (decide (q = p)) as [->|].
    + rewrite !lookup_insert_eq. intros [= <- <-]. by exists nd.
    + rewrite !lookup_insert_ne by done. apply H2.
  - intros q s j. destruct (decide (q = p)) as [->|]; [rewrite lookup_insert_eq; by intros [= <- <-]|].
    rewrite lookup_insert_ne by done. apply H3.
  - intros q r s j k. destruct (decide (q = p)) as [->|], (decide (r = p)) as [->|]; rewrite ?lookup_insert_eq, ?lookup_insert_ne by done.
    + done.
    + intros [= <- <-] Hr. by destruct (Hnew _ _ _ Hr).
    + intros Hq [= <- <-]. by destruct (Hnew _ _ _ Hq).
    + apply H4.
  - intros q r s s' j k. destruct (decide (q = p)) as [->|], (decide (r = p)) as [->|]; rewrite ?lookup_insert_eq, ?lookup_insert_ne by done.
    + by intros [= <- <-] [= <- <-].
    + intros [= <- <-] Hr. by apply (Hnew _ _ _ Hr).
    + intros Hq [= <- <-]. destruct (Hnew _ _ _ Hq) as [_ Hi]. split; intros ?; symmetry; apply Hi; done.
    + apply H5.
  - rewrite !lookup_insert_ne by done. split; [done|]. by exists nd0.
Qed.

Lemma add_node_spec t cs G text id :
  linked t cs -> contents t G -> text <> [] -> text_ok text -> 0 < id < _current_string_id t ->
  (forall p s j, G !! p = Some (s, j) -> s <> text /\ (id = j <-> lower text = lower s)) ->
  exists p t' cs', add_node text (hash_string_no_case text) id t = Ok (p, t') /\
    linked t' cs' /\ contents t' (<[p := (text, id)]> G) /\ G !! p = None /\ p <> null_node /\
    (exists nd, nodes t' = <[p := nd]> (nodes t) /\ ref_count nd = 0) /\
    _entry_count t' = _entry_count t /\ _current_string_id t' = _current_string_id t /\
    _resize_threshold t' = _resize_threshold t /\ _table_size t' = _table_size t.
Proof.
  intros Hk Hc Hne Hok Hid Hnew.
  destruct (bucket_chain t cs _ Hk (hash_bucket t cs (hash_string_no_case text) Hk)) as (h & l & Eb & Hl & Hh & Hch & _).
  set (i := Z.to_nat (hash_string_no_case text mod _table_size t)) in *. set (p := next_block t).
  assert (Hpn : nodes t !! p = None).
  { apply eq_None_not_Some. intros Hx. pose proof (lk_fresh _ _ Hk p Hx). subst p. lia. }
  assert (Hpc : p ∉ concat cs).
  { intros Hin. destruct (proj2 (lk_nodes _ _ Hk p) (or_intror Hin)) as [? ?]. congruence. }
  assert (Hp0 : p <> null_node).
  { intros ->. destruct (ct_null _ _ Hc) as (_ & ? & ? & _). congruence. }
  assert (HpG : G !! p = None).
  { destruct (G !! p) as [[s j]|] eqn:E; [|done]. destruct (ct_text _ _ Hc _ _ _ E) as (? & ? & _). congruence. }
  set (nd := mk_node 0 id h (hash_string_no_case text) (blen text) (text ++ [0])).
  eexists p, _, (<[i := p :: l]> cs). split; [|split; [|split]].
  - unfold add_node. unfold gets, mbind at 1, M_bind at 1. rewrite (bind_step _ _ _ _ _ Eb). reflexivity.
  - pose proof (concat_insert_cons _ _ _ p Hl) as Hperm. split; cbn [nodes _hash_table _table_size next_block].
    + apply Hk.
    + rewrite length_insert. apply Hk.
    + fold i. apply Forall2_insert.
      * eapply chains_agree, Hk. intros q Hq. rewrite lookup_insert_ne by (by intros <-). done.
      * split; [done|]. exists nd. rewrite lookup_insert_eq. split; [done|]. apply chain_insert; [|done].
        intros Hin. by apply Hpc; eapply elem_of_row.
    + intros j r q ndq Hj Hq Hnq. destruct (decide (q = p)) as [->|Hqp].
      * fold p nd in Hnq. rewrite lookup_insert_eq in Hnq. injection Hnq as <-. cbn [node_hash nd].
        destruct (decide (i = j)) as [<-|]; [subst i; pose proof (hash_bucket t cs (hash_string_no_case text) Hk); lia|].
        rewrite list_lookup_insert_ne in Hj by done. exfalso. by apply Hpc; eapply elem_of_row.
      * fold p in Hnq. rewrite lookup_insert_ne in Hnq by done. destruct (decide (i = j)) as [<-|].
        -- rewrite list_lookup_insert_eq in Hj by (by apply lookup_lt_Some in Hl). injection Hj as <-.
           apply elem_of_cons in Hq as [->|Hq]; [done|]. by eapply (lk_bucket _ _ Hk).
        -- rewrite list_lookup_insert_ne in Hj by done. by eapply (lk_bucket _ _ Hk).
    + rewrite Hperm. apply list.NoDup_cons. split; [done | apply Hk].
    + intros q. rewrite Hperm, elem_of_cons. fold p. destruct (decide (q = p)) as [->|].
      * rewrite lookup_insert_eq. split; [by right; left | by eexists].
      * rewrite lookup_insert_ne by done. rewrite (lk_nodes _ _ Hk). naive_solver.
    + rewrite Hperm, elem_of_cons. intros [?|?]; [congruence | by apply (lk_null _ _ Hk)].
    + fold p. intros q [x Hx]. destruct (decide (q = p)) as [->|Hqp]; [lia|]. rewrite lookup_insert_ne in Hx by done.
      pose proof (lk_fresh _ _ Hk q ltac:(by eexists)). subst p. lia.
  - by apply (contents_insert t _ G p nd).
  - split; [done|]. split; [done|]. split; [|done]. by exists nd.
Qed.

(** ** Removing a node *)
Lemma node_at_step {A} t p nd (k : node -> M table A) : nodes t !! p = Some nd -> (nd ← node_at p; k nd) t = k nd t.
Proof. intros Hn. unfold node_at, mbind, M_bind. by rewrite Hn. Qed.

Lemma unlink_node t p : forall l1 l2 q nd fuel,
  nodes t !! q = Some nd -> chain (nodes t) (next_hash nd) (l1 ++ p :: l2) -> NoDup (q :: l1 ++ p :: l2) -> (length l1 < fuel)%nat ->
  exists ns', unlink_walk fuel (in_node q) p t = Ok (tt, with_nodes ns' t) /\
    (exists nd', ns' !! q = Some nd' /\ chain ns' (next_hash nd') (l1 ++ l2)) /\
    same_bodies (nodes t) ns' /\ (forall r, r ∉ q :: l1 -> ns' !! r = nodes t !! r).
Proof.
  induction l1 as [|r l1 IH]; intros l2 q nd fuel Hq Hch Hnd Hf; (destruct fuel as [|fuel]; [cbn in Hf; lia|]);
    destruct Hch as (Hnext & ndp & Hp & Hch); cbn [unlink_walk read_slot].
  all: unfold mbind at 1, M_bind at 1; rewrite (node_at_step _ _ _ _ Hq); cbn [mret M_ret]; rewrite Hnext.
  - rewrite decide_True by done. rewrite (node_at_step _ _ _ _ Hp). cbn [write_slot]. unfold change_node. rewrite Hq.
    cbn [of_option mbind result_bind]. eexists. split; [done|]. cbn [app] in *.
    apply list.NoDup_cons in Hnd as [Hqn _]. split_and!.
    + eexists. rewrite lookup_insert_eq. split; [done|]. apply chain_insert; [|done]. intros Hin. apply Hqn. by right.
    + by apply same_bodies_link.
    + intros r Hr. rewrite lookup_insert_ne; [done|]. intros <-. apply Hr. left.
  - cbn [app] in Hnd. apply list.NoDup_cons in Hnd as [Hqn Hnd].
    assert (Hrp : r <> p).
    { intros ->. apply list.NoDup_cons in Hnd as [Hr _]. apply Hr, elem_of_app. right. left. }
    rewrite decide_False by done. destruct (IH l2 r ndp fuel Hp Hch Hnd) as (ns' & E & (nd' & Hr' & Hch') & Hsb & Hout); [cbn in Hf; lia|].
    exists ns'. split; [done|]. split_and!.
    + exists nd. assert (ns' !! q = nodes t !! q) as ->.
      { apply Hout. intros Hin. apply Hqn. cbn [app]. apply elem_of_cons in Hin as [->|Hin]; [left | right; apply elem_of_app; by left]. }
      split; [done|]. rewrite Hnext. cbn [app]. split; [done|]. by exists nd'.
    + done.
    + intros z Hz. apply Hout. intros Hin. apply Hz. by right.
Qed.

Lemma unlink_bucket t i h p l1 l2 fuel :
  _hash_table t !! Z.to_nat i = Some h -> chain (nodes t) h (l1 ++ p :: l2) -> NoDup (l1 ++ p :: l2) -> (length l1 < fuel)%nat ->
  exists ns' h', unlink_walk fuel (in_bucket i) p t =
      Ok (tt, with_buckets (<[Z.to_nat i := h']> (_hash_table t)) (with_nodes ns' t)) /\
    chain ns' h' (l1 ++ l2) /\ same_bodies (nodes t) ns' /\ (forall r, r ∉ l1 -> ns' !! r = nodes t !! r).
Proof.
  intros Hh Hch Hnd Hf. destruct fuel as [|fuel]; [lia|]. cbn [unlink_walk read_slot].
  rewrite (bind_step _ h t) by (unfold bucket_at; by rewrite Hh).
  destruct l1 as [|q l1]; destruct Hch as (-> & nd & Hn & Hch).
  - rewrite decide_True by done. rewrite (node_at_step _ _ _ _ Hn). cbn [write_slot]. rewrite Hh. cbn [of_option mbind result_bind].
    exists (nodes t), (next_hash nd). split; [by destruct t|]. done.
  - rewrite decide_False.
    2: { intros ->. cbn in Hnd. apply list.NoDup_cons in Hnd as [Hq _]. apply Hq, elem_of_app. right. left. }
    destruct (unlink_node t p l1 l2 q nd fuel Hn Hch Hnd) as (ns' & E & (nd' & Hq' & Hch') & Hsb & Hout); [cbn in Hf; lia|].
    exists ns', (Some q). rewrite list_insert_id by done. split; [rewrite E; by destruct t|]. split; [|done].
    cbn [app]. split; [done|]. by exists nd'.
Qed.

Lemma contents_delete t t' ns' G p :
  contents t G -> same_bodies (nodes t) ns' -> nodes t' = delete p ns' -> _current_string_id t' = _current_string_id t ->
  p <> null_node -> contents t' (delete p G).
Proof.
  intros [H1 H2 H3 H4 H5 (H6 & nd0 & Hn0 & Ht0)] Hsb En Ecur Hp0. split; rewrite ?En, ?Ecur.
  - intros q Hq. destruct (decide (q = p)) as [->|Hqp]; [rewrite lookup_delete_eq; by intros [? ?]|].
    rewrite !lookup_delete_ne, (same_bodies_some _ _ _ Hsb) by done. by apply H1.
  - intros q s' j [Hqp Hq]%lookup_delete_Some. destruct (H2 _ _ _ Hq) as (ndq & Hnq & Htq).
    rewrite lookup_delete_ne by done. by eapply same_bodies_text.
  - intros q s' j [_ Hq]%lookup_delete_Some. by eapply H3.
  - intros q r s' j k [_ Hq]%lookup_delete_Some [_ Hr]%lookup_delete_Some. by eapply H4.
  - intros q r s' s'' j k [_ Hq]%lookup_delete_Some [_ Hr]%lookup_delete_Some. by eapply H5.
  - rewrite !lookup_delete_ne by done. split; [done|]. by eapply same_bodies_text.
Qed.

(** The other chains are left alone by what is done to the first nodes of one. *)
Lemma unlinked_chains t cs (l l1 : list loc) ns' i h h' l' :
  linked t cs -> cs !! i = Some l -> _hash_table t !! i = Some h -> (forall q, q ∈ l1 -> q ∈ l) ->
  chain ns' h' l' -> (forall r, r ∉ l1 -> ns' !! r = nodes t !! r) ->
  Forall2 (chain ns') (<[i := h']> (_hash_table t)) (<[i := l']> cs).
Proof.
  intros Hk Hl Hh Hl1 Hch' Hout.
  apply Forall2_same_length_lookup. pose proof (lk_chains _ _ Hk) as HF. apply Forall2_same_length_lookup in HF as [Hlen2 HF].
  rewrite !length_insert. split; [done|]. intros j h1 r Hj Hr.
  destruct (decide (i = j)) as [<-|Hij].
  - rewrite list_lookup_insert_eq in Hj by (by apply lookup_lt_Some in Hh). injection Hj as <-.
    rewrite list_lookup_insert_eq in Hr by (by apply lookup_lt_Some in Hl). by injection Hr as <-.
  - rewrite list_lookup_insert_ne in Hj by done. rewrite list_lookup_insert_ne in Hr by done. eapply chain_agree; [|by eapply HF]. intros q Hq.
    rewrite Hout; [done|]. intros Hin. apply Hij. eapply (rows_apart cs i j _ _ q); [apply Hk | done | done | | done].
    by apply Hl1.
Qed.

Lemma remove_node_spec t cs G p s id :
  linked t cs -> contents t G -> G !! p = Some (s, id) ->
  exists t' cs', IndexedString.remove p t = Ok (tt, t') /\ linked t' cs' /\ contents t' (delete p G) /\
    nodes t' !! p = None /\ (forall q, q <> p -> body <$> nodes t' !! q = body <$> nodes t !! q) /\
    _entry_count t' = u32 (_entry_count t - 1) /\ _current_string_id t' = _current_string_id t /\
    _resize_threshold t' = _resize_threshold t /\ _table_size t' = _table_size t.
Proof.
  intros Hk Hc Hp. destruct (ct_text _ _ Hc _ _ _ Hp) as (nd & Hn & Ht).
  assert (Hp0 : p <> null_node) by (intros ->; pose proof (proj1 (ct_null _ _ Hc)); congruence).
  destruct (bucket_chain t cs _ Hk (hash_bucket t cs (node_hash nd) Hk)) as (h & l & Eb & Hl & Hh & Hch & Hlen).
  set (i := Z.to_nat (node_hash nd mod _table_size t)) in *.
  assert (Hpl : p ∈ l) by (eapply text_in_row; [done.. | by rewrite <- (tn_hash _ _ _ Ht)]).
  apply list_elem_of_split in Hpl as (l1 & l2 & ->).
  pose proof (row_nodup _ _ _ (lk_nodup _ _ Hk) Hl) as Hnd.
  destruct (unlink_bucket t (node_hash nd mod _table_size t) h p l1 l2 (base.size (nodes t)) Hh Hch Hnd) as (ns' & h' & E & Hch' & Hsb & Hout).
  { rewrite length_app in Hlen. cbn in Hlen. lia. }
  fold i in E. pose proof (concat_insert_middle _ _ _ _ _ Hl) as Hperm.
  assert (Hpc : p ∉ concat (<[i := l1 ++ l2]> cs)).
  { pose proof (lk_nodup _ _ Hk) as H. rewrite Hperm in H. by apply list.NoDup_cons in H as [? _]. }
  assert (Hp12 : p ∉ l1 ++ l2).
  { intros Hin. apply Hpc. eapply (elem_of_row _ i); [|done]. apply list_lookup_insert_eq. by apply lookup_lt_Some in Hl. }
  eexists _, (<[i := l1 ++ l2]> cs). split; [|split; [|split; [|split; [|split]]]].
  - unfold IndexedString.remove. rewrite (node_at_step _ _ _ _ Hn). unfold gets. rewrite (bind_step _ _ _ _ t eq_refl), (bind_step _ _ _ _ t eq_refl).
    rewrite (bind_step _ _ _ _ _ E). unfold modify. reflexivity.
  - split; cbn.
    + apply Hk.
    + rewrite length_insert. apply Hk.
    + apply (chains_agree ns').
      { intros q Hq. rewrite lookup_delete_ne; [done|]. by intros ->. }
      eapply (unlinked_chains t cs (l1 ++ p :: l2) l1); try done. intros q Hq. apply elem_of_app. by left.
    + intros j r q ndq Hj Hq Hnq.
      assert (Hqc : q ∈ concat (<[i := l1 ++ l2]> cs)) by (by eapply elem_of_row).
      rewrite lookup_delete_ne in Hnq by (by intros ->). destruct (same_bodies_lookup _ _ _ _ Hsb Hnq) as (nd0 & Hn0 & Hb).
      rewrite (f_equal node_hash Hb : node_hash ndq = node_hash nd0).
      destruct (decide (i = j)) as [<-|Hij].
      * rewrite list_lookup_insert_eq in Hj by (by apply lookup_lt_Some in Hl). injection Hj as <-.
        eapply (lk_bucket _ _ Hk); [done | | done]. set_solver.
      * rewrite list_lookup_insert_ne in Hj by done. by eapply (lk_bucket _ _ Hk).
    + pose proof (lk_nodup _ _ Hk) as H. rewrite Hperm in H. by apply list.NoDup_cons in H as [_ ?].
    + intros q. destruct (decide (q = p)) as [->|Hqp].
      * rewrite lookup_delete_eq. split; [by intros [? ?] | by intros [->|?]].
      * rewrite lookup_delete_ne, (same_bodies_some _ _ _ Hsb), (lk_nodes _ _ Hk), Hperm, elem_of_cons by done. naive_solver.
    + intros Hin. apply (lk_null _ _ Hk). rewrite Hperm. by right.
    + intros q Hq. destruct (decide (q = p)) as [->|Hqp]; [rewrite lookup_delete_eq in Hq; by destruct Hq|].
      rewrite lookup_delete_ne, (same_bodies_some _ _ _ Hsb) in Hq by done. by apply Hk.
  - by apply (contents_delete t _ ns').
  - cbn. by rewrite lookup_delete_eq.
  - intros q Hq. cbn. rewrite lookup_delete_ne by done. apply Hsb.
  - done.
Qed.

(** ** Inserting a text *)
Definition kept (buffer : bytes) (buffer_len : Z) : bytes := take (Z.to_nat (Z.min buffer_len max_string_length)) buffer.

Lemma cut_kept buffer buffer_len : 0 <= buffer_len <= blen buffer -> cut buffer buffer_len = Ok (kept buffer buffer_len).
Proof.
  intros Hl. unfold cut, kept. destruct (Z.ltb_spec max_string_length buffer_len).
  - destruct (Z.leb_spec max_string_length (blen buffer)); [|lia]. cbn [require mbind result_bind]. by rewrite Z.min_r by lia.
  - destruct (Z.leb_spec buffer_len (blen buffer)); [|lia]. cbn [require mbind result_bind]. by rewrite Z.min_l by lia.
Qed.

(** The table in good order, after at most [n] texts were put in. *)
Record table_ok (n : Z) (t : table) (G : gmap loc (bytes * Z)) : Prop := {
  tk_linked : exists cs, linked t cs;
  tk_contents : contents t G;
  tk_count : _entry_count t = Z.of_nat (base.size G);
  tk_room : _entry_count t <= n /\ 0 < _current_string_id t <= n + 1;
  tk_threshold : _resize_threshold t = Z.shiftr (_table_size t) 1
}.

(** [find] answers for the strings in the table. *)
Lemma find_spec n t G buffer len full :
  table_ok n t G -> 0 <= len <= blen buffer ->
  exists r, IndexedString.find buffer len full t = Ok (r, t) /\
  match r with
  | Some p => exists s id, G !! p = Some (s, id) /\ if full then s = kept buffer len else lower s = lower (kept buffer len)
  | None => forall p s id, G !! p = Some (s, id) -> if full then s <> kept buffer len else lower s <> lower (kept buffer len)
  end.
Proof.
  intros [[cs Hk] Hc _ _ _] Hl. unfold IndexedString.find. rewrite (lift_step _ _ _ _ (cut_kept _ _ Hl)).
  set (text := kept buffer len). unfold gets.
  destruct (bucket_chain t cs _ Hk (hash_bucket t cs (hash_string_no_case text) Hk)) as (h & l & Eb & Hrow & _ & Hch & Hlen).
  destruct (find_walk_spec t G text full Hc l _ h Hch (known_row _ _ _ _ _ Hk Hc Hrow) Hlen) as (r & Er & Hr).
  rewrite (bind_step _ _ _ _ t eq_refl), (bind_step _ _ _ _ _ Eb), (bind_step _ _ _ _ t eq_refl), Er.
  exists r. split; [done|]. destruct r as [p|]; [naive_solver|].
  assert (Hin : forall p s id, G !! p = Some (s, id) -> lower s = lower text -> p ∈ l).
  { intros p s id Hp Hls. eapply (text_in_row t cs G p s id); [done..|]. by rewrite (hash_lower _ _ Hls). }
  intros p s id Hp. pose proof (Hr p s id) as Hno. destruct full; intros E; apply Hno; try done; eapply Hin; try done. by rewrite E.
Qed.

Definition text_of (G : gmap loc (bytes * Z)) (p : loc) : bytes := match G !! p with Some (s, _) => s | None => [] end.

(** What an operation leaves of the counts of the nodes. *)
Definition counts_kept (t t' : table) : Prop :=
  forall q, is_Some (nodes t !! q) -> ref_count <$> nodes t' !! q = ref_count <$> nodes t !! q.

Lemma same_bodies_counts ns ns' q : same_bodies ns ns' -> ref_count <$> ns' !! q = ref_count <$> ns !! q.
Proof.
  intros Hs. specialize (Hs q). destruct (ns !! q) as [nd|], (ns' !! q) as [nd'|]; try done. cbn in *.
  apply (inj Some) in Hs. f_equal. exact (f_equal ref_count Hs).
Qed.

Lemma kept_ok buffer len : 0 <= len <= blen buffer -> blen (kept buffer len) = Z.min len max_string_length.
Proof. intros Hl. unfold kept, blen, max_string_length in *. rewrite length_take. lia. Qed.

Lemma contents_more t G id : contents t G -> _current_string_id t <= id ->
  contents (mk_table (nodes t) (next_block t) (_hash_table t) (_table_size t) (_entry_count t) (_resize_threshold t) id) G.
Proof. intros [H1 H2 H3 H4 H5 H6] Hle. split; try done. intros p s j Hp. cbn. destruct (H3 _ _ _ Hp) as (? & ? & ?). split_and!; try done; lia. Qed.

(** The table may have to grow. *)
Lemma grow_if_needed n t G :
  table_ok n t G -> n < 2 ^ 30 ->
  let t1 := with_entry_count (u32 (_entry_count t + 1)) t in
  exists t2 cs, when (_resize_threshold t1 <? _entry_count t1) grow t1 = Ok (tt, t2) /\ linked t2 cs /\ contents t2 G /\
    same_bodies (nodes t) (nodes t2) /\ _entry_count t2 = _entry_count t + 1 /\ _current_string_id t2 = _current_string_id t /\
    _resize_threshold t2 = Z.shiftr (_table_size t2) 1.
Proof.
  intros [[cs Hk] Hc Hn Hr Ht] Hlt t1. assert (u32 (_entry_count t + 1) = _entry_count t + 1) as Eu.
  { apply u32_small. split; lia. }
  assert (Hk1 : linked t1 cs) by (destruct Hk; by split). assert (Hc1 : contents t1 G) by (destruct Hc; by split).
  destruct (Z.ltb_spec (_resize_threshold t1) (_entry_count t1)) as [Hgrow|Hno]; cbn [when].
  - destruct (grow_spec t1 cs G Hk1 Hc1) as (t2 & cs2 & E & Hk2 & Hc2 & Hsb & He & Hcur & Hth).
    { cbn in *. rewrite Ht, Z.shiftr_div_pow2, Eu in Hgrow by lia. pose proof (Z.mul_div_le (_table_size t) 2). zlia. }
    exists t2, cs2. by split_and!; try done; rewrite He.
  - exists t1, cs. by split_and!.
Qed.

(** The number of a new text: a fresh one, or that of the texts that differ in case only. *)
Lemma new_id_spec t cs G text id0 n :
  linked t cs -> contents t G -> 0 < _current_string_id t <= n + 1 -> n < 2 ^ 30 ->
  _resize_threshold t = Z.shiftr (_table_size t) 1 -> (forall p s j, G !! p = Some (s, j) -> s <> text) ->
  (id0 = 0 /\ (forall p s j, G !! p = Some (s, j) -> lower text <> lower s)) \/
    (exists p s, G !! p = Some (s, id0) /\ lower text = lower s) ->
  exists id t', new_id id0 t = Ok (id, t') /\ linked t' cs /\ contents t' G /\ nodes t' = nodes t /\
    0 < id < _current_string_id t' /\ _current_string_id t' <= n + 2 /\ _entry_count t' = _entry_count t /\
    _resize_threshold t' = Z.shiftr (_table_size t') 1 /\
    forall p s j, G !! p = Some (s, j) -> s <> text /\ (id = j <-> lower text = lower s).
Proof.
  intros Hk Hc Hcur Hn Hth Hnew [[-> Hnl]|(p0 & s0 & Hg0 & Hl0)]; unfold new_id.
  - eexists (_current_string_id t), _. split; [unfold gets; cbn [Z.eqb]; reflexivity|].
    rewrite u32_small by (split; lia). split_and!; try done; cbn; try lia.
    + destruct Hk. by split.
    + apply contents_more; [done | lia].
    + intros p s j Hp. split; [by eapply Hnew|]. destruct (ct_ok _ _ Hc _ _ _ Hp) as (_ & _ & Hj). split; [lia|].
      intros Hls. by destruct (Hnl p s j Hp).
  - destruct (ct_ok _ _ Hc _ _ _ Hg0) as (_ & _ & Hj). destruct (Z.eqb_spec id0 0); [lia|]. exists id0, t.
    split_and!; try done; try lia. intros p s j Hp. split; [by eapply Hnew|]. rewrite Hl0. by apply (ct_case _ _ Hc p0 p).
Qed.

Lemma insert_spec n t G buffer len :
  table_ok n t G -> n < 2 ^ 30 -> 0 <= len <= blen buffer -> 0 ∉ kept buffer len ->
  exists p t' G', IndexedString.insert buffer len t = Ok (p, t') /\ table_ok (n + 1) t' G' /\
    text_of G' p = kept buffer len /\ (p = null_node \/ is_Some (G' !! p)) /\
    (forall q e, G !! q = Some e -> G' !! q = Some e) /\ (forall q, q <> p -> G' !! q = G !! q) /\
    counts_kept t t' /\ (forall q nd, nodes t !! q = None -> nodes t' !! q = Some nd -> q = p /\ ref_count nd = 0).
Proof.
  intros Hok Hn Hl Hz. unfold IndexedString.insert. destruct (Z.eqb_spec len 0) as [->|Hl0].
  { exists null_node, t, G. split; [done|]. destruct Hok as [H1 H2 H3 H4 H5]. split_and!; try done; try by left.
    - split; try done. split; lia.
    - unfold text_of. rewrite (proj1 (ct_null _ _ H2)). unfold kept. by rewrite Z.min_l by done.
    - intros q nd Hq Hq'. congruence. }
  rewrite (lift_step _ _ _ _ (cut_kept _ _ Hl)). set (text := kept buffer len) in *.
  assert (Htext : text <> [] /\ text_ok text).
  { pose proof (kept_ok _ _ Hl) as Hb. fold text in Hb. unfold max_string_length in Hb. split.
    - intros E. rewrite E in Hb. change (blen []) with 0 in Hb. lia.
    - split; [done|]. unfold max_string_length. lia. }
  pose proof Hok as [[cs Hk] Hc Hcount Hroom Hth].
  destruct (bucket_chain t cs _ Hk (hash_bucket t cs (hash_string_no_case text) Hk)) as (h & l & Eb & Hrow & Hh & Hch & Hlen).
  pose proof (known_row _ _ _ _ _ Hk Hc Hrow) as Hkn.
  destruct (insert_walk_spec t G text Hc l _ h 0 Hch Hkn Hlen) as (r & Er & Hr).
  unfold gets. rewrite (bind_step _ _ _ _ t eq_refl), (bind_step _ _ _ _ _ Eb), (bind_step _ _ _ _ t eq_refl), (bind_step _ _ _ _ _ Er).
  destruct Hr as [(p & id & Hp & Hg & ->)|(Hno & Hr)].
  { exists p, t, G. split; [done|]. split_and!; try done.
    - split; try done; [by exists cs | lia].
    - unfold text_of. by rewrite Hg.
    - right. by eexists.
    - intros q nd Hq Hq'. congruence. }
  assert (Hin : forall p s id, G !! p = Some (s, id) -> lower text = lower s -> p ∈ l).
  { intros p s id Hp Hls. eapply (text_in_row t cs G p s id); [done..|]. by rewrite <- (hash_lower _ _ Hls). }
  assert (Hnew : forall p s j, G !! p = Some (s, j) -> s <> text).
  { intros p s j Hp ->. apply (Hno p j); [by eapply Hin | done]. }
  destruct (grow_if_needed n t G Hok Hn) as (t2 & cs2 & Eg & Hk2 & Hc2 & Hsb & He2 & Hcur2 & Hth2).
  destruct Htext as [Htne Htok].
  destruct (new_id_spec t2 cs2 G text (match r with inl _ => 0 | inr id => id end) n Hk2 Hc2) as (id & t3 & Ei & Hk3 & Hc3 & Hn3 & Hid & Hcur3 & He3 & Hth3 & Hnew3); try done; try lia.
  { destruct Hr as [[-> Hnl]|(p0 & s0 & id & Hp0 & Hg0 & Hl0' & ->)]; [left | right; by exists p0, s0].
    split; [done|]. intros p s j Hp Hls. by destruct (Hnl p s j (Hin _ _ _ Hp Hls) Hp). }
  destruct (add_node_spec t3 cs2 G text id Hk3 Hc3 Htne Htok Hid Hnew3) as (p & t4 & cs4 & Ea & Hk4 & Hc4 & HpG & Hp0 & (nd & Hn4 & Hz4) & He4 & Hcur4 & Hth4 & Hts4).
  assert (Hpn : nodes t3 !! p = None).
  { apply eq_None_not_Some. intros Hx. destruct (ct_nodes _ _ Hc3 p Hp0 Hx). congruence. }
  exists p, t4, (<[p := (text, id)]> G). split; [|split; [|split_and!]].
  - destruct Hr as [[-> _]|(? & ? & ? & _ & _ & _ & ->)]; unfold modify, get;
      (rewrite (bind_step _ tt (with_entry_count (u32 (_entry_count t + 1)) t)) by done); cbn beta zeta;
      rewrite (bind_step _ _ _ _ (with_entry_count (u32 (_entry_count t + 1)) t) eq_refl), (bind_step _ _ _ _ _ Eg), (bind_step _ _ _ _ _ Ei), Ea; done.
  - split; [by exists cs4 | done | | | ].
    + rewrite map_size_insert_None by done. lia.
    + rewrite He4, Hcur4. lia.
    + by rewrite Hth4, Hts4.
  - unfold text_of. by rewrite lookup_insert_eq.
  - right. rewrite lookup_insert_eq. by eexists.
  - intros q e Hq. rewrite lookup_insert_ne; [done|]. intros ->. congruence.
  - intros q Hq. by rewrite lookup_insert_ne.
  - intros q Hq. rewrite Hn4, lookup_insert_ne, Hn3; [by apply same_bodies_counts|].
    intros ->. rewrite Hn3 in Hpn. apply (same_bodies_some _ _ _ Hsb) in Hq. destruct Hq. congruence.
  - intros q ndq Hq Hq'. rewrite Hn4 in Hq'. destruct (decide (q = p)) as [->|]; [rewrite lookup_insert_eq in Hq'; by injection Hq' as <-|].
    rewrite lookup_insert_ne, Hn3 in Hq' by done. apply mk_is_Some, (same_bodies_some _ _ _ Hsb) in Hq'. destruct Hq'. congruence.
Qed.

(** ** Handles *)
(** Changing a count leaves the table in order. *)
Lemma recount n t G p nd c :
  table_ok n t G -> nodes t !! p = Some nd -> table_ok n (with_nodes (<[p := with_count c nd]> (nodes t)) t) G.
Proof.
  intros [[cs Hk] [H1 H2 H3 H4 H5 (H6 & nd0 & Hn0 & Ht0)] Hcount Hroom Hth] Hn.
  assert (Hsome : forall q, is_Some (<[p := with_count c nd]> (nodes t) !! q) <-> is_Some (nodes t !! q)).
  { intros q. rewrite lookup_insert_is_Some. destruct (decide (p = q)) as [<-|]; [|naive_solver]. split; [by eexists | by left]. }
  assert (Hnode : forall q x, <[p := with_count c nd]> (nodes t) !! q = Some x -> exists y, nodes t !! q = Some y /\
    node_hash x = node_hash y /\ next_hash x = next_hash y /\ (forall s id, text_node y s id -> text_node x s id)).
  { intros q x. destruct (decide (p = q)) as [<-|]; [rewrite lookup_insert_eq | rewrite lookup_insert_ne by done; eauto].
    intros [= <-]. exists nd. split_and!; try done. by intros s id []. }
  assert (Htext : forall q y s id, nodes t !! q = Some y -> text_node y s id ->
    exists x, <[p := with_count c nd]> (nodes t) !! q = Some x /\ text_node x s id).
  { intros q y s id Hq Hy. destruct (proj2 (Hsome q) ltac:(by eexists)) as [x Hx]. destruct (Hnode _ _ Hx) as (y' & Hy' & _ & _ & Hxt).
    exists x. split; [done|]. apply Hxt. congruence. }
  split; try done.
  - exists cs. destruct Hk as [K1 K2 K3 K4 K5 K6 K7 K8]. split; cbn; try done.
    + eapply chains_agree, K3. intros q Hq. destruct (decide (p = q)) as [<-|]; [by rewrite lookup_insert_eq, Hn | by rewrite lookup_insert_ne].
    + intros i l q x Hi Hq Hx. destruct (Hnode _ _ Hx) as (y & Hy & -> & _). by eapply K4.
    + intros q. by rewrite Hsome.
    + intros q. rewrite Hsome. apply K8.
  - split; cbn; try done.
    + intros q Hq. rewrite Hsome. by apply H1.
    + intros q s id Hq. destruct (H2 _ _ _ Hq) as (y & Hy & Hty). by eapply Htext.
    + split; [done|]. by eapply Htext.
Qed.

(** The number of references to each node, apart from those the empty string starts with. *)
Definition counted (t : table) (count : loc -> Z) : Prop :=
  forall p nd, nodes t !! p = Some nd -> ref_count nd = count p + (if decide (p = null_node) then null_count else 0).
Definition plus (count : loc -> Z) (p : loc) (d : Z) (q : loc) : Z := count q + (if decide (q = p) then d else 0).

Definition present (G : gmap loc (bytes * Z)) (p : loc) : Prop := p = null_node \/ is_Some (G !! p).

Lemma present_node n t G p : table_ok n t G -> present G p -> exists nd, nodes t !! p = Some nd /\
  text_node nd (text_of G p) (match G !! p with Some (_, id) => id | None => 0 end).
Proof.
  intros Hok Hp. pose proof (tk_contents _ _ _ Hok) as Hc. destruct (ct_null _ _ Hc) as (Hg & nd & Hn & Ht). unfold text_of.
  destruct Hp as [->|[[s id] Hs]].
  - rewrite Hg. by exists nd.
  - rewrite Hs. by apply (ct_text _ _ Hc).
Qed.

Lemma recounted t count p nd d :
  counted t count -> nodes t !! p = Some nd -> counted (with_nodes (<[p := with_count (ref_count nd + d) nd]> (nodes t)) t) (plus count p d).
Proof.
  intros Hc Hn q x. cbn. unfold plus. destruct (decide (q = p)) as [->|].
  - rewrite lookup_insert_eq. intros [= <-]. cbn. rewrite (Hc p nd Hn). lia.
  - rewrite lookup_insert_ne by done. intros Hx. rewrite (Hc q x Hx). lia.
Qed.

Lemma add_reference_spec n t G p count :
  table_ok n t G -> present G p -> counted t count -> 0 <= count p <= 2 ^ 30 ->
  exists t', add_reference p t = Ok (p, t') /\ table_ok n t' G /\ counted t' (plus count p 1).
Proof.
  intros Hok Hp Hc Hlt. destruct (present_node _ _ _ _ Hok Hp) as (nd & Hn & _).
  exists (with_nodes (<[p := with_count (ref_count nd + 1) nd]> (nodes t)) t). split; [|split; [by apply recount | by apply recounted]].
  unfold add_reference, change_node, mbind, M_bind. rewrite Hn. cbn [of_option mbind result_bind].
  rewrite u32_small; [done|]. rewrite (Hc p nd Hn). unfold null_count. case_decide; split; lia.
Qed.

Lemma release_spec n t G p count :
  table_ok n t G -> present G p -> counted t count -> 1 <= count p <= 2 ^ 30 -> n <= 2 ^ 30 ->
  exists t', destroy_string p t = Ok (tt, t') /\ counted t' (plus count p (-1)) /\
    table_ok n t' (if decide (count p = 1 /\ p <> null_node) then delete p G else G).
Proof.
  intros Hok Hp Hc Hlt Hmax. destruct (present_node _ _ _ _ Hok Hp) as (nd & Hn & _). pose proof (Hc p nd Hn) as Hr.
  set (nd1 := with_count (ref_count nd + -1) nd). set (t1 := with_nodes (<[p := nd1]> (nodes t)) t).
  assert (Hn1 : nodes t1 !! p = Some nd1) by apply lookup_insert_eq.
  pose proof (recount n t G p nd (ref_count nd + -1) Hok Hn) as Hok1. pose proof (recounted t count p nd (-1) Hc Hn) as Hc1. fold nd1 t1 in Hok1, Hc1.
  assert (E : forall t', when (ref_count nd1 =? 0) (node_reference_to_zero p) t1 = Ok (tt, t') -> destroy_string p t = Ok (tt, t')).
  { intros t' E. unfold destroy_string. rewrite (bind_step _ tt t1).
    - by rewrite (node_at_step _ _ _ _ Hn1).
    - unfold change_node. rewrite Hn. cbn [of_option mbind result_bind]. rewrite u32_small; [done|].
      unfold null_count in Hr. split; case_decide; lia. }
  destruct (Z.eqb_spec (ref_count nd1) 0) as [Hz|Hz]; cbn [when] in E.
  - cbn in Hz. assert (Hp0 : p <> null_node) by (intros ->; rewrite decide_True in Hr by done; unfold null_count in Hr; lia).
    rewrite decide_False in Hr by done. rewrite decide_True by (split; [lia | done]).
    destruct Hp as [?|[[s id] Hs]]; [done|]. pose proof Hok1 as [[cs Hk] Hct Hcount Hroom Hth].
    destruct (remove_node_spec t1 cs G p s id Hk Hct Hs) as (t' & cs' & Er & Hk' & Hct' & Hnone & Hrest & He & Hcur & Hth' & Hsz).
    assert (Hsize : base.size G = S (base.size (delete p G))).
    { by rewrite <- (insert_delete_id G p (s, id) Hs) at 1; rewrite map_size_insert_None by apply lookup_delete_eq. }
    exists t'. split; [|split].
    + apply E. unfold node_reference_to_zero. rewrite (node_at_step _ _ _ _ Hn1). rewrite (lift_step _ tt); [done|].
      cbn. by rewrite Hz.
    + intros q x Hx. destruct (decide (q = p)) as [->|Hqp]; [congruence|]. specialize (Hrest q Hqp). rewrite Hx in Hrest.
      destruct (nodes t1 !! q) as [y|] eqn:Hy; [|done]. apply (inj Some) in Hrest.
      rewrite <- (Hc1 q y Hy). exact (f_equal ref_count Hrest).
    + split; try done.
      * by exists cs'.
      * rewrite He, u32_small; [lia|]. split; lia.
      * rewrite He, Hcur, u32_small; [lia|]. split; lia.
      * by rewrite Hth', Hsz.
  - exists t1. split; [by apply E|]. split; [done|]. rewrite decide_False; [done|]. intros [H1 H2].
    rewrite decide_False in Hr by done. cbn in Hz. lia.
Qed.

(** ** Programs *)
Notation handles := (gmap nat loc).
Definition refs (hs : handles) (p : loc) : Z := Z.of_nat (base.size (filter (fun kv => kv.2 = p) hs)).

Lemma refs_insert hs v p q : hs !! v = None -> refs (<[v := p]> hs) q = plus (refs hs) p 1 q.
Proof.
  intros Hv. unfold refs, plus. destruct (decide (q = p)) as [->|Hne].
  - rewrite map_filter_insert_True by done. rewrite map_size_insert_None; [lia|].
    apply map_lookup_filter_None. by left.
  - rewrite map_filter_insert_False by (cbn; congruence). rewrite delete_id by done. lia.
Qed.

Lemma refs_delete hs v p q : hs !! v = Some p -> refs (delete v hs) q = plus (refs hs) p (-1) q.
Proof.
  intros Hv. rewrite <- (insert_delete_id hs v p Hv) at 2. unfold plus.
  rewrite (refs_insert _ _ _ _ (lookup_delete_eq hs v)). unfold plus. case_decide; lia.
Qed.

Lemma refs_pos hs v p : hs !! v = Some p -> 1 <= refs hs p.
Proof.
  intros Hv. pose proof (refs_delete hs v p p Hv) as H. unfold plus in H. rewrite decide_True in H by done.
  unfold refs in *. lia.
Qed.

Lemma refs_some hs p : 0 < refs hs p -> exists v, hs !! v = Some p.
Proof.
  unfold refs. intros H. destruct (decide (filter (fun kv => kv.2 = p) hs = ∅)) as [E|E].
  - rewrite E, map_size_empty in H. lia.
  - apply map_choose in E as (v & x & Hx). apply map_lookup_filter_Some in Hx as [Hv Hx]. cbn in Hx. subst x. by exists v.
Qed.

Lemma refs_small hs p : refs hs p <= Z.of_nat (base.size hs).
Proof. unfold refs. apply inj_le. rewrite <- !size_dom. apply subseteq_size, dom_filter_subseteq. Qed.

(** The operations of the class, on named handles. *)
Inductive operation : Type :=
  | op_empty (v : nat)
  | op_make (v : nat) (buffer : bytes) (buffer_len : Z)
  | op_copy (v w : nat)
  | op_assign (v w : nat)
  | op_destroy (v : nat).

Definition handle (hs : handles) (v : nat) : result loc := of_option null_deref (hs !! v).
Definition run (op : operation) (s : table * handles) : result (table * handles) :=
  let '(t, hs) := s in
  match op with
  | op_empty v => '(p, t) ← empty_string t; Ok (t, <[v := p]> hs)
  | op_make v buffer len => '(p, t) ← new_string buffer len t; Ok (t, <[v := p]> hs)
  | op_copy v w => p ← handle hs w; '(p, t) ← copy_string p t; Ok (t, <[v := p]> hs)
  | op_assign v w => p ← handle hs v; q ← handle hs w; '(p, t) ← assign_string p q t; Ok (t, <[v := p]> hs)
  | op_destroy v => p ← handle hs v; '(_, t) ← destroy_string p t; Ok (t, delete v hs)
  end.

(** The same operations on strings, where they are allowed: handles are constructed before and
    destroyed after they are used, texts have no 0, and a handle that is the only one with its
    text is not assigned to itself. *)
Notation strings := (gmap nat bytes).
Inductive text_step (m : strings) : operation -> strings -> Prop :=
  | step_empty v : m !! v = None -> text_step m (op_empty v) (<[v := []]> m)
  | step_make v buffer len : m !! v = None -> 0 <= len <= blen buffer -> 0 ∉ kept buffer len ->
      text_step m (op_make v buffer len) (<[v := kept buffer len]> m)
  | step_copy v w s : m !! v = None -> m !! w = Some s -> text_step m (op_copy v w) (<[v := s]> m)
  | step_assign v w s : is_Some (m !! v) -> m !! w = Some s -> (v <> w \/ s = [] \/ exists u, u <> v /\ m !! u = Some s) ->
      text_step m (op_assign v w) (<[v := s]> m)
  | step_destroy v : is_Some (m !! v) -> text_step m (op_destroy v) (delete v m).

(** In good order, but for nodes in [new] which no handle points to yet. *)
Record program_but (new : loc -> Prop) (n : Z) (s : table * handles) (m : strings) (G : gmap loc (bytes * Z)) : Prop := {
  po_table : table_ok n s.1 G;
  po_handles : forall v p, s.2 !! v = Some p -> present G p;
  po_text : m = text_of G <$> s.2;
  po_counts : counted s.1 (refs s.2);
  po_used : forall p, is_Some (G !! p) -> new p \/ exists v, s.2 !! v = Some p;
  po_few : Z.of_nat (base.size s.2) <= n /\ 0 <= n <= 2 ^ 30
}.

Notation program_ok := (program_but (fun _ => False)).

Lemma counted_ext t c c' : (forall p, c p = c' p) -> counted t c -> counted t c'.
Proof. intros He Hc p nd Hn. by rewrite <- He, (Hc p nd Hn). Qed.

Lemma table_more n n' t G : n <= n' -> table_ok n t G -> table_ok n' t G.
Proof. intros Hle [? ? ? ? ?]. split; try done. lia. Qed.

(** Handles with the same text are the same pointer. *)
Lemma text_pointer n s m G v w p q a : program_ok n s m G -> s.2 !! v = Some p -> s.2 !! w = Some q ->
  m !! v = Some a -> m !! w = Some a -> p = q.
Proof.
  intros Hp Hv Hw. rewrite (po_text _ _ _ _ _ Hp), !lookup_fmap, Hv, Hw. cbn. intros [= E1] [= E2].
  pose proof (tk_contents _ _ _ (po_table _ _ _ _ _ Hp)) as Hc. unfold text_of in E1, E2.
  destruct (po_handles _ _ _ _ _ Hp _ _ Hv) as [->|[[s1 i1] H1]], (po_handles _ _ _ _ _ Hp _ _ Hw) as [->|[[s2 i2] H2]]; try done.
  - rewrite H2 in E2. rewrite (proj1 (ct_null _ _ Hc)) in E1. destruct (ct_ok _ _ Hc _ _ _ H2). congruence.
  - rewrite H1 in E1. rewrite (proj1 (ct_null _ _ Hc)) in E2. destruct (ct_ok _ _ Hc _ _ _ H1). congruence.
  - rewrite H1 in E1. rewrite H2 in E2. subst. assert (i1 = i2) as <-; [|by eapply (ct_one _ _ Hc)].
    apply (ct_case _ _ Hc p q a a); try done.
Qed.

Lemma attach_spec new n t hs m G v p :
  program_but new n (t, hs) m G -> (forall q, new q -> q = p) -> hs !! v = None -> Z.of_nat (base.size hs) < n -> present G p ->
  exists t', add_reference p t = Ok (p, t') /\ program_ok n (t', <[v := p]> hs) (<[v := text_of G p]> m) G.
Proof.
  intros [Ht Hh Hm Hc Hu Hf] Hnew Hv Hn Hp. cbn [fst snd] in *.
  destruct (add_reference_spec n t G p _ Ht Hp Hc) as (t' & E & Ht' & Hc').
  { pose proof (refs_small hs p). unfold refs in *. lia. }
  exists t'. split; [done|]. split; cbn [fst snd].
  - done.
  - intros w q. destruct (decide (v = w)) as [<-|]; [rewrite lookup_insert_eq; by intros [= <-] | rewrite lookup_insert_ne by done; apply Hh].
  - by rewrite fmap_insert, <- Hm.
  - eapply counted_ext, Hc'. intros q. by rewrite refs_insert.
  - intros q Hq. right. destruct (Hu q Hq) as [Hx|[w Hw]].
    + exists v. rewrite (Hnew q Hx). apply lookup_insert_eq.
    + exists w. rewrite lookup_insert_ne; [done|]. intros <-. congruence.
  - rewrite map_size_insert_None by done. lia.
Qed.

Lemma detach_spec n t hs m G v p :
  program_ok n (t, hs) m G -> hs !! v = Some p ->
  exists t' G', destroy_string p t = Ok (tt, t') /\ program_ok n (t', delete v hs) (delete v m) G' /\
    (forall q, q <> p \/ p = null_node \/ (exists u, u <> v /\ hs !! u = Some p) -> G' !! q = G !! q).
Proof.
  intros [Ht Hh Hm Hc Hu Hf] Hv. cbn [fst snd] in *. pose proof (refs_pos _ _ _ Hv) as H1. pose proof (refs_small hs p) as H2.
  destruct (release_spec n t G p _ Ht (Hh _ _ Hv) Hc) as (t' & E & Hc' & Ht'); [lia | lia |].
  eexists t', (if decide (refs hs p = 1 /\ p <> null_node) then delete p G else G). split; [exact E|].
  assert (Hlast : forall u, u <> v -> hs !! u = Some p -> refs hs p <> 1).
  { intros u Huv Hx. pose proof (refs_delete _ _ _ p Hv) as Hd. unfold plus in Hd. rewrite decide_True in Hd by done.
    pose proof (refs_pos (delete v hs) u p ltac:(by rewrite lookup_delete_ne)). lia. }
  assert (HG : forall q, q <> p \/ p = null_node \/ (exists u, u <> v /\ hs !! u = Some p) ->
    (if decide (refs hs p = 1 /\ p <> null_node) then delete p G else G) !! q = G !! q).
  { intros q Hq. case_decide as Hd; [|done]. destruct Hq as [Hq|[->|(u & Huv & Hx)]]; [by rewrite lookup_delete_ne | by destruct Hd |].
    by destruct (Hlast u Huv Hx); apply Hd. }
  assert (Hkeep : forall w q, w <> v -> hs !! w = Some q ->
    (if decide (refs hs p = 1 /\ p <> null_node) then delete p G else G) !! q = G !! q).
  { intros w q Hwv Hw. apply HG. destruct (decide (q = p)) as [->|]; [right; right; by exists w | by left]. }
  split; [|done]. split; cbn [fst snd].
  - done.
  - intros w q [Hwv Hw]%lookup_delete_Some. destruct (Hh _ _ Hw) as [->|Hq]; [by left | right]. by rewrite (Hkeep w).
  - rewrite Hm. apply map_eq. intros w. destruct (decide (w = v)) as [->|Hwv].
    + by rewrite lookup_fmap, !lookup_delete_eq.
    + rewrite lookup_fmap, !lookup_delete_ne, lookup_fmap by done. destruct (hs !! w) as [q|] eqn:Hw; [|done]. cbn.
      unfold text_of. by rewrite (Hkeep w).
  - eapply counted_ext, Hc'. intros q. by rewrite (refs_delete _ _ _ _ Hv).
  - intros q Hq. right. case_decide as Hd.
    + destruct (decide (q = p)) as [->|Hqp]; [rewrite lookup_delete_eq in Hq; by destruct Hq|].
      rewrite lookup_delete_ne in Hq by done. destruct (Hu q Hq) as [[]|[w Hw]]. exists w.
      rewrite lookup_delete_ne; [done|]. intros ->. congruence.
    + destruct (Hu q Hq) as [[]|[w Hw]]. destruct (decide (w = v)) as [->|Hwv].
      * rewrite Hv in Hw. injection Hw as <-. assert (refs hs p <> 1).
        { intros H. apply Hd. split; [done|]. intros ->. pose proof (proj1 (ct_null _ _ (tk_contents _ _ _ Ht))). destruct Hq. congruence. }
        destruct (refs_some (delete v hs) p) as [u Hx]; [rewrite (refs_delete _ _ _ _ Hv); unfold plus; rewrite decide_True by done; lia|].
        by exists u.
      * exists w. by rewrite lookup_delete_ne.
  - split; [|lia]. rewrite <- (insert_delete_id hs v p Hv), map_size_insert_None in Hf by apply lookup_delete_eq. lia.
Qed.

Lemma make_spec n t hs m G v buffer len :
  program_ok n (t, hs) m G -> hs !! v = None -> n < 2 ^ 30 -> 0 <= len <= blen buffer -> 0 ∉ kept buffer len ->
  exists p t' G', new_string buffer len t = Ok (p, t') /\ program_ok (n + 1) (t', <[v := p]> hs) (<[v := kept buffer len]> m) G'.
Proof.
  intros [Ht Hh Hm Hc Hu Hf] Hv Hn Hl Hz. cbn [fst snd] in *.
  destruct (insert_spec n t G buffer len Ht Hn Hl Hz) as (p & t1 & G1 & E & Ht1 & Htext & Hp & Hsub & Hout & Hcounts & Hfresh).
  assert (Hkeep : forall q, present G q -> G1 !! q = G !! q).
  { intros q [->|[e He]]; [|by rewrite He, (Hsub q e He)].
    by rewrite (proj1 (ct_null _ _ (tk_contents _ _ _ Ht))), (proj1 (ct_null _ _ (tk_contents _ _ _ Ht1))). }
  destruct (attach_spec (fun q => q = p) (n + 1) t1 hs m G1 v p) as (t2 & E2 & Hp2).
  - split; cbn [fst snd]; try done.
    + intros w q Hw. destruct (Hh _ _ Hw) as [->|Hq]; [by left | right]. by rewrite Hkeep by (by right).
    + rewrite Hm. apply map_fmap_ext. intros w q Hw. unfold text_of. by rewrite Hkeep by (by eapply Hh).
    + intros q x Hx. destruct (nodes t !! q) as [y|] eqn:Hy.
      * rewrite <- (Hc q y Hy). specialize (Hcounts q ltac:(by eexists)). rewrite Hx, Hy in Hcounts. by injection Hcounts.
      * destruct (Hfresh q x Hy Hx) as [-> ->].
        assert (p <> null_node).
        { intros ->. destruct (ct_null _ _ (tk_contents _ _ _ Ht)) as (_ & ? & ? & _). congruence. }
        rewrite decide_False by done. destruct (Z.eq_dec (refs hs p) 0); [lia|].
        destruct (refs_some hs p) as [w Hw]; [unfold refs in *; lia|].
        destruct (present_node _ _ _ _ Ht (Hh _ _ Hw)) as (? & ? & _). congruence.
    + intros q Hq. destruct (decide (q = p)) as [->|Hqp]; [by left|]. rewrite Hout in Hq by done.
      destruct (Hu q Hq) as [[]|?]. by right.
    + lia.
  - done.
  - done.
  - lia.
  - done.
  - exists p, t2, G1. rewrite Htext in Hp2. split; [|done]. unfold new_string. by rewrite (bind_step _ _ _ _ _ E).
Qed.

Lemma program_more n s m G : program_ok n s m G -> n < 2 ^ 30 -> program_ok (n + 1) s m G.
Proof. intros [? ? ? ? ? ?] Hn. split; try done; [eapply table_more; [|done]; lia | lia]. Qed.

Lemma text_lookup n s m G v a : program_ok n s m G -> m !! v = Some a -> exists p, s.2 !! v = Some p /\ text_of G p = a.
Proof.
  intros Hp. rewrite (po_text _ _ _ _ _ Hp), lookup_fmap. destruct (s.2 !! v) as [p|]; [|done]. intros [= <-]. by exists p.
Qed.

Lemma handle_fresh n s m G v : program_ok n s m G -> m !! v = None -> s.2 !! v = None.
Proof. intros Hp. rewrite (po_text _ _ _ _ _ Hp), lookup_fmap. by destruct (s.2 !! v). Qed.

Lemma run_spec n s m G op m' :
  program_ok n s m G -> n < 2 ^ 30 -> text_step m op m' ->
  exists s' G', run op s = Ok s' /\ program_ok (n + 1) s' m' G'.
Proof.
  destruct s as [t hs]. intros Hp Hn Hs. pose proof (program_more _ _ _ _ Hp Hn) as Hp1.
  assert (Hfew : Z.of_nat (base.size hs) < n + 1) by (pose proof (po_few _ _ _ _ _ Hp); cbn in *; lia).
  destruct Hs as [v Hv|v buffer len Hv Hl Hz|v w a Hv Hw|v w a [b Hv] Hw Hsafe|v [b Hv]]; unfold run.
  - destruct (attach_spec _ _ t hs m G v null_node Hp1) as (t' & E & Hp'); [done | by eapply (handle_fresh _ (t, hs)) | done | by left |].
    exists (t', <[v := null_node]> hs), G. unfold empty_string. rewrite E. split; [done|].
    unfold text_of in Hp'. by rewrite (proj1 (ct_null _ _ (tk_contents _ _ _ (po_table _ _ _ _ _ Hp)))) in Hp'.
  - destruct (make_spec n t hs m G v buffer len Hp) as (p & t' & G' & E & Hp'); [by eapply (handle_fresh _ (t, hs)) | done.. |].
    exists (t', <[v := p]> hs), G'. by rewrite E.
  - destruct (text_lookup _ _ _ _ _ _ Hp Hw) as (p & Hpw & <-). cbn [snd] in Hpw.
    destruct (attach_spec _ _ t hs m G v p Hp1) as (t' & E & Hp'); [done | by eapply (handle_fresh _ (t, hs)) | done | by eapply (po_handles _ _ _ _ _ Hp) |].
    exists (t', <[v := p]> hs), G. unfold handle, copy_string. rewrite Hpw. cbn [of_option mbind result_bind]. by rewrite E.
  - destruct (text_lookup _ _ _ _ _ _ Hp Hv) as (p & Hpv & Ev), (text_lookup _ _ _ _ _ _ Hp Hw) as (q & Hqw & <-). cbn [snd] in *.
    destruct (detach_spec _ t hs m G v p Hp1 Hpv) as (t1 & G1 & E1 & Hd & HG).
    assert (HGq : G1 !! q = G !! q).
    { apply HG. destruct (decide (q = p)) as [->|]; [right | by left]. destruct Hsafe as [Hvw|[Hz|(u & Huv & Hu)]].
      - right. exists w. split; [congruence | done].
      - left. destruct (po_handles _ _ _ _ _ Hp _ _ Hpv) as [|[[s i] Hs]]; [done|]. unfold text_of in Hz. rewrite Hs in Hz.
        by destruct (ct_ok _ _ (tk_contents _ _ _ (po_table _ _ _ _ _ Hp)) _ _ _ Hs).
      - right. exists u. split; [done|]. destruct (text_lookup _ _ _ _ _ _ Hp Hu) as (r & Hr & Er). cbn in Hr.
        rewrite Hr. f_equal. by eapply (text_pointer n (t, hs) m G u w r p). }
    destruct (attach_spec _ (n + 1) t1 (delete v hs) (delete v m) G1 v q Hd) as (t2 & E2 & Hp').
    + done.
    + apply lookup_delete_eq.
    + rewrite <- (insert_delete_id hs v p Hpv), map_size_insert_None in Hfew by apply lookup_delete_eq. lia.
    + destruct (po_handles _ _ _ _ _ Hp _ _ Hqw) as [->|Hq]; [by left | right]. by rewrite HGq.
    + exists (t2, <[v := q]> hs), G1. unfold handle, assign_string. rewrite Hpv, Hqw. cbn [of_option mbind result_bind].
      rewrite (bind_step _ _ _ _ _ E1), E2. split; [done|]. rewrite !insert_delete_eq in Hp'. unfold text_of in *. by rewrite HGq in Hp'.
  - destruct (text_lookup _ _ _ _ _ _ Hp Hv) as (p & Hpv & Ev). cbn [snd] in *.
    destruct (detach_spec _ t hs m G v p Hp1 Hpv) as (t1 & G1 & E1 & Hd & HG).
    exists (t1, delete v hs), G1. unfold handle. rewrite Hpv. cbn [of_option mbind result_bind]. by rewrite E1.
Qed.

(** The states programs reach in [n] operations, with the strings they mean. *)
Inductive made : Z -> table * handles -> strings -> Prop :=
  | made_start t : new_table = Ok t -> made 0 (t, ∅) ∅
  | made_step n s m op s' m' : made n s m -> n < 2 ^ 30 -> text_step m op m' -> run op s = Ok s' -> made (n + 1) s' m'.

Lemma start_ok t : new_table = Ok t -> program_ok 0 (t, ∅) ∅ ∅.
Proof.
  intros E. assert (new_table = Ok (mk_table {[null_node := empty_node]} 2 (replicate 5 None) 5 0 2 1)) as E' by reflexivity.
  rewrite E' in E. injection E as <-. clear E'.
  assert (Hnull : forall p, is_Some (({[null_node := empty_node]} : gmap loc node) !! p) <-> p = null_node).
  { intros p. destruct (decide (p = null_node)) as [->|]; [by rewrite lookup_singleton_eq|]. rewrite lookup_singleton_ne by done.
    split; [by intros [? ?] | done]. }
  split; cbn [fst snd].
  - split; cbn; try done; try lia.
    + exists (replicate 5 []). split; cbn; try done; try lia.
      * repeat constructor.
      * intros i l p nd Hi Hp. apply (lookup_replicate 5) in Hi as [-> _]. by apply elem_of_nil in Hp.
      * constructor.
      * intros p. rewrite elem_of_nil. specialize (Hnull p). cbn in Hnull. tauto.
      * by intros ?%elem_of_nil.
      * intros p Hp. apply Hnull in Hp as ->. done.
    + split; try done.
      * intros p Hp Hx. by apply Hnull in Hx.
      * split; [done|]. eexists. split; [reflexivity | by split].
  - done.
  - by rewrite fmap_empty.
  - intros p nd Hp. change (({[null_node := empty_node]} : gmap loc node) !! p = Some nd) in Hp.
    apply lookup_singleton_Some in Hp as [<- <-]. done.
  - intros p Hp. rewrite lookup_empty in Hp. by destruct Hp.
  - done.
Qed.

Lemma made_ok n s m : made n s m -> exists G, program_ok n s m G.
Proof.
  induction 1 as [t E|n s m op s' m' Hm [G Hp] Hn Hs E]; [exists ∅; by apply start_ok|].
  destruct (run_spec _ _ _ _ _ _ Hp Hn Hs) as (s1 & G1 & E1 & Hp1). rewrite E in E1. injection E1 as <-. by exists G1.
Qed.

(** What a handle shows. *)
Lemma handle_spec n s m G v a : program_ok n s m G -> m !! v = Some a ->
  exists p nd id, s.2 !! v = Some p /\ nodes s.1 !! p = Some nd /\ text_node nd a id /\ (id = 0 <-> a = []) /\
    (forall w q b nd' id', m !! w = Some b -> s.2 !! w = Some q -> nodes s.1 !! q = Some nd' -> text_node nd' b id' ->
      (id = id' <-> lower a = lower b)).
Proof.
  intros Hp Hv. destruct (text_lookup _ _ _ _ _ _ Hp Hv) as (p & Hs & <-).
  pose proof (po_table _ _ _ _ _ Hp) as Ht. pose proof (tk_contents _ _ _ Ht) as Hc.
  pose proof (po_handles _ _ _ _ _ Hp _ _ Hs) as Hpr. destruct (present_node _ _ _ _ Ht Hpr) as (nd & Hn & Htn).
  assert (Hzero : forall q, present G q -> ((match G !! q with Some (_, id) => id | None => 0 end) = 0 <-> text_of G q = [])).
  { intros q [->|[[b i] Hq]]; unfold text_of; [by rewrite (proj1 (ct_null _ _ Hc))|]. rewrite Hq.
    destruct (ct_ok _ _ Hc _ _ _ Hq) as (? & _ & ?). split; [lia | done]. }
  eexists p, nd, _. split_and!; try done; try by apply Hzero.
  intros w q b nd' id' Hw Hq Hnq Htq. destruct (text_lookup _ _ _ _ _ _ Hp Hw) as (q' & Hq' & Eb). rewrite Hq in Hq'. injection Hq' as <-.
  pose proof (po_handles _ _ _ _ _ Hp _ _ Hq) as Hprq. destruct (present_node _ _ _ _ Ht Hprq) as (nd2 & Hn2 & Htn2).
  rewrite Hnq in Hn2. injection Hn2 as <-. pose proof (tn_id _ _ _ Htq) as <-. rewrite (tn_id _ _ _ Htn2). subst b.
  destruct Hpr as [->|[[a i] Ha]], Hprq as [->|[[b j] Hb]]; unfold text_of.
  - done.
  - rewrite (proj1 (ct_null _ _ Hc)), Hb. destruct (ct_ok _ _ Hc _ _ _ Hb) as (Hne & _ & ?). split; [lia|].
    destruct b; [done | by intros [=]].
  - rewrite (proj1 (ct_null _ _ Hc)), Ha. destruct (ct_ok _ _ Hc _ _ _ Ha) as (Hne & _ & ?). split; [lia|].
    destruct a; [done | by intros [=]].
  - rewrite Ha, Hb. by apply (ct_case _ _ Hc p q).
Qed.


(** *** An example: "Hello" and "heLLo", twice the first, and one of them assigned over the other *)
Definition hello : bytes := [72; 101; 108; 108; 111].
Definition heLLo : bytes := [104; 101; 76; 76; 111].
Fixpoint run_all (ops : list operation) (s : table * handles) : result (table * handles) :=
  match ops with [] => Ok s | op :: ops => s ← run op s; run_all ops s end.
Definition after (ops : list operation) : table * handles :=
  match (t ← new_table; run_all ops (t, ∅)) with Ok s => s | Fault _ => (mk_table ∅ 1 [] 0 0 0 0, ∅) end.

Definition example_program : table * handles := after [op_make 0 hello 5; op_make 1 heLLo 5; op_copy 2 0].
Definition example_texts : strings := <[2%nat := hello]> (<[1%nat := heLLo]> (<[0%nat := hello]> ∅)).

#[local] Ltac no_zero := apply (bool_decide_unpack _); vm_compute; exact I.

Lemma interned_example_made : made 3 example_program example_texts.
Proof.
  apply (made_step 2 (after [op_make 0 hello 5; op_make 1 heLLo 5]) (<[1%nat := heLLo]> (<[0%nat := hello]> ∅)) (op_copy 2 0));
    [| done | by apply step_copy | vm_compute; reflexivity].
  apply (made_step 1 (after [op_make 0 hello 5]) (<[0%nat := hello]> ∅) (op_make 1 heLLo 5));
    [| done | apply (step_make _ 1 heLLo 5); [done | by split | no_zero] | vm_compute; reflexivity].
  apply (made_step 0 (after []) ∅ (op_make 0 hello 5));
    [| done | apply (step_make _ 0 hello 5); [done | by split | no_zero] | vm_compute; reflexivity].
  by apply made_start.
Qed.

