(* ===== verification/SmallBlocks.v ===== *)
(** * Small blocks: core/small_block_allocator.h

    An allocator of blocks of up to 96 cache lines, cut from the pages of a zone.  What the status
    of a block is stands in a byte of a status page, one byte for each cache line; freed blocks of
    one size are chained through their own memory.  The nodes of the interned strings are such
    blocks.  The answers of [malloc] are arguments of the operations.  The theorems are in
    SmallBlocksSpec. *)
From S2P Require Import Prelude Allocator.
From stdpp Require Import gmap.
#[local] Open Scope Z_scope.

Section small_block_allocator.

(** The size of a pointer of the machine, 4 or 8 *)
Context (pointer_size : Z).

Definition cache_line_size : Z := 16.
Definition cache_line_mask : Z := cache_line_size - 1.
Definition cache_line_shift : Z := 4.
Definition page_mask : Z := page_size - 1.
Definition cache_lines_per_page : Z := page_size / cache_line_size.
Definition max_cache_line_size : Z := 96.
Definition max_size : Z := max_cache_line_size * cache_line_size.
Definition bucket_index_mask : Z := 31.
Definition flag_allocated : Z := 32.
Definition flag_invalid : Z := 64.
Definition flag_freed : Z := 128.
Definition num_memory_status_blocks_per_block_page : Z := 16.
Definition num_buckets : Z := 18.

(** A pointer to a status byte: a status page and an offset *)
Record status_ptr : Type := mk_ptr { status_page : Z; offset : Z }.
Definition null_status : status_ptr := mk_ptr 0 0.
Definition address (p : status_ptr) : Z := status_page p + offset p.
Definition add (p : status_ptr) (n : Z) : status_ptr := mk_ptr (status_page p) (offset p + n).

(** What a freed block holds *)
Record free_memory_block : Type := mk_free { next : Z; status_byte_ptr : status_ptr }.

(** The header of a page.  Its field [free_buckets] is always the array of the allocator. *)
Record page : Type := mk_page { memory_status_block : status_ptr; prev : Z; reference_pointer : Z }.

(** The allocator, with the memory it works on: the headers of its pages, its status pages and
    the blocks that are free. *)
Record t : Type := mk {
  _reference_pointer : Z;
  _current_memory_status_block_page : status_ptr;
  _num_memory_status_blocks_used : Z;
  _top_page : Z;
  _cache_lines_used_in_top_page : Z;
  _free_buckets : list Z;
  _allocator : zone_allocator.t;
  pages : gmap Z page;
  status : gmap Z bytes;
  free_blocks : gmap Z free_memory_block
}.

Definition with_reference (r : Z) (s : t) : t :=
  mk r (_current_memory_status_block_page s) (_num_memory_status_blocks_used s) (_top_page s) (_cache_lines_used_in_top_page s)
    (_free_buckets s) (_allocator s) (pages s) (status s) (free_blocks s).
Definition with_status_block (p : status_ptr) (n : Z) (s : t) : t :=
  mk (_reference_pointer s) p n (_top_page s) (_cache_lines_used_in_top_page s) (_free_buckets s) (_allocator s) (pages s) (status s) (free_blocks s).
Definition with_top (p : Z) (s : t) : t :=
  mk (_reference_pointer s) (_current_memory_status_block_page s) (_num_memory_status_blocks_used s) p (_cache_lines_used_in_top_page s)
    (_free_buckets s) (_allocator s) (pages s) (status s) (free_blocks s).
Definition with_lines (n : Z) (s : t) : t :=
  mk (_reference_pointer s) (_current_memory_status_block_page s) (_num_memory_status_blocks_used s) (_top_page s) n
    (_free_buckets s) (_allocator s) (pages s) (status s) (free_blocks s).
Definition with_free (buckets : list Z) (free : gmap Z free_memory_block) (s : t) : t :=
  mk (_reference_pointer s) (_current_memory_status_block_page s) (_num_memory_status_blocks_used s) (_top_page s) (_cache_lines_used_in_top_page s)
    buckets (_allocator s) (pages s) (status s) free.
Definition with_memory (z : zone_allocator.t) (ps : gmap Z page) (ss : gmap Z bytes) (s : t) : t :=
  mk (_reference_pointer s) (_current_memory_status_block_page s) (_num_memory_status_blocks_used s) (_top_page s) (_cache_lines_used_in_top_page s)
    (_free_buckets s) z ps ss (free_blocks s).

(** *** Memory *)
Definition page_at (p : Z) : M t page := fun s => g ← of_option out_of_bounds (pages s !! p); Ok (g, s).
Definition status_at (p : status_ptr) : M t Z := fun s =>
  b ← of_option null_deref (status s !! status_page p); v ← bget b (offset p); Ok (v, s).
Definition set_status (p : status_ptr) (v : Z) : M t unit := fun s =>
  b ← of_option null_deref (status s !! status_page p); b ← bset b (offset p) v;
  Ok (tt, with_memory (_allocator s) (pages s) (<[status_page p := b]> (status s)) s).
Definition bucket_at (i : Z) : M t Z := fun s => h ← of_option out_of_bounds (_free_buckets s !! Z.to_nat i); Ok (h, s).

(** A page from the zone *)
Definition allocate_page (answer : Z) : M t Z := fun s =>
  let '(p, z) := zone_allocator.allocate_pages answer 1 (_allocator s) in
  Ok (p, with_memory z (pages s) (status s) s).

(** A page back to the zone, with what it holds *)
Definition deallocate_page (p : Z) : M t unit := fun s =>
  z ← zone_allocator.deallocate_pages p 1 (_allocator s); Ok (tt, with_memory z (delete p (pages s)) (delete p (status s)) s).

(** ** Operations *)
Definition bucket_sizes : list Z := [1; 2; 3; 4; 5; 6; 8; 10; 12; 16; 20; 24; 32; 40; 48; 64; 80; max_cache_line_size; 2 ^ 32 - 1].
Fixpoint bucket_walk (sizes : list Z) (i cache_line_count : Z) : result (Z * Z) :=
  match sizes with
  | [] => Fault out_of_bounds
  | size :: sizes => if size <? cache_line_count then bucket_walk sizes (i + 1) cache_line_count else Ok (i, size)
  end.
Definition _find_bucket (cache_line_count : Z) : result (Z * Z) := bucket_walk bucket_sizes 0 cache_line_count.

Definition _init : M t unit := modify (fun s =>
  with_lines cache_lines_per_page (with_top 0 (with_status_block null_status num_memory_status_blocks_per_block_page
    (with_free (replicate (Z.to_nat num_buckets) 0) (free_blocks s) s)))).

Definition make (zone : zone_allocator.t) (reference : Z) : t :=
  mk reference null_status num_memory_status_blocks_per_block_page 0 cache_lines_per_page (replicate (Z.to_nat num_buckets) 0) zone ∅ ∅ ∅.

(** The lines of the header of a page, four pointers *)
Definition header_lines : Z := Z.shiftr (4 * pointer_size + cache_line_mask) cache_line_shift.

Definition _alloc_new_top_page (answers : Z * Z) : M t bool :=
  new_page ← allocate_page answers.1;
  if new_page =? 0 then mret false else
  used ← gets _num_memory_status_blocks_used;
  ok ← (if used =? num_memory_status_blocks_per_block_page then
          block ← allocate_page answers.2;
          _ ← modify (with_status_block (mk_ptr block 0) 0);
          if block =? 0 then _ ← deallocate_page new_page; mret false
          else
            _ ← modify (fun s => with_memory (_allocator s) (pages s) (<[block := replicate (Z.to_nat page_size) flag_invalid]> (status s)) s);
            mret true
        else mret true);
  if negb ok then mret false else
  s ← get;
  let current := _current_memory_status_block_page s in
  _ ← modify (fun s => with_memory (_allocator s) (<[new_page := mk_page current (_top_page s) (_reference_pointer s)]> (pages s)) (status s) s);
  _ ← modify (with_top new_page);
  _ ← modify (with_status_block (add current cache_lines_per_page) (_num_memory_status_blocks_used s + 1));
  _ ← modify (with_lines header_lines);
  mret true.

(** A free block of the bucket: its memory is the program's again. *)
Definition take_free (bucket_index head : Z) : M t Z :=
  s ← get;
  block ← lift (of_option out_of_bounds (free_blocks s !! head));
  _ ← modify (fun s => with_free (<[Z.to_nat bucket_index := next block]> (_free_buckets s)) (delete head (free_blocks s)) s);
  status ← status_at (status_byte_ptr block);
  _ ← lift (require (negb (Z.land status flag_freed =? 0)) assertion_failed);
  _ ← set_status (status_byte_ptr block) (Z.lor (Z.land status bucket_index_mask) flag_allocated);
  mret head.

(** A block from the top page *)
Definition cut (bucket_index bucket_size : Z) : M t Z :=
  s ← get;
  let used := _cache_lines_used_in_top_page s in
  top ← page_at (_top_page s);
  _ ← set_status (add (memory_status_block top) used) (u8 (Z.lor bucket_index flag_allocated));
  _ ← modify (with_lines (used + bucket_size));
  mret (_top_page s + Z.shiftl used cache_line_shift).

Definition _allocate (answers : Z * Z) (size : Z) : M t Z :=
  _ ← lift (require (size <=? max_size) assertion_failed);
  let line_count := Z.shiftr (u32 (size + cache_line_mask)) cache_line_shift in
  '(bucket_index, bucket_size) ← lift (_find_bucket line_count);
  _ ← lift (require (bucket_index <? num_buckets) assertion_failed);
  head ← bucket_at bucket_index;
  if negb (head =? 0) then take_free bucket_index head else
  used ← gets _cache_lines_used_in_top_page;
  ok ← (if cache_lines_per_page <? u32 (used + bucket_size) then _alloc_new_top_page answers else mret true);
  if negb ok then mret 0 else cut bucket_index bucket_size.

Definition _find_page (memory : Z) : Z := memory - Z.land (u32 memory) page_mask.
Definition _is_page_aligned (memory : Z) : bool := Z.land (u32 memory) page_mask =? 0.

Definition _deallocate (memory : Z) : M t unit :=
  let the_page := _find_page memory in
  g ← page_at the_page;
  let cache_line := Z.shiftr (memory - the_page) cache_line_shift in
  let ptr := add (memory_status_block g) cache_line in
  status ← status_at ptr;
  _ ← lift (require (negb (Z.land status flag_allocated =? 0)) assertion_failed);
  let bucket_index := Z.land status bucket_index_mask in
  head ← bucket_at bucket_index;
  _ ← modify (fun s => with_free (<[Z.to_nat bucket_index := memory]> (_free_buckets s)) (<[memory := mk_free head ptr]> (free_blocks s)) s);
  set_status ptr (Z.lor bucket_index flag_freed).

Definition get_reference_pointer (memory : Z) : M t Z := g ← page_at (_find_page memory); mret (reference_pointer g).

(** The loop of [_destroy]; the fuel bounds the number of pages. *)
Fixpoint destroy_loop (fuel : nat) : M t unit :=
  top ← gets _top_page;
  if top =? 0 then mret tt else
  match fuel with
  | O => lift (Fault out_of_fuel)
  | S fuel =>
      g ← page_at top;
      _ ← (if _is_page_aligned (address (memory_status_block g)) then deallocate_page (address (memory_status_block g)) else mret tt);
      let temp := prev g in
      _ ← deallocate_page top;
      _ ← modify (with_top temp);
      destroy_loop fuel
  end.
Definition _destroy : M t unit := s ← get; destroy_loop (size (pages s)).
Definition clear : M t unit := _ ← _destroy; _init.

End small_block_allocator.

(** A freed block is given out again, for another request of its size. *)
Example freed_block_returns :
  (let z := zone_allocator.make 0 ∅ in
   '(a, s) ← _allocate 4 (65536, 131072) 100 (make z 7);
   '(b, s) ← _allocate 4 (0, 0) 20 s;
   '(_, s) ← _deallocate a s;
   '(c, s) ← _allocate 4 (0, 0) 110 s;
   '(_, s) ← clear s;
   Ok (a, b, c, zone_allocator.os (_allocator s))) = Ok (65552, 65680, 65552, ∅).
Proof. vm_compute. reflexivity. Qed.

(** The header is found from the address of a block, which is right only if pages are aligned to
    pages: the memory of [malloc] need not be. *)
Example page_of_malloc :
  ('(a, s) ← _allocate 4 (65552, 131088) 100 (make (zone_allocator.make 0 ∅) 7); _deallocate a s) = Fault out_of_bounds.
Proof. vm_compute. reflexivity. Qed.

(** If the zone has a page but not the one for the status, the request fails, and the next one
    follows a null pointer: the allocator believes to have a status page. *)
Example status_page_denied :
  ('(a, s) ← _allocate 4 (65536, 0) 100 (make (zone_allocator.make 0 ∅) 7);
   _ ← require (a =? 0) assertion_failed;
   _allocate 4 (65536, 131072) 100 s) = Fault null_deref.
Proof. vm_compute. reflexivity. Qed.
