(* ===== verification/SmallBlocksSpec.v ===== *)
(** * What the small block allocator promises

    Whatever requests a program makes and whatever blocks it gives back, the blocks it owns are
    aligned, apart, inside pages of the zone and behind their headers; freed blocks are given out
    again; [clear] gives every page back once ([small_blocks_are_apart]).  This is for a zone whose
    pages are aligned to pages. *)
From S2P Require Import Prelude Allocator SmallBlocks.
From stdpp Require Import gmap.
#[local] Open Scope Z_scope.

(** ** Sizes and flags *)
Definition bucket_size (b : nat) : Z := bucket_sizes !!! b.
Definition flag (live : bool) : Z := if live then flag_allocated else flag_freed.

Lemma bucket_size_range b : (b < 18)%nat -> 1 <= bucket_size b <= 96.
Proof. intros Hb. do 18 (destruct b as [|b]; [by vm_compute|]). lia. Qed.

Lemma flags_spec b : (b < 18)%nat ->
  u8 (Z.lor (Z.of_nat b) flag_allocated) = Z.lor (Z.of_nat b) flag_allocated /\
  (forall live, Z.land (Z.lor (Z.of_nat b) (flag live)) bucket_index_mask = Z.of_nat b /\
    (Z.land (Z.lor (Z.of_nat b) (flag live)) flag_allocated =? 0) = negb live /\
    (Z.land (Z.lor (Z.of_nat b) (flag live)) flag_freed =? 0) = live).
Proof. intros Hb. do 18 (destruct b as [|b]; [split; [done | by intros []]|]). lia. Qed.

Definition bucket_fits (n : Z) : bool :=
  match _find_bucket n with
  | Ok (b, size) => (0 <=? b) && (b <? 18) && (size =? bucket_size (Z.to_nat b)) && (n <=? size)
  | Fault _ => false
  end.

Lemma find_bucket_spec n : 0 <= n <= 96 ->
  exists b, _find_bucket n = Ok (Z.of_nat b, bucket_size b) /\ (b < 18)%nat /\ n <= bucket_size b.
Proof.
  intros Hn. assert (Hall : forallb bucket_fits (map Z.of_nat (seq 0 97)) = true) by (vm_compute; reflexivity).
  rewrite forallb_forall in Hall. specialize (Hall n (Z_enum n 97 ltac:(lia))). unfold bucket_fits in Hall.
  destruct (_find_bucket n) as [[b size]|]; [|done]. rewrite !andb_true_iff in Hall. destruct Hall as [[[H1 H2] H3] H4].
  apply Z.leb_le in H1, H4. apply Z.ltb_lt in H2. apply Z.eqb_eq in H3. exists (Z.to_nat b). rewrite Z2Nat.id by done. subst size.
  split; [done|]. split; [lia | done].
Qed.

(** ** Addresses *)
Lemma page_offset a : Z.land (u32 a) page_mask = a mod 4096.
Proof.
  change page_mask with (Z.ones 12). rewrite Z.land_ones by lia. unfold u32. change (2 ^ 12) with 4096.
  symmetry. apply Znumtheory.Zmod_div_mod; [lia | lia | by exists (2 ^ 20)].
Qed.

Lemma in_page p n : (4096 | p) -> 0 <= n < 4096 -> _find_page (p + n) = p.
Proof.
  intros [k ->] Hn. unfold _find_page. rewrite page_offset. rewrite Z.add_comm, Z.mod_add, Z.mod_small by lia. lia.
Qed.

Lemma pages_differ p q n m : (4096 | p) -> (4096 | q) -> 0 <= n < 4096 -> 0 <= m < 4096 -> p + n = q + m -> p = q.
Proof. intros Hp Hq Hn Hm E. by rewrite <- (in_page p n), <- (in_page q m), E. Qed.

Section spec.
Context (pointer_size : Z) (Hpointer : pointer_size = 4 \/ pointer_size = 8).
#[local] Notation header_lines := (header_lines pointer_size).
Implicit Types (s : t) (ps ss : list Z).

Lemma header_lines_range : 1 <= header_lines <= 2.
Proof. destruct Hpointer as [-> | ->]; by vm_compute. Qed.

(** ** Status bytes *)

(** The byte for line [l] of the page number [i]: sixteen pages share a status page. *)
Definition status_of ss (i : nat) (l : Z) : status_ptr := mk_ptr (ss !!! (i / 16)%nat) (256 * Z.of_nat (i mod 16) + l).

Definition status_byte s (p : status_ptr) : option Z := b ← status s !! status_page p; b !! Z.to_nat (offset p).

Definition put_byte (p : status_ptr) (v : Z) (st : gmap Z bytes) : gmap Z bytes :=
  alter (fun b => <[Z.to_nat (offset p) := v]> b) (status_page p) st.

Lemma status_at_spec s p v : status_byte s p = Some v -> 0 <= offset p -> status_at p s = Ok (v, s).
Proof.
  unfold status_byte, status_at. intros Hv Ho. destruct (status s !! status_page p) as [b|]; [|done]. cbn in *.
  unfold bget. destruct (Z.leb_spec 0 (offset p)); [|lia]. rewrite Hv. done.
Qed.

Lemma set_status_spec s p v b : status s !! status_page p = Some b -> 0 <= offset p < blen b ->
  set_status p v s = Ok (tt, with_memory (_allocator s) (pages s) (put_byte p v (status s)) s).
Proof.
  intros Hb Ho. unfold set_status. rewrite Hb. cbn [of_option mbind result_bind]. rewrite bset_lt by done. cbn [mbind result_bind].
  do 3 f_equal. apply map_eq. intros q. unfold put_byte. destruct (decide (q = status_page p)) as [->|].
  - by rewrite lookup_insert_eq, lookup_alter_eq, Hb.
  - by rewrite lookup_insert_ne, lookup_alter_ne.
Qed.

Lemma put_byte_eq s s' p v b : status s' = put_byte p v (status s) -> status s !! status_page p = Some b -> 0 <= offset p < blen b ->
  status_byte s' p = Some v.
Proof.
  intros Hs Hb Ho. unfold status_byte. rewrite Hs. unfold put_byte. rewrite lookup_alter_eq, Hb. cbn.
  apply list_lookup_insert_eq. unfold blen in Ho. lia.
Qed.

Lemma put_byte_ne s s' p q v : status s' = put_byte p v (status s) -> p <> q -> 0 <= offset p -> 0 <= offset q ->
  status_byte s' q = status_byte s q.
Proof.
  intros Hs Hne Hp Hq. unfold status_byte. rewrite Hs. unfold put_byte. destruct p as [P i], q as [Q j]. cbn in *.
  destruct (decide (P = Q)) as [->|]; [|by rewrite lookup_alter_ne]. rewrite lookup_alter_eq.
  destruct (status s !! Q) as [b|]; [|done]. cbn. apply list_lookup_insert_ne. intros E. apply Hne. f_equal. lia.
Qed.

Lemma status_of_inj ss i j l m : NoDup ss -> (i / 16 < length ss)%nat -> (j / 16 < length ss)%nat -> 0 <= l < 256 -> 0 <= m < 256 ->
  status_of ss i l = status_of ss j m -> i = j /\ l = m.
Proof.
  intros Hn Hi Hj Hl Hm E. assert (Hp : ss !!! (i / 16)%nat = ss !!! (j / 16)%nat) by exact (f_equal status_page E).
  assert (Ho : 256 * Z.of_nat (i mod 16) + l = 256 * Z.of_nat (j mod 16) + m) by exact (f_equal offset E). apply list_lookup_lookup_total_lt in Hi, Hj. rewrite Hp in Hi.
  pose proof (NoDup_lookup _ _ _ _ Hn Hi Hj). pose proof (Nat.div_mod i 16). pose proof (Nat.div_mod j 16).
  pose proof (Nat.mod_upper_bound i 16). pose proof (Nat.mod_upper_bound j 16). lia.
Qed.

(** ** The pages, oldest first, and the status pages *)
Definition top_of ps : Z := default 0 (list.last ps).

Record heap_good (others : gmap Z Z) (reference : Z) s ps ss : Prop := {
  hg_page i p : ps !! i = Some p -> pages s !! p = Some (mk_page (status_of ss i 0) (top_of (take i ps)) reference);
  hg_pages p : is_Some (pages s !! p) -> p ∈ ps;
  hg_top : _top_page s = top_of ps;
  hg_status p : is_Some (status s !! p) <-> p ∈ ss;
  hg_bytes p b : status s !! p = Some b -> blen b = 4096;
  hg_count : length ss = ((length ps + 15) / 16)%nat;
  hg_owned p : p ∈ ps ++ ss -> 0 < p /\ (4096 | p) /\ zone_allocator.os (_allocator s) !! p = Some 4096 /\ others !! p = None;
  hg_nodup : NoDup (ps ++ ss);
  hg_others p : p ∉ ps ++ ss -> zone_allocator.os (_allocator s) !! p = others !! p
}.

Record pages_good others reference s ps ss : Prop := {
  pg_heap : heap_good others reference s ps ss;
  pg_reference : _reference_pointer s = reference;
  pg_used : _num_memory_status_blocks_used s = if decide (length ps mod 16 = 0)%nat then 16 else Z.of_nat (length ps mod 16);
  pg_current : (length ps mod 16)%nat <> 0%nat -> _current_memory_status_block_page s = status_of ss (length ps) 0;
  pg_lines : ps = [] /\ _cache_lines_used_in_top_page s = 256 \/ ps <> [] /\ header_lines <= _cache_lines_used_in_top_page s <= 256
}.

Lemma top_of_snoc ps p : top_of (ps ++ [p]) = p.
Proof. unfold top_of. by rewrite last_snoc. Qed.

Lemma page_status others reference s ps ss i : heap_good others reference s ps ss -> (i < length ps)%nat -> (i / 16 < length ss)%nat.
Proof. intros Hg Hi. rewrite (hg_count _ _ _ _ _ Hg). pose proof (Nat.div_mod i 16). pose proof (Nat.div_mod (length ps + 15) 16).
  pose proof (Nat.mod_upper_bound i 16). pose proof (Nat.mod_upper_bound (length ps + 15) 16). lia. Qed.

Lemma status_of_app ss S i l : (i / 16 < length ss)%nat -> status_of (ss ++ [S]) i l = status_of ss i l.
Proof. intros Hi. unfold status_of. by rewrite lookup_total_app_l. Qed.

(** The zone would give the pages [_alloc_new_top_page] may ask for, and they are aligned. *)
Definition granted s (answers : Z * Z) : Prop :=
  answers.1 <> answers.2 /\ forall x, x = answers.1 \/ x = answers.2 ->
    0 < x /\ (4096 | x) /\ zone_allocator.os (_allocator s) !! x = None /\
    (zone_allocator.allocate_pages x 1 (_allocator s)).1 = x.

Lemma allocate_page_granted s x m : (zone_allocator.allocate_pages x 1 (_allocator s)).1 = x -> x <> 0 ->
  allocate_page x (with_memory (zone_allocator.with_os m (_allocator s)) (pages s) (status s) s) =
    Ok (x, with_memory (zone_allocator.with_os (<[x := 4096]> m) (_allocator s)) (pages s) (status s) s).
Proof.
  intros Ha Hx. unfold allocate_page, zone_allocator.allocate_pages in *. cbn [_allocator with_memory zone_allocator._quota zone_allocator._memory_used zone_allocator.with_os] in *.
  destruct (negb _ && _); [cbn in Ha; congruence|]. destruct (Z.eqb_spec x 0); [done|]. done.
Qed.

Lemma allocate_page_first s x : (zone_allocator.allocate_pages x 1 (_allocator s)).1 = x -> x <> 0 ->
  allocate_page x s = Ok (x, with_memory (zone_allocator.with_os (<[x := 4096]> (zone_allocator.os (_allocator s))) (_allocator s)) (pages s) (status s) s).
Proof.
  intros Ha Hx. pose proof (allocate_page_granted s x (zone_allocator.os (_allocator s)) Ha Hx) as E.
  by destruct s as [? ? ? ? ? ? [] ? ? ?].
Qed.

Lemma heap_fresh others reference s ps ss x : heap_good others reference s ps ss -> zone_allocator.os (_allocator s) !! x = None -> x ∉ ps ++ ss /\ others !! x = None.
Proof.
  intros Hg Hx. assert (Hn : x ∉ ps ++ ss) by (intros Hin; destruct (hg_owned _ _ _ _ _ Hg x Hin) as (_ & _ & E & _); congruence).
  split; [done|]. by rewrite <- (hg_others _ _ _ _ _ Hg).
Qed.

(** A page [x] more, with a status page more if the last one is used up *)
Definition grown ps ss ss' : Prop :=
  ss' = ss /\ (length ps mod 16 <> 0)%nat \/ exists y, ss' = ss ++ [y] /\ (length ps mod 16 = 0)%nat.

Lemma grown_status others reference s ps ss ss' : heap_good others reference s ps ss -> grown ps ss ss' ->
  (forall i l, (i < length ps)%nat -> status_of ss' i l = status_of ss i l) /\ (length ps / 16 < length ss')%nat /\
  length ss' = ((length ps + 1 + 15) / 16)%nat.
Proof.
  intros Hg Hgr. pose proof (hg_count _ _ _ _ _ Hg) as Hc. pose proof (Nat.div_mod (length ps) 16 ltac:(done)) as H1.
  pose proof (Nat.div_mod (length ps + 15) 16 ltac:(done)) as H2. pose proof (Nat.div_mod (length ps + 1 + 15) 16 ltac:(done)) as H3.
  pose proof (Nat.mod_upper_bound (length ps) 16 ltac:(done)). pose proof (Nat.mod_upper_bound (length ps + 15) 16 ltac:(done)).
  pose proof (Nat.mod_upper_bound (length ps + 1 + 15) 16 ltac:(done)).
  destruct Hgr as [[-> Hm]|(y & -> & Hm)].
  - split; [done|]. lia.
  - split; [intros i l Hi; by eapply status_of_app, page_status|]. rewrite length_app. cbn [length]. lia.
Qed.

Lemma push_page_good others reference s s' ps ss ss' x :
  pages_good others reference s ps ss -> grown ps ss ss' ->
  (forall p, p = x \/ p ∈ ss' /\ p ∉ ss -> 0 < p /\ (4096 | p) /\ zone_allocator.os (_allocator s) !! p = None) -> x ∉ ss' -> NoDup ss' ->
  (forall p, zone_allocator.os (_allocator s') !! p = if decide (p = x \/ p ∈ ss' /\ p ∉ ss) then Some 4096 else zone_allocator.os (_allocator s) !! p) ->
  pages s' = <[x := mk_page (status_of ss' (length ps) 0) (top_of ps) reference]> (pages s) ->
  (forall p, status s' !! p = if decide (p ∈ ss' /\ p ∉ ss) then Some (replicate (Z.to_nat page_size) flag_invalid) else status s !! p) ->
  _top_page s' = x -> _reference_pointer s' = reference -> _num_memory_status_blocks_used s' = Z.of_nat (length ps mod 16) + 1 ->
  _current_memory_status_block_page s' = add (status_of ss' (length ps) 0) 256 -> _cache_lines_used_in_top_page s' = header_lines ->
  pages_good others reference s' (ps ++ [x]) ss'.
Proof.
  intros [Hg Href Hused Hcur Hlines] Hgr Hnew Hxs Hnd Hos Hpages Hst Htop Href' Hused' Hcur' Hl.
  destruct (grown_status _ _ _ _ _ _ Hg Hgr) as (Hsame & Hlt & Hlen).
  assert (Hsub : forall p, p ∈ ss -> p ∈ ss') by (intros p Hp; destruct Hgr as [[-> _]|(y & -> & _)]; [done | apply elem_of_app; by left]).
  assert (Hfresh : forall p, p = x \/ p ∈ ss' /\ p ∉ ss -> p ∉ ps ++ ss /\ others !! p = None).
  { intros p Hp. eapply heap_fresh; [done|]. by apply Hnew. }
  destruct (Hfresh x ltac:(by left)) as [Hxn _]. rewrite not_elem_of_app in Hxn.
  assert (Hin : forall p, p ∈ (ps ++ [x]) ++ ss' <-> p ∈ ps ++ ss \/ (p = x \/ p ∈ ss' /\ p ∉ ss)).
  { intros p. rewrite !elem_of_app, list_elem_of_singleton. destruct Hgr as [[-> _]|(y & -> & _)]; [tauto|]. rewrite elem_of_app, list_elem_of_singleton. destruct (decide (p ∈ ss)); tauto. }
  split; [split| | | |].
  - intros i p Hi. apply lookup_app_Some in Hi as [Hi|[Hi Hp]].
    + pose proof (lookup_lt_Some _ _ _ Hi). rewrite Hpages, lookup_insert_ne, Hsame by first [done | intros <-; apply (proj1 Hxn); by eapply list_elem_of_lookup_2].
      rewrite take_app_le by lia. by apply (hg_page _ _ _ _ _ Hg).
    + apply list_lookup_singleton_Some in Hp as [Hz <-]. assert (i = length ps) as -> by lia.
      by rewrite Hpages, lookup_insert_eq, take_app_length.
  - intros p. rewrite Hpages, lookup_insert_is_Some. intros [<-|[_ Hp]]; apply elem_of_app; [right; by left | left; by apply (hg_pages _ _ _ _ _ Hg)].
  - by rewrite top_of_snoc.
  - intros p. rewrite Hst. destruct (decide (p ∈ ss' /\ p ∉ ss)) as [Hd|Hd]; [split; [intros _; apply Hd | by eexists]|]. rewrite (hg_status _ _ _ _ _ Hg). split; [by apply Hsub|].
    intros Hp. destruct (decide (p ∈ ss)); [done | by destruct Hd].
  - intros p b. rewrite Hst. destruct (decide (p ∈ ss' /\ p ∉ ss)); [by intros [= <-] | by apply (hg_bytes _ _ _ _ _ Hg)].
  - rewrite Hlen, length_app. done.
  - intros p Hp. rewrite Hos. destruct (decide (p = x \/ p ∈ ss' /\ p ∉ ss)) as [Hd|Hd].
    + destruct (Hnew p Hd) as (H1 & H2 & _). destruct (Hfresh p Hd). done.
    + apply Hin in Hp as [Hp|?]; [|done]. by apply (hg_owned _ _ _ _ _ Hg).
  - apply list.NoDup_app. pose proof (hg_nodup _ _ _ _ _ Hg) as Hn. apply list.NoDup_app in Hn as (Hn1 & Hn2 & _). split; [|split; [|done]].
    + apply list.NoDup_app. split; [done|]. split; [|by apply NoDup_singleton]. intros p Hp ->%list_elem_of_singleton. by apply (proj1 Hxn).
    + intros p [Hp|Hp%list_elem_of_singleton]%elem_of_app Hps; [|by subst]. destruct (decide (p ∈ ss)) as [|Hps']; [by eapply Hn2|].
      destruct (Hfresh p ltac:(right; done)) as [Hf _]. apply Hf, elem_of_app. by left.
  - intros p Hp. rewrite Hos. rewrite Hin in Hp. rewrite decide_False by tauto. apply (hg_others _ _ _ _ _ Hg). tauto.
  - done.
  - rewrite Hused', length_app. cbn [length]. pose proof (Nat.div_mod (length ps) 16 ltac:(done)). pose proof (Nat.div_mod (length ps + 1) 16 ltac:(done)).
    pose proof (Nat.mod_upper_bound (length ps) 16 ltac:(done)). pose proof (Nat.mod_upper_bound (length ps + 1) 16 ltac:(done)). clear Hused; case_decide; lia.
  - rewrite length_app. cbn [length]. intros Hne. rewrite Hcur'. unfold add, status_of. cbn [status_page offset].
    pose proof (Nat.div_mod (length ps) 16 ltac:(done)). pose proof (Nat.div_mod (length ps + 1) 16 ltac:(done)).
    pose proof (Nat.mod_upper_bound (length ps) 16 ltac:(done)). pose proof (Nat.mod_upper_bound (length ps + 1) 16 ltac:(done)).
    assert ((length ps + 1) / 16 = length ps / 16)%nat as -> by lia. f_equal. lia.
  - right. rewrite Hl. pose proof header_lines_range. split; [by destruct ps | lia].
Qed.

Lemma alloc_new_top_page_spec others reference s ps ss answers :
  pages_good others reference s ps ss -> granted s answers ->
  exists s' ss', _alloc_new_top_page pointer_size answers s = Ok (true, s') /\ pages_good others reference s' (ps ++ [answers.1]) ss' /\
    _cache_lines_used_in_top_page s' = header_lines /\ _free_buckets s' = _free_buckets s /\ free_blocks s' = free_blocks s /\
    (forall i l, (i < length ps)%nat -> status_of ss' i l = status_of ss i l) /\
    (forall p, status_page p ∈ ss -> status_byte s' p = status_byte s p).
Proof.
  destruct answers as [x y]. intros Hg [Hxy Hgr]. pose proof (pg_heap _ _ _ _ _ Hg) as Hh. cbn [fst snd] in *.
  destruct (Hgr x ltac:(by left)) as (Hx0 & Hxd & Hxn & Hx). destruct (Hgr y ltac:(by right)) as (Hy0 & Hyd & Hyn & Hy).
  destruct (heap_fresh _ _ _ _ _ _ Hh Hxn) as [Hxf _]. destruct (heap_fresh _ _ _ _ _ _ Hh Hyn) as [Hyf _].
  rewrite not_elem_of_app in Hxf, Hyf. destruct Hxf as [Hxp Hxs], Hyf as [Hyp Hys].
  pose proof (hg_nodup _ _ _ _ _ Hh) as Hnd. apply list.NoDup_app in Hnd as (_ & _ & Hnd).
  pose proof (hg_count _ _ _ _ _ Hh) as Hcount. pose proof (Nat.div_mod (length ps) 16 ltac:(done)) as Hdm.
  pose proof (Nat.div_mod (length ps + 15) 16 ltac:(done)) as Hdm15. pose proof (Nat.mod_upper_bound (length ps + 15) 16 ltac:(done)).
  pose proof (Nat.mod_upper_bound (length ps) 16 ltac:(done)).
  unfold _alloc_new_top_page. cbn [fst snd]. rewrite (bind_step _ _ _ _ _ (allocate_page_first s x Hx ltac:(lia))).
  destruct (Z.eqb_spec x 0); [lia|]. unfold gets at 1, mbind at 1, M_bind at 1. cbn [_num_memory_status_blocks_used with_memory].
  rewrite (pg_used _ _ _ _ _ Hg). change num_memory_status_blocks_per_block_page with 16.
  destruct (decide (length ps mod 16 = 0)%nat) as [Hm|Hm].
  - cbn [Z.eqb Pos.eqb]. erewrite bind_step.
    2: { rewrite (bind_step _ _ _ _ _ (allocate_page_granted s y _ Hy ltac:(lia))). unfold modify at 1. unfold mbind at 1, M_bind at 1.
         destruct (Z.eqb_spec y 0); [lia|]. unfold modify, mbind, M_bind, mret, M_ret. reflexivity. }
    cbn [negb]. unfold get, modify, mbind, M_bind, mret, M_ret. eexists _, (ss ++ [y]). split; [reflexivity|].
    assert (Hg' : grown ps ss (ss ++ [y])) by (right; by exists y).
    assert (Hnew : forall p, p ∈ ss ++ [y] /\ p ∉ ss <-> p = y).
    { intros p. rewrite elem_of_app, list_elem_of_singleton. split; [tauto | intros ->; tauto]. }
    assert (Hst0 : mk_ptr y 0 = status_of (ss ++ [y]) (length ps) 0).
    { unfold status_of. assert (length ss = length ps / 16)%nat as E by lia. rewrite <- E, lookup_total_app_r, Nat.sub_diag, Hm by lia. done. }
    split_and!; try done.
    + eapply (push_page_good others reference s); try done.
      * intros p. rewrite Hnew. intros [-> | ->]; done.
      * rewrite not_elem_of_app, list_elem_of_singleton. by split.
      * apply list.NoDup_app. split; [done|]. split; [|by apply NoDup_singleton]. by intros p Hp ->%list_elem_of_singleton.
      * intros p. cbn. destruct (decide (p = x \/ p ∈ ss ++ [y] /\ p ∉ ss)) as [Hd|Hd]; rewrite Hnew in Hd.
        -- destruct (decide (p = y)) as [->|]; [by rewrite lookup_insert_eq|]. destruct Hd as [->|Hd]; [|done].
           by rewrite lookup_insert_ne, lookup_insert_eq.
        -- rewrite !lookup_insert_ne; [done | |]; intros <-; tauto.
      * cbn. by rewrite <- Hst0, (hg_top _ _ _ _ _ Hh), (pg_reference _ _ _ _ _ Hg).
      * intros p. cbn. destruct (decide (p ∈ ss ++ [y] /\ p ∉ ss)) as [Hd|Hd]; rewrite Hnew in Hd; [subst p; by rewrite lookup_insert_eq|].
        by rewrite lookup_insert_ne.
      * cbn. apply Hg.
      * change (0 + 1 = Z.of_nat (length ps mod 16) + 1). by rewrite Hm.
      * cbn. by rewrite <- Hst0.
    + intros i l Hi. by eapply status_of_app, page_status.
    + intros p Hp. unfold status_byte. cbn. rewrite lookup_insert_ne; [done|]. by intros ->.
  - destruct (Z.eqb_spec (Z.of_nat (length ps mod 16)) 16); [lia|]. erewrite bind_step; [|reflexivity].
    cbn [negb]. unfold get, modify, mbind, M_bind, mret, M_ret. eexists _, ss. split; [reflexivity|].
    assert (Hnew : forall p, p ∈ ss /\ p ∉ ss <-> False) by tauto.
    split_and!; try done. eapply (push_page_good others reference s); try done.
    * by left.
    * intros p. rewrite Hnew. by intros [->|].
    * intros p. cbn. destruct (decide (p = x \/ p ∈ ss /\ p ∉ ss)) as [Hd|Hd]; rewrite Hnew in Hd.
      -- destruct Hd as [->|[]]. by rewrite lookup_insert_eq.
      -- rewrite lookup_insert_ne; [done|]. intros <-; tauto.
    * cbn. by rewrite (pg_current _ _ _ _ _ Hg Hm), (hg_top _ _ _ _ _ Hh), (pg_reference _ _ _ _ _ Hg).
    * intros p. cbn. destruct (decide (p ∈ ss /\ p ∉ ss)) as [Hd|Hd]; [tauto | done].
    * cbn. apply Hg.
    * change (_num_memory_status_blocks_used s + 1 = Z.of_nat (length ps mod 16) + 1). by rewrite (pg_used _ _ _ _ _ Hg), decide_False.
    * cbn. by rewrite (pg_current _ _ _ _ _ Hg Hm).
Qed.

(** ** The blocks *)
Record block : Type := mk_block { page_no : nat; line : Z; bucket : nat; live : bool }.
Implicit Types (k : block) (bl : gmap Z block).

Definition lines_of k : Z := bucket_size (bucket k).
Definition status_at_block ss k : status_ptr := status_of ss (page_no k) (line k).

Record block_place ps (a : Z) k : Prop := {
  bk_page : exists p, ps !! page_no k = Some p /\ a = p + 16 * line k;
  bk_line : header_lines <= line k /\ line k + lines_of k <= 256;
  bk_bucket : (bucket k < 18)%nat
}.
Record block_good s ps ss (a : Z) k : Prop := {
  bk_place : block_place ps a k;
  bk_top : S (page_no k) = length ps -> line k + lines_of k <= _cache_lines_used_in_top_page s;
  bk_status : status_byte s (status_at_block ss k) = Some (Z.lor (Z.of_nat (bucket k)) (flag (live k)))
}.

(** The free blocks from [h] on *)
Fixpoint free_chain (fs : gmap Z free_memory_block) (h : Z) (l : list Z) : Prop :=
  match l with
  | [] => h = 0
  | a :: l => h = a /\ a <> 0 /\ exists f, fs !! a = Some f /\ free_chain fs (next f) l
  end.

Record blocks_good s ps ss bl : Prop := {
  bg_block a k : bl !! a = Some k -> block_good s ps ss a k;
  bg_apart a a' k k' : bl !! a = Some k -> bl !! a' = Some k' -> a <> a' -> a + 16 * lines_of k <= a' \/ a' + 16 * lines_of k' <= a;
  bg_free b : (b < 18)%nat -> exists h l, _free_buckets s !! b = Some h /\ free_chain (free_blocks s) h l /\ NoDup l /\
    forall a, a ∈ l <-> exists k, bl !! a = Some k /\ bucket k = b /\ live k = false;
  bg_link a k : bl !! a = Some k -> live k = false -> exists n, free_blocks s !! a = Some (mk_free n (status_at_block ss k))
}.

Lemma free_chain_agree fs fs' l : forall h, (forall a, a ∈ l -> fs' !! a = fs !! a) -> free_chain fs h l -> free_chain fs' h l.
Proof.
  induction l as [|a l IH]; intros h Ha; [done|]. intros (-> & H0 & f & Hf & Hc). split; [done|]. split; [done|]. exists f.
  rewrite Ha by left. split; [done|]. apply IH; [|done]. intros b Hb. apply Ha. by right.
Qed.

Lemma aligned_apart p q : (4096 | p) -> (4096 | q) -> p <> q -> p + 4096 <= q \/ q + 4096 <= p.
Proof. intros [i ->] [j ->] Hne. lia. Qed.

Section state.
Context (others : gmap Z Z) (reference : Z) (s : t) (ps ss : list Z) (Hg : heap_good others reference s ps ss).

Lemma page_fine i p : ps !! i = Some p -> 0 < p /\ (4096 | p) /\ (i / 16 < length ss)%nat /\ pages s !! p = Some (mk_page (status_of ss i 0) (top_of (take i ps)) reference).
Proof.
  intros Hi. destruct (hg_owned _ _ _ _ _ Hg p) as (H1 & H2 & _); [apply elem_of_app; left; by eapply list_elem_of_lookup_2|].
  split_and!; [done | done | | by apply (hg_page _ _ _ _ _ Hg)]. eapply page_status; [exact Hg|]. by eapply lookup_lt_Some.
Qed.

Lemma page_numbers i j p : ps !! i = Some p -> ps !! j = Some p -> i = j.
Proof. intros Hi Hj. pose proof (hg_nodup _ _ _ _ _ Hg) as Hn. apply list.NoDup_app in Hn as (Hn & _ & _). by eapply NoDup_lookup. Qed.

Lemma status_room i l : (i / 16 < length ss)%nat -> 0 <= l < 256 ->
  exists b, status s !! status_page (status_of ss i l) = Some b /\ 0 <= offset (status_of ss i l) < blen b.
Proof.
  intros Hi Hl. cbn [status_page status_of offset]. pose proof (list_lookup_lookup_total_lt _ _ Hi) as Hp.
  destruct (proj2 (hg_status _ _ _ _ _ Hg (ss !!! (i / 16)%nat))) as [b Hb]; [by eapply list_elem_of_lookup_2|].
  exists b. split; [done|]. rewrite (hg_bytes _ _ _ _ _ Hg _ _ Hb). pose proof (Nat.mod_upper_bound i 16 ltac:(done)). lia.
Qed.

Lemma block_address a k : block_place ps a k ->
  exists p, ps !! page_no k = Some p /\ a = p + 16 * line k /\ 0 < p /\ (4096 | p) /\ 1 <= line k < 256 /\ 1 <= lines_of k /\ line k + lines_of k <= 256 /\
    (page_no k / 16 < length ss)%nat.
Proof.
  intros [(p & Hp & Ha) Hl Hb]. pose proof header_lines_range. pose proof (bucket_size_range _ Hb). unfold lines_of in *.
  destruct (page_fine _ _ Hp) as (H1 & H2 & H3 & _). exists p. split_and!; (done || lia).
Qed.

Lemma blocks_differ a a' k k' : block_place ps a k -> block_place ps a' k' -> a <> a' -> status_at_block ss k <> status_at_block ss k'.
Proof.
  intros Hk Hk' Hne E. destruct (block_address _ _ Hk) as (p & Hp & Ea & _ & _ & Hl & _ & _ & Hs).
  destruct (block_address _ _ Hk') as (p' & Hp' & Ea' & _ & _ & Hl' & _ & _ & Hs').
  pose proof (hg_nodup _ _ _ _ _ Hg) as Hn. apply list.NoDup_app in Hn as (_ & _ & Hn).
  destruct (status_of_inj ss (page_no k) (page_no k') (line k) (line k') Hn Hs Hs' ltac:(lia) ltac:(lia) E) as [Ei El].
  apply Hne. rewrite Ei in Hp. congruence.
Qed.
End state.

(** A status byte is written, lines are used, blocks are freed or taken: the pages are as before. *)
Lemma pages_good_put others reference s s' ps ss p v :
  pages_good others reference s ps ss -> status s' = put_byte p v (status s) ->
  (pages s', _allocator s', _top_page s', _reference_pointer s', _num_memory_status_blocks_used s', _current_memory_status_block_page s') =
  (pages s, _allocator s, _top_page s, _reference_pointer s, _num_memory_status_blocks_used s, _current_memory_status_block_page s) ->
  _cache_lines_used_in_top_page s <= _cache_lines_used_in_top_page s' <= 256 -> pages_good others reference s' ps ss.
Proof.
  intros [[H1 H2 H3 H4 H5 H6 H7 H8 H9] Href Hu Hc Hl] Hst [= E1 E2 E3 E4 E5 E6] Hl'.
  assert (Hb : forall q, is_Some (status s' !! q) <-> is_Some (status s !! q)).
  { intros q. rewrite Hst. unfold put_byte. destruct (decide (q = status_page p)) as [->|]; [by rewrite lookup_alter_eq, fmap_is_Some | by rewrite lookup_alter_ne]. }
  split; [split| | | |]; rewrite ?E1, ?E2, ?E3, ?E4, ?E5, ?E6; try done.
  - intros q. rewrite Hb. apply H4.
  - intros q b. rewrite Hst. unfold put_byte. destruct (decide (q = status_page p)) as [->|]; [|rewrite lookup_alter_ne by done; apply H5].
    rewrite lookup_alter_eq. intros (b' & Hb' & ->)%fmap_Some. rewrite blen_insert. by eapply H5.
  - destruct Hl as [[-> Hl]|[Hne Hl]]; [left; split; [done | lia] | right; split; [done | lia]].
Qed.

(** The other blocks, when the status byte of the block [a] is written *)
Lemma block_good_put s s' ps ss a k v :
  block_good s ps ss a k -> status_byte s' (status_at_block ss k) = status_byte s (status_at_block ss k) \/
    status_byte s' (status_at_block ss k) = Some v /\ v = Z.lor (Z.of_nat (bucket k)) (flag (live k)) ->
  _cache_lines_used_in_top_page s <= _cache_lines_used_in_top_page s' -> block_good s' ps ss a k.
Proof.
  intros [H1 H4 H5] Hs Hl. split; try done.
  - intros E. specialize (H4 E). lia.
  - destruct Hs as [-> | [-> ->]]; done.
Qed.

Lemma block_offset ss k : 1 <= line k -> 0 <= offset (status_at_block ss k).
Proof. intros Hl. cbn [offset status_at_block status_of]. unfold status_at_block, status_of. cbn [offset]. lia. Qed.

(** *** A block is cut from the top page *)
Lemma small_cut_spec others reference s ps ss bl b :
  pages_good others reference s ps ss -> blocks_good s ps ss bl -> (b < 18)%nat -> ps <> [] ->
  _cache_lines_used_in_top_page s + bucket_size b <= 256 ->
  exists a s' k, cut (Z.of_nat b) (bucket_size b) s = Ok (a, s') /\ pages_good others reference s' ps ss /\
    bl !! a = None /\ bucket k = b /\ live k = true /\ blocks_good s' ps ss (<[a := k]> bl) /\ a <> 0.
Proof.
  intros Hpg Hbg Hb Hne Hroom. pose proof (pg_heap _ _ _ _ _ Hpg) as Hg. set (used := _cache_lines_used_in_top_page s) in *.
  pose proof (bucket_size_range _ Hb) as Hsz. pose proof header_lines_range as Hh. destruct (pg_lines _ _ _ _ _ Hpg) as [[? _]|[_ Hu]]; [done|]. fold used in Hu.
  destruct (exists_last Hne) as (ps0 & p & Eps). set (i := length ps0).
  assert (Hi : ps !! i = Some p) by (rewrite Eps; by apply list_lookup_middle). assert (Hlen : length ps = S i) by (rewrite Eps, length_app; cbn; lia).
  assert (Htop : _top_page s = p) by (by rewrite (hg_top _ _ _ _ _ Hg), Eps, top_of_snoc).
  destruct (page_fine _ _ _ _ _ Hg _ _ Hi) as (Hp0 & Hpd & Hs & Hpage). destruct (status_room _ _ _ _ _ Hg i used Hs ltac:(lia)) as (bytes & Hbytes & Ho).
  set (k := mk_block i used b true). set (a := p + 16 * used). set (sp := status_at_block ss k).
  assert (Hsp : add (status_of ss i 0) used = sp) by (unfold add, sp, status_at_block, status_of; cbn; f_equal; lia).
  assert (Hplace : block_place ps a k) by (split; [by exists p | change (header_lines <= used /\ used + bucket_size b <= 256); lia | done]).
  assert (Hnew : forall a' k', bl !! a' = Some k' -> a + 16 * bucket_size b <= a' \/ a' + 16 * lines_of k' <= a).
  { intros a' k' Hk'. pose proof (bg_block _ _ _ _ Hbg _ _ Hk') as Hgk. destruct (block_address _ _ _ _ _ Hg _ _ (bk_place _ _ _ _ _ Hgk)) as (p' & Hp' & -> & _ & Hpd' & Hl' & Hl1 & Hl2 & _).
    destruct (decide (page_no k' = i)) as [E|E].
    - pose proof (bk_top _ _ _ _ _ Hgk ltac:(lia)). fold used in H. rewrite E, Hi in Hp'. injection Hp' as <-. unfold a. lia.
    - assert (p <> p') by (intros <-; apply E; by eapply page_numbers). destruct (aligned_apart p p' Hpd Hpd' ltac:(done)); unfold a; lia. }
  assert (Hnone : bl !! a = None).
  { destruct (bl !! a) as [k'|] eqn:Hk'; [|done]. pose proof (block_address _ _ _ _ _ Hg _ _ (bk_place _ _ _ _ _ (bg_block _ _ _ _ Hbg _ _ Hk'))) as (_ & _ & _ & _ & _ & _ & ? & _).
    specialize (Hnew a k' Hk'). lia. }
  exists a. unfold cut, get. unfold mbind at 1, M_bind at 1. unfold page_at. unfold mbind at 1, M_bind at 1. rewrite Htop, Hpage. cbn [of_option mbind result_bind memory_status_block].
  fold used. rewrite Hsp. destruct (flags_spec _ Hb) as [Hu8 _]. rewrite Hu8.
  erewrite bind_step by (by eapply (set_status_spec s sp)). unfold modify. unfold mbind, M_bind, mret, M_ret. rewrite Z.shiftl_mul_pow2 by (unfold cache_line_shift; lia).
  change (2 ^ cache_line_shift) with 16. replace (p + used * 16) with a by (unfold a; lia). set (s' := with_lines _ _). exists s', k.
  assert (Hput : status s' = put_byte sp (Z.lor (Z.of_nat b) flag_allocated) (status s)) by done.
  split_and!; try done; [| | unfold a; lia].
  - eapply pages_good_put; [done | done | done|]. change (used <= used + bucket_size b <= 256). lia.
  - assert (Hk : block_good s' ps ss a k).
    { split; cbn; [done | done | by eapply put_byte_eq]. }
    assert (Hother : forall a' k', bl !! a' = Some k' -> block_good s' ps ss a' k').
    { intros a' k' Hk'. pose proof (bg_block _ _ _ _ Hbg _ _ Hk') as Hgk. eapply (block_good_put s _ _ _ _ _ 0); [done | left | change (used <= used + bucket_size b); lia].
      destruct (block_address _ _ _ _ _ Hg _ _ (bk_place _ _ _ _ _ Hgk)) as (_ & _ & _ & _ & _ & Hl' & _). eapply put_byte_ne; [done | | exact (proj1 Ho) | apply block_offset; lia].
      eapply (blocks_differ others reference s ps ss Hg a a'); [done | apply Hgk | congruence]. }
    split.
    + intros a' k' [[<- <-]|[Hne' Hk']]%lookup_insert_Some; [done | by apply Hother].
    + intros a1 a2 k1 k2 [[<- <-]|[Hn1 H1]]%lookup_insert_Some [[<- <-]|[Hn2 H2]]%lookup_insert_Some Hd; [done | by apply Hnew | | by eapply (bg_apart _ _ _ _ Hbg)].
      destruct (Hnew _ _ H1); [right | left]; done.
    + intros b' Hb'. destruct (bg_free _ _ _ _ Hbg b' Hb') as (h & l & Hh' & Hc & Hnd & Hl). exists h, l. split_and!; try done.
      intros a'. rewrite Hl. split; intros (k' & Hk' & E & Hlv); exists k'; (split; [|done]).
      * rewrite lookup_insert_ne; [done|]. congruence.
      * apply lookup_insert_Some in Hk' as [[<- <-]|[_ Hk']]; [done | done].
    + intros a' k' [[<- <-]|[Hne' Hk']]%lookup_insert_Some Hlv; [done | by apply (bg_link _ _ _ _ Hbg)].
Qed.

(** *** A block is taken from the free ones, or freed *)
Definition with_live (lv : bool) k : block := mk_block (page_no k) (line k) (bucket k) lv.

Lemma block_room others reference s ps ss bl a k : pages_good others reference s ps ss -> blocks_good s ps ss bl -> bl !! a = Some k ->
  exists p b, ps !! page_no k = Some p /\ a = p + 16 * line k /\ 0 < p /\ (4096 | p) /\ 1 <= line k < 256 /\
    pages s !! p = Some (mk_page (status_of ss (page_no k) 0) (top_of (take (page_no k) ps)) reference) /\
    status s !! status_page (status_at_block ss k) = Some b /\ 0 <= offset (status_at_block ss k) < blen b.
Proof.
  intros Hpg Hbg Hk. pose proof (pg_heap _ _ _ _ _ Hpg) as Hg. pose proof (bk_place _ _ _ _ _ (bg_block _ _ _ _ Hbg _ _ Hk)) as Hpl.
  destruct (block_address _ _ _ _ _ Hg _ _ Hpl) as (p & Hp & Ea & Hp0 & Hpd & Hl & _ & _ & Hs).
  destruct (status_room _ _ _ _ _ Hg (page_no k) (line k) Hs ltac:(lia)) as (b & Hb & Ho). destruct (page_fine _ _ _ _ _ Hg _ _ Hp) as (_ & _ & _ & Hpage).
  by exists p, b.
Qed.

Lemma flip_good others reference s s' ps ss bl a k lv :
  pages_good others reference s ps ss -> blocks_good s ps ss bl -> bl !! a = Some k ->
  status s' = put_byte (status_at_block ss k) (Z.lor (Z.of_nat (bucket k)) (flag lv)) (status s) ->
  _cache_lines_used_in_top_page s' = _cache_lines_used_in_top_page s ->
  (forall a' k', <[a := with_live lv k]> bl !! a' = Some k' -> block_good s' ps ss a' k') /\
  (forall a1 a2 k1 k2, <[a := with_live lv k]> bl !! a1 = Some k1 -> <[a := with_live lv k]> bl !! a2 = Some k2 -> a1 <> a2 ->
     a1 + 16 * lines_of k1 <= a2 \/ a2 + 16 * lines_of k2 <= a1).
Proof.
  intros Hpg Hbg Hk Hst Hl. pose proof (pg_heap _ _ _ _ _ Hpg) as Hg. pose proof (bg_block _ _ _ _ Hbg _ _ Hk) as Hgk.
  destruct (block_room _ _ _ _ _ _ _ _ Hpg Hbg Hk) as (p & b & Hp & Ea & _ & _ & _ & _ & Hb & Ho). split.
  - intros a' k' [[<- <-]|[Hne Hk']]%lookup_insert_Some.
    + destruct Hgk as [H1 H2 H3]. split; [destruct H1; by split | by rewrite Hl | by eapply put_byte_eq].
    + pose proof (bg_block _ _ _ _ Hbg _ _ Hk') as Hgk'. eapply (block_good_put s _ _ _ _ _ 0); [done | left | lia].
      destruct (block_address _ _ _ _ _ Hg _ _ (bk_place _ _ _ _ _ Hgk')) as (_ & _ & _ & _ & _ & Hl' & _).
      eapply put_byte_ne; [done | | exact (proj1 Ho) | apply block_offset; lia].
      eapply (blocks_differ others reference s ps ss Hg a a'); [apply Hgk | apply Hgk' | done].
  - intros a1 a2 k1 k2 H1 H2 Hne.
    assert (Hold : forall a' k', <[a := with_live lv k]> bl !! a' = Some k' -> exists k0, bl !! a' = Some k0 /\ lines_of k0 = lines_of k').
    { intros a' k' [[<- <-]|[_ Hk']]%lookup_insert_Some; [by exists k | by exists k']. }
    destruct (Hold _ _ H1) as (k1' & H1' & <-), (Hold _ _ H2) as (k2' & H2' & <-). by eapply (bg_apart _ _ _ _ Hbg).
Qed.

Lemma take_free_spec others reference s ps ss bl a k :
  pages_good others reference s ps ss -> blocks_good s ps ss bl -> bl !! a = Some k -> live k = false ->
  _free_buckets s !! bucket k = Some a ->
  exists s', take_free (Z.of_nat (bucket k)) a s = Ok (a, s') /\ pages_good others reference s' ps ss /\ blocks_good s' ps ss (<[a := with_live true k]> bl).
Proof.
  intros Hpg Hbg Hk Hlv Hbucket. pose proof (bg_block _ _ _ _ Hbg _ _ Hk) as [[_ _ Hb] _ Hst]. rewrite Hlv in Hst.
  destruct (block_room _ _ _ _ _ _ _ _ Hpg Hbg Hk) as (p & bytes & _ & Ea & Hp0 & _ & Hline & _ & Hbytes & Ho).
  destruct (bg_free _ _ _ _ Hbg _ Hb) as (h & l & Hh & Hc & Hnd & Hl). rewrite Hbucket in Hh. injection Hh as <-.
  destruct l as [|a0 l]; [cbn in Hc; lia|]. destruct Hc as (<- & Ha0 & f & Hf & Hc). apply list.NoDup_cons in Hnd as [Hal Hnd].
  destruct (bg_link _ _ _ _ Hbg _ _ Hk Hlv) as [n Hf']. assert (f = mk_free n (status_at_block ss k)) as -> by congruence. cbn [next] in Hc.
  destruct (flags_spec _ Hb) as [_ Hflags]. destruct (Hflags false) as (Hmask & _ & Hfreed).
  unfold take_free, get. unfold mbind at 1, M_bind at 1. rewrite Hf, (lift_step _ (mk_free n (status_at_block ss k))) by done. unfold modify at 1. unfold mbind at 1, M_bind at 1.
  cbn [status_byte_ptr next]. set (s1 := with_free _ _ s).
  rewrite (bind_step _ _ _ _ _ (status_at_spec s1 (status_at_block ss k) _ Hst (proj1 Ho))), Hfreed, (lift_step _ tt) by done.
  rewrite Hmask, (bind_step _ _ _ _ _ (set_status_spec s1 _ _ bytes Hbytes Ho)). set (s' := with_memory _ _ _ s1). exists s'. split; [done|].
  destruct (flip_good others reference s s' ps ss bl a k true Hpg Hbg Hk ltac:(done) ltac:(done)) as [Hgood Hapart].
  split; [by eapply pages_good_put; [exact Hpg | done | done | cbn; pose proof (pg_lines _ _ _ _ _ Hpg); pose proof header_lines_range; lia]|].
  assert (Hlive : forall a' k', <[a := with_live true k]> bl !! a' = Some k' -> live k' = false -> a' <> a /\ bl !! a' = Some k').
  { intros a' k' [[<- <-]|[Hne Hk']]%lookup_insert_Some Hlv'; done. }
  split; [exact Hgood | exact Hapart | |].
  - intros b Hb'. destruct (decide (b = bucket k)) as [->|Hne].
    + exists n, l. cbn. rewrite Nat2Z.id, list_lookup_insert_eq by (by eapply lookup_lt_Some). split_and!; try done.
      * eapply free_chain_agree, Hc. intros c Hcl. rewrite lookup_delete_ne; [done|]. by intros <-.
      * intros c. split.
        -- intros Hcl. destruct (proj1 (Hl c)) as (k' & Hk' & E & Hlv'); [by right|]. exists k'. split; [|done]. rewrite lookup_insert_ne; [done|]. by intros <-.
        -- intros (k' & Hk' & E & Hlv'). destruct (Hlive _ _ Hk' Hlv') as [Hca Hold]. assert (Hin : c ∈ a :: l) by (apply Hl; by exists k'). by apply elem_of_cons in Hin as [? | ?].
    + destruct (bg_free _ _ _ _ Hbg _ Hb') as (h & l' & Hh & Hc' & Hnd' & Hl'). exists h, l'. cbn. rewrite Nat2Z.id, list_lookup_insert_ne by done.
      assert (Hal' : a ∉ l') by (intros (k' & Hk' & E & _)%Hl'; congruence). split_and!; try done.
      * eapply free_chain_agree, Hc'. intros c Hcl. rewrite lookup_delete_ne; [done|]. by intros <-.
      * intros c. rewrite Hl'. split; intros (k' & Hk' & E & Hlv').
        -- exists k'. split; [|done]. rewrite lookup_insert_ne; [done|]. intros <-. congruence.
        -- destruct (Hlive _ _ Hk' Hlv'). by exists k'.
  - intros a' k' Hk' Hlv'. destruct (Hlive _ _ Hk' Hlv') as [Hca Hold]. cbn. rewrite lookup_delete_ne by done. by apply (bg_link _ _ _ _ Hbg).
Qed.

(** Up to the status of the block that is freed *)
Lemma deallocate_start others reference s ps ss bl a k :
  pages_good others reference s ps ss -> blocks_good s ps ss bl -> bl !! a = Some k ->
  exists rest : Z -> M t unit, _deallocate a s = (_ ← lift (require (live k) assertion_failed); rest (Z.of_nat (bucket k))) s /\
    get_reference_pointer a s = Ok (reference, s) /\
    rest = (fun bucket_index =>
      head ← bucket_at bucket_index;
      _ ← modify (fun s => with_free (<[Z.to_nat bucket_index := a]> (_free_buckets s)) (<[a := mk_free head (status_at_block ss k)]> (free_blocks s)) s);
      set_status (status_at_block ss k) (Z.lor bucket_index flag_freed)).
Proof.
  intros Hpg Hbg Hk. destruct (block_room _ _ _ _ _ _ _ _ Hpg Hbg Hk) as (p & bytes & _ & Ea & Hp0 & Hpd & Hline & Hpage & Hbytes & Ho).
  pose proof (bg_block _ _ _ _ Hbg _ _ Hk) as [[_ _ Hb] _ Hst].
  assert (Hfind : _find_page a = p) by (rewrite Ea; apply in_page; [done | lia]).
  eexists. split; [|split; [|reflexivity]].
  - unfold _deallocate. rewrite Hfind. unfold page_at. unfold mbind at 1, M_bind at 1. rewrite Hpage. cbn [of_option mbind result_bind memory_status_block].
    replace (Z.shiftr (a - p) cache_line_shift) with (line k).
    2: { unfold cache_line_shift. rewrite Z.shiftr_div_pow2 by lia. change (2 ^ 4) with 16. rewrite Ea. zlia. }
    assert (add (status_of ss (page_no k) 0) (line k) = status_at_block ss k) as -> by (unfold add, status_at_block, status_of; cbn [status_page offset]; f_equal; lia).
    rewrite (bind_step _ _ _ _ _ (status_at_spec s _ _ Hst (proj1 Ho))). destruct (flags_spec _ Hb) as [_ Hflags]. destruct (Hflags (live k)) as (Hmask & Ha & _).
    by rewrite Ha, negb_involutive, Hmask.
  - unfold get_reference_pointer. rewrite Hfind. unfold page_at. unfold mbind at 1, M_bind at 1. by rewrite Hpage.
Qed.

Lemma deallocate_spec others reference s ps ss bl a k :
  pages_good others reference s ps ss -> blocks_good s ps ss bl -> bl !! a = Some k -> live k = true ->
  exists s', _deallocate a s = Ok (tt, s') /\ pages_good others reference s' ps ss /\ blocks_good s' ps ss (<[a := with_live false k]> bl) /\
    _free_buckets s' !! bucket k = Some a.
Proof.
  intros Hpg Hbg Hk Hlv. destruct (deallocate_start _ _ _ _ _ _ _ _ Hpg Hbg Hk) as (rest & E & _ & Erest).
  destruct (block_room _ _ _ _ _ _ _ _ Hpg Hbg Hk) as (p & bytes & _ & Ea & Hp0 & _ & Hline & _ & Hbytes & Ho).
  pose proof (bg_block _ _ _ _ Hbg _ _ Hk) as [[_ _ Hb] _ _].
  destruct (bg_free _ _ _ _ Hbg _ Hb) as (h & l & Hh & Hc & Hnd & Hl).
  rewrite E, Hlv, (lift_step _ tt), Erest by done. unfold bucket_at. unfold mbind at 1, M_bind at 1. rewrite Nat2Z.id, Hh. cbn [of_option mbind result_bind].
  unfold modify at 1. unfold mbind at 1, M_bind at 1. set (s1 := with_free _ _ s).
  rewrite (set_status_spec s1 _ _ bytes Hbytes Ho). set (s' := with_memory _ _ _ s1). exists s'. split; [done|].
  destruct (flip_good others reference s s' ps ss bl a k false Hpg Hbg Hk ltac:(done) ltac:(done)) as [Hgood Hapart].
  assert (Hlt : (bucket k < length (_free_buckets s))%nat) by (by eapply lookup_lt_Some).
  assert (Hal : forall (b : nat) (l' : list Z), (forall c, c ∈ l' <-> exists k', bl !! c = Some k' /\ bucket k' = b /\ live k' = false) -> a ∉ l').
  { intros b l' Hl' (k' & Hk' & _ & Hlv')%Hl'. congruence. }
  split; [by eapply pages_good_put; [exact Hpg | done | done | cbn; pose proof (pg_lines _ _ _ _ _ Hpg); pose proof header_lines_range; lia]|].
  split; [|cbn; by rewrite list_lookup_insert_eq]. split; [exact Hgood | exact Hapart | |].
  - intros b Hb'. destruct (decide (b = bucket k)) as [->|Hne].
    + exists a, (a :: l). cbn [_free_buckets s1 with_free s' with_memory]. rewrite list_lookup_insert_eq by done. split_and!; [done | | |].
      * split; [done|]. split; [lia|]. exists (mk_free h (status_at_block ss k)). cbn. rewrite lookup_insert_eq. split; [done|].
        eapply free_chain_agree, Hc. intros c Hcl. rewrite lookup_insert_ne; [done|]. intros <-. by apply (Hal _ _ Hl).
      * apply list.NoDup_cons. split; [by apply (Hal _ _ Hl) | done].
      * intros c. rewrite elem_of_cons, Hl. split.
        -- intros [->|(k' & Hk' & Ek & Hlv')]; [exists (with_live false k); by rewrite lookup_insert_eq|]. exists k'. split; [|done].
           rewrite lookup_insert_ne; [done|]. intros <-. congruence.
        -- intros (k' & [[<- <-]|[_ Hk']]%lookup_insert_Some & Ek & Hlv'); [by left | right; by exists k'].
    + destruct (bg_free _ _ _ _ Hbg _ Hb') as (h' & l' & Hh' & Hc' & Hnd' & Hl'). exists h', l'. cbn [_free_buckets s1 with_free s' with_memory].
      rewrite list_lookup_insert_ne by done. split_and!; [done | | done |].
      * eapply free_chain_agree, Hc'. intros c Hcl. cbn. rewrite lookup_insert_ne; [done|]. intros <-. by apply (Hal _ _ Hl').
      * intros c. rewrite Hl'. split; intros (k' & Hk' & Ek & Hlv').
        -- exists k'. split; [|done]. rewrite lookup_insert_ne; [done|]. intros <-. congruence.
        -- apply lookup_insert_Some in Hk' as [[<- <-]|[_ Hk']]; [done | by exists k'].
  - intros a' k' [[<- <-]|[Hne Hk']]%lookup_insert_Some Hlv'; cbn [free_blocks s1 with_free s' with_memory].
    + exists h. by rewrite lookup_insert_eq.
    + rewrite lookup_insert_ne by done. by apply (bg_link _ _ _ _ Hbg).
Qed.

(** *** A request *)
Lemma blocks_good_grown others reference s s' ps ss ss' bl x :
  heap_good others reference s ps ss -> blocks_good s ps ss bl ->
  _free_buckets s' = _free_buckets s -> free_blocks s' = free_blocks s ->
  (forall i l, (i < length ps)%nat -> status_of ss' i l = status_of ss i l) ->
  (forall p, status_page p ∈ ss -> status_byte s' p = status_byte s p) -> blocks_good s' (ps ++ [x]) ss' bl.
Proof.
  intros Hg [Hblock Hapart Hfree Hlink] E1 E2 Hst Hby.
  assert (Hat : forall a k, bl !! a = Some k -> (page_no k < length ps)%nat /\ status_at_block ss' k = status_at_block ss k).
  { intros a k Hk. destruct (bk_page _ _ _ (bk_place _ _ _ _ _ (Hblock a k Hk))) as (p & Hp & _). apply lookup_lt_Some in Hp. split; [done | by apply Hst]. }
  split; [| exact Hapart | by rewrite E1, E2 |].
  - intros a k Hk. destruct (Hblock a k Hk) as [[(p & Hp & Ea) H2 H3] H4 H5]. destruct (Hat a k Hk) as [Hlt E]. split.
    + split; try done. exists p. split; [|done]. by apply lookup_app_l_Some.
    + rewrite length_app. cbn. lia.
    + rewrite E, Hby; [done|]. cbn [status_page status_at_block status_of]. unfold status_at_block, status_of. cbn [status_page].
      eapply list_elem_of_lookup_2, list_lookup_lookup_total_lt, page_status; done.
  - intros a k Hk Hlv. rewrite E2, (proj2 (Hat a k Hk)). by apply Hlink.
Qed.

Definition line_count (n : Z) : Z := Z.shiftr (u32 (n + cache_line_mask)) cache_line_shift.

(** The bucket for a request of [n] bytes *)
Definition bucket_for (n : Z) (b : nat) : Prop := 0 <= n <= max_size /\ _find_bucket (line_count n) = Ok (Z.of_nat b, bucket_size b).

Lemma request_lines n : 0 <= n <= max_size -> 0 <= line_count n <= 96 /\ n <= 16 * line_count n.
Proof.
  unfold line_count.
  unfold max_size, max_cache_line_size, cache_line_size, cache_line_mask, cache_line_shift. intros Hn. unfold cache_line_size.
  rewrite u32_small by (unfold in_u; lia). rewrite Z.shiftr_div_pow2 by lia. zlia.
Qed.

Lemma bucket_for_some n : 0 <= n <= max_size -> exists b, bucket_for n b /\ (b < 18)%nat /\ n <= 16 * bucket_size b.
Proof.
  intros Hn. destruct (request_lines n Hn) as [Hl Hle]. destruct (find_bucket_spec _ Hl) as (b & E & Hb & Hfit). exists b.
  split; [done|]. split; [done | lia].
Qed.

Lemma allocate_start s answers n b h : bucket_for n b -> (b < 18)%nat -> _free_buckets s !! b = Some h ->
  _allocate pointer_size answers n s =
    (if negb (h =? 0) then take_free (Z.of_nat b) h else
     used ← gets _cache_lines_used_in_top_page;
     ok ← (if cache_lines_per_page <? u32 (used + bucket_size b) then _alloc_new_top_page pointer_size answers else mret true);
     if negb ok then mret 0 else cut (Z.of_nat b) (bucket_size b)) s.
Proof.
  intros [Hn E] Hb Hh. unfold _allocate. rewrite (lift_step _ tt) by (by rewrite (proj2 (Z.leb_le n max_size)) by lia).
  cbv zeta. fold (line_count n). rewrite (lift_step _ _ _ _ E), (lift_step _ tt) by (by rewrite (proj2 (Z.ltb_lt (Z.of_nat b) num_buckets)) by (unfold num_buckets; lia)).
  unfold bucket_at. unfold mbind at 1, M_bind at 1. by rewrite Nat2Z.id, Hh.
Qed.

Lemma small_allocate_spec others reference s ps ss bl answers n :
  pages_good others reference s ps ss -> blocks_good s ps ss bl -> granted s answers -> 0 <= n <= max_size ->
  exists a s' ps' ss' k, _allocate pointer_size answers n s = Ok (a, s') /\ pages_good others reference s' ps' ss' /\ blocks_good s' ps' ss' (<[a := k]> bl) /\
    live k = true /\ bucket_for n (bucket k) /\ n <= 16 * lines_of k /\ a <> 0 /\ (forall k0, bl !! a = Some k0 -> live k0 = false).
Proof.
  intros Hpg Hbg Hgr Hn. destruct (bucket_for_some n Hn) as (b & Hfor & Hb & Hfit).
  destruct (bg_free _ _ _ _ Hbg b Hb) as (h & l & Hh & Hc & Hnd & Hl). rewrite (allocate_start s answers n b h Hfor Hb Hh). destruct (Z.eqb_spec h 0) as [->|Hh0]; cbn [negb].
  2: { destruct l as [|h' l]; [done|]. destruct Hc as (-> & _). destruct (proj1 (Hl h') ltac:(left)) as (k & Hk & <- & Hlv).
       destruct (take_free_spec _ _ _ _ _ _ _ _ Hpg Hbg Hk Hlv Hh) as (s' & E & Hpg' & Hbg').
       exists h', s', ps, ss, (with_live true k). split_and!; try done. intros k0 Hk0. congruence. }
  unfold gets at 1. unfold mbind at 1, M_bind at 1. set (used := _cache_lines_used_in_top_page s).
  pose proof (bucket_size_range _ Hb). pose proof header_lines_range. pose proof (pg_lines _ _ _ _ _ Hpg) as Hl'. fold used in Hl'.
  rewrite u32_small by (unfold in_u; lia). change cache_lines_per_page with 256. destruct (Z.ltb_spec 256 (used + bucket_size b)) as [Hnew|Hroom].
  - destruct (alloc_new_top_page_spec _ _ _ _ _ _ Hpg Hgr) as (s1 & ss1 & E & Hpg1 & Hl1 & E1 & E2 & Hst & Hby).
    rewrite (bind_step _ _ _ _ _ E). cbn [negb].
    pose proof (blocks_good_grown _ _ _ s1 _ _ ss1 bl answers.1 (pg_heap _ _ _ _ _ Hpg) Hbg E1 E2 Hst Hby) as Hbg1.
    destruct (small_cut_spec _ _ s1 _ ss1 bl b Hpg1 Hbg1 Hb ltac:(by destruct ps) ltac:(lia)) as (a & s' & k & Ec & Hpg' & Hn' & <- & Hlv & Hbg' & Ha0).
    exists a, s', (ps ++ [answers.1]), ss1, k. split_and!; try done. intros k0 Hk0. congruence.
  - unfold mret at 1, M_ret at 1. unfold mbind at 1, M_bind at 1. cbn [negb].
    destruct (small_cut_spec _ _ s _ ss bl b Hpg Hbg Hb) as (a & s' & k & Ec & Hpg' & Hn' & <- & Hlv & Hbg' & Ha0); [|done|].
    { destruct Hl' as [[_ Hl']|[? _]]; [lia | done]. }
    exists a, s', ps, ss, k. split_and!; try done. intros k0 Hk0. congruence.
Qed.

(** *** The end of the pages *)
Lemma deallocate_page_spec s p n : 0 < p -> zone_allocator.os (_allocator s) !! p = Some n ->
  deallocate_page p s = Ok (tt, with_memory (zone_allocator.with_os (delete p (zone_allocator.os (_allocator s))) (_allocator s))
    (delete p (pages s)) (delete p (status s)) s).
Proof.
  intros Hp Hn. unfold deallocate_page, zone_allocator.deallocate_pages. destruct (Z.eqb_spec p 0); [lia|].
  rewrite bool_decide_eq_true_2 by (by eexists). done.
Qed.

Lemma pop_good others reference s s' ps ss ss' p :
  heap_good others reference s (ps ++ [p]) ss ->
  ss' = ss /\ (length ps mod 16 <> 0)%nat \/ (exists S, ss = ss' ++ [S] /\ (length ps mod 16 = 0)%nat) ->
  (forall q, zone_allocator.os (_allocator s') !! q = if decide (q = p \/ q ∈ ss /\ q ∉ ss') then None else zone_allocator.os (_allocator s) !! q) ->
  (forall q, pages s' !! q = if decide (q = p \/ q ∈ ss /\ q ∉ ss') then None else pages s !! q) ->
  (forall q, status s' !! q = if decide (q = p \/ q ∈ ss /\ q ∉ ss') then None else status s !! q) ->
  _top_page s' = top_of ps -> heap_good others reference s' ps ss'.
Proof.
  intros Hg Hss Hos Hpages Hst Htop. pose proof (hg_nodup _ _ _ _ _ Hg) as Hn. apply list.NoDup_app in Hn as (Hn1 & Hn2 & Hn3).
  apply list.NoDup_app in Hn1 as (Hn4 & Hn5 & _).
  assert (Hsub : forall q, q ∈ ss' -> q ∈ ss) by (intros q Hq; destruct Hss as [[-> _]|(S & -> & _)]; [done | apply elem_of_app; by left]).
  assert (Hkeep : forall q, q ∈ ps ++ ss' -> ~ (q = p \/ q ∈ ss /\ q ∉ ss')).
  { intros q [Hq|Hq]%elem_of_app [->|[H1 H2]]; [by apply (Hn5 _ Hq); left | by apply (Hn2 q); [apply elem_of_app; left|] | |done].
    apply (Hn2 p); [apply elem_of_app; right; by left | by apply Hsub]. }
  pose proof (hg_count _ _ _ _ _ Hg) as Hcount. rewrite length_app in Hcount. cbn [length] in Hcount.
  pose proof (Nat.div_mod (length ps) 16 ltac:(done)). pose proof (Nat.div_mod (length ps + 15) 16 ltac:(done)).
  pose proof (Nat.div_mod (length ps + 1 + 15) 16 ltac:(done)). pose proof (Nat.mod_upper_bound (length ps) 16 ltac:(done)).
  pose proof (Nat.mod_upper_bound (length ps + 15) 16 ltac:(done)). pose proof (Nat.mod_upper_bound (length ps + 1 + 15) 16 ltac:(done)).
  assert (Hlen : length ss' = ((length ps + 15) / 16)%nat).
  { destruct Hss as [[-> Hm]|(S & -> & Hm)]; [lia|]. rewrite length_app in Hcount. cbn [length] in Hcount. lia. }
  split.
  - intros i q Hi. assert (Hq : q ∈ ps) by (by eapply list_elem_of_lookup_2). pose proof (lookup_lt_Some _ _ _ Hi).
    rewrite Hpages, decide_False by (apply Hkeep, elem_of_app; by left).
    rewrite (hg_page _ _ _ _ _ Hg i q) by (by apply lookup_app_l_Some). rewrite take_app_le by lia. do 2 f_equal.
    destruct Hss as [[-> _]|(S & -> & _)]; [done|]. apply status_of_app. pose proof (Nat.div_mod i 16 ltac:(done)). pose proof (Nat.mod_upper_bound i 16 ltac:(done)). lia.
  - intros q. rewrite Hpages. destruct (decide _) as [Hd|Hd]; [by intros []|]. intros Hq%(hg_pages _ _ _ _ _ Hg).
    apply elem_of_app in Hq as [Hq|Hq%list_elem_of_singleton]; [done|]. destruct Hd. by left.
  - done.
  - intros q. rewrite Hst. destruct (decide _) as [Hd|Hd].
    + split; [by intros []|]. intros Hq. destruct (Hkeep q); [|done]. apply elem_of_app. by right.
    + rewrite (hg_status _ _ _ _ _ Hg). split; [|apply Hsub]. intros Hq. destruct (decide (q ∈ ss')); [done|]. destruct Hd. by right.
  - intros q b. rewrite Hst. destruct (decide _); [done|]. apply (hg_bytes _ _ _ _ _ Hg).
  - done.
  - intros q Hq. rewrite Hos, decide_False by (by apply Hkeep). apply (hg_owned _ _ _ _ _ Hg). rewrite !elem_of_app in *. naive_solver.
  - apply list.NoDup_app. split; [done|]. split.
    + intros q Hq Hq'. apply (Hn2 q); [apply elem_of_app; by left | by apply Hsub].
    + destruct Hss as [[-> _]|(S & -> & _)]; [done|]. by apply list.NoDup_app in Hn3 as (? & _).
  - intros q Hq. rewrite Hos. destruct (decide _) as [Hd|Hd].
    + symmetry. apply (hg_owned _ _ _ _ _ Hg q). rewrite !elem_of_app, list_elem_of_singleton. destruct Hd as [->|[Hd _]]; [left; by right | by right].
    + apply (hg_others _ _ _ _ _ Hg). rewrite !elem_of_app, list_elem_of_singleton in *. intros [[Hq'|Hq']|Hq']; [tauto | tauto |].
      destruct (decide (q ∈ ss')); tauto.
Qed.

Lemma page_aligned p n : (4096 | p) -> 0 <= n < 4096 -> _is_page_aligned (p + n) = (n =? 0).
Proof.
  intros [k ->] Hn. unfold _is_page_aligned. rewrite page_offset. by rewrite Z.add_comm, Z.mod_add, Z.mod_small by lia.
Qed.

Lemma small_destroy_spec others reference ps : forall fuel s ss, heap_good others reference s ps ss -> (length ps <= fuel)%nat ->
  exists s', destroy_loop fuel s = Ok (tt, s') /\ heap_good others reference s' [] [] /\ _reference_pointer s' = _reference_pointer s.
Proof.
  induction ps as [|p ps IH] using rev_ind; intros fuel s ss Hg Hf.
  - exists s. assert (ss = []) as -> by (pose proof (hg_count _ _ _ _ _ Hg) as Hc; destruct ss; [done | cbn in Hc; lia]).
    split; [|done]. pose proof (hg_top _ _ _ _ _ Hg) as Ht. destruct fuel; cbn [destroy_loop]; unfold gets, mbind, M_bind; by rewrite Ht.
  - rewrite length_app, Nat.add_1_r in Hf. destruct fuel as [|fuel]; [lia|]. set (i := length ps) in *.
    assert (Hi : (ps ++ [p]) !! i = Some p) by by apply list_lookup_middle.
    destruct (page_fine _ _ _ _ _ Hg _ _ Hi) as (Hp0 & Hpd & Hs & Hpage). rewrite take_app_length' in Hpage by done.
    pose proof (list_lookup_lookup_total_lt _ _ Hs) as HS. set (S := ss !!! (i / 16)%nat) in *. pose proof (list_elem_of_lookup_2 _ _ _ HS) as HSin.
    destruct (hg_owned _ _ _ _ _ Hg S) as (HS0 & HSd & HSos & _); [apply elem_of_app; by right|].
    destruct (hg_owned _ _ _ _ _ Hg p) as (_ & _ & Hpos & _); [apply elem_of_app; left; apply elem_of_app; right; by left|].
    assert (HSp : S <> p).
    { intros E. pose proof (hg_nodup _ _ _ _ _ Hg) as Hn. apply list.NoDup_app in Hn as (_ & Hn & _). apply (Hn p); [apply elem_of_app; right; by left | by rewrite <- E]. }
    assert (HSpages : pages s !! S = None).
    { apply eq_None_not_Some. intros Hin%(hg_pages _ _ _ _ _ Hg). pose proof (hg_nodup _ _ _ _ _ Hg) as Hn. apply list.NoDup_app in Hn as (_ & Hn & _). by apply (Hn S). }
    assert (Hpst : status s !! p = None).
    { apply eq_None_not_Some. intros Hin%(hg_status _ _ _ _ _ Hg). pose proof (hg_nodup _ _ _ _ _ Hg) as Hn. apply list.NoDup_app in Hn as (_ & Hn & _).
      apply (Hn p); [apply elem_of_app; right; by left | done]. }
    pose proof (Nat.mod_upper_bound i 16 ltac:(done)) as Hmi. pose proof (Nat.div_mod i 16 ltac:(done)) as Hdi.
    cbn [destroy_loop]. unfold gets at 1. unfold mbind at 1, M_bind at 1. rewrite (hg_top _ _ _ _ _ Hg), top_of_snoc. destruct (Z.eqb_spec p 0); [lia|].
    unfold page_at. unfold mbind at 1, M_bind at 1. rewrite Hpage. cbn [of_option mbind result_bind memory_status_block prev]. cbv zeta.
    assert (Haddr : address (status_of ss i 0) = S + 256 * Z.of_nat (i mod 16)) by (unfold address, status_of; cbn [status_page offset]; fold S; lia).
    rewrite Haddr, page_aligned by (done || lia). destruct (Nat.eq_dec (i mod 16) 0)%nat as [Hm|Hm].
    + rewrite Hm. change (256 * Z.of_nat 0) with 0. rewrite Z.add_0_r, Z.eqb_refl, (bind_step _ _ _ _ _ (deallocate_page_spec s S 4096 HS0 HSos)).
      set (s1 := with_memory _ _ _ s). rewrite (bind_step _ _ _ _ _ (deallocate_page_spec s1 p 4096 Hp0 ltac:(cbn; by rewrite lookup_delete_ne))).
      set (s2 := with_memory _ _ _ s1). unfold modify at 1. unfold mbind at 1, M_bind at 1. set (s3 := with_top _ s2).
      assert (Hss : exists ss', ss = ss' ++ [S]).
      { exists (take (i / 16)%nat ss). rewrite <- (take_drop (i / 16)%nat ss) at 1. f_equal. rewrite (drop_S _ _ _ HS). f_equal. apply drop_ge.
        rewrite (hg_count _ _ _ _ _ Hg), length_app. cbn [length]. fold i. pose proof (Nat.div_mod (i + 1 + 15)%nat 16 ltac:(done)).
        pose proof (Nat.mod_upper_bound (i + 1 + 15)%nat 16 ltac:(done)). lia. }
      destruct Hss as [ss' Ess]. assert (HSss : S ∉ ss').
      { pose proof (hg_nodup _ _ _ _ _ Hg) as Hn. apply list.NoDup_app in Hn as (_ & _ & Hn). rewrite Ess in Hn. apply list.NoDup_app in Hn as (_ & Hn & _).
        intros Hin. apply (Hn S Hin). by left. }
      assert (Hgone : forall q, q = p \/ q ∈ ss /\ q ∉ ss' <-> q = p \/ q = S).
      { intros q. rewrite Ess, elem_of_app, list_elem_of_singleton. split; [tauto | intros [-> | ->]; tauto]. }
      assert (Hdel : forall A (m : gmap Z A) q, delete p (delete S m) !! q = if decide (q = p \/ q ∈ ss /\ q ∉ ss') then None else m !! q).
      { intros A m q. destruct (decide (q = p \/ q ∈ ss /\ q ∉ ss')) as [Hd|Hd]; rewrite Hgone in Hd.
        - destruct (decide (q = p)) as [->|]; [by rewrite lookup_delete_eq|]. destruct Hd as [? | ->]; [done|]. by rewrite lookup_delete_ne, lookup_delete_eq.
        - by rewrite !lookup_delete_ne by (intros <-; tauto). }
      destruct (IH fuel s3 ss') as (s' & E & Hg' & Hr); [|lia | by exists s'].
      eapply (pop_good others reference s s3 ps ss ss' p Hg); [right; by exists S | apply Hdel | apply Hdel | apply Hdel | done].
    + destruct (Z.eqb_spec (256 * Z.of_nat (i mod 16)) 0); [lia|]. unfold mret at 1, M_ret at 1. unfold mbind at 1, M_bind at 1.
      rewrite (bind_step _ _ _ _ _ (deallocate_page_spec s p 4096 Hp0 Hpos)). set (s2 := with_memory _ _ _ s).
      unfold modify at 1. unfold mbind at 1, M_bind at 1. set (s3 := with_top _ s2).
      assert (Hgone : forall q, q = p \/ q ∈ ss /\ q ∉ ss <-> q = p) by (intros q; tauto).
      assert (Hdel : forall A (m : gmap Z A) q, delete p m !! q = if decide (q = p \/ q ∈ ss /\ q ∉ ss) then None else m !! q).
      { intros A m q. destruct (decide (q = p \/ q ∈ ss /\ q ∉ ss)) as [Hd|Hd]; rewrite Hgone in Hd;
          [subst q; by rewrite lookup_delete_eq | by rewrite lookup_delete_ne by (by intros <-)]. }
      destruct (IH fuel s3 ss) as (s' & E & Hg' & Hr); [|lia | by exists s'].
      eapply (pop_good others reference s s3 ps ss ss p Hg); [by left | apply Hdel | apply Hdel | apply Hdel | done].
Qed.

(** ** Programs *)

(** The allocators a program makes, with the blocks it owns and the sizes it asked for; [others] is
    the other memory of the system. *)
Inductive made (others : gmap Z Z) (reference : Z) : t -> gmap Z Z -> Prop :=
  | made_new zone : zone_allocator.os zone = others -> made others reference (make zone reference) ∅
  | made_allocate s owned answers n a s' : made others reference s owned -> granted s answers -> 0 <= n <= max_size ->
      _allocate pointer_size answers n s = Ok (a, s') -> made others reference s' (<[a := n]> owned)
  | made_deallocate s owned a s' : made others reference s owned -> is_Some (owned !! a) ->
      _deallocate a s = Ok (tt, s') -> made others reference s' (delete a owned)
  | made_clear s owned s' : made others reference s owned -> clear s = Ok (tt, s') -> made others reference s' ∅.

Definition state_good others reference s (owned : gmap Z Z) : Prop := exists ps ss bl,
  pages_good others reference s ps ss /\ blocks_good s ps ss bl /\
  (forall a n, owned !! a = Some n -> exists k, bl !! a = Some k /\ live k = true /\ bucket_for n (bucket k) /\ n <= 16 * lines_of k) /\
  (forall a k, bl !! a = Some k -> live k = true -> is_Some (owned !! a)).

Lemma empty_blocks s : _free_buckets s = replicate (Z.to_nat num_buckets) 0 -> blocks_good s [] [] ∅.
Proof.
  intros E. split; [by intros a k ?%lookup_empty_Some | by intros a a' k k' ?%lookup_empty_Some | | by intros a k ?%lookup_empty_Some].
  intros b Hb. exists 0, []. rewrite E. split; [by apply lookup_replicate_2|]. split; [done|]. split; [by apply NoDup_nil_2|].
  intros a. split; [by intros ?%elem_of_nil | by intros (k & ?%lookup_empty_Some & _)].
Qed.

Lemma init_good others reference zone : zone_allocator.os zone = others -> state_good others reference (make zone reference) ∅.
Proof.
  intros <-. exists [], [], ∅. split; [|split; [by apply empty_blocks | by split]]. split; [|done | done | done | by left].
  split; cbn [pages status make app].
  - by intros [|i].
  - intros p [? ?%lookup_empty_Some]. done.
  - done.
  - intros p. split; [by intros [? ?%lookup_empty_Some] | by intros ?%elem_of_nil].
  - by intros p b ?%lookup_empty_Some.
  - done.
  - by intros p ?%elem_of_nil.
  - by apply NoDup_nil_2.
  - done.
Qed.

Lemma small_clear_good others reference s owned : state_good others reference s owned ->
  exists s', clear s = Ok (tt, s') /\ state_good others reference s' ∅ /\ zone_allocator.os (_allocator s') = others /\ pages s' = ∅ /\ status s' = ∅.
Proof.
  intros (ps & ss & bl & Hpg & _). pose proof (pg_heap _ _ _ _ _ Hpg) as Hg.
  destruct (small_destroy_spec others reference ps (size (pages s)) s ss Hg) as (s1 & E & Hg1 & Hr).
  { pose proof (hg_nodup _ _ _ _ _ Hg) as Hn. apply list.NoDup_app in Hn as (Hn & _ & _).
    rewrite <- (size_list_to_set (C := gset Z)), <- size_dom by done. apply subseteq_size. intros p Hp%elem_of_list_to_set.
    apply list_elem_of_lookup in Hp as [i Hi]. apply elem_of_dom. rewrite (hg_page _ _ _ _ _ Hg _ _ Hi). by eexists. }
  unfold clear, _destroy. unfold get at 1. rewrite (bind_step _ tt s1) by exact E. unfold _init, modify. eexists. split; [done|].
  assert (He : forall A (m : gmap Z A), (forall p, is_Some (m !! p) -> p ∈ []) -> m = ∅).
  { intros A m Hm. apply map_empty. intros p. apply eq_None_not_Some. by intros ?%Hm%elem_of_nil. }
  split; [|split; [|split]].
  - exists [], [], ∅. split; [|split; [by apply empty_blocks | by split]]. split; [|cbn; by rewrite Hr, (pg_reference _ _ _ _ _ Hpg) | done | done | by left].
    destruct Hg1 as [H1 H2 H3 H4 H5 H6 H7 H8 H9]. by split.
  - apply map_eq. intros p. apply (hg_others _ _ _ _ _ Hg1), not_elem_of_nil.
  - apply He, (hg_pages _ _ _ _ _ Hg1).
  - apply He. intros p. apply (hg_status _ _ _ _ _ Hg1).
Qed.

Lemma small_allocate_good others reference s owned answers n : state_good others reference s owned -> granted s answers -> 0 <= n <= max_size ->
  exists a s', _allocate pointer_size answers n s = Ok (a, s') /\ state_good others reference s' (<[a := n]> owned) /\ a <> 0 /\ owned !! a = None.
Proof.
  intros (ps & ss & bl & Hpg & Hbg & Howned & Hlive) Hgr Hn.
  destruct (small_allocate_spec _ _ _ _ _ _ _ _ Hpg Hbg Hgr Hn) as (a & s' & ps' & ss' & k & E & Hpg' & Hbg' & Hlv & Hfor & Hfit & Ha0 & Hold).
  assert (Hnone : owned !! a = None).
  { destruct (owned !! a) as [m|] eqn:Hm; [|done]. destruct (Howned _ _ Hm) as (k0 & Hk0 & Hlv0 & _). specialize (Hold _ Hk0). congruence. }
  exists a, s'. split; [done|]. split; [|done]. exists ps', ss', (<[a := k]> bl). split_and!; try done.
  - intros a' m [[<- <-]|[Hne Hm]]%lookup_insert_Some; [exists k; by rewrite lookup_insert_eq|]. rewrite lookup_insert_ne by done. by apply Howned.
  - intros a' k' [[<- <-]|[Hne Hk']]%lookup_insert_Some Hlv'; [by rewrite lookup_insert_eq|]. rewrite lookup_insert_ne by done. by eapply Hlive.
Qed.

Lemma deallocate_good others reference s owned a n : state_good others reference s owned -> owned !! a = Some n ->
  exists s', _deallocate a s = Ok (tt, s') /\ state_good others reference s' (delete a owned) /\ _deallocate a s' = Fault assertion_failed /\
    forall answers, exists s'', _allocate pointer_size answers n s' = Ok (a, s'').
Proof.
  intros (ps & ss & bl & Hpg & Hbg & Howned & Hlive) Ha. destruct (Howned _ _ Ha) as (k & Hk & Hlv & Hfor & _).
  destruct (deallocate_spec _ _ _ _ _ _ _ _ Hpg Hbg Hk Hlv) as (s' & E & Hpg' & Hbg' & Hbucket).
  pose proof (lookup_insert_eq bl a (with_live false k)) as Hk'. exists s'. split; [done|]. split_and!.
  - exists ps, ss, (<[a := with_live false k]> bl). split_and!; try done.
    + intros a' m [Hne Hm]%lookup_delete_Some. rewrite lookup_insert_ne by done. by apply Howned.
    + intros a' k' [[<- <-]|[Hne Hk0]]%lookup_insert_Some Hlv'; [done|]. rewrite lookup_delete_ne by done. by eapply Hlive.
  - destruct (deallocate_start _ _ _ _ _ _ _ _ Hpg' Hbg' Hk') as (rest & E' & _). by rewrite E'.
  - intros answers. pose proof (bk_bucket _ _ _ (bk_place _ _ _ _ _ (bg_block _ _ _ _ Hbg _ _ Hk))) as Hb.
    rewrite (allocate_start s' answers n _ a Hfor ltac:(done) Hbucket).
    destruct (block_room _ _ _ _ _ _ _ _ Hpg Hbg Hk) as (p & _ & _ & Ea & Hp0 & _ & Hline & _). destruct (Z.eqb_spec a 0); [lia|]. cbn [negb].
    destruct (take_free_spec _ _ _ _ _ _ _ _ Hpg' Hbg' Hk' eq_refl Hbucket) as (s'' & E' & _). by exists s''.
Qed.

Lemma made_good others reference s owned : made others reference s owned -> state_good others reference s owned.
Proof.
  induction 1 as [zone Hz|s owned answers n a s' _ IH Hgr Hn E|s owned a s' _ IH [n Ha] E|s owned s' _ IH E].
  - by apply init_good.
  - destruct (small_allocate_good _ _ _ _ _ _ IH Hgr Hn) as (a' & s'' & E' & Hg & _). rewrite E in E'. by injection E' as -> ->.
  - destruct (deallocate_good _ _ _ _ _ _ IH Ha) as (s'' & E' & Hg & _). rewrite E in E'. by injection E' as ->.
  - destruct (small_clear_good _ _ _ _ IH) as (s'' & E' & Hg & _). rewrite E in E'. by injection E' as ->.
Qed.

(** C39. The small block allocator, over a zone whose pages are aligned: in every state a program
    of requests, releases of blocks it owns, and clears leads to, (1) every block it owns is
    aligned to a cache line, holds the bytes asked for, lies in a page the allocator has from the
    zone and behind the header of the page, through which its reference pointer is found; (2) the
    blocks are apart; (3) a request of up to [max_size] bytes succeeds if the zone has a page and
    a status page, with a block the program does not own, and a larger one is an assertion;
    (4) releasing a block succeeds, releasing it again is an assertion, and the next request for
    as much gives the same block without a page from the zone; (5) [clear] ends with every page
    given back, once, and nothing else. *)
Theorem small_blocks_are_apart others reference s owned : made others reference s owned ->
  (forall a n, owned !! a = Some n -> (16 | a) /\ get_reference_pointer a s = Ok (reference, s) /\
     exists p, p + 16 * header_lines <= a /\ a + n <= p + page_size /\
       zone_allocator.os (_allocator s) !! p = Some page_size /\ others !! p = None) /\
  (forall a b n m, owned !! a = Some n -> owned !! b = Some m -> a <> b -> a + n <= b \/ b + m <= a) /\
  (forall answers n, 0 <= n <= max_size -> granted s answers ->
     exists a s', _allocate pointer_size answers n s = Ok (a, s') /\ a <> 0 /\ owned !! a = None) /\
  (forall answers n, max_size < n -> _allocate pointer_size answers n s = Fault assertion_failed) /\
  (forall a n, owned !! a = Some n -> exists s', _deallocate a s = Ok (tt, s') /\ _deallocate a s' = Fault assertion_failed /\
     forall answers, exists s'', _allocate pointer_size answers n s' = Ok (a, s'')) /\
  (exists s', clear s = Ok (tt, s') /\ zone_allocator.os (_allocator s') = others /\ pages s' = ∅ /\ status s' = ∅).
Proof.
  intros Hm%made_good. pose proof Hm as (ps & ss & bl & Hpg & Hbg & Howned & _). pose proof (pg_heap _ _ _ _ _ Hpg) as Hg. split_and!.
  - intros a n Ha. destruct (Howned _ _ Ha) as (k & Hk & _ & _ & Hfit). pose proof (bg_block _ _ _ _ Hbg _ _ Hk) as [[_ Hl _] _ _].
    destruct (block_room _ _ _ _ _ _ _ _ Hpg Hbg Hk) as (p & _ & Hp & Ea & Hp0 & [q Hq] & _).
    destruct (hg_owned _ _ _ _ _ Hg p) as (_ & _ & Hos & Hnone); [apply elem_of_app; left; by eapply list_elem_of_lookup_2|].
    destruct (deallocate_start _ _ _ _ _ _ _ _ Hpg Hbg Hk) as (_ & _ & Hr & _). split; [exists (q * 256 + line k); lia|]. split; [done|].
    exists p. unfold page_size. split_and!; [lia | lia | done | done].
  - intros a b n m Ha Hb Hne. destruct (Howned _ _ Ha) as (k & Hk & _ & _ & Hfit), (Howned _ _ Hb) as (k' & Hk' & _ & _ & Hfit').
    destruct (bg_apart _ _ _ _ Hbg _ _ _ _ Hk Hk' Hne); lia.
  - intros answers n Hn Hgr. destruct (small_allocate_good _ _ _ _ _ _ Hm Hgr Hn) as (a & s' & E & _ & Ha0 & Hnone). by exists a, s'.
  - intros answers n Hn. unfold _allocate. by rewrite (proj2 (Z.leb_gt n max_size)).
  - intros a n Ha. destruct (deallocate_good _ _ _ _ _ _ Hm Ha) as (s' & E & _ & E' & Hre). by exists s'.
  - destruct (small_clear_good _ _ _ _ Hm) as (s' & E & _ & Hrest). by exists s'.
Qed.
End spec.

(** *** An example: three blocks, of which the second is released *)
Definition example_zone : zone_allocator.t := zone_allocator.make 0 {[ 4096 := 100 ]}.
Definition run_small {A} (m : M t A) (s : t) : t := match m s with Ok (_, s') => s' | Fault _ => s end.
Definition example_small : t :=
  run_small (_deallocate 65680) (run_small (_allocate 4 (1048576, 2097152) 7) (run_small (_allocate 4 (1048576, 2097152) 20)
    (run_small (_allocate 4 (65536, 131072) 100) (make example_zone 9)))).
Definition example_owned : gmap Z Z := delete 65680 (<[65712 := 7]> (<[65680 := 20]> (<[65552 := 100]> ∅))).

Lemma run_small_ok {A} (m : M t A) a s : fst <$> m s = Ok a -> m s = Ok (a, run_small m s).
Proof. unfold run_small. destruct (m s) as [[a' s']|]; [|done]. by intros [= ->]. Qed.

Lemma granted_pair s x y : (0 <? x) && (0 <? y) && negb (x =? y) && (x mod 4096 =? 0) && (y mod 4096 =? 0) && (zone_allocator._quota (_allocator s) =? 0) = true ->
  zone_allocator.os (_allocator s) !! x = None -> zone_allocator.os (_allocator s) !! y = None -> granted s (x, y).
Proof.
  rewrite !andb_true_iff, negb_true_iff, !Z.ltb_lt, Z.eqb_neq, !Z.eqb_eq. intros (((((Hx & Hy) & Hne) & Hmx) & Hmy) & Hq) Ox Oy. split; [done|].
  assert (Hall : forall z, 0 < z -> z mod 4096 = 0 -> zone_allocator.os (_allocator s) !! z = None ->
    0 < z /\ (4096 | z) /\ zone_allocator.os (_allocator s) !! z = None /\ (zone_allocator.allocate_pages z 1 (_allocator s)).1 = z).
  { intros z Hz Hmz Hn. split_and!; [done | by apply Z.mod_divide | done |]. unfold zone_allocator.allocate_pages. rewrite Hq.
    cbn [Z.eqb negb andb]. by destruct (Z.eqb_spec z 0); [lia|]. }
  cbn [fst snd]. intros z [-> | ->]; by apply Hall.
Qed.

Lemma made_run_allocate others reference s owned answers n a : made 4 others reference s owned -> granted s answers ->
  (0 <=? n) && (n <=? max_size) = true -> fst <$> _allocate 4 answers n s = Ok a ->
  made 4 others reference (run_small (_allocate 4 answers n) s) (<[a := n]> owned).
Proof. intros Hm Hg [H1%Z.leb_le H2%Z.leb_le]%andb_true_iff E. eapply made_allocate; [exact Hm | exact Hg | by split | by apply run_small_ok]. Qed.

Lemma made_run_deallocate others reference s owned a : made 4 others reference s owned -> is_Some (owned !! a) ->
  fst <$> _deallocate a s = Ok tt -> made 4 others reference (run_small (_deallocate a) s) (delete a owned).
Proof. intros Hm Ha E. eapply made_deallocate; [exact Hm | done | by apply run_small_ok]. Qed.

Lemma example_small_made : made 4 {[ 4096 := 100 ]} 9 example_small example_owned.
Proof.
  unfold example_small, example_owned. apply made_run_deallocate; [| by eexists | vm_compute; reflexivity].
  apply made_run_allocate; [| apply granted_pair; vm_compute; reflexivity | reflexivity | vm_compute; reflexivity].
  apply made_run_allocate; [| apply granted_pair; vm_compute; reflexivity | reflexivity | vm_compute; reflexivity].
  apply made_run_allocate; [| apply granted_pair; vm_compute; reflexivity | reflexivity | vm_compute; reflexivity].
  by apply made_new.
Qed.

Lemma small_blocks_are_apart_witness :
  get_reference_pointer 65552 example_small = Ok (9, example_small) /\
  (exists a s', _allocate 4 (1048576, 2097152) 1000 example_small = Ok (a, s') /\ a <> 0) /\
  exists s', clear example_small = Ok (tt, s') /\ zone_allocator.os (_allocator s') = {[ 4096 := 100 ]}.
Proof.
  assert (Hg : granted example_small (1048576, 2097152)) by (apply granted_pair; vm_compute; reflexivity).
  pose proof example_small_made as Hm. revert Hg Hm. generalize example_small as s. intros s Hg Hm.
  destruct (small_blocks_are_apart 4 (or_introl eq_refl) _ _ _ _ Hm) as (H1 & _ & H3 & _ & _ & H6). split; [|split].
  - exact (proj1 (proj2 (H1 65552 100 eq_refl))).
  - destruct (H3 (1048576, 2097152) 1000) as (a & s' & E & Ha & _); [split; discriminate | exact Hg |]. exists a, s'. exact (conj E Ha).
  - destruct H6 as (s' & E & Ho & _). exists s'. exact (conj E Ho).
Defined.
