(* ===== verification/HashStream.v ===== *)
(** * Streaming hashes of libtomcrypt: headers/tomcrypt_hash.h

    SHA-256 and MD5 take a message in pieces: both are instances of the [HASH_PROCESS] macro
    over a compression function, and end with the same padding but for the order of bytes.
    Here the compression function, the initial state and the two ways of storing a number are
    parameters; [hashing] says what a [hash_state] holds, and [hashing_done] that the digest
    is the one of the padded message taken block by block. *)
From S2P Require Import Prelude.

Record hash_state : Type := mk_hash {
  hs_length : Z;
  hs_state : list Z;
  hs_curlen : Z;
  hs_buf : bytes
}.

Definition CRYPT_OK : Z := 0.
Definition CRYPT_INVALID_ARG : Z := 16.

(** [while(curlen < n) buf[curlen++] = 0] *)
Definition zero_fill (n : nat) (buf : bytes) (curlen : nat) : bytes :=
  take curlen buf ++ replicate (n - curlen) 0 ++ drop (max curlen n) buf.

Section hash.
Context (compress : list Z -> bytes -> list Z).

(** The [while(inlen > 0)] loop; every pass takes at least one byte. *)
Fixpoint process_loop (fuel : nat) (md : hash_state) (input : bytes) : result hash_state :=
  if blen input =? 0 then Ok md else
  match fuel with
  | O => Fault out_of_fuel
  | S fuel =>
      if (hs_curlen md =? 0) && (64 <=? blen input) then
        process_loop fuel (mk_hash (u64 (hs_length md + 512))
          (compress (hs_state md) (take 64 input)) (hs_curlen md) (hs_buf md)) (drop 64 input)
      else
        let n := Z.min (blen input) (64 - hs_curlen md) in
        let cur := Z.to_nat (hs_curlen md) in
        let k := Z.to_nat n in
        let buf := take cur (hs_buf md) ++ take k input ++ drop (cur + k) (hs_buf md) in
        let curlen := hs_curlen md + n in
        process_loop fuel
          (if curlen =? 64
           then mk_hash (u64 (hs_length md + 512)) (compress (hs_state md) buf) 0 buf
           else mk_hash (hs_length md) (hs_state md) curlen buf) (drop k input)
  end.

(** [HASH_PROCESS] for blocks of 64 bytes *)
Definition hash_process (md : hash_state) (input : bytes) (inlen : Z) : result (hash_state * Z) :=
  if 64 <? hs_curlen md then Ok (md, CRYPT_INVALID_ARG) else
  _ ← require (inlen <=? blen input) out_of_bounds;
  let input := take (Z.to_nat inlen) input in
  md ← process_loop (length input) md input; Ok (md, CRYPT_OK).

Fixpoint hash_process_all (md : hash_state) (pieces : list bytes) : result hash_state :=
  match pieces with
  | [] => Ok md
  | p :: pieces => '(md, _) ← hash_process md p (blen p); hash_process_all md pieces
  end.

(** ** The end of a message, and the reference: padding, then one block after the other *)
Context (initial_state : list Z) (store64 store32 : Z -> bytes).

Definition hash_done (md : hash_state) : option bytes :=
  if 64 <=? hs_curlen md then None else
  let length := u64 (hs_length md + hs_curlen md * 8) in
  let cur := Z.to_nat (hs_curlen md) in
  let buf := <[cur := 0x80]> (hs_buf md) in
  let curlen := S cur in
  let '(state, buf, curlen) :=
    if decide (56 < curlen)%nat then
      let buf := zero_fill 64 buf curlen in (compress (hs_state md) buf, buf, 0%nat)
    else (hs_state md, buf, curlen) in
  let buf := zero_fill 56 buf curlen in
  let buf := take 56 buf ++ store64 length in
  Some (concat (map store32 (compress state buf))).

Fixpoint blocks_fold (n : nat) (state : list Z) (m : bytes) : list Z :=
  match n with
  | O => state
  | S n => blocks_fold n (compress state (take 64 m)) (drop 64 m)
  end.

Definition padded (m : bytes) : bytes :=
  m ++ [0x80] ++ replicate (Z.to_nat ((55 - blen m) mod 64)) 0 ++ store64 (u64 (8 * blen m)).

Definition hash_spec (m : bytes) : bytes :=
  concat (map store32 (blocks_fold (length (padded m) / 64) initial_state (padded m))).

Lemma blocks_fold_app a b s m :
  blocks_fold (a + b) s m = blocks_fold b (blocks_fold a s m) (drop (64 * a) m).
Proof.
  revert s m. induction a as [|a IH]; intros s m; cbn [blocks_fold Nat.add]; [done|].
  rewrite IH, drop_drop. do 2 f_equal. lia.
Qed.

(** Only the blocks that are folded matter. *)
Lemma blocks_fold_prefix k s m x :
  (64 * k <= length m)%nat -> blocks_fold k s (m ++ x) = blocks_fold k s m.
Proof.
  revert s m. induction k as [|k IH]; intros s m Hl; cbn [blocks_fold]; [done|].
  rewrite take_app_le, drop_app_le by lia. apply IH. rewrite length_drop. lia.
Qed.

Lemma blocks_fold_one s b x : length b = 64%nat -> blocks_fold 1 s (b ++ x) = compress s b.
Proof. intros Hb. cbn [blocks_fold]. f_equal. rewrite <- Hb. apply take_app_length. Qed.

(** [hashing md m]: [md] has been fed the bytes [m]. *)
Record hashing (md : hash_state) (m : bytes) (k : nat) (rest : bytes) : Prop := {
  hg_cut : exists front, m = front ++ rest /\ length front = (64 * k)%nat;
  hg_state : hs_state md = blocks_fold k initial_state m;
  hg_rest : take (length rest) (hs_buf md) = rest;
  hg_buf : length (hs_buf md) = 64%nat;
  hg_curlen : hs_curlen md = blen rest;
  hg_room : blen rest < 64;
  hg_length : hs_length md = u64 (512 * Z.of_nat k)
}.

Lemma hashing_init md : length (hs_buf md) = 64%nat -> hashing (mk_hash 0 initial_state 0 (hs_buf md)) [] 0 [].
Proof. intros Hl. split; try done. by exists []. Qed.

(** A block more, from the input or from the filled buffer. *)
Lemma hashing_block md m k rest b buf :
  hashing md m k rest -> length (rest ++ b) = 64%nat -> length buf = 64%nat ->
  hashing (mk_hash (u64 (hs_length md + 512)) (compress (hs_state md) (rest ++ b)) 0 buf)
    (m ++ b) (S k) [].
Proof.
  intros [(front & -> & Hf) Hs _ _ _ _ Hlen] Hb Hbuf. split; cbn [hs_length hs_state hs_curlen hs_buf]; try done.
  - exists (front ++ rest ++ b). rewrite app_nil_r, <- app_assoc. split; [done|].
    rewrite length_app. lia.
  - rewrite <- Nat.add_1_r, blocks_fold_app, <- app_assoc.
    rewrite (blocks_fold_prefix k _ front (rest ++ b)) by lia.
    rewrite <- Hf, drop_app_length, <- (app_nil_r (rest ++ b)), blocks_fold_one by done.
    rewrite app_nil_r, Hs. by rewrite (blocks_fold_prefix k _ front rest) by lia.
  - rewrite Hlen. unfold u64. rewrite Zplus_mod_idemp_l. f_equal. lia.
Qed.

Lemma hashing_partial md m k rest b :
  hashing md m k rest -> blen rest + blen b < 64 ->
  hashing (mk_hash (hs_length md) (hs_state md) (blen rest + blen b)
      (take (length rest) (hs_buf md) ++ b ++ drop (length rest + length b) (hs_buf md)))
    (m ++ b) k (rest ++ b).
Proof.
  intros [(front & -> & Hf) Hs Hr Hb Hc Hroom Hlen] Hlt. unfold blen in *. split; cbn [hs_length hs_state hs_curlen hs_buf]; try done.
  - exists front. by rewrite <- app_assoc.
  - rewrite Hs, <- app_assoc, !(blocks_fold_prefix k _ front) by lia. done.
  - rewrite Hr, app_assoc. by rewrite take_app_length.
  - rewrite !length_app, length_drop, length_take. lia.
  - rewrite blen_app. unfold blen. lia.
  - rewrite blen_app. unfold blen. lia.
Qed.

(** One pass of the loop that goes through the buffer. *)
Lemma hashing_fill md m k rest input :
  hashing md m k rest ->
  let n := Z.min (blen input) (64 - hs_curlen md) in
  let cur := Z.to_nat (hs_curlen md) in
  let buf := take cur (hs_buf md) ++ take (Z.to_nat n) input ++ drop (cur + Z.to_nat n) (hs_buf md) in
  exists k' rest', hashing
    (if hs_curlen md + n =? 64
     then mk_hash (u64 (hs_length md + 512)) (compress (hs_state md) buf) 0 buf
     else mk_hash (hs_length md) (hs_state md) (hs_curlen md + n) buf)
    (m ++ take (Z.to_nat n) input) k' rest'.
Proof.
  intros Hh n cur buf. pose proof (hg_curlen _ _ _ _ Hh) as Hc. pose proof (hg_room _ _ _ _ Hh) as Hroom.
  pose proof (hg_buf _ _ _ _ Hh) as Hb.
  assert (Hcur : cur = length rest) by (subst cur; rewrite Hc; unfold blen; lia).
  assert (Hn : 0 <= n /\ blen (take (Z.to_nat n) input) = n /\ length (take (Z.to_nat n) input) = Z.to_nat n).
  { subst n. unfold blen in *. rewrite length_take. lia. }
  destruct Hn as (Hn0 & Hbn & Hln). destruct (Z.eqb_spec (hs_curlen md + n) 64) as [H64|H64].
  - exists (S k), []. assert (buf = rest ++ take (Z.to_nat n) input) as ->.
    { subst buf. rewrite Hcur, (hg_rest _ _ _ _ Hh), drop_ge, app_nil_r; [done|].
      unfold blen in *. lia. }
    apply (hashing_block md m k); [done | |]; rewrite length_app; unfold blen in *; lia.
  - exists k, (rest ++ take (Z.to_nat n) input).
    pose proof (hashing_partial md m k rest (take (Z.to_nat n) input) Hh) as Hp.
    rewrite Hbn, Hln, <- Hcur, <- Hc in Hp. apply Hp. subst n. lia.
Qed.

Lemma split_input (m input : bytes) n : m ++ input = (m ++ take n input) ++ drop n input.
Proof. by rewrite <- app_assoc, take_drop. Qed.

Lemma process_loop_spec fuel md m k rest input :
  hashing md m k rest -> (length input <= fuel)%nat ->
  exists md' k' rest', process_loop fuel md input = Ok md' /\ hashing md' (m ++ input) k' rest'.
Proof.
  revert md m k rest input. induction fuel as [|fuel IH]; intros md m k rest input Hh Hl; cbn [process_loop].
  all: destruct (Z.eqb_spec (blen input) 0) as [He|He];
    [assert (input = []) as -> by (destruct input; [done | unfold blen in He; cbn in He; lia]);
     rewrite app_nil_r; eauto|].
  { unfold blen in He. lia. }
  pose proof (hg_curlen _ _ _ _ Hh) as Hc. pose proof (hg_room _ _ _ _ Hh) as Hroom.
  destruct ((hs_curlen md =? 0) && (64 <=? blen input)) eqn:Hbulk.
  - apply andb_true_iff in Hbulk as [Hz%Z.eqb_eq Hbig%Z.leb_le].
    assert (rest = []) as -> by (destruct rest; [done | unfold blen in Hc; cbn in Hc; lia]).
    rewrite (split_input m input 64), Hz.
    apply (IH _ _ (S k) []); [|rewrite length_drop; unfold blen in *; lia].
    apply (hashing_block md m k [] (take 64 input)); [done | | apply Hh].
    cbn. rewrite length_take. unfold blen in *. lia.
  - clear Hbulk. destruct (hashing_fill md m k rest input Hh) as (k' & rest' & Hf).
    rewrite (split_input m input (Z.to_nat (Z.min (blen input) (64 - hs_curlen md)))). apply (IH _ _ k' rest' _ Hf).
    rewrite length_drop. unfold blen in *. lia.
Qed.

(** ** Padding *)
Lemma take_zero_fill n buf curlen rest v :
  take curlen buf = rest ++ [v] -> (curlen <= length buf)%nat -> (curlen <= n)%nat ->
  take n (zero_fill n buf curlen) = rest ++ [v] ++ replicate (n - curlen) 0.
Proof.
  intros Ht Hl Hn. unfold zero_fill. rewrite Ht, app_assoc, app_assoc, take_app_le.
  - rewrite take_ge; [done|]. rewrite !length_app, length_replicate.
    apply (f_equal length) in Ht. rewrite length_take, length_app in Ht. cbn in *. lia.
  - rewrite !length_app, length_replicate.
    apply (f_equal length) in Ht. rewrite length_take, length_app in Ht. cbn in *. lia.
Qed.

Lemma take_insert_last (b : bytes) n rest v :
  take n b = rest -> (n < length b)%nat -> take (S n) (<[n := v]> b) = rest ++ [v].
Proof.
  intros Ht Hn. rewrite (take_S_r _ _ v) by (by apply list_lookup_insert_eq).
  rewrite take_insert_ge by lia. by rewrite Ht.
Qed.

Hypothesis length_store64 : forall x, length (store64 x) = 8%nat.

(** The padded message, when the length of the message is [64 k] and a rest. *)
Lemma padded_split front rest k z :
  length front = (64 * k)%nat -> (length rest + 9 + z = 64 \/ length rest + 9 + z = 128)%nat -> (z < 64)%nat ->
  padded (front ++ rest) =
    front ++ rest ++ [0x80] ++ replicate z 0 ++ store64 (u64 (8 * blen (front ++ rest))).
Proof.
  intros Hf Hz Hz'. unfold padded. rewrite <- !app_assoc. do 4 f_equal.
  assert ((55 - blen (front ++ rest)) mod 64 = Z.of_nat z) as ->; [|by rewrite Nat2Z.id].
  rewrite blen_app. unfold blen. rewrite Hf.
  symmetry. apply Z.mod_unique with (if (length rest + 9 + z =? 64)%nat then - Z.of_nat k else - Z.of_nat k - 1); [lia|].
  destruct (Nat.eqb_spec (length rest + 9 + z) 64); lia.
Qed.

Lemma blocks_div k n t : length t = (64 * n)%nat -> forall front : bytes, length front = (64 * k)%nat ->
  (length (front ++ t : bytes) / 64 = k + n)%nat.
Proof.
  intros Ht front Hf. rewrite length_app, Ht, Hf.
  replace (64 * k + 64 * n)%nat with ((k + n) * 64)%nat by lia. by apply Nat.div_mul.
Qed.

(** The blocks of [front], then the ones of [t]. *)
Lemma blocks_fold_tail k n s front rest t :
  length front = (64 * k)%nat ->
  blocks_fold (k + n) s (front ++ t) = blocks_fold n (blocks_fold k s (front ++ rest)) t.
Proof.
  intros Hf. rewrite blocks_fold_app, <- Hf, drop_app_length.
  by rewrite !(blocks_fold_prefix k _ front) by lia.
Qed.

Lemma blocks_fold_two s a b :
  length a = 64%nat -> length b = 64%nat ->
  blocks_fold 2 s (a ++ b) = compress (compress s a) b.
Proof.
  intros Ha Hb. change 2%nat with (1 + 1)%nat. rewrite blocks_fold_app, !blocks_fold_one by done.
  assert (drop (64 * 1) (a ++ b) = b) as ->
    by (replace (64 * 1)%nat with (length a) by lia; apply drop_app_length).
  pose proof (blocks_fold_one (compress s a) b [] Hb) as H1. by rewrite app_nil_r in H1.
Qed.

Lemma hashing_done md m k rest :
  hashing md m k rest -> hash_done md = Some (hash_spec m).
Proof.
  intros [(front & -> & Hf) Hs Hr Hb Hc Hroom Hl]. unfold blen in Hroom.
  unfold hash_done. destruct (Z.leb_spec 64 (hs_curlen md)) as [|Hlt]; [unfold blen in Hc; lia|].
  assert (Hlen : u64 (hs_length md + hs_curlen md * 8) = u64 (8 * blen (front ++ rest))).
  { rewrite Hl, Hc. unfold u64. rewrite Zplus_mod_idemp_l, blen_app. unfold blen. f_equal. lia. }
  rewrite Hlen, Hs, Hc. unfold hash_spec.
  replace (Z.to_nat (blen rest)) with (length rest) by (unfold blen; lia).
  pose proof (take_insert_last _ _ rest 0x80 Hr ltac:(lia)) as Hi. clear Hlen Hs Hl.
  assert (Hli : length (<[length rest:=0x80]> (hs_buf md)) = 64%nat) by (by rewrite length_insert).
  destruct (decide _) as [Hbig|Hsmall].
  - rewrite (padded_split front rest k (119 - length rest)) by lia.
    pose proof (length_store64 (u64 (8 * blen (front ++ rest)))) as HL. revert HL.
    generalize (store64 (u64 (8 * blen (front ++ rest)))). intros T HT.
    pose proof (take_zero_fill 64 _ _ _ _ Hi ltac:(lia) ltac:(lia)) as Hz.
    set (z := zero_fill 64 _ _) in *.
    assert (length z = 64%nat) as Hlz.
    { subst z. unfold zero_fill. rewrite !length_app, length_take, length_drop, length_replicate. lia. }
    rewrite take_ge in Hz by lia.
    set (b := replicate 56 0 ++ T : bytes).
    assert (rest ++ [128] ++ replicate (119 - length rest) 0 ++ T = z ++ b) as ->.
    { rewrite Hz. subst b. replace (119 - length rest)%nat with ((64 - S (length rest)) + 56)%nat by lia.
      rewrite replicate_add. by rewrite <- !(app_assoc (A := Z)). }
    assert (length b = 64%nat) as Hlb by (subst b; by rewrite length_app, length_replicate, HT).
    rewrite (blocks_div k 2) by (done || rewrite length_app; lia).
    rewrite (blocks_fold_tail k 2 _ front rest), blocks_fold_two by done.
    do 4 f_equal.
  - rewrite (padded_split front rest k (55 - length rest)) by lia.
    pose proof (length_store64 (u64 (8 * blen (front ++ rest)))) as HT. revert HT.
    generalize (store64 (u64 (8 * blen (front ++ rest)))). intros T HT.
    rewrite (take_zero_fill 56 _ _ _ _ Hi) by lia.
    replace (56 - S (length rest))%nat with (55 - length rest)%nat by lia.
    set (z := (rest ++ [128] ++ replicate (55 - length rest) 0) ++ T).
    assert (rest ++ [128] ++ replicate (55 - length rest) 0 ++ T = z) as -> by (subst z; by rewrite <- !app_assoc).
    assert (length z = 64%nat) as Hlz.
    { subst z. rewrite !length_app, length_replicate, HT. cbn. lia. }
    rewrite (blocks_div k 1), (blocks_fold_tail k 1 _ front rest) by done.
    by rewrite <- (app_nil_r z), blocks_fold_one, app_nil_r by done.
Qed.

(** ** Streaming *)
Lemma process_spec md m k rest input inlen :
  hashing md m k rest -> 0 <= inlen <= blen input ->
  exists md' k' rest', hash_process md input inlen = Ok (md', CRYPT_OK) /\
    hashing md' (m ++ take (Z.to_nat inlen) input) k' rest'.
Proof.
  intros Hh Hin. unfold hash_process. pose proof (hg_curlen _ _ _ _ Hh). pose proof (hg_room _ _ _ _ Hh).
  destruct (Z.ltb_spec 64 (hs_curlen md)); [lia|]. destruct (Z.leb_spec inlen (blen input)); [|lia].
  cbn [require mbind result_bind].
  destruct (process_loop_spec _ md m k rest _ Hh (le_n (length (take (Z.to_nat inlen) input))))
    as (md' & k' & rest' & -> & Hh'). cbn. eauto.
Qed.

Lemma process_all_spec pieces : forall md m k rest,
  hashing md m k rest ->
  exists md' k' rest', hash_process_all md pieces = Ok md' /\ hashing md' (m ++ concat pieces) k' rest'.
Proof.
  induction pieces as [|p pieces IH]; intros md m k rest Hh; cbn [hash_process_all concat].
  { rewrite app_nil_r. eauto. }
  destruct (process_spec md m k rest p (blen p) Hh) as (md' & k' & rest' & -> & Hh'); [unfold blen; lia|].
  rewrite take_ge in Hh' by (unfold blen; lia).
  cbn. rewrite app_assoc. by apply IH with (k := k') (rest := rest').
Qed.


(** A message in pieces, from the start to the end. *)
Lemma hash_streaming md pieces :
  length (hs_buf md) = 64%nat ->
  exists md', hash_process_all (mk_hash 0 initial_state 0 (hs_buf md)) pieces = Ok md' /\
    hash_done md' = Some (hash_spec (concat pieces)).
Proof.
  intros Hl.
  destruct (process_all_spec pieces _ [] 0 [] (hashing_init md Hl)) as (md' & k & rest & Hp & Hh).
  exists md'. split; [done|]. exact (hashing_done _ _ _ _ Hh).
Qed.

Lemma length_blocks_fold n : (forall s b, length (compress s b) = length s) ->
  forall s m, length (blocks_fold n s m) = length s.
Proof. intros Hc. induction n as [|n IH]; intros s m; cbn [blocks_fold]; [done|]. by rewrite IH, Hc. Qed.
End hash.
