(* ===== verification/Sha256.v ===== *)
(** * SHA-256 as the library computes it: lib/libtomcrypt/src/hashes/sha2/sha256.c

    [sha256_init], [sha256_process] (an instance of the [HASH_PROCESS] macro of
    headers/tomcrypt_hash.h) and [sha256_done].  The theorem of the file: however a message is
    cut into the pieces given to [sha256_process], the digest is the one of the padded
    message taken block by block. *)
From S2P Require Import Prelude HashStream.

(** ** The compression function *)

(** The constants of the unrolled rounds, in order. *)
Definition round_constants : list Z :=
  [1116352408; 1899447441; 3049323471; 3921009573; 961987163; 1508970993; 2453635748;
   2870763221; 3624381080; 310598401; 607225278; 1426881987; 1925078388; 2162078206;
   2614888103; 3248222580; 3835390401; 4022224774; 264347078; 604807628; 770255983; 1249150122;
   1555081692; 1996064986; 2554220882; 2821834349; 2952996808; 3210313671; 3336571891;
   3584528711; 113926993; 338241895; 666307205; 773529912; 1294757372; 1396182291; 1695183700;
   1986661051; 2177026350; 2456956037; 2730485921; 2820302411; 3259730800; 3345764771;
   3516065817; 3600352804; 4094571909; 275423344; 430227734; 506948616; 659060556; 883997877;
   958139571; 1322822218; 1537002063; 1747873779; 1955562222; 2024104815; 2227730452;
   2361852424; 2428436474; 2756734187; 3204031479; 3329325298].

Definition ror (x n : Z) : Z := Z.lor (Z.shiftr (u32 x) n) (u32 (Z.shiftl x (32 - n))).
Definition Ch (x y z : Z) : Z := Z.lxor z (Z.land x (Z.lxor y z)).
Definition Maj (x y z : Z) : Z := Z.lor (Z.land (Z.lor x y) z) (Z.land x y).
Definition Rsh (x n : Z) : Z := Z.shiftr (Z.land x 0xFFFFFFFF) n.
Definition Sigma0 (x : Z) : Z := Z.lxor (Z.lxor (ror x 2) (ror x 13)) (ror x 22).
Definition Sigma1 (x : Z) : Z := Z.lxor (Z.lxor (ror x 6) (ror x 11)) (ror x 25).
Definition Gamma0 (x : Z) : Z := Z.lxor (Z.lxor (ror x 7) (ror x 18)) (Rsh x 3).
Definition Gamma1 (x : Z) : Z := Z.lxor (Z.lxor (ror x 17) (ror x 19)) (Rsh x 10).

(** [LOAD32H], [STORE32H] and [STORE64H]: most significant byte first. *)
Definition load32h (b : bytes) : Z :=
  Z.lor (Z.lor (Z.lor (Z.shiftl (nth 0 b 0) 24) (Z.shiftl (nth 1 b 0) 16)) (Z.shiftl (nth 2 b 0) 8)) (nth 3 b 0).
Definition store32h (x : Z) : bytes := rev (le_bytes 4 x).
Definition store64h (x : Z) : bytes := rev (le_bytes 8 x).

(** [W[i]] for [i] from 16 on; [n] more words are added to [w]. *)
Fixpoint expand (n : nat) (w : list Z) : list Z :=
  match n with
  | O => w
  | S n =>
      let i := length w in
      expand n (w ++ [u32 (Gamma1 (nth (i - 2) w 0) + nth (i - 7) w 0 + Gamma0 (nth (i - 15) w 0) + nth (i - 16) w 0)])
  end.

Definition schedule (buf : bytes) : list Z :=
  expand 48 (map (fun i => load32h (drop (4 * i) buf)) (seq 0 16)).

(** [RND] for round [i]: the roles of the eight words turn by one place each round. *)
Definition rnd (s : list Z) (i : nat) (ki wi : Z) : list Z :=
  let ix j := Z.to_nat ((j - Z.of_nat i) mod 8) in
  let r j := nth (ix j) s 0 in
  let t0 := u32 (r 7 + Sigma1 (r 4) + Ch (r 4) (r 5) (r 6) + ki + wi) in
  let t1 := u32 (Sigma0 (r 0) + Maj (r 0) (r 1) (r 2)) in
  <[ix 7 := u32 (t0 + t1)]> (<[ix 3 := u32 (r 3 + t0)]> s).

Fixpoint rounds (i : nat) (ks ws : list Z) (s : list Z) : list Z :=
  match ks, ws with
  | k :: ks, w :: ws => rounds (S i) ks ws (rnd s i k w)
  | _, _ => s
  end.

Definition sha256_compress (state : list Z) (buf : bytes) : list Z :=
  zip_with (fun a b => u32 (a + b)) state (rounds 0 round_constants (schedule buf) state).

(** ** The streaming interface *)
Definition initial_state : list Z :=
  [1779033703; 3144134277; 1013904242; 2773480762; 1359893119; 2600822924; 528734635; 1541459225].

(** [buf] is left as it was. *)
Definition sha256_init (md : hash_state) : hash_state := mk_hash 0 initial_state 0 (hs_buf md).

Definition sha256_process : hash_state -> bytes -> Z -> result (hash_state * Z) := hash_process sha256_compress.
Definition sha256_process_all : hash_state -> list bytes -> result hash_state := hash_process_all sha256_compress.

Definition sha256_done (md : hash_state) : option bytes :=
  if 64 <=? hs_curlen md then None else
  let length := u64 (hs_length md + hs_curlen md * 8) in
  let cur := Z.to_nat (hs_curlen md) in
  let buf := <[cur := 0x80]> (hs_buf md) in
  let curlen := S cur in
  let '(state, buf, curlen) :=
    if decide (56 < curlen)%nat then
      let buf := zero_fill 64 buf curlen in (sha256_compress (hs_state md) buf, buf, 0%nat)
    else (hs_state md, buf, curlen) in
  let buf := zero_fill 56 buf curlen in
  let buf := take 56 buf ++ store64h length in
  Some (concat (map store32h (sha256_compress state buf))).

(** The call sequence init, process, done of buffer_utils.h, client_puzzle.h and
    torque_socket.h on one buffer, in a fresh [hash_state]. *)
Definition sha256_buffer (fresh : hash_state) (b : bytes) : result bytes :=
  '(md, _) ← sha256_process (sha256_init fresh) b (blen b);
  of_option out_of_bounds (sha256_done md).

Definition sha256_spec (m : bytes) : bytes := hash_spec sha256_compress initial_state store64h store32h m.

Example sha256_abc :
  sha256_spec [97; 98; 99] =
    [186; 120; 22; 191; 143; 1; 207; 234; 65; 65; 64; 222; 93; 174; 34; 35;
     176; 3; 97; 163; 150; 23; 122; 156; 180; 16; 255; 97; 242; 0; 21; 173].
Proof. vm_compute. reflexivity. Qed.

#[local] Opaque sha256_compress.

Lemma length_store64h x : length (store64h x) = 8%nat.
Proof. unfold store64h. by rewrite length_rev, length_le_bytes. Qed.

Lemma sha256_finish md m k rest :
  hashing sha256_compress initial_state md m k rest -> sha256_done md = Some (sha256_spec m).
Proof. exact (hashing_done sha256_compress initial_state store64h store32h length_store64h md m k rest). Qed.

(** C16. However a message is cut into the pieces given to [sha256_process], the library accepts
    all of them, and [sha256_done] returns the digest of the whole message: the compression
    function folded over the 64-byte blocks of the message followed by 0x80, zeros, and the
    message's length in bits.  The buffer of the [hash_state] may hold anything to start with. *)
Theorem sha256_streaming md pieces :
  length (hs_buf md) = 64%nat ->
  exists md', sha256_process_all (sha256_init md) pieces = Ok md' /\
    sha256_done md' = Some (sha256_spec (concat pieces)).
Proof.
  exact (hash_streaming sha256_compress initial_state store64h store32h length_store64h md pieces).
Qed.

Lemma sha256_streaming_witness :
  let md := mk_hash 7 [] 9 (replicate 64 171) in
  let pieces := [replicate 70 97; []; [98; 99]; replicate 130 5] in
  length (hs_buf md) = 64%nat /\
  exists md', sha256_process_all (sha256_init md) pieces = Ok md' /\
    sha256_done md' = Some (sha256_spec (concat pieces)).
Proof. split; [reflexivity | apply sha256_streaming; reflexivity]. Defined.

(** One buffer at once. *)
Lemma sha256_buffer_spec fresh b :
  length (hs_buf fresh) = 64%nat -> sha256_buffer fresh b = Ok (sha256_spec b).
Proof.
  intros Hl. destruct (hash_streaming sha256_compress initial_state store64h store32h length_store64h fresh [b] Hl) as (md' & Hp & Hd).
  unfold sha256_buffer, sha256_process. cbn [hash_process_all] in Hp. cbn [concat] in Hd. rewrite app_nil_r in Hd.
  change (sha256_init fresh) with (mk_hash 0 initial_state 0 (hs_buf fresh)).
  destruct (hash_process _ _ _ _) as [[md c]|] eqn:E; [|done]. cbn in Hp. injection Hp as <-.
  cbn [mbind result_bind]. change (sha256_done md) with (hash_done sha256_compress store64h store32h md). by rewrite Hd.
Qed.

Lemma length_store32h x : length (store32h x) = 4%nat.
Proof. unfold store32h. by rewrite length_rev, length_le_bytes. Qed.

Lemma length_concat_store l : length (concat (map store32h l)) = (4 * length l)%nat.
Proof. induction l as [|x l IH]; [done|]. cbn [map concat length]. rewrite length_app, IH, length_store32h. lia. Qed.

#[local] Transparent sha256_compress.

Lemma length_rnd s i k w : length (rnd s i k w) = length s.
Proof. unfold rnd. by rewrite !length_insert. Qed.

Lemma length_rounds ks : forall i ws s, length (rounds i ks ws s) = length s.
Proof. induction ks as [|k ks IH]; intros i [|w ws] s; cbn [rounds]; [done..|]. by rewrite IH, length_rnd. Qed.

Lemma length_compress s b : length (sha256_compress s b) = length s.
Proof. unfold sha256_compress. rewrite length_zip_with, length_rounds. lia. Qed.

(** A digest has 32 bytes. *)
Lemma length_sha256_spec m : length (sha256_spec m) = 32%nat.
Proof. unfold sha256_spec. unfold hash_spec. by rewrite length_concat_store, length_blocks_fold by exact length_compress. Qed.

Lemma is_bytes_sha256_spec m : is_bytes (sha256_spec m).
Proof.
  unfold sha256_spec, hash_spec. generalize (blocks_fold sha256_compress (length (padded store64h m) / 64) initial_state (padded store64h m)) as l.
  induction l as [|x l IH]; cbn [map concat]; [constructor|].
  apply Forall_app. split; [|done]. unfold store32h. apply Forall_rev, is_bytes_le_bytes.
Qed.
