(* ===== verification/AesSpec.v ===== *)
(** * AES as FIPS 197 defines it

    The reference for lib/libtomcrypt/src/ciphers/aes/aes.c: arithmetic in the field of 256
    elements, the four transformations of a state of sixteen bytes (column by column), the
    key expansion and the two ciphers.  Nothing here is code of the repository. *)
From S2P Require Import Prelude.

(** ** The field: polynomials over bits modulo x^8 + x^4 + x^3 + x + 1 *)
Definition xtime (b : Z) : Z :=
  Z.lxor (u8 (Z.shiftl b 1)) (if Z.testbit b 7 then 0x1b else 0).

Fixpoint gf_mul_bits (n : nat) (a b : Z) : Z :=
  match n with
  | O => 0
  | S n => Z.lxor (if Z.odd a then b else 0) (gf_mul_bits n (Z.shiftr a 1) (xtime b))
  end.
Definition gf_mul : Z -> Z -> Z := gf_mul_bits 8.

(** The inverse of [b], and 0 for 0: the power 254. *)
Fixpoint gf_square_product (n : nat) (b : Z) : Z :=
  match n with
  | O => 1
  | S n => let b := gf_mul b b in gf_mul b (gf_square_product n b)
  end.
Definition gf_inv : Z -> Z := gf_square_product 7.

(** ** The S-box and its inverse *)
Definition rotl8 (b n : Z) : Z := Z.lor (u8 (Z.shiftl b n)) (Z.shiftr b (8 - n)).
Definition xor_all : list Z -> Z := fun l => fold_left Z.lxor l 0.

Definition s_box (b : Z) : Z :=
  let b := gf_inv b in xor_all [b; rotl8 b 1; rotl8 b 2; rotl8 b 3; rotl8 b 4; 0x63].
Definition inv_s_box (b : Z) : Z :=
  gf_inv (xor_all [rotl8 b 1; rotl8 b 3; rotl8 b 6; 0x05]).

(** ** The transformations *)
Definition sub_bytes : bytes -> bytes := map s_box.
Definition inv_sub_bytes : bytes -> bytes := map inv_s_box.

(** Row [r] of the state, the bytes at [r] modulo 4, is turned by [r] places. *)
Definition shift_rows (s : bytes) : bytes :=
  map (fun i => nth ((i + 4 * (i mod 4)) mod 16)%nat s 0) (seq 0 16).
Definition inv_shift_rows (s : bytes) : bytes :=
  map (fun i => nth ((i + 12 * (i mod 4)) mod 16)%nat s 0) (seq 0 16).

(** The product of a column with the circulant matrix of first row [m]. *)
Definition mix_column (m : list Z) (c : bytes) : bytes :=
  map (fun r => xor_all (map (fun k => gf_mul (nth ((k + 4 - r) mod 4)%nat m 0) (nth k c 0)) (seq 0 4)))
    (seq 0 4).
Definition mix_columns_by (m : list Z) (s : bytes) : bytes :=
  concat (map (fun c => mix_column m (take 4 (drop (4 * c) s))) (seq 0 4)).
Definition mix_columns : bytes -> bytes := mix_columns_by [2; 3; 1; 1].
Definition inv_mix_columns : bytes -> bytes := mix_columns_by [0x0e; 0x0b; 0x0d; 0x09].

Definition xor_bytes : bytes -> bytes -> bytes := zip_with Z.lxor.
Definition add_round_key (k s : bytes) : bytes := xor_bytes s k.

(** ** Key expansion: the words of the schedule are lists of four bytes *)
Definition rot_word (w : bytes) : bytes := drop 1 w ++ take 1 w.
Definition sub_word : bytes -> bytes := map s_box.
Definition rcon_word (i : nat) : bytes := [Nat.iter (i - 1) xtime 1; 0; 0; 0].

Definition next_word (nk : nat) (w : list bytes) : bytes :=
  let i := length w in
  let temp := nth (i - 1) w [] in
  let temp :=
    if (i mod nk =? 0)%nat then xor_bytes (sub_word (rot_word temp)) (rcon_word (i / nk))
    else if (6 <? nk)%nat && (i mod nk =? 4)%nat then sub_word temp else temp in
  xor_bytes (nth (i - nk) w []) temp.

Fixpoint expand_words (nk n : nat) (w : list bytes) : list bytes :=
  match n with
  | O => w
  | S n => expand_words nk n (w ++ [next_word nk w])
  end.

Definition key_words (key : bytes) : list bytes :=
  map (fun i => take 4 (drop (4 * i) key)) (seq 0 (length key / 4)).

Definition rounds_of (key : bytes) : nat := length key / 4 + 6.

Definition key_expansion (key : bytes) : list bytes :=
  let nk := (length key / 4)%nat in
  expand_words nk (4 * (rounds_of key + 1) - nk) (key_words key).

Definition round_key (w : list bytes) (r : nat) : bytes := concat (take 4 (drop (4 * r) w)).

(** ** The ciphers *)
Definition aes_cipher (key pt : bytes) : bytes :=
  let w := key_expansion key in
  let nr := rounds_of key in
  let s := add_round_key (round_key w 0) pt in
  let s := fold_left (fun s r => add_round_key (round_key w r) (mix_columns (shift_rows (sub_bytes s))))
             (seq 1 (nr - 1)) s in
  add_round_key (round_key w nr) (shift_rows (sub_bytes s)).

Definition aes_inv_cipher (key ct : bytes) : bytes :=
  let w := key_expansion key in
  let nr := rounds_of key in
  let s := add_round_key (round_key w nr) ct in
  let s := fold_left (fun s r => inv_mix_columns (add_round_key (round_key w r) (inv_sub_bytes (inv_shift_rows s))))
             (rev (seq 1 (nr - 1))) s in
  add_round_key (round_key w 0) (inv_sub_bytes (inv_shift_rows s)).

(** The vectors of appendix C of the standard. *)
Definition counting (n : nat) : bytes := map Z.of_nat (seq 0 n).
Definition test_block : bytes := map (fun i => 0x11 * Z.of_nat i) (seq 0 16).

Example aes128_vector :
  aes_cipher (counting 16) test_block =
    [0x69; 0xc4; 0xe0; 0xd8; 0x6a; 0x7b; 0x04; 0x30; 0xd8; 0xcd; 0xb7; 0x80; 0x70; 0xb4; 0xc5; 0x5a].
Proof. vm_compute. reflexivity. Qed.

Example aes192_vector :
  aes_cipher (counting 24) test_block =
    [0xdd; 0xa9; 0x7c; 0xa4; 0x86; 0x4c; 0xdf; 0xe0; 0x6e; 0xaf; 0x70; 0xa0; 0xec; 0x0d; 0x71; 0x91].
Proof. vm_compute. reflexivity. Qed.

Example aes256_vector :
  aes_cipher (counting 32) test_block =
    [0x8e; 0xa2; 0xb7; 0xca; 0x51; 0x67; 0x45; 0xbf; 0xea; 0xfc; 0x49; 0x90; 0x4b; 0x49; 0x60; 0x89].
Proof. vm_compute. reflexivity. Qed.

Example aes_inverse_vector : aes_inv_cipher (counting 24) (aes_cipher (counting 24) test_block) = test_block.
Proof. vm_compute. reflexivity. Qed.

(** ** Properties of the reference *)

(** A statement about every byte, decided by evaluation. *)
Lemma every_byte (P : Z -> bool) :
  forallb P (map Z.of_nat (seq 0 256)) = true -> forall x, is_u8 x -> P x = true.
Proof.
  intros H x Hx. rewrite forallb_forall in H. apply H, Z_enum. unfold in_u in Hx. lia.
Qed.

#[local] Ltac by_byte P := intros ?x ?Hx; apply Z.eqb_eq; revert x Hx; apply (every_byte P); vm_compute; reflexivity.
#[local] Ltac range_by_byte P :=
  intros ?x ?Hx;
  assert (P x = true) as HP by (revert x Hx; apply (every_byte P); vm_compute; reflexivity);
  apply andb_true_iff in HP; unfold in_u; lia.

Lemma inv_s_box_s_box : forall x, is_u8 x -> inv_s_box (s_box x) = x.
Proof. by_byte (fun x => inv_s_box (s_box x) =? x). Qed.

Lemma s_box_inv_s_box : forall x, is_u8 x -> s_box (inv_s_box x) = x.
Proof. by_byte (fun x => s_box (inv_s_box x) =? x). Qed.

Lemma s_box_u8 : forall x, is_u8 x -> is_u8 (s_box x).
Proof. range_by_byte (fun x => (0 <=? s_box x) && (s_box x <? 256)). Qed.

Lemma inv_s_box_u8 : forall x, is_u8 x -> is_u8 (inv_s_box x).
Proof. range_by_byte (fun x => (0 <=? inv_s_box x) && (inv_s_box x <? 256)). Qed.

(** *** Multiplication is linear *)

(** Equations between combinations of exclusive and inclusive or, decided bit by bit. *)
Ltac xor_eq :=
  apply Z.bits_inj; intros ?i; rewrite ?Z.lxor_spec, ?Z.lor_spec, ?Z.testbit_0_l;
  repeat match goal with |- context [Z.testbit ?x ?i] => generalize (Z.testbit x i); intros [] end;
  reflexivity.

Lemma u8_lxor a b : u8 (Z.lxor a b) = Z.lxor (u8 a) (u8 b).
Proof. apply Z.bits_inj'. intros i Hi. autorewrite with bits. by destruct (i <? 8); simpl_bool. Qed.

Lemma xtime_lxor a b : xtime (Z.lxor a b) = Z.lxor (xtime a) (xtime b).
Proof.
  unfold xtime. rewrite Z.lxor_spec, Z.shiftl_lxor, u8_lxor.
  destruct (Z.testbit a 7), (Z.testbit b 7); cbn [xorb]; xor_eq.
Qed.

Lemma xtime_u8 b : is_u8 (xtime b).
Proof. unfold xtime. apply lxor_u8; [apply u8_range|]. by destruct (Z.testbit b 7). Qed.

Lemma gf_mul_lxor m a b : gf_mul m (Z.lxor a b) = Z.lxor (gf_mul m a) (gf_mul m b).
Proof.
  unfold gf_mul. generalize 8%nat. intros n. revert m a b.
  induction n as [|n IH]; intros m a b; cbn [gf_mul_bits]; [done|].
  rewrite xtime_lxor, IH. destruct (Z.odd m); xor_eq.
Qed.

Lemma gf_mul_u8 m b : is_u8 b -> is_u8 (gf_mul m b).
Proof.
  unfold gf_mul. generalize 8%nat. intros n. revert m b.
  induction n as [|n IH]; intros m b Hb; cbn [gf_mul_bits]; [done|].
  apply lxor_u8; [by destruct (Z.odd m) | apply IH, xtime_u8].
Qed.

(** *** Blocks *)
Definition block (n : nat) (b : bytes) : Prop := is_bytes b /\ length b = n.

Lemma block_xor n a b : block n a -> block n b -> block n (xor_bytes a b).
Proof.
  intros [Ha <-] [Hb Hl]. split; [|unfold xor_bytes; rewrite length_zip_with; lia].
  clear Hl. revert b Hb. induction Ha as [|x a Hx Ha IH]; intros [|y b] Hb; cbn; try constructor;
    apply is_bytes_cons in Hb as [Hy Hb]; [by apply lxor_u8 | by apply IH].
Qed.

Lemma xor_xor n a k : block n a -> block n k -> xor_bytes (xor_bytes a k) k = a.
Proof.
  intros [_ <-] [_ Hl]. revert k Hl. induction a as [|x a IH]; intros [|y k] Hl; try done.
  cbn in *. f_equal; [|apply IH; lia]. by rewrite Z.lxor_assoc, Z.lxor_nilpotent, Z.lxor_0_r.
Qed.

Lemma block_map n f b : (forall x, is_u8 x -> is_u8 (f x)) -> block n b -> block n (map f b).
Proof.
  intros Hf [Hb <-]. split; [|by rewrite length_map]. apply Forall_map. by eapply List.Forall_impl; [apply Hf|].
Qed.

Lemma map_inverse n (f g : Z -> Z) b :
  (forall x, is_u8 x -> g (f x) = x) -> block n b -> map g (map f b) = b.
Proof.
  intros Hfg [Hb _]. rewrite map_map. induction Hb as [|x b Hx Hb IH]; cbn; [done|]. by rewrite Hfg, IH.
Qed.

Lemma nth_u8 b i : is_bytes b -> is_u8 (nth i b 0).
Proof. intros Hb. revert i. induction Hb as [|x b Hx Hb IH]; intros [|i]; cbn; done || apply IH. Qed.

Lemma block_select (f : nat -> nat) b : is_bytes b -> block 16 (map (fun i => nth (f i) b 0) (seq 0 16)).
Proof.
  intros Hb. split; [|done]. apply Forall_map, Forall_forall. intros i _. by apply nth_u8.
Qed.

(** Names the sixteen bytes of a block. *)
Ltac sixteen b :=
  let H := fresh in
  assert (H : length b = 16%nat) by done;
  do 16 (destruct b as [|? b]; [discriminate H|]); destruct b; [clear H | discriminate H].

Lemma inv_shift_shift b : block 16 b -> inv_shift_rows (shift_rows b) = b.
Proof. intros [_ Hl]. sixteen b. reflexivity. Qed.

Lemma shift_inv_shift b : block 16 b -> shift_rows (inv_shift_rows b) = b.
Proof. intros [_ Hl]. sixteen b. reflexivity. Qed.

Lemma shift_inv_sub b : block 16 b -> shift_rows (inv_sub_bytes b) = inv_sub_bytes (shift_rows b).
Proof. intros [_ Hl]. sixteen b. reflexivity. Qed.

(** *** Mixing columns is linear and invertible *)
Lemma mix_column_xor m a b :
  block 4 a -> block 4 b -> mix_column m (xor_bytes a b) = xor_bytes (mix_column m a) (mix_column m b).
Proof.
  intros [_ Ha] [_ Hb]. do 4 (destruct a as [|? a]; [discriminate Ha|]; destruct b as [|? b]; [discriminate Hb|]).
  destruct a, b; try discriminate. unfold mix_column, xor_all, xor_bytes. cbn -[gf_mul]. rewrite !gf_mul_lxor.
  do 4 (apply (f_equal2 cons); [xor_eq|]). done.
Qed.

Lemma xor_all_u8 l : is_bytes l -> is_u8 (xor_all l).
Proof.
  intros Hl. unfold xor_all. assert (is_u8 0) as Hacc by done. revert Hacc. generalize 0.
  induction Hl as [|x l Hx Hl IH]; intros acc Hacc; cbn; [done|]. by apply IH, lxor_u8.
Qed.

Lemma mix_column_block m c : block 4 c -> block 4 (mix_column m c).
Proof.
  intros [Hc _]. split; [|done]. apply Forall_map, Forall_forall. intros r _.
  apply xor_all_u8, Forall_map, Forall_forall. intros k _. by apply gf_mul_u8, nth_u8.
Qed.

(** A byte alone in a column. *)
Definition alone (k : nat) (x : Z) : bytes := <[k := x]> [0; 0; 0; 0].

Definition inverse_matrices (m m' : list Z) : Prop :=
  forall k x, (k < 4)%nat -> is_u8 x -> mix_column m (mix_column m' (alone k x)) = alone k x.

Lemma column_split a b c d :
  [a; b; c; d] = xor_bytes (xor_bytes (xor_bytes (alone 0 a) (alone 1 b)) (alone 2 c)) (alone 3 d).
Proof. unfold xor_bytes, alone. cbn. by rewrite !Z.lxor_0_r. Qed.

Lemma alone_block k x : is_u8 x -> block 4 (alone k x).
Proof.
  intros Hx. split; [|unfold alone; by rewrite length_insert].
  apply is_bytes_insert; [repeat constructor; done | done].
Qed.

Lemma mix_column_inverse m m' c : inverse_matrices m m' -> block 4 c -> mix_column m (mix_column m' c) = c.
Proof.
  intros Hm [Hb Hl]. do 4 (destruct c as [|? c]; [discriminate Hl|]). destruct c; [|discriminate].
  repeat apply is_bytes_cons in Hb as [? Hb]. rewrite column_split.
  repeat rewrite mix_column_xor by auto using block_xor, alone_block, mix_column_block.
  by rewrite !Hm by (done || lia).
Qed.

Definition inverse_matrices_b (m m' : list Z) (k : nat) (x : Z) : bool :=
  bool_decide (mix_column m (mix_column m' (alone k x)) = alone k x).

Lemma inverse_matrices_check m m' :
  forallb (fun k => forallb (inverse_matrices_b m m' k) (map Z.of_nat (seq 0 256))) (seq 0 4) = true ->
  inverse_matrices m m'.
Proof.
  intros Hall k x Hk Hx. apply (bool_decide_eq_true_1 _), (every_byte (inverse_matrices_b m m' k)); [|done].
  rewrite forallb_forall in Hall. apply Hall, in_seq. lia.
Qed.

Lemma inv_mix_matrices : inverse_matrices [0x0e; 0x0b; 0x0d; 0x09] [2; 3; 1; 1].
Proof. apply inverse_matrices_check. vm_compute. reflexivity. Qed.

Lemma mix_inv_matrices : inverse_matrices [2; 3; 1; 1] [0x0e; 0x0b; 0x0d; 0x09].
Proof. apply inverse_matrices_check. vm_compute. reflexivity. Qed.

Lemma fold_left_map {A B C} (f : A -> B -> A) (g : C -> B) l a :
  fold_left f (map g l) a = fold_left (fun a c => f a (g c)) l a.
Proof. revert a. induction l as [|c l IH]; intros a; cbn; [done | apply IH]. Qed.

(** Two folds agree when their steps do on the values that satisfy an invariant of the second. *)
Lemma fold_left_ext_inv {A B} (P : A -> Prop) (f g : A -> B -> A) l a :
  P a -> (forall a b, In b l -> P a -> f a b = g a b /\ P (g a b)) -> fold_left f l a = fold_left g l a.
Proof.
  revert a. induction l as [|b l IH]; intros a Ha Hfg; cbn; [done|].
  destruct (Hfg a b (or_introl eq_refl) Ha) as [-> HP]. apply IH; [done|].
  intros a' b' Hb. apply Hfg. by right.
Qed.

Lemma fold_left_ext {A B} (f g : A -> B -> A) l a :
  (forall a b, In b l -> f a b = g a b) -> fold_left f l a = fold_left g l a.
Proof. intros Hfg. apply (fold_left_ext_inv (fun _ => True)); auto. Qed.

Lemma xor_bytes_app a b c d :
  length a = length c -> xor_bytes (a ++ b) (c ++ d) = xor_bytes a c ++ xor_bytes b d.
Proof. apply zip_with_app. Qed.

Lemma mix_columns_app m a b c d :
  length a = 4%nat -> length b = 4%nat -> length c = 4%nat -> length d = 4%nat ->
  mix_columns_by m (a ++ b ++ c ++ d) =
    mix_column m a ++ mix_column m b ++ mix_column m c ++ mix_column m d.
Proof.
  intros. repeat match goal with
  | H : length ?l = 4%nat |- _ =>
      destruct l as [|? [|? [|? [|? [|]]]]]; try discriminate H; clear H
  end.
  unfold mix_columns_by. cbn -[mix_column]. by rewrite app_nil_r.
Qed.

Lemma block_split (b : bytes) :
  length b = 16%nat -> b = take 4 b ++ take 4 (drop 4 b) ++ take 4 (drop 8 b) ++ take 4 (drop 12 b).
Proof. intros Hl. do 16 (destruct b as [|? b]; [discriminate Hl|]). by destruct b. Qed.

#[local] Opaque mix_column.

Lemma block_app n k a b : block n a -> block k b -> block (n + k) (a ++ b).
Proof. intros [Ha <-] [Hb <-]. split; [by apply Forall_app | apply length_app]. Qed.

Lemma block_columns b :
  block 16 b -> exists c0 c1 c2 c3, b = c0 ++ c1 ++ c2 ++ c3 /\
    block 4 c0 /\ block 4 c1 /\ block 4 c2 /\ block 4 c3.
Proof.
  intros [Hb Hl].
  exists (take 4 b), (take 4 (drop 4 b)), (take 4 (drop 8 b)), (take 4 (drop 12 b)).
  split; [by apply block_split|].
  split_and!; split; rewrite ?length_take, ?length_drop, ?Hl; try done;
    apply Forall_take; by try apply Forall_drop.
Qed.

Lemma length_block n b : block n b -> length b = n.
Proof. intros [_ Hl]. done. Qed.

Lemma same_length n a b : block n a -> block n b -> length a = length b.
Proof. by intros [_ ->] [_ ->]. Qed.

Create HintDb blocks discriminated.
#[export] Hint Resolve length_block block_xor mix_column_block alone_block : blocks.
#[export] Hint Resolve same_length | 10 : blocks.

Lemma mix_columns_xor m a b :
  block 16 a -> block 16 b ->
  mix_columns_by m (xor_bytes a b) = xor_bytes (mix_columns_by m a) (mix_columns_by m b).
Proof.
  intros (a0 & a1 & a2 & a3 & -> & ? & ? & ? & ?)%block_columns.
  intros (b0 & b1 & b2 & b3 & -> & ? & ? & ? & ?)%block_columns.
  rewrite !xor_bytes_app, !mix_columns_app, !mix_column_xor, !xor_bytes_app by eauto with blocks. done.
Qed.

Lemma mix_columns_block m b : block 16 b -> block 16 (mix_columns_by m b).
Proof.
  intros (a0 & a1 & a2 & a3 & -> & ? & ? & ? & ?)%block_columns.
  rewrite mix_columns_app by auto with blocks.
  repeat apply (block_app 4); by apply mix_column_block.
Qed.

Lemma mix_columns_inverse m m' b :
  inverse_matrices m m' -> block 16 b -> mix_columns_by m (mix_columns_by m' b) = b.
Proof.
  intros Hm (a0 & a1 & a2 & a3 & -> & ? & ? & ? & ?)%block_columns.
  rewrite !mix_columns_app by auto with blocks. by rewrite !mix_column_inverse.
Qed.

(** *** The rounds, given the round keys *)
Definition enc_round (k s : bytes) : bytes := add_round_key k (mix_columns (shift_rows (sub_bytes s))).
Definition dec_round (k s : bytes) : bytes := inv_mix_columns (add_round_key k (inv_sub_bytes (inv_shift_rows s))).

Definition enc_last (k s : bytes) : bytes := add_round_key k (shift_rows (sub_bytes s)).
Definition dec_last (k s : bytes) : bytes := add_round_key k (inv_sub_bytes (inv_shift_rows s)).

Lemma shift_sub_block s : block 16 s -> block 16 (shift_rows (sub_bytes s)).
Proof. intros Hs. apply block_select, (block_map 16); [apply s_box_u8 | done]. Qed.

Lemma inv_sub_shift_block s : block 16 s -> block 16 (inv_sub_bytes (inv_shift_rows s)).
Proof. intros Hs. apply block_map; [apply inv_s_box_u8 | apply block_select, Hs]. Qed.

Lemma inv_shift_sub s : block 16 s -> inv_sub_bytes (inv_shift_rows (shift_rows (sub_bytes s))) = s.
Proof.
  intros Hs. rewrite inv_shift_shift by (apply (block_map 16); [apply s_box_u8 | done]).
  by apply (map_inverse 16); [apply inv_s_box_s_box|].
Qed.

Lemma shift_sub_inv s : block 16 s -> shift_rows (sub_bytes (inv_sub_bytes (inv_shift_rows s))) = s.
Proof.
  intros Hs. unfold sub_bytes, inv_sub_bytes.
  rewrite (map_inverse 16) by (apply s_box_inv_s_box || apply block_select, Hs). by apply shift_inv_shift.
Qed.

#[export] Hint Resolve shift_sub_block inv_sub_shift_block mix_columns_block : blocks.

Lemma add_round_key_block k s : block 16 k -> block 16 s -> block 16 (add_round_key k s).
Proof. unfold add_round_key. auto with blocks. Qed.
#[export] Hint Resolve add_round_key_block : blocks.

Lemma enc_round_block k s : block 16 k -> block 16 s -> block 16 (enc_round k s).
Proof. intros. unfold enc_round, mix_columns. auto with blocks. Qed.
Lemma dec_round_block k s : block 16 k -> block 16 s -> block 16 (dec_round k s).
Proof. intros. unfold dec_round, inv_mix_columns. auto with blocks. Qed.
#[export] Hint Resolve enc_round_block dec_round_block : blocks.

Section rounds.
Context (key : nat -> bytes).

Definition keys_ok (l : list nat) : Prop := forall r, In r l -> block 16 (key r).

Lemma fold_block (round : bytes -> bytes -> bytes) l s :
  (forall k s, block 16 k -> block 16 s -> block 16 (round k s)) ->
  keys_ok l -> block 16 s -> block 16 (fold_left (fun s r => round (key r) s) l s).
Proof.
  intros Hround. revert s. induction l as [|r l IH]; intros s Hl Hs; cbn; [done|].
  apply IH; [intros r' Hr'; apply Hl; by right|]. apply Hround; [apply Hl; by left | done].
Qed.

(** The rounds of decryption undo those of encryption from the last one on. *)
Lemma rounds_undone l s :
  keys_ok l -> block 16 s ->
  fold_left (fun s r => dec_round (key r) s) (rev l)
    (shift_rows (sub_bytes (fold_left (fun s r => enc_round (key r) s) l s))) =
  shift_rows (sub_bytes s).
Proof.
  revert s. induction l as [|r l IH]; intros s Hl Hs; cbn [fold_left rev]; [done|].
  assert (block 16 (key r)) as Hk by (apply Hl; by left).
  rewrite fold_left_app, IH by (auto with blocks || intros r' Hr'; apply Hl; by right). cbn [fold_left].
  unfold dec_round, enc_round at 1. rewrite inv_shift_sub by (fold (enc_round (key r) s); auto with blocks).
  unfold add_round_key. rewrite (xor_xor 16) by (unfold mix_columns; auto with blocks).
  apply mix_columns_inverse; [apply inv_mix_matrices | auto with blocks].
Qed.

Lemma rounds_redone l s :
  keys_ok l -> block 16 s ->
  fold_left (fun s r => enc_round (key r) s) l
    (inv_sub_bytes (inv_shift_rows (fold_left (fun s r => dec_round (key r) s) (rev l) s))) =
  inv_sub_bytes (inv_shift_rows s).
Proof.
  revert s. induction l as [|r l IH] using rev_ind; intros s Hl Hs; cbn [fold_left rev]; [done|].
  assert (block 16 (key r)) as Hk by (apply Hl, in_app_iff; right; by left).
  rewrite rev_app_distr, fold_left_app. cbn [rev app fold_left].
  rewrite IH by (auto with blocks || intros r' Hr'; apply Hl, in_app_iff; by left).
  unfold enc_round, dec_round at 1. rewrite shift_sub_inv by (fold (dec_round (key r) s); auto with blocks).
  unfold mix_columns, inv_mix_columns, add_round_key.
  rewrite (mix_columns_inverse _ _ _ mix_inv_matrices) by auto with blocks.
  apply (xor_xor 16); auto with blocks.
Qed.
End rounds.

(** *** The key schedule *)
Definition aes_key (key : bytes) : Prop :=
  is_bytes key /\ (length key = 16 \/ length key = 24 \/ length key = 32)%nat.

Lemma block_sub_word w : block 4 w -> block 4 (sub_word w).
Proof. apply block_map, s_box_u8. Qed.

Lemma block_rot_word w : block 4 w -> block 4 (rot_word w).
Proof.
  intros [Hw Hl]. split; [by apply Forall_app; split; [apply Forall_drop | apply Forall_take]|].
  unfold rot_word. rewrite length_app, length_drop, length_take. lia.
Qed.

Lemma block_rcon_word i : block 4 (rcon_word i).
Proof.
  split; [|done]. apply List.Forall_cons; [|by repeat constructor].
  induction (i - 1)%nat as [|n IH]; [done | apply xtime_u8].
Qed.

Lemma nth_block (w : list bytes) i : Forall (block 4) w -> (i < length w)%nat -> block 4 (nth i w []).
Proof. intros Hw Hi. rewrite List.Forall_forall in Hw. by apply Hw, nth_In. Qed.

Lemma next_word_block nk w :
  (0 < nk <= length w)%nat -> Forall (block 4) w -> block 4 (next_word nk w).
Proof.
  intros Hn Hw. unfold next_word.
  pose proof (nth_block w (length w - 1) Hw ltac:(lia)) as Ht.
  pose proof (nth_block w (length w - nk) Hw ltac:(lia)).
  apply block_xor; [done|]. repeat case_match; try done.
  - apply block_xor; [by apply block_sub_word, block_rot_word | apply block_rcon_word].
  - by apply block_sub_word.
Qed.

Lemma expand_words_ok nk n w :
  (0 < nk <= length w)%nat -> Forall (block 4) w ->
  Forall (block 4) (expand_words nk n w) /\ length (expand_words nk n w) = (length w + n)%nat.
Proof.
  revert w. induction n as [|n IH]; intros w Hn Hw; cbn [expand_words]; [split; [done | lia]|].
  destruct (IH (w ++ [next_word nk w])) as [Hf Hl].
  - rewrite length_app. lia.
  - apply Forall_app. split; [done|]. by repeat constructor; apply next_word_block.
  - split; [done|]. rewrite Hl, length_app. cbn. lia.
Qed.

Lemma key_words_block key : is_bytes key -> Forall (block 4) (key_words key).
Proof.
  intros Hk. apply Forall_map, List.Forall_forall. intros i [_ Hi]%in_seq. split.
  - by apply Forall_take, Forall_drop.
  - rewrite length_take, length_drop. pose proof (Nat.Div0.mul_div_le (length key) 4). lia.
Qed.

Lemma key_expansion_ok key :
  aes_key key ->
  Forall (block 4) (key_expansion key) /\ length (key_expansion key) = (4 * (rounds_of key + 1))%nat.
Proof.
  intros [Hk Hl].
  assert (length (key_words key) = (length key / 4)%nat) as Hw by (unfold key_words; by rewrite length_map, length_seq).
  unfold key_expansion, rounds_of.
  destruct (expand_words_ok (length key / 4) (4 * (length key / 4 + 6 + 1) - length key / 4) (key_words key)) as [Hf ->].
  - rewrite Hw. destruct Hl as [-> | [-> | ->]]; cbn; lia.
  - by apply key_words_block.
  - split; [done|]. rewrite Hw. destruct Hl as [-> | [-> | ->]]; reflexivity.
Qed.

Lemma round_key_block key r : aes_key key -> (r <= rounds_of key)%nat -> block 16 (round_key (key_expansion key) r).
Proof.
  intros [Hw Hl]%key_expansion_ok Hr. unfold round_key.
  pose proof (length_drop (key_expansion key) (4 * r)) as Hd. apply (Forall_drop _ (4 * r)) in Hw.
  rewrite Hl in Hd.
  destruct (drop (4 * r) (key_expansion key)) as [|a [|b [|c [|d l]]]]; cbn [length] in Hd; try lia.
  rewrite !List.Forall_cons_iff in Hw. destruct Hw as (? & ? & ? & ? & _). cbn [take concat]. rewrite app_nil_r.
  repeat apply (block_app 4); done.
Qed.

Lemma round_keys_ok key :
  aes_key key -> keys_ok (round_key (key_expansion key)) (seq 1 (rounds_of key - 1)).
Proof. intros Hk r Hr%in_seq. apply round_key_block; [done | lia]. Qed.

(** The two ciphers as rounds, and that each undoes the other. *)
Section ciphers.
Context (key : bytes) (Hkey : aes_key key).
#[local] Notation rk := (round_key (key_expansion key)).
#[local] Notation nr := (rounds_of key).

Lemma aes_cipher_rounds pt :
  aes_cipher key pt =
    enc_last (rk nr) (fold_left (fun s r => enc_round (rk r) s) (seq 1 (nr - 1)) (add_round_key (rk 0%nat) pt)).
Proof. reflexivity. Qed.

Lemma aes_inv_cipher_rounds ct :
  aes_inv_cipher key ct =
    dec_last (rk 0%nat) (fold_left (fun s r => dec_round (rk r) s) (rev (seq 1 (nr - 1))) (add_round_key (rk nr) ct)).
Proof. reflexivity. Qed.

Lemma rk_block r : (r <= nr)%nat -> block 16 (rk r).
Proof. by apply round_key_block. Qed.

Lemma add_twice k s : block 16 k -> block 16 s -> add_round_key k (add_round_key k s) = s.
Proof. intros. by apply (xor_xor 16). Qed.

Lemma enc_fold_block s :
  block 16 s -> block 16 (fold_left (fun s r => enc_round (rk r) s) (seq 1 (nr - 1)) s).
Proof. apply fold_block; [apply enc_round_block | by apply round_keys_ok]. Qed.

Lemma dec_fold_block s :
  block 16 s -> block 16 (fold_left (fun s r => dec_round (rk r) s) (rev (seq 1 (nr - 1))) s).
Proof.
  apply fold_block; [apply dec_round_block|]. intros r Hr%in_rev. by apply round_keys_ok.
Qed.

Lemma aes_inv_cipher_cipher pt : block 16 pt -> aes_inv_cipher key (aes_cipher key pt) = pt.
Proof.
  intros Hp. rewrite aes_inv_cipher_rounds, aes_cipher_rounds.
  pose proof (rk_block 0 ltac:(lia)). pose proof (rk_block nr ltac:(lia)).
  unfold enc_last. rewrite add_twice by (auto using enc_fold_block with blocks).
  rewrite rounds_undone by (auto using round_keys_ok with blocks).
  unfold dec_last. rewrite inv_shift_sub by auto with blocks. by apply add_twice.
Qed.

Lemma aes_cipher_inv_cipher ct : block 16 ct -> aes_cipher key (aes_inv_cipher key ct) = ct.
Proof.
  intros Hp. rewrite aes_cipher_rounds, aes_inv_cipher_rounds.
  pose proof (rk_block 0 ltac:(lia)). pose proof (rk_block nr ltac:(lia)).
  unfold dec_last. rewrite add_twice by (auto using dec_fold_block with blocks).
  rewrite rounds_redone by (auto using round_keys_ok with blocks).
  unfold enc_last. rewrite shift_sub_inv by auto with blocks. by apply add_twice.
Qed.

Lemma aes_cipher_block pt : block 16 pt -> block 16 (aes_cipher key pt).
Proof.
  intros. rewrite aes_cipher_rounds. unfold enc_last.
  pose proof (rk_block 0 ltac:(lia)). pose proof (rk_block nr ltac:(lia)).
  auto using enc_fold_block with blocks.
Qed.

Lemma aes_inv_cipher_block ct : block 16 ct -> block 16 (aes_inv_cipher key ct).
Proof.
  intros. rewrite aes_inv_cipher_rounds. unfold dec_last.
  pose proof (rk_block 0 ltac:(lia)). pose proof (rk_block nr ltac:(lia)).
  auto using dec_fold_block with blocks.
Qed.
End ciphers.
