(* ===== verification/Aes.v ===== *)
(** * AES as the library computes it: lib/libtomcrypt/src/ciphers/aes/aes.c

    [rijndael_setup], [rijndael_ecb_encrypt] and [rijndael_ecb_decrypt] of the build without
    [LTC_SMALL_CODE]: a round is sixteen table lookups, two rounds a pass.  The theorems:
    encryption is AES as FIPS 197 defines it (AesSpec), for the three key sizes, and
    decryption undoes it. *)
From S2P Require Import Prelude HashStream Sha256 AesSpec AesTables Cipher.

(** ** The code *)

(** [byte(x, n)], and an access to a table by it. *)
Definition byte (x n : Z) : Z := Z.land (Z.shiftr x (8 * n)) 255.
Definition entry (table : list Z) (x n : Z) : Z := nth (Z.to_nat (byte x n)) table 0.

Definition setup_mix (temp : Z) : Z :=
  Z.lxor (Z.lxor (Z.lxor (entry Te4_3 temp 2) (entry Te4_2 temp 1)) (entry Te4_1 temp 0)) (entry Te4_0 temp 3).

(** The words from [rk] on; every use is inside the schedule. *)
Definition at_rk (rk : list Z) (i : nat) : Z := nth i rk 0.
#[local] Infix "^^" := Z.lxor (at level 50, left associativity).

(** The loops of the forward key: [n] passes from pass [i] on; a pass reads the words from
    [rk] on and the next one those after the words it adds. *)
Fixpoint setup_128 (n i : nat) (rk : list Z) : list Z :=
  match n with
  | O => []
  | S n =>
      let rk4 := at_rk rk 0 ^^ setup_mix (at_rk rk 3) ^^ nth i rcon 0 in
      let rk5 := at_rk rk 1 ^^ rk4 in
      let rk6 := at_rk rk 2 ^^ rk5 in
      let rk7 := at_rk rk 3 ^^ rk6 in
      [rk4; rk5; rk6; rk7] ++ setup_128 n (S i) [rk4; rk5; rk6; rk7]
  end.

(** The last pass stops after four words. *)
Fixpoint setup_192 (n i : nat) (rk : list Z) : list Z :=
  match n with
  | O => []
  | S n =>
      let rk6 := at_rk rk 0 ^^ setup_mix (at_rk rk 5) ^^ nth i rcon 0 in
      let rk7 := at_rk rk 1 ^^ rk6 in
      let rk8 := at_rk rk 2 ^^ rk7 in
      let rk9 := at_rk rk 3 ^^ rk8 in
      if (n =? 0)%nat then [rk6; rk7; rk8; rk9] else
      let rk10 := at_rk rk 4 ^^ rk9 in
      let rk11 := at_rk rk 5 ^^ rk10 in
      [rk6; rk7; rk8; rk9; rk10; rk11] ++ setup_192 n (S i) [rk6; rk7; rk8; rk9; rk10; rk11]
  end.

Fixpoint setup_256 (n i : nat) (rk : list Z) : list Z :=
  match n with
  | O => []
  | S n =>
      let rk8 := at_rk rk 0 ^^ setup_mix (at_rk rk 7) ^^ nth i rcon 0 in
      let rk9 := at_rk rk 1 ^^ rk8 in
      let rk10 := at_rk rk 2 ^^ rk9 in
      let rk11 := at_rk rk 3 ^^ rk10 in
      if (n =? 0)%nat then [rk8; rk9; rk10; rk11] else
      let rk12 := at_rk rk 4 ^^ setup_mix (ror rk11 8) in
      let rk13 := at_rk rk 5 ^^ rk12 in
      let rk14 := at_rk rk 6 ^^ rk13 in
      let rk15 := at_rk rk 7 ^^ rk14 in
      [rk8; rk9; rk10; rk11; rk12; rk13; rk14; rk15] ++
        setup_256 n (S i) [rk8; rk9; rk10; rk11; rk12; rk13; rk14; rk15]
  end.

Definition load_words (key : bytes) : list Z :=
  map (fun i => load32h (drop (4 * i) key)) (seq 0 (length key / 4)).

(** The key schedule; of the arrays of 60 words the part that is written. *)
Record rijndael_key : Type := mk_rijndael {
  eK : list Z;
  dK : list Z;
  Nr : Z
}.

(** [Tks] mix one word of a round key for decryption. *)
Definition inverse_mix (temp : Z) : Z :=
  entry Tks0 temp 3 ^^ entry Tks1 temp 2 ^^ entry Tks2 temp 1 ^^ entry Tks3 temp 0.

(** The round keys in reverse order, all but the first and the last one mixed. *)
Definition inverse_key (ek : list Z) (nr : nat) : list Z :=
  let rrk i := take 4 (drop (4 * i) ek) in
  rrk nr ++ concat (map (fun i => map inverse_mix (rrk (nr - i)%nat)) (seq 1 (nr - 1))) ++ rrk 0%nat.

Definition CRYPT_INVALID_KEYSIZE : Z := 3.
Definition CRYPT_INVALID_ROUNDS : Z := 4.

(** [rijndael_setup]: the result code, and the schedule unless an argument is refused, when
    [skey] is left as it was. *)
Definition rijndael_setup (key : bytes) (keylen num_rounds : Z) : Z * option rijndael_key :=
  if negb (keylen =? 16) && negb (keylen =? 24) && negb (keylen =? 32) then (CRYPT_INVALID_KEYSIZE, None) else
  let nr := 10 + (keylen / 8 - 2) * 2 in
  if negb (num_rounds =? 0) && negb (num_rounds =? nr) then (CRYPT_INVALID_ROUNDS, None) else
  let rk := load_words (take (Z.to_nat keylen) key) in
  let ek :=
    rk ++ (if keylen =? 16 then setup_128 10 0 rk else
           if keylen =? 24 then setup_192 8 0 rk else setup_256 7 0 rk) in
  (CRYPT_OK, Some (mk_rijndael ek (inverse_key ek (Z.to_nat nr)) nr)).

(** The state of a cipher: the words [s0] to [s3], or [t0] to [t3]. *)
Definition words4 : Type := Z * Z * Z * Z.

Definition te_column (a b c d k : Z) : Z :=
  entry TE0 a 3 ^^ entry TE1 b 2 ^^ entry TE2 c 1 ^^ entry TE3 d 0 ^^ k.

(** One round, with the round key from [rk[o]] on. *)
Definition te_round (s : words4) (rk : list Z) (o : nat) : words4 :=
  let '(s0, s1, s2, s3) := s in
  (te_column s0 s1 s2 s3 (at_rk rk o), te_column s1 s2 s3 s0 (at_rk rk (o + 1)),
   te_column s2 s3 s0 s1 (at_rk rk (o + 2)), te_column s3 s0 s1 s2 (at_rk rk (o + 3))).

(** The loop of full rounds of both directions, [r] its counter: two rounds a pass.  The words
    [t] and the place of [rk] after it. *)
Fixpoint full_rounds (round : words4 -> list Z -> nat -> words4) (r : nat) (s : words4) (rk : list Z)
    : words4 * list Z :=
  match r with
  | O => (s, rk)
  | S r =>
      let t := round s rk 4%nat in
      let rk := drop 8 rk in
      if (r =? 0)%nat then (t, rk) else full_rounds round r (round t rk 0%nat) rk
  end.

Definition load_block (b : bytes) (rk : list Z) : words4 :=
  (load32h b ^^ at_rk rk 0, load32h (drop 4 b) ^^ at_rk rk 1,
   load32h (drop 8 b) ^^ at_rk rk 2, load32h (drop 12 b) ^^ at_rk rk 3).

Definition store_block (s : words4) : bytes :=
  let '(s0, s1, s2, s3) := s in store32h s0 ++ store32h s1 ++ store32h s2 ++ store32h s3.

Definition te_last_column (a b c d k : Z) : Z :=
  entry Te4_3 a 3 ^^ entry Te4_2 b 2 ^^ entry Te4_1 c 1 ^^ entry Te4_0 d 0 ^^ k.

Definition te_last (t : words4) (rk : list Z) : words4 :=
  let '(t0, t1, t2, t3) := t in
  (te_last_column t0 t1 t2 t3 (at_rk rk 0), te_last_column t1 t2 t3 t0 (at_rk rk 1),
   te_last_column t2 t3 t0 t1 (at_rk rk 2), te_last_column t3 t0 t1 t2 (at_rk rk 3)).

Definition rijndael_ecb_encrypt (pt : bytes) (skey : rijndael_key) : bytes :=
  let rk := eK skey in
  let '(t, rk) := full_rounds te_round (Z.to_nat (Z.shiftr (Nr skey) 1)) (load_block pt rk) rk in
  store_block (te_last t rk).

(** *** Decryption *)
Definition td_column (a b c d k : Z) : Z :=
  entry TD0 a 3 ^^ entry TD1 b 2 ^^ entry TD2 c 1 ^^ entry TD3 d 0 ^^ k.

Definition td_round (s : words4) (rk : list Z) (o : nat) : words4 :=
  let '(s0, s1, s2, s3) := s in
  (td_column s0 s3 s2 s1 (at_rk rk o), td_column s1 s0 s3 s2 (at_rk rk (o + 1)),
   td_column s2 s1 s0 s3 (at_rk rk (o + 2)), td_column s3 s2 s1 s0 (at_rk rk (o + 3))).

Definition td_last_column (a b c d k : Z) : Z :=
  Z.land (entry Td4 a 3) 0xff000000 ^^ Z.land (entry Td4 b 2) 0x00ff0000 ^^
  Z.land (entry Td4 c 1) 0x0000ff00 ^^ Z.land (entry Td4 d 0) 0x000000ff ^^ k.

Definition td_last (t : words4) (rk : list Z) : words4 :=
  let '(t0, t1, t2, t3) := t in
  (td_last_column t0 t3 t2 t1 (at_rk rk 0), td_last_column t1 t0 t3 t2 (at_rk rk 1),
   td_last_column t2 t1 t0 t3 (at_rk rk 2), td_last_column t3 t2 t1 t0 (at_rk rk 3)).

Definition rijndael_ecb_decrypt (ct : bytes) (skey : rijndael_key) : bytes :=
  let rk := dK skey in
  let '(t, rk) := full_rounds td_round (Z.to_nat (Z.shiftr (Nr skey) 1)) (load_block ct rk) rk in
  store_block (td_last t rk).

(** [rijndael_keysize]: the result code and the size that suits. *)
Definition rijndael_keysize (keysize : Z) : Z * Z :=
  if keysize <? 16 then (CRYPT_INVALID_KEYSIZE, keysize) else
  if keysize <? 24 then (CRYPT_OK, 16) else
  if keysize <? 32 then (CRYPT_OK, 24) else (CRYPT_OK, 32).

Example setup_vector :
  match rijndael_setup (counting 24) 24 0 with
  | (_, Some k) =>
      rijndael_ecb_encrypt test_block k = aes_cipher (counting 24) test_block /\
      rijndael_ecb_decrypt (aes_cipher (counting 24) test_block) k = test_block
  | _ => False
  end.
Proof. vm_compute. split; reflexivity. Qed.

(** ** Words and bytes *)
Lemma byte_u8 x n : byte x n = u8 (Z.shiftr x (8 * n)).
Proof. unfold byte, u8. by rewrite (Z.land_ones _ 8). Qed.

Lemma byte_range x n : is_u8 (byte x n).
Proof. rewrite byte_u8. apply u8_range. Qed.

Lemma byte_lxor a b n : 0 <= n -> byte (a ^^ b) n = byte a n ^^ byte b n.
Proof.
  intros Hn. rewrite !byte_u8. apply Z.bits_inj'. intros i Hi.
  autorewrite with bits. by destruct (i <? 8); simpl_bool.
Qed.

Lemma store32h_bytes x : store32h x = [byte x 3; byte x 2; byte x 1; byte x 0].
Proof. rewrite !byte_u8. unfold store32h. cbn. by rewrite !Z.shiftr_shiftr by lia. Qed.

Lemma store32h_lxor a b : store32h (a ^^ b) = xor_bytes (store32h a) (store32h b).
Proof. rewrite !store32h_bytes, !byte_lxor by lia. done. Qed.

Lemma is_bytes_store32h x : is_bytes (store32h x).
Proof. rewrite store32h_bytes. repeat (apply List.Forall_cons; [apply byte_range|]). constructor. Qed.

Lemma store32h_load32h b :
  is_bytes b -> (4 <= length b)%nat -> store32h (load32h b) = take 4 b.
Proof.
  intros Hb Hl. destruct b as [|b0 [|b1 [|b2 [|b3 b]]]]; cbn in Hl; try lia.
  assert (is_bytes [b3; b2; b1; b0]) as Hr.
  { repeat apply is_bytes_cons in Hb as [? Hb]. by repeat (apply List.Forall_cons; [done|]). }
  assert (load32h (b0 :: b1 :: b2 :: b3 :: b) = le_val [b3; b2; b1; b0]) as ->.
  { repeat apply is_bytes_cons in Hr as [? Hr]. unfold load32h. cbn [nth le_val].
    rewrite !u8_small, !Z.shiftl_lor, !Z.shiftl_shiftl, Z.shiftl_0_l by (done || lia).
    change (8 + 8) with 16. change (8 + 16) with 24.
    xor_eq. }
  apply le_bytes_le_val in Hr. change (length _) with 4%nat in Hr. unfold store32h. by rewrite Hr.
Qed.

(** ** The tables *)
Definition table_ok (table : list Z) (f : Z -> bytes) : Prop :=
  forall x n, store32h (entry table x n) = f (byte x n).

Lemma table_check table f :
  map store32h table = map (fun i => f (Z.of_nat i)) (seq 0 256) -> table_ok table f.
Proof.
  intros Ht x n. unfold entry. pose proof (byte_range x n) as Hr. unfold in_u in Hr.
  rewrite <- (map_nth store32h), Ht.
  rewrite (nth_indep _ _ (f (Z.of_nat 0))) by (rewrite length_map, length_seq; lia).
  rewrite (map_nth (fun i => f (Z.of_nat i))), seq_nth by lia. f_equal. lia.
Qed.

(** The products of one byte of a column, at place [k], with the matrix of first row [m]. *)
Definition mix_part (m : list Z) (k : nat) (x : Z) : bytes :=
  map (fun r => gf_mul (nth ((k + 4 - r) mod 4)%nat m 0) x) (seq 0 4).

Definition mix_row : list Z := [2; 3; 1; 1].
Definition inv_mix_row : list Z := [0x0e; 0x0b; 0x0d; 0x09].

#[local] Ltac table := apply table_check; vm_compute; reflexivity.
Lemma TE0_ok : table_ok TE0 (fun x => mix_part mix_row 0 (s_box x)). Proof. table. Qed.
Lemma TE1_ok : table_ok TE1 (fun x => mix_part mix_row 1 (s_box x)). Proof. table. Qed.
Lemma TE2_ok : table_ok TE2 (fun x => mix_part mix_row 2 (s_box x)). Proof. table. Qed.
Lemma TE3_ok : table_ok TE3 (fun x => mix_part mix_row 3 (s_box x)). Proof. table. Qed.
Lemma TD0_ok : table_ok TD0 (fun x => mix_part inv_mix_row 0 (inv_s_box x)). Proof. table. Qed.
Lemma TD1_ok : table_ok TD1 (fun x => mix_part inv_mix_row 1 (inv_s_box x)). Proof. table. Qed.
Lemma TD2_ok : table_ok TD2 (fun x => mix_part inv_mix_row 2 (inv_s_box x)). Proof. table. Qed.
Lemma TD3_ok : table_ok TD3 (fun x => mix_part inv_mix_row 3 (inv_s_box x)). Proof. table. Qed.
Lemma Tks0_ok : table_ok Tks0 (mix_part inv_mix_row 0). Proof. table. Qed.
Lemma Tks1_ok : table_ok Tks1 (mix_part inv_mix_row 1). Proof. table. Qed.
Lemma Tks2_ok : table_ok Tks2 (mix_part inv_mix_row 2). Proof. table. Qed.
Lemma Tks3_ok : table_ok Tks3 (mix_part inv_mix_row 3). Proof. table. Qed.
Lemma Te4_3_ok : table_ok Te4_3 (fun x => alone 0 (s_box x)). Proof. table. Qed.
Lemma Te4_2_ok : table_ok Te4_2 (fun x => alone 1 (s_box x)). Proof. table. Qed.
Lemma Te4_1_ok : table_ok Te4_1 (fun x => alone 2 (s_box x)). Proof. table. Qed.
Lemma Te4_0_ok : table_ok Te4_0 (fun x => alone 3 (s_box x)). Proof. table. Qed.

(** [Td4] with the masks of the last round. *)
Lemma Td4_entry mask x n :
  Z.land (entry Td4 x n) mask = entry (map (fun w => Z.land w mask) Td4) x n.
Proof. unfold entry. change 0 with (Z.land 0 mask) at 2. by rewrite (map_nth (fun w => Z.land w mask)). Qed.
Lemma Td4_3_ok : table_ok (map (fun w => Z.land w 0xff000000) Td4) (fun x => alone 0 (inv_s_box x)).
Proof. table. Qed.
Lemma Td4_2_ok : table_ok (map (fun w => Z.land w 0x00ff0000) Td4) (fun x => alone 1 (inv_s_box x)).
Proof. table. Qed.
Lemma Td4_1_ok : table_ok (map (fun w => Z.land w 0x0000ff00) Td4) (fun x => alone 2 (inv_s_box x)).
Proof. table. Qed.
Lemma Td4_0_ok : table_ok (map (fun w => Z.land w 0x000000ff) Td4) (fun x => alone 3 (inv_s_box x)).
Proof. table. Qed.

(** ** One round *)
Lemma mix_column_parts m a b c d :
  mix_column m [a; b; c; d] =
    xor_bytes (xor_bytes (xor_bytes (mix_part m 0 a) (mix_part m 1 b)) (mix_part m 2 c)) (mix_part m 3 d).
Proof. unfold mix_column, mix_part, xor_bytes, xor_all. cbn. by rewrite !Z.lxor_0_l. Qed.

Lemma te_column_spec a b c d k :
  store32h (te_column a b c d k) =
    xor_bytes (mix_column mix_row [s_box (byte a 3); s_box (byte b 2); s_box (byte c 1); s_box (byte d 0)])
      (store32h k).
Proof.
  unfold te_column. rewrite !store32h_lxor, TE0_ok, TE1_ok, TE2_ok, TE3_ok. by rewrite mix_column_parts.
Qed.

Lemma td_column_spec a b c d k :
  store32h (td_column a b c d k) =
    xor_bytes (mix_column inv_mix_row
        [inv_s_box (byte a 3); inv_s_box (byte b 2); inv_s_box (byte c 1); inv_s_box (byte d 0)])
      (store32h k).
Proof.
  unfold td_column. rewrite !store32h_lxor, TD0_ok, TD1_ok, TD2_ok, TD3_ok. by rewrite mix_column_parts.
Qed.

Lemma te_last_column_spec a b c d k :
  store32h (te_last_column a b c d k) =
    xor_bytes [s_box (byte a 3); s_box (byte b 2); s_box (byte c 1); s_box (byte d 0)] (store32h k).
Proof.
  unfold te_last_column. rewrite !store32h_lxor, Te4_3_ok, Te4_2_ok, Te4_1_ok, Te4_0_ok.
  by rewrite <- column_split.
Qed.

Lemma td_last_column_spec a b c d k :
  store32h (td_last_column a b c d k) =
    xor_bytes [inv_s_box (byte a 3); inv_s_box (byte b 2); inv_s_box (byte c 1); inv_s_box (byte d 0)]
      (store32h k).
Proof.
  unfold td_last_column. rewrite !store32h_lxor, !Td4_entry, Td4_3_ok, Td4_2_ok, Td4_1_ok, Td4_0_ok.
  by rewrite <- column_split.
Qed.

Lemma inverse_mix_spec temp : store32h (inverse_mix temp) = mix_column inv_mix_row (store32h temp).
Proof.
  unfold inverse_mix. rewrite !store32h_lxor, Tks0_ok, Tks1_ok, Tks2_ok, Tks3_ok.
  by rewrite store32h_bytes, mix_column_parts.
Qed.

(** The bytes of round key [i] of a schedule of words. *)
Definition key_at (rk : list Z) (i : nat) : bytes := concat (map store32h (take 4 (drop (4 * i) rk))).

Lemma key_at_words rk i :
  (4 * i + 4 <= length rk)%nat ->
  key_at rk i = store32h (at_rk rk (4 * i)) ++ store32h (at_rk rk (4 * i + 1)) ++
    store32h (at_rk rk (4 * i + 2)) ++ store32h (at_rk rk (4 * i + 3)).
Proof.
  intros Hl. unfold key_at, at_rk.
  replace (4 * i)%nat with (4 * i + 0)%nat at 2 by lia.
  rewrite <- !nth_skipn. pose proof (length_drop rk (4 * i)) as Hd.
  destruct (drop (4 * i) rk) as [|a [|b [|c [|d l]]]]; cbn in Hd; try lia.
  cbn [take map concat nth]. by rewrite app_nil_r.
Qed.

Lemma length_mix_column m c : length (mix_column m c) = 4%nat.
Proof. done. Qed.

Lemma shift_sub_store s0 s1 s2 s3 :
  shift_rows (sub_bytes (store_block (s0, s1, s2, s3))) =
    [s_box (byte s0 3); s_box (byte s1 2); s_box (byte s2 1); s_box (byte s3 0)] ++
    [s_box (byte s1 3); s_box (byte s2 2); s_box (byte s3 1); s_box (byte s0 0)] ++
    [s_box (byte s2 3); s_box (byte s3 2); s_box (byte s0 1); s_box (byte s1 0)] ++
    [s_box (byte s3 3); s_box (byte s0 2); s_box (byte s1 1); s_box (byte s2 0)].
Proof. unfold store_block. rewrite !store32h_bytes. reflexivity. Qed.

Lemma inv_shift_sub_store s0 s1 s2 s3 :
  inv_sub_bytes (inv_shift_rows (store_block (s0, s1, s2, s3))) =
    [inv_s_box (byte s0 3); inv_s_box (byte s3 2); inv_s_box (byte s2 1); inv_s_box (byte s1 0)] ++
    [inv_s_box (byte s1 3); inv_s_box (byte s0 2); inv_s_box (byte s3 1); inv_s_box (byte s2 0)] ++
    [inv_s_box (byte s2 3); inv_s_box (byte s1 2); inv_s_box (byte s0 1); inv_s_box (byte s3 0)] ++
    [inv_s_box (byte s3 3); inv_s_box (byte s2 2); inv_s_box (byte s1 1); inv_s_box (byte s0 0)].
Proof. unfold store_block. rewrite !store32h_bytes. reflexivity. Qed.

#[local] Opaque mix_column store32h.

(** A round of the code is a round of the standard. *)
#[local] Ltac round columns :=
  intros; rewrite key_at_words by done; unfold add_round_key; rewrite columns;
  unfold mix_columns, inv_mix_columns; rewrite ?mix_columns_app, !xor_bytes_app by done; reflexivity.

Lemma te_round_spec s rk i :
  (4 * i + 4 <= length rk)%nat ->
  store_block (te_round s rk (4 * i)) =
    add_round_key (key_at rk i) (mix_columns (shift_rows (sub_bytes (store_block s)))).
Proof.
  destruct s as [[[s0 s1] s2] s3]. unfold te_round, store_block at 1. rewrite !te_column_spec.
  round shift_sub_store.
Qed.

Lemma te_last_spec s rk :
  (4 <= length rk)%nat ->
  store_block (te_last s rk) = add_round_key (key_at rk 0) (shift_rows (sub_bytes (store_block s))).
Proof.
  destruct s as [[[s0 s1] s2] s3]. unfold te_last, store_block at 1. rewrite !te_last_column_spec.
  round shift_sub_store.
Qed.

Lemma td_round_spec s rk i :
  (4 * i + 4 <= length rk)%nat ->
  store_block (td_round s rk (4 * i)) =
    add_round_key (key_at rk i) (inv_mix_columns (inv_sub_bytes (inv_shift_rows (store_block s)))).
Proof.
  destruct s as [[[s0 s1] s2] s3]. unfold td_round, store_block at 1. rewrite !td_column_spec.
  round inv_shift_sub_store.
Qed.

Lemma td_last_spec s rk :
  (4 <= length rk)%nat ->
  store_block (td_last s rk) = add_round_key (key_at rk 0) (inv_sub_bytes (inv_shift_rows (store_block s))).
Proof.
  destruct s as [[[s0 s1] s2] s3]. unfold td_last, store_block at 1. rewrite !td_last_column_spec.
  round inv_shift_sub_store.
Qed.

Lemma load_block_spec b rk :
  is_bytes b -> length b = 16%nat -> (4 <= length rk)%nat ->
  store_block (load_block b rk) = add_round_key (key_at rk 0) b.
Proof.
  intros Hb Hl Hk. rewrite key_at_words by done. unfold load_block, store_block, add_round_key.
  rewrite (block_split b Hl) at 5.
  rewrite !xor_bytes_app by (rewrite length_take, length_store32h, ?length_drop; lia).
  rewrite !store32h_lxor, !store32h_load32h; try done; try apply Forall_drop; rewrite ?length_drop; done || lia.
Qed.

(** ** The loops *)
Lemma key_at_drop n rk i : key_at (drop (4 * n) rk) i = key_at rk (n + i).
Proof. unfold key_at. rewrite drop_drop. do 4 f_equal. lia. Qed.

Lemma full_rounds_spec round (spec : bytes -> bytes -> bytes) :
  (forall s rk i, (4 * i + 4 <= length rk)%nat ->
    store_block (round s rk (4 * i)%nat) = spec (key_at rk i) (store_block s)) ->
  forall r s rk, (0 < r)%nat -> (8 * r <= length rk)%nat ->
  exists t, full_rounds round r s rk = (t, drop (8 * r) rk) /\
    store_block t = fold_left (fun s i => spec (key_at rk i) s) (seq 1 (2 * r - 1)) (store_block s).
Proof.
  intros Hround r. induction r as [|r IH]; intros s rk Hr Hl; [lia|]. cbn [full_rounds].
  destruct (Nat.eqb_spec r 0) as [->|Hne].
  - eexists. split; [done|]. apply (Hround s rk 1%nat). lia.
  - destruct (IH (round (round s rk 4%nat) (drop 8 rk) 0%nat) (drop 8 rk)) as (t & -> & Ht);
      [lia | rewrite length_drop; lia |].
    exists t. rewrite drop_drop. split; [do 2 f_equal; lia|].
    rewrite Ht, (Hround _ _ 0%nat), (Hround _ _ 1%nat), (key_at_drop 2) by (rewrite ?length_drop; lia).
    replace (2 * S r - 1)%nat with (2 + (2 * r - 1))%nat by lia. cbn [seq fold_left Nat.add].
    rewrite <- (seq_shift _ 2), <- (seq_shift _ 1), !fold_left_map.
    apply fold_left_ext. intros a i _. by rewrite (key_at_drop 2).
Qed.

Record schedule_ok (skey : rijndael_key) : Prop := {
  sk_rounds : 2 <= Nr skey;
  sk_even : Z.even (Nr skey) = true;
  sk_length : length (eK skey) = Z.to_nat (4 * (Nr skey + 1));
  sk_inverse : dK skey = inverse_key (eK skey) (Z.to_nat (Nr skey))
}.

(** Either direction: the loop, the last round and the loading of the block. *)
Lemma rounds_spec round spec b rk nr :
  (forall s rk i, (4 * i + 4 <= length rk)%nat ->
    store_block (round s rk (4 * i)%nat) = spec (key_at rk i) (store_block s)) ->
  is_bytes b -> length b = 16%nat -> 2 <= nr -> Z.even nr = true -> length rk = Z.to_nat (4 * (nr + 1)) ->
  exists t rk', full_rounds round (Z.to_nat (Z.shiftr nr 1)) (load_block b rk) rk = (t, rk') /\
    key_at rk' 0 = key_at rk (Z.to_nat nr) /\ length rk' = 4%nat /\
    store_block t = fold_left (fun s i => spec (key_at rk i) s) (seq 1 (Z.to_nat nr - 1))
      (add_round_key (key_at rk 0) b).
Proof.
  intros Hround Hb Hl Hn [m Hm]%Z.even_spec Hk.
  replace (Z.shiftr nr 1) with m by (rewrite Z.shiftr_div_pow2 by lia; change (2 ^ 1) with 2; zlia).
  destruct (full_rounds_spec round spec Hround (Z.to_nat m) (load_block b rk) rk) as (t & -> & Ht); [lia | lia |].
  exists t, (drop (8 * Z.to_nat m) rk).
  replace (8 * Z.to_nat m)%nat with (4 * Z.to_nat nr)%nat by lia.
  rewrite key_at_drop, Nat.add_0_r, length_drop. split_and!; [done | done | lia |].
  rewrite Ht, load_block_spec by (done || lia).
  by replace (2 * Z.to_nat m - 1)%nat with (Z.to_nat nr - 1)%nat by lia.
Qed.

Lemma encrypt_spec pt skey :
  schedule_ok skey -> is_bytes pt -> length pt = 16%nat ->
  rijndael_ecb_encrypt pt skey =
    add_round_key (key_at (eK skey) (Z.to_nat (Nr skey))) (shift_rows (sub_bytes
      (fold_left (fun s i => enc_round (key_at (eK skey) i) s) (seq 1 (Z.to_nat (Nr skey) - 1))
        (add_round_key (key_at (eK skey) 0) pt)))).
Proof.
  intros [Hn He Hk _] Hb Hl. unfold rijndael_ecb_encrypt.
  destruct (rounds_spec te_round enc_round pt (eK skey) (Nr skey) te_round_spec)
    as (t & rk & -> & Hrk & Hl4 & Ht); [done..|].
  by rewrite te_last_spec, Hrk, Ht by lia.
Qed.

(** *** The schedule of decryption *)
Lemma length_key_at rk i : (4 * i + 4 <= length rk)%nat -> length (key_at rk i) = 16%nat.
Proof. intros Hl. by rewrite key_at_words, !length_app, !length_store32h. Qed.

Lemma group_inverse ek i :
  (4 * i + 4 <= length ek)%nat ->
  concat (map store32h (map inverse_mix (take 4 (drop (4 * i) ek)))) = inv_mix_columns (key_at ek i).
Proof.
  intros Hl. unfold key_at. pose proof (length_drop ek (4 * i)) as Hd.
  destruct (drop (4 * i) ek) as [|a [|b [|c [|d l]]]]; cbn in Hd; try lia.
  cbn [take map concat]. rewrite !inverse_mix_spec, !app_nil_r. unfold inv_mix_columns.
  by rewrite mix_columns_app by apply length_store32h.
Qed.

Lemma group_concat {A} (gs : list (list A)) i :
  Forall (fun g => length g = 4%nat) gs -> (i < length gs)%nat ->
  take 4 (drop (4 * i) (concat gs)) = nth i gs [].
Proof.
  intros Hgs. revert i. induction Hgs as [|g gs Hg Hgs IH]; intros i Hi; cbn [length] in Hi; [lia|].
  cbn [concat]. destruct i as [|i]; cbn [nth].
  - change (4 * 0)%nat with 0%nat. rewrite drop_0, <- Hg. apply take_app_length.
  - replace (4 * S i)%nat with (length g + 4 * i)%nat by lia. rewrite drop_app_add. apply IH. lia.
Qed.

Lemma length_concat_4 {A} (gs : list (list A)) :
  Forall (fun g => length g = 4%nat) gs -> length (concat gs) = (4 * length gs)%nat.
Proof. induction 1 as [|g gs Hg Hgs IH]; cbn [concat length]; [done|]. rewrite length_app. lia. Qed.

Section inverse_schedule.
Context (ek : list Z) (nr : nat) (Hek : length ek = (4 * (nr + 1))%nat) (Hnr : (1 <= nr)%nat).

Definition inverse_groups : list (list Z) :=
  let rrk i := take 4 (drop (4 * i) ek) in
  [rrk nr] ++ map (fun i => map inverse_mix (rrk (nr - i)%nat)) (seq 1 (nr - 1)) ++ [rrk 0%nat].

Lemma inverse_key_groups : inverse_key ek nr = concat inverse_groups.
Proof. unfold inverse_key, inverse_groups. rewrite !concat_app. cbn [concat]. by rewrite !app_nil_r. Qed.

Lemma length_inverse_groups : length inverse_groups = (nr + 1)%nat.
Proof. unfold inverse_groups. rewrite !length_app, length_map, length_seq. cbn. lia. Qed.

Lemma inverse_groups_4 : Forall (fun g => length g = 4%nat) inverse_groups.
Proof.
  assert (forall i, (i <= nr)%nat -> length (take 4 (drop (4 * i) ek)) = 4%nat) as Hg.
  { intros i Hi. rewrite length_take, length_drop. lia. }
  unfold inverse_groups. repeat (apply Forall_app; split).
  - by repeat constructor; apply Hg.
  - apply Forall_map, Forall_forall. intros i _. rewrite length_map. apply Hg. lia.
  - by repeat constructor; apply Hg; lia.
Qed.

Lemma length_inverse_key : length (inverse_key ek nr) = (4 * (nr + 1))%nat.
Proof. by rewrite inverse_key_groups, length_concat_4, length_inverse_groups by apply inverse_groups_4. Qed.

Lemma key_at_inverse i :
  (i <= nr)%nat ->
  key_at (inverse_key ek nr) i =
    if (i =? 0)%nat || (i =? nr)%nat then key_at ek (nr - i) else inv_mix_columns (key_at ek (nr - i)).
Proof.
  intros Hi. unfold key_at at 1. rewrite inverse_key_groups.
  rewrite group_concat by (apply inverse_groups_4 || rewrite length_inverse_groups; lia).
  unfold inverse_groups. destruct (Nat.eqb_spec i 0) as [->|H0]; cbn [orb].
  { cbn [app nth]. by rewrite Nat.sub_0_r. }
  rewrite app_nth2 by (cbn; lia). cbn [length].
  destruct (Nat.eqb_spec i nr) as [->|Hne].
  - rewrite app_nth2 by (rewrite length_map, length_seq; lia).
    rewrite length_map, length_seq. replace (nr - 1 - (nr - 1))%nat with 0%nat by lia. cbn [nth].
    by rewrite Nat.sub_diag.
  - rewrite app_nth1 by (rewrite length_map, length_seq; lia).
    rewrite (nth_indep _ _ (map inverse_mix (take 4 (drop (4 * (nr - 0)) ek))))
      by (rewrite length_map, length_seq; lia).
    rewrite (map_nth (fun i => map inverse_mix (take 4 (drop (4 * (nr - i)) ek)))), seq_nth by lia.
    replace (1 + (i - 1))%nat with i by lia. apply group_inverse. lia.
Qed.
End inverse_schedule.

(** ** The forward key *)
Lemma setup_mix_spec temp : store32h (setup_mix temp) = sub_word (rot_word (store32h temp)).
Proof.
  unfold setup_mix. rewrite !store32h_lxor, Te4_3_ok, Te4_2_ok, Te4_1_ok, Te4_0_ok, <- column_split.
  by rewrite store32h_bytes.
Qed.

Lemma byte_ror x n : 0 <= n < 3 -> byte (ror x 8) n = byte x (n + 1).
Proof.
  intros Hn. rewrite !byte_u8. unfold ror. change (32 - 8) with 24. apply Z.bits_inj'. intros i Hi. autorewrite with bits.
  destruct (Z.ltb_spec i 8); simpl_bool; [|done].
  rewrite (Z.testbit_neg_r x (i + 8 * n - 24)) by lia. simpl_bool.
  replace (i + 8 * n + 8) with (i + 8 * (n + 1)) by lia. cases_ltb. by simpl_bool.
Qed.

Lemma byte_ror_3 x : byte (ror x 8) 3 = byte x 0.
Proof.
  rewrite !byte_u8. unfold ror. change (32 - 8) with 24. apply Z.bits_inj'. intros i Hi. autorewrite with bits.
  destruct (Z.ltb_spec i 8); simpl_bool; [|done]. cases_ltb. simpl_bool. f_equal. lia.
Qed.

Lemma setup_mix_ror temp : store32h (setup_mix (ror temp 8)) = sub_word (store32h temp).
Proof.
  rewrite setup_mix_spec, !store32h_bytes, byte_ror_3, !byte_ror by lia. reflexivity.
Qed.

Lemma rcon_spec i : (i < 10)%nat -> store32h (nth i rcon 0) = rcon_word (S i).
Proof.
  intros Hi. enough (map store32h rcon = map (fun i => rcon_word (S i)) (seq 0 10)) as Hr.
  { rewrite <- (map_nth store32h), Hr.
    rewrite (nth_indep _ _ (rcon_word 1)) by (rewrite length_map, length_seq; lia).
    by rewrite (map_nth (fun i => rcon_word (S i))), seq_nth by lia. }
  vm_compute. reflexivity.
Qed.

(** The expansion of the standard, on words. *)
Definition next_rk (nk : nat) (ws : list Z) : Z :=
  let i := length ws in
  let temp := at_rk ws (i - 1) in
  at_rk ws (i - nk) ^^
    (if (i mod nk =? 0)%nat then setup_mix temp ^^ nth (i / nk - 1) rcon 0
     else if (6 <? nk)%nat && (i mod nk =? 4)%nat then setup_mix (ror temp 8) else temp).

Fixpoint expand_rk (nk n : nat) (ws : list Z) : list Z :=
  match n with
  | O => ws
  | S n => expand_rk nk n (ws ++ [next_rk nk ws])
  end.

Lemma at_rk_store ws i : (i < length ws)%nat -> store32h (at_rk ws i) = nth i (map store32h ws) [].
Proof.
  intros Hi. rewrite (nth_indep _ _ (store32h 0)) by (by rewrite length_map). by rewrite (map_nth store32h).
Qed.

Lemma next_rk_spec nk ws :
  (0 < nk <= length ws)%nat -> (length ws / nk <= 10)%nat ->
  store32h (next_rk nk ws) = next_word nk (map store32h ws).
Proof.
  intros Hn H10. unfold next_rk, next_word. rewrite length_map, store32h_lxor, at_rk_store by lia. f_equal.
  assert (0 < length ws / nk)%nat as Hpos by (apply Nat.div_str_pos; lia).
  repeat case_match.
  - rewrite store32h_lxor, setup_mix_spec, at_rk_store, rcon_spec by lia. do 2 f_equal. lia.
  - by rewrite setup_mix_ror, at_rk_store by lia.
  - by rewrite at_rk_store by lia.
Qed.

Lemma expand_rk_spec nk n ws :
  (0 < nk <= length ws)%nat -> ((length ws + n - 1) / nk <= 10)%nat ->
  map store32h (expand_rk nk n ws) = expand_words nk n (map store32h ws).
Proof.
  revert ws. induction n as [|n IH]; intros ws Hn H10; cbn [expand_rk expand_words]; [done|].
  rewrite IH by (rewrite length_app; cbn [length]; lia || (rewrite <- H10; apply Nat.Div0.div_le_mono; lia)).
  rewrite map_app. cbn [map]. rewrite next_rk_spec; [done | done |].
  rewrite <- H10. apply Nat.Div0.div_le_mono. lia.
Qed.

(** The next word depends on the last [nk] ones. *)
Lemma next_rk_app nk i pre l :
  length pre = (nk * i)%nat -> (0 < nk <= length l)%nat ->
  next_rk nk (pre ++ l) =
    at_rk l (length l - nk) ^^
      (let temp := at_rk l (length l - 1) in
       if (length l mod nk =? 0)%nat then setup_mix temp ^^ nth (i + length l / nk - 1) rcon 0
       else if (6 <? nk)%nat && (length l mod nk =? 4)%nat then setup_mix (ror temp 8) else temp).
Proof.
  intros Hp Hl. unfold next_rk, at_rk. rewrite length_app, Hp.
  replace ((nk * i + length l) mod nk)%nat with (length l mod nk)%nat
    by (rewrite Nat.mul_comm, Nat.add_comm, Nat.Div0.mod_add; done).
  replace ((nk * i + length l) / nk)%nat with (i + length l / nk)%nat
    by (rewrite Nat.mul_comm, Nat.div_add_l; lia).
  rewrite !app_nth2 by lia.
  replace (nk * i + length l - nk - length pre)%nat with (length l - nk)%nat by lia.
  by replace (nk * i + length l - 1 - length pre)%nat with (length l - 1)%nat by lia.
Qed.

Lemma expand_step nk i n pre l w :
  length pre = (nk * i)%nat -> (0 < nk <= length l)%nat ->
  at_rk l (length l - nk) ^^
    (let temp := at_rk l (length l - 1) in
     if (length l mod nk =? 0)%nat then setup_mix temp ^^ nth (i + length l / nk - 1) rcon 0
     else if (6 <? nk)%nat && (length l mod nk =? 4)%nat then setup_mix (ror temp 8) else temp) = w ->
  expand_rk nk (S n) (pre ++ l) = expand_rk nk n (pre ++ l ++ [w]).
Proof. intros Hp Hl <-. cbn [expand_rk]. by rewrite (next_rk_app nk i), <- app_assoc. Qed.

(** One word of a pass, and the first one. *)
#[local] Ltac next_word i w := rewrite (expand_step _ i _ _ _ w) by (done || cbn [length]; lia); cbn [app].
#[local] Ltac first_word i w :=
  rewrite (expand_step _ i _ _ _ w)
    by (done || (cbn [length]; lia) || (cbn -[setup_mix rcon Z.lxor]; by rewrite Nat.add_sub, <- Z.lxor_assoc));
  cbn [app].
#[local] Ltac next_pass IH i old new :=
  match goal with |- expand_rk _ _ (?pre ++ _) = _ => change (pre ++ _) with (pre ++ old ++ new) at 1;
    rewrite (app_assoc pre old), (IH (S i)) by (rewrite ?length_app; cbn [length]; lia);
    by rewrite <- app_assoc end.

Lemma setup_128_spec n i pre rk :
  length pre = (4 * i)%nat -> length rk = 4%nat ->
  expand_rk 4 (4 * n) (pre ++ rk) = pre ++ rk ++ setup_128 n i rk.
Proof.
  revert i pre rk. induction n as [|n IH]; intros i pre rk Hp Hl; [by rewrite app_nil_r|].
  do 4 (destruct rk as [|? rk]; [discriminate Hl|]). destruct rk; [|discriminate].
  replace (4 * S n)%nat with (S (S (S (S (4 * n))))) by lia. cbn [setup_128]. unfold at_rk. cbn [nth].
  set (rk4 := z ^^ setup_mix z2 ^^ nth i rcon 0). set (rk5 := z0 ^^ rk4).
  set (rk6 := z1 ^^ rk5). set (rk7 := z2 ^^ rk6).
  first_word i rk4. next_word i rk5. next_word i rk6. next_word i rk7.
  next_pass IH i [z; z0; z1; z2] [rk4; rk5; rk6; rk7].
Qed.

Lemma setup_192_spec n i pre rk :
  length pre = (6 * i)%nat -> length rk = 6%nat ->
  expand_rk 6 (6 * n - 2) (pre ++ rk) = pre ++ rk ++ setup_192 n i rk.
Proof.
  revert i pre rk. induction n as [|n IH]; intros i pre rk Hp Hl; [by rewrite app_nil_r|].
  do 6 (destruct rk as [|? rk]; [discriminate Hl|]). destruct rk; [|discriminate].
  replace (6 * S n - 2)%nat with (S (S (S (S (6 * n))))) by lia. cbn [setup_192]. unfold at_rk. cbn [nth].
  set (rk6 := z ^^ setup_mix z4 ^^ nth i rcon 0). set (rk7 := z0 ^^ rk6).
  set (rk8 := z1 ^^ rk7). set (rk9 := z2 ^^ rk8). set (rk10 := z3 ^^ rk9). set (rk11 := z4 ^^ rk10).
  first_word i rk6. next_word i rk7. next_word i rk8. next_word i rk9.
  destruct n as [|n]; [done|]. cbn [Nat.eqb].
  replace (6 * S n)%nat with (S (S (6 * S n - 2))) by lia.
  next_word i rk10. next_word i rk11.
  next_pass IH i [z; z0; z1; z2; z3; z4] [rk6; rk7; rk8; rk9; rk10; rk11].
Qed.

Lemma setup_256_spec n i pre rk :
  length pre = (8 * i)%nat -> length rk = 8%nat ->
  expand_rk 8 (8 * n - 4) (pre ++ rk) = pre ++ rk ++ setup_256 n i rk.
Proof.
  revert i pre rk. induction n as [|n IH]; intros i pre rk Hp Hl; [by rewrite app_nil_r|].
  do 8 (destruct rk as [|? rk]; [discriminate Hl|]). destruct rk; [|discriminate].
  replace (8 * S n - 4)%nat with (S (S (S (S (8 * n))))) by lia. cbn [setup_256]. unfold at_rk. cbn [nth].
  set (rk8 := z ^^ setup_mix z6 ^^ nth i rcon 0). set (rk9 := z0 ^^ rk8).
  set (rk10 := z1 ^^ rk9). set (rk11 := z2 ^^ rk10). set (rk12 := z3 ^^ setup_mix (ror rk11 8)).
  set (rk13 := z4 ^^ rk12). set (rk14 := z5 ^^ rk13). set (rk15 := z6 ^^ rk14).
  first_word i rk8. next_word i rk9. next_word i rk10. next_word i rk11.
  destruct n as [|n]; [done|]. cbn [Nat.eqb].
  replace (8 * S n)%nat with (S (S (S (S (8 * S n - 4))))) by lia.
  next_word i rk12. next_word i rk13. next_word i rk14. next_word i rk15.
  next_pass IH i [z; z0; z1; z2; z3; z4; z5; z6] [rk8; rk9; rk10; rk11; rk12; rk13; rk14; rk15].
Qed.

(** ** The schedule that [rijndael_setup] leaves *)
Lemma load_words_spec key : is_bytes key -> map store32h (load_words key) = key_words key.
Proof.
  intros Hk. unfold load_words, key_words. rewrite map_map. apply map_ext_in. intros i [_ Hi]%in_seq.
  apply store32h_load32h; [by apply Forall_drop|].
  rewrite length_drop. pose proof (Nat.Div0.mul_div_le (length key) 4). lia.
Qed.

Lemma length_load_words key : length (load_words key) = (length key / 4)%nat.
Proof. unfold load_words. by rewrite length_map, length_seq. Qed.

Definition forward_key (key : bytes) : list Z :=
  let nk := (length key / 4)%nat in expand_rk nk (4 * (rounds_of key + 1) - nk) (load_words key).

Lemma forward_key_spec key : aes_key key -> map store32h (forward_key key) = key_expansion key.
Proof.
  intros [Hk Hl]. unfold forward_key, key_expansion. rewrite <- load_words_spec by done.
  apply expand_rk_spec; rewrite length_load_words; unfold rounds_of; destruct Hl as [-> | [-> | ->]]; cbn; lia.
Qed.

Lemma key_at_round_key key r : aes_key key -> key_at (forward_key key) r = round_key (key_expansion key) r.
Proof.
  intros Hk. unfold key_at, round_key. by rewrite <- forward_key_spec, skipn_map, firstn_map.
Qed.

Lemma length_forward_key key : aes_key key -> length (forward_key key) = (4 * (rounds_of key + 1))%nat.
Proof.
  intros Hk. rewrite <- (length_map store32h), forward_key_spec by done. by apply key_expansion_ok.
Qed.

(** A whole schedule: nothing before the words of the key. *)
Lemma setup_128_key rk : length rk = 4%nat -> expand_rk 4 (4 * 10) rk = rk ++ setup_128 10 0 rk.
Proof. intros Hl. pose proof (setup_128_spec 10 0 [] rk) as He. rewrite !app_nil_l in He. auto. Qed.
Lemma setup_192_key rk : length rk = 6%nat -> expand_rk 6 (6 * 8 - 2) rk = rk ++ setup_192 8 0 rk.
Proof. intros Hl. pose proof (setup_192_spec 8 0 [] rk) as He. rewrite !app_nil_l in He. auto. Qed.
Lemma setup_256_key rk : length rk = 8%nat -> expand_rk 8 (8 * 7 - 4) rk = rk ++ setup_256 7 0 rk.
Proof. intros Hl. pose proof (setup_256_spec 7 0 [] rk) as He. rewrite !app_nil_l in He. auto. Qed.

Lemma forward_key_loops key :
  aes_key key ->
  load_words key ++
    (if blen key =? 16 then setup_128 10 0 (load_words key) else
     if blen key =? 24 then setup_192 8 0 (load_words key) else setup_256 7 0 (load_words key)) =
  forward_key key.
Proof.
  intros [_ Hl]. unfold forward_key, rounds_of, blen. pose proof (length_load_words key) as Hw.
  destruct Hl as [Hl | [Hl | Hl]]; rewrite Hl in *.
  - replace (16 / 4)%nat with 4%nat in * by reflexivity.
    replace (4 * (4 + 6 + 1) - 4)%nat with (4 * 10)%nat by reflexivity.
    by rewrite setup_128_key.
  - replace (24 / 4)%nat with 6%nat in * by reflexivity.
    replace (4 * (6 + 6 + 1) - 6)%nat with (6 * 8 - 2)%nat by reflexivity.
    by rewrite setup_192_key.
  - replace (32 / 4)%nat with 8%nat in * by reflexivity.
    replace (4 * (8 + 6 + 1) - 8)%nat with (8 * 7 - 4)%nat by reflexivity.
    by rewrite setup_256_key.
Qed.

Lemma setup_spec key num_rounds :
  aes_key key -> num_rounds = 0 \/ num_rounds = Z.of_nat (rounds_of key) ->
  exists skey, rijndael_setup key (blen key) num_rounds = (CRYPT_OK, Some skey) /\
    schedule_ok skey /\ eK skey = forward_key key /\ Z.to_nat (Nr skey) = rounds_of key.
Proof.
  intros Hk Hr. unfold rijndael_setup.
  rewrite take_all_bytes, (forward_key_loops key Hk).
  pose proof (length_forward_key key Hk) as Hf.
  assert (10 + (blen key / 8 - 2) * 2 = Z.of_nat (rounds_of key)) as ->.
  { unfold rounds_of, blen. destruct Hk as [_ [-> | [-> | ->]]]; reflexivity. }
  assert (negb (blen key =? 16) && negb (blen key =? 24) && negb (blen key =? 32) = false) as ->.
  { unfold blen. destruct Hk as [_ [-> | [-> | ->]]]; reflexivity. }
  assert (negb (num_rounds =? 0) && negb (num_rounds =? Z.of_nat (rounds_of key)) = false) as ->.
  { destruct Hr as [-> | ->]; [done|]. by rewrite Z.eqb_refl, andb_false_r. }
  eexists. split; [done|]. cbn [eK dK Nr]. rewrite Nat2Z.id. split_and!; try done.
  split; cbn [eK dK Nr]; rewrite ?Nat2Z.id; [ | | lia | done];
    unfold rounds_of; destruct Hk as [_ [-> | [-> | ->]]]; done.
Qed.

(** ** Decryption *)
Lemma inv_mix_add k s :
  block 16 k -> block 16 s ->
  inv_mix_columns (add_round_key k s) = add_round_key (inv_mix_columns k) (inv_mix_columns s).
Proof. intros. by apply mix_columns_xor. Qed.

Lemma rev_seq_map n : rev (seq 1 n) = map (fun i => S n - i)%nat (seq 1 n).
Proof.
  induction n as [|n IH]; [done|].
  rewrite seq_S at 1. rewrite rev_app_distr, IH. cbn [rev app seq map]. f_equal.
  rewrite <- (seq_shift n 1), map_map. by apply map_ext.
Qed.

Lemma decrypt_spec key skey ct :
  aes_key key -> schedule_ok skey -> eK skey = forward_key key -> Z.to_nat (Nr skey) = rounds_of key ->
  block 16 ct -> rijndael_ecb_decrypt ct skey = aes_inv_cipher key ct.
Proof.
  intros Hkey [Hn He Hk Hinv] Hek Hnr [Hb Hl]. unfold rijndael_ecb_decrypt.
  assert (1 <= rounds_of key)%nat as H1 by (unfold rounds_of; lia).
  assert (length (eK skey) = (4 * (rounds_of key + 1))%nat) as Hlk by (rewrite Hek; by apply length_forward_key).
  destruct (rounds_spec td_round (fun k s => add_round_key k (inv_mix_columns (inv_sub_bytes (inv_shift_rows s))))
      ct (dK skey) (Nr skey) td_round_spec) as (t & rk & -> & Hrk & Hl4 & Ht); [done..| |].
  { rewrite Hinv, length_inverse_key; lia. }
  rewrite td_last_spec, Hrk, Ht, Hinv, Hnr by lia.
  rewrite !key_at_inverse by lia. rewrite Nat.eqb_refl, orb_true_r, Nat.sub_diag. cbn [Nat.eqb orb].
  rewrite Nat.sub_0_r, Hek, !key_at_round_key by done. rewrite aes_inv_cipher_rounds.
  unfold dec_last. do 3 f_equal. rewrite rev_seq_map, fold_left_map.
  apply (fold_left_ext_inv (block 16)).
  { apply add_round_key_block; [by apply rk_block | done]. }
  intros s i [Hi1 Hi2]%in_seq Hs. split.
  - rewrite <- Hek, key_at_inverse by lia.
    destruct (Nat.eqb_spec i 0); [lia|]. destruct (Nat.eqb_spec i (rounds_of key)); [lia|]. cbn [orb].
    unfold dec_round. replace (S (rounds_of key - 1) - i)%nat with (rounds_of key - i)%nat by lia.
    rewrite Hek, key_at_round_key by done.
    symmetry. apply inv_mix_add; [apply rk_block; lia || done | auto with blocks].
  - apply dec_round_block; [apply rk_block; lia || done | done].
Qed.

(** ** The theorems *)
Lemma encrypt_is_cipher key skey pt :
  aes_key key -> schedule_ok skey -> eK skey = forward_key key -> Z.to_nat (Nr skey) = rounds_of key ->
  block 16 pt -> rijndael_ecb_encrypt pt skey = aes_cipher key pt.
Proof.
  intros Hkey Hs Hek Hnr [Hb Hl]. rewrite encrypt_spec, Hnr, Hek, !key_at_round_key, aes_cipher_rounds by done.
  unfold enc_last. do 3 f_equal. apply fold_left_ext. intros s i _. by rewrite key_at_round_key.
Qed.

Lemma setup_refuses_size key num_rounds :
  is_bytes key -> ~ aes_key key -> rijndael_setup key (blen key) num_rounds = (CRYPT_INVALID_KEYSIZE, None).
Proof.
  intros Hb Hk. unfold rijndael_setup.
  destruct (Z.eqb_spec (blen key) 16), (Z.eqb_spec (blen key) 24), (Z.eqb_spec (blen key) 32);
    try done; unfold blen in *; destruct Hk; (split; [done | lia]).
Qed.

Lemma setup_refuses_rounds key num_rounds :
  aes_key key -> num_rounds <> 0 -> num_rounds <> Z.of_nat (rounds_of key) ->
  rijndael_setup key (blen key) num_rounds = (CRYPT_INVALID_ROUNDS, None).
Proof.
  intros [_ Hk] H0 Hr. unfold rijndael_setup, rounds_of, blen in *.
  assert (negb (num_rounds =? 0) && negb (num_rounds =? 10 + (Z.of_nat (length key) / 8 - 2) * 2) = true) as ->.
  { apply andb_true_iff. split; apply negb_true_iff, Z.eqb_neq; [done|].
    intros ->. apply Hr. by destruct Hk as [-> | [-> | ->]]. }
  by destruct Hk as [-> | [-> | ->]].
Qed.

(** Decryption undoes encryption, and encryption decryption. *)
Lemma ecb_roundtrip (key b : bytes) (skey : rijndael_key) :
  aes_key key -> block 16 b ->
  (forall b, block 16 b -> rijndael_ecb_encrypt b skey = aes_cipher key b) ->
  (forall b, block 16 b -> rijndael_ecb_decrypt b skey = aes_inv_cipher key b) ->
  rijndael_ecb_decrypt (rijndael_ecb_encrypt b skey) skey = b /\ rijndael_ecb_encrypt (rijndael_ecb_decrypt b skey) skey = b.
Proof.
  intros Hk Hb He Hd. pose proof (aes_cipher_block key Hk b Hb). pose proof (aes_inv_cipher_block key Hk b Hb).
  rewrite (He b), (Hd b), He, Hd by done. by rewrite aes_inv_cipher_cipher, aes_cipher_inv_cipher.
Qed.

(** C27. This is AES.  For a key of 16, 24 or 32 bytes (and the number of rounds that goes with
    it, or 0) [rijndael_setup] succeeds, and with the schedule it leaves the table-driven
    encryption of any block is the cipher of FIPS 197 and the decryption its inverse
    cipher, so that each undoes the other.  Any other key size or number of rounds is refused
    and the schedule left alone. *)
Theorem aes_is_fips_197 (key : bytes) (num_rounds : Z) :
  is_bytes key ->
  let wanted := num_rounds = 0 \/ num_rounds = Z.of_nat (rounds_of key) in
  (aes_key key -> wanted ->
    exists skey, rijndael_setup key (blen key) num_rounds = (CRYPT_OK, Some skey) /\
      forall b, block 16 b ->
        rijndael_ecb_encrypt b skey = aes_cipher key b /\
        rijndael_ecb_decrypt b skey = aes_inv_cipher key b /\
        rijndael_ecb_decrypt (rijndael_ecb_encrypt b skey) skey = b /\
        rijndael_ecb_encrypt (rijndael_ecb_decrypt b skey) skey = b) /\
  (~ aes_key key -> rijndael_setup key (blen key) num_rounds = (CRYPT_INVALID_KEYSIZE, None)) /\
  (aes_key key -> ~ wanted -> rijndael_setup key (blen key) num_rounds = (CRYPT_INVALID_ROUNDS, None)).
Proof.
  intros Hb wanted. split_and!.
  - intros Hk Hw. destruct (setup_spec key num_rounds Hk Hw) as (skey & Hs & Hok & Hek & Hnr).
    exists skey. split; [done|]. intros b Hbl.
    split; [by apply encrypt_is_cipher|]. split; [by apply decrypt_spec|].
    apply (ecb_roundtrip key); [done | done | |]; intros ??; [by apply encrypt_is_cipher | by apply decrypt_spec].
  - by apply setup_refuses_size.
  - intros Hk Hw. apply setup_refuses_rounds; [done | |]; intros ->; apply Hw; [by left | by right].
Qed.

(** *** The cipher of the connections is AES with a key of sixteen bytes *)
Definition no_key : rijndael_key := mk_rijndael [] [] 0.

Lemma ecb_encrypt_block skey b : block 16 (rijndael_ecb_encrypt b skey).
Proof.
  unfold rijndael_ecb_encrypt. destruct (full_rounds _ _ _ _) as [t rk].
  destruct (te_last t rk) as [[[s0 s1] s2] s3]. unfold store_block.
  repeat apply (block_app 4); (split; [apply is_bytes_store32h | apply length_store32h]).
Qed.

#[export] Program Instance aes_cipher_instance : BlockCipher := {|
  cipher_key := rijndael_key;
  Cipher.rijndael_setup key := default no_key (rijndael_setup key 16 0).2;
  Cipher.rijndael_ecb_encrypt k b := rijndael_ecb_encrypt b k
|}.
Next Obligation. intros k b. apply ecb_encrypt_block. Qed.
Next Obligation. intros k b. apply ecb_encrypt_block. Qed.

Lemma aes_is_fips_197_witness :
  is_bytes (counting 32) /\ fst (rijndael_setup (counting 32) (blen (counting 32)) 14) = CRYPT_OK.
Proof.
  assert (is_bytes (counting 32)) as Hb by (repeat (apply List.Forall_cons; [done|]); constructor).
  split; [done|].
  destruct (aes_is_fips_197 (counting 32) 14 Hb) as [H _].
  destruct H as (skey & -> & _); [split; [done | by right; right] | by right | done].
Defined.
