(* ===== verification/BufferUtils.v ===== *)
(** * Buffer utilities: torque_sockets/buffer_utils.h

    Big-endian integers, base 16, the CRC, and the hash-then-encrypt envelope of the
    handshake packets.  The base 64 and MD5 entry points call lib/libtomcrypt. *)
From S2P Require Import Prelude Endian BitCopy BitStream StreamIO Cipher HashStream Sha256.
#[local] Open Scope Z_scope.

(** ** Big-endian integers

    A pointer into a buffer is the buffer and an offset. *)
Definition write_uint16_to_buffer (value : Z) (buffer : bytes) (at_ : Z) : result bytes :=
  buffer ← bset buffer at_ (u8 (Z.shiftr value 8));
  bset buffer (at_ + 1) (u8 value).

Definition write_uint32_to_buffer (value : Z) (buffer : bytes) (at_ : Z) : result bytes :=
  buffer ← bset buffer at_ (u8 (Z.shiftr value 24));
  buffer ← bset buffer (at_ + 1) (u8 (Z.shiftr value 16));
  buffer ← bset buffer (at_ + 2) (u8 (Z.shiftr value 8));
  bset buffer (at_ + 3) (u8 value).

Definition write_uint64_to_buffer (value : Z) (buffer : bytes) (at_ : Z) : result bytes :=
  let top := u32 (Z.shiftr value 32) in
  let bottom := u32 value in
  buffer ← write_uint32_to_buffer top buffer at_;
  write_uint32_to_buffer bottom buffer (at_ + 4).

Definition read_uint16_from_buffer (buffer : bytes) (at_ : Z) : result Z :=
  b0 ← bget buffer at_; b1 ← bget buffer (at_ + 1);
  Ok (u16 (Z.lor (Z.shiftl b0 8) b1)).

Definition read_uint32_from_buffer (buf : bytes) (at_ : Z) : result Z :=
  b0 ← bget buf at_; b1 ← bget buf (at_ + 1); b2 ← bget buf (at_ + 2); b3 ← bget buf (at_ + 3);
  Ok (Z.lor (Z.lor (Z.lor (Z.shiftl b0 24) (Z.shiftl b1 16)) (Z.shiftl b2 8)) b3).

Definition read_uint64_from_buffer (buf : bytes) (at_ : Z) : result Z :=
  top ← read_uint32_from_buffer buf at_;
  bottom ← read_uint32_from_buffer buf (at_ + 4);
  Ok (Z.lor (Z.shiftl top 32) bottom).

(** The image of a value: most significant byte first. *)
Definition be_bytes (n : nat) (v : Z) : bytes := rev (le_bytes n v).

Definition overwrite (b : bytes) (at_ : Z) (d : bytes) : bytes :=
  take (Z.to_nat at_) b ++ d ++ drop (Z.to_nat at_ + length d) b.

Lemma length_overwrite b at_ d :
  0 <= at_ -> at_ + blen d <= blen b -> length (overwrite b at_ d) = length b.
Proof.
  intros H0 H1. unfold overwrite, blen in *. rewrite !length_app, length_take, length_drop. lia.
Qed.

Lemma overwrite_app b at_ d d' :
  0 <= at_ -> at_ + blen d + blen d' <= blen b ->
  overwrite (overwrite b at_ d) (at_ + blen d) d' = overwrite b at_ (d ++ d').
Proof.
  intros H0 H1. unfold overwrite, blen in *.
  rewrite (app_assoc (take _ b) d), take_app_le by (rewrite length_app, length_take; lia).
  rewrite take_ge by (rewrite length_app, length_take; lia).
  rewrite <- !app_assoc. do 3 f_equal.
  rewrite app_assoc, drop_app_ge by (rewrite length_app, length_take; lia).
  rewrite drop_drop, !length_app, length_take. f_equal. lia.
Qed.

Lemma bset_overwrite b i v : 0 <= i < blen b -> bset b i v = Ok (overwrite b i [v]).
Proof.
  intros Hi. rewrite bset_lt by done. f_equal. unfold overwrite. unfold blen in Hi.
  rewrite insert_take_drop by lia. cbn. do 3 f_equal. lia.
Qed.

Lemma write_uint32_spec v b at_ :
  0 <= at_ -> at_ + 4 <= blen b -> write_uint32_to_buffer v b at_ = Ok (overwrite b at_ (be_bytes 4 v)).
Proof.
  intros H0 H1. unfold write_uint32_to_buffer.
  assert (Hl : forall d, 0 < blen d <= 4 -> blen (overwrite b at_ d) = blen b).
  { intros d Hd. unfold blen in *. rewrite length_overwrite; unfold blen; lia. }
  rewrite bset_overwrite by lia. cbn [mbind result_bind].
  rewrite bset_overwrite by (rewrite Hl; unfold blen in *; cbn [length]; lia).
  rewrite (overwrite_app b at_ [_]) by (unfold blen in *; cbn [length]; lia). cbn [mbind result_bind app].
  rewrite bset_overwrite by (rewrite Hl; unfold blen in *; cbn [length]; lia).
  rewrite (overwrite_app b at_ [_; _]) by (unfold blen in *; cbn [length]; lia). cbn [mbind result_bind app].
  rewrite bset_overwrite by (rewrite Hl; unfold blen in *; cbn [length]; lia).
  rewrite (overwrite_app b at_ [_; _; _]) by (unfold blen in *; cbn [length]; lia). cbn [app].
  unfold be_bytes. cbn [le_bytes rev app]. by rewrite !Z.shiftr_shiftr by lia.
Qed.

Lemma be_bytes_app n m v : be_bytes (n + m) v = be_bytes n (Z.shiftr v (8 * Z.of_nat m)) ++ be_bytes m v.
Proof.
  unfold be_bytes. rewrite <- rev_app_distr. f_equal. revert v.
  induction m as [|m IH]; intros v.
  - rewrite Nat.add_0_r, Z.mul_0_r, Z.shiftr_0_r. done.
  - rewrite Nat.add_succ_r. cbn [le_bytes app]. rewrite IH, Z.shiftr_shiftr by lia. do 4 f_equal. lia.
Qed.

Lemma le_bytes_u n v w : 8 * Z.of_nat n <= w -> le_bytes n (v mod 2 ^ w) = le_bytes n v.
Proof.
  intros Hw. apply bytes_eq_bits; [apply is_bytes_le_bytes.. | by rewrite !length_le_bytes |].
  intros i Hi. rewrite blen_le_bytes in Hi. rewrite !bitz_le_bytes, testbit_u by lia.
  cases_ltb. by simpl_bool.
Qed.

Lemma write_uint64_spec v b at_ :
  0 <= at_ -> at_ + 8 <= blen b -> write_uint64_to_buffer v b at_ = Ok (overwrite b at_ (be_bytes 8 v)).
Proof.
  intros H0 H1. unfold write_uint64_to_buffer.
  rewrite write_uint32_spec by lia. cbn [mbind result_bind].
  assert (Hd : blen (be_bytes 4 (u32 (Z.shiftr v 32))) = 4) by done.
  rewrite write_uint32_spec; [|lia|unfold blen in *; rewrite length_overwrite; unfold blen; lia].
  replace (at_ + 4) with (at_ + blen (be_bytes 4 (u32 (Z.shiftr v 32)))) by lia.
  rewrite overwrite_app by (change (blen (be_bytes 4 (u32 v))) with 4; lia).
  pose proof (be_bytes_app 4 4 v) as Hs. change (4 + 4)%nat with 8%nat in Hs. rewrite Hs.
  unfold be_bytes, u32. by rewrite !le_bytes_u by lia.
Qed.

(** *** Reading back *)
Lemma bget_overwrite b at_ d i :
  0 <= at_ -> at_ + blen d <= blen b -> 0 <= i < blen d ->
  bget (overwrite b at_ d) (at_ + i) = Ok (nth (Z.to_nat i) d 0).
Proof.
  intros H0 H1 Hi. rewrite bget_nth.
  - f_equal. unfold overwrite, blen in *. rewrite app_nth2 by (rewrite length_take; lia).
    rewrite length_take, app_nth1 by lia. f_equal. lia.
  - unfold blen in *. rewrite length_overwrite; unfold blen; lia.
Qed.

Lemma be_value_bits v :
  is_u32 v ->
  Z.lor (Z.lor (Z.lor (Z.shiftl (u8 (Z.shiftr v 24)) 24) (Z.shiftl (u8 (Z.shiftr v 16)) 16))
    (Z.shiftl (u8 (Z.shiftr v 8)) 8)) (u8 v) = v.
Proof.
  intros Hv. apply Z.bits_inj'. intros i Hi. rewrite !Z.lor_spec, !testbit_shiftl, !testbit_u8 by lia.
  assert (Hs : forall k, 0 <= k -> Z.testbit (Z.shiftr v k) (i - k) && (i - k <? 8) =
      (k <=? i) && (i - k <? 8) && Z.testbit v i).
  { intros k Hk. destruct (Z.leb_spec k i).
    - rewrite testbit_shiftr, Z.sub_add by lia. by rewrite andb_true_l, andb_comm.
    - by rewrite Z.testbit_neg_r by lia. }
  rewrite !Hs by lia. destruct (Z.ltb_spec i 32) as [|Hhi].
  - destruct (Z.testbit v i); cases_ltb; done.
  - rewrite (testbit_high 32 v) by done. by rewrite !andb_false_r.
Qed.

Lemma read_write_uint32 v b at_ :
  0 <= at_ -> at_ + 4 <= blen b -> is_u32 v ->
  read_uint32_from_buffer (overwrite b at_ (be_bytes 4 v)) at_ = Ok v.
Proof.
  intros H0 H1 Hv. unfold read_uint32_from_buffer.
  assert (Hl : blen (be_bytes 4 v) = 4) by done.
  pose proof (fun i => bget_overwrite b at_ (be_bytes 4 v) i H0) as Hg. rewrite Hl in Hg.
  pose proof (Hg 0 ltac:(lia) ltac:(lia)) as G0. rewrite Z.add_0_r in G0.
  rewrite G0, !Hg by lia. cbn [mbind result_bind]. f_equal.
  unfold be_bytes. cbn [le_bytes rev app Z.to_nat nth Pos.to_nat Pos.iter_op Nat.add].
  rewrite !Z.shiftr_shiftr by lia. by apply be_value_bits.
Qed.

(** ** Base 16 *)
Definition hex_digit (nib : Z) : Z := if 9 <? nib then u8 (97 + nib - 10) else u8 (48 + nib).

Fixpoint encode_loop (buffer : bytes) : bytes :=
  match buffer with
  | [] => []
  | b :: buffer => hex_digit (Z.shiftr b 4) :: hex_digit (Z.land b 0xF) :: encode_loop buffer
  end.

(** The text keeps its terminator. *)
Definition buffer_encode_base_16 (buffer : bytes) (len : Z) : result byte_buffer :=
  let out_len := u32 (len * 2 + 1) in
  _ ← require ((len <=? blen buffer) && (len * 2 + 1 <=? out_len)) out_of_bounds;
  Ok (byte_buffer.mk (encode_loop (take (Z.to_nat len) buffer) ++ [0])).

(** Both nibbles; the third range of each is ['A' .. 'A']. *)
Definition nibble (c : Z) : option Z :=
  if (48 <=? c) && (c <=? 57) then Some (c - 48)
  else if (97 <=? c) && (c <=? 102) then Some (c - 97 + 10)
  else if (65 <=? c) && (c <=? 65) then Some (c - 65 + 10)
  else None.

Definition decode_pair (nib1 nib2 : Z) : Z :=
  let out := match nibble nib1 with Some n => u8 (Z.shiftl n 4) | None => 0 end in
  match nibble nib2 with Some n => Z.lor out n | None => out end.

Fixpoint decode_loop (out_len : nat) (buffer : bytes) : result bytes :=
  match out_len with
  | O => Ok []
  | S out_len =>
      nib1 ← bget buffer 0; nib2 ← bget buffer 1;
      rest ← decode_loop out_len (drop 2 buffer);
      Ok (decode_pair nib1 nib2 :: rest)
  end.

Definition buffer_decode_base_16 (buffer : bytes) (len : Z) : result byte_buffer :=
  d ← decode_loop (Z.to_nat (Z.shiftr len 1)) buffer; Ok (byte_buffer.mk d).

Lemma decode_pair_hex b : is_u8 b -> decode_pair (hex_digit (Z.shiftr b 4)) (hex_digit (Z.land b 0xF)) = b.
Proof.
  intros [H0 H1]. change (2 ^ 8) with (Z.of_nat 256) in H1.
  assert (Hall : forallb (fun b => decode_pair (hex_digit (Z.shiftr b 4)) (hex_digit (Z.land b 0xF)) =? b)
    (map Z.of_nat (seq 0 256)) = true) by reflexivity.
  rewrite forallb_forall in Hall. apply Z.eqb_eq, Hall, Z_enum. lia.
Qed.

Lemma decode_encode b tail : is_bytes b -> decode_loop (length b) (encode_loop b ++ tail) = Ok b.
Proof.
  induction 1 as [|x b Hx Hb IH]; [done|]. cbn [length decode_loop encode_loop app].
  set (d0 := hex_digit _). set (d1 := hex_digit (Z.land _ _)).
  change (bget (d0 :: d1 :: encode_loop b ++ tail) 0) with (Ok d0 : result Z).
  change (bget (d0 :: d1 :: encode_loop b ++ tail) 1) with (Ok d1 : result Z).
  change (drop 2 (d0 :: d1 :: encode_loop b ++ tail)) with (drop 0 (encode_loop b ++ tail)).
  cbn [mbind result_bind]. rewrite drop_0, IH. cbn [mbind result_bind]. subst d0 d1. by rewrite decode_pair_hex.
Qed.

Lemma length_encode_loop b : length (encode_loop b) = (2 * length b)%nat.
Proof. induction b as [|x b IH]; [done|]. cbn [encode_loop length]. lia. Qed.

(** The decoder inverts the encoder: every byte string of less than two gigabytes, encoded in base 16
    and decoded from the text without its terminator, comes back, and neither direction leaves
    its buffer. *)
Lemma base_16_roundtrip b :
  is_bytes b -> blen b < 2 ^ 31 ->
  exists t, buffer_encode_base_16 b (blen b) = Ok t /\
    byte_buffer.get_buffer_size t = 2 * blen b + 1 /\
    buffer_decode_base_16 (byte_buffer.data t) (byte_buffer.get_buffer_size t - 1) = Ok (byte_buffer.mk b).
Proof.
  intros Hb Hs. unfold buffer_encode_base_16. pose proof (blen_nonneg b).
  rewrite u32_small, !Z.leb_refl by (unfold in_u; lia). cbn [andb require mbind result_bind].
  rewrite take_ge by (unfold blen; lia). eexists. split; [done|].
  unfold byte_buffer.get_buffer_size. cbn [byte_buffer.data].
  assert (Hsz : blen (encode_loop b ++ [0]) = 2 * blen b + 1).
  { rewrite blen_app. unfold blen. rewrite length_encode_loop. cbn. lia. }
  rewrite Hsz. split; [done|]. unfold buffer_decode_base_16.
  replace (Z.to_nat _) with (length b); [by rewrite decode_encode|].
  rewrite Z.shiftr_div_pow2 by lia. unfold blen. zlia.
Qed.

Lemma base_16_roundtrip_witness :
  let b := [0; 255; 16; 171; 205] in
  (is_bytes b /\ blen b < 2 ^ 31) /\ exists t, buffer_encode_base_16 b (blen b) = Ok t /\
    byte_buffer.get_buffer_size t = 2 * blen b + 1 /\
    buffer_decode_base_16 (byte_buffer.data t) (byte_buffer.get_buffer_size t - 1) = Ok (byte_buffer.mk b).
Proof.
  assert (Hb : is_bytes [0; 255; 16; 171; 205]) by (repeat constructor; lia).
  split; [split; [done | reflexivity] | apply base_16_roundtrip; [done | reflexivity]].
Defined.

(** Upper-case digits other than 'A' read as zero. *)
Example decode_upper_case :
  buffer_decode_base_16 [66; 66] 2 = Ok (byte_buffer.mk [0]) /\
  buffer_decode_base_16 [98; 98] 2 = Ok (byte_buffer.mk [187]).
Proof. done. Qed.

(** ** The CRC *)
Definition crc_bit (val : Z) : Z :=
  if negb (Z.land val 1 =? 0) then Z.lxor 0xedb88320 (Z.shiftr val 1) else Z.shiftr val 1.

(** The table is static: the first call fills it. *)
Definition crc_table : list Z := map (fun i => Nat.iter 8 crc_bit (Z.of_nat i)) (seq 0 256).

Fixpoint crc_loop (buffer : bytes) (crcVal : Z) : Z :=
  match buffer with
  | [] => crcVal
  | b :: buffer =>
      crc_loop buffer (Z.lxor (nth (Z.to_nat (Z.land (Z.lxor crcVal b) 0xff)) crc_table 0) (Z.shiftr crcVal 8))
  end.

Definition buffer_calculate_crc (buffer : bytes) (len crcVal : Z) : result Z :=
  _ ← require (len <=? blen buffer) out_of_bounds;
  Ok (crc_loop (take (Z.to_nat len) buffer) crcVal).

(** The reference: the register takes a byte and is shifted eight times. *)
Definition crc_reference (buffer : bytes) (crcVal : Z) : Z :=
  fold_left (fun crc b => Nat.iter 8 crc_bit (Z.lxor crc b)) buffer crcVal.

Lemma crc_bit_lxor x y : crc_bit (Z.lxor x y) = Z.lxor (crc_bit x) (crc_bit y).
Proof.
  assert (Ho : forall z, negb (Z.land z 1 =? 0) = Z.testbit z 0).
  { intros z. change 1 with (Z.ones 1). rewrite Z.land_ones by lia. change (2 ^ 1) with 2.
    rewrite <- Z.bit0_mod. by destruct (Z.testbit z 0). }
  unfold crc_bit. rewrite !Ho, Z.lxor_spec, Z.shiftr_lxor.
  destruct (Z.testbit x 0), (Z.testbit y 0); cbn [xorb].
  all: apply Z.bits_inj'; intros i Hi; rewrite !Z.lxor_spec;
    destruct (Z.testbit 0xedb88320 i), (Z.testbit (Z.shiftr x 1) i), (Z.testbit (Z.shiftr y 1) i); done.
Qed.

Lemma crc_bits_lxor n x y :
  Nat.iter n crc_bit (Z.lxor x y) = Z.lxor (Nat.iter n crc_bit x) (Nat.iter n crc_bit y).
Proof. induction n as [|n IH]; cbn [Nat.iter nat_rect]; [done|]. unfold Nat.iter in IH. by rewrite IH, crc_bit_lxor. Qed.

(** With no bit among the low ones, the register is only shifted. *)
Lemma crc_bits_shift n z : Nat.iter n crc_bit (Z.shiftl z (Z.of_nat n)) = z.
Proof.
  induction n as [|n IH]; [cbn; apply Z.shiftl_0_r|].
  assert (Hl : Z.shiftl z (Z.of_nat (S n)) = Z.shiftl z (Z.of_nat n) * 2).
  { rewrite !Z.shiftl_mul_pow2, Nat2Z.inj_succ, Z.pow_succ_r by lia. lia. }
  rewrite Nat.iter_succ_r, Hl. unfold crc_bit at 2. change 1 with (Z.ones 1) at 1.
  rewrite Z.land_ones, Z.mod_mul by lia. cbn [negb Z.eqb].
  rewrite Z.shiftr_div_pow2, Z.div_mul by lia. done.
Qed.

Lemma split_low_byte x :
  x = Z.lxor (Z.land x 0xff) (Z.shiftl (Z.shiftr x 8) 8).
Proof.
  change 0xff with (Z.ones 8). rewrite Z.land_ones by lia.
  apply Z.bits_inj'. intros i Hi. rewrite Z.lxor_spec, testbit_u, testbit_shiftl by lia.
  destruct (Z.ltb_spec i 8).
  - rewrite (Z.testbit_neg_r _ (i - 8)), xorb_false_r, andb_true_r by lia. done.
  - rewrite testbit_shiftr, Z.sub_add, andb_false_r, xorb_false_l by lia. done.
Qed.

Lemma crc_table_step crc b :
  is_u8 b ->
  Z.lxor (nth (Z.to_nat (Z.land (Z.lxor crc b) 0xff)) crc_table 0) (Z.shiftr crc 8) =
  Nat.iter 8 crc_bit (Z.lxor crc b).
Proof.
  intros Hb. rewrite (split_low_byte (Z.lxor crc b)) at 2. rewrite crc_bits_lxor.
  pose proof (crc_bits_shift 8 (Z.shiftr (Z.lxor crc b) 8)) as Hsh. change (Z.of_nat 8) with 8 in Hsh. rewrite Hsh. f_equal.
  - assert (Hr : 0 <= Z.land (Z.lxor crc b) 0xff < 256).
    { change 0xff with (Z.ones 8). rewrite Z.land_ones by lia. apply Z.mod_pos_bound. lia. }
    unfold crc_table. apply nth_lookup_Some. rewrite list_lookup_fmap, lookup_seq_lt by lia.
    cbn [fmap option_fmap option_map]. do 2 f_equal. lia.
  - rewrite Z.shiftr_lxor. replace (Z.shiftr b 8) with 0; [by rewrite Z.lxor_0_r|].
    rewrite Z.shiftr_div_pow2 by lia. symmetry. by apply Z.div_small.
Qed.

Lemma crc_loop_reference b : is_bytes b -> forall crc, crc_loop b crc = crc_reference b crc.
Proof.
  induction 1 as [|x b Hx Hb IH]; intros crc; [done|]. cbn [crc_loop]. by rewrite IH, crc_table_step.
Qed.

(** C24. The table-driven CRC is the bit-serial one: a 32-bit register divided by the reflected
    polynomial 0xedb88320, a byte at a time; and a buffer may be given in two pieces, the
    result for the first being the start value for the second. *)
Theorem crc_equals_reference a b crc :
  is_bytes a -> is_bytes b ->
  buffer_calculate_crc (a ++ b) (blen (a ++ b)) crc = Ok (crc_reference (a ++ b) crc) /\
  (c ← buffer_calculate_crc a (blen a) crc; buffer_calculate_crc b (blen b) c) =
    buffer_calculate_crc (a ++ b) (blen (a ++ b)) crc.
Proof.
  intros Ha Hb. unfold buffer_calculate_crc. rewrite !Z.leb_refl. cbn [require mbind result_bind].
  rewrite !take_ge by (unfold blen; lia). rewrite !crc_loop_reference by (done || by apply Forall_app).
  split; [done|]. unfold crc_reference. by rewrite fold_left_app.
Qed.

Lemma crc_equals_reference_witness :
  let a := [49; 50; 51] in let b := [52; 53; 54; 55; 56; 57] in
  (is_bytes a /\ is_bytes b) /\
  buffer_calculate_crc (a ++ b) (blen (a ++ b)) 0xFFFFFFFF = Ok (crc_reference (a ++ b) 0xFFFFFFFF) /\
  (c ← buffer_calculate_crc a (blen a) 0xFFFFFFFF; buffer_calculate_crc b (blen b) c) =
    buffer_calculate_crc (a ++ b) (blen (a ++ b)) 0xFFFFFFFF.
Proof.
  intros a b. assert (is_bytes a /\ is_bytes b) as [Ha Hb] by (split; repeat constructor; lia).
  split; [split; done | exact (crc_equals_reference a b 0xFFFFFFFF Ha Hb)].
Defined.

(** The published check value, before the final complement. *)
Example crc_check_value :
  buffer_calculate_crc [49; 50; 51; 52; 53; 54; 55; 56; 57] 9 0xFFFFFFFF =
    Ok (Z.lxor 0xFFFFFFFF 0xCBF43926).
Proof. vm_compute. reflexivity. Qed.

(** ** The envelope of the handshake packets *)
Lemma byte_bits_app a b : byte_bits (a ++ b) = byte_bits a ++ byte_bits b.
Proof.
  unfold byte_bits. rewrite blen_app, Z.mul_add_distr_l, bits_of_app by (unfold blen; lia). f_equal.
  - apply bits_of_ext. intros k Hk. unfold bitz. rewrite lookup_app_l; [done|]. unfold blen in Hk. zlia.
  - apply bits_of_ext. intros k Hk. unfold bitz, blen in *.
    rewrite lookup_app_r by zlia.
    replace (Z.to_nat ((0 + 8 * Z.of_nat (length a) + k) / 8) - length a)%nat with (Z.to_nat ((0 + k) / 8)) by zlia.
    replace ((0 + 8 * Z.of_nat (length a) + k) mod 8) with ((0 + k) mod 8) by zlia.
    destruct (b !! _); [|done].
    destruct (Z.leb_spec 0 (0 + k)), (Z.leb_spec 0 (0 + 8 * Z.of_nat (length a) + k)); (done || lia).
Qed.

Section envelope.
Context `{Machine} `{BlockCipher}.

(** The automatic [hash_state] before [sha256_init]. *)
Definition local_hash_state : hash_state := mk_hash indeterminate [] indeterminate (malloc 64).

(** [sha256_init], [sha256_process] over the first [len] bytes, [sha256_done]. *)
Definition sha256_of (buffer : bytes) (len : Z) : result bytes :=
  '(md, _) ← sha256_process (sha256_init local_hash_state) buffer len;
  of_option out_of_bounds (sha256_done md).

(** [encrypt]/[decrypt] in place of the [len] bytes at [start]. *)
Definition in_place (op : symmetric_cipher -> bytes -> result (symmetric_cipher * bytes))
    (the_cipher : symmetric_cipher) (buffer : bytes) (start len : Z) : result (symmetric_cipher * bytes) :=
  _ ← require ((0 <=? start) && (start + len <=? blen buffer)) out_of_bounds;
  '(the_cipher, d) ← op the_cipher (take (Z.to_nat len) (drop (Z.to_nat start) buffer));
  Ok (the_cipher, overwrite buffer start d).

Definition bit_stream_hash_and_encrypt (the_stream : bit_stream) (hash_digest_size encrypt_start_offset : Z)
    (the_cipher : symmetric_cipher) : result (bit_stream * symmetric_cipher) :=
  let digest_start := get_next_byte_position the_stream in
  let the_stream := set_byte_position the_stream digest_start in
  hash ← sha256_of (bs_base the_stream) digest_start;
  '(the_stream, _) ← write_bytes the_stream hash hash_digest_size;
  '(the_cipher, buffer) ← in_place encrypt the_cipher (bs_base the_stream) encrypt_start_offset
    (u32 (get_next_byte_position the_stream - encrypt_start_offset));
  Ok (with_base the_stream buffer, the_cipher).

Definition bit_stream_decrypt_and_check_hash (the_stream : bit_stream)
    (hash_digest_size decrypt_start_offset : Z) (the_cipher : symmetric_cipher)
    : result (bit_stream * symmetric_cipher * bool) :=
  let buffer_size := get_stream_byte_size the_stream in
  if buffer_size <? u32 (decrypt_start_offset + hash_digest_size) then Ok (the_stream, the_cipher, false)
  else
    '(the_cipher, buffer) ← in_place decrypt the_cipher (bs_base the_stream) decrypt_start_offset
      (u32 (buffer_size - decrypt_start_offset));
    let the_stream := with_base the_stream buffer in
    hash ← sha256_of buffer (u32 (buffer_size - hash_digest_size));
    let start := u32 (buffer_size - hash_digest_size) in
    _ ← require ((start + hash_digest_size <=? blen buffer) && (hash_digest_size <=? blen hash)) out_of_bounds;
    let ret := bool_decide (take (Z.to_nat hash_digest_size) (drop (Z.to_nat start) buffer) =
                            take (Z.to_nat hash_digest_size) hash) in
    if ret then Ok (set_stream_byte_size the_stream start, the_cipher, true)
    else Ok (the_stream, the_cipher, false).

Lemma sha256_of_spec b n :
  0 <= n <= blen b -> sha256_of b n = Ok (sha256_spec (take (Z.to_nat n) b)).
Proof.
  intros Hn. rewrite <- (sha256_buffer_spec local_hash_state);
    [|pose proof (malloc_length 64 ltac:(lia)); unfold blen in *; cbn; lia].
  unfold sha256_of, sha256_buffer, sha256_process, hash_process. cbn [hs_curlen sha256_init].
  assert (Hl : blen (take (Z.to_nat n) b) = n) by (unfold blen in *; rewrite length_take; lia).
  rewrite Hl, Z.leb_refl. destruct (Z.leb_spec n (blen b)); [|lia]. cbn [require mbind result_bind Z.ltb Z.compare].
  by rewrite take_take, Nat.min_id.
Qed.

Lemma overwrite_split b n m d :
  0 <= n <= m -> m <= blen b -> blen d = m - n ->
  overwrite b n d = take (Z.to_nat n) b ++ d ++ drop (Z.to_nat m) b.
Proof. intros Hn Hm Hd. unfold overwrite, blen in *. do 3 f_equal. lia. Qed.

(** The slice that was written. *)
Lemma slice_overwrite b n d :
  0 <= n -> n + blen d <= blen b ->
  take (Z.to_nat (blen d)) (drop (Z.to_nat n) (overwrite b n d)) = d.
Proof.
  intros Hn Hd. unfold overwrite, blen in *.
  rewrite drop_app_ge, length_take by (rewrite length_take; lia).
  replace (Z.to_nat n - Z.to_nat n `min` length b)%nat with 0%nat by lia.
  rewrite drop_0, take_app_le, take_ge by lia. done.
Qed.

Lemma overwrite_overwrite b n d d' :
  0 <= n -> n + blen d <= blen b -> blen d' = blen d -> overwrite (overwrite b n d) n d' = overwrite b n d'.
Proof.
  intros Hn Hd Hl. unfold overwrite, blen in *. 
  rewrite take_app_le, take_take, Nat.min_id by (rewrite length_take; lia). do 2 f_equal.
  rewrite app_assoc, drop_app_ge by (rewrite length_app, length_take; lia).
  rewrite drop_drop, length_app, length_take. f_equal. lia.
Qed.

Lemma overwrite_same b n m :
  0 <= n -> 0 <= m -> n + m <= blen b -> overwrite b n (take (Z.to_nat m) (drop (Z.to_nat n) b)) = b.
Proof.
  intros Hn Hm Hb. unfold overwrite, blen in *. rewrite length_take, length_drop.
  replace (Z.to_nat n + _)%nat with (Z.to_nat n + Z.to_nat m)%nat by lia.
  rewrite <- drop_drop, take_drop. apply take_drop.
Qed.

Lemma is_bytes_overwrite b n d : is_bytes b -> is_bytes d -> is_bytes (overwrite b n d).
Proof.
  intros Hb Hd. unfold overwrite. apply Forall_app; split; [by apply Forall_take|].
  apply Forall_app; split; [done | by apply Forall_drop].
Qed.

Lemma in_place_tail op c b start :
  0 <= start <= blen b ->
  in_place op c b start (blen b - start) =
    ('(c', d) ← op c (drop (Z.to_nat start) b); Ok (c', take (Z.to_nat start) b ++ d ++ drop (Z.to_nat start + length d) b)).
Proof.
  intros Hs. unfold in_place. destruct (Z.leb_spec 0 start); [|lia].
  destruct (Z.leb_spec (start + (blen b - start)) (blen b)); [|lia]. cbn [andb require mbind result_bind].
  rewrite take_ge; [done|]. unfold blen in *. rewrite length_drop. lia.
Qed.

(** The digest goes behind the next byte boundary. *)
Lemma write_digest s n d hash :
  stream_ok s -> get_next_byte_position s = n -> is_bytes hash -> 0 <= d <= blen hash ->
  8 * (n + d) <= bs_bit_end s ->
  exists s', write_bytes (set_byte_position s n) hash d = Ok (s', d) /\ stream_ok s' /\
    bs_bit_num s' = 8 * (n + d) /\ length (bs_base s') = length (bs_base s) /\
    take (Z.to_nat (n + d)) (bs_base s') = take (Z.to_nat n) (bs_base s) ++ take (Z.to_nat d) hash.
Proof.
  intros Hok Hp Hh Hd Hroom. pose proof Hok as [Hb Hc He Hs].
  assert (Hn : 0 <= n) by (subst n; apply Z.shiftr_nonneg, u32_range).
  assert (Hnum : bs_bit_num (set_byte_position s n) = 8 * n).
  { cbn. rewrite Z.shiftl_mul_pow2, u32_small by (unfold in_u; lia). lia. }
  assert (Hok0 : stream_ok (set_byte_position s n)) by (split; cbn [bs_base bs_bit_end]; rewrite ?Hnum; cbn; (done || lia)).
  unfold write_bytes. rewrite Z.shiftl_mul_pow2, u32_small by (unfold in_u; lia).
  destruct (write_bits_fits (set_byte_position s n) hash 0 (d * 2 ^ 3)) as (s' & -> & Ha);
    try done; try lia; [unfold space; rewrite Hnum; cbn; lia|].
  cbn [mbind result_bind]. exists s'.
  destruct Ha as [Hok' Hlen Hend Hnum' _ Hw]. rewrite Hnum, length_bits_of in Hnum'.
  split_and!; [| done | lia | done |].
  { do 2 f_equal. rewrite Z.shiftr_div_pow2 by lia. by apply Z.div_mul. }
  apply byte_bits_inj.
  - by apply Forall_take, Hok'.
  - apply Forall_app. split; by apply Forall_take.
  - rewrite (written_bytes s' (n + d)), Hw, byte_bits_app by (done || lia). f_equal.
    + rewrite <- (written_bytes (set_byte_position s n) n) by done. done.
    + unfold byte_bits. assert (Hl : blen (take (Z.to_nat d) hash) = d).
      { unfold blen in *. rewrite length_take. lia. }
      rewrite Hl. replace (d * 2 ^ 3) with (8 * d) by lia. apply bits_of_ext. intros k Hk.
      unfold bitz. rewrite lookup_take_lt by zlia. done.
Qed.

(** What a receiver does with a datagram of at least [e + d] bytes: it decrypts the part
    behind [e] and accepts exactly when the last [d] bytes are the beginning of the
    digest of the others, which it then leaves as the content of the stream. *)
Lemma open_spec b c d e :
  is_bytes b -> cipher_ok c -> 8 * blen b < 2 ^ 32 - 8 -> 0 <= d <= 32 -> 0 <= e -> e + d <= blen b ->
  exists c' x, decrypt c (drop (Z.to_nat e) b) = Ok (c', x) /\ cipher_ok c' /\ is_bytes x /\
    let plain := take (Z.to_nat e) b ++ x in
    let n := blen b - d in
    let accepted := bool_decide (drop (Z.to_nat n) plain =
      take (Z.to_nat d) (sha256_spec (take (Z.to_nat n) plain))) in
    bit_stream_decrypt_and_check_hash (new_stream b (blen b)) d e c =
      Ok (new_stream plain (if accepted then n else blen b), c', accepted).
Proof.
  intros Hb Hc Hs Hd He Hde. pose proof (blen_nonneg b).
  destruct (decrypt_total c (drop (Z.to_nat e) b)) as (c' & x & Hdec & Hc' & Hx & Hlx);
    [done | by apply Forall_drop |].
  exists c', x. split_and!; [done | done | done |]. intros plain n accepted.
  assert (Hlp : blen plain = blen b).
  { unfold plain, blen in *. rewrite length_app, length_take, Hlx, length_drop. lia. }
  unfold bit_stream_decrypt_and_check_hash.
  assert (Hsize : get_stream_byte_size (new_stream b (blen b)) = blen b).
  { unfold get_stream_byte_size, new_stream. cbn. rewrite (u32_small (_ * 8)), u32_small by (unfold in_u; lia).
    rewrite Z.shiftr_div_pow2 by lia. zlia. }
  rewrite Hsize, !(u32_small (_ - _)), (u32_small (_ + _)) by (unfold in_u; lia). fold n.
  destruct (Z.ltb_spec (blen b) (e + d)); [lia|].
  change (bs_base (new_stream b (blen b))) with b. rewrite in_place_tail, Hdec by lia.
  cbn [mbind result_bind]. rewrite Hlx, length_drop, (drop_ge b), app_nil_r by (unfold blen in *; lia).
  fold plain. rewrite sha256_of_spec by lia. cbn [mbind result_bind].
  assert (Hh : blen (sha256_spec (take (Z.to_nat n) plain)) = 32) by (unfold blen; by rewrite length_sha256_spec).
  destruct (Z.leb_spec (n + d) (blen plain)); [|lia]. destruct (Z.leb_spec d (blen (sha256_spec (take (Z.to_nat n) plain)))); [|lia].
  cbn [andb require mbind result_bind].
  rewrite (take_ge (drop _ plain)) by (unfold blen in *; rewrite length_drop; lia).
  fold accepted. by destruct accepted.
Qed.

(** What a sender puts on the wire. *)
Lemma seal_spec s c d e :
  stream_ok s -> cipher_ok c ->
  let n := get_next_byte_position s in
  0 <= d <= 32 -> 0 <= e <= n -> 8 * (n + d) <= bs_bit_end s ->
  let content := take (Z.to_nat n) (bs_base s) in
  let plain := content ++ take (Z.to_nat d) (sha256_spec content) in
  exists s' c' ct, bit_stream_hash_and_encrypt s d e c = Ok (s', c') /\
    get_next_byte_position s' = n + d /\ cipher_ok c' /\ is_bytes ct /\
    take (Z.to_nat (n + d)) (bs_base s') = take (Z.to_nat e) plain ++ ct /\
    decrypt c ct = Ok (c', drop (Z.to_nat e) plain) /\
    length (take (Z.to_nat e) plain ++ ct) = length plain.
Proof.
  intros Hok Hc n Hd He Hroom content plain. pose proof Hok as [Hb Hcur Hend Hs].
  unfold bit_stream_hash_and_encrypt. fold n. cbn [bs_base set_byte_position with_bit_num].
  rewrite sha256_of_spec by lia. cbn [mbind result_bind]. fold content.
  assert (Hhash : blen (sha256_spec content) = 32) by (unfold blen; by rewrite length_sha256_spec).
  destruct (write_digest s n d (sha256_spec content)) as (s' & -> & Hok' & Hnum & Hlen & Htake);
    [done | done | apply is_bytes_sha256_spec | lia | done |]. cbn [mbind result_bind].
  change (take (Z.to_nat (n + d)) (bs_base s') = plain) in Htake.
  assert (Hpos : get_next_byte_position s' = n + d).
  { unfold get_next_byte_position. rewrite Hnum, u32_small by (unfold in_u; lia).
    rewrite Z.shiftr_div_pow2 by lia. zlia. }
  rewrite Hpos, (u32_small (_ - e)) by (unfold in_u; lia).
  assert (Hlb : blen (bs_base s') = blen (bs_base s)) by (unfold blen; lia).
  assert (Hlp : blen plain = n + d) by (rewrite <- Htake; unfold blen in *; rewrite length_take; lia).
  unfold in_place. destruct (Z.leb_spec 0 e); [|lia].
  destruct (Z.leb_spec (e + (n + d - e)) (blen (bs_base s'))); [|lia]. cbn [andb require mbind result_bind].
  assert (take (Z.to_nat (n + d - e)) (drop (Z.to_nat e) (bs_base s')) = drop (Z.to_nat e) plain) as ->.
  { rewrite <- Htake, take_drop_commute. do 2 f_equal. lia. }
  destruct (encrypt_decrypt c (drop (Z.to_nat e) plain)) as (c' & ct & -> & Hdec & Hc' & Hct & Hlct);
    [done | apply Forall_drop; rewrite <- Htake; apply Forall_take, Hok' |].
  cbn [mbind result_bind]. rewrite length_drop in Hlct.
  exists (with_base s' (overwrite (bs_base s') e ct)), c', ct.
  assert (Hte : take (Z.to_nat e) plain = take (Z.to_nat e) (bs_base s')).
  { rewrite <- Htake, take_take. f_equal. lia. }
  split_and!; try done.
  - rewrite Hte. cbn [bs_base with_base]. unfold overwrite. rewrite app_assoc.
    assert (Hl : length (take (Z.to_nat e) (bs_base s') ++ ct) = Z.to_nat (n + d)).
    { unfold blen in *. rewrite length_app, length_take. lia. }
    rewrite take_app_le, take_ge by lia. done.
  - rewrite length_app, length_take, Hlct. unfold blen in *. lia.
Qed.

(** C17. What one party seals the other opens.  A stream whose content ends at byte [n] is
    hashed, [d] bytes of the digest are appended and everything from byte [e] on is
    encrypted; the datagram made of the first [n + d] bytes is accepted by a receiver
    whose cipher is in the same state, which ends with the sender's cipher state, a
    stream of [n] bytes, and in them exactly what the sender had written. *)
Theorem envelope_roundtrip s c d e :
  stream_ok s -> cipher_ok c ->
  let n := get_next_byte_position s in
  0 <= d <= 32 -> 0 <= e <= n -> 8 * (n + d) <= bs_bit_end s ->
  exists s' c', bit_stream_hash_and_encrypt s d e c = Ok (s', c') /\
    get_next_byte_position s' = n + d /\ cipher_ok c' /\
    exists r', bit_stream_decrypt_and_check_hash
        (new_stream (take (Z.to_nat (n + d)) (bs_base s')) (n + d)) d e c = Ok (r', c', true) /\
      get_stream_byte_size r' = n /\
      take (Z.to_nat n) (bs_base r') = take (Z.to_nat n) (bs_base s).
Proof.
  intros Hok Hc n Hd He Hroom. pose proof Hok as [Hb Hcur Hend Hs].
  destruct (seal_spec s c d e) as (s' & c' & ct & Hse & Hpos & Hc' & Hct & Htake & Hdec & Hl); [done..|].
  fold n in Hpos, Htake, Hdec, Hl. set (content := take (Z.to_nat n) (bs_base s)) in *.
  set (plain := content ++ _) in *.
  assert (Hh : blen (sha256_spec content) = 32) by (unfold blen; by rewrite length_sha256_spec).
  assert (Hlc : blen content = n) by (unfold content, blen in *; rewrite length_take; lia).
  assert (Hlp : blen plain = n + d).
  { unfold plain, blen in *. rewrite length_app, length_take. lia. }
  assert (Hbp : is_bytes plain).
  { apply Forall_app; split; apply Forall_take; [done | apply is_bytes_sha256_spec]. }
  exists s', c'. split_and!; try done. rewrite Htake.
  set (b := take (Z.to_nat e) plain ++ ct) in *.
  assert (Hlb : n + d = blen b) by (unfold blen in *; lia).
  destruct (open_spec b c d e) as (c2 & x & Hdec2 & _ & _ & Hopen);
    [apply Forall_app; split; [by apply Forall_take | done] | done | lia | done | lia | lia |].
  assert (Hbe : take (Z.to_nat e) b = take (Z.to_nat e) plain /\ drop (Z.to_nat e) b = ct).
  { unfold b, blen in *. split.
    - rewrite take_app_le, take_take, Nat.min_id by (rewrite length_take; lia). done.
    - rewrite drop_app_ge by (rewrite length_take; lia).
      replace (Z.to_nat e - _)%nat with 0%nat by (rewrite length_take; lia). done. }
  destruct Hbe as [Hte Hde]. rewrite Hde, Hdec in Hdec2. injection Hdec2 as <- <-.
  rewrite Hte, take_drop, <- Hlb in Hopen. rewrite Hopen.
  replace (n + d - d) with n by lia.
  assert (Hpc : take (Z.to_nat n) plain = content /\ drop (Z.to_nat n) plain = take (Z.to_nat d) (sha256_spec content)).
  { unfold plain. assert (Z.to_nat n = length content) as -> by (unfold blen in *; lia).
    by rewrite take_app_length, drop_app_length. }
  destruct Hpc as [Hpc1 Hpc2]. rewrite Hpc1, Hpc2, bool_decide_eq_true_2 by done.
  eexists. split; [done|]. split; [|done].
  unfold get_stream_byte_size, new_stream. cbn. rewrite (u32_small (n * 8)), u32_small by (unfold in_u; lia).
  rewrite Z.shiftr_div_pow2 by lia. zlia.
Qed.
End envelope.

Lemma envelope_roundtrip_witness :
  let s := set_bit_position (new_stream (map Z.of_nat (seq 0 64)) 64) 77 in
  let c := new_cipher_key_iv (map Z.of_nat (seq 0 16)) (map Z.of_nat (seq 100 16)) in
  (stream_ok s /\ cipher_ok c) /\
  exists s' c', bit_stream_hash_and_encrypt s 16 4 c = Ok (s', c') /\
    get_next_byte_position s' = 26 /\ cipher_ok c' /\
    exists r', bit_stream_decrypt_and_check_hash
        (new_stream (take 26 (bs_base s')) 26) 16 4 c = Ok (r', c', true) /\
      get_stream_byte_size r' = 10 /\ take 10 (bs_base r') = map Z.of_nat (seq 0 10).
Proof.
  intros s c. assert (Hs : stream_ok s).
  { split; try (vm_compute; intuition congruence). apply Forall_map, Forall_forall.
    intros i Hi%in_seq. split; lia. }
  assert (Hc : cipher_ok c) by (by apply new_cipher_key_iv_ok).
  split; [done|].
  refine (envelope_roundtrip s c 16 4 Hs Hc _ _ _); [lia | | ]; vm_compute; intuition congruence.
Defined.
