(* ===== verification/Md5.v ===== *)
(** * MD5 as the library computes it: lib/libtomcrypt/src/hashes/md5.c

    [buffer_compute_md5_hash] of buffer_utils.h runs it.  The compression function is there in
    two forms, unrolled and, with [LTC_SMALL_CODE], as loops over tables; they compute the same,
    and with the padding of the streaming interface (HashStream) it is the digest of RFC 1321
    ([md5_is_rfc_1321]). *)
From S2P Require Import Prelude Endian BitStream StreamIO EventQueue Net Cipher HashStream Sha256 BufferUtils.
#[local] Open Scope Z_scope.

(** ** The compression function *)
Definition F (x y z : Z) : Z := Z.lxor z (Z.land x (Z.lxor y z)).
Definition G (x y z : Z) : Z := Z.lxor y (Z.land z (Z.lxor y x)).
Definition H (x y z : Z) : Z := Z.lxor (Z.lxor x y) z.
Definition I (x y z : Z) : Z := Z.lxor y (Z.lor x (u32 (Z.lnot z))).

(** [ROLc], and [ROL] *)
Definition rol (x y : Z) : Z := u32 (Z.lor (Z.shiftl x (Z.land y 31)) (Z.shiftr (u32 x) (32 - Z.land y 31))).

(** [LOAD32L], [STORE32L] and [STORE64L] of a little-endian machine *)
Definition load32l (b : bytes) : Z := le_val (take 4 b).
Definition store32l (x : Z) : bytes := le_bytes 4 x.
Definition store64l (x : Z) : bytes := le_bytes 8 x.

Inductive macro : Type := FF | GG | HH | II.
Definition mixing (m : macro) : Z -> Z -> Z -> Z := match m with FF => F | GG => G | HH => H | II => I end.

(** [FF(a,b,c,d,M,s,t)] and the others: the new [a] *)
Definition mix (m : macro) (a b c d M s t : Z) : Z :=
  let a := u32 (a + mixing m b c d + M + t) in u32 (rol a s + b).

(** The 64 lines of the unrolled form - the macro, the index of the word, the shift and the
    constant; four lines in a row write [a], [d], [c] and [b]. *)
Definition step : Type := macro * nat * Z * Z.
Definition lines : list step :=
  [(FF, 0%nat, 7, 0xd76aa478); (FF, 1%nat, 12, 0xe8c7b756);
   (FF, 2%nat, 17, 0x242070db); (FF, 3%nat, 22, 0xc1bdceee);
   (FF, 4%nat, 7, 0xf57c0faf); (FF, 5%nat, 12, 0x4787c62a);
   (FF, 6%nat, 17, 0xa8304613); (FF, 7%nat, 22, 0xfd469501);
   (FF, 8%nat, 7, 0x698098d8); (FF, 9%nat, 12, 0x8b44f7af);
   (FF, 10%nat, 17, 0xffff5bb1); (FF, 11%nat, 22, 0x895cd7be);
   (FF, 12%nat, 7, 0x6b901122); (FF, 13%nat, 12, 0xfd987193);
   (FF, 14%nat, 17, 0xa679438e); (FF, 15%nat, 22, 0x49b40821);
   (GG, 1%nat, 5, 0xf61e2562); (GG, 6%nat, 9, 0xc040b340);
   (GG, 11%nat, 14, 0x265e5a51); (GG, 0%nat, 20, 0xe9b6c7aa);
   (GG, 5%nat, 5, 0xd62f105d); (GG, 10%nat, 9, 0x02441453);
   (GG, 15%nat, 14, 0xd8a1e681); (GG, 4%nat, 20, 0xe7d3fbc8);
   (GG, 9%nat, 5, 0x21e1cde6); (GG, 14%nat, 9, 0xc33707d6);
   (GG, 3%nat, 14, 0xf4d50d87); (GG, 8%nat, 20, 0x455a14ed);
   (GG, 13%nat, 5, 0xa9e3e905); (GG, 2%nat, 9, 0xfcefa3f8);
   (GG, 7%nat, 14, 0x676f02d9); (GG, 12%nat, 20, 0x8d2a4c8a);
   (HH, 5%nat, 4, 0xfffa3942); (HH, 8%nat, 11, 0x8771f681);
   (HH, 11%nat, 16, 0x6d9d6122); (HH, 14%nat, 23, 0xfde5380c);
   (HH, 1%nat, 4, 0xa4beea44); (HH, 4%nat, 11, 0x4bdecfa9);
   (HH, 7%nat, 16, 0xf6bb4b60); (HH, 10%nat, 23, 0xbebfbc70);
   (HH, 13%nat, 4, 0x289b7ec6); (HH, 0%nat, 11, 0xeaa127fa);
   (HH, 3%nat, 16, 0xd4ef3085); (HH, 6%nat, 23, 0x04881d05);
   (HH, 9%nat, 4, 0xd9d4d039); (HH, 12%nat, 11, 0xe6db99e5);
   (HH, 15%nat, 16, 0x1fa27cf8); (HH, 2%nat, 23, 0xc4ac5665);
   (II, 0%nat, 6, 0xf4292244); (II, 7%nat, 10, 0x432aff97);
   (II, 14%nat, 15, 0xab9423a7); (II, 5%nat, 21, 0xfc93a039);
   (II, 12%nat, 6, 0x655b59c3); (II, 3%nat, 10, 0x8f0ccc92);
   (II, 10%nat, 15, 0xffeff47d); (II, 1%nat, 21, 0x85845dd1);
   (II, 8%nat, 6, 0x6fa87e4f); (II, 15%nat, 10, 0xfe2ce6e0);
   (II, 6%nat, 15, 0xa3014314); (II, 13%nat, 21, 0x4e0811a1);
   (II, 4%nat, 6, 0xf7537e82); (II, 11%nat, 10, 0xbd3af235);
   (II, 2%nat, 15, 0x2ad7d2bb); (II, 9%nat, 21, 0xeb86d391)].

Notation registers := (Z * Z * Z * Z)%type.
Definition run (W : list Z) (l : step) (a b c d : Z) : Z :=
  let '(m, i, s, t) := l in mix m a b c d (nth i W 0) s t.

Fixpoint unrolled (W : list Z) (ls : list step) (r : registers) : registers :=
  let '(a, b, c, d) := r in
  match ls with
  | l0 :: l1 :: l2 :: l3 :: ls =>
      let a := run W l0 a b c d in
      let d := run W l1 d a b c in
      let c := run W l2 c d a b in
      let b := run W l3 b c d a in
      unrolled W ls (a, b, c, d)
  | _ => r
  end.

(** With [LTC_SMALL_CODE]: four loops over the tables, after each pass of which the registers
    change places. *)
Definition Worder : list nat :=
  [0; 1; 2; 3; 4; 5; 6; 7; 8; 9; 10; 11; 12; 13; 14; 15;
   1; 6; 11; 0; 5; 10; 15; 4; 9; 14; 3; 8; 13; 2; 7; 12;
   5; 8; 11; 14; 1; 4; 7; 10; 13; 0; 3; 6; 9; 12; 15; 2;
   0; 7; 14; 5; 12; 3; 10; 1; 8; 15; 6; 13; 4; 11; 2; 9]%nat.
Definition Rorder : list Z :=
  [7; 12; 17; 22; 7; 12; 17; 22; 7; 12; 17; 22; 7; 12; 17; 22;
   5; 9; 14; 20; 5; 9; 14; 20; 5; 9; 14; 20; 5; 9; 14; 20;
   4; 11; 16; 23; 4; 11; 16; 23; 4; 11; 16; 23; 4; 11; 16; 23;
   6; 10; 15; 21; 6; 10; 15; 21; 6; 10; 15; 21; 6; 10; 15; 21].
Definition Korder : list Z :=
  [0xd76aa478; 0xe8c7b756; 0x242070db; 0xc1bdceee; 0xf57c0faf; 0x4787c62a; 0xa8304613; 0xfd469501;
   0x698098d8; 0x8b44f7af; 0xffff5bb1; 0x895cd7be; 0x6b901122; 0xfd987193; 0xa679438e; 0x49b40821;
   0xf61e2562; 0xc040b340; 0x265e5a51; 0xe9b6c7aa; 0xd62f105d; 0x02441453; 0xd8a1e681; 0xe7d3fbc8;
   0x21e1cde6; 0xc33707d6; 0xf4d50d87; 0x455a14ed; 0xa9e3e905; 0xfcefa3f8; 0x676f02d9; 0x8d2a4c8a;
   0xfffa3942; 0x8771f681; 0x6d9d6122; 0xfde5380c; 0xa4beea44; 0x4bdecfa9; 0xf6bb4b60; 0xbebfbc70;
   0x289b7ec6; 0xeaa127fa; 0xd4ef3085; 0x04881d05; 0xd9d4d039; 0xe6db99e5; 0x1fa27cf8; 0xc4ac5665;
   0xf4292244; 0x432aff97; 0xab9423a7; 0xfc93a039; 0x655b59c3; 0x8f0ccc92; 0xffeff47d; 0x85845dd1;
   0x6fa87e4f; 0xfe2ce6e0; 0xa3014314; 0x4e0811a1; 0xf7537e82; 0xbd3af235; 0x2ad7d2bb; 0xeb86d391].

Fixpoint loop (m : macro) (W : list Z) (n i : nat) (r : registers) : registers :=
  match n with
  | O => r
  | S n =>
      let '(a, b, c, d) := r in
      let a := mix m a b c d (nth (nth i Worder 0%nat) W 0) (nth i Rorder 0) (nth i Korder 0) in
      let '(t, d, c, b) := (d, c, b, a) in
      loop m W n (S i) (t, b, c, d)
  end.
Definition loops (W : list Z) (r : registers) : registers :=
  loop II W 16 48 (loop HH W 16 32 (loop GG W 16 16 (loop FF W 16 0 r))).

Definition compress_with (steps : list Z -> registers -> registers) (state : list Z) (buf : bytes) : list Z :=
  let W := map (fun i => load32l (drop (4 * i) buf)) (seq 0 16) in
  let '(a, b, c, d) := steps W (nth 0 state 0, nth 1 state 0, nth 2 state 0, nth 3 state 0) in
  [u32 (nth 0 state 0 + a); u32 (nth 1 state 0 + b); u32 (nth 2 state 0 + c); u32 (nth 3 state 0 + d)].
Definition md5_compress : list Z -> bytes -> list Z := compress_with (fun W => unrolled W lines).
Definition md5_compress_small : list Z -> bytes -> list Z := compress_with loops.

(** ** The streaming interface *)
Definition md5_state : list Z := [0x67452301; 0xefcdab89; 0x98badcfe; 0x10325476].
Definition md5_init (md : hash_state) : hash_state := mk_hash 0 md5_state 0 (hs_buf md).
Definition md5_process : hash_state -> bytes -> Z -> result (hash_state * Z) := hash_process md5_compress.
Definition md5_process_all : hash_state -> list bytes -> result hash_state := hash_process_all md5_compress.

(** [None] is [CRYPT_INVALID_ARG] *)
Definition md5_done (md : hash_state) : option bytes :=
  if 64 <=? hs_curlen md then None else
  let length := u64 (hs_length md + hs_curlen md * 8) in
  let cur := Z.to_nat (hs_curlen md) in
  let buf := <[cur := 0x80]> (hs_buf md) in
  let curlen := S cur in
  let '(state, buf, curlen) :=
    if decide (56 < curlen)%nat then
      let buf := zero_fill 64 buf curlen in (md5_compress (hs_state md) buf, buf, 0%nat)
    else (hs_state md, buf, curlen) in
  let buf := zero_fill 56 buf curlen in
  let buf := take 56 buf ++ store64l length in
  Some (concat (map store32l (md5_compress state buf))).

(** [buffer_compute_md5_hash]: 16 bytes are written over the new buffer of that size. *)
Definition buffer_compute_md5_hash `{Machine} (buffer : bytes) (len : Z) : result byte_buffer :=
  '(md, _) ← md5_process (md5_init local_hash_state) buffer len;
  out ← of_option out_of_bounds (md5_done md);
  Ok (byte_buffer.mk out).

(** ** The reference: RFC 1321 *)
Module rfc.
Definition not32 (x : Z) : Z := 2 ^ 32 - 1 - x.
Definition F (x y z : Z) : Z := Z.lor (Z.land x y) (Z.land (not32 x) z).
Definition G (x y z : Z) : Z := Z.lor (Z.land x z) (Z.land y (not32 z)).
Definition H (x y z : Z) : Z := Z.lxor x (Z.lxor y z).
Definition I (x y z : Z) : Z := Z.lxor y (Z.lor x (not32 z)).

(** A rotation moves the upper [s] bits to the bottom. *)
Definition rotate (x s : Z) : Z := (x mod 2 ^ (32 - s)) * 2 ^ s + x / 2 ^ (32 - s).

(** Step [i] of the four rounds: which word of the block, and the shift.  [Korder] is the table
    of the integer parts of 2^32 times the sine of the step. *)
Definition word (i : nat) : nat :=
  (if i <? 16 then i else if i <? 32 then 1 + 5 * i else if i <? 48 then 5 + 3 * i else 7 * i)%nat mod 16.
Definition shifts : list (list Z) := [[7; 12; 17; 22]; [5; 9; 14; 20]; [4; 11; 16; 23]; [6; 10; 15; 21]].
Definition shift (i : nat) : Z := nth (i mod 4) (nth (i / 16) shifts []) 0.
Definition function (i : nat) : Z -> Z -> Z -> Z := nth (i / 16) [F; G; H; I] F.

Definition step (W : list Z) (i : nat) (r : registers) : registers :=
  let '(a, b, c, d) := r in
  (d, (b + rotate ((a + function i b c d + nth (word i) W 0 + nth i Korder 0) mod 2 ^ 32) (shift i)) mod 2 ^ 32, b, c).
Fixpoint steps (W : list Z) (n i : nat) (r : registers) : registers :=
  match n with O => r | S n => steps W n (S i) (step W i r) end.

Definition compress : list Z -> bytes -> list Z := compress_with (fun W => steps W 64 0).
Definition md5 (m : bytes) : bytes := hash_spec compress md5_state (le_bytes 8) (le_bytes 4) m.
End rfc.

Example md5_abc :
  rfc.md5 [97; 98; 99] =
    [0x90; 0x01; 0x50; 0x98; 0x3c; 0xd2; 0x4f; 0xb0; 0xd6; 0x96; 0x3f; 0x7d; 0x28; 0xe1; 0x7f; 0x72].
Proof. vm_compute. reflexivity. Qed.

(** ** All three are one sequence of turns *)
Fixpoint turns (W : list Z) (ls : list step) (r : registers) : registers :=
  match ls with
  | [] => r
  | l :: ls => let '(a, b, c, d) := r in turns W ls (d, run W l a b c d, b, c)
  end.

Lemma turns_app W ls ls' r : turns W (ls ++ ls') r = turns W ls' (turns W ls r).
Proof. revert r. induction ls as [|l ls IH]; intros [[[a b] c] d]; [done | apply IH]. Qed.

Lemma unrolled_turns W k : forall ls r, length ls = (4 * k)%nat -> unrolled W ls r = turns W ls r.
Proof.
  induction k as [|k IH]; intros ls [[[a b] c] d] Hl.
  - destruct ls; [done | cbn in Hl; lia].
  - destruct ls as [|l0 [|l1 [|l2 [|l3 ls]]]]; try (cbn in Hl; lia).
    cbn [unrolled turns]. apply IH. cbn in Hl. lia.
Qed.

Lemma loop_turns m W n : forall i r,
  loop m W n i r = turns W (map (fun i => (m, nth i Worder 0%nat, nth i Rorder 0, nth i Korder 0)) (seq i n)) r.
Proof. induction n as [|n IH]; intros i [[[a b] c] d]; [done|]. cbn [loop seq map turns]. by rewrite IH. Qed.

Lemma loops_unrolled W r : loops W r = unrolled W lines r.
Proof.
  rewrite (unrolled_turns W 16) by reflexivity. unfold loops. rewrite !loop_turns, <- !turns_app. f_equal.
Qed.

(** ** The functions of the steps *)
Lemma not32_lnot x : is_u32 x -> rfc.not32 x = u32 (Z.lnot x).
Proof. intros Hx. unfold rfc.not32, u32, Z.lnot, in_u in *. zlia. Qed.

Definition function_of (m : macro) : Z -> Z -> Z -> Z := match m with FF => rfc.F | GG => rfc.G | HH => rfc.H | II => rfc.I end.

Lemma mixing_rfc m x y z : is_u32 x -> is_u32 y -> is_u32 z -> mixing m x y z = function_of m x y z.
Proof.
  intros Hx Hy Hz. destruct m; cbn [mixing function_of]; unfold F, G, H, I, rfc.F, rfc.G, rfc.H, rfc.I;
    rewrite ?not32_lnot by done; apply Z.bits_inj'; intros i Hi; autorewrite with bits; rewrite ?Z.lnot_spec by lia;
    destruct (Z.ltb_spec i 32) as [|Hhigh];
    rewrite ?(testbit_high 32 x i), ?(testbit_high 32 y i), ?(testbit_high 32 z i) by done;
    by repeat match goal with |- context [Z.testbit ?v i] => destruct (Z.testbit v i) end.
Qed.

Lemma rol_rotate x s : is_u32 x -> 0 < s < 32 -> rol x s = rfc.rotate x s.
Proof.
  intros Hx Hs. unfold rol, rfc.rotate. rewrite (u32_small x) by done.
  assert (Z.land s 31 = s) as ->. { change 31 with (Z.ones 5). rewrite Z.land_ones by lia. apply Z.mod_small. lia. }
  assert (Hlow : Z.land (x mod 2 ^ (32 - s) * 2 ^ s) (x / 2 ^ (32 - s)) = 0).
  { apply Z.bits_inj'. intros i Hi. rewrite Z.land_spec, Z.bits_0, <- Z.shiftl_mul_pow2, <- Z.shiftr_div_pow2 by lia.
    rewrite testbit_shiftl, testbit_shiftr by lia. destruct (Z.ltb_spec i s); [by rewrite Z.testbit_neg_r by lia|].
    by rewrite (testbit_high 32 x (i + (32 - s))), andb_false_r by (done || lia). }
  rewrite Z.add_nocarry_lor by done. apply Z.bits_inj'. intros i Hi.
  rewrite <- Z.shiftl_mul_pow2, <- Z.shiftr_div_pow2 by lia. autorewrite with bits.
  rewrite testbit_u by lia. cases_ltb; rewrite ?andb_true_r, ?andb_false_r; try done.
  by rewrite (testbit_high 32 x (i + (32 - s))) by (done || lia).
Qed.

(** ** The steps *)
Definition macro_of (i : nat) : macro := nth (i / 16) [FF; GG; HH; II] FF.
Definition line_of (i : nat) : step := (macro_of i, rfc.word i, rfc.shift i, nth i Korder 0).

Definition words_ok (r : registers) : Prop :=
  let '(a, b, c, d) := r in is_u32 a /\ is_u32 b /\ is_u32 c /\ is_u32 d.

Lemma step_turn W i r :
  (i < 64)%nat -> words_ok r -> rfc.step W i r = turns W [line_of i] r /\ words_ok (rfc.step W i r).
Proof.
  destruct r as [[[a b] c] d]. intros Hi (Ha & Hb & Hc & Hd). cbn [turns line_of run rfc.step].
  split; [|split_and!; done || exact (u32_range _)].
  assert (Hs : 0 < rfc.shift i < 32 /\ rfc.function i = function_of (macro_of i)).
  { assert (Hin : In i (seq 0 64)) by (apply in_seq; lia). clear Hi. revert i Hin. apply Forall_forall.
    repeat constructor. }
  destruct Hs as [Hs Hf]. unfold mix. rewrite mixing_rfc, rol_rotate by auto using u32_range.
  rewrite Hf. unfold u32. f_equal. f_equal. f_equal. rewrite (Z.add_comm b). reflexivity.
Qed.

Lemma steps_turns W n : forall i r, (i + n <= 64)%nat -> words_ok r ->
  rfc.steps W n i r = turns W (map line_of (seq i n)) r.
Proof.
  induction n as [|n IH]; intros i r Hi Hr; [done|]. cbn [rfc.steps seq map].
  destruct (step_turn W i r ltac:(lia) Hr) as [E Hr']. rewrite (IH (S i)) by (lia || done). rewrite E.
  by rewrite <- turns_app.
Qed.

Lemma steps_unrolled W r : words_ok r -> rfc.steps W 64 0 r = unrolled W lines r.
Proof. intros Hr. rewrite (unrolled_turns W 16), steps_turns by (done || lia). reflexivity. Qed.

Lemma small_compress state buf : md5_compress_small state buf = md5_compress state buf.
Proof. unfold md5_compress_small, md5_compress, compress_with. by rewrite loops_unrolled. Qed.

Lemma nth_u32 (l : list Z) i : Forall is_u32 l -> is_u32 (nth i l 0).
Proof. intros Hl. revert i. induction Hl as [|x l Hx _ IH]; intros [|i]; cbn; auto with words. Qed.

Lemma compress_rfc state buf :
  Forall is_u32 state -> md5_compress state buf = rfc.compress state buf /\ Forall is_u32 (md5_compress state buf).
Proof.
  intros Hs. unfold md5_compress, rfc.compress, compress_with. rewrite steps_unrolled by (split_and!; by apply nth_u32).
  destruct (unrolled _ _ _) as [[[a b] c] d]. split; [done|]. repeat constructor; apply u32_range.
Qed.

Lemma blocks_rfc n : forall state m,
  Forall is_u32 state -> blocks_fold md5_compress n state m = blocks_fold rfc.compress n state m.
Proof.
  induction n as [|n IH]; intros state m Hs; cbn [blocks_fold]; [done|].
  destruct (compress_rfc state (take 64 m) Hs) as [E Hc]. rewrite IH by done. by rewrite E.
Qed.

Lemma md5_finish md m k rest :
  hashing md5_compress md5_state md m k rest -> md5_done md = Some (rfc.md5 m).
Proof.
  intros Hh. transitivity (hash_done md5_compress store64l store32l md); [done|].
  rewrite (hashing_done _ _ _ _ (length_le_bytes 8) _ _ _ _ Hh).
  unfold rfc.md5, hash_spec. rewrite blocks_rfc; [done|]. repeat constructor; (lia || done).
Qed.

(** C28. The digest is that of RFC 1321.  However a message is cut into the pieces given to
    [md5_process], every piece is accepted and [md5_done] gives the digest the standard defines -
    with its functions, rotations and order of words - of the whole message;
    [buffer_compute_md5_hash] of the first bytes of a buffer is their digest; both forms of the
    compression function, unrolled and as loops, compute the same from every state. *)
Theorem md5_is_rfc_1321 `{Machine} md pieces buffer len :
  length (hs_buf md) = 64%nat -> 0 <= len <= blen buffer ->
  (exists md', md5_process_all (md5_init md) pieces = Ok md' /\ md5_done md' = Some (rfc.md5 (concat pieces))) /\
  buffer_compute_md5_hash buffer len = Ok (byte_buffer.mk (rfc.md5 (take (Z.to_nat len) buffer))) /\
  (forall state buf, md5_compress_small state buf = md5_compress state buf).
Proof.
  intros Hl Hlen. split; [|split; [|exact small_compress]].
  - destruct (process_all_spec md5_compress md5_state pieces _ [] 0 [] (hashing_init _ _ md Hl)) as (md' & k & rest & E & Hh).
    exists md'. split; [exact E | exact (md5_finish _ _ _ _ Hh)].
  - assert (length (hs_buf local_hash_state) = 64%nat) as Hb.
    { pose proof (malloc_length 64 ltac:(lia)). unfold blen in *. cbn. lia. }
    destruct (process_spec md5_compress md5_state _ _ _ _ buffer len (hashing_init _ _ _ Hb) Hlen) as (md' & k & rest & E & Hh).
    unfold buffer_compute_md5_hash, md5_process, md5_init. rewrite E. cbn [mbind result_bind].
    by rewrite (md5_finish _ _ _ _ Hh).
Qed.

Lemma md5_is_rfc_1321_witness :
  let md := mk_hash 7 [] 9 (replicate 64 171) in
  let pieces := [replicate 70 97; []; [98; 99]] in
  (length (hs_buf md) = 64%nat /\ 0 <= 3 <= blen [97; 98; 99; 0]) /\
  (exists md', md5_process_all (md5_init md) pieces = Ok md' /\ md5_done md' = Some (rfc.md5 (concat pieces))) /\
  buffer_compute_md5_hash [97; 98; 99; 0] 3 = Ok (byte_buffer.mk (rfc.md5 [97; 98; 99])).
Proof.
  split; [split; [reflexivity | unfold blen; cbn; lia]|].
  destruct (md5_is_rfc_1321 (mk_hash 7 [] 9 (replicate 64 171)) [replicate 70 97; []; [98; 99]] [97; 98; 99; 0] 3) as (Hp & Hb & _);
    [reflexivity | unfold blen; cbn; lia | split; [exact Hp | exact Hb]].
Defined.
