(* ===== verification/Base64.v ===== *)
(** * Base 64: lib/libtomcrypt/src/misc/base64 and its callers in torque_sockets/buffer_utils.h

    [base64_encode], [base64_decode] and the two pairs of wrappers that work on buffers.  The
    theorem: a text that has the characters of an encoding, with anything else strewn in
    between, is decoded to what was encoded. *)
From Stdlib Require Import Ascii String.
From S2P Require Import Prelude StreamIO HashStream Sha256.
#[local] Open Scope Z_scope.
#[local] Open Scope list_scope.

Definition CRYPT_BUFFER_OVERFLOW : Z := 6.
Definition CRYPT_INVALID_PACKET : Z := 7.

(** ** Encoding *)
Definition codes : bytes :=
  map (fun a => Z.of_N (N_of_ascii a))
    (list_ascii_of_string "ABCDEFGHIJKLMNOPQRSTUVWXYZabcdefghijklmnopqrstuvwxyz0123456789+/").
Definition code_of (x : Z) : Z := nth (Z.to_nat (Z.land x 0x3F)) codes 0.

(** [=] *)
Definition padding : Z := 61.

(** The loop over whole triples, and the padding of a rest of one or two bytes. *)
Fixpoint encode_groups (input : bytes) : bytes :=
  match input with
  | a :: b :: c :: rest =>
      code_of (Z.shiftr a 2) ::
      code_of (Z.shiftl (Z.land a 3) 4 + Z.shiftr b 4) ::
      code_of (Z.shiftl (Z.land b 0xf) 2 + Z.shiftr c 6) ::
      code_of c :: encode_groups rest
  | [] => []
  | [a] =>
      let b := 0 in
      [code_of (Z.shiftr a 2); code_of (Z.shiftl (Z.land a 3) 4 + Z.shiftr b 4); padding; padding]
  | [a; b] =>
      [code_of (Z.shiftr a 2); code_of (Z.shiftl (Z.land a 3) 4 + Z.shiftr b 4);
       code_of (Z.shiftl (Z.land b 0xf) 2); padding]
  end.

(** The result code, the bytes written (with the terminator) and the new [*outlen]. *)
Definition base64_encode (input : bytes) (inlen outlen : Z) : Z * bytes * Z :=
  let len2 := 4 * ((inlen + 2) / 3) in
  if outlen <? len2 + 1 then (CRYPT_BUFFER_OVERFLOW, [], len2 + 1) else
  let p := encode_groups (take (Z.to_nat inlen) input) in
  (CRYPT_OK, p ++ [0], blen p).

(** ** Decoding *)
Definition map_table : list Z :=
  [255; 255; 255; 255; 255; 255; 255; 255; 255; 255; 255; 255; 255; 255; 255; 255;
   255; 255; 255; 255; 255; 255; 255; 255; 255; 255; 255; 255; 255; 255; 255; 255;
   255; 255; 255; 255; 255; 255; 255; 255; 255; 255; 255; 62; 255; 255; 255; 63;
   52; 53; 54; 55; 56; 57; 58; 59; 60; 61; 255; 255; 255; 254; 255; 255;
   255; 0; 1; 2; 3; 4; 5; 6; 7; 8; 9; 10; 11; 12; 13; 14;
   15; 16; 17; 18; 19; 20; 21; 22; 23; 24; 25; 255; 255; 255; 255; 255;
   255; 26; 27; 28; 29; 30; 31; 32; 33; 34; 35; 36; 37; 38; 39; 40;
   41; 42; 43; 44; 45; 46; 47; 48; 49; 50; 51; 255; 255; 255; 255; 255;
   255; 255; 255; 255; 255; 255; 255; 255; 255; 255; 255; 255; 255; 255; 255; 255;
   255; 255; 255; 255; 255; 255; 255; 255; 255; 255; 255; 255; 255; 255; 255; 255;
   255; 255; 255; 255; 255; 255; 255; 255; 255; 255; 255; 255; 255; 255; 255; 255;
   255; 255; 255; 255; 255; 255; 255; 255; 255; 255; 255; 255; 255; 255; 255; 255;
   255; 255; 255; 255; 255; 255; 255; 255; 255; 255; 255; 255; 255; 255; 255; 255;
   255; 255; 255; 255; 255; 255; 255; 255; 255; 255; 255; 255; 255; 255; 255; 255;
   255; 255; 255; 255; 255; 255; 255; 255; 255; 255; 255; 255; 255; 255; 255; 255;
   255; 255; 255; 255; 255; 255; 255; 255; 255; 255; 255; 255; 255; 255; 255; 255].

(** The loop over the text: [t] holds the sextets of the group, [y] their number, [g] the
    number of bytes that the group is worth. *)
Fixpoint base64_loop (input : bytes) (t y g outlen : Z) (out : bytes) : Z * bytes :=
  match input with
  | [] => if negb (y =? 0) then (CRYPT_INVALID_PACKET, out) else (CRYPT_OK, out)
  | x :: rest =>
      let c := nth (Z.to_nat (Z.land x 0xFF)) map_table 255 in
      if c =? 255 then base64_loop rest t y g outlen out else
      let is_padding := c =? 254 in
      let c := if is_padding then 0 else c in
      let g := if is_padding then g - 1 else g in
      if (if is_padding then g <? 0 else negb (g =? 3)) then (CRYPT_INVALID_PACKET, out) else
      let t := Z.lor (u64 (Z.shiftl t 6)) c in
      let y := y + 1 in
      if y =? 4 then
        if outlen <? blen out + g then (CRYPT_BUFFER_OVERFLOW, out) else
        let out := out ++ [Z.land (Z.shiftr t 16) 255] in
        let out := if 1 <? g then out ++ [Z.land (Z.shiftr t 8) 255] else out in
        let out := if 2 <? g then out ++ [Z.land t 255] else out in
        base64_loop rest 0 0 g outlen out
      else base64_loop rest t y g outlen out
  end.

(** The result code, the bytes written and the new [*outlen]. *)
Definition base64_decode (input : bytes) (inlen outlen : Z) : Z * bytes * Z :=
  let '(err, out) := base64_loop (take (Z.to_nat inlen) input) 0 0 3 outlen [] in
  (err, out, if err =? CRYPT_OK then blen out else outlen).

(** ** The wrappers of buffer_utils.h

    Neither looks at the result code; a buffer starts as memory that is not initialised. *)
Section base_64.
Context `{Machine}.
#[local] Notation byte_buffer := byte_buffer.t.

(** The bytes [d] written at the start of the memory of a buffer. *)
Definition fill (b : byte_buffer) (d : bytes) : result byte_buffer :=
  _ ← require (blen d <=? byte_buffer.get_buffer_size b) out_of_bounds;
  Ok (byte_buffer.mk (d ++ drop (length d) (byte_buffer.data b))).

Definition buffer_encode_base_64 (buffer : bytes) (buffer_size : Z) : result byte_buffer :=
  _ ← require (buffer_size <=? blen buffer) out_of_bounds;
  let out_len := u32 ((buffer_size / 3 + 1) * 4 + 4 + 1) in
  let ret := byte_buffer.of_size out_len in
  let '(_, out, out_len) := base64_encode buffer buffer_size out_len in
  ret ← fill ret out;
  let ret := byte_buffer.resize ret (u32 (out_len + 1)) in
  d ← bset (byte_buffer.data ret) out_len 0;
  Ok (byte_buffer.mk d).

Definition buffer_encode_base_64_buffer (buffer : byte_buffer) : result byte_buffer :=
  buffer_encode_base_64 (byte_buffer.data buffer) (byte_buffer.get_buffer_size buffer).

Definition buffer_decode_base_64 (buffer : bytes) (buffer_size : Z) : result byte_buffer :=
  _ ← require (buffer_size <=? blen buffer) out_of_bounds;
  let out_len := buffer_size in
  let ret := byte_buffer.of_size out_len in
  let '(_, out, out_len) := base64_decode buffer buffer_size out_len in
  ret ← fill ret out;
  Ok (byte_buffer.resize ret (u32 out_len)).

Definition buffer_decode_base_64_buffer (buffer : byte_buffer) : result byte_buffer :=
  buffer_decode_base_64 (byte_buffer.data buffer) (byte_buffer.get_buffer_size buffer).
End base_64.

Example base64_foobar :
  base64_encode [102; 111; 111; 98; 97] 5 9 = (CRYPT_OK, [90; 109; 57; 118; 89; 109; 69; 61; 0], 8) /\
  base64_decode [90; 109; 10; 57; 118; 89; 109; 69; 61; 0] 10 10 = (CRYPT_OK, [102; 111; 111; 98; 97], 5).
Proof. vm_compute. split; reflexivity. Qed.

(** ** Characters that count *)
Definition sextet (x : Z) : Z := nth (Z.to_nat (Z.land x 0xFF)) map_table 255.
Definition significant (x : Z) : Prop := sextet x <> 255.

#[export] Instance significant_dec x : Decision (significant x).
Proof. unfold significant. apply _. Defined.

Lemma loop_significant input t y g outlen out :
  base64_loop input t y g outlen out = base64_loop (filter significant input) t y g outlen out.
Proof.
  revert t y g out. induction input as [|x input IH]; intros t y g out; [done|].
  rewrite filter_cons. cbn [base64_loop]. fold (sextet x). case_decide as Hx; unfold significant in Hx.
  - cbn [base64_loop]. fold (sextet x). destruct (Z.eqb_spec (sextet x) 255); [done|].
    repeat case_match; try done; apply IH.
  - destruct (Z.eqb_spec (sextet x) 255); [apply IH | tauto].
Qed.

Lemma land_63 x : 0 <= Z.land x 63 < 64.
Proof. change 63 with (Z.ones 6). rewrite Z.land_ones by lia. apply Z.mod_pos_bound. lia. Qed.

(** The two tables are inverse to each other. *)
Lemma sextet_code_of x : sextet (code_of x) = Z.land x 63.
Proof.
  unfold code_of, sextet. pose proof (land_63 x) as Hr. revert Hr. generalize (Z.land x 63). intros s Hs.
  enum_Z s 64%nat; reflexivity.
Qed.

Lemma significant_code_of x : significant (code_of x).
Proof. unfold significant. rewrite sextet_code_of. pose proof (land_63 x). lia. Qed.

Lemma encode_significant b : filter significant (encode_groups b ++ [0]) = encode_groups b.
Proof.
  rewrite list.filter_app, (filter_none _ [0]), app_nil_r by (repeat constructor; unfold significant; vm_compute; tauto).
  apply filter_all. revert b. fix IH 1. intros [|a [|b [|c rest]]]; cbn [encode_groups];
    repeat (apply List.Forall_cons; [first [apply significant_code_of | unfold significant; vm_compute; done]|]);
    try constructor. apply IH.
Qed.

(** One character of a group, and the last one. *)
Lemma u64_shift_lor t c : 0 <= t < 2 ^ 24 -> 0 <= c < 64 -> Z.lor (u64 (Z.shiftl t 6)) c = 64 * t + c.
Proof.
  intros Ht Hc. rewrite Z.shiftl_mul_pow2 by lia. change (2 ^ 6) with 64.
  rewrite u64_small by (unfold in_u; lia). rewrite <- Z.add_nocarry_lor; [lia|].
  apply Z.bits_inj'. intros i Hi. rewrite Z.land_spec, Z.testbit_0_l.
  change 64 with (2 ^ 6). rewrite <- Z.shiftl_mul_pow2, testbit_shiftl by lia. destruct (Z.ltb_spec i 6).
  - by rewrite Z.testbit_neg_r by lia.
  - rewrite (testbit_high 6 c) by (unfold in_u; lia). apply andb_false_r.
Qed.

Lemma loop_code x rest t y outlen out :
  0 <= t < 2 ^ 24 -> y <> 3 ->
  base64_loop (code_of x :: rest) t y 3 outlen out =
    base64_loop rest (64 * t + Z.land x 63) (y + 1) 3 outlen out.
Proof.
  intros Ht Hy. cbn [base64_loop]. fold (sextet (code_of x)). rewrite sextet_code_of.
  pose proof (land_63 x). destruct (Z.eqb_spec (Z.land x 63) 255); [lia|].
  destruct (Z.eqb_spec (Z.land x 63) 254); [lia|]. cbn [Z.eqb negb Pos.eqb].
  rewrite u64_shift_lor by done. destruct (Z.eqb_spec (y + 1) 4); [lia | done].
Qed.

Lemma loop_group w x y z rest outlen out :
  blen out + 3 <= outlen ->
  base64_loop (code_of w :: code_of x :: code_of y :: code_of z :: rest) 0 0 3 outlen out =
    let t := 64 * (64 * (64 * Z.land w 63 + Z.land x 63) + Z.land y 63) + Z.land z 63 in
    base64_loop rest 0 0 3 outlen
      (out ++ [Z.land (Z.shiftr t 16) 255; Z.land (Z.shiftr t 8) 255; Z.land t 255]).
Proof.
  intros Ho. pose proof (land_63 w). pose proof (land_63 x). pose proof (land_63 y). pose proof (land_63 z).
  rewrite !loop_code by lia. cbn [base64_loop]. fold (sextet (code_of z)). rewrite sextet_code_of.
  destruct (Z.eqb_spec (Z.land z 63) 255); [lia|]. destruct (Z.eqb_spec (Z.land z 63) 254); [lia|].
  cbn [Z.eqb negb Pos.eqb Z.add Pos.add Pos.succ].
  destruct (Z.ltb_spec outlen (blen out + 3)); [lia|]. cbn [Z.ltb Z.compare Pos.compare Pos.compare_cont].
  rewrite u64_shift_lor by lia. by rewrite <- !app_assoc.
Qed.

Lemma loop_padding rest t y g outlen out :
  0 <= t < 2 ^ 24 -> y <> 3 -> 0 < g ->
  base64_loop (padding :: rest) t y g outlen out = base64_loop rest (64 * t) (y + 1) (g - 1) outlen out.
Proof.
  intros Ht Hy Hg. cbn [base64_loop]. change (nth (Z.to_nat (Z.land padding 255)) map_table 255) with 254.
  cbn [Z.eqb Pos.eqb]. destruct (Z.ltb_spec (g - 1) 0); [lia|].
  rewrite u64_shift_lor, Z.add_0_r by lia. destruct (Z.eqb_spec (y + 1) 4); [lia | done].
Qed.

Lemma loop_last_padding rest t g outlen out :
  0 <= t < 2 ^ 18 -> 0 < g -> blen out + (g - 1) <= outlen ->
  base64_loop (padding :: rest) t 3 g outlen out =
    base64_loop rest 0 0 (g - 1) outlen
      ((out ++ [Z.land (Z.shiftr (64 * t) 16) 255]) ++
       (if 1 <? g - 1 then [Z.land (Z.shiftr (64 * t) 8) 255] else []) ++
       (if 2 <? g - 1 then [Z.land (64 * t) 255] else [])).
Proof.
  intros Ht Hg Ho. cbn [base64_loop]. change (nth (Z.to_nat (Z.land padding 255)) map_table 255) with 254.
  cbn [Z.eqb Pos.eqb]. destruct (Z.ltb_spec (g - 1) 0); [lia|].
  rewrite u64_shift_lor, Z.add_0_r by lia. cbn [Z.add Z.eqb Pos.eqb Pos.add Pos.succ].
  destruct (Z.ltb_spec outlen (blen out + (g - 1))); [lia|].
  f_equal. destruct (1 <? g - 1), (2 <? g - 1); by rewrite <- ?app_assoc, ?app_nil_r.
Qed.

(** ** Sextets back to bytes *)
Lemma land_255 x : Z.land x 255 = x mod 256.
Proof. change 255 with (Z.ones 8). by rewrite Z.land_ones. Qed.

Lemma land_low x n : 0 <= n -> Z.land x (Z.ones n) = x mod 2 ^ n.
Proof. intros. by rewrite Z.land_ones. Qed.

Definition sextet1 (a : Z) : Z := Z.land (Z.shiftr a 2) 63.
Definition sextet2 (a b : Z) : Z := Z.land (Z.shiftl (Z.land a 3) 4 + Z.shiftr b 4) 63.
Definition sextet3 (b c : Z) : Z := Z.land (Z.shiftl (Z.land b 0xf) 2 + Z.shiftr c 6) 63.

Lemma sextets_arith a b c :
  is_u8 a -> is_u8 b -> is_u8 c ->
  sextet1 a = a / 4 /\ sextet2 a b = a mod 4 * 16 + b / 16 /\ sextet3 b c = b mod 16 * 4 + c / 64 /\
  Z.land c 63 = c mod 64.
Proof.
  intros Ha Hb Hc. unfold sextet1, sextet2, sextet3, in_u in *.
  change 63 with (Z.ones 6). change 3 with (Z.ones 2). change 0xf with (Z.ones 4).
  rewrite !land_low, !Z.shiftr_div_pow2, !Z.shiftl_mul_pow2 by lia.
  change (2 ^ 2) with 4. change (2 ^ 4) with 16. change (2 ^ 6) with 64.
  split_and!; zlia.
Qed.

Lemma group_value a b c :
  is_u8 a -> is_u8 b -> is_u8 c ->
  let t := 64 * (64 * (64 * sextet1 a + sextet2 a b) + sextet3 b c) + Z.land c 63 in
  t = 65536 * a + 256 * b + c.
Proof. intros Ha Hb Hc. destruct (sextets_arith a b c Ha Hb Hc) as (-> & -> & -> & ->). unfold in_u in *. zlia. Qed.

Lemma value_bytes a b c :
  is_u8 a -> is_u8 b -> is_u8 c ->
  let t := 65536 * a + 256 * b + c in
  Z.land (Z.shiftr t 16) 255 = a /\ Z.land (Z.shiftr t 8) 255 = b /\ Z.land t 255 = c.
Proof.
  intros Ha Hb Hc. unfold in_u in *. cbv zeta. rewrite !land_255, !Z.shiftr_div_pow2 by lia.
  change (2 ^ 16) with 65536. change (2 ^ 8) with 256. split_and!; zlia.
Qed.

Lemma loop_one a outlen out :
  is_u8 a -> blen out + 1 <= outlen -> base64_loop (encode_groups [a]) 0 0 3 outlen out = (CRYPT_OK, out ++ [a]).
Proof.
  intros Ha Ho. cbn [encode_groups].
  pose proof (group_value a 0 0 Ha ltac:(done) ltac:(done)) as Hg.
  pose proof (value_bytes a 0 0 Ha ltac:(done) ltac:(done)) as (Hv & _ & _). cbv zeta in Hg, Hv.
  change (sextet3 0 0) with 0 in Hg. change (Z.land 0 63) with 0 in Hg. rewrite !Z.add_0_r in Hg.
  pose proof (land_63 (Z.shiftr a 2)). pose proof (land_63 (Z.shiftl (Z.land a 3) 4 + Z.shiftr 0 4)).
  fold (sextet1 a) (sextet2 a 0) in *.
  rewrite !loop_code, loop_padding by (fold (sextet1 a) (sextet2 a 0); lia). fold (sextet1 a) (sextet2 a 0).
  rewrite loop_last_padding by lia. cbn [Z.sub Z.ltb Z.compare Pos.compare Pos.compare_cont app].
  replace (64 * (64 * (64 * (64 * 0 + sextet1 a) + sextet2 a 0))) with (65536 * a + 256 * 0 + 0) by lia.
  rewrite Hv. cbn. by rewrite app_nil_r.
Qed.

Lemma loop_two a b outlen out :
  is_u8 a -> is_u8 b -> blen out + 2 <= outlen ->
  base64_loop (encode_groups [a; b]) 0 0 3 outlen out = (CRYPT_OK, out ++ [a; b]).
Proof.
  intros Ha Hb Ho. cbn [encode_groups].
  pose proof (group_value a b 0 Ha Hb ltac:(done)) as Hg.
  pose proof (value_bytes a b 0 Ha Hb ltac:(done)) as (Hv & Hw & _). cbv zeta in Hg, Hv, Hw.
  assert (sextet3 b 0 = Z.land (Z.shiftl (Z.land b 0xf) 2) 63) as H3 by (unfold sextet3; by rewrite Z.shiftr_0_l, Z.add_0_r).
  change (Z.land 0 63) with 0 in Hg. rewrite H3, !Z.add_0_r in Hg.
  pose proof (land_63 (Z.shiftr a 2)). pose proof (land_63 (Z.shiftl (Z.land a 3) 4 + Z.shiftr b 4)).
  pose proof (land_63 (Z.shiftl (Z.land b 0xf) 2)). fold (sextet1 a) (sextet2 a b) in *.
  rewrite !loop_code by (fold (sextet1 a) (sextet2 a b); lia). fold (sextet1 a) (sextet2 a b).
  rewrite loop_last_padding by lia. cbn [Z.sub Z.ltb Z.compare Pos.compare Pos.compare_cont app].
  set (s3 := Z.land (Z.shiftl _ 2) 63) in *.
  replace (64 * (64 * (64 * (64 * 0 + sextet1 a) + sextet2 a b) + s3)) with (65536 * a + 256 * b + 0) by lia.
  rewrite Hv, Hw. cbn. by rewrite <- app_assoc.
Qed.

Lemma loop_encoded b outlen out :
  is_bytes b -> blen out + blen b <= outlen ->
  base64_loop (encode_groups b) 0 0 3 outlen out = (CRYPT_OK, out ++ b).
Proof.
  revert b out. fix IH 1. intros [|a [|b [|c rest]]] out Hb Ho; unfold blen in Ho; cbn [length] in Ho.
  - cbn. by rewrite app_nil_r.
  - apply is_bytes_cons in Hb as [Ha _]. apply loop_one; [done | unfold blen; lia].
  - apply is_bytes_cons in Hb as [Ha Hb]. apply is_bytes_cons in Hb as [Hb _].
    apply loop_two; [done | done | unfold blen; lia].
  - apply is_bytes_cons in Hb as [Ha Hb]. apply is_bytes_cons in Hb as [Hb Hc]. apply is_bytes_cons in Hc as [Hc Hr].
    cbn [encode_groups]. rewrite loop_group by (unfold blen; lia). cbv zeta.
    fold (sextet1 a) (sextet2 a b) (sextet3 b c). rewrite (group_value a b c) by done.
    destruct (value_bytes a b c Ha Hb Hc) as (-> & -> & ->).
    rewrite IH by (done || (rewrite blen_app; unfold blen; cbn [length]; lia)). by rewrite <- app_assoc.
Qed.

Lemma length_encode_groups b : blen (encode_groups b) = 4 * ((blen b + 2) / 3).
Proof.
  revert b. fix IH 1. intros [|a [|b [|c rest]]]; [done..|]. cbn [encode_groups].
  specialize (IH rest). unfold blen in *. cbn [length]. rewrite !Nat2Z.inj_succ. zlia.
Qed.

Lemma base64_encode_spec b outlen :
  blen (encode_groups b) + 1 <= outlen ->
  base64_encode b (blen b) outlen = (CRYPT_OK, encode_groups b ++ [0], blen (encode_groups b)).
Proof.
  intros Ho. unfold base64_encode. rewrite <- length_encode_groups, take_all_bytes.
  by destruct (Z.ltb_spec outlen (blen (encode_groups b) + 1)); [lia|].
Qed.

(** Only the characters that count matter to the decoder. *)
Lemma base64_decode_spec text b outlen :
  is_bytes b -> filter significant text = encode_groups b -> blen b <= outlen ->
  base64_decode text (blen text) outlen = (CRYPT_OK, b, blen b).
Proof.
  intros Hb Ht Ho. unfold base64_decode. rewrite take_all_bytes, loop_significant, Ht.
  by rewrite loop_encoded by (done || (cbn; lia)).
Qed.

(** A text is at least as long as what it encodes. *)
Lemma encoded_length text b : filter significant text = encode_groups b -> blen b <= blen text.
Proof.
  intros Ht. pose proof (length_filter significant text) as Hl. rewrite Ht in Hl.
  pose proof (length_encode_groups b). unfold blen in *. zlia.
Qed.

Section theorems.
Context `{Machine}.

(** Memory of a buffer that is filled and then cut to what was written. *)
Lemma fill_resize_then {A} n d (k : byte_buffer.t -> result A) r :
  blen d <= n -> k (byte_buffer.mk d) = r ->
  (b ← fill (byte_buffer.of_size n) d; k (byte_buffer.resize b (blen d))) = r.
Proof.
  intros Hn <-. pose proof (blen_nonneg d). unfold fill, byte_buffer.get_buffer_size, byte_buffer.of_size.
  cbn [byte_buffer.data]. rewrite malloc_length by lia. destruct (Z.leb_spec (blen d) n); [|lia].
  cbn [require mbind result_bind]. unfold byte_buffer.resize, byte_buffer.get_buffer_size. cbn [byte_buffer.data].
  rewrite blen_app. pose proof (blen_nonneg (drop (length d) (malloc n))).
  destruct (Z.leb_spec (blen d) (blen d + blen (drop (length d) (malloc n)))); [|lia].
  do 2 f_equal. rewrite take_app_length'; [done | unfold blen; lia].
Qed.

(** C30. base 64 round trip.  The encoding of a buffer (a terminated text of four characters for
    every three bytes) succeeds, and any text that contains the same characters of the
    alphabet in the same order, whatever other characters are strewn among them, decodes to
    the buffer. *)
Theorem base_64_roundtrip (b : bytes) :
  is_bytes b -> blen b < 2 ^ 31 ->
  exists e, buffer_encode_base_64 b (blen b) = Ok e /\
    byte_buffer.get_buffer_size e = 4 * ((blen b + 2) / 3) + 1 /\
    forall text, blen text < 2 ^ 32 ->
      filter significant text = filter significant (byte_buffer.data e) ->
      buffer_decode_base_64 text (blen text) = Ok (byte_buffer.mk b).
Proof.
  intros Hb Hlen. pose proof (blen_nonneg b) as H0. pose proof (length_encode_groups b) as Hg.
  assert (Ht : blen (encode_groups b ++ [0]) = blen (encode_groups b) + 1) by (by rewrite blen_app).
  exists (byte_buffer.mk (encode_groups b ++ [0])). split_and!.
  - unfold buffer_encode_base_64. rewrite Z.leb_refl. cbn [require mbind result_bind].
    rewrite !u32_small, base64_encode_spec by (unfold in_u; zlia). rewrite u32_small by (unfold in_u; zlia).
    rewrite <- Ht. apply (fill_resize_then _ _
      (fun ret => d ← bset (byte_buffer.data ret) (blen (encode_groups b)) 0; Ok (byte_buffer.mk d))); [zlia|].
    cbn [byte_buffer.data]. pose proof (blen_nonneg (encode_groups b)).
    rewrite bset_lt by lia. cbn [mbind result_bind]. do 2 f_equal. unfold blen.
    rewrite Nat2Z.id, <- (Nat.add_0_r (length _)) at 1. exact (insert_app_r _ [0] 0 0).
  - unfold byte_buffer.get_buffer_size. cbn [byte_buffer.data]. lia.
  - intros text Htext. cbn [byte_buffer.data]. rewrite encode_significant. intros Hs.
    pose proof (encoded_length text b Hs). unfold buffer_decode_base_64. rewrite Z.leb_refl. cbn [require mbind result_bind].
    rewrite (base64_decode_spec _ b), u32_small by (done || (unfold in_u; lia)). by apply (fill_resize_then _ _ Ok).
Qed.

End theorems.

Lemma base_64_roundtrip_witness :
  let b := [102; 111; 111; 98; 97] in
  (is_bytes b /\ blen b < 2 ^ 31) /\ exists e, buffer_encode_base_64 b (blen b) = Ok e /\
    byte_buffer.get_buffer_size e = 4 * ((blen b + 2) / 3) + 1 /\
    forall text, blen text < 2 ^ 32 ->
      filter significant text = filter significant (byte_buffer.data e) ->
      buffer_decode_base_64 text (blen text) = Ok (byte_buffer.mk b).
Proof.
  assert (Hb : is_bytes [102; 111; 111; 98; 97]) by (repeat constructor; lia).
  split; [split; [done | reflexivity] | apply base_64_roundtrip; [done | reflexivity]].
Defined.
