(* ===== verification/Yarrow.v ===== *)
(** * Random numbers: lib/libtomcrypt/src/prngs/yarrow.c and the counter mode under it

    [yarrow_start], [yarrow_add_entropy], [yarrow_ready] and [yarrow_read], with
    modes/ctr/ctr_start.c and ctr_encrypt.c, on AES and SHA-256.  They are an instance of the
    interface [Prng] on which random_generator.h is built (file Net).  The theorem: the bytes
    that a generator gives out, however they are asked for, are AES-256 in counter mode under
    the digest of its entropy. *)
From S2P Require Import Prelude BitStream StreamIO Net BufferUtils HashStream Sha256 AesSpec AesTables Aes.

(** ** Counter mode *)

Definition CTR_COUNTER_LITTLE_ENDIAN : Z := 0x0000.
Definition CTR_COUNTER_BIG_ENDIAN : Z := 0x1000.
Definition LTC_CTR_RFC3686 : Z := 0x2000.

(** The cipher is [rijndael_enc_desc] ([LTC_YARROW_AES] is 0), with blocks of 16 bytes, keys of
    16 to 32 bytes and no accelerated counter mode. *)
Definition block_length : Z := 16.
Definition MAXBLOCKSIZE : Z := 128.

Record symmetric_CTR : Type := mk_ctr {
  blocklen : Z;
  padlen : Z;
  ctr_mode : Z;
  ctrlen : Z;
  ctr_ctr : bytes;
  ctr_pad : bytes;
  ctr_key : rijndael_key
}.

(** [ctr->ctr[x] = (ctr->ctr[x] + 1) & 255], upwards from [x] until a byte is not zero. *)
Fixpoint increment_up (n : nat) (l : bytes) : bytes :=
  match n, l with
  | S n, b :: l =>
      let b := Z.land (b + 1) 255 in
      if negb (b =? 0) then b :: l else b :: increment_up n l
  | _, _ => l
  end.

(** Little-endian: the bytes below [ctrlen].  Big-endian: from the last byte down to [ctrlen]. *)
Definition increment (c : symmetric_CTR) : bytes :=
  if ctr_mode c =? CTR_COUNTER_LITTLE_ENDIAN then increment_up (Z.to_nat (ctrlen c)) (ctr_ctr c)
  else
    let n := Z.to_nat (blocklen c) in
    rev (increment_up (Z.to_nat (blocklen c - ctrlen c)) (rev (take n (ctr_ctr c)))) ++ drop n (ctr_ctr c).

Definition with_ctr (x : bytes) (c : symmetric_CTR) : symmetric_CTR :=
  mk_ctr (blocklen c) (padlen c) (ctr_mode c) (ctrlen c) x (ctr_pad c) (ctr_key c).
Definition with_pad (x : bytes) (c : symmetric_CTR) : symmetric_CTR :=
  mk_ctr (blocklen c) (padlen c) (ctr_mode c) (ctrlen c) (ctr_ctr c) x (ctr_key c).
Definition with_padlen (x : Z) (c : symmetric_CTR) : symmetric_CTR :=
  mk_ctr (blocklen c) x (ctr_mode c) (ctrlen c) (ctr_ctr c) (ctr_pad c) (ctr_key c).

(** [ecb_encrypt(ctr->ctr, ctr->pad, &ctr->key)]. *)
Definition encrypt_counter (c : symmetric_CTR) : symmetric_CTR :=
  with_pad (rijndael_ecb_encrypt (take 16 (ctr_ctr c)) (ctr_key c) ++ drop 16 (ctr_pad c)) c.

Definition ctr_start (IV key : bytes) (keylen num_rounds mode : Z) (c : symmetric_CTR) : Z * symmetric_CTR :=
  let len := if negb (Z.land mode 255 =? 0) then Z.land mode 255 else block_length in
  let set_ctrlen l := mk_ctr (blocklen c) (padlen c) (ctr_mode c) l (ctr_ctr c) (ctr_pad c) (ctr_key c) in
  if block_length <? len then (CRYPT_INVALID_ARG, set_ctrlen len) else
  let len := if Z.land mode 0x1000 =? CTR_COUNTER_BIG_ENDIAN then block_length - len else len in
  match rijndael_setup key keylen num_rounds with
  | (_, Some k) =>
      let c := mk_ctr block_length 0 (Z.land mode 0x1000) len (take 16 IV ++ drop 16 (ctr_ctr c)) (ctr_pad c) k in
      let c := if negb (Z.land mode LTC_CTR_RFC3686 =? 0) then with_ctr (increment c) c else c in
      (CRYPT_OK, encrypt_counter c)
  | (err, None) => (err, set_ctrlen len)
  end.

(** [sizeof(LTC_FAST_TYPE)] on amd64. *)
Definition LTC_FAST_SIZE : Z := 8.

(** The loop [while(len)]: a pass consumes a byte, or a block when the pad is fresh. *)
Fixpoint ctr_loop (fuel : nat) (pt : bytes) (c : symmetric_CTR) : result (bytes * symmetric_CTR) :=
  match pt with
  | [] => Ok ([], c)
  | p :: rest =>
      match fuel with
      | O => Fault out_of_fuel
      | S fuel =>
          let c := if padlen c =? blocklen c
                   then with_padlen 0 (encrypt_counter (with_ctr (increment c) c)) else c in
          if (padlen c =? 0) && (blocklen c <=? blen pt) then
            let n := Z.to_nat (blocklen c) in
            '(ct, c') ← ctr_loop fuel (drop n pt) (with_padlen (blocklen c) c);
            Ok (xor_bytes (take n pt) (take n (ctr_pad c)) ++ ct, c')
          else
            k ← bget (ctr_pad c) (padlen c);
            '(ct, c') ← ctr_loop fuel rest (with_padlen (padlen c + 1) c);
            Ok (Z.lxor p k :: ct, c')
      end
  end.

(** The result code, the text (as much of [ct] as is written) and the state. *)
Definition ctr_encrypt (pt : bytes) (c : symmetric_CTR) : result (Z * bytes * symmetric_CTR) :=
  if (blocklen c <? 1) || (MAXBLOCKSIZE <? blocklen c) || (padlen c <? 0) || (MAXBLOCKSIZE <? padlen c)
  then Ok (CRYPT_INVALID_ARG, [], c) else
  if negb (blocklen c mod LTC_FAST_SIZE =? 0) then Ok (CRYPT_INVALID_ARG, [], c) else
  '(ct, c) ← ctr_loop (length pt) pt c; Ok (CRYPT_OK, ct, c).

(** ** Yarrow *)
Record yarrow_prng : Type := mk_yarrow {
  pool : bytes;
  yarrow_ctr : symmetric_CTR
}.

(** The descriptors of the cipher and of the hash are registered; the pool is zeroed and the
    counter left as it is. *)
Definition yarrow_start (p : yarrow_prng) : yarrow_prng :=
  mk_yarrow (replicate (Z.to_nat MAXBLOCKSIZE) 0) (yarrow_ctr p).

(** [hashsize] of [sha256_desc]. *)
Definition hashsize : Z := 32.

Definition yarrow_add_entropy (md : hash_state) (input : bytes) (inlen : Z) (p : yarrow_prng)
    : result (Z * yarrow_prng) :=
  '(md, err) ← sha256_process (sha256_init md) (pool p) hashsize;
  if negb (err =? CRYPT_OK) then Ok (err, p) else
  '(md, err) ← sha256_process md input inlen;
  if negb (err =? CRYPT_OK) then Ok (err, p) else
  match sha256_done md with
  | None => Ok (CRYPT_INVALID_ARG, p)
  | Some digest => Ok (CRYPT_OK, mk_yarrow (digest ++ drop (length digest) (pool p)) (yarrow_ctr p))
  end.

Definition yarrow_ready (p : yarrow_prng) : Z * yarrow_prng :=
  let '(err, ks) := rijndael_keysize hashsize in
  if negb (err =? CRYPT_OK) then (err, p) else
  let '(err, c) := ctr_start (pool p) (pool p) ks 0 CTR_COUNTER_LITTLE_ENDIAN (yarrow_ctr p) in
  (err, mk_yarrow (pool p) c).

(** The number of bytes read, the buffer (zeroed first) and the state. *)
Definition yarrow_read (outlen : Z) (p : yarrow_prng) : result (Z * bytes * yarrow_prng) :=
  let out := replicate (Z.to_nat outlen) 0 in
  '(err, ct, c) ← ctr_encrypt out (yarrow_ctr p);
  if negb (err =? CRYPT_OK) then Ok (0, out, p) else Ok (outlen, ct, mk_yarrow (pool p) c).

(** ** The key stream *)

(** Block [j] of the stream is the encryption of the vector plus [j]. *)
Definition counter_block (iv : bytes) (j : nat) : bytes := le_bytes 16 (le_val iv + Z.of_nat j).
Definition stream_byte (k iv : bytes) (n : nat) : Z :=
  nth (n mod 16) (aes_cipher k (counter_block iv (n / 16))) 0.
Definition key_stream (k iv : bytes) (from n : nat) : bytes := map (stream_byte k iv) (seq from n).

(** The stream of a pool: its first 32 bytes are the key, the first 16 also the vector. *)
Definition pool_stream (p : bytes) (from n : nat) : bytes := key_stream (take 32 p) (take 16 p) from n.

(** ** The counter counts *)
Lemma le_val_cons b l : is_u8 b -> le_val (b :: l) = b + 256 * le_val l.
Proof.
  intros Hb. cbn [le_val]. rewrite u8_small, <- Z.add_nocarry_lor by
    (done || (apply Z.bits_inj'; intros i Hi; autorewrite with bits; destruct (Z.ltb_spec i 8);
      [rewrite (Z.testbit_neg_r _ (i - 8)) by lia; apply andb_false_r | by rewrite (testbit_high 8)])).
  rewrite Z.shiftl_mul_pow2 by lia. lia.
Qed.

Lemma le_bytes_S n x : le_bytes (S n) x = x mod 256 :: le_bytes n (x / 256).
Proof. cbn [le_bytes]. by rewrite Z.shiftr_div_pow2. Qed.

Lemma increment_up_spec l :
  is_bytes l -> increment_up (length l) l = le_bytes (length l) (le_val l + 1).
Proof.
  induction l as [|b l IH]; intros Hl; [done|].
  pose proof (is_bytes_cons _ _ Hl) as [Hb Hl'].
  cbn [increment_up length]. rewrite le_bytes_S, le_val_cons, (Z.land_ones _ 8) by done.
  change (2 ^ 8) with 256. unfold in_u in Hb. destruct (Z.eq_dec b 255) as [->|Hne].
  - rewrite IH by done. change ((255 + 1) mod 256) with 0. cbn [negb Z.eqb].
    rewrite <- (Z.mod_unique (255 + 256 * le_val l + 1) 256 (le_val l + 1) 0) by lia.
    by rewrite <- (Z.div_unique (255 + 256 * le_val l + 1) 256 (le_val l + 1) 0) by lia.
  - rewrite (Z.mod_small (b + 1)) by lia. destruct (Z.eqb_spec (b + 1) 0); [lia|]. cbn [negb].
    rewrite <- (Z.mod_unique (b + 256 * le_val l + 1) 256 (le_val l) (b + 1)) by lia.
    rewrite <- (Z.div_unique (b + 256 * le_val l + 1) 256 (le_val l) (b + 1)) by lia.
    by rewrite le_bytes_le_val.
Qed.

Lemma counter_block_block iv j : block 16 (counter_block iv j).
Proof. split; [apply (is_bytes_le_bytes 16) | done]. Qed.

Lemma counter_block_0 iv : block 16 iv -> counter_block iv 0 = iv.
Proof.
  intros [Hb Hl]. unfold counter_block. rewrite Z.add_0_r, <- Hl. by apply le_bytes_le_val.
Qed.

Lemma counter_block_S iv j : increment_up 16 (counter_block iv j) = counter_block iv (S j).
Proof.
  pose proof (counter_block_block iv j) as [Hb Hl]. rewrite <- Hl at 1.
  rewrite increment_up_spec, Hl by done. unfold counter_block. rewrite le_val_le_bytes.
  rewrite <- (le_bytes_u 16 _ 128), Zplus_mod_idemp_l, le_bytes_u by lia. f_equal. lia.
Qed.

(** ** The loop follows the key stream

    [at_stream k iv pos c]: [pos] bytes of the stream have been used.  The pad is renewed only
    when the next byte is needed. *)
Record at_stream (k iv : bytes) (pos : nat) (c : symmetric_CTR) : Prop := {
  as_shape : blocklen c = 16 /\ ctr_mode c = CTR_COUNTER_LITTLE_ENDIAN /\ ctrlen c = 16;
  as_key : forall b, block 16 b -> rijndael_ecb_encrypt b (ctr_key c) = aes_cipher k b;
  as_lengths : (16 <= length (ctr_ctr c))%nat /\ (16 <= length (ctr_pad c))%nat;
  as_pad : exists j, take 16 (ctr_ctr c) = counter_block iv j /\
    take 16 (ctr_pad c) = aes_cipher k (counter_block iv j) /\
    0 <= padlen c <= 16 /\ Z.of_nat pos = 16 * Z.of_nat j + padlen c
}.

Lemma take_16_increment l :
  (16 <= length l)%nat -> take 16 (increment_up 16 l) = increment_up 16 (take 16 l).
Proof.
  generalize 16%nat. intros n. revert l. induction n as [|n IH]; intros [|b l] Hl; cbn in *; try done.
  case_match; cbn [take]; [done|]. f_equal. apply IH. lia.
Qed.

Lemma length_increment_up n l : length (increment_up n l) = length l.
Proof. revert l. induction n as [|n IH]; intros [|b l]; cbn; try done. case_match; cbn; by rewrite ?IH. Qed.

(** A used-up pad is renewed. *)
Lemma refill_spec k iv pos c :
  at_stream k iv pos c ->
  let c' := if padlen c =? blocklen c then with_padlen 0 (encrypt_counter (with_ctr (increment c) c)) else c in
  at_stream k iv pos c' /\ padlen c' < 16.
Proof.
  intros Hc. pose proof Hc as [(Hbl & Hm & Hcl) Hkey [Hlc Hlp] (j & Hj & Hp & Hr & Hpos)].
  cbv zeta. rewrite Hbl. destruct (Z.eqb_spec (padlen c) 16) as [H16|]; [|split; [done | lia]].
  unfold increment. rewrite Hm, Hcl. change (Z.to_nat 16) with 16%nat. cbn [Z.eqb CTR_COUNTER_LITTLE_ENDIAN].
  assert (take 16 (increment_up 16 (ctr_ctr c)) = counter_block iv (S j)) as Hinc.
  { by rewrite take_16_increment, Hj, counter_block_S. }
  unfold encrypt_counter. split; [|done].
  split; cbn [with_padlen with_pad with_ctr blocklen padlen ctr_mode ctrlen ctr_ctr ctr_pad ctr_key]; [done | done | |].
  - rewrite Hinc, length_app, length_increment_up, (proj2 (ecb_encrypt_block _ _)). lia.
  - exists (S j). rewrite Hinc. split_and!; [done | | lia | lia | lia].
    rewrite <- Hkey by apply counter_block_block.
    by rewrite take_app_le, take_ge by (rewrite (proj2 (ecb_encrypt_block _ _)); lia).
Qed.

(** What a pass consumes leaves the rest of the stream. *)
Lemma advance k iv pos c n :
  at_stream k iv pos c -> 0 <= n -> padlen c + n <= 16 ->
  at_stream k iv (pos + Z.to_nat n) (with_padlen (padlen c + n) c).
Proof.
  intros [? ? ? (j & ? & ? & ? & ?)] Hn Hle.
  split; cbn [with_padlen blocklen padlen ctr_mode ctrlen ctr_ctr ctr_pad ctr_key]; [assumption..|].
  exists j. split_and!; [assumption | assumption | lia | lia | lia].
Qed.

Lemma stream_byte_at k iv pos c :
  at_stream k iv pos c -> padlen c < 16 ->
  forall i, (i < 16 - Z.to_nat (padlen c))%nat ->
    nth (Z.to_nat (padlen c) + i) (ctr_pad c) 0 = stream_byte k iv (pos + i).
Proof.
  intros [_ _ [_ Hlp] (j & _ & Hp & Hr & Hpos)] Hlt i Hi. unfold stream_byte.
  replace ((pos + i) / 16)%nat with j by (apply Nat.div_unique with (Z.to_nat (padlen c) + i)%nat; lia).
  replace ((pos + i) mod 16)%nat with (Z.to_nat (padlen c) + i)%nat
    by (apply Nat.mod_unique with j; lia).
  rewrite <- Hp, nth_firstn. destruct (Nat.ltb_spec (Z.to_nat (padlen c) + i) 16); [done | lia].
Qed.

Lemma length_key_stream k iv pos n : length (key_stream k iv pos n) = n.
Proof. unfold key_stream. by rewrite length_map, length_seq. Qed.

Lemma key_stream_app k iv pos a b :
  key_stream k iv pos (a + b) = key_stream k iv pos a ++ key_stream k iv (pos + a) b.
Proof. unfold key_stream. by rewrite seq_app, map_app. Qed.

Lemma fresh_pad k iv pos c :
  at_stream k iv pos c -> padlen c = 0 -> take 16 (ctr_pad c) = key_stream k iv pos 16.
Proof.
  intros Hc H0. pose proof (as_lengths _ _ _ _ Hc) as [_ Hlp].
  apply nth_ext with 0 0; rewrite length_take, ?length_key_stream; [lia|]. intros i Hi.
  rewrite nth_firstn. destruct (Nat.ltb_spec i 16); [|lia].
  pose proof (stream_byte_at k iv pos c Hc ltac:(lia) i) as Hs. rewrite H0 in Hs. change (Z.to_nat 0 + i)%nat with i in Hs.
  rewrite Hs by lia.
  unfold key_stream. rewrite (nth_indep _ _ (stream_byte k iv 0%nat)) by (rewrite length_map, length_seq; lia).
  by rewrite map_nth, seq_nth by lia.
Qed.

Lemma ctr_loop_spec k iv fuel pt pos c :
  at_stream k iv pos c -> (length pt <= fuel)%nat ->
  exists c', ctr_loop fuel pt c = Ok (xor_bytes pt (key_stream k iv pos (length pt)), c') /\
    at_stream k iv (pos + length pt) c'.
Proof.
  revert pt pos c. induction fuel as [|fuel IH]; intros [|p pt] pos c Hc Hl; cbn [length] in Hl; try lia.
  1,2: exists c; rewrite Nat.add_0_r; done.
  cbn [ctr_loop]. destruct (refill_spec k iv pos c Hc) as [Hc' Hlt]. cbv zeta in Hc', Hlt.
  set (c' := if padlen c =? blocklen c then _ else c) in *. clearbody c'.
  pose proof Hc' as [(Hbl & _) _ [_ Hlp] (j & _ & _ & Hr & _)]. rewrite Hbl.
  destruct ((padlen c' =? 0) && (16 <=? blen (p :: pt))) eqn:Hfast.
  - apply andb_true_iff in Hfast as [H0%Z.eqb_eq H16%Z.leb_le]. unfold blen in H16.
    change (Z.to_nat 16) with 16%nat.
    pose proof (advance k iv pos c' 16 Hc' ltac:(lia) ltac:(lia)) as Hadv. rewrite H0 in Hadv.
    change (0 + 16) with 16 in Hadv.
    destruct (IH (drop 16 (p :: pt)) _ _ Hadv) as (c'' & -> & Hc''); [rewrite length_drop; cbn [length]; lia|].
    exists c''. cbn [mbind result_bind]. rewrite length_drop in *. split.
    + do 2 f_equal. rewrite (fresh_pad k iv pos) by done.
      replace (key_stream k iv pos (length (p :: pt)))
        with (key_stream k iv pos (16 + (length (p :: pt) - 16))) by (f_equal; lia).
      rewrite (key_stream_app k iv pos 16), <- xor_bytes_app by (rewrite length_take, length_key_stream; lia).
      by rewrite take_drop.
    + replace (pos + length (p :: pt))%nat with (pos + Z.to_nat 16 + (length (p :: pt) - 16))%nat by lia. done.
  - clear Hfast. rewrite bget_nth by (unfold blen; lia). cbn [mbind result_bind].
    pose proof (advance k iv pos c' 1 Hc' ltac:(lia) ltac:(lia)) as Hadv. change (Z.to_nat 1) with 1%nat in Hadv.
    destruct (IH pt _ _ Hadv) as (c'' & -> & Hc''); [lia|]. exists c''. cbn [mbind result_bind]. split.
    + do 2 f_equal. change (length (p :: pt)) with (1 + length pt)%nat. rewrite key_stream_app.
      change (key_stream k iv pos 1) with [stream_byte k iv pos]. cbn [xor_bytes app].
      pose proof (stream_byte_at k iv pos c' Hc' Hlt 0) as Hs. rewrite !Nat.add_0_r in Hs. by rewrite Hs by lia.
    + by replace (pos + length (p :: pt))%nat with (pos + 1 + length pt)%nat by (cbn [length]; lia).
Qed.

Lemma ctr_encrypt_spec k iv pos c pt :
  at_stream k iv pos c ->
  exists c', ctr_encrypt pt c = Ok (CRYPT_OK, xor_bytes pt (key_stream k iv pos (length pt)), c') /\
    at_stream k iv (pos + length pt) c'.
Proof.
  intros Hc. pose proof Hc as [(Hbl & _) _ _ (j & _ & _ & Hr & _)].
  destruct (ctr_loop_spec k iv (length pt) pt pos c Hc ltac:(lia)) as (c' & Hloop & Hc').
  exists c'. split; [|done]. unfold ctr_encrypt. rewrite Hbl.
  destruct (Z.ltb_spec (padlen c) 0); [lia|].
  destruct (Z.ltb_spec MAXBLOCKSIZE (padlen c)) as [Hlt|]; [unfold MAXBLOCKSIZE in Hlt; lia|].
  change ((16 <? 1) || (MAXBLOCKSIZE <? 16) || false || false) with false.
  change (negb (16 mod LTC_FAST_SIZE =? 0)) with false. cbv iota. by rewrite Hloop.
Qed.

(** ** The generator *)
Record prng_ok (p : yarrow_prng) : Prop := {
  pool_ok : block 128 (pool p);
  arrays_ok : length (ctr_ctr (yarrow_ctr p)) = 128%nat /\ length (ctr_pad (yarrow_ctr p)) = 128%nat
}.

Lemma setup_prefix key n r : rijndael_setup key n r = rijndael_setup (take (Z.to_nat n) key) n r.
Proof. unfold rijndael_setup. by rewrite take_idemp. Qed.

Lemma take_block n m b : block n b -> (m <= n)%nat -> block m (take m b).
Proof. intros [Hb Hl] Hm. split; [by apply Forall_take | rewrite length_take; lia]. Qed.

(** A generator that is ready and has given out [pos] bytes. *)
Definition reading (seed : bytes) (pos : nat) (p : yarrow_prng) : Prop :=
  take 32 (pool p) = take 32 seed /\ at_stream (take 32 seed) (take 16 seed) pos (yarrow_ctr p).

Lemma ctr_start_little_endian IV key keylen num_rounds c sk :
  rijndael_setup key keylen num_rounds = (CRYPT_OK, Some sk) ->
  ctr_start IV key keylen num_rounds CTR_COUNTER_LITTLE_ENDIAN c =
    (CRYPT_OK, encrypt_counter (mk_ctr 16 0 0 16 (take 16 IV ++ drop 16 (ctr_ctr c)) (ctr_pad c) sk)).
Proof. intros Hs. unfold ctr_start. by rewrite Hs. Qed.

Lemma take_front n (a b : bytes) : length a = n -> take n (a ++ b) = a.
Proof. intros <-. apply take_app_length. Qed.

Lemma ready_spec p :
  prng_ok p -> exists p', yarrow_ready p = (CRYPT_OK, p') /\ prng_ok p' /\ reading (pool p) 0 p'.
Proof.
  intros [Hp [Hlc Hlp]].
  pose proof (take_block 128 32 _ Hp ltac:(lia)) as [Hkb Hkl].
  pose proof (take_block 128 16 _ Hp ltac:(lia)) as Hiv.
  assert (aes_key (take 32 (pool p))) as Hkey by (split; [done | by right; right]).
  destruct (setup_spec (take 32 (pool p)) 0 Hkey (or_introl eq_refl)) as (sk & Hs & Hok & Hek & Hnr).
  unfold blen in Hs. rewrite Hkl in Hs.
  unfold yarrow_ready. change (rijndael_keysize hashsize) with (CRYPT_OK, 32). cbn [negb Z.eqb CRYPT_OK].
  rewrite (ctr_start_little_endian _ _ _ _ _ sk) by (by rewrite setup_prefix).
  eexists. split; [reflexivity|]. unfold encrypt_counter, reading.
  cbn [pool yarrow_ctr with_pad blocklen padlen ctr_mode ctrlen ctr_ctr ctr_pad ctr_key].
  rewrite (take_front 16 (take 16 (pool p))) by apply Hiv.
  pose proof (length_block _ _ Hiv) as Hivl. pose proof (length_block _ _ (ecb_encrypt_block sk (take 16 (pool p)))) as He.
  split_and!; [split; [done|] | done | split];
    cbn [pool yarrow_ctr with_pad blocklen padlen ctr_mode ctrlen ctr_ctr ctr_pad ctr_key];
    rewrite ?length_app, ?length_drop, ?Hivl, ?He, ?Hlc, ?Hlp; [lia | done | | lia |].
  - intros b Hb. by apply encrypt_is_cipher.
  - exists 0%nat. rewrite counter_block_0, !(take_front 16) by (done || apply Hiv).
    split_and!; [done | by apply encrypt_is_cipher | lia | lia | lia].
Qed.

Lemma xor_zeros n l : length l = n -> xor_bytes (replicate n 0) l = l.
Proof. intros <-. induction l as [|x l IH]; [done|]. cbn. by rewrite IH. Qed.

Lemma read_spec seed pos p n :
  0 <= n -> reading seed pos p ->
  exists p', yarrow_read n p = Ok (n, pool_stream seed pos (Z.to_nat n), p') /\
    reading seed (pos + Z.to_nat n) p'.
Proof.
  intros Hn [Hs Hc]. unfold yarrow_read.
  destruct (ctr_encrypt_spec _ _ _ _ (replicate (Z.to_nat n) 0) Hc) as (c' & -> & Hc').
  rewrite length_replicate in *. cbn [mbind result_bind negb Z.eqb CRYPT_OK].
  rewrite xor_zeros by apply length_key_stream. by eexists.
Qed.

Lemma add_entropy_spec md input inlen p :
  length (hs_buf md) = 64%nat -> 0 <= inlen <= blen input -> prng_ok p ->
  yarrow_add_entropy md input inlen p =
    Ok (CRYPT_OK, mk_yarrow (sha256_spec (take 32 (pool p) ++ take (Z.to_nat inlen) input) ++ drop 32 (pool p))
      (yarrow_ctr p)).
Proof.
  intros Hmd Hin [Hp _]. unfold yarrow_add_entropy.
  unfold sha256_process.
  assert (hashing sha256_compress initial_state (sha256_init md) [] 0 []) as H0 by (by apply hashing_init).
  destruct (process_spec _ _ _ _ _ _ (pool p) hashsize H0) as (md1 & k1 & r1 & -> & H1).
  { unfold blen, hashsize. rewrite (length_block _ _ Hp). lia. }
  cbn [mbind result_bind negb Z.eqb CRYPT_OK].
  destruct (process_spec _ _ _ _ _ _ input inlen H1 Hin) as (md2 & k2 & r2 & -> & H2).
  cbn [mbind result_bind negb Z.eqb CRYPT_OK app].
  by rewrite (sha256_finish _ _ _ _ H2), length_sha256_spec.
Qed.

(** ** The interface of random_generator.h

    [md] is the local [hash_state] of [yarrow_add_entropy] and [memory] the state before
    [yarrow_start], neither initialised.  The laws of the interface speak of every state;
    [as_bytes] gives them on those that the code cannot reach. *)
Definition as_bytes (n : Z) (b : bytes) : bytes := map u8 (take (Z.to_nat n) (b ++ replicate (Z.to_nat n) 0)).

Lemma as_bytes_block n b : block (Z.to_nat n) b -> as_bytes n b = b.
Proof.
  intros [Hb Hl]. unfold as_bytes. rewrite take_front by done. clear Hl.
  induction Hb as [|x b Hx Hb IH]; cbn; [done|]. by rewrite IH, u8_small.
Qed.

Section generator.
Context (md : hash_state) (memory : yarrow_prng).

Definition read_call (n : Z) (p : yarrow_prng) : bytes * yarrow_prng :=
  match yarrow_read n p with Ok (_, b, p') => (as_bytes n b, p') | Fault _ => (as_bytes n [], p) end.

Definition add_entropy_call (d : bytes) (p : yarrow_prng) : yarrow_prng :=
  match yarrow_add_entropy md d (blen d) p with Ok (_, p') => p' | Fault _ => p end.

Lemma is_bytes_as_bytes n b : is_bytes (as_bytes n b).
Proof. apply Forall_map, Forall_forall. intros i _. apply u8_range. Qed.

Lemma blen_as_bytes n b : 0 <= n -> blen (as_bytes n b) = n.
Proof. intros Hn. unfold blen, as_bytes. rewrite length_map, length_take, length_app, length_replicate. lia. Qed.

#[export] Program Instance yarrow : Prng := {|
  Net.prng_state := yarrow_prng;
  Net.yarrow_start := yarrow_start memory;
  Net.yarrow_ready p := (yarrow_ready p).2;
  Net.yarrow_add_entropy := add_entropy_call;
  Net.yarrow_read := read_call
|}.
Next Obligation.
  intros n p. unfold read_call. destruct (yarrow_read n p) as [[[r b] p']|]; apply is_bytes_as_bytes.
Qed.
Next Obligation.
  intros n p Hn. unfold read_call. destruct (yarrow_read n p) as [[[r b] p']|]; by apply blen_as_bytes.
Qed.

(** Several buffers, one after the other. *)
Fixpoint draw (sizes : list Z) : M random_generator (list bytes) :=
  match sizes with
  | [] => mret []
  | n :: sizes => b ← random_buffer n; bs ← draw sizes; mret (b :: bs)
  end.

Definition total (sizes : list Z) : nat := Z.to_nat (foldr Z.add 0 sizes).

Lemma stream_block seed pos n : block 128 seed -> block n (pool_stream seed pos n).
Proof.
  intros Hs. unfold pool_stream. split; [|by rewrite length_key_stream].
  apply Forall_map, Forall_forall. intros i _. unfold stream_byte. apply nth_u8.
  apply (aes_cipher_block (take 32 seed)); [|apply counter_block_block].
  destruct (take_block 128 32 seed Hs ltac:(lia)) as [Hb Hl]. split; [done | by right; right].
Qed.

Lemma draw_spec seed sizes pos r :
  block 128 seed -> Forall (fun n => 0 <= n) sizes -> reading seed pos (_random_state r) ->
  exists bufs r', draw sizes r = Ok (bufs, r') /\ map blen bufs = sizes /\
    concat bufs = pool_stream seed pos (total sizes).
Proof.
  intros Hseed Hsizes. revert pos r. induction Hsizes as [|n sizes Hn Hsizes IH]; intros pos r Hr; cbn [draw].
  { by exists [], r. }
  destruct (read_spec seed pos _ n Hn Hr) as (p' & Hread & Hr').
  destruct (IH _ (@mk_random yarrow p' (_entropy_added r)) Hr') as (bufs & r' & Hd & Hb & Hc).
  exists (pool_stream seed pos (Z.to_nat n) :: bufs), r'.
  assert (random_buffer n r = Ok (pool_stream seed pos (Z.to_nat n), @mk_random yarrow p' (_entropy_added r))) as Hrb.
  { unfold random_buffer. cbn [Net.yarrow_read yarrow]. unfold read_call. rewrite Hread.
    by rewrite as_bytes_block by (by apply stream_block). }
  rewrite (bind_step _ _ _ _ _ Hrb), (bind_step _ _ _ _ _ Hd). split_and!; [done | |].
  - cbn [map]. rewrite Hb. unfold blen. rewrite (length_block _ _ (stream_block seed pos _ Hseed)). f_equal. lia.
  - cbn [concat]. rewrite Hc. unfold total. cbn [foldr].
    assert (0 <= foldr Z.add 0 sizes) as Hpos.
    { clear -Hsizes. induction Hsizes; cbn; lia. }
    rewrite Z2Nat.inj_add by done. unfold pool_stream. by rewrite key_stream_app.
Qed.

(** C29. what a generator gives out is a key stream.  However many buffers of whatever sizes are
    drawn, together they are the next bytes of AES-256 (as FIPS 197 defines it) in counter
    mode: after entropy of 16 bytes or more has been added, under the SHA-256 digest of the
    pool and the entropy; in a generator to which none was added, under the zero key, so that
    every process draws the same numbers. *)
Theorem random_bytes_are_a_key_stream (sizes : list Z) :
  length (hs_buf md) = 64%nat ->
  length (ctr_ctr (yarrow_ctr memory)) = 128%nat -> length (ctr_pad (yarrow_ctr memory)) = 128%nat ->
  Forall (fun n => 0 <= n) sizes ->
  (exists bufs r', draw sizes new_random_generator = Ok (bufs, r') /\ map blen bufs = sizes /\
    concat bufs = pool_stream (replicate 128 0) 0 (total sizes)) /\
  (forall r entropy, prng_ok (_random_state r) -> is_bytes entropy ->
    0 <= _entropy_added r -> 16 <= _entropy_added r + blen entropy < 2 ^ 32 ->
    exists bufs r', draw sizes (add_entropy r entropy (blen entropy)) = Ok (bufs, r') /\
      map blen bufs = sizes /\
      concat bufs = pool_stream (sha256_spec (take 32 (pool (_random_state r)) ++ entropy)) 0 (total sizes)).
Proof.
  intros Hmd Hc Hp Hsizes. split.
  - destruct (ready_spec (yarrow_start memory)) as (p & Hready & _ & Hr).
    { split; [|done]. split; [by apply Forall_replicate | done]. }
    apply draw_spec; [by split; [apply Forall_replicate|] | done |].
    cbn [new_random_generator _random_state Net.yarrow_ready Net.yarrow_start yarrow]. by rewrite Hready.
  - intros r entropy Hok He H0 H16. unfold add_entropy.
    rewrite u32_small by (unfold in_u; pose proof (blen_nonneg entropy); lia).
    destruct (Z.leb_spec 16 (_entropy_added r + blen entropy)); [|lia].
    rewrite take_all_bytes.
    cbn [Net.yarrow_ready Net.yarrow_add_entropy yarrow]. unfold add_entropy_call.
    rewrite (add_entropy_spec md entropy (blen entropy)) by (done || (split; [apply blen_nonneg | lia])).
    rewrite take_all_bytes. set (p := mk_yarrow _ _).
    set (digest := sha256_spec _) in *.
    assert (block 32 digest) as Hd by (split; [apply is_bytes_sha256_spec | apply length_sha256_spec]).
    pose proof Hok as [[Hpb Hpl] Harrays].
    assert (block 128 (pool p)) as Hpool.
    { apply (block_app 32 96); [done|].
      split; [by apply Forall_drop | rewrite length_drop; lia]. }
    destruct (ready_spec p) as (p' & Hready & _ & Hr); [by split|].
    assert (take 32 (pool p) = digest) as Hk by (apply take_front, Hd).
    assert (take 16 (pool p) = take 16 digest) as Hiv by (rewrite <- Hk, take_take; f_equal; lia).
    destruct (draw_spec (pool p) sizes 0 (@mk_random yarrow p' 0) Hpool Hsizes Hr) as (bufs & r' & Hdraw & Hb & Hcat).
    exists bufs, r'. rewrite Hready. split_and!; [done | done |].
    rewrite Hcat. unfold pool_stream. rewrite Hk, Hiv, (take_ge digest 32); [done|].
    rewrite (length_block _ _ Hd). lia.
Qed.
End generator.

(** The first numbers of a generator that was given no entropy. *)
Example first_random_bytes :
  pool_stream (replicate 128 0) 0 4 = [0xdc; 0x95; 0xc0; 0x78].
Proof. vm_compute. reflexivity. Qed.

Definition example_memory : yarrow_prng :=
  mk_yarrow (replicate 128 7) (mk_ctr 3 99 5 1 (replicate 128 1) (replicate 128 2) no_key).
Definition example_md : hash_state := mk_hash 5 [] 70 (replicate 64 9).

Lemma random_bytes_are_a_key_stream_witness :
  exists bufs r', draw example_md example_memory [4; 20; 0; 1] (@new_random_generator (yarrow example_md example_memory)) = Ok (bufs, r') /\
    concat bufs = pool_stream (replicate 128 0) 0 25.
Proof.
  destruct (random_bytes_are_a_key_stream example_md example_memory [4; 20; 0; 1]) as [(bufs & r' & Hd & _ & Hc) _];
    [reflexivity | reflexivity | reflexivity | repeat (apply List.Forall_cons; [lia|]); constructor |].
  exists bufs, r'. split; [exact Hd | exact Hc].
Defined.
