(* ===== verification/Puzzle.v ===== *)
(** * Client puzzles: torque_sockets/client_puzzle.h and nonce.h

    The server's [client_puzzle_manager] (two nonces, each with the table of client nonces
    that have used it), the test of a solution, and the client's [puzzle_solver]. *)
From S2P Require Import Prelude Endian BitCopy BitStream StreamIO EventQueue Net Cipher HashStream Sha256 BufferUtils.
#[local] Open Scope Z_scope.

(** ** The test of one solution *)
Fixpoint check_digest (fuel : nat) (hash : bytes) (index puzzle_difficulty : Z) : result bool :=
  if 8 <? puzzle_difficulty then
    match fuel with
    | O => Fault out_of_fuel
    | S fuel =>
        h ← bget hash index;
        if negb (h =? 0) then Ok false else check_digest fuel hash (index + 1) (puzzle_difficulty - 8)
    end
  else
    let mask := u8 (Z.shiftl 0xFF (8 - puzzle_difficulty)) in
    h ← bget hash index; Ok (Z.land mask h =? 0).

Section check.
Context `{Machine}.

(** The 24 bytes that are hashed. *)
Definition puzzle_buffer (solution client_nonce server_nonce client_identity : Z) : result bytes :=
  buffer ← write_uint32_to_buffer solution (malloc 24) 0;
  buffer ← write_uint32_to_buffer client_identity buffer 4;
  buffer ← write_uint64_to_buffer client_nonce buffer 8;
  write_uint64_to_buffer server_nonce buffer 16.

Definition check_one_solution (solution client_nonce server_nonce puzzle_difficulty client_identity : Z)
    : result bool :=
  buffer ← puzzle_buffer solution client_nonce server_nonce client_identity;
  hash ← sha256_of buffer 24;
  check_digest (Z.to_nat puzzle_difficulty) hash 0 puzzle_difficulty.
End check.

(** The bits of a digest, most significant first in each byte. *)
Definition msb_bits (b : Z) : list bool := map (fun i => Z.testbit b (7 - Z.of_nat i)) (seq 0 8).
Definition digest_bits (hash : bytes) : list bool := flat_map msb_bits hash.

(** What the puzzle asks for: the digest of both nonces, the identity and the solution
    starts with [difficulty] zero bits. *)
Definition solves (solution client_nonce server_nonce puzzle_difficulty client_identity : Z) : bool :=
  forallb negb (take (Z.to_nat puzzle_difficulty) (digest_bits (sha256_spec
    (be_bytes 4 solution ++ be_bytes 4 client_identity ++ be_bytes 8 client_nonce ++ be_bytes 8 server_nonce)))).

Lemma mask_check h d :
  is_u8 h -> 0 <= d <= 8 ->
  (Z.land (u8 (Z.shiftl 0xFF (8 - d))) h =? 0) = forallb negb (take (Z.to_nat d) (msb_bits h)).
Proof.
  intros [H0 H1] Hd. change (2 ^ 8) with (Z.of_nat 256) in H1.
  assert (Hall : forallb (fun h => forallb (fun d => Bool.eqb (Z.land (u8 (Z.shiftl 0xFF (8 - d))) h =? 0)
    (forallb negb (take (Z.to_nat d) (msb_bits h)))) (map Z.of_nat (seq 0 9))) (map Z.of_nat (seq 0 256)) = true)
    by (vm_compute; reflexivity).
  rewrite forallb_forall in Hall. specialize (Hall h (Z_enum h 256 ltac:(lia))).
  rewrite forallb_forall in Hall. specialize (Hall d (Z_enum d 9 ltac:(lia))). by apply eqb_prop in Hall.
Qed.

Lemma length_msb_bits b : length (msb_bits b) = 8%nat.
Proof. done. Qed.

Lemma length_digest_bits hash : length (digest_bits hash) = (8 * length hash)%nat.
Proof. induction hash as [|b hash IH]; [done|]. cbn [digest_bits flat_map]. rewrite length_app, length_msb_bits. unfold digest_bits in IH. cbn [length]. lia. Qed.

Lemma check_digest_last fuel hash i d :
  d <= 8 -> check_digest fuel hash i d = (h ← bget hash i; Ok (Z.land (u8 (Z.shiftl 0xFF (8 - d))) h =? 0)).
Proof. intros Hd. destruct fuel; cbn [check_digest]; by destruct (Z.ltb_spec 8 d); [lia|]. Qed.

Lemma check_digest_spec front hash : forall fuel d,
  is_bytes hash -> 0 <= d -> (Z.to_nat d <= fuel)%nat -> d <= 8 * blen hash -> hash <> [] ->
  check_digest fuel (front ++ hash) (blen front) d = Ok (forallb negb (take (Z.to_nat d) (digest_bits hash))).
Proof.
  revert front. induction hash as [|h hash IH]; intros front fuel d Hb Hd Hf Hr Hne; [done|].
  apply is_bytes_cons in Hb as [Hh Hb].
  assert (Hg : bget (front ++ h :: hash) (blen front) = Ok h).
  { unfold bget, blen. destruct (Z.leb_spec 0 (Z.of_nat (length front))); [|lia].
    rewrite Nat2Z.id, lookup_app_r, Nat.sub_diag by lia. done. }
  change (digest_bits (h :: hash)) with (msb_bits h ++ digest_bits hash).
  destruct (Z.ltb_spec 8 d) as [Hbig|Hsmall].
  - destruct fuel as [|fuel]; [lia|]. cbn [check_digest]. destruct (Z.ltb_spec 8 d); [|lia]. rewrite Hg. cbn [mbind result_bind].
    rewrite take_app_ge by (rewrite length_msb_bits; lia). rewrite length_msb_bits, forallb_app.
    assert (Hz : forallb negb (msb_bits h) = (h =? 0)).
    { pose proof (mask_check h 8 Hh ltac:(lia)) as Hm.
      change (take (Z.to_nat 8) (msb_bits h)) with (msb_bits h) in Hm. rewrite <- Hm. f_equal. change (u8 (Z.shiftl 255 (8 - 8))) with (Z.ones 8).
      rewrite Z.land_comm, Z.land_ones by lia. by apply Z.mod_small. }
    rewrite Hz. destruct (Z.eqb_spec h 0) as [->|]; cbn [negb andb]; [|done].
    unfold blen in Hr. cbn [length] in Hr.
    change (0 :: hash) with ([0] ++ hash). rewrite app_assoc.
    replace (blen front + 1) with (blen (front ++ [0])) by (rewrite blen_app; done).
    rewrite IH; [do 3 f_equal; lia | done | lia | lia | unfold blen; lia |].
    intros ->. cbn in Hr. lia.
  - rewrite check_digest_last, Hg by done. cbn [mbind result_bind]. rewrite mask_check by (done || lia).
    by rewrite take_app_le by (rewrite length_msb_bits; lia).
Qed.

Lemma check_digest_hash hash d :
  is_bytes hash -> length hash = 32%nat -> 0 <= d <= 256 ->
  check_digest (Z.to_nat d) hash 0 d = Ok (forallb negb (take (Z.to_nat d) (digest_bits hash))).
Proof.
  intros Hb Hl Hd. apply (check_digest_spec [] hash); [done | lia | lia | unfold blen; lia |].
  by intros ->.
Qed.

Lemma blen_puzzle a b c d : blen (be_bytes 4 a ++ be_bytes 4 b ++ be_bytes 8 c ++ be_bytes 8 d) = 24.
Proof. unfold blen, be_bytes. by rewrite !length_app, !length_rev, !length_le_bytes. Qed.

#[local] Opaque sha256_spec sha256_of.

Section check_spec.
Context `{Machine}.

Lemma puzzle_buffer_spec solution client_nonce server_nonce client_identity :
  puzzle_buffer solution client_nonce server_nonce client_identity =
    Ok (be_bytes 4 solution ++ be_bytes 4 client_identity ++ be_bytes 8 client_nonce ++ be_bytes 8 server_nonce).
Proof.
  unfold puzzle_buffer. pose proof (malloc_length 24 ltac:(lia)) as Hm.
  assert (Hl : forall d, blen d <= 24 -> blen (overwrite (malloc 24) 0 d) = 24).
  { intros d Hd. unfold blen in *. rewrite length_overwrite; unfold blen; lia. }
  assert (Hn : forall n v, blen (be_bytes n v) = Z.of_nat n).
  { intros. unfold blen, be_bytes. by rewrite length_rev, length_le_bytes. }
  assert (Ho : forall d d' k, k = blen d -> k + blen d' <= 24 ->
    overwrite (overwrite (malloc 24) 0 d) k d' = overwrite (malloc 24) 0 (d ++ d')).
  { intros d d' k -> Hd. by apply (overwrite_app (malloc 24) 0 d d'); lia. }
  rewrite write_uint32_spec by lia. cbn [mbind result_bind].
  rewrite write_uint32_spec, Ho by (rewrite ?Hl by (rewrite ?blen_app, ?Hn; lia); rewrite ?blen_app, ?Hn; lia). cbn [mbind result_bind].
  rewrite write_uint64_spec, Ho by (rewrite ?Hl by (rewrite ?blen_app, ?Hn; lia); rewrite ?blen_app, ?Hn; lia).
  cbn [mbind result_bind].
  rewrite write_uint64_spec, Ho by (rewrite ?Hl by (rewrite ?blen_app, ?Hn; lia); rewrite ?blen_app, ?Hn; lia).
  f_equal. unfold overwrite. cbn [Z.to_nat take app]. rewrite drop_ge, app_nil_r, <- !app_assoc; [done|].
  unfold be_bytes. rewrite !length_app, !length_rev, !length_le_bytes. unfold blen in Hm. lia.
Qed.

(** The digest of a 24-byte buffer. *)
Lemma check_buffer (x : bytes) d :
  length x = 24%nat ->
  (buffer ← Ok x; hash ← sha256_of buffer 24; check_digest (Z.to_nat d) hash 0 d) =
    check_digest (Z.to_nat d) (sha256_spec x) 0 d.
Proof.
  intros Hx. cbn [mbind result_bind]. rewrite sha256_of_spec by (unfold blen; lia).
  cbn [mbind result_bind]. by rewrite take_ge by lia.
Qed.

(** [check_one_solution] decides the puzzle for every difficulty a digest can have: it holds
    exactly when the digest of the 24 bytes begins with that many zero bits, and it never
    reads outside the digest. *)
Lemma check_one_solution_spec solution client_nonce server_nonce puzzle_difficulty client_identity :
  0 <= puzzle_difficulty <= 256 ->
  check_one_solution solution client_nonce server_nonce puzzle_difficulty client_identity =
    Ok (solves solution client_nonce server_nonce puzzle_difficulty client_identity).
Proof.
  intros Hd. unfold check_one_solution, solves. rewrite puzzle_buffer_spec, check_buffer.
  - rewrite check_digest_hash; [done | apply is_bytes_sha256_spec | apply length_sha256_spec | done].
  - apply Nat2Z.inj, blen_puzzle.
Qed.
End check_spec.

(** ** The server's side *)
Definition hash_table_size : Z := 387.

(** [nonce_table]: the chains of the buckets, newest entry first. *)
Notation nonce_table := (list (list Z)) (only parsing).

(** [reset], also the constructor. *)
Definition empty_nonce_table : nonce_table := replicate (Z.to_nat hash_table_size) [].

Definition check_add (table : nonce_table) (the_nonce : Z) : result (nonce_table * bool) :=
  let hash_index := Z.to_nat (u32 (the_nonce mod hash_table_size)) in
  chain ← of_option out_of_bounds (table !! hash_index);
  if existsb (fun n => n =? the_nonce) chain then Ok (table, false)
  else Ok (<[hash_index := the_nonce :: chain]> table, true).

Inductive result_code : Type :=
  | success
  | invalid_solution
  | invalid_server_nonce
  | invalid_client_nonce
  | invalid_puzzle_difficulty.

#[export] Instance result_code_eq_dec : EqDecision result_code.
Proof. solve_decision. Defined.

Definition puzzle_refresh_time : time := 30000.
Definition initial_puzzle_difficulty : Z := 17.
Definition max_puzzle_difficulty : Z := 26.

Definition s64 (x : Z) : Z := if x <? 2 ^ 63 then x else x - 2 ^ 64.

Section manager.
Context `{Machine, Prng}.

(** [_current_nonce_table] and [_last_nonce_table] are two objects that only ever
    exchange their places, so the fields hold the tables themselves. *)
Record client_puzzle_manager : Type := mk_manager {
  _current_difficulty : Z;
  _last_update_time : time;
  _last_tick_time : time;
  _current_nonce : Z;
  _last_nonce : Z;
  _current_nonce_table : nonce_table;
  _last_nonce_table : nonce_table
}.

(** [_last_update_time] is not initialised. *)
Definition new_client_puzzle_manager (current : time) : M random_generator client_puzzle_manager :=
  n1 ← random_nonce; n2 ← random_nonce;
  mret (mk_manager initial_puzzle_difficulty (s64 indeterminate) current n1 n2
    empty_nonce_table empty_nonce_table).

Definition tick (m : client_puzzle_manager) (currentTime : time) : M random_generator client_puzzle_manager :=
  let timeDelta := time_sub currentTime (_last_update_time m) in
  if puzzle_refresh_time <? timeDelta then
    n ← random_nonce;
    mret (mk_manager (_current_difficulty m) currentTime (_last_tick_time m) n (_current_nonce m)
      empty_nonce_table (_current_nonce_table m))
  else mret m.

(** The table a server nonce selects, with the way to store it back. *)
Definition check_solution (m : client_puzzle_manager)
    (solution client_nonce server_nonce puzzle_difficulty client_identity : Z)
    : result (client_puzzle_manager * result_code) :=
  if negb (puzzle_difficulty =? _current_difficulty m) then Ok (m, invalid_puzzle_difficulty) else
  let check (the_table : nonce_table) (store : nonce_table -> client_puzzle_manager) :=
    ok ← check_one_solution solution client_nonce server_nonce puzzle_difficulty client_identity;
    if negb ok then Ok (m, invalid_solution) else
    '(the_table, added) ← check_add the_table client_nonce;
    if negb added then Ok (store the_table, invalid_client_nonce) else Ok (store the_table, success) in
  if server_nonce =? _current_nonce m then
    check (_current_nonce_table m) (fun t => mk_manager (_current_difficulty m) (_last_update_time m)
      (_last_tick_time m) (_current_nonce m) (_last_nonce m) t (_last_nonce_table m))
  else if server_nonce =? _last_nonce m then
    check (_last_nonce_table m) (fun t => mk_manager (_current_difficulty m) (_last_update_time m)
      (_last_tick_time m) (_current_nonce m) (_last_nonce m) (_current_nonce_table m) t)
  else Ok (m, invalid_server_nonce).

Definition get_current_nonce (m : client_puzzle_manager) : Z := _current_nonce m.
Definition get_current_difficulty (m : client_puzzle_manager) : Z := _current_difficulty m.
End manager.

(** *** The table is a set of nonces *)
Definition table_ok (t : nonce_table) : Prop := length t = 387%nat.
Definition in_table (n : Z) (t : nonce_table) : Prop :=
  exists chain, t !! Z.to_nat (n mod hash_table_size) = Some chain /\ n ∈ chain.

Lemma bucket_u32 n : u32 (n mod hash_table_size) = n mod hash_table_size.
Proof. apply u32_small. pose proof (Z.mod_pos_bound n hash_table_size ltac:(done)). unfold hash_table_size, in_u in *. lia. Qed.

Lemma empty_table_ok : table_ok empty_nonce_table.
Proof. done. Qed.

Lemma not_in_empty n : ~ in_table n empty_nonce_table.
Proof.
  intros (chain & Hc & Hn). apply lookup_replicate in Hc as [-> _]. by apply not_elem_of_nil in Hn.
Qed.

Lemma check_add_spec t n :
  table_ok t ->
  exists t' added, check_add t n = Ok (t', added) /\ table_ok t' /\
    (added = true <-> ~ in_table n t) /\ forall k, in_table k t' <-> in_table k t \/ k = n.
Proof.
  intros Ht. unfold check_add. cbv zeta. rewrite bucket_u32. unfold in_table.
  assert (Hb : forall k, (Z.to_nat (k mod hash_table_size) < length t)%nat).
  { intros k. rewrite Ht. pose proof (Z.mod_pos_bound k hash_table_size ltac:(done)).
    unfold hash_table_size in *. lia. }
  destruct (lookup_lt_is_Some_2 t _ (Hb n)) as [chain Hc]. rewrite Hc. cbn [of_option mbind result_bind].
  destruct (existsb _ chain) eqn:He.
  - apply existsb_exists in He as (x & Hx%list_elem_of_In & ->%Z.eqb_eq).
    exists t, false. split_and!; [done | done | |].
    + split; [done|]. intros []. eauto.
    + intros k. split; [auto|]. intros [?| ->]; eauto.
  - assert (Hn : n ∉ chain).
    { intros Hin%list_elem_of_In. assert (existsb (fun m => m =? n) chain = true); [|congruence].
      apply existsb_exists. exists n. by rewrite Z.eqb_refl. }
    eexists _, true. split; [done|]. split; [|split].
    + unfold table_ok. by rewrite length_insert.
    + split; [|done]. intros _ (c & Hc' & Hin). congruence.
    + intros k. destruct (decide (Z.to_nat (k mod hash_table_size) = Z.to_nat (n mod hash_table_size))) as [Heq|Hne].
      * rewrite Heq, list_lookup_insert_eq by apply Hb. split.
        -- intros (c & [= <-] & [->|Hin]%elem_of_cons); eauto.
        -- intros [(c & Hc' & Hin)| ->]; eexists; (split; [done|]).
           ++ assert (c = chain) as -> by congruence. by apply elem_of_cons; right.
           ++ by apply elem_of_cons; left.
      * rewrite list_lookup_insert_ne by done. split; [auto|]. intros [?| ->]; done.
Qed.

(** ** A run of the server's side

    [puzzle_run] feeds a sequence of ticks and submitted solutions to the manager and
    collects, oldest first, the nonces that were drawn and the pairs of client and server
    nonce that were accepted. *)
Inductive puzzle_op : Type :=
  | Tick (currentTime : time)
  | Submit (solution client_nonce server_nonce puzzle_difficulty client_identity : Z).

Section run.
Context `{Machine, Prng}.

Definition refreshed (m m' : client_puzzle_manager) : list Z :=
  if _last_update_time m =? _last_update_time m' then [] else [_current_nonce m'].

Fixpoint puzzle_run (m : client_puzzle_manager) (ops : list puzzle_op)
    : M random_generator (client_puzzle_manager * list Z * list (Z * Z)) :=
  match ops with
  | [] => mret (m, [], [])
  | Tick t :: ops =>
      m' ← tick m t;
      '(m'', drawn, accepted) ← puzzle_run m' ops;
      mret (m'', refreshed m m' ++ drawn, accepted)
  | Submit solution client_nonce server_nonce puzzle_difficulty client_identity :: ops =>
      '(m', code) ← lift (check_solution m solution client_nonce server_nonce puzzle_difficulty client_identity);
      '(m'', drawn, accepted) ← puzzle_run m' ops;
      mret (m'', drawn, (if decide (code = success) then [(client_nonce, server_nonce)] else []) ++ accepted)
  end.

(** The tables hold the client nonces accepted so far for their server nonce; no other
    nonce with an accepted client will be selected again. *)
Record manager_ok (m : client_puzzle_manager) (accepted : list (Z * Z)) : Prop := {
  mo_current : table_ok (_current_nonce_table m);
  mo_last : table_ok (_last_nonce_table m);
  mo_in_current c : (c, _current_nonce m) ∈ accepted -> in_table c (_current_nonce_table m);
  mo_in_last c : (c, _last_nonce m) ∈ accepted -> _last_nonce m <> _current_nonce m ->
    in_table c (_last_nonce_table m);
  mo_difficulty : 0 <= _current_difficulty m <= 256
}.

Lemma check_solution_ok m accepted solution c s d i :
  manager_ok m accepted ->
  exists m' code, check_solution m solution c s d i = Ok (m', code) /\
    _current_nonce m' = _current_nonce m /\ _last_nonce m' = _last_nonce m /\
    _last_update_time m' = _last_update_time m /\
    (code = success -> ~ (c, s) ∈ accepted) /\
    manager_ok m' ((if decide (code = success) then [(c, s)] else []) ++ accepted).
Proof.
  intros Hm. pose proof Hm as [Hc Hl Hic Hil Hd]. unfold check_solution.
  destruct (Z.eqb_spec d (_current_difficulty m)) as [->|]; cbn [negb].
  2: { do 2 eexists. split; [done|]. by rewrite decide_False by done. }
  rewrite check_one_solution_spec by done. cbn [mbind result_bind].
  destruct (Z.eqb_spec s (_current_nonce m)) as [->|Hs1];
    [|destruct (Z.eqb_spec s (_last_nonce m)) as [->|Hs2]].
  3: { do 2 eexists. split; [done|]. by rewrite decide_False by done. }
  all: destruct (solves _ _ _ _ _); cbn [negb];
    [|do 2 eexists; split; [done|]; by rewrite decide_False by done].
  - destruct (check_add_spec (_current_nonce_table m) c Hc) as (t & added & -> & Ht & Ha & Hin).
    cbn [mbind result_bind]. destruct added; cbn [negb]; (do 2 eexists; split; [done|]; split_and!; try done).
    + intros _ Hacc. by apply (proj1 Ha), Hic.
    + split; cbn; try done.
      * intros c' [[= ->]|Hold]%elem_of_cons; apply Hin; auto.
      * intros c' [[= -> Heq]|Hold]%elem_of_cons Hne; [done | auto].
    + split; cbn; try done. intros c' Hold. apply Hin; auto.
  - destruct (check_add_spec (_last_nonce_table m) c Hl) as (t & added & -> & Ht & Ha & Hin).
    cbn [mbind result_bind]. destruct added; cbn [negb]; (do 2 eexists; split; [done|]; split_and!; try done).
    + intros _ Hacc. by apply (proj1 Ha), Hil.
    + split; cbn; try done.
      * intros c' [[= -> Heq]|Hold]%elem_of_cons; [done | auto].
      * intros c' [[= ->]|Hold]%elem_of_cons Hne; apply Hin; auto.
    + split; cbn; try done. intros c' Hold Hne. apply Hin. auto.
Qed.

(** A solution is accepted only for one of the two nonces in force. *)
Lemma check_solution_selects m m' solution c s d i :
  check_solution m solution c s d i = Ok (m', success) -> s = _current_nonce m \/ s = _last_nonce m.
Proof.
  unfold check_solution. destruct (negb _); [done|].
  destruct (Z.eqb_spec s (_current_nonce m)); [auto|]. destruct (Z.eqb_spec s (_last_nonce m)); [auto | done].
Qed.

(** What it takes to be accepted. *)
Lemma check_solution_success m m' solution c s d i :
  0 <= _current_difficulty m <= 256 -> table_ok (_current_nonce_table m) -> table_ok (_last_nonce_table m) ->
  check_solution m solution c s d i = Ok (m', success) ->
  d = _current_difficulty m /\ solves solution c s d i = true /\
  ((s = _current_nonce m /\ ~ in_table c (_current_nonce_table m)) \/
   (s = _last_nonce m /\ ~ in_table c (_last_nonce_table m))).
Proof.
  intros Hd Hc Hl. unfold check_solution.
  destruct (Z.eqb_spec d (_current_difficulty m)) as [->|]; cbn [negb]; [|done].
  rewrite check_one_solution_spec by done. cbn [mbind result_bind].
  destruct (Z.eqb_spec s (_current_nonce m)) as [->|]; [|destruct (Z.eqb_spec s (_last_nonce m)) as [->|]; [|done]];
    (destruct (solves _ _ _ _ _); cbn [negb]; [|done]).
  - destruct (check_add_spec _ c Hc) as (t & added & -> & _ & Ha & _). cbn [mbind result_bind].
    destruct added; cbn [negb]; [|done]. intros _. split_and!; [done | done |]. left. split; [done | by apply Ha].
  - destruct (check_add_spec _ c Hl) as (t & added & -> & _ & Ha & _). cbn [mbind result_bind].
    destruct added; cbn [negb]; [|done]. intros _. split_and!; [done | done |]. right. split; [done | by apply Ha].
Qed.

Lemma tick_ok m accepted t r :
  manager_ok m accepted ->
  exists m' r', tick m t r = Ok (m', r') /\
    (m' = m \/ (_last_nonce m' = _current_nonce m /\ refreshed m m' = [_current_nonce m'])) /\
    (m' = m \/ (forall c, (c, _current_nonce m') ∉ accepted) -> manager_ok m' accepted).
Proof.
  intros [Hc Hl Hic Hil Hd]. unfold tick, time_sub, puzzle_refresh_time.
  destruct (Z.ltb_spec 30000 (t - _last_update_time m)) as [Hlt|]; [|exists m, r; split_and!; auto; done].
  destruct (random_nonce_total r) as (n & r' & Hr & _).
  exists (mk_manager (_current_difficulty m) t (_last_tick_time m) n (_current_nonce m)
      empty_nonce_table (_current_nonce_table m)), r'.
  split; [unfold mbind, M_bind; by rewrite Hr|]. split.
  - right. split; [done|]. unfold refreshed. cbn. destruct (Z.eqb_spec (_last_update_time m) t); [lia | done].
  - intros Hfresh. split; cbn; try done.
    + intros c Hin. destruct Hfresh as [Heq|Hfresh]; [|by apply Hfresh in Hin].
      apply (f_equal _last_update_time) in Heq. cbn in Heq. lia.
    + intros c Hin _. by apply Hic.
Qed.

Lemma manager_ok_nil m accepted : manager_ok m accepted -> manager_ok m [].
Proof. intros [? ? ? ? ?]. split; try done; intros c Hc; by apply not_elem_of_nil in Hc. Qed.

(** No sequence of operations makes the manager fail. *)
Lemma puzzle_run_total ops : forall m r,
  manager_ok m [] -> exists x r', puzzle_run m ops r = Ok (x, r').
Proof.
  induction ops as [|[t|solution c s d i] ops IH]; intros m r Hm; cbn [puzzle_run].
  - by do 2 eexists.
  - destruct (tick_ok m [] t r Hm) as (m' & r1 & Ht & _ & Hm').
    destruct (IH m' r1) as ([[m'' drawn] accepted] & r2 & Hr).
    { apply Hm'. right. intros c Hc. by apply not_elem_of_nil in Hc. }
    rewrite (bind_step _ _ _ _ _ Ht), (bind_step _ _ _ _ _ Hr). by do 2 eexists.
  - destruct (check_solution_ok m [] solution c s d i Hm) as (m' & code & Hc & _ & _ & _ & _ & Hm').
    destruct (IH m' r) as ([[m'' drawn] accepted] & r2 & Hr); [by eapply manager_ok_nil|].
    rewrite (lift_step _ _ _ _ Hc), (bind_step _ _ _ _ _ Hr). by do 2 eexists.
Qed.

Lemma puzzle_run_fresh ops : forall m seen acc r m' drawn accepted r',
  manager_ok m acc -> (forall c s, (c, s) ∈ acc -> s ∈ seen) ->
  _current_nonce m ∈ seen -> _last_nonce m ∈ seen ->
  puzzle_run m ops r = Ok ((m', drawn, accepted), r') -> NoDup (seen ++ drawn) ->
  NoDup accepted /\ forall p, p ∈ accepted -> p ∉ acc.
Proof.
  induction ops as [|[t|solution c s d i] ops IH]; intros m seen acc r m' drawn accepted r' Hm Hseen Hcur Hlast Hrun Hnd;
    cbn [puzzle_run] in Hrun.
  - injection Hrun as <- <- <- <-. split; [constructor|]. intros p Hp. by apply not_elem_of_nil in Hp.
  - destruct (tick_ok m acc t r Hm) as (m1 & r1 & Ht & Hcase & Hm1).
    rewrite (bind_step _ _ _ _ _ Ht) in Hrun. apply M_bind_Ok in Hrun as ([[m2 drawn2] acc2] & r2 & Hr & Hret).
    injection Hret as <- <- <- <-. rewrite app_assoc in Hnd.
    apply (IH m1 (seen ++ refreshed m m1) acc r1 m2 drawn2 acc2 r2); try done.
    + apply Hm1. destruct Hcase as [|[_ Href]]; [by left | right]. intros c Hin%Hseen.
      rewrite Href in Hnd. apply list.NoDup_app in Hnd as [Hnd _]. apply list.NoDup_app in Hnd as (_ & Hnd & _).
      apply (Hnd _ Hin). by apply list_elem_of_singleton.
    + intros c s Hin%Hseen. by apply elem_of_app; left.
    + destruct Hcase as [->|[_ Href]]; apply elem_of_app; [by left | right; rewrite Href; by apply list_elem_of_singleton].
    + apply elem_of_app. left. by destruct Hcase as [->|[-> _]].
  - destruct (check_solution_ok m acc solution c s d i Hm) as (m1 & code & Hc & Hc1 & Hl1 & _ & Hnew & Hm1).
    rewrite (lift_step _ _ _ _ Hc) in Hrun. apply M_bind_Ok in Hrun as ([[m2 drawn2] acc2] & r2 & Hr & Hret).
    injection Hret as <- <- <- <-.
    assert (Hsel : code = success -> s ∈ seen) by (intros ->; eapply check_solution_selects in Hc as [->| ->]; done).
    destruct (IH m1 seen _ r m2 drawn2 acc2 r2 Hm1) as [Hn Hd]; try done; [| by rewrite Hc1 | by rewrite Hl1 |].
    { intros c' s' Hin. destruct (decide (code = success)); [|by eapply Hseen].
      apply elem_of_cons in Hin as [[= -> ->]|Hin]; [auto | by eapply Hseen]. }
    destruct (decide (code = success)) as [Hs|]; [|done]. cbn [app] in *. split.
    + constructor; [|done]. intros Hin. apply (Hd _ Hin). by apply elem_of_cons; left.
    + intros p [->|Hin]%elem_of_cons; [auto|]. intros Hacc. apply (Hd _ Hin). by apply elem_of_cons; right.
Qed.
End run.

Section replay.
Context `{Machine, Prng}.


(** ** The client's side: [puzzle_solver] *)

(** [*cancelled] is set by another thread; [cancelled k] is its value at the [k]-th time
    it is read.  The loop has no bound of its own. *)
Fixpoint solve_loop (fuel : nat) (cancelled : nat -> bool) (k : nat)
    (solution the_nonce remote_nonce puzzle_difficulty client_identity : Z) : result (nat * Z) :=
  match fuel with
  | O => Fault out_of_fuel
  | S fuel =>
      if cancelled k then Ok (S k, solution) else
      ok ← check_one_solution solution the_nonce remote_nonce puzzle_difficulty client_identity;
      if (ok : bool) then Ok (S k, solution)
      else solve_loop fuel cancelled (S k) (u32 (solution + 1)) the_nonce remote_nonce puzzle_difficulty client_identity
  end.

Definition process_request (fuel : nat) (cancelled : nat -> bool) (the_request : byte_buffer)
    : result (option byte_buffer) :=
  let s := new_stream (byte_buffer.data the_request) (byte_buffer.get_buffer_size the_request) in
  '(s, the_nonce, _) ← read s (Scalar indeterminate : uint64);
  '(s, remote_nonce, _) ← read s (Scalar indeterminate : uint64);
  '(s, puzzle_difficulty, _) ← read s (Scalar (u32 indeterminate) : uint32);
  '(s, client_identity, _) ← read s (Scalar (u32 indeterminate) : uint32);
  '(k, solution) ← solve_loop fuel cancelled 0 0 (sval the_nonce) (sval remote_nonce)
    (sval puzzle_difficulty) (sval client_identity);
  if cancelled k then Ok None else
  let response := byte_buffer.of_size 4 in
  let s := new_stream (byte_buffer.data response) 4 in
  '(s, _) ← write s (Scalar solution : uint32);
  Ok (Some (byte_buffer.mk (bs_base s))).

(** The loop stops at the first solution. *)
Lemma solve_loop_finds fuel k solution target c s d i :
  0 <= d <= 256 -> 0 <= solution <= target -> target < 2 ^ 32 -> (Z.to_nat (target - solution) < fuel)%nat ->
  (forall x, solution <= x < target -> solves x c s d i = false) -> solves target c s d i = true ->
  exists k', solve_loop fuel (fun _ => false) k solution c s d i = Ok (k', target).
Proof.
  intros Hd. revert k solution. induction fuel as [|fuel IH]; intros k solution Hs Ht Hf Hno Hyes; [lia|].
  cbn [solve_loop]. rewrite check_one_solution_spec by done. cbn [mbind result_bind].
  destruct (Z.eq_dec solution target) as [->|Hne].
  - rewrite Hyes. eauto.
  - rewrite Hno, u32_small by (unfold in_u; lia). apply IH; try done; try lia. intros x Hx. apply Hno. lia.
Qed.

(** The request [accept_connection_challenge] posts. *)
Definition puzzle_request (c s d i : Z) : byte_buffer :=
  byte_buffer.mk (le_bytes 8 c ++ le_bytes 8 s ++ le_bytes 4 d ++ le_bytes 4 i).

Lemma read_request {n} (Hn : (0 < n <= 8)%nat) (s : bit_stream) (old v : Z) rest :
  stream_ok s -> in_u (8 * Z.of_nat n) old -> in_u (8 * Z.of_nat n) v ->
  upcoming s = byte_bits (le_bytes n v ++ rest) ->
  exists s' ok, read s (Scalar old : scalar n) = Ok (s', Scalar v : scalar n, ok) /\ stream_ok s' /\
    upcoming s' = byte_bits rest.
Proof.
  intros Hok Ho Hv Hu. rewrite byte_bits_app, byte_bits_le_bytes in Hu.
  destruct (@read_upcoming _ _ (scalar_laws n Hn) s (Scalar old : scalar n) (Scalar v : scalar n) (byte_bits rest))
    as (s' & ok & Hr & Hc); try done.
  exists s', ok. split; [done|]. split; [apply Hc | by eapply consumed_upcoming].
Qed.

Lemma process_request_spec fuel target c s d i :
  is_u64 c -> is_u64 s -> is_u32 i -> 0 <= d <= 256 -> is_u32 target ->
  (Z.to_nat target < fuel)%nat ->
  (forall x, 0 <= x < target -> solves x c s d i = false) -> solves target c s d i = true ->
  process_request fuel (fun _ => false) (puzzle_request c s d i) = Ok (Some (byte_buffer.mk (le_bytes 4 target))).
Proof.
  intros Hc Hs Hi Hd Ht Hf Hno Hyes. unfold process_request, byte_buffer.get_buffer_size.
  set (data := byte_buffer.data (puzzle_request c s d i)).
  assert (Hb : is_bytes data) by (repeat apply Forall_app_2; apply is_bytes_le_bytes).
  assert (Hl : blen data = 24) by (unfold blen, data; cbn [byte_buffer.data puzzle_request];
    by rewrite !length_app, !length_le_bytes).
  assert (Hok : stream_ok (new_stream data (blen data))) by (apply new_stream_ok; [done | lia]).
  assert (Hu : upcoming (new_stream data (blen data)) = byte_bits data) by (apply new_stream_upcoming; lia).
  pose proof indeterminate_range as Hind.
  destruct (read_request (n := 8) ltac:(lia) _ indeterminate c _ Hok Hind Hc Hu) as (s1 & ? & -> & Hok1 & Hu1).
  cbn [mbind result_bind].
  destruct (read_request (n := 8) ltac:(lia) _ indeterminate s _ Hok1 Hind Hs Hu1) as (s2 & ? & -> & Hok2 & Hu2).
  cbn [mbind result_bind].
  destruct (read_request (n := 4) ltac:(lia) _ (u32 indeterminate) d _ Hok2 (u32_range _) ltac:(split; lia) Hu2)
    as (s3 & ? & -> & Hok3 & Hu3). cbn [mbind result_bind].
  rewrite <- (app_nil_r (le_bytes 4 i)) in Hu3.
  destruct (read_request (n := 4) ltac:(lia) _ (u32 indeterminate) i _ Hok3 (u32_range _) Hi Hu3)
    as (s4 & ? & -> & _ & _). cbn [mbind result_bind sval].
  destruct (solve_loop_finds fuel 0 0 target c s d i) as (k & ->); try done.
  { split; [lia | apply Ht]. } { apply Ht. } { by rewrite Z.sub_0_r. }
  cbn [mbind result_bind]. unfold byte_buffer.of_size. cbn [byte_buffer.data].
  pose proof (malloc_length 4 ltac:(lia)) as Hm.
  assert (Hsk : stream_ok (new_stream (malloc 4) 4)).
  { rewrite <- Hm at 2. apply new_stream_ok; [apply malloc_bytes | lia]. }
  destruct (write_scalar_appended 4 (new_stream (malloc 4) 4) target) as (s5 & Hw & Happ); try done; try lia.
  cbn [write scalar_codec sval]. rewrite Hw. cbn [mbind result_bind]. do 3 f_equal.
  destruct Happ as [Hok5 Hlen Hend Hnum _ Hbits]. rewrite length_int_bits in Hnum.
  cbn [new_stream _init bs_base bs_bit_num] in *.
  assert (H5 : bs_bit_num s5 = 8 * 4) by (rewrite Hnum; lia).
  pose proof (written_bytes s5 4 Hok5 H5) as Hwb. rewrite take_ge in Hwb by (unfold blen in *; lia).
  apply byte_bits_inj; [apply Hok5 | apply is_bytes_le_bytes |].
  rewrite Hwb, Hbits, byte_bits_le_bytes. done.
Qed.

Lemma check_solution_accepts m target c i s :
  let d := get_current_difficulty m in
  let table := if s =? _current_nonce m then _current_nonce_table m else _last_nonce_table m in
  0 <= d <= 256 -> table_ok table -> s = _current_nonce m \/ s = _last_nonce m ->
  solves target c s d i = true ->
  exists m' code, check_solution m target c s d i = Ok (m', code) /\
    (code = success <-> ~ in_table c table).
Proof.
  intros d table Hd Htab Hsel Hyes.
  unfold check_solution. fold (get_current_difficulty m). fold d.
  rewrite Z.eqb_refl, check_one_solution_spec by done. cbn [negb mbind result_bind]. rewrite Hyes. cbn [negb].
  destruct (check_add_spec table c Htab) as (t & added & Hadd & _ & Ha & _).
  unfold table in *. destruct (Z.eqb_spec s (_current_nonce m)) as [->|Hne].
  - rewrite Hadd. cbn [mbind result_bind]. destruct added; cbn [negb];
      (do 2 eexists; split; [done|]; rewrite <- Ha; done).
  - destruct (Z.eqb_spec s (_last_nonce m)) as [->|]; [|by destruct Hsel].
    rewrite Hadd. cbn [mbind result_bind]. destruct added; cbn [negb];
      (do 2 eexists; split; [done|]; rewrite <- Ha; done).
Qed.

(** C19. The puzzle game is fair.  If the puzzle of a difficulty up to 256 has a solution, and
    [target] is the least one, the client's solver - run long enough and not cancelled -
    answers with it; and the server accepts that answer for either of the nonces in
    force, unless the client nonce has already been used with it. *)
Theorem puzzle_solution_accepted fuel m target c i s :
  is_u64 c -> is_u64 s -> is_u32 i -> is_u32 target -> (Z.to_nat target < fuel)%nat ->
  let d := get_current_difficulty m in
  let table := if s =? _current_nonce m then _current_nonce_table m else _last_nonce_table m in
  0 <= d <= 256 -> table_ok table -> s = _current_nonce m \/ s = _last_nonce m ->
  (forall x, 0 <= x < target -> solves x c s d i = false) -> solves target c s d i = true ->
  process_request fuel (fun _ => false) (puzzle_request c s d i) =
    Ok (Some (byte_buffer.mk (le_bytes 4 target))) /\
  exists m' code, check_solution m target c s d i = Ok (m', code) /\
    (code = success <-> ~ in_table c table).
Proof.
  intros Hc Hs Hi Ht Hf d table Hd Htab Hsel Hno Hyes.
  split; [by apply process_request_spec | by apply check_solution_accepts].
Qed.
End replay.

(** A manager that has accepted nobody yet, with a puzzle of two bits. *)
Definition small_manager : client_puzzle_manager :=
  mk_manager 2 0 0 6 7 empty_nonce_table empty_nonce_table.

Lemma small_puzzle : solves 0 1 6 2 9 = false /\ solves 1 1 6 2 9 = false /\ solves 2 1 6 2 9 = true.
Proof. vm_compute. done. Qed.

Lemma puzzle_solution_accepted_witness :
  process_request 3 (fun _ => false) (puzzle_request 1 6 2 9) = Ok (Some (byte_buffer.mk (le_bytes 4 2))) /\
  exists m' code, check_solution small_manager 2 1 6 2 9 = Ok (m', code) /\
    (code = success <-> ~ in_table 1 empty_nonce_table).
Proof.
  destruct small_puzzle as (H0 & H1 & H2).
  refine (puzzle_solution_accepted 3 small_manager 2 1 9 6 _ _ _ _ _ _ _ _ _ H2).
  1-4: split; lia.
  - lia.
  - cbn. lia.
  - exact empty_table_ok.
  - by left.
  - intros x Hx. assert (x = 0 \/ x = 1) as [->| ->] by lia; [exact H0 | exact H1].
Defined.
