(* ===== verification/AsymmetricKey.v ===== *)
(** * Key exchange: torque_sockets/asymmetric_key.h

    The class wraps the elliptic-curve keys of lib/libtomcrypt behind the interface [Ecc];
    [EccLaws] states what the key exchange relies on.  Signatures are in Signature. *)
From S2P Require Import Prelude Endian BitStream StreamIO EventQueue Net Cipher HashStream Sha256 BufferUtils.
#[local] Open Scope Z_scope.

(** [ecc_make_key], [ecc_import], [ecc_export] with [PK_PUBLIC] and [PK_PRIVATE], and
    [ecc_shared_secret]; [None] is a result other than [CRYPT_OK]. *)
Class Ecc `{Prng} : Type := {
  crypto_key : Type;
  ecc_make_key : prng_state -> Z -> option crypto_key * prng_state;
  ecc_import : bytes -> option crypto_key;
  ecc_export_public : crypto_key -> option bytes;
  ecc_export_private : crypto_key -> option bytes;
  ecc_shared_secret : crypto_key -> crypto_key -> bytes
}.

(** Diffie-Hellman: an exported public key can be imported, the imported key is a function
    of the private one, and both sides compute the same secret. *)
Class EccLaws `{Ecc} : Type := {
  ecc_public : crypto_key -> crypto_key;
  ecc_is_private : crypto_key -> Prop;
  ecc_export_ok k e : ecc_export_public k = Some e ->
    is_bytes e /\ blen e <= 200 /\ ecc_import e = Some (ecc_public k);
  ecc_shared_agree a b : ecc_is_private a -> ecc_is_private b ->
    ecc_shared_secret a (ecc_public b) = ecc_shared_secret b (ecc_public a);
  ecc_shared_bytes a b : is_bytes (ecc_shared_secret a b);
  ecc_make_export s n k s' : ecc_make_key s n = (Some k, s') ->
    ecc_is_private k /\ is_Some (ecc_export_public k)
}.

(** An instance for examples: exponents of 3 modulo 65521, with the generator state as the
    private exponent. *)
#[export] Instance toy_ecc : Ecc (H := counter_prng) := {|
  crypto_key := Z * Z;
  ecc_make_key s n :=
    if 0 <? n then (Some (Z.abs (s * 7 + n) mod 101, 3 ^ (Z.abs (s * 7 + n) mod 101) mod 65521), s + 1)
    else (None, s);
  ecc_import b := if blen b =? 4 then Some (0, le_val b) else None;
  ecc_export_public k := Some (le_bytes 4 (snd k));
  ecc_export_private k := Some (le_bytes 4 (fst k));
  ecc_shared_secret a b := le_bytes 4 (snd b ^ fst a mod 65521)
|}.

Lemma pow_mod x n p : 0 < p -> 0 <= n -> (x mod p) ^ n mod p = x ^ n mod p.
Proof.
  intros Hp Hn. pattern n. apply natlike_ind; [done | | done]. intros k Hk IH.
  rewrite !Z.pow_succ_r by done. rewrite Z.mul_mod_idemp_l by lia.
  rewrite <- (Z.mul_mod_idemp_r x ((x mod p) ^ k)), IH by lia. apply Z.mul_mod_idemp_r. lia.
Qed.

#[export] Program Instance toy_ecc_laws : EccLaws (H := counter_prng) := {|
  ecc_public k := (0, snd k mod 2 ^ 32);
  ecc_is_private k := 0 <= fst k /\ snd k = 3 ^ fst k mod 65521
|}.
Next Obligation.
  intros k e [= <-]. split_and!; [apply (is_bytes_le_bytes 4) | done |].
  change (Some (0, le_val (le_bytes 4 (snd k))) = Some (0, snd k mod 2 ^ 32)).
  by rewrite (le_val_le_bytes 4 (snd k)).
Qed.
Next Obligation.
  intros [a x] [b y] [Ha ->] [Hb ->]. cbn [fst snd] in *. unfold ecc_shared_secret, toy_ecc. f_equal.
  assert (Hs : forall n, (3 ^ n mod 65521) mod 2 ^ 32 = 3 ^ n mod 65521).
  { intros n. apply Z.mod_small. pose proof (Z.mod_pos_bound (3 ^ n) 65521 ltac:(lia)). lia. }
  cbn [fst snd]. by rewrite !Hs, !pow_mod, <- !Z.pow_mul_r, Z.mul_comm by lia.
Qed.
Next Obligation. intros a b. apply (is_bytes_le_bytes 4). Qed.
Next Obligation.
  intros s n k s'. cbn. destruct (0 <? n); [|done]. intros [= <- _]. split; [|by eexists].
  split; [apply Z.mod_pos_bound; lia | done].
Qed.

Section asymmetric_key.
Context `{Machine, Ecc}.

(** [_key_data]: the constructor from a stream leaves it uninitialised. *)
Inductive key_pointer : Type := Null | Uninitialised | Points_to (k : crypto_key).

Record asymmetric_key : Type := mk_key {
  _key_data : key_pointer;
  _key_size : Z;
  _has_private_key : bool;
  _public_key : option byte_buffer;
  _private_key : option byte_buffer;
  _is_valid : bool
}.

Definition key_type_private : Z := 0.
Definition key_type_public : Z := 1.
Definition static_crypto_buffer_size : Z := 2048.

(** [load]: for a private key the size is written over the type byte of the public part
    and the first four bytes of five, so byte 4 is whatever the buffer held. *)
Definition load (key_data : key_pointer) (buffer_ptr : bytes) : result asymmetric_key :=
  let buffer_size := blen buffer_ptr in
  b0 ← bget buffer_ptr 0;
  let has_private_key := b0 =? key_type_private in
  if buffer_size <? 5 then
    Ok (mk_key key_data (u32 indeterminate) has_private_key None None false)
  else
    key_size ← read_uint32_from_buffer buffer_ptr 1;
    match ecc_import (drop 5 buffer_ptr) with
    | None => Ok (mk_key key_data key_size has_private_key None None false)
    | Some the_key =>
        if has_private_key then
          static_crypto_buffer ← bset (malloc static_crypto_buffer_size) 0 key_type_public;
          static_crypto_buffer ← write_uint32_to_buffer key_size static_crypto_buffer 0;
          match ecc_export_public the_key with
          | None => Ok (mk_key (Points_to the_key) key_size has_private_key None None false)
          | Some e =>
              Ok (mk_key (Points_to the_key) key_size has_private_key
                (Some (byte_buffer.mk (take 5 static_crypto_buffer ++ e)))
                (Some (byte_buffer.mk buffer_ptr)) true)
          end
        else Ok (mk_key (Points_to the_key) key_size has_private_key
               (Some (byte_buffer.mk buffer_ptr)) None true)
    end.

Definition key_of_buffer (the_buffer : byte_buffer) : result asymmetric_key :=
  load Null (byte_buffer.data the_buffer).

(** [asymmetric_key(bit_stream &)] *)
Definition key_of_stream (the_stream : bit_stream) : result (bit_stream * asymmetric_key) :=
  '(the_stream, the_buffer, _) ← byte_buffer.read_buffer the_stream;
  key ← load Uninitialised (byte_buffer.data the_buffer);
  Ok (the_stream, key).

(** [new asymmetric_key(size)]: there is no such constructor, and the size is converted
    to a [byte_buffer] of that many indeterminate bytes. *)
Definition key_of_size (size : Z) : result asymmetric_key := key_of_buffer (byte_buffer.of_size size).

(** The encoding of a key: its type, its size and the export. *)
Definition encoded (type key_size : Z) (e : bytes) : bytes := type :: be_bytes 4 key_size ++ e.

(** [asymmetric_key(key_size, random_generator)]: draws from the generator's state. *)
Definition generate_key (key_size : Z) : M random_generator asymmetric_key := fun r =>
  let '(k, s) := ecc_make_key (_random_state r) key_size in
  let r := mk_random s (_entropy_added r) in
  match k with
  | None => Ok (mk_key Null (u32 indeterminate) (Z.odd indeterminate) None None false, r)
  | Some the_key =>
      let exported (e : option bytes) := match e with Some e => e | None => malloc (static_crypto_buffer_size - 5) end in
      Ok (mk_key (Points_to the_key) key_size true
        (Some (byte_buffer.mk (encoded key_type_public key_size (exported (ecc_export_public the_key)))))
        (Some (byte_buffer.mk (encoded key_type_private key_size (exported (ecc_export_private the_key))))) true, r)
  end.

Definition deref_key (p : key_pointer) : result crypto_key :=
  match p with Points_to k => Ok k | _ => Fault null_deref end.

Definition compute_shared_secret_key (self publicKey : asymmetric_key) : result (option byte_buffer) :=
  if negb (_key_size publicKey =? _key_size self) || negb (_has_private_key self) then Ok None else
  a ← deref_key (_key_data self);
  b ← deref_key (_key_data publicKey);
  let secret := ecc_shared_secret a b in
  hash ← sha256_of secret (blen secret);
  Ok (Some (byte_buffer.mk hash)).

(** [the_key->get_public_key()], which the callers go on to read. *)
Definition get_public_key (k : asymmetric_key) : result byte_buffer := of_option null_deref (_public_key k).

(** A key pair that was generated, and what the peer makes of its public part. *)
Definition key_pair `{!EccLaws} (k : asymmetric_key) (ck : crypto_key) (e : bytes) : Prop :=
  _key_data k = Points_to ck /\ _has_private_key k = true /\ is_u32 (_key_size k) /\
  ecc_is_private ck /\ ecc_export_public ck = Some e /\
  _public_key k = Some (byte_buffer.mk (encoded key_type_public (_key_size k) e)).

Lemma be_bytes_is_bytes n v : is_bytes (be_bytes n v).
Proof. apply Forall_rev, is_bytes_le_bytes. Qed.

Lemma length_be_bytes n v : length (be_bytes n v) = n.
Proof. unfold be_bytes. by rewrite length_rev, length_le_bytes. Qed.

(** Reading an encoded public key back. *)
Lemma load_encoded `{!EccLaws} p ck e size :
  is_u32 size -> ecc_export_public ck = Some e ->
  load p (encoded key_type_public size e) =
    Ok (mk_key (Points_to (ecc_public ck)) size false
      (Some (byte_buffer.mk (encoded key_type_public size e))) None true).
Proof.
  intros Hs He. destruct (ecc_export_ok ck e He) as (_ & _ & Hi). unfold load, encoded.
  change (bget (key_type_public :: be_bytes 4 size ++ e) 0) with (Ok key_type_public : result Z).
  cbn [mbind result_bind].
  assert (Hl : blen (key_type_public :: be_bytes 4 size ++ e) = 5 + blen e).
  { unfold blen. cbn [length]. rewrite length_app, length_be_bytes. lia. }
  rewrite Hl. pose proof (blen_nonneg e). destruct (Z.ltb_spec (5 + blen e) 5); [lia|].
  assert (Hr : read_uint32_from_buffer (key_type_public :: be_bytes 4 size ++ e) 1 = Ok size).
  { rewrite <- (read_write_uint32 size (key_type_public :: be_bytes 4 size ++ e) 1) by (done || lia). f_equal. }
  rewrite Hr. cbn [mbind result_bind].
  change (drop 5 (key_type_public :: be_bytes 4 size ++ e)) with (drop 4 (be_bytes 4 size ++ e)).
  assert (drop 4 (be_bytes 4 size ++ e) = e) as -> by done. by rewrite Hi.
Qed.

Lemma generate_key_pair `{!EccLaws} size r k r' :
  is_u32 size -> generate_key size r = Ok (k, r') -> _is_valid k = true ->
  exists ck e, key_pair k ck e /\ _key_size k = size.
Proof.
  intros Hs. unfold generate_key. destruct (ecc_make_key _ _) as [[ck|] s] eqn:Hm; intros [= <- <-]; [|done].
  intros _. destruct (ecc_make_export _ _ _ _ Hm) as [Hp [e He]]. exists ck, e. unfold key_pair. cbn. by rewrite He.
Qed.

Lemma shared_secret_ok `{!EccLaws} k ck e ck' size b :
  key_pair k ck e -> size = _key_size k ->
  compute_shared_secret_key k (mk_key (Points_to (ecc_public ck')) size false (Some b) None true) =
    Ok (Some (byte_buffer.mk (sha256_spec (ecc_shared_secret ck (ecc_public ck'))))).
Proof.
  intros (Hd & Hp & _) ->. unfold compute_shared_secret_key. cbn [_key_size _key_data].
  rewrite Z.eqb_refl, Hp, Hd. cbn [negb orb deref_key mbind result_bind].
  rewrite sha256_of_spec by (unfold blen; lia). cbn [mbind result_bind].
  by rewrite take_ge by (unfold blen; lia).
Qed.

End asymmetric_key.

(** Two keys of the toy curve. *)
Definition toy_key (s : Z) : asymmetric_key :=
  match generate_key 16 (@mk_random counter_prng s 0) with Ok (k, _) => k | Fault _ => mk_key Null 0 false None None false end.

Lemma toy_key_pair s : 0 <= s -> exists ck e, key_pair (toy_key s) ck e /\ _key_size (toy_key s) = 16.
Proof.
  intros Hs. destruct (generate_key 16 (@mk_random counter_prng s 0)) as [[k r]|] eqn:Hg; [|done].
  assert (toy_key s = k) as -> by (unfold toy_key; by rewrite Hg).
  assert (Hv : _is_valid k = true) by (injection Hg as <- _; done).
  destruct (generate_key_pair 16 (@mk_random counter_prng s 0) k r ltac:(split; lia) Hg Hv) as (ck & e & Hkp & Hsz). eauto.
Qed.


(** A public key whose body cannot be imported leaves [_key_data] uninitialised when it is read
    from a stream, and [compute_shared_secret_key] follows it: [_handle_connect_request] does
    not ask whether the key it has read is valid. *)
Example invalid_key_is_followed :
  (pub ← load Uninitialised (encoded key_type_public 16 [1; 2; 3]);
   compute_shared_secret_key (toy_key 1) pub) = Fault null_deref.
Proof. vm_compute. done. Qed.
