(* ===== verification/Signature.v ===== *)
(** * Signatures: torque_sockets/asymmetric_key.h

    [hash_and_sign] and [verify_signature] hash a buffer and leave the rest to the elliptic
    curves of lib/libtomcrypt, here the interface [Ecdsa] with the law that a signature is
    accepted under the public key of its maker.  No part of the program calls them. *)
From S2P Require Import Prelude Endian BitStream StreamIO EventQueue Net Cipher HashStream Sha256 BufferUtils AsymmetricKey.
#[local] Open Scope Z_scope.

(** [ecc_sign_hash], where [None] is a result other than [CRYPT_OK] - a key that is not private,
    for one - and [ecc_verify_hash], of which only [stat] is looked at. *)
Class Ecdsa `{Ecc} : Type := {
  ecc_sign_hash : bytes -> prng_state -> crypto_key -> option bytes * prng_state;
  ecc_verify_hash : bytes -> bytes -> crypto_key -> bool
}.

Class EcdsaLaws `{Ecdsa, !EccLaws} : Prop := {
  ecc_sign_private h s k : ecc_is_private k -> is_Some (fst (ecc_sign_hash h s k));
  ecc_verify_signed h s k sig s' :
    ecc_is_private k -> ecc_sign_hash h s k = (Some sig, s') -> ecc_verify_hash sig h (ecc_public k) = true
}.

Section signature.
Context `{Machine, Ecdsa}.

(** Neither looks at the result code: without a signature [outlen] is still the size of the
    buffer on the stack, and the bytes are what the stack held. *)
Definition hash_and_sign (self : asymmetric_key) (buffer : bytes) (buffer_size : Z) : M random_generator byte_buffer := fun r =>
  hash ← sha256_of buffer buffer_size;
  k ← deref_key (_key_data self);
  let '(sig, s) := ecc_sign_hash hash (_random_state r) k in
  let static_crypto_buffer := match sig with Some sig => sig | None => malloc static_crypto_buffer_size end in
  Ok (byte_buffer.mk static_crypto_buffer, mk_random s (_entropy_added r)).

Definition verify_signature (self : asymmetric_key) (signed_bytes : bytes) (signed_bytes_size : Z)
    (the_signature : byte_buffer) : result bool :=
  hash ← sha256_of signed_bytes signed_bytes_size;
  k ← deref_key (_key_data self);
  Ok (ecc_verify_hash (byte_buffer.data the_signature) hash k).

(** The destructor frees the key it points to. *)
Definition destroy_key (self : asymmetric_key) : result unit :=
  match _key_data self with Uninitialised => Fault null_deref | _ => Ok tt end.

End signature.

(** The toy keys sign by writing the digest and their public half next to each other; keys
    whose private half is 0 sign nothing. *)
#[export] Instance toy_ecdsa : Ecdsa (H0 := toy_ecc) := {|
  ecc_sign_hash h s k := if (fst k =? 0) && negb (snd k =? 1) then (None, s) else (Some (h ++ le_bytes 4 (snd k)), s + 1);
  ecc_verify_hash sig h k := bool_decide (sig = h ++ le_bytes 4 (snd k))
|}.

#[export] Instance toy_ecdsa_laws : EcdsaLaws (H1 := toy_ecdsa) (H2 := toy_ecc_laws).
Proof.
  split.
  - intros h s [a b] [Ha Hb]. cbn in *. destruct (Z.eqb_spec a 0); [|by eexists]. subst a.
    rewrite Hb. by eexists.
  - intros h s [a b] sig s' [Ha Hb]. cbn in *. destruct (_ && _); [done|]. intros [= <- <-].
    apply bool_decide_eq_true_2. f_equal. assert (b mod 2 ^ 32 = b) as ->; [|done].
    apply Z.mod_small. subst b. pose proof (Z.mod_pos_bound (3 ^ a) 65521 ltac:(lia)). lia.
Qed.

