(* ===== verification/ThreadQueue.v ===== *)
(** * Queues of worker threads: core/thread_queue.h

    The main thread posts requests, cancels them and polls for results; worker threads take
    requests and finish them.  Every section the source runs under [_lock] is one step, and
    so is the unlocked assignment that ends a request.  The theorem is about every
    interleaving of these steps, for any number of workers. *)
From S2P Require Import Prelude.
#[local] Open Scope Z_scope.

Notation ptr := positive.

Inductive process_status : Type := not_yet_processed | in_process | process_complete.

#[export] Instance process_status_eq_dec : EqDecision process_status.
Proof. solve_decision. Defined.

Section thread_queue.
Context {Req Resp : Type}.

(** [process_record]; [progress] is written by nobody. *)
Record process_record : Type := mk_record {
  pr_state : process_status;
  request_index : Z;
  request_buffer : Req;
  response_buffer : option Resp;
  cancelled : bool
}.

(** [_process_list] holds pointers; each is kept here with what it points to, since a record
    belongs to exactly one place of the list. *)
Record thread_queue : Type := mk_tq {
  _current_index : Z;
  _process_list : list (ptr * process_record);
  tq_next : ptr
}.

Definition empty_thread_queue : thread_queue := mk_tq 0 [] 1%positive.

(** [post_request] *)
Definition post_request (the_request : Req) (q : thread_queue) : thread_queue * Z :=
  let index := _current_index q in
  (mk_tq (u32 (index + 1))
     (_process_list q ++ [(tq_next q, mk_record not_yet_processed index the_request None false)])
     (Pos.succ (tq_next q)), index).

(** The loop of [get_next_result]: cancelled results are dropped on the way. *)
Fixpoint next_result (l : list (ptr * process_record)) : list (ptr * process_record) * option process_record :=
  match l with
  | [] => ([], None)
  | (p, rec) :: l =>
      if decide (pr_state rec = process_complete) then
        if cancelled rec then next_result l else (l, Some rec)
      else let '(l, found) := next_result l in ((p, rec) :: l, found)
  end.

Definition get_next_result (q : thread_queue) : thread_queue * option (option Resp * Z) :=
  let '(l, found) := next_result (_process_list q) in
  (mk_tq (_current_index q) l (tq_next q),
   (fun rec => (response_buffer rec, request_index rec)) <$> found).

Definition with_status (s : process_status) (r : process_record) : process_record :=
  mk_record s (request_index r) (request_buffer r) (response_buffer r) (cancelled r).
Definition with_cancelled (r : process_record) : process_record :=
  mk_record (pr_state r) (request_index r) (request_buffer r) (response_buffer r) true.
Definition with_response (resp : option Resp) (r : process_record) : process_record :=
  mk_record process_complete (request_index r) (request_buffer r) resp (cancelled r).

(** The loop of [cancel_request]: the first record with the index. *)
Fixpoint cancel (index : Z) (l : list (ptr * process_record)) : list (ptr * process_record) * bool :=
  match l with
  | [] => ([], false)
  | (p, rec) :: l =>
      if request_index rec =? index then
        if bool_decide (pr_state rec = not_yet_processed) || bool_decide (pr_state rec = process_complete)
        then (l, true) else ((p, with_cancelled rec) :: l, true)
      else let '(l, found) := cancel index l in ((p, rec) :: l, found)
  end.

Definition cancel_request (index : Z) (q : thread_queue) : thread_queue * bool :=
  let '(l, found) := cancel index (_process_list q) in (mk_tq (_current_index q) l (tq_next q), found).

(** [dispatch_next_call], in two parts: up to [unlock], where a worker takes the first
    request that waits, and from the return of [process_request] on. *)
Fixpoint take_first (l : list (ptr * process_record)) : list (ptr * process_record) * option ptr :=
  match l with
  | [] => ([], None)
  | (p, rec) :: l =>
      if decide (pr_state rec = not_yet_processed) then ((p, with_status in_process rec) :: l, Some p)
      else let '(l, found) := take_first l in ((p, rec) :: l, found)
  end.

Definition dispatch_begin (q : thread_queue) : thread_queue * option ptr :=
  let '(l, found) := take_first (_process_list q) in (mk_tq (_current_index q) l (tq_next q), found).

(** Writes through the worker's pointer; the record must still be there. *)
Fixpoint finish (p : ptr) (resp : option Resp) (l : list (ptr * process_record))
    : result (list (ptr * process_record)) :=
  match l with
  | [] => Fault null_deref
  | (p', rec) :: l =>
      if decide (p' = p) then Ok ((p, with_response resp rec) :: l)
      else l ← finish p resp l; Ok ((p', rec) :: l)
  end.

Definition dispatch_end (p : ptr) (resp : option Resp) (q : thread_queue) : result thread_queue :=
  l ← finish p resp (_process_list q); Ok (mk_tq (_current_index q) l (tq_next q)).

(** ** Interleavings *)

(** [answers req seen resp]: [process_request] may leave [resp] for [req], [seen] telling
    whether [*cancelled] may have been set while it ran. *)
Variable answers : Req -> bool -> option Resp -> Prop.

Inductive label : Type :=
  | Posted (index : Z) (req : Req)
  | Delivered (index : Z) (resp : option Resp)
  | Cancelled (index : Z)
  | Internal.

(** A queue, and the records its workers are busy with. *)
Notation system := (thread_queue * list ptr)%type.

Definition rec_at (q : thread_queue) (p : ptr) (r : process_record) : Prop := (p, r) ∈ _process_list q.

Inductive step : system -> label -> system -> Prop :=
  | step_post q busy req q' i :
      post_request req q = (q', i) -> step (q, busy) (Posted i req) (q', busy)
  | step_result q busy q' resp i :
      get_next_result q = (q', Some (resp, i)) -> step (q, busy) (Delivered i resp) (q', busy)
  | step_no_result q busy q' :
      get_next_result q = (q', None) -> step (q, busy) Internal (q', busy)
  | step_cancel q busy i q' :
      cancel_request i q = (q', true) -> step (q, busy) (Cancelled i) (q', busy)
  | step_no_cancel q busy i q' :
      cancel_request i q = (q', false) -> step (q, busy) Internal (q', busy)
  | step_begin q busy q' p :
      dispatch_begin q = (q', Some p) -> step (q, busy) Internal (q', p :: busy)
  | step_idle q busy q' :
      dispatch_begin q = (q', None) -> step (q, busy) Internal (q', busy)
  | step_end q busy p r resp q' b1 b2 :
      busy = b1 ++ p :: b2 -> rec_at q p r -> answers (request_buffer r) (cancelled r) resp ->
      dispatch_end p resp q = Ok q' -> step (q, busy) Internal (q', b1 ++ b2).

(** The trace is kept newest label first. *)
Inductive run : list label -> system -> Prop :=
  | run_start : run [] (empty_thread_queue, [])
  | run_step t s l s' : run t s -> step s l s' -> run (l :: t) s'.

Definition posts (t : list label) : list (Z * Req) :=
  omap (fun l => match l with Posted i r => Some (i, r) | _ => None end) t.
Definition deliveries (t : list label) : list (Z * option Resp) :=
  omap (fun l => match l with Delivered i r => Some (i, r) | _ => None end) t.
Definition cancels (t : list label) : list Z :=
  omap (fun l => match l with Cancelled i => Some i | _ => None end) t.

(** *** What the loops do to the list *)
Notation entry := (ptr * process_record)%type.
Definition index_of (e : entry) : Z := request_index e.2.

Lemma next_result_spec l l' found :
  next_result l = (l', found) ->
  l' `sublist_of` l /\ (forall e, e ∈ l -> pr_state e.2 <> process_complete -> e ∈ l') /\
  match found with
  | Some rec => pr_state rec = process_complete /\ cancelled rec = false /\
      exists p, (p, rec) ∈ l /\ (NoDup (index_of <$> l) -> request_index rec ∉ index_of <$> l')
  | None => True
  end.
Proof.
  revert l'. induction l as [|[p rec] l IH]; intros l' Hn; cbn in Hn.
  { injection Hn as <- <-. split_and!; [done | done | done]. }
  destruct (decide (pr_state rec = process_complete)) as [Hc|Hc].
  - destruct (cancelled rec) eqn:Hcan.
    + destruct (IH l' Hn) as (Hs & Hk & Hf). split; [by constructor|]. split.
      * intros e [->|He]%elem_of_cons Hne; [done | auto].
      * destruct found as [r|]; [|done]. destruct Hf as (? & ? & p' & Hp & Hx). split; [done|]. split; [done|].
        exists p'. split; [by apply elem_of_cons; right|]. intros [_ Hnd]%list.NoDup_cons. auto.
    + injection Hn as <- <-. split; [by constructor|]. split.
      * intros e [->|He]%elem_of_cons Hne; done.
      * split; [done|]. split; [done|]. exists p. split; [by apply elem_of_cons; left|].
        by intros [? _]%list.NoDup_cons.
  - destruct (next_result l) as [l1 f1] eqn:Hl. injection Hn as <- <-.
    destruct (IH l1 eq_refl) as (Hs & Hk & Hf). split; [by constructor|]. split.
    + intros e [->|He]%elem_of_cons Hne; apply elem_of_cons; auto.
    + destruct f1 as [r|]; [|done]. destruct Hf as (? & ? & p' & Hp & Hx). split; [done|]. split; [done|].
      exists p'. split; [by apply elem_of_cons; right|]. cbn [fmap list_fmap]. intros [Hni Hnd]%list.NoDup_cons.
      apply not_elem_of_cons. split; [|auto]. intros Heq. apply Hni.
      rewrite <- Heq. by apply (list_elem_of_fmap_2 index_of l (p', r)).
Qed.

Lemma cancel_spec i l l' found :
  cancel i l = (l', found) ->
  if found then
    exists l1 p r l2, l = l1 ++ (p, r) :: l2 /\ request_index r = i /\
      (pr_state r <> in_process /\ l' = l1 ++ l2 \/
       pr_state r = in_process /\ l' = l1 ++ (p, with_cancelled r) :: l2)
  else l' = l.
Proof.
  revert l'. induction l as [|[p rec] l IH]; intros l' Hn; cbn in Hn.
  { by injection Hn as <- <-. }
  destruct (Z.eqb_spec (request_index rec) i) as [Hi|Hi].
  - destruct (pr_state rec) eqn:Hs; cbn in Hn; injection Hn as <- <-;
      exists [], p, rec, l; rewrite Hs; (split_and!; [done | done |]); [left | right | left]; done.
  - destruct (cancel i l) as [l1 f1]. injection Hn as <- <-. specialize (IH l1 eq_refl).
    destruct f1; [|by rewrite IH]. destruct IH as (l2 & p' & r & l3 & -> & Hr & Hcase).
    exists ((p, rec) :: l2), p', r, l3. split_and!; [done | done |].
    destruct Hcase as [[? ->]|[? ->]]; [left | right]; done.
Qed.

Lemma take_first_spec l l' found :
  take_first l = (l', found) ->
  match found with
  | Some p => exists l1 r l2, l = l1 ++ (p, r) :: l2 /\ pr_state r = not_yet_processed /\
      l' = l1 ++ (p, with_status in_process r) :: l2
  | None => l' = l
  end.
Proof.
  revert l'. induction l as [|[p rec] l IH]; intros l' Hn; cbn in Hn.
  { by injection Hn as <- <-. }
  destruct (decide (pr_state rec = not_yet_processed)).
  - injection Hn as <- <-. by exists [], rec, l.
  - destruct (take_first l) as [l1 f1]. injection Hn as <- <-. specialize (IH l1 eq_refl).
    destruct f1; [|by rewrite IH]. destruct IH as (l2 & r & l3 & -> & Hr & ->).
    by exists ((p, rec) :: l2), r, l3.
Qed.

Lemma finish_spec p resp r l :
  (p, r) ∈ l -> NoDup (fst <$> l) ->
  exists l1 l2, l = l1 ++ (p, r) :: l2 /\ finish p resp l = Ok (l1 ++ (p, with_response resp r) :: l2).
Proof.
  induction l as [|[p' rec] l IH]; intros Hin Hnd; [by apply not_elem_of_nil in Hin|].
  cbn [fmap list_fmap] in Hnd. apply list.NoDup_cons in Hnd as [Hp' Hnd]. cbn [finish].
  destruct (decide (p' = p)) as [->|Hne].
  - apply elem_of_cons in Hin as [[= ->]|Hin]; [by exists [], l|].
    destruct Hp'. by apply (list_elem_of_fmap_2 fst l (p, r)).
  - apply elem_of_cons in Hin as [[= <- _]|Hin]; [done|].
    destruct (IH Hin Hnd) as (l1 & l2 & -> & ->). by exists ((p', rec) :: l1), l2.
Qed.

Lemma NoDup_middle {A} (x : A) l1 l2 : NoDup (l1 ++ x :: l2) <-> x ∉ l1 ++ l2 /\ NoDup (l1 ++ l2).
Proof. by rewrite <- Permutation_middle, list.NoDup_cons. Qed.

(** *** The invariant *)
Record record_ok (t : list label) (r : process_record) : Prop := {
  ro_posted : (request_index r, request_buffer r) ∈ posts t;
  ro_fresh : request_index r ∉ (deliveries t).*1;
  ro_live : cancelled r = false -> request_index r ∉ cancels t;
  ro_answer : pr_state r = process_complete -> cancelled r = false ->
    answers (request_buffer r) false (response_buffer r)
}.

Record list_ok (t : list label) (l : list entry) : Prop := {
  lo_ptrs : NoDup l.*1;
  lo_indices : NoDup (index_of <$> l);
  lo_records e : e ∈ l -> record_ok t e.2
}.

Record run_ok (t : list label) (s : system) : Prop := {
  rk_list : list_ok t (_process_list s.1);
  rk_next e : e ∈ _process_list s.1 -> (e.1 < tq_next s.1)%positive;
  rk_index : _current_index s.1 = Z.of_nat (length (posts t));
  rk_posts i req : (i, req) ∈ posts t -> i < Z.of_nat (length (posts t));
  rk_cancels i : i ∈ cancels t -> i ∈ (posts t).*1;
  rk_busy p : p ∈ s.2 -> exists r, rec_at s.1 p r /\ pr_state r = in_process;
  rk_busy_nodup : NoDup s.2;
  rk_once : NoDup (deliveries t).*1;
  rk_delivered i resp : (i, resp) ∈ deliveries t ->
    i ∉ cancels t /\ exists req, (i, req) ∈ posts t /\ answers req false resp
}.

Lemma list_ok_sublist t l l' : l' `sublist_of` l -> list_ok t l -> list_ok t l'.
Proof.
  intros Hs [Hp Hi Hr]. split.
  - eapply sublist_NoDup; [exact Hp|]. by apply fmap_sublist.
  - eapply sublist_NoDup; [exact Hi|]. by apply fmap_sublist.
  - intros e He. apply Hr. by eapply elem_of_sublist.
Qed.

(** One record replaced by another with the same index. *)
Lemma list_ok_replace t l1 p r r' l2 :
  list_ok t (l1 ++ (p, r) :: l2) -> request_index r' = request_index r -> record_ok t r' ->
  list_ok t (l1 ++ (p, r') :: l2).
Proof.
  intros [Hp Hi Hr] Heq Hok. split.
  - by rewrite fmap_app, fmap_cons in *.
  - rewrite fmap_app, fmap_cons in *. change (index_of (p, r')) with (request_index r'). by rewrite Heq.
  - intros e [He|[->|He]%elem_of_cons]%elem_of_app; [| done |].
    + apply Hr. apply elem_of_app. by left.
    + apply Hr. apply elem_of_app. right. apply elem_of_cons. by right.
Qed.

(** A label other than a delivery or a cancellation leaves the records as they are. *)
Lemma list_ok_label t l lab :
  (forall i r, lab <> Delivered i r) -> (forall i, lab <> Cancelled i) ->
  list_ok t l -> list_ok (lab :: t) l.
Proof.
  intros Hd Hc [Hp Hi Hr]. split; [done | done |]. intros e He. destruct (Hr e He) as [H1 H2 H3 H4].
  destruct lab as [i req|i resp|i|]; [| by destruct (Hd i resp) | by destruct (Hc i) |]; split; try done.
  cbn. apply elem_of_cons. by right.
Qed.

Lemma elem_of_middle {A} (x y : A) l1 l2 : x ∈ l1 ++ y :: l2 <-> x = y \/ x ∈ l1 ++ l2.
Proof. rewrite !elem_of_app, elem_of_cons. tauto. Qed.

Lemma run_ok_bound t s i : run_ok t s -> i ∈ (posts t).*1 -> i < Z.of_nat (length (posts t)).
Proof. intros Hr ([j req] & -> & Hin)%list_elem_of_fmap. by eapply rk_posts. Qed.

Lemma run_ok_index t s e : run_ok t s -> e ∈ _process_list s.1 -> index_of e ∈ (posts t).*1.
Proof.
  intros Hr He. destruct (lo_records _ _ (rk_list _ _ Hr) e He) as [Hp _ _ _].
  by apply (list_elem_of_fmap_2 fst (posts t) (request_index e.2, request_buffer e.2)).
Qed.

Lemma run_ok_delivered_posted t s i : run_ok t s -> i ∈ (deliveries t).*1 -> i ∈ (posts t).*1.
Proof.
  intros Hr ([j resp] & -> & Hin)%list_elem_of_fmap.
  destruct (rk_delivered _ _ Hr j resp Hin) as (_ & req & Hp & _).
  by apply (list_elem_of_fmap_2 fst (posts t) (j, req)).
Qed.

(** The records of the queue, with the same indices and pointers, and the same trace. *)
Lemma run_ok_edit t q busy l' busy' :
  run_ok t (q, busy) -> list_ok t l' ->
  (forall e, e ∈ l' -> exists e', e' ∈ _process_list q /\ e.1 = e'.1) ->
  (forall p, p ∈ busy' -> exists r, (p, r) ∈ l' /\ pr_state r = in_process) -> NoDup busy' ->
  run_ok (Internal :: t) (mk_tq (_current_index q) l' (tq_next q), busy').
Proof.
  intros [Hl Hn Hi Hpb Hc Hb Hbn Ho Hd] Hl' Hsub Hbusy Hnd. split; cbn; try done.
  - by apply list_ok_label.
  - intros e He. destruct (Hsub e He) as (e' & He' & ->). by apply Hn.
Qed.

Lemma post_ok t q busy req q' i :
  run_ok t (q, busy) -> Z.of_nat (length (posts t)) + 1 < 2 ^ 32 -> post_request req q = (q', i) ->
  run_ok (Posted i req :: t) (q', busy).
Proof.
  intros Hr Hlt [= <- <-]. pose proof Hr as [Hl Hn Hi Hpb Hc Hb Hbn Ho Hd]. cbn in Hi, Hn, Hl.
  assert (Hps : posts (Posted (_current_index q) req :: t) = (_current_index q, req) :: posts t) by done.
  assert (Hfresh : _current_index q ∉ (posts t).*1).
  { intros Hin. apply (run_ok_bound _ _ _ Hr) in Hin. lia. }
  destruct (list_ok_label t _ (Posted (_current_index q) req) ltac:(done) ltac:(done) Hl) as [Hp1 Hi1 Hr1].
  split; cbn [fst snd _process_list _current_index tq_next]; try done.
  - split.
    + rewrite fmap_app. cbn. apply list.NoDup_app. split_and!; [done | | apply NoDup_singleton].
      intros x (e & -> & He)%list_elem_of_fmap Hx%list_elem_of_singleton. apply Hn in He. lia.
    + rewrite fmap_app. cbn. apply list.NoDup_app. split_and!; [done | | apply NoDup_singleton].
      intros x (e & -> & He)%list_elem_of_fmap Hx%list_elem_of_singleton.
      apply Hfresh. change (index_of e = _current_index q) in Hx. rewrite <- Hx. by apply (run_ok_index _ _ _ Hr).
    + intros e [He| ->%list_elem_of_singleton]%elem_of_app; [by apply Hr1|]. cbn. split; cbn; try done.
      * by apply elem_of_cons; left.
      * intros Hin. apply Hfresh. by apply (run_ok_delivered_posted _ _ _ Hr).
      * intros _ Hin. by apply Hfresh, Hc.
  - intros e [He| ->%list_elem_of_singleton]%elem_of_app; cbn; [|lia]. apply Hn in He. lia.
  - rewrite Hps. cbn [length]. rewrite u32_small by (unfold in_u; lia). lia.
  - rewrite Hps. intros j r [[= -> ->]|Hin]%elem_of_cons; cbn [length]; [lia|]. apply Hpb in Hin. lia.
  - intros j Hj. apply elem_of_cons. right. by apply Hc.
  - intros p Hp. destruct (Hb p Hp) as (r & Hr' & Hs). exists r. split; [|done].
    unfold rec_at. cbn. apply elem_of_app. by left.
  - intros j resp Hin. destruct (Hd j resp Hin) as (? & req' & ? & ?). split; [done|].
    exists req'. split; [|done]. by apply elem_of_cons; right.
Qed.

Lemma busy_survive (l l' : list entry) (busy : list ptr) :
  (forall p, p ∈ busy -> exists r, (p, r) ∈ l /\ pr_state r = in_process) ->
  (forall e, e ∈ l -> pr_state e.2 <> process_complete -> e ∈ l') ->
  forall p, p ∈ busy -> exists r, (p, r) ∈ l' /\ pr_state r = in_process.
Proof.
  intros Hb Hk p Hp. destruct (Hb p Hp) as (r & Hr & Hs). exists r. split; [|done].
  apply Hk; [done|]. cbn. by rewrite Hs.
Qed.

Lemma result_ok t q busy q' resp i :
  run_ok t (q, busy) -> get_next_result q = (q', Some (resp, i)) -> run_ok (Delivered i resp :: t) (q', busy).
Proof.
  intros Hr Hg. pose proof Hr as [Hl Hn Hi Hpb Hc Hb Hbn Ho Hd]. cbn in Hi, Hn, Hl, Hb.
  unfold get_next_result in Hg. destruct (next_result (_process_list q)) as [l' [r|]] eqn:Hnr; [|done].
  injection Hg as <- <- <-. destruct (next_result_spec _ _ _ Hnr) as (Hs & Hk & Hcomp & Hcan & p & Hp & Hx).
  specialize (Hx (lo_indices _ _ Hl)). destruct (lo_records _ _ Hl _ Hp) as [R1 R2 R3 R4]. cbn in R1, R2, R3, R4.
  split; cbn [fst snd _process_list _current_index tq_next]; try done.
  - destruct (list_ok_sublist _ _ _ Hs Hl) as [Hp1 Hi1 Hr1]. split; [done | done |]. intros e He.
    destruct (Hr1 e He) as [H1 H2 H3 H4]. split; try done. cbn. apply not_elem_of_cons. split; [|done].
    intros Heq. apply Hx. rewrite <- Heq. by apply (list_elem_of_fmap_2 index_of l' e).
  - intros e He. apply Hn. by eapply elem_of_sublist.
  - by eapply busy_survive.
  - cbn. by apply NoDup_cons_2.
  - intros j x [[= -> ->]|Hin]%elem_of_cons; [|by apply Hd]. split; [by apply R3|]. eauto.
Qed.

Lemma cancel_ok t q busy i q' :
  run_ok t (q, busy) -> cancel_request i q = (q', true) -> run_ok (Cancelled i :: t) (q', busy).
Proof.
  intros Hr Hc. pose proof Hr as [Hl Hn Hi Hpb Hca Hb Hbn Ho Hd]. cbn in Hi, Hn, Hl, Hb.
  unfold cancel_request in Hc. destruct (cancel i (_process_list q)) as [l' found] eqn:Hcan.
  injection Hc as <- ->. destruct (cancel_spec _ _ _ _ Hcan) as (l1 & p & r & l2 & Heq & Hix & Hcase).
  assert (Hin : (p, r) ∈ _process_list q) by (rewrite Heq; apply elem_of_middle; by left).
  destruct (lo_records _ _ Hl _ Hin) as [R1 R2 R3 R4]. cbn in R1, R2, R3, R4. rewrite Hix in R1, R2.
  (* the other records have other indices *)
  assert (Hother : forall e, e ∈ l1 ++ l2 -> record_ok (Cancelled i :: t) e.2).
  { intros e He. pose proof (lo_indices _ _ Hl) as Hnd. rewrite Heq, fmap_app, fmap_cons in Hnd.
    destruct (lo_records _ _ Hl e) as [H1 H2 H3 H4]; [rewrite Heq; apply elem_of_middle; by right|].
    split; try done. intros Hfalse. cbn. apply not_elem_of_cons. split; [|auto]. intros Hei.
    apply NoDup_middle in Hnd as [Hnd _]. apply Hnd. rewrite <- fmap_app. 
    change (index_of (p, r)) with (request_index r). rewrite Hix, <- Hei.
    by apply (list_elem_of_fmap_2 index_of _ e). }
  assert (Hdel : forall j resp, (j, resp) ∈ deliveries t -> j <> i).
  { intros j resp Hj ->. apply R2. by apply (list_elem_of_fmap_2 fst (deliveries t) (i, resp)). }
  assert (Hback : forall e, e ∈ l' -> exists e', e' ∈ _process_list q /\ e.1 = e'.1).
  { intros e He. destruct Hcase as [[_ ->]|[_ ->]].
    - exists e. split; [|done]. rewrite Heq. apply elem_of_middle. by right.
    - apply elem_of_middle in He as [->|He]; [by exists (p, r)|].
      exists e. split; [|done]. rewrite Heq. apply elem_of_middle. by right. }
  split; cbn [fst snd _process_list _current_index tq_next]; try done.
  - destruct Hcase as [[_ ->]|[Hs ->]].
    + destruct (list_ok_sublist t (_process_list q) (l1 ++ l2)) as [Hp1 Hi1 _];
        [rewrite Heq; apply sublist_app; [done | by constructor] | done |].
      by split.
    + destruct Hl as [Hp1 Hi1 _]. rewrite Heq, fmap_app, fmap_cons in Hp1. rewrite Heq, fmap_app, fmap_cons in Hi1.
      split; rewrite ?fmap_app, ?fmap_cons; [done | done |].
      intros e [->|He]%elem_of_middle; [|by apply Hother]. cbn. split; cbn; rewrite ?Hix; done.
  - intros e He. destruct (Hback e He) as (e' & He' & ->). by apply Hn.
  - cbn. intros j [->|Hj]%elem_of_cons; [|by apply Hca].
    by apply (list_elem_of_fmap_2 fst (posts t) (i, request_buffer r)).
  - intros p' Hp'. destruct (Hb p' Hp') as (r' & Hr' & Hs'). unfold rec_at in *.
    cbn [fst] in Hr'. cbn [_process_list]. rewrite Heq in Hr'.
    apply elem_of_middle in Hr' as [[= -> ->]|Hr'].
    + destruct Hcase as [[Hne _]|[_ ->]]; [done|]. exists (with_cancelled r). split; [|done].
      apply elem_of_middle. by left.
    + exists r'. split; [|done]. destruct Hcase as [[_ ->]|[_ ->]]; [done | apply elem_of_middle; by right].
  - intros j resp Hj. destruct (Hd j resp Hj) as [Hx Hy]. split; [|done]. cbn. apply not_elem_of_cons.
    split; [by eapply Hdel | done].
Qed.

Lemma no_result_ok t q busy q' :
  run_ok t (q, busy) -> get_next_result q = (q', None) -> run_ok (Internal :: t) (q', busy).
Proof.
  intros Hr Hg. unfold get_next_result in Hg. destruct (next_result (_process_list q)) as [l' [r|]] eqn:Hnr; [done|].
  injection Hg as <-. destruct (next_result_spec _ _ _ Hnr) as (Hs & Hk & _).
  apply (run_ok_edit t q busy l' busy Hr).
  - by eapply list_ok_sublist; [|apply Hr].
  - intros e He. exists e. split; [by eapply elem_of_sublist | done].
  - eapply busy_survive; [apply Hr | done].
  - apply Hr.
Qed.

Lemma begin_ok t q busy q' p :
  run_ok t (q, busy) -> dispatch_begin q = (q', Some p) -> run_ok (Internal :: t) (q', p :: busy).
Proof.
  intros Hr Hg. unfold dispatch_begin in Hg. destruct (take_first (_process_list q)) as [l' [p'|]] eqn:Ht; [|done].
  injection Hg as <- ->. destruct (take_first_spec _ _ _ Ht) as (l1 & r & l2 & Heq & Hs & ->).
  pose proof (rk_list _ _ Hr) as Hl. cbn in Hl.
  assert (Hin : (p, r) ∈ _process_list q) by (rewrite Heq; apply elem_of_middle; by left).
  assert (Hnb : p ∉ busy).
  { intros Hp. destruct (rk_busy _ _ Hr p Hp) as (r' & Hr' & Hs'). unfold rec_at in Hr'. cbn in Hr'.
    rewrite Heq in Hr'. apply elem_of_middle in Hr' as [[= ->]|Hr']; [congruence|].
    pose proof (lo_ptrs _ _ Hl) as Hnd. rewrite Heq, fmap_app, fmap_cons in Hnd.
    apply NoDup_middle in Hnd as [Hnd _]. apply Hnd. rewrite <- fmap_app.
    by apply (list_elem_of_fmap_2 fst _ (p, r')). }
  apply (run_ok_edit t q busy); try done.
  - rewrite Heq in Hl. apply (list_ok_replace t l1 p r); [done | done |].
    destruct (lo_records _ _ Hl (p, r)) as [R1 R2 R3 R4]; [apply elem_of_middle; by left|].
    by split.
  - intros e [->|He]%elem_of_middle; [by exists (p, r)|]. exists e. split; [|done].
    rewrite Heq. apply elem_of_middle. by right.
  - intros p' [->|Hp']%elem_of_cons.
    + exists (with_status in_process r). split; [|done]. apply elem_of_middle. by left.
    + destruct (rk_busy _ _ Hr p' Hp') as (r' & Hr' & Hs'). unfold rec_at in Hr'. cbn in Hr'.
      exists r'. split; [|done]. rewrite Heq in Hr'. apply elem_of_middle in Hr' as [[= -> ->]|Hr']; [congruence|].
      apply elem_of_middle. by right.
  - apply NoDup_cons_2; [done | apply Hr].
Qed.

(** A worker that is done finds its record where it left it. *)
Lemma end_ok t q b1 p b2 r resp :
  run_ok t (q, b1 ++ p :: b2) -> rec_at q p r -> answers (request_buffer r) (cancelled r) resp ->
  exists q', dispatch_end p resp q = Ok q' /\ run_ok (Internal :: t) (q', b1 ++ b2).
Proof.
  intros Hr Hat Ha. unfold rec_at in Hat. pose proof (rk_list _ _ Hr) as Hl. cbn in Hl.
  destruct (finish_spec p resp r _ Hat (lo_ptrs _ _ Hl)) as (l1 & l2 & Heq & Hf).
  unfold dispatch_end. rewrite Hf. cbn. eexists. split; [done|].
  apply (run_ok_edit t q (b1 ++ p :: b2)); try done.
  - rewrite Heq in Hl. apply (list_ok_replace t l1 p r); [done | done |].
    destruct (lo_records _ _ Hl (p, r)) as [R1 R2 R3 R4]; [apply elem_of_middle; by left|].
    split; cbn; try done. intros _ Hcan. cbn in *. by rewrite Hcan in Ha.
  - intros e [->|He]%elem_of_middle; [by exists (p, r)|]. exists e. split; [|done].
    rewrite Heq. apply elem_of_middle. by right.
  - intros p' Hp'. pose proof (rk_busy_nodup _ _ Hr) as Hnd. cbn in Hnd.
    destruct (rk_busy _ _ Hr p') as (r' & Hr' & Hs'); [cbn; apply elem_of_middle; by right|].
    unfold rec_at in Hr'. cbn in Hr'. exists r'. split; [|done]. rewrite Heq in Hr'.
    apply elem_of_middle in Hr' as [[= -> ->]|Hr']; [|apply elem_of_middle; by right].
    apply NoDup_middle in Hnd as [Hnd _]. done.
  - pose proof (rk_busy_nodup _ _ Hr) as Hnd. by apply NoDup_middle in Hnd as [_ Hnd].
Qed.

Lemma run_ok_reachable t s : run t s -> Z.of_nat (length (posts t)) < 2 ^ 32 -> run_ok t s.
Proof.
  induction 1 as [|t s l s' Hrun IH Hstep]; intros Hlt.
  { assert (Hno : forall A (x : A), x ∉ []) by (intros A x Hin; by apply not_elem_of_nil in Hin).
    split; [split|..]; cbn; try apply NoDup_nil_2; try done; try (intros; by edestruct Hno). }
  assert (Hs : run_ok t s).
  { apply IH. assert (length (posts t) <= length (posts (l :: t)))%nat; [|lia].
    destruct l; cbn; unfold posts; lia. }
  destruct Hstep as [q busy req q' i Hp|q busy q' resp i Hg|q busy q' Hg|q busy i q' Hc|q busy i q' Hc
    |q busy q' p Hb|q busy q' Hb|q busy p r resp q' b1 b2 -> Hat Ha He].
  - eapply post_ok; [done | | done]. change (posts (Posted i req :: t)) with ((i, req) :: posts t) in Hlt.
    cbn [length] in Hlt. lia.
  - by eapply result_ok.
  - by eapply no_result_ok.
  - by eapply cancel_ok.
  - unfold cancel_request in Hc. destruct (cancel i _) as [l found] eqn:Hcan. injection Hc as <- ->.
    apply cancel_spec in Hcan as ->. apply (run_ok_edit t q busy); try done; try apply Hs. eauto.
  - by eapply begin_ok.
  - unfold dispatch_begin in Hb. destruct (take_first _) as [l [|]] eqn:Ht; [done|]. injection Hb as <-.
    apply take_first_spec in Ht as ->. apply (run_ok_edit t q busy); try done; try apply Hs. eauto.
  - destruct (end_ok t q b1 p b2 r resp Hs Hat Ha) as (q1 & Hq1 & Hok). congruence.
Qed.

Lemma next_result_found l :
  (exists e, e ∈ l /\ pr_state e.2 = process_complete /\ cancelled e.2 = false) ->
  exists l' r, next_result l = (l', Some r).
Proof.
  induction l as [|[p rec] l IH]; intros (e & He & Hs & Hc); [by apply not_elem_of_nil in He|]. cbn.
  destruct (decide (pr_state rec = process_complete)) as [Hd|Hd].
  - destruct (cancelled rec) eqn:Hcan; [|eauto].
    apply IH. apply elem_of_cons in He as [->|He]; [cbn in Hc; congruence | eauto].
  - destruct IH as (l' & r & ->); [|eauto]. apply elem_of_cons in He as [->|He]; [done | eauto].
Qed.

(** C22. Whatever the order in which the main thread posts, cancels and polls and the workers
    take and finish requests (up to [2^32] requests, when the index wraps): every request
    is answered at most once; an answer carries the index of a request that was posted and
    is one its processing gave without having seen a cancellation; an answer is never
    delivered for a request whose cancellation was confirmed; no worker ever writes through
    a pointer to a deleted record; and a finished request that was not cancelled is not
    overlooked by a poll. *)
Theorem thread_queue_safe t q busy :
  run t (q, busy) -> Z.of_nat (length (posts t)) < 2 ^ 32 ->
  NoDup (deliveries t).*1 /\
  (forall i resp, (i, resp) ∈ deliveries t ->
    i ∉ cancels t /\ exists req, (i, req) ∈ posts t /\ answers req false resp) /\
  (forall p resp, p ∈ busy -> exists q', dispatch_end p resp q = Ok q') /\
  ((exists e, e ∈ _process_list q /\ pr_state e.2 = process_complete /\ cancelled e.2 = false) ->
    exists q' x, get_next_result q = (q', Some x)).
Proof.
  intros Hrun Hlt. pose proof (run_ok_reachable t _ Hrun Hlt) as Hok. split_and!.
  - apply Hok.
  - apply (rk_delivered _ _ Hok).
  - intros p resp Hp. destruct (rk_busy _ _ Hok p Hp) as (r & Hr & _).
    destruct (finish_spec p resp r _ Hr (lo_ptrs _ _ (rk_list _ _ Hok))) as (l1 & l2 & _ & Hf).
    unfold dispatch_end. cbn in Hf. rewrite Hf. by eexists.
  - intros He. destruct (next_result_found _ He) as (l' & r & Hn). unfold get_next_result. rewrite Hn. by do 2 eexists.
Qed.
End thread_queue.
Arguments thread_queue Req Resp : clear implicits.
Arguments process_record Req Resp : clear implicits.
Arguments label Req Resp : clear implicits.

(** A worker that adds one, a request that is answered and one that is cancelled. *)
Definition successor_of (req : Z) (seen : bool) (resp : option Z) : Prop := resp = Some (req + 1).

Definition sample_record (s : process_status) (resp : option Z) : process_record Z Z := mk_record s 0 41 resp false.
Definition sample_queue (n : Z) (l : list (ptr * process_record Z Z)) (next : ptr) : thread_queue Z Z := mk_tq n l next.

Lemma sample_run :
  run successor_of
    [Cancelled 1; Delivered 0 (Some 42); Internal; Internal; Posted 1 7; Posted 0 41] (sample_queue 2 [] 3, []).
Proof.
  set (waiting := (2%positive, mk_record not_yet_processed 1 7 None false) : ptr * process_record Z Z).
  apply (run_step _ _ (sample_queue 2 [waiting] 3, [])); [|by apply (step_cancel _ _ [] 1)].
  apply (run_step _ _ (sample_queue 2 [(1%positive, sample_record process_complete (Some 42)); waiting] 3, []));
    [|by apply (step_result _ _ [])].
  apply (run_step _ _ (sample_queue 2 [(1%positive, sample_record in_process None); waiting] 3, [1%positive]));
    [|apply (step_end _ _ _ 1%positive (sample_record in_process None) (Some 42) _ [] []); (left || done)].
  apply (run_step _ _ (sample_queue 2 [(1%positive, sample_record not_yet_processed None); waiting] 3, []));
    [|by apply (step_begin _ _ [])].
  apply (run_step _ _ (sample_queue 1 [(1%positive, sample_record not_yet_processed None)] 2, []));
    [|by apply (step_post _ _ [])].
  apply (run_step _ _ (empty_thread_queue, [])); [|by apply (step_post _ _ [])].
  apply run_start.
Qed.

Lemma thread_queue_safe_witness :
  NoDup (deliveries (Req := Z) [Cancelled 1; Delivered 0 (Some 42); Internal; Internal; Posted 1 7; Posted 0 41]).*1 /\
    exists req, (0, req) ∈ [(1, 7); (0, 41)] /\ successor_of req false (Some 42) /\
    forall p resp, p ∈ [] -> exists q', dispatch_end p resp (sample_queue 2 [] 3) = Ok q'.
Proof.
  destruct (thread_queue_safe successor_of _ _ [] sample_run) as (Hn & Hd & He & _); [reflexivity|].
  split; [exact Hn|].
  destruct (Hd 0 (Some 42)) as (_ & req & Hp & Ha); [by apply elem_of_cons; left|].
  exists req. split; [exact Hp | split; [exact Ha | exact He]].
Defined.
