(* ===== verification/Pending.v ===== *)
(** * Pending connections: torque_sockets/pending_connection.h

    The record of a connection being negotiated, and the singly linked list of them that a
    socket keeps ([_pending_connections]): a heap of records linked by pointers.  A list in
    good order is a chain without repetition; the operations of torque_socket.h on the list
    ([_find_pending_connection], [_add_pending_connection], [_remove_pending_connection])
    are proved against the list of records. *)
From S2P Require Import Prelude Endian StreamIO Address EventQueue Net Cipher Puzzle AsymmetricKey.
From stdpp Require Import gmap.
#[local] Open Scope Z_scope.

Inductive pending_connection_state : Type :=
  | requesting_introduction
  | sending_punch_packets
  | requesting_challenge_response
  | awaiting_local_challenge_accept
  | awaiting_connect_request
  | computing_puzzle_solution
  | requesting_connection
  | awaiting_local_accept.

Inductive pending_connection_type : Type :=
  | connection_initiator
  | connection_host
  | introduced_connection_initiator
  | introduced_connection_host.

#[export] Instance pending_connection_state_eq_dec : EqDecision pending_connection_state.
Proof. solve_decision. Defined.
#[export] Instance pending_connection_type_eq_dec : EqDecision pending_connection_type.
Proof. solve_decision. Defined.

Module pending.
Section pending.
Context `{Machine, Ecc, BlockCipher}.

(** The fields of the client puzzle, and [_state_send_retry_count],
    [_state_send_retry_interval] and [_state_last_send_time]. *)
Record puzzle_fields : Type := mk_puzzle {
  _puzzle_retried : bool;
  _puzzle_difficulty : Z;
  _puzzle_solution : Z;
  _client_identity : Z;
  _puzzle_request_index : Z
}.
Record retry_fields : Type := mk_retry {
  _state_send_retry_count : Z;
  _state_send_retry_interval : Z;
  _state_last_send_time : time
}.

Record pending_connection : Type := mk {
  _next : option loc;
  _initiator_nonce : Z;
  _host_nonce : Z;
  _initial_send_sequence : Z;
  _initial_recv_sequence : Z;
  _shared_secret : option byte_buffer;
  _introducer : Z;
  _remote_client_id : Z;
  _address : address;
  _type : pending_connection_type;
  _state : pending_connection_state;
  _connection_index : Z;
  _possible_addresses : list address;
  _symmetric_key : bytes;
  _init_vector : bytes;
  _puzzle : puzzle_fields;
  _public_key : option asymmetric_key;
  _private_key : option asymmetric_key;
  _symmetric_cipher : option symmetric_cipher;
  _retry : retry_fields;
  _packet_data : option byte_buffer
}.

Definition with_next (x : option loc) (p : pending_connection) : pending_connection :=
  mk x (_initiator_nonce p) (_host_nonce p) (_initial_send_sequence p) (_initial_recv_sequence p)
    (_shared_secret p) (_introducer p) (_remote_client_id p) (_address p) (_type p) (_state p)
    (_connection_index p) (_possible_addresses p) (_symmetric_key p) (_init_vector p) (_puzzle p)
    (_public_key p) (_private_key p) (_symmetric_cipher p) (_retry p) (_packet_data p).
Definition with_initiator_nonce (x : Z) (p : pending_connection) : pending_connection :=
  mk (_next p) x (_host_nonce p) (_initial_send_sequence p) (_initial_recv_sequence p)
    (_shared_secret p) (_introducer p) (_remote_client_id p) (_address p) (_type p) (_state p)
    (_connection_index p) (_possible_addresses p) (_symmetric_key p) (_init_vector p) (_puzzle p)
    (_public_key p) (_private_key p) (_symmetric_cipher p) (_retry p) (_packet_data p).
Definition with_host_nonce (x : Z) (p : pending_connection) : pending_connection :=
  mk (_next p) (_initiator_nonce p) x (_initial_send_sequence p) (_initial_recv_sequence p)
    (_shared_secret p) (_introducer p) (_remote_client_id p) (_address p) (_type p) (_state p)
    (_connection_index p) (_possible_addresses p) (_symmetric_key p) (_init_vector p) (_puzzle p)
    (_public_key p) (_private_key p) (_symmetric_cipher p) (_retry p) (_packet_data p).
Definition set_initial_recv_sequence (x : Z) (p : pending_connection) : pending_connection :=
  mk (_next p) (_initiator_nonce p) (_host_nonce p) (_initial_send_sequence p) x (_shared_secret
    p) (_introducer p) (_remote_client_id p) (_address p) (_type p) (_state p) (_connection_index
    p) (_possible_addresses p) (_symmetric_key p) (_init_vector p) (_puzzle p) (_public_key p)
    (_private_key p) (_symmetric_cipher p) (_retry p) (_packet_data p).
Definition set_shared_secret (x : option byte_buffer) (p : pending_connection) : pending_connection :=
  mk (_next p) (_initiator_nonce p) (_host_nonce p) (_initial_send_sequence p)
    (_initial_recv_sequence p) x (_introducer p) (_remote_client_id p) (_address p) (_type p)
    (_state p) (_connection_index p) (_possible_addresses p) (_symmetric_key p) (_init_vector p)
    (_puzzle p) (_public_key p) (_private_key p) (_symmetric_cipher p) (_retry p) (_packet_data p).
Definition with_introducer (x : Z) (p : pending_connection) : pending_connection :=
  mk (_next p) (_initiator_nonce p) (_host_nonce p) (_initial_send_sequence p)
    (_initial_recv_sequence p) (_shared_secret p) x (_remote_client_id p) (_address p) (_type p)
    (_state p) (_connection_index p) (_possible_addresses p) (_symmetric_key p) (_init_vector p)
    (_puzzle p) (_public_key p) (_private_key p) (_symmetric_cipher p) (_retry p) (_packet_data p).
Definition with_remote_client_id (x : Z) (p : pending_connection) : pending_connection :=
  mk (_next p) (_initiator_nonce p) (_host_nonce p) (_initial_send_sequence p)
    (_initial_recv_sequence p) (_shared_secret p) (_introducer p) x (_address p) (_type p) (_state
    p) (_connection_index p) (_possible_addresses p) (_symmetric_key p) (_init_vector p) (_puzzle
    p) (_public_key p) (_private_key p) (_symmetric_cipher p) (_retry p) (_packet_data p).
Definition set_address (x : address) (p : pending_connection) : pending_connection :=
  mk (_next p) (_initiator_nonce p) (_host_nonce p) (_initial_send_sequence p)
    (_initial_recv_sequence p) (_shared_secret p) (_introducer p) (_remote_client_id p) x (_type
    p) (_state p) (_connection_index p) (_possible_addresses p) (_symmetric_key p) (_init_vector
    p) (_puzzle p) (_public_key p) (_private_key p) (_symmetric_cipher p) (_retry p) (_packet_data
    p).
Definition set_state (x : pending_connection_state) (p : pending_connection) : pending_connection :=
  mk (_next p) (_initiator_nonce p) (_host_nonce p) (_initial_send_sequence p)
    (_initial_recv_sequence p) (_shared_secret p) (_introducer p) (_remote_client_id p) (_address
    p) (_type p) x (_connection_index p) (_possible_addresses p) (_symmetric_key p) (_init_vector
    p) (_puzzle p) (_public_key p) (_private_key p) (_symmetric_cipher p) (_retry p) (_packet_data
    p).
Definition with_possible_addresses (x : list address) (p : pending_connection) : pending_connection :=
  mk (_next p) (_initiator_nonce p) (_host_nonce p) (_initial_send_sequence p)
    (_initial_recv_sequence p) (_shared_secret p) (_introducer p) (_remote_client_id p) (_address
    p) (_type p) (_state p) (_connection_index p) x (_symmetric_key p) (_init_vector p) (_puzzle
    p) (_public_key p) (_private_key p) (_symmetric_cipher p) (_retry p) (_packet_data p).
Definition with_symmetric_key (x : bytes) (p : pending_connection) : pending_connection :=
  mk (_next p) (_initiator_nonce p) (_host_nonce p) (_initial_send_sequence p)
    (_initial_recv_sequence p) (_shared_secret p) (_introducer p) (_remote_client_id p) (_address
    p) (_type p) (_state p) (_connection_index p) (_possible_addresses p) x (_init_vector p)
    (_puzzle p) (_public_key p) (_private_key p) (_symmetric_cipher p) (_retry p) (_packet_data p).
Definition with_init_vector (x : bytes) (p : pending_connection) : pending_connection :=
  mk (_next p) (_initiator_nonce p) (_host_nonce p) (_initial_send_sequence p)
    (_initial_recv_sequence p) (_shared_secret p) (_introducer p) (_remote_client_id p) (_address
    p) (_type p) (_state p) (_connection_index p) (_possible_addresses p) (_symmetric_key p) x
    (_puzzle p) (_public_key p) (_private_key p) (_symmetric_cipher p) (_retry p) (_packet_data p).
Definition with_puzzle (x : puzzle_fields) (p : pending_connection) : pending_connection :=
  mk (_next p) (_initiator_nonce p) (_host_nonce p) (_initial_send_sequence p)
    (_initial_recv_sequence p) (_shared_secret p) (_introducer p) (_remote_client_id p) (_address
    p) (_type p) (_state p) (_connection_index p) (_possible_addresses p) (_symmetric_key p)
    (_init_vector p) x (_public_key p) (_private_key p) (_symmetric_cipher p) (_retry p)
    (_packet_data p).
Definition with_public_key (x : option asymmetric_key) (p : pending_connection) : pending_connection :=
  mk (_next p) (_initiator_nonce p) (_host_nonce p) (_initial_send_sequence p)
    (_initial_recv_sequence p) (_shared_secret p) (_introducer p) (_remote_client_id p) (_address
    p) (_type p) (_state p) (_connection_index p) (_possible_addresses p) (_symmetric_key p)
    (_init_vector p) (_puzzle p) x (_private_key p) (_symmetric_cipher p) (_retry p) (_packet_data
    p).
Definition with_private_key (x : option asymmetric_key) (p : pending_connection) : pending_connection :=
  mk (_next p) (_initiator_nonce p) (_host_nonce p) (_initial_send_sequence p)
    (_initial_recv_sequence p) (_shared_secret p) (_introducer p) (_remote_client_id p) (_address
    p) (_type p) (_state p) (_connection_index p) (_possible_addresses p) (_symmetric_key p)
    (_init_vector p) (_puzzle p) (_public_key p) x (_symmetric_cipher p) (_retry p) (_packet_data
    p).
Definition set_symmetric_cipher (x : option symmetric_cipher) (p : pending_connection) : pending_connection :=
  mk (_next p) (_initiator_nonce p) (_host_nonce p) (_initial_send_sequence p)
    (_initial_recv_sequence p) (_shared_secret p) (_introducer p) (_remote_client_id p) (_address
    p) (_type p) (_state p) (_connection_index p) (_possible_addresses p) (_symmetric_key p)
    (_init_vector p) (_puzzle p) (_public_key p) (_private_key p) x (_retry p) (_packet_data p).
Definition with_retry (x : retry_fields) (p : pending_connection) : pending_connection :=
  mk (_next p) (_initiator_nonce p) (_host_nonce p) (_initial_send_sequence p)
    (_initial_recv_sequence p) (_shared_secret p) (_introducer p) (_remote_client_id p) (_address
    p) (_type p) (_state p) (_connection_index p) (_possible_addresses p) (_symmetric_key p)
    (_init_vector p) (_puzzle p) (_public_key p) (_private_key p) (_symmetric_cipher p) x
    (_packet_data p).
Definition with_packet_data (x : option byte_buffer) (p : pending_connection) : pending_connection :=
  mk (_next p) (_initiator_nonce p) (_host_nonce p) (_initial_send_sequence p)
    (_initial_recv_sequence p) (_shared_secret p) (_introducer p) (_remote_client_id p) (_address
    p) (_type p) (_state p) (_connection_index p) (_possible_addresses p) (_symmetric_key p)
    (_init_vector p) (_puzzle p) (_public_key p) (_private_key p) (_symmetric_cipher p) (_retry p)
    x.

Definition initial_state (type : pending_connection_type) : pending_connection_state :=
  match type with
  | connection_initiator => requesting_challenge_response
  | connection_host => awaiting_local_accept
  | _ => requesting_introduction
  end.

Definition uninitialised_puzzle : puzzle_fields :=
  mk_puzzle false (u32 indeterminate) (u32 indeterminate) (u32 indeterminate) (u32 indeterminate).

(** The constructor; what it does not set is indeterminate. *)
Definition new_pending_connection (type : pending_connection_type)
    (initiator_nonce initial_send_sequence connection_index : Z) : pending_connection :=
  mk None initiator_nonce (u64 indeterminate) initial_send_sequence (u32 indeterminate) None 0 0
    (address_of_name any 0) type (initial_state type) connection_index [] (malloc 16) (malloc 16)
    uninitialised_puzzle None None None (mk_retry 0 (u32 indeterminate) (s64 indeterminate)) None.

Definition with_puzzle_difficulty (x : Z) (p : pending_connection) : pending_connection :=
  let z := _puzzle p in
  with_puzzle (mk_puzzle (_puzzle_retried z) x (_puzzle_solution z) (_client_identity z) (_puzzle_request_index z)) p.
Definition with_puzzle_solution (x : Z) (p : pending_connection) : pending_connection :=
  let z := _puzzle p in
  with_puzzle (mk_puzzle (_puzzle_retried z) (_puzzle_difficulty z) x (_client_identity z) (_puzzle_request_index z)) p.
Definition with_client_identity (x : Z) (p : pending_connection) : pending_connection :=
  let z := _puzzle p in
  with_puzzle (mk_puzzle (_puzzle_retried z) (_puzzle_difficulty z) (_puzzle_solution z) x (_puzzle_request_index z)) p.
Definition with_request_index (x : Z) (p : pending_connection) : pending_connection :=
  let z := _puzzle p in
  with_puzzle (mk_puzzle (_puzzle_retried z) (_puzzle_difficulty z) (_puzzle_solution z) (_client_identity z) x) p.
Definition with_puzzle_retried (x : bool) (p : pending_connection) : pending_connection :=
  let z := _puzzle p in
  with_puzzle (mk_puzzle x (_puzzle_difficulty z) (_puzzle_solution z) (_client_identity z) (_puzzle_request_index z)) p.

(** The three assignments that start a new phase of the negotiation. *)
Definition start_timer (count interval : Z) (now : time) : pending_connection -> pending_connection :=
  with_retry (mk_retry count interval now).
Definition count_retry (p : pending_connection) : pending_connection :=
  let r := _retry p in
  with_retry (mk_retry (_state_send_retry_count r - 1) (_state_send_retry_interval r) (_state_last_send_time r)) p.

(** ** The linked list *)
Record pending_list : Type := mk_list {
  _pending_connections : option loc;
  heap : gmap loc pending_connection;
  fresh_loc : loc
}.

Definition empty_list : pending_list := mk_list None ∅ 1%positive.

(** [new pending_connection(...)], [p->...] and [p->... = ...]. *)
Definition allocate (x : pending_connection) : M pending_list loc := fun l =>
  Ok (fresh_loc l, mk_list (_pending_connections l) (<[fresh_loc l := x]> (heap l)) (Pos.succ (fresh_loc l))).
Definition deref (p : loc) : M pending_list pending_connection := fun l =>
  x ← of_option null_deref (heap l !! p); Ok (x, l).
Definition assign (p : loc) (g : pending_connection -> pending_connection) : M pending_list unit := fun l =>
  x ← of_option null_deref (heap l !! p);
  Ok (tt, mk_list (_pending_connections l) (<[p := g x]> (heap l)) (fresh_loc l)).

(** The first record that passes a test, from [walk] on; a list that runs into itself is
    walked for ever, which is [out_of_fuel] here: [fuel] is the number of records. *)
Fixpoint walk_find (fuel : nat) (test : pending_connection -> bool) (walk : option loc)
    (h : gmap loc pending_connection) : result (option loc) :=
  match walk with
  | None => Ok None
  | Some p =>
      match fuel with
      | O => Fault out_of_fuel
      | S fuel =>
          x ← of_option null_deref (h !! p);
          if test x then Ok (Some p) else walk_find fuel test (_next x) h
      end
  end.

Definition find_pending (test : pending_connection -> bool) : M pending_list (option loc) := fun l =>
  r ← walk_find (size (heap l)) test (_pending_connections l) (heap l); Ok (r, l).

Definition _find_pending_connection_by_address (the_address : address) : M pending_list (option loc) :=
  find_pending (fun x => address_eqb (_address x) the_address).
Definition _find_pending_connection (connection_id : Z) : M pending_list (option loc) :=
  find_pending (fun x => _connection_index x =? connection_id).

Definition _add_pending_connection (the_connection : loc) : M pending_list unit :=
  l ← get;
  _ ← assign the_connection (with_next (_pending_connections l));
  modify (fun l => mk_list (Some the_connection) (heap l) (fresh_loc l)).

(** A [pending_connection **]: the head of the list or the [_next] field of a record. *)
Definition read_link (link : option loc) : M pending_list (option loc) :=
  match link with
  | None => gets _pending_connections
  | Some p => x ← deref p; mret (_next x)
  end.
Definition write_link (link target : option loc) : M pending_list unit :=
  match link with
  | None => modify (fun l => mk_list target (heap l) (fresh_loc l))
  | Some p => assign p (with_next target)
  end.
Definition delete_pending (p : loc) : M pending_list unit :=
  _ ← deref p; modify (fun l => mk_list (_pending_connections l) (delete p (heap l)) (fresh_loc l)).

Fixpoint remove_walk (fuel : nat) (link : option loc) (the_connection : loc) : M pending_list unit :=
  target ← read_link link;
  match target with
  | None => mret tt
  | Some p =>
      match fuel with
      | O => lift (Fault out_of_fuel)
      | S fuel =>
          if decide (p = the_connection) then
            x ← deref the_connection;
            _ ← write_link link (_next x);
            delete_pending the_connection
          else remove_walk fuel (Some p) the_connection
      end
  end.

Definition _remove_pending_connection (the_connection : loc) : M pending_list unit :=
  l ← get; remove_walk (size (heap l)) None the_connection.

(** ** The list of records

    [repr l xs ds]: the chain of [l] runs through the locations of [xs], in order, with
    the records given there (whose [_next] is put to [None]); [ds] are the records that
    have been allocated and are not linked yet; there are no others. *)
Definition unlinked : pending_connection -> pending_connection := with_next None.

Inductive pchain (h : gmap loc pending_connection) : option loc -> list (loc * pending_connection) -> Prop :=
  | pchain_nil : pchain h None []
  | pchain_cons p x l : h !! p = Some x -> pchain h (_next x) l -> pchain h (Some p) ((p, unlinked x) :: l).

Record repr (l : pending_list) (xs ds : list (loc * pending_connection)) : Prop := {
  rp_chain : pchain (heap l) (_pending_connections l) xs;
  rp_nodup : NoDup (xs.*1 ++ ds.*1);
  rp_dom p : is_Some (heap l !! p) -> p ∈ xs.*1 ++ ds.*1;
  rp_detached p x : (p, x) ∈ ds -> heap l !! p = Some x;
  rp_bound p : is_Some (heap l !! p) -> (p < fresh_loc l)%positive
}.

Lemma empty_list_repr : repr empty_list [] [].
Proof.
  split; cbn; [constructor | constructor | | |]; try (intros p; rewrite lookup_empty; by intros [? ?]).
  intros p x Hp. by apply not_elem_of_nil in Hp.
Qed.

(** Tests and updates that do not look at the link. *)
Definition blind_test (test : pending_connection -> bool) : Prop := forall x, test (unlinked x) = test x.
Record blind (g : pending_connection -> pending_connection) : Prop := {
  blind_next x : _next (g x) = _next x;
  blind_unlinked x : unlinked (g x) = g (unlinked x)
}.

Lemma pchain_dom h o xs p : pchain h o xs -> p ∈ xs.*1 -> is_Some (h !! p).
Proof.
  induction 1 as [|q x l Hq Hc IH]; cbn; intros Hp; [by apply not_elem_of_nil in Hp|].
  apply elem_of_cons in Hp as [->|Hp]; eauto.
Qed.

Lemma pchain_lookup h o xs p y : pchain h o xs -> (p, y) ∈ xs -> exists x, h !! p = Some x /\ y = unlinked x.
Proof.
  induction 1 as [|q x l Hq Hc IH]; intros Hp; [by apply not_elem_of_nil in Hp|].
  apply elem_of_cons in Hp as [[= -> ->]|Hp]; eauto.
Qed.

Lemma pchain_frame h h' o xs :
  pchain h o xs -> (forall p, p ∈ xs.*1 -> h' !! p = h !! p) -> pchain h' o xs.
Proof.
  induction 1 as [|q x l Hq Hc IH]; intros Hf; [constructor|].
  constructor; [rewrite Hf; [done | by apply elem_of_cons; left]|].
  apply IH. intros p Hp. apply Hf. by apply elem_of_cons; right.
Qed.

Lemma pchain_size h o xs : pchain h o xs -> NoDup xs.*1 -> (length xs <= size h)%nat.
Proof.
  intros Hc Hn. rewrite <- (length_fmap fst), <- (size_list_to_set (C := gset loc) xs.*1) by done.
  rewrite <- size_dom. apply subseteq_size. intros p Hp%elem_of_list_to_set.
  apply elem_of_dom. by eapply pchain_dom.
Qed.

Definition find_in (test : pending_connection -> bool) (xs : list (loc * pending_connection)) : option loc :=
  fst <$> find (fun e => test e.2) xs.

Lemma walk_find_spec test h o xs fuel :
  blind_test test -> pchain h o xs -> (length xs <= fuel)%nat -> walk_find fuel test o h = Ok (find_in test xs).
Proof.
  intros Hb Hc. revert fuel. induction Hc as [|p x l Hp Hc IH]; intros fuel Hf; [by destruct fuel|].
  destruct fuel as [|fuel]; [cbn in Hf; lia|]. cbn [walk_find]. rewrite Hp. cbn.
  unfold find_in. cbn [find snd]. rewrite Hb. destruct (test x); [done|]. apply IH. cbn in Hf. lia.
Qed.

(** Finding. *)
Lemma find_pending_spec test l xs ds :
  blind_test test -> repr l xs ds -> find_pending test l = Ok (find_in test xs, l).
Proof.
  intros Hb [Hc Hn _ _ _]. unfold find_pending.
  rewrite (walk_find_spec test _ _ xs); [done | done | done |].
  eapply pchain_size; [done|]. by apply list.NoDup_app in Hn as [? _].
Qed.

(** The records that are not linked yet. *)
Lemma detached_deref l xs p x ds : repr l xs ((p, x) :: ds) -> deref p l = Ok (x, l).
Proof. intros [_ _ _ Hd _]. unfold deref. rewrite (Hd p x) by (apply elem_of_cons; by left). done. Qed.

Lemma detached_assign g l xs p x ds :
  repr l xs ((p, x) :: ds) -> exists l', assign p g l = Ok (tt, l') /\ repr l' xs ((p, g x) :: ds).
Proof.
  intros [Hc Hn Hd Hdet Hb]. unfold assign.
  assert (Hx : heap l !! p = Some x) by (apply Hdet; apply elem_of_cons; by left).
  rewrite Hx. cbn [of_option mbind result_bind]. eexists. split; [done|].
  assert (Hn' := Hn). cbn in Hn'. rewrite <- Permutation_middle in Hn'. apply list.NoDup_cons in Hn' as [Hp _].
  assert (Hdom : forall q, is_Some (<[p := g x]> (heap l) !! q) -> is_Some (heap l !! q)).
  { intros q Hq. destruct (decide (q = p)) as [->|Hne]; [by eexists|]. by rewrite lookup_insert_ne in Hq. }
  split; cbn [heap _pending_connections fresh_loc]; [| done | auto | | auto].
  - eapply pchain_frame; [done|]. intros q Hq. rewrite lookup_insert_ne; [done|]. intros <-. apply Hp, elem_of_app. by left.
  - intros q y [[= -> ->]|Hin]%elem_of_cons; [by rewrite lookup_insert_eq|].
    rewrite lookup_insert_ne; [apply Hdet; apply elem_of_cons; by right|]. intros <-.
    apply Hp, elem_of_app. right. by apply (list_elem_of_fmap_2 fst ds (p, y)).
Qed.

(** Allocating, and linking what was allocated. *)
Lemma allocate_spec x l xs ds :
  repr l xs ds -> exists l', allocate x l = Ok (fresh_loc l, l') /\ repr l' xs ((fresh_loc l, x) :: ds) /\
    fresh_loc l ∉ xs.*1 ++ ds.*1.
Proof.
  intros [Hc Hn Hd Hdet Hbound].
  assert (Hnew : heap l !! fresh_loc l = None).
  { apply eq_None_not_Some. intros Hs%Hbound. lia. }
  assert (Hfr : fresh_loc l ∉ xs.*1 ++ ds.*1).
  { intros [Hin|Hin]%elem_of_app.
    - apply (pchain_dom _ _ _ _ Hc) in Hin as [? ?]. congruence.
    - apply list_elem_of_fmap in Hin as ([q y] & Hq & Hin). cbn in Hq. subst q.
      apply Hdet in Hin. congruence. }
  eexists. split; [done|]. split; [|done]. split; cbn.
  - eapply pchain_frame; [done|]. intros p Hp. rewrite lookup_insert_ne; [done|].
    intros <-. apply Hfr, elem_of_app. by left.
  - rewrite <- Permutation_middle. by apply NoDup_cons_2.
  - intros p Hp. destruct (decide (p = fresh_loc l)) as [->|Hne].
    + apply elem_of_app. right. by apply elem_of_cons; left.
    + rewrite lookup_insert_ne in Hp by done. apply Hd, elem_of_app in Hp as [?|?]; apply elem_of_app; [by left|].
      right. by apply elem_of_cons; right.
  - intros p y [[= -> ->]|Hin]%elem_of_cons; [by rewrite lookup_insert_eq|].
    rewrite lookup_insert_ne; [by apply Hdet|]. intros <-. apply Hfr, elem_of_app. right.
    by apply (list_elem_of_fmap_2 fst ds (fresh_loc l, y)).
  - intros p Hp. destruct (decide (p = fresh_loc l)) as [->|Hne]; [lia|].
    rewrite lookup_insert_ne in Hp by done. apply Hbound in Hp. lia.
Qed.

Lemma add_spec p x l xs ds :
  repr l xs ((p, x) :: ds) -> exists l', _add_pending_connection p l = Ok (tt, l') /\
    repr l' ((p, unlinked x) :: xs) ds.
Proof.
  intros [Hc Hn Hd Hdet Hbound].
  assert (Hx : heap l !! p = Some x) by (apply Hdet; by apply elem_of_cons; left).
  cbn in Hn. rewrite <- Permutation_middle in Hn. apply list.NoDup_cons in Hn as [Hp Hn].
  unfold _add_pending_connection, assign, get, modify, mbind, M_bind. rewrite Hx. cbn.
  eexists. split; [done|]. split; cbn.
  - assert (unlinked x = unlinked (with_next (_pending_connections l) x)) as -> by (by destruct x).
    constructor; [by rewrite lookup_insert_eq|].
    eapply pchain_frame; [exact Hc|]. intros q Hq. rewrite lookup_insert_ne; [done|].
    intros <-. apply Hp, elem_of_app. by left.
  - by apply NoDup_cons_2.
  - intros q Hq. apply elem_of_cons. destruct (decide (q = p)) as [->|Hne]; [by left | right].
    rewrite lookup_insert_ne in Hq by done. apply Hd in Hq. rewrite elem_of_app in *. cbn in Hq.
    rewrite elem_of_cons in Hq. tauto.
  - intros q y Hin. rewrite lookup_insert_ne.
    + apply Hdet. by apply elem_of_cons; right.
    + intros ->. apply Hp, elem_of_app. right. by apply (list_elem_of_fmap_2 fst ds (q, y)).
  - intros q Hq. apply Hbound. destruct (decide (q = p)) as [->|Hne]; [done|].
    by rewrite lookup_insert_ne in Hq by done.
Qed.

(** Writing to a record that is linked. *)
Lemma pchain_cons_inv h o p y l :
  pchain h o ((p, y) :: l) -> exists x, o = Some p /\ h !! p = Some x /\ y = unlinked x /\ pchain h (_next x) l.
Proof. inversion 1; subst. eauto. Qed.

Lemma pchain_update h o xs1 p x xs2 y :
  pchain h o (xs1 ++ (p, unlinked x) :: xs2) -> NoDup (xs1.*1 ++ p :: xs2.*1) ->
  h !! p = Some x -> _next y = _next x -> pchain (<[p := y]> h) o (xs1 ++ (p, unlinked y) :: xs2).
Proof.
  revert o. induction xs1 as [|[q z] xs1 IH]; intros o Hc Hn Hp Hy; cbn in *;
    apply pchain_cons_inv in Hc as (w & -> & Hw & Heq & Hc); apply list.NoDup_cons in Hn as [Hfr Hn].
  - simplify_eq. constructor; [by rewrite lookup_insert_eq|].
    rewrite Hy. eapply pchain_frame; [done|]. intros q Hq. rewrite lookup_insert_ne; [done|]. by intros ->.
  - subst z. constructor; [|by apply IH].
    rewrite lookup_insert_ne; [done|]. intros <-. apply Hfr, elem_of_app. right. by left.
Qed.

Lemma repr_linked l xs1 p x xs2 ds :
  repr l (xs1 ++ (p, x) :: xs2) ds -> exists y, heap l !! p = Some y /\ x = unlinked y.
Proof. intros [Hc _ _ _ _]. eapply pchain_lookup; [done|]. apply elem_of_app. right. by left. Qed.

Lemma deref_spec l xs1 p x xs2 ds :
  repr l (xs1 ++ (p, x) :: xs2) ds -> exists y, deref p l = Ok (y, l) /\ x = unlinked y.
Proof. intros Hr. destruct (repr_linked _ _ _ _ _ _ Hr) as (y & Hy & ->). exists y. unfold deref. by rewrite Hy. Qed.

(** The locations of a list with a record in the middle. *)
Lemma locs_middle (xs1 xs2 : list (loc * pending_connection)) p x :
  (xs1 ++ (p, x) :: xs2).*1 = xs1.*1 ++ p :: xs2.*1.
Proof. by rewrite fmap_app. Qed.

Lemma assign_spec g l xs1 p x xs2 ds :
  blind g -> repr l (xs1 ++ (p, x) :: xs2) ds ->
  exists l', assign p g l = Ok (tt, l') /\ repr l' (xs1 ++ (p, g x) :: xs2) ds.
Proof.
  intros Hg Hr. destruct (repr_linked _ _ _ _ _ _ Hr) as (y & Hy & ->).
  destruct Hr as [Hc Hn Hd Hdet Hb]. rewrite locs_middle in *.
  rewrite <- (blind_unlinked g Hg). unfold assign. rewrite Hy. eexists. split; [done|].
  split; rewrite ?locs_middle; cbn [heap _pending_connections fresh_loc].
  - eapply pchain_update; [done | | done | apply (blind_next g Hg)]. by apply list.NoDup_app in Hn as [? _].
  - done.
  - intros q Hq. apply Hd. destruct (decide (q = p)) as [->|Hne]; [done|].
    by rewrite lookup_insert_ne in Hq by done.
  - intros q z Hin. rewrite lookup_insert_ne; [by apply Hdet|]. intros <-.
    apply list.NoDup_app in Hn as (_ & Hdis & _). apply (Hdis p).
    + apply elem_of_app. right. by left.
    + by apply (list_elem_of_fmap_2 fst ds (p, z)).
  - intros q Hq. apply Hb. destruct (decide (q = p)) as [->|Hne]; [done|].
    by rewrite lookup_insert_ne in Hq by done.
Qed.

(** What the walk of [_remove_pending_connection] does from a link that precedes the record. *)
Definition last_link (link : option loc) (xs : list (loc * pending_connection)) : option loc :=
  match last xs with Some (q, _) => Some q | None => link end.

Lemma remove_walk_finds l link o xs1 p x xs2 fuel :
  read_link link l = Ok (o, l) -> pchain (heap l) o (xs1 ++ (p, unlinked x) :: xs2) ->
  p ∉ xs1.*1 -> heap l !! p = Some x -> (length xs1 < fuel)%nat ->
  remove_walk fuel link p l =
    (_ ← write_link (last_link link xs1) (_next x); delete_pending p) l.
Proof.
  revert link o fuel. induction xs1 as [|[q z] xs1 IH]; intros link o fuel Hl Hc Hn Hp Hf;
    (destruct fuel as [|fuel]; [cbn in Hf; lia|]); cbn [app] in Hc;
    apply pchain_cons_inv in Hc as (w & -> & Hw & Heq & Hc); cbn [remove_walk];
    rewrite (bind_step _ _ _ _ _ Hl).
  - rewrite decide_True by done. unfold mbind at 1, M_bind at 1, deref at 1. by rewrite Hp.
  - cbn in Hn. apply not_elem_of_cons in Hn as [Hne Hn]. rewrite decide_False by congruence.
    rewrite (IH (Some q) (_next w) fuel); [| | done | done | done | cbn in Hf; lia].
    + unfold last_link. destruct xs1 as [|e xs1]; [done|]. rewrite last_cons_cons.
      destruct (last (e :: xs1)) as [[]|] eqn:El; [done|]. by apply last_None in El.
    + unfold read_link, deref, mbind, M_bind. by rewrite Hw.
Qed.

(** A chain without one of its records, once the link before it has been redirected. *)
Lemma pchain_unlink h o xs1 q z p x xs2 :
  pchain h o (xs1 ++ (q, unlinked z) :: (p, unlinked x) :: xs2) ->
  NoDup (xs1.*1 ++ q :: p :: xs2.*1) -> h !! q = Some z -> h !! p = Some x ->
  pchain (delete p (<[q := with_next (_next x) z]> h)) o (xs1 ++ (q, unlinked z) :: xs2).
Proof.
  revert o. induction xs1 as [|[r w] xs1 IH]; intros o Hc Hn Hq Hp; cbn in *;
    apply pchain_cons_inv in Hc as (v & -> & Hv & Heq & Hc); apply list.NoDup_cons in Hn as [Hfr Hn].
  - apply pchain_cons_inv in Hc as (u & Hnx & Hu & Heq' & Hc). apply list.NoDup_cons in Hn as [Hfp Hn].
    simplify_eq. apply not_elem_of_cons in Hfr as [Hqp Hfr].
    assert (unlinked v = unlinked (with_next (_next u) v)) as -> by done.
    constructor; [by rewrite lookup_delete_ne, lookup_insert_eq|].
    eapply pchain_frame; [exact Hc|]. intros r Hr. rewrite lookup_delete_ne, lookup_insert_ne; [done | |].
    + by intros <-.
    + by intros <-.
  - subst w. constructor; [|by apply IH]. rewrite lookup_delete_ne, lookup_insert_ne; [done | |].
    + intros <-. apply Hfr, elem_of_app. right. by left.
    + intros <-. apply Hfr, elem_of_app. right. right. by left.
Qed.

(** Redirecting the link before a record and deleting the record. *)
Lemma write_link_delete l xs1 p x xs2 :
  pchain (heap l) (_pending_connections l) (xs1 ++ (p, unlinked x) :: xs2) ->
  NoDup (xs1.*1 ++ p :: xs2.*1) -> heap l !! p = Some x ->
  exists l', (_ ← write_link (last_link None xs1) (_next x); delete_pending p) l = Ok (tt, l') /\
    pchain (heap l') (_pending_connections l') (xs1 ++ xs2) /\ fresh_loc l' = fresh_loc l /\
    heap l' !! p = None /\ (forall q, is_Some (heap l' !! q) -> is_Some (heap l !! q)) /\
    (forall q, q ∉ xs1.*1 -> q <> p -> heap l' !! q = heap l !! q).
Proof.
  intros Hc Hn Hp. destruct xs1 as [|e xs1 _] using rev_ind.
  - cbn in Hc, Hn. apply pchain_cons_inv in Hc as (w & Hh & Hw & Heq & Hc). simplify_eq.
    apply list.NoDup_cons in Hn as [Hfr _].
    unfold write_link, last_link, delete_pending, deref, modify, mbind, M_bind. cbn. rewrite Hw. cbn.
    eexists. split; [done|]. cbn. split_and!; [| done | apply lookup_delete_eq | |].
    + eapply pchain_frame; [done|]. intros q Hq. rewrite lookup_delete_ne; [done|]. by intros <-.
    + intros q [y Hq]. rewrite lookup_delete_Some in Hq. destruct Hq as [_ Hq]. by eexists.
    + intros q _ Hq. by rewrite lookup_delete_ne.
  - destruct e as [q z]. rewrite <- app_assoc in Hc. rewrite fmap_app, <- app_assoc in Hn. cbn in Hc, Hn.
    destruct (pchain_lookup _ _ _ q z Hc) as (y & Hy & ->).
    { apply elem_of_app. right. by left. }
    assert (Hqp : q <> p).
    { intros ->. apply list.NoDup_app in Hn as (_ & _ & Hn). apply list.NoDup_cons in Hn as [Hfr _].
      apply Hfr. by left. }
    unfold last_link. rewrite last_snoc. unfold write_link, assign, delete_pending, deref, modify, mbind, M_bind.
    rewrite Hy. cbn. rewrite lookup_insert_ne, Hp by done. cbn. eexists. split; [done|]. cbn.
    split_and!; [| done | apply lookup_delete_eq | |].
    + rewrite <- app_assoc. by eapply pchain_unlink.
    + intros r [w Hw]. rewrite lookup_delete_Some in Hw. destruct Hw as [Hrp Hw].
      destruct (decide (r = q)) as [->|Hrq]; [by eexists|]. rewrite lookup_insert_ne in Hw by done. by eexists.
    + intros r Hr Hrp. rewrite lookup_delete_ne, lookup_insert_ne; [done | | done].
      intros <-. apply Hr. rewrite fmap_app. apply elem_of_app. right. by left.
Qed.

(** Cutting a record out, through the pointer that leads to it. *)
Lemma cut_spec l xs1 p y xs2 ds :
  repr l (xs1 ++ (p, unlinked y) :: xs2) ds -> heap l !! p = Some y ->
  exists l', (_ ← write_link (last_link None xs1) (_next y); delete_pending p) l = Ok (tt, l') /\
    repr l' (xs1 ++ xs2) ds.
Proof.
  intros [Hc Hn Hd Hdet Hb] Hy. rewrite locs_middle in *. pose proof Hn as Hnx.
  apply list.NoDup_app in Hnx as (Hnx & Hdis & _).
  destruct (write_link_delete l xs1 p y xs2 Hc Hnx Hy) as (l' & -> & Hc' & Hf & Hnone & Hsub & Hsame).
  exists l'. split; [done|]. split; [done | | | |].
  - rewrite fmap_app, <- app_assoc. rewrite <- app_assoc in Hn. cbn in Hn.
    rewrite <- Permutation_middle in Hn. by apply list.NoDup_cons in Hn as [_ Hn].
  - intros q Hq. assert (q <> p) by (intros ->; rewrite Hnone in Hq; by destruct Hq).
    apply Hsub, Hd in Hq. rewrite fmap_app, !elem_of_app, elem_of_cons in *. tauto.
  - intros q z Hin. assert (Hq : q ∈ ds.*1) by (by apply (list_elem_of_fmap_2 fst ds (q, z))).
    rewrite Hsame; [by apply Hdet | |].
    + intros Hq1. apply (Hdis q); [apply elem_of_app; by left | done].
    + intros ->. apply (Hdis p); [apply elem_of_app; right; by left | done].
  - intros q Hq. rewrite Hf. by apply Hb, Hsub.
Qed.

Lemma remove_spec l xs1 p x xs2 ds :
  repr l (xs1 ++ (p, x) :: xs2) ds ->
  exists l', _remove_pending_connection p l = Ok (tt, l') /\ repr l' (xs1 ++ xs2) ds.
Proof.
  intros Hr. destruct (repr_linked _ _ _ _ _ _ Hr) as (y & Hy & ->).
  destruct (cut_spec l xs1 p y xs2 ds Hr Hy) as (l' & E & Hr'). exists l'. split; [|done].
  destruct Hr as [Hc Hn _ _ _]. rewrite locs_middle in *. apply list.NoDup_app in Hn as (Hnx & _ & _).
  pose proof (pchain_size _ _ _ Hc ltac:(by rewrite locs_middle)) as Hsz.
  rewrite length_app in Hsz. cbn [length] in Hsz.
  apply list.NoDup_app in Hnx as (_ & Hd1 & _).
  assert (Hp1 : p ∉ xs1.*1) by (intros Hin; apply (Hd1 p Hin); by left).
  unfold _remove_pending_connection. unfold mbind at 1, M_bind at 1, get.
  by rewrite (remove_walk_finds l None (_pending_connections l) xs1 p y xs2); [| done | done | done | done | lia].
Qed.

(** What the pointer after the records [xs1] holds. *)
Lemma read_link_spec l xs1 xs2 ds :
  repr l (xs1 ++ xs2) ds -> read_link (last_link None xs1) l = Ok (fst <$> head xs2, l).
Proof.
  intros [Hc _ _ _ _]. revert Hc. unfold last_link.
  assert (Hgen : forall o, pchain (heap l) o (xs1 ++ xs2) ->
    match last xs1 with
    | Some (q, _) => exists z, heap l !! q = Some z /\ _next z = fst <$> head xs2
    | None => o = fst <$> head xs2
    end).
  { induction xs1 as [|[q z] xs1 IH]; intros o Hc.
    - cbn in Hc. destruct xs2 as [|[r w] xs2]; inversion Hc; done.
    - cbn in Hc. apply pchain_cons_inv in Hc as (w & -> & Hw & -> & Hc). specialize (IH _ Hc).
      destruct xs1 as [|e xs1]; [cbn; eauto|]. rewrite last_cons_cons.
      destruct (last (e :: xs1)) as [[r v]|] eqn:El; [exact IH | by apply last_None in El]. }
  intros Hc. specialize (Hgen _ Hc). destruct (last xs1) as [[q z]|]; cbn.
  - destruct Hgen as (w & Hw & Hn). unfold mbind, M_bind, deref. rewrite Hw. cbn. by rewrite Hn.
  - unfold gets. by rewrite Hgen.
Qed.

(** A record that is added again while it is linked: the list runs into itself, and every
    search that does not stop at it goes on for ever. *)
Lemma add_again_diverges l p x xs ds test fuel :
  blind_test test -> repr l ((p, x) :: xs) ds -> test x = false ->
  exists l', _add_pending_connection p l = Ok (tt, l') /\
    walk_find fuel test (_pending_connections l') (heap l') = Fault out_of_fuel.
Proof.
  intros Hb Hr Ht. destruct (repr_linked _ [] _ _ _ _ Hr) as (y & Hy & ->). destruct Hr as [Hc _ _ _ _].
  cbn in Hc. apply pchain_cons_inv in Hc as (w & Hh & Hw & _ & _). simplify_eq.
  unfold _add_pending_connection, assign, get, modify, mbind, M_bind. rewrite Hw. cbn.
  eexists. split; [done|]. cbn. rewrite Hh. induction fuel as [|fuel IH]; [done|]. cbn [walk_find].
  rewrite lookup_insert_eq. cbn.
  assert (test (with_next (Some p) w) = false) as ->.
  { rewrite <- Hb. exact Ht. }
  exact IH.
Qed.
End pending.
End pending.
Notation pending_connection := pending.pending_connection.
Notation pending_list := pending.pending_list.
