(* ===== verification/PendingSpec.v ===== *)
(** * The pending connections of a socket are a list

    Whatever the socket does with its pending connections - making one, looking one up by
    number or by address, changing one in place, removing one - the linked records in the heap
    give the answers of a list of records ([pending_connections_are_a_list]). *)
From S2P Require Import Prelude Endian StreamIO Address EventQueue Net Cipher Puzzle AsymmetricKey Pending.
From stdpp Require Import gmap.
#[local] Open Scope Z_scope.
Import pending.

Section spec.
Context `{Machine, Ecc, BlockCipher}.

(** ** The list *)
Inductive key : Type := by_index (connection_id : Z) | by_address (a : address).
Definition has_key (k : key) (x : pending_connection) : bool :=
  match k with
  | by_index i => _connection_index x =? i
  | by_address a => address_eqb (_address x) a
  end.

(** The first record with the key is changed, or removed. *)
Fixpoint update_first (k : key) (g : pending_connection -> pending_connection) (xs : list pending_connection)
    : list pending_connection :=
  match xs with
  | [] => []
  | x :: xs => if has_key k x then g x :: xs else x :: update_first k g xs
  end.
Fixpoint remove_first (k : key) (xs : list pending_connection) : list pending_connection :=
  match xs with
  | [] => []
  | x :: xs => if has_key k x then xs else x :: remove_first k xs
  end.

(** The changes are assignments to fields of the record, not to its link. *)
Inductive pending_op : Type :=
  | op_make (x : pending_connection)
  | op_look (k : key)
  | op_change (k : key) (s : pending_connection_state) (count interval : Z) (now : time)
  | op_remove (k : key).

Definition list_step (op : pending_op) (xs : list pending_connection) : option pending_connection * list pending_connection :=
  match op with
  | op_make x => (None, unlinked x :: xs)
  | op_look k => (List.find (has_key k) xs, xs)
  | op_change k s count interval now =>
      (List.find (has_key k) xs, update_first k (fun x => start_timer count interval now (set_state s x)) xs)
  | op_remove k => (List.find (has_key k) xs, remove_first k xs)
  end.

(** ** The code *)
Definition look (k : key) : M pending_list (option loc) :=
  match k with
  | by_index i => _find_pending_connection i
  | by_address a => _find_pending_connection_by_address a
  end.

(** With what is found: [f] is run on it, and the record as it was is the answer. *)
Definition with_found (k : key) (f : loc -> M pending_list unit) : M pending_list (option pending_connection) :=
  found ← look k;
  match found with
  | None => mret None
  | Some p => x ← deref p; _ ← f p; mret (Some x)
  end.

Definition heap_step (op : pending_op) : M pending_list (option pending_connection) :=
  match op with
  | op_make x => p ← allocate x; _ ← _add_pending_connection p; mret None
  | op_look k => with_found k (fun _ => mret tt)
  | op_change k s count interval now =>
      with_found k (fun p => assign p (fun x => start_timer count interval now (set_state s x)))
  | op_remove k => with_found k _remove_pending_connection
  end.

Fixpoint list_run (ops : list pending_op) (xs : list pending_connection)
    : list (option pending_connection) * list pending_connection :=
  match ops with
  | [] => ([], xs)
  | op :: ops => let '(a, xs) := list_step op xs in let '(l, xs) := list_run ops xs in (a :: l, xs)
  end.
Fixpoint heap_run (ops : list pending_op) : M pending_list (list (option pending_connection)) :=
  match ops with
  | [] => mret []
  | op :: ops => a ← heap_step op; l ← heap_run ops; mret (a :: l)
  end.

(** ** Refinement *)

(** A record as the list has it. *)
Definition strip (a : option pending_connection) : option pending_connection := unlinked <$> a.

Lemma look_spec k l xs ds : repr l xs ds -> look k l = Ok (find_in (has_key k) xs, l).
Proof. intros Hr. destruct k; by apply find_pending_spec with ds. Qed.

(** A search of the list of records either fails or splits it. *)
Lemma find_split k (xs : list (loc * pending_connection)) :
  (find_in (has_key k) xs = None /\ List.find (has_key k) xs.*2 = None /\
    remove_first k xs.*2 = xs.*2 /\ forall g, update_first k g xs.*2 = xs.*2) \/
  exists xs1 p x xs2, xs = xs1 ++ (p, x) :: xs2 /\ find_in (has_key k) xs = Some p /\
    List.find (has_key k) xs.*2 = Some x /\ remove_first k xs.*2 = (xs1 ++ xs2).*2 /\
    forall g, update_first k g xs.*2 = (xs1 ++ (p, g x) :: xs2).*2.
Proof.
  induction xs as [|[q y] xs IH]; [by left|].
  unfold find_in in *. cbn [List.find remove_first update_first fmap list_fmap snd].
  destruct (has_key k y) eqn:Hk.
  - right. exists [], q, y, xs. done.
  - destruct IH as [(Hf & -> & -> & Hu)|(xs1 & p & x & xs2 & -> & Hf & -> & -> & Hu)].
    + left. split; [done|]. split; [done|]. split; [done|]. intros g. by rewrite Hu.
    + right. exists ((q, y) :: xs1), p, x, xs2. split; [done|]. split; [done|]. split; [done|]. split; [done|].
      intros g. by rewrite Hu.
Qed.

Lemma with_found_none k f l xs ds :
  repr l xs ds -> find_in (has_key k) xs = None -> with_found k f l = Ok (None, l).
Proof. intros Hr Hf. unfold with_found. by rewrite (bind_step _ _ _ _ _ (look_spec k l xs ds Hr)), Hf. Qed.

Lemma with_found_some k f l xs1 p x xs2 ds l' :
  repr l (xs1 ++ (p, x) :: xs2) ds -> find_in (has_key k) (xs1 ++ (p, x) :: xs2) = Some p -> f p l = Ok (tt, l') ->
  exists y, with_found k f l = Ok (Some y, l') /\ unlinked y = x.
Proof.
  intros Hr Hf E. unfold with_found. rewrite (bind_step _ _ _ _ _ (look_spec k l _ ds Hr)), Hf.
  destruct (deref_spec _ _ _ _ _ _ Hr) as (y & Ey & ->). exists y.
  by rewrite (bind_step _ _ _ _ _ Ey), (bind_step _ _ _ _ _ E).
Qed.

Lemma step_refines op l xs ds :
  repr l xs ds -> exists a l' xs', heap_step op l = Ok (a, l') /\ repr l' xs' ds /\
    list_step op xs.*2 = (strip a, xs'.*2).
Proof.
  intros Hr. destruct op as [x|k|k s count interval now|k]; cbn [heap_step list_step].
  - destruct (allocate_spec x l xs ds Hr) as (l1 & E1 & Hr1 & _).
    destruct (add_spec _ _ _ _ _ Hr1) as (l2 & E2 & Hr2).
    exists None, l2, ((fresh_loc l, unlinked x) :: xs).
    by rewrite (bind_step _ _ _ _ _ E1), (bind_step _ _ _ _ _ E2).
  - destruct (find_split k xs) as [(Hf & -> & _ & _)|(xs1 & p & x & xs2 & -> & Hf & -> & _ & _)].
    + exists None, l, xs. by rewrite (with_found_none _ _ _ _ _ Hr Hf).
    + set (f := fun _ : loc => mret tt : M pending_list unit). assert (Ef : f p l = Ok (tt, l)) by done.
      destruct (with_found_some k f _ _ _ _ _ _ l Hr Hf Ef) as (y & -> & <-).
      by exists (Some y), l, (xs1 ++ (p, unlinked y) :: xs2).
  - destruct (find_split k xs) as [(Hf & -> & _ & Hu)|(xs1 & p & x & xs2 & -> & Hf & -> & _ & Hu)]; rewrite Hu.
    + exists None, l, xs. by rewrite (with_found_none _ _ _ _ _ Hr Hf).
    + set (g := fun x => start_timer count interval now (set_state s x)).
      assert (Hg : blind g) by (split; intros; reflexivity).
      destruct (assign_spec g _ _ _ _ _ _ Hg Hr) as (l' & E & Hr').
      destruct (with_found_some k (fun p => assign p g) _ _ _ _ _ _ l' Hr Hf E) as (y & -> & <-).
      by exists (Some y), l', (xs1 ++ (p, g (unlinked y)) :: xs2).
  - destruct (find_split k xs) as [(Hf & -> & -> & _)|(xs1 & p & x & xs2 & -> & Hf & -> & -> & _)].
    + exists None, l, xs. by rewrite (with_found_none _ _ _ _ _ Hr Hf).
    + destruct (remove_spec _ _ _ _ _ _ Hr) as (l' & E & Hr').
      destruct (with_found_some k _ _ _ _ _ _ _ l' Hr Hf E) as (y & -> & <-).
      by exists (Some y), l', (xs1 ++ xs2).
Qed.

(** C12. The pending connections are a list.  Any sequence of making, looking up, changing and
    removing pending connections runs without a fault on the linked records of the heap and
    gives the answers the same sequence gives on a list of records, newest first, where a
    lookup takes the first that fits. *)
Theorem pending_connections_are_a_list ops :
  exists answers l, heap_run ops empty_list = Ok (answers, l) /\
    strip <$> answers = (list_run ops []).1.
Proof.
  assert (Hgen : forall l xs, repr l xs [] -> exists answers l', heap_run ops l = Ok (answers, l') /\
    strip <$> answers = (list_run ops xs.*2).1); [|apply (Hgen _ []), empty_list_repr].
  induction ops as [|op ops IH]; intros l xs Hr; cbn [heap_run list_run]; [by exists [], l|].
  destruct (step_refines op l xs [] Hr) as (a & l1 & xs1 & E & Hr1 & ->). rewrite (bind_step _ _ _ _ _ E).
  destruct (IH l1 xs1 Hr1) as (answers & l' & E' & Ha). rewrite (bind_step _ _ _ _ _ E').
  exists (a :: answers), l'. split; [done|]. cbn. destruct (list_run ops xs1.*2) as [outs ys]. cbn in *. by rewrite <- Ha.
Qed.
End spec.
