(* ===== verification/Connections.v ===== *)
(** * The connections of a socket: torque_sockets/torque_socket.h

    Established connections live in a heap, linked in both directions from
    [_connection_list], and two hash tables find them by id and by address.  The list
    operations are proved against the list of connections; the tables are those of
    HashTable.v, so a lookup may miss a connection, or find one that has been deleted, as
    soon as something has been removed ([stale_lookup]). *)
From S2P Require Import Prelude Endian BitStream StreamIO Address EventQueue Cipher Net Connection HashTable HashTableSpec.
From stdpp Require Import gmap.
#[local] Open Scope Z_scope.

Module connections.
Section connections.
Context `{Machine, Prng, BlockCipher}.

Record connection_table : Type := mk_conns {
  _connection_list : option loc;
  heap : gmap loc torque_connection;
  fresh_loc : loc;
  _connection_id_lookup_table : hash_table_flat Z loc;
  _connection_address_lookup_table : hash_table_flat address loc
}.

Definition empty_table : connection_table := mk_conns None ∅ 1%positive (_init 0) (_init 0).

Definition with_heap (h : gmap loc torque_connection) (t : connection_table) : connection_table :=
  mk_conns (_connection_list t) h (fresh_loc t) (_connection_id_lookup_table t)
    (_connection_address_lookup_table t).
Definition with_list (p : option loc) (t : connection_table) : connection_table :=
  mk_conns p (heap t) (fresh_loc t) (_connection_id_lookup_table t) (_connection_address_lookup_table t).
Definition with_ids (h : hash_table_flat Z loc) (t : connection_table) : connection_table :=
  mk_conns (_connection_list t) (heap t) (fresh_loc t) h (_connection_address_lookup_table t).
Definition with_addresses (h : hash_table_flat address loc) (t : connection_table) : connection_table :=
  mk_conns (_connection_list t) (heap t) (fresh_loc t) (_connection_id_lookup_table t) h.

(** [new torque_connection(...)], [p->...] and [p->... = ...]. *)
Definition allocate (c : torque_connection) : M connection_table loc := fun t =>
  Ok (fresh_loc t, mk_conns (_connection_list t) (<[fresh_loc t := c]> (heap t)) (Pos.succ (fresh_loc t))
    (_connection_id_lookup_table t) (_connection_address_lookup_table t)).
Definition deref (p : loc) : M connection_table torque_connection := fun t =>
  c ← of_option null_deref (heap t !! p); Ok (c, t).
Definition assign (p : loc) (g : torque_connection -> torque_connection) : M connection_table unit := fun t =>
  c ← of_option null_deref (heap t !! p); Ok (tt, with_heap (<[p := g c]> (heap t)) t).

Definition _find_connection_by_address (remote_address : address) : M connection_table (option loc) := fun t =>
  p ← find_value address_hash remote_address (_connection_address_lookup_table t); Ok (p, t).
Definition _find_connection (id : Z) : M connection_table (option loc) := fun t =>
  p ← find_value id_hash id (_connection_id_lookup_table t); Ok (p, t).

Definition set_next (x : option loc) (c : torque_connection) : torque_connection :=
  with_links x (_prev c) c.
Definition set_prev (x : option loc) (c : torque_connection) : torque_connection :=
  with_links (_next c) x c.

(** [if(p) p->... = ...;] *)
Definition assign_if (p : option loc) (g : torque_connection -> torque_connection) : M connection_table unit :=
  match p with Some p => assign p g | None => mret tt end.

(** The first half of [_add_connection]: the links. *)
Definition link (the_connection : loc) : M connection_table unit :=
  t ← get;
  _ ← assign the_connection (with_links (_connection_list t) None);
  _ ← assign_if (_connection_list t) (set_prev (Some the_connection));
  modify (with_list (Some the_connection)).

Definition insert_id (p : loc) (c : torque_connection) : M connection_table unit := fun t =>
  '(h, _) ← _insert id_hash (_connection_index c) p (_connection_id_lookup_table t); Ok (tt, with_ids h t).
Definition insert_address (p : loc) (c : torque_connection) : M connection_table unit := fun t =>
  '(h, _) ← _insert address_hash (_address c) p (_connection_address_lookup_table t); Ok (tt, with_addresses h t).
Definition remove_id (c : torque_connection) : M connection_table unit := fun t =>
  '(h, _) ← HashTable.remove id_hash (_connection_index c) (_connection_id_lookup_table t); Ok (tt, with_ids h t).
Definition remove_address (c : torque_connection) : M connection_table unit := fun t =>
  '(h, _) ← HashTable.remove address_hash (_address c) (_connection_address_lookup_table t); Ok (tt, with_addresses h t).

Definition _add_connection (the_connection : loc) : M connection_table unit :=
  _ ← link the_connection;
  c ← deref the_connection;
  _ ← insert_id the_connection c;
  insert_address the_connection c.

(** The first half of [_remove_connection]. *)
Definition unlink (c : torque_connection) : M connection_table unit :=
  _ ← match _prev c with
      | Some prev => assign prev (set_next (_next c))
      | None => modify (with_list (_next c))
      end;
  assign_if (_next c) (set_prev (_prev c)).

Definition _remove_connection (the_connection : loc) : M connection_table unit :=
  c ← deref the_connection;
  _ ← unlink c;
  _ ← remove_id c;
  _ ← remove_address c;
  modify (fun t => with_heap (delete the_connection (heap t)) t).

(** ** The list of connections

    [dseg h prev o xs prev' o']: from the link [o], with predecessor [prev], the chain runs
    through [xs] and arrives at the link [o'] with predecessor [prev'].  The connections are
    given with their links taken out. *)
Definition unlinked : torque_connection -> torque_connection := with_links None None.

Notation entry := (loc * torque_connection)%type.

Inductive dseg (h : gmap loc torque_connection) :
    option loc -> option loc -> list entry -> option loc -> option loc -> Prop :=
  | dseg_nil prev o : dseg h prev o [] prev o
  | dseg_cons prev p c l prev' o' :
      h !! p = Some c -> _prev c = prev -> dseg h (Some p) (_next c) l prev' o' ->
      dseg h prev (Some p) ((p, unlinked c) :: l) prev' o'.

(** [repr t xs ds]: the list of [t] is [xs]; the other connections in the heap are [ds],
    allocated and not linked yet. *)
Record repr (t : connection_table) (xs ds : list entry) : Prop := {
  rp_chain : exists last, dseg (heap t) None (_connection_list t) xs last None;
  rp_nodup : NoDup (xs.*1 ++ ds.*1);
  rp_dom p : is_Some (heap t !! p) -> p ∈ xs.*1 ++ ds.*1;
  rp_detached p c : (p, c) ∈ ds -> heap t !! p = Some c;
  rp_bound p : is_Some (heap t !! p) -> (p < fresh_loc t)%positive
}.

Definition same_tables (t t' : connection_table) : Prop :=
  _connection_id_lookup_table t' = _connection_id_lookup_table t /\
  _connection_address_lookup_table t' = _connection_address_lookup_table t.

Lemma empty_repr : repr empty_table [] [].
Proof.
  split; cbn; [eexists; constructor | constructor | | |].
  - intros p [c Hc]. by rewrite lookup_empty in Hc.
  - intros p c Hin. by apply elem_of_nil in Hin.
  - intros p [c Hc]. by rewrite lookup_empty in Hc.
Qed.

Lemma dseg_cons_inv h prev o p y l prev' o' :
  dseg h prev o ((p, y) :: l) prev' o' ->
  exists c, o = Some p /\ h !! p = Some c /\ _prev c = prev /\ y = unlinked c /\
    dseg h (Some p) (_next c) l prev' o'.
Proof. inversion 1; subst. eauto 10. Qed.

Lemma dseg_app h a b l1 l2 e f :
  dseg h a b (l1 ++ l2) e f <-> exists c d, dseg h a b l1 c d /\ dseg h c d l2 e f.
Proof.
  split.
  - revert a b. induction l1 as [|[p y] l1 IH]; intros a b Hs; cbn in Hs.
    + exists a, b. split; [constructor | done].
    + apply dseg_cons_inv in Hs as (c & -> & Hc & Hp & -> & Hs). apply IH in Hs as (c' & d & H1' & H2').
      exists c', d. split; [by constructor | done].
  - intros (c & d & H1' & H2'). induction H1' as [|prev p x l prev' o' Hx Hp Hs IH]; [done|].
    constructor; [done | done | by apply IH].
Qed.

Lemma dseg_frame h h' a b l e f :
  dseg h a b l e f -> (forall p, p ∈ l.*1 -> h' !! p = h !! p) -> dseg h' a b l e f.
Proof.
  induction 1 as [|prev p c l prev' o' Hc Hp Hs IH]; intros Hf; [constructor|].
  constructor; [rewrite Hf; [done | by left] | done |]. apply IH. intros q Hq. apply Hf. by right.
Qed.

Lemma dseg_dom h a b l e f p : dseg h a b l e f -> p ∈ l.*1 -> is_Some (h !! p).
Proof.
  induction 1 as [|prev q c l prev' o' Hc Hp Hs IH]; cbn; intros Hin; [by apply elem_of_nil in Hin|].
  apply elem_of_cons in Hin as [->|Hin]; eauto.
Qed.

Lemma conn_locs_middle (xs1 xs2 : list entry) p c : (xs1 ++ (p, c) :: xs2).*1 = xs1.*1 ++ p :: xs2.*1.
Proof. by rewrite fmap_app. Qed.

(** The chain from [nx] on gets another predecessor. *)
Lemma relink_right t prev prev' nx xs e :
  dseg (heap t) prev nx xs e None -> NoDup xs.*1 ->
  exists t' e', assign_if nx (set_prev prev') t = Ok (tt, t') /\
    dseg (heap t') prev' nx xs e' None /\ _connection_list t' = _connection_list t /\
    fresh_loc t' = fresh_loc t /\ same_tables t t' /\
    (forall q, q ∉ xs.*1 -> heap t' !! q = heap t !! q) /\
    (forall q, is_Some (heap t' !! q) <-> is_Some (heap t !! q)).
Proof.
  intros Hs Hn. destruct xs as [|[p y] xs].
  - inversion Hs; subst. exists t, prev'. split_and!; try done. constructor.
  - apply dseg_cons_inv in Hs as (c & -> & Hc & Hp & -> & Hs). apply list.NoDup_cons in Hn as [Hfr Hn].
    cbn [assign_if]. unfold assign. rewrite Hc. eexists _, e. split; [done|]. cbn.
    split_and!; [| done | done | done | |].
    + change (unlinked c) with (unlinked (set_prev prev' c)).
      constructor; [by rewrite lookup_insert_eq | done |]. cbn.
      eapply dseg_frame; [exact Hs|]. intros q Hq. rewrite lookup_insert_ne; [done|]. by intros <-.
    + intros q Hq. rewrite lookup_insert_ne; [done|]. intros <-. apply Hq. by left.
    + intros q. destruct (decide (q = p)) as [->|Hne]; [rewrite lookup_insert_eq, Hc; split; eauto|].
      by rewrite lookup_insert_ne.
Qed.

(** The link at the end of a chain is redirected. *)
Definition redirect (prev nx : option loc) : M connection_table unit :=
  match prev with
  | Some prev => assign prev (set_next nx)
  | None => modify (with_list nx)
  end.

Lemma relink_left t xs prev o nx :
  dseg (heap t) None (_connection_list t) xs prev o -> NoDup xs.*1 ->
  exists t', redirect prev nx t = Ok (tt, t') /\ dseg (heap t') None (_connection_list t') xs prev nx /\
    fresh_loc t' = fresh_loc t /\ same_tables t t' /\
    (forall q, q ∉ xs.*1 -> heap t' !! q = heap t !! q) /\
    (forall q, is_Some (heap t' !! q) <-> is_Some (heap t !! q)).
Proof.
  intros Hs Hn. destruct xs as [|[q y] xs _] using rev_ind.
  - inversion Hs; subst. eexists. split; [done|]. cbn. split_and!; try done. constructor.
  - apply dseg_app in Hs as (a & b & Hs & Hq).
    apply dseg_cons_inv in Hq as (c & -> & Hc & Hp & -> & Hq). inversion Hq; subst.
    rewrite fmap_app in Hn. apply list.NoDup_app in Hn as (Hn & Hd & _).
    cbn [redirect]. unfold assign. rewrite Hc. eexists. split; [done|]. cbn.
    split_and!; [| done | done | |].
    + apply dseg_app. exists (_prev c), (Some q). split.
      * eapply dseg_frame; [exact Hs|]. intros r Hr. rewrite lookup_insert_ne; [done|].
        intros <-. apply (Hd q Hr). by left.
      * change (unlinked c) with (unlinked (set_next nx c)).
        constructor; [by rewrite lookup_insert_eq | done | constructor].
    + intros r Hr. rewrite lookup_insert_ne; [done|]. intros <-. apply Hr. rewrite fmap_app.
      apply elem_of_app. right. by left.
    + intros r. destruct (decide (r = q)) as [->|Hne]; [rewrite lookup_insert_eq, Hc; split; eauto|].
      by rewrite lookup_insert_ne.
Qed.

Lemma conn_allocate_spec c t xs ds :
  repr t xs ds -> exists t', allocate c t = Ok (fresh_loc t, t') /\ repr t' xs ((fresh_loc t, c) :: ds) /\
    same_tables t t' /\ fresh_loc t ∉ xs.*1.
Proof.
  intros [[last Hc] Hn Hd Hdet Hb].
  assert (Hnew : heap t !! fresh_loc t = None).
  { apply eq_None_not_Some. intros Hs%Hb. lia. }
  assert (Hfx : fresh_loc t ∉ xs.*1).
  { intros Hin. apply (dseg_dom _ _ _ _ _ _ _ Hc) in Hin as [? ?]. congruence. }
  assert (Hfd : fresh_loc t ∉ ds.*1).
  { intros Hin. apply list_elem_of_fmap in Hin as ([q y] & Hq & Hin). cbn in Hq. subst q.
    apply Hdet in Hin. congruence. }
  eexists. split; [done|]. split; [|done]. split; cbn.
  - exists last. eapply dseg_frame; [done|]. intros p Hp. rewrite lookup_insert_ne; [done|]. by intros <-.
  - rewrite <- Permutation_middle. apply NoDup_cons_2; [|done]. intros [?|?]%elem_of_app; done.
  - intros p Hp. destruct (decide (p = fresh_loc t)) as [->|Hne].
    + apply elem_of_app. right. by left.
    + rewrite lookup_insert_ne in Hp by done. apply Hd, elem_of_app in Hp as [?|?]; apply elem_of_app;
        [by left | right; by right].
  - intros p y [[= -> ->]|Hin]%elem_of_cons; [by rewrite lookup_insert_eq|].
    rewrite lookup_insert_ne; [by apply Hdet|]. intros <-. apply Hfd.
    by apply (list_elem_of_fmap_2 fst ds (fresh_loc t, y)).
  - intros p Hp. destruct (decide (p = fresh_loc t)) as [->|Hne]; [lia|].
    rewrite lookup_insert_ne in Hp by done. apply Hb in Hp. lia.
Qed.

Lemma link_spec p c t xs ds :
  repr t xs ((p, c) :: ds) ->
  exists t', link p t = Ok (tt, t') /\ repr t' ((p, unlinked c) :: xs) ds /\ same_tables t t'.
Proof.
  intros [[last Hs] Hn Hd Hdet Hb]. assert (Hc : heap t !! p = Some c) by (apply Hdet; by left).
  cbn in Hn. rewrite <- Permutation_middle in Hn. apply list.NoDup_cons in Hn as [Hp Hn].
  assert (Hpx : p ∉ xs.*1) by (intros ?; apply Hp, elem_of_app; by left).
  assert (Hpd : forall y, (p, y) ∉ ds).
  { intros y Hy. apply Hp, elem_of_app. right. by apply (list_elem_of_fmap_2 fst ds (p, y)). }
  pose proof Hn as Hnx. apply list.NoDup_app in Hnx as (Hnx & Hdis & _).
  unfold link. unfold mbind at 1, M_bind at 1, get. unfold mbind at 1, M_bind at 1, assign at 1. rewrite Hc.
  cbn [of_option mbind result_bind]. set (c' := with_links _ None c). set (t1 := with_heap (<[p := c']> (heap t)) t).
  assert (Hs1 : dseg (heap t1) None (_connection_list t) xs last None).
  { eapply dseg_frame; [exact Hs|]. intros q Hq. cbn. rewrite lookup_insert_ne; [done|]. by intros <-. }
  destruct (relink_right t1 None (Some p) _ xs last Hs1 Hnx) as (t2 & e & E & Hs2 & Hl & Hf & Ht & Hout & Hdom).
  rewrite (bind_step _ _ _ _ _ E). eexists. split; [done|]. split; [|exact Ht].
  assert (Hp2 : heap t2 !! p = Some c') by (rewrite Hout by done; cbn; by rewrite lookup_insert_eq).
  assert (Hdom' : forall q, is_Some (heap t2 !! q) -> is_Some (heap t !! q)).
  { intros q Hq. apply Hdom in Hq. cbn in Hq. destruct (decide (q = p)) as [->|Hne]; [by eexists|].
    by rewrite lookup_insert_ne in Hq. }
  split; cbn [with_list heap _connection_list fresh_loc].
  - exists e. change (unlinked c) with (unlinked c'). constructor; [done | done | exact Hs2].
  - by apply NoDup_cons_2.
  - intros q Hq. apply Hdom', Hd in Hq. rewrite elem_of_app in Hq |- *. cbn in Hq |- *.
    rewrite elem_of_cons in Hq |- *. tauto.
  - intros q y Hin. rewrite Hout.
    + cbn. rewrite lookup_insert_ne; [apply Hdet; by right|]. intros <-. by apply (Hpd y).
    + intros Hq. apply (Hdis q Hq). by apply (list_elem_of_fmap_2 fst ds (q, y)).
  - intros q Hq. rewrite Hf. by apply Hb, Hdom'.
Qed.

Lemma conn_repr_linked t xs1 p c xs2 ds :
  repr t (xs1 ++ (p, c) :: xs2) ds -> exists d, heap t !! p = Some d /\ c = unlinked d.
Proof.
  intros [[last Hs] _ _ _ _]. apply dseg_app in Hs as (a & b & _ & Hs).
  apply dseg_cons_inv in Hs as (d & -> & Hd & _ & -> & _). eauto.
Qed.

(** The pointers of the list, read off the list. *)
Lemma dseg_head h prev o xs last : dseg h prev o xs last None -> o = fst <$> head xs.
Proof. by inversion 1. Qed.

Lemma conn_list_head t xs ds : repr t xs ds -> _connection_list t = fst <$> head xs.
Proof. intros [[last Hs] _ _ _ _]. by eapply dseg_head. Qed.

Lemma conn_next_head t xs1 p c xs2 ds d :
  repr t (xs1 ++ (p, c) :: xs2) ds -> heap t !! p = Some d -> _next d = fst <$> head xs2.
Proof.
  intros [[last Hs] _ _ _ _] Hp. apply dseg_app in Hs as (a & b & _ & Hs).
  apply dseg_cons_inv in Hs as (d' & -> & Hp' & _ & _ & Hs). assert (d' = d) as -> by congruence. by eapply dseg_head.
Qed.

Lemma conn_list_size t xs ds : repr t xs ds -> (length xs <= base.size (heap t))%nat.
Proof.
  intros [[last Hs] Hn _ _ _]. apply list.NoDup_app in Hn as (Hn & _ & _).
  rewrite <- (length_fmap fst), <- (size_list_to_set (C := gset loc) xs.*1) by done.
  rewrite <- size_dom. apply subseteq_size. intros p Hp%elem_of_list_to_set.
  apply elem_of_dom. by eapply dseg_dom.
Qed.

(** Updating a connection, but not its links. *)
Lemma conn_assign_spec g t xs1 p c xs2 ds d :
  repr t (xs1 ++ (p, c) :: xs2) ds -> heap t !! p = Some d -> _next (g d) = _next d -> _prev (g d) = _prev d ->
  exists t', assign p g t = Ok (tt, t') /\ repr t' (xs1 ++ (p, unlinked (g d)) :: xs2) ds /\ same_tables t t'.
Proof.
  intros [[last Hs] Hn Hd Hdet Hb] Hp Hnx Hpv. unfold assign. rewrite Hp. eexists. split; [done|]. split; [|done].
  rewrite conn_locs_middle in *. apply dseg_app in Hs as (a & b & Hs1 & Hs2).
  apply dseg_cons_inv in Hs2 as (d' & -> & Hp' & Ha & _ & Hs2). assert (d' = d) as -> by congruence. subst a.
  pose proof Hn as Hn'. apply list.NoDup_app in Hn' as (Hnl & Hdis & _).
  apply list.NoDup_app in Hnl as (_ & Hd1 & Hn2). apply list.NoDup_cons in Hn2 as [Hp2 _].
  assert (Hf : forall q, q <> p -> <[p := g d]> (heap t) !! q = heap t !! q) by (intros q Hq; by rewrite lookup_insert_ne).
  split; cbn.
  - exists last. apply dseg_app. exists (_prev d), (Some p). split.
    + eapply dseg_frame; [exact Hs1|]. intros q Hq. apply Hf. intros ->. apply (Hd1 p Hq). by left.
    + constructor; [by rewrite lookup_insert_eq | done |]. rewrite Hnx.
      eapply dseg_frame; [exact Hs2|]. intros q Hq. apply Hf. by intros ->.
  - by rewrite conn_locs_middle.
  - intros q Hq. rewrite conn_locs_middle. destruct (decide (q = p)) as [->|Hne]; [apply Hd; by eexists|].
    rewrite Hf in Hq by done. by apply Hd.
  - intros q y Hin. rewrite Hf; [by apply Hdet|]. intros ->. apply (Hdis p).
    + apply elem_of_app. right. by left.
    + by apply (list_elem_of_fmap_2 fst ds (p, y)).
  - intros q Hq. apply Hb. destruct (decide (q = p)) as [->|Hne]; [by eexists | by rewrite Hf in Hq].
Qed.

(** Taking a connection out of the list and deleting it. *)
Lemma unlink_spec t xs1 p c xs2 ds :
  repr t (xs1 ++ (p, c) :: xs2) ds ->
  exists d t', heap t !! p = Some d /\ c = unlinked d /\ unlink d t = Ok (tt, t') /\
    repr (with_heap (delete p (heap t')) t') (xs1 ++ xs2) ds /\ same_tables t t'.
Proof.
  intros [[last Hs] Hn Hd Hdet Hb]. rewrite conn_locs_middle in *.
  apply dseg_app in Hs as (a & b & Hs1 & Hs2).
  apply dseg_cons_inv in Hs2 as (d & -> & Hp & Ha & -> & Hs2).
  pose proof Hn as Hn'. apply list.NoDup_app in Hn' as (Hnx & Hdis & _).
  apply list.NoDup_app in Hnx as (Hn1 & Hd12 & Hn2). apply list.NoDup_cons in Hn2 as [Hp2 Hn2].
  assert (Hp1 : p ∉ xs1.*1) by (intros Hq; apply (Hd12 p Hq); by left).
  destruct (relink_left t xs1 a (Some p) (_next d) Hs1 Hn1) as (t1 & E1 & Hs1' & Hf1 & Ht1 & Hout1 & Hdom1).
  assert (Hs2' : dseg (heap t1) (Some p) (_next d) xs2 last None).
  { eapply dseg_frame; [exact Hs2|]. intros q Hq. apply Hout1. intros Hq1. apply (Hd12 q Hq1). by right. }
  destruct (relink_right t1 (Some p) a (_next d) xs2 last Hs2' Hn2)
    as (t2 & e & E2 & Hs2'' & Hl2 & Hf2 & Ht2 & Hout2 & Hdom2).
  exists d, t2. split; [done|]. split; [done|]. split.
  { unfold unlink. rewrite Ha. fold (redirect a (_next d)). by rewrite (bind_step _ _ _ _ _ E1). }
  split; [|destruct Ht1, Ht2; split; congruence].
  assert (Hsub : forall q, is_Some (delete p (heap t2) !! q) -> q <> p /\ is_Some (heap t !! q)).
  { intros q [y Hq]. apply lookup_delete_Some in Hq as [Hqp Hq]. split; [done|].
    apply Hdom1, Hdom2. by eexists. }
  split; cbn [with_heap heap _connection_list fresh_loc].
  - exists e. rewrite Hl2. apply dseg_app. exists a, (_next d). split.
    + eapply dseg_frame; [exact Hs1'|]. intros q Hq. rewrite lookup_delete_ne by (by intros <-).
      apply Hout2. intros Hq2. apply (Hd12 q Hq). by right.
    + eapply dseg_frame; [exact Hs2''|]. intros q Hq. rewrite lookup_delete_ne; [done|]. by intros <-.
  - rewrite fmap_app, <- app_assoc. rewrite <- app_assoc in Hn. cbn in Hn.
    rewrite <- Permutation_middle in Hn. by apply list.NoDup_cons in Hn as [_ Hn].
  - intros q Hq. apply Hsub in Hq as [Hqp Hq]. apply Hd in Hq.
    rewrite fmap_app, !elem_of_app, elem_of_cons in *. tauto.
  - intros q y Hin. assert (Hq : q ∈ ds.*1) by (by apply (list_elem_of_fmap_2 fst ds (q, y))).
    rewrite lookup_delete_ne, Hout2, Hout1; [by apply Hdet | | |].
    + intros Hq1. apply (Hdis q); [apply elem_of_app; by left | done].
    + intros Hq2. apply (Hdis q); [apply elem_of_app; right; by right | done].
    + intros <-. apply (Hdis p); [apply elem_of_app; right; by left | done].
  - intros q Hq. apply Hsub in Hq as [_ Hq]. rewrite Hf2, Hf1. by apply Hb.
Qed.

(** ** The lookup tables *)
Record sane (t : connection_table) : Prop := {
  sane_ids : table_sane (_connection_id_lookup_table t);
  sane_addresses : table_sane (_connection_address_lookup_table t)
}.

(** Room for another connection without passing the last table size. *)
Definition room (t : connection_table) : Prop :=
  _table_size (_connection_id_lookup_table t) < 2 ^ 31 /\
  _table_size (_connection_address_lookup_table t) < 2 ^ 31.

(** The tables list exactly the connections [xs]; true until a connection is removed. *)
Record indexed (t : connection_table) (xs : list entry) : Prop := {
  ix_ids : table_ok id_hash (_connection_id_lookup_table t);
  ix_addresses : table_ok address_hash (_connection_address_lookup_table t);
  ix_by_id : Permutation (entries (_table (_connection_id_lookup_table t)))
    ((fun e => (_connection_index e.2, e.1)) <$> xs);
  ix_by_address : Permutation (entries (_table (_connection_address_lookup_table t)))
    ((fun e => (_address e.2, e.1)) <$> xs)
}.

Lemma empty_indexed : sane empty_table /\ indexed empty_table [].
Proof.
  split; split; first
    [ exact (tb_sane _ _ (_init_ok id_hash)) | exact (tb_sane _ _ (_init_ok address_hash))
    | apply _init_ok | done ].
Qed.

Lemma add_connection_spec p c t xs ds :
  repr t xs ((p, c) :: ds) -> sane t -> room t ->
  exists t', _add_connection p t = Ok (tt, t') /\ repr t' ((p, unlinked c) :: xs) ds /\ sane t' /\
    (indexed t xs -> indexed t' ((p, unlinked c) :: xs)).
Proof.
  intros Hr [Hi Ha] [Hsi Hsa]. destruct (link_spec p c t xs ds Hr) as (t1 & E1 & Hr1 & Hti & Hta).
  destruct (conn_repr_linked t1 [] p _ xs ds Hr1) as (d & Hd & Hcd).
  assert (Hix : _connection_index d = _connection_index c) by (change (_connection_index (unlinked d) = _connection_index (unlinked c)); by rewrite Hcd).
  assert (Hadr : _address d = _address c) by (change (_address (unlinked d) = _address (unlinked c)); by rewrite Hcd).
  unfold _add_connection. rewrite (bind_step _ _ _ _ _ E1).
  unfold mbind at 1, M_bind at 1, deref. rewrite Hd. cbn [of_option mbind result_bind].
  destruct (insert_sane id_hash (_connection_index d) p _ Hi Hsi) as (hi & ki & Ei & Hsi' & Hoki & Hpi & _).
  destruct (insert_sane address_hash (_address d) p _ Ha Hsa) as (ha & ka & Ea & Hsa' & Hoka & Hpa & _).
  unfold mbind, M_bind, insert_id. rewrite Hti, Ei. cbn. unfold insert_address. cbn. rewrite Hta, Ea. cbn.
  eexists. split; [done|]. split; [by destruct Hr1; split|]. split; [by split|].
  intros [Hx1 Hx2 Hx3 Hx4]. split; cbn; [auto | auto | |].
  - by rewrite Hpi, Hx3, Hix.
  - by rewrite Hpa, Hx4, Hadr.
Qed.

Lemma remove_connection_spec p c t xs1 xs2 ds :
  repr t (xs1 ++ (p, c) :: xs2) ds -> sane t ->
  exists t', _remove_connection p t = Ok (tt, t') /\ repr t' (xs1 ++ xs2) ds /\ sane t'.
Proof.
  intros Hr [Hi Ha]. destruct (unlink_spec t xs1 p c xs2 ds Hr) as (d & t1 & Hd & -> & E1 & Hr1 & Hti & Hta).
  unfold _remove_connection. unfold mbind at 1, M_bind at 1, deref. rewrite Hd. cbn [of_option mbind result_bind].
  rewrite (bind_step _ _ _ _ _ E1).
  destruct (remove_sane id_hash (_connection_index d) _ Hi) as (hi & bi & Ei & Hsi & _ & _).
  destruct (remove_sane address_hash (_address d) _ Ha) as (ha & ba & Ea & Hsa & _ & _).
  unfold mbind, M_bind, remove_id. rewrite Hti, Ei. cbn. unfold remove_address. cbn. rewrite Hta, Ea. cbn.
  eexists. split; [done|]. split; [by destruct Hr1; split | by split].
Qed.

(** A lookup always ends; with the tables in order it finds what is listed. *)
Lemma find_connection_spec id t :
  sane t -> exists o, _find_connection id t = Ok (o, t) /\
    forall xs, indexed t xs ->
      match o with
      | Some p => exists c, (p, c) ∈ xs /\ _connection_index c = id
      | None => forall p c, (p, c) ∈ xs -> _connection_index c <> id
      end.
Proof.
  intros [Hi _]. destruct (find_sane id_hash id _ Hi) as (i & E & Hf). unfold _find_connection, find_value.
  rewrite E. cbn [mbind result_bind]. eexists. split; [done|]. intros xs [Hx1 _ Hx3 _].
  destruct Hf as [(p & -> & Hin & _)|[-> Hno]].
  - rewrite Hx3 in Hin. apply list_elem_of_fmap in Hin as ([q c] & [= -> ->] & Hin). eauto.
  - intros p c Hin Heq. apply (Hno (tb_reachable _ _ Hx1) p). rewrite Hx3.
    apply list_elem_of_fmap. exists (p, c). by rewrite <- Heq.
Qed.

Lemma find_connection_by_address_spec a t :
  sane t -> exists o, _find_connection_by_address a t = Ok (o, t) /\
    forall xs, indexed t xs ->
      match o with
      | Some p => exists c, (p, c) ∈ xs /\ _address c = a
      | None => forall p c, (p, c) ∈ xs -> _address c <> a
      end.
Proof.
  intros [_ Ha]. destruct (find_sane address_hash a _ Ha) as (i & E & Hf).
  unfold _find_connection_by_address, find_value.
  rewrite E. cbn [mbind result_bind]. eexists. split; [done|]. intros xs [_ Hx2 _ Hx4].
  destruct Hf as [(p & -> & Hin & _)|[-> Hno]].
  - rewrite Hx4 in Hin. apply list_elem_of_fmap in Hin as ([q c] & [= -> ->] & Hin). eauto.
  - intros p c Hin Heq. apply (Hno (tb_reachable _ _ Hx2) p). rewrite Hx4.
    apply list_elem_of_fmap. exists (p, c). by rewrite <- Heq.
Qed.
End connections.
End connections.
Notation connection_table := connections.connection_table.

(** ** Lookups after a removal *)
Section stale.
#[local] Existing Instance debug_machine.

Definition numbered (i : Z) : @torque_connection toy_cipher :=
  with_peer (mk_address i 0) None 0 (new_torque_connection 0 0 i true).

Definition connect_numbered (i : Z) : M (@connection_table toy_cipher) loc :=
  p ← connections.allocate (numbered i); _ ← connections._add_connection p; mret p.

(** Three connections; the second and then the third are removed; a fourth is made.  The
    third is looked up before it is removed, and once more at the end. *)
Definition removals : M (@connection_table toy_cipher) (loc * option loc * option loc) :=
  _ ← connect_numbered 1; second ← connect_numbered 2; third ← connect_numbered 3;
  _ ← connections._remove_connection second;
  before ← connections._find_connection 3;
  _ ← connections._remove_connection third;
  _ ← connect_numbered 4;
  after ← connections._find_connection 3;
  mret (third, before, after).

(** Once 2 is removed 3 is not found any more although it is connected; so when 3 is removed it
    stays in the table, and after a fourth connection has filled the gap a lookup of 3 gives the
    pointer to the connection that was deleted. *)
Lemma stale_lookup :
  ('((third, before, after), t) ← removals connections.empty_table;
   Ok (bool_decide (before = None), bool_decide (after = Some third), bool_decide (connections.heap t !! third = None)))
  = Ok (true, true, true).
Proof. vm_compute. reflexivity. Qed.
End stale.
