(* ===== verification/SocketState.v ===== *)
(** * The state of a socket: torque_sockets/torque_socket.h

    [torque_socket] collects the fields of the class: what its connections use of it ([_net]),
    the two kinds of connections, the keys and puzzles of the handshake, the introductions it
    brokers, and the datagrams that have arrived.  An operation of the class is an
    [M torque_socket]; [net_op], [pend], [conns] and [rand] run an operation of a component. *)
From S2P Require Import Prelude Endian BitStream StreamIO Address EventQueue Cipher Net Connection HashStream Sha256 BufferUtils Puzzle AsymmetricKey ThreadQueue Pending Connections.
#[local] Open Scope Z_scope.

(** The packet types: the first byte of a datagram that is not a connection's. *)
Definition connect_challenge_request_packet : Z := 0.
Definition connect_challenge_response_packet : Z := 1.
Definition connect_reject_packet : Z := 2.
Definition connect_request_packet : Z := 3.
Definition connect_accept_packet : Z := 4.
Definition disconnect_packet : Z := 5.
Definition introduced_connection_request_packet : Z := 6.
Definition connection_introduction_packet : Z := 7.
Definition punch_packet : Z := 8.
Definition first_valid_info_packet_id : Z := 32.
Definition last_valid_info_packet_id : Z := 127.

(** [torque_socket_constants]; the connect retry constants are used nowhere. *)
Definition challenge_retry_count : Z := 4.
Definition challenge_retry_time : Z := 2500.
Definition connect_retry_count : Z := 4.
Definition connect_retry_time : Z := 2500.
Definition punch_retry_count : Z := 6.
Definition punch_retry_time : Z := 2500.
Definition introduced_connection_connect_timeout : Z := 45000.
Definition timeout_check_interval : Z := 1500.
Definition puzzle_solution_timeout : Z := 30000.
Definition introduction_timeout : Z := 30000.

Inductive disconnect_reason : Type :=
  | reason_failed_puzzle
  | reason_self_disconnect
  | reason_shutdown
  | reason_reconnecting
  | reason_disconnect_call.

Definition reason_code (r : disconnect_reason) : Z :=
  match r with
  | reason_failed_puzzle => 0
  | reason_self_disconnect => 1
  | reason_shutdown => 2
  | reason_reconnecting => 3
  | reason_disconnect_call => 4
  end.

Definition torque_sockets_max_status_datagram_size : Z := 511.
Definition invalid_torque_connection : Z := 0.

Record introduction_record : Type := mk_introduction {
  intro_initiator_nonce : Z;
  intro_host_nonce : Z;
  intro_initiator : Z;
  intro_host : Z;
  initiator_request_received : bool;
  host_request_received : bool;
  initial_intro_sent : bool;
  introduction_time : time
}.

(** [time::get_current()]: the value of the [n]-th reading of the clock. *)
Class Clock : Type := { clock : nat -> time }.

Section torque_socket.
Context `{Machine, Ecc, BlockCipher}.

(** [udp_inbox] are the datagrams the operating system holds for the socket. *)
Record torque_socket : Type := mk_socket {
  _net : net;
  _pendings : pending_list;
  _connections : connection_table;
  _next_connection_index : Z;
  _challenge_response : option byte_buffer;
  _private_key : option asymmetric_key;
  _puzzle_manager : client_puzzle_manager;
  _puzzle_solver : thread_queue byte_buffer byte_buffer;
  _introductions : list introduction_record;
  _last_timeout_check_time : time;
  _random_hash_data : bytes;
  _allow_connections : bool;
  _thread_socket : bool;
  _received_packet_list : list (address * bytes);
  udp_inbox : list (address * bytes);
  clock_reads : nat
}.

Definition with_net (x : net) (s : torque_socket) : torque_socket :=
  mk_socket x (_pendings s) (_connections s) (_next_connection_index s) (_challenge_response s)
    (_private_key s) (_puzzle_manager s) (_puzzle_solver s) (_introductions s)
    (_last_timeout_check_time s) (_random_hash_data s) (_allow_connections s) (_thread_socket s)
    (_received_packet_list s) (udp_inbox s) (clock_reads s).
Definition with_pendings (x : pending_list) (s : torque_socket) : torque_socket :=
  mk_socket (_net s) x (_connections s) (_next_connection_index s) (_challenge_response s)
    (_private_key s) (_puzzle_manager s) (_puzzle_solver s) (_introductions s)
    (_last_timeout_check_time s) (_random_hash_data s) (_allow_connections s) (_thread_socket s)
    (_received_packet_list s) (udp_inbox s) (clock_reads s).
Definition with_connections (x : connection_table) (s : torque_socket) : torque_socket :=
  mk_socket (_net s) (_pendings s) x (_next_connection_index s) (_challenge_response s)
    (_private_key s) (_puzzle_manager s) (_puzzle_solver s) (_introductions s)
    (_last_timeout_check_time s) (_random_hash_data s) (_allow_connections s) (_thread_socket s)
    (_received_packet_list s) (udp_inbox s) (clock_reads s).
Definition with_next_index (x : Z) (s : torque_socket) : torque_socket :=
  mk_socket (_net s) (_pendings s) (_connections s) x (_challenge_response s) (_private_key s)
    (_puzzle_manager s) (_puzzle_solver s) (_introductions s) (_last_timeout_check_time s)
    (_random_hash_data s) (_allow_connections s) (_thread_socket s) (_received_packet_list s)
    (udp_inbox s) (clock_reads s).
Definition with_challenge_response (x : option byte_buffer) (s : torque_socket) : torque_socket :=
  mk_socket (_net s) (_pendings s) (_connections s) (_next_connection_index s) x (_private_key
    s) (_puzzle_manager s) (_puzzle_solver s) (_introductions s) (_last_timeout_check_time s)
    (_random_hash_data s) (_allow_connections s) (_thread_socket s) (_received_packet_list s)
    (udp_inbox s) (clock_reads s).
Definition with_private_key (x : option asymmetric_key) (s : torque_socket) : torque_socket :=
  mk_socket (_net s) (_pendings s) (_connections s) (_next_connection_index s)
    (_challenge_response s) x (_puzzle_manager s) (_puzzle_solver s) (_introductions s)
    (_last_timeout_check_time s) (_random_hash_data s) (_allow_connections s) (_thread_socket s)
    (_received_packet_list s) (udp_inbox s) (clock_reads s).
Definition with_puzzle_manager (x : client_puzzle_manager) (s : torque_socket) : torque_socket :=
  mk_socket (_net s) (_pendings s) (_connections s) (_next_connection_index s)
    (_challenge_response s) (_private_key s) x (_puzzle_solver s) (_introductions s)
    (_last_timeout_check_time s) (_random_hash_data s) (_allow_connections s) (_thread_socket s)
    (_received_packet_list s) (udp_inbox s) (clock_reads s).
Definition with_puzzle_solver (x : thread_queue byte_buffer byte_buffer) (s : torque_socket) : torque_socket :=
  mk_socket (_net s) (_pendings s) (_connections s) (_next_connection_index s)
    (_challenge_response s) (_private_key s) (_puzzle_manager s) x (_introductions s)
    (_last_timeout_check_time s) (_random_hash_data s) (_allow_connections s) (_thread_socket s)
    (_received_packet_list s) (udp_inbox s) (clock_reads s).
Definition with_introductions (x : list introduction_record) (s : torque_socket) : torque_socket :=
  mk_socket (_net s) (_pendings s) (_connections s) (_next_connection_index s)
    (_challenge_response s) (_private_key s) (_puzzle_manager s) (_puzzle_solver s) x
    (_last_timeout_check_time s) (_random_hash_data s) (_allow_connections s) (_thread_socket s)
    (_received_packet_list s) (udp_inbox s) (clock_reads s).
Definition with_last_timeout_check (x : time) (s : torque_socket) : torque_socket :=
  mk_socket (_net s) (_pendings s) (_connections s) (_next_connection_index s)
    (_challenge_response s) (_private_key s) (_puzzle_manager s) (_puzzle_solver s)
    (_introductions s) x (_random_hash_data s) (_allow_connections s) (_thread_socket s)
    (_received_packet_list s) (udp_inbox s) (clock_reads s).
Definition with_allow_connections (x : bool) (s : torque_socket) : torque_socket :=
  mk_socket (_net s) (_pendings s) (_connections s) (_next_connection_index s)
    (_challenge_response s) (_private_key s) (_puzzle_manager s) (_puzzle_solver s)
    (_introductions s) (_last_timeout_check_time s) (_random_hash_data s) x (_thread_socket s)
    (_received_packet_list s) (udp_inbox s) (clock_reads s).
Definition with_received (x : list (address * bytes)) (s : torque_socket) : torque_socket :=
  mk_socket (_net s) (_pendings s) (_connections s) (_next_connection_index s)
    (_challenge_response s) (_private_key s) (_puzzle_manager s) (_puzzle_solver s)
    (_introductions s) (_last_timeout_check_time s) (_random_hash_data s) (_allow_connections s)
    (_thread_socket s) x (udp_inbox s) (clock_reads s).
Definition with_inbox (x : list (address * bytes)) (s : torque_socket) : torque_socket :=
  mk_socket (_net s) (_pendings s) (_connections s) (_next_connection_index s)
    (_challenge_response s) (_private_key s) (_puzzle_manager s) (_puzzle_solver s)
    (_introductions s) (_last_timeout_check_time s) (_random_hash_data s) (_allow_connections s)
    (_thread_socket s) (_received_packet_list s) x (clock_reads s).
Definition with_clock_reads (x : nat) (s : torque_socket) : torque_socket :=
  mk_socket (_net s) (_pendings s) (_connections s) (_next_connection_index s)
    (_challenge_response s) (_private_key s) (_puzzle_manager s) (_puzzle_solver s)
    (_introductions s) (_last_timeout_check_time s) (_random_hash_data s) (_allow_connections s)
    (_thread_socket s) (_received_packet_list s) (udp_inbox s) x.

Definition net_op {A} (m : M net A) : M torque_socket A := zoom _net with_net m.
Definition pend {A} (m : M pending_list A) : M torque_socket A := zoom _pendings with_pendings m.
Definition conns {A} (m : M connection_table A) : M torque_socket A := zoom _connections with_connections m.
Definition rand {A} (m : M random_generator A) : M torque_socket A := net_op (random m).
Definition queue {A} (m : M socket_event_queue A) : M torque_socket A := net_op (events m).

Definition get_process_start_time : M torque_socket time := gets (fun s => _process_start_time (_net s)).

(** [out.send_to(_socket, the_address)]. *)
Definition send_to_socket (out : bit_stream) (the_address : address) : M torque_socket unit :=
  net_op (send_stream the_address out).

(** [_next_connection_index++] *)
Definition new_connection_index : M torque_socket Z :=
  i ← gets _next_connection_index; _ ← modify (with_next_index (u32 (i + 1))); mret i.

(** [time::get_current()] *)
Definition get_current `{Clock} : M torque_socket time :=
  n ← gets clock_reads; _ ← modify (with_clock_reads (S n)); mret (clock n).

(** [core::write] and [core::read] as the handlers use them, the result ignored. *)
Definition put_field {A} `{Codec A} (a : A) (out : bit_stream) : result bit_stream :=
  '(out, _) ← write out a; Ok out.
Definition get_field {A} `{Codec A} (s : bit_stream) (old : A) : result (bit_stream * A) :=
  '(s, a, _) ← read s old; Ok (s, a).

Definition write_uint8 (v : Z) : bit_stream -> result bit_stream := put_field (Scalar v : uint8).
Definition write_uint32 (v : Z) : bit_stream -> result bit_stream := put_field (Scalar v : uint32).
Definition write_nonce (v : Z) : bit_stream -> result bit_stream := put_field (Scalar v : uint64).

(** A [byte_buffer_ptr] is followed when it is written. *)
Definition write_buffer_ptr (b : option byte_buffer) (out : bit_stream) : result bit_stream :=
  b ← of_option null_deref b; put_field b out.

Definition read_uint8_into (old : Z) (s : bit_stream) : result (bit_stream * Z) :=
  '(s, v) ← get_field s (Scalar old : uint8); Ok (s, sval v).
Definition read_uint32_into (old : Z) (s : bit_stream) : result (bit_stream * Z) :=
  '(s, v) ← get_field s (Scalar old : uint32); Ok (s, sval v).
Definition read_nonce_into (old : Z) (s : bit_stream) : result (bit_stream * Z) :=
  '(s, v) ← get_field s (Scalar old : uint64); Ok (s, sval v).

(** Reading into a local variable that was not initialised. *)
Definition read_uint8 : bit_stream -> result (bit_stream * Z) := read_uint8_into (u8 indeterminate).
Definition read_uint32 : bit_stream -> result (bit_stream * Z) := read_uint32_into (u32 indeterminate).
Definition read_nonce : bit_stream -> result (bit_stream * Z) := read_nonce_into indeterminate.
Definition read_buffer_ptr (s : bit_stream) : result (bit_stream * byte_buffer) :=
  '(s, b, _) ← byte_buffer.read_buffer s; Ok (s, b).

(** A local [packet_stream] with the packet type written. *)
Definition packet (type : Z) : result bit_stream := write_uint8 type new_packet_stream.

(** [symmetric_cipher the_cipher(shared_secret)] *)
Definition cipher_of_secret (secret : option byte_buffer) : result symmetric_cipher :=
  b ← of_option null_deref secret; Ok (new_cipher b).

(** The end of every encrypted message: the signature, then the encryption from
    [encrypt_pos] on. *)
Definition seal (secret : option byte_buffer) (encrypt_pos : Z) (out : bit_stream) : result bit_stream :=
  the_cipher ← cipher_of_secret secret;
  '(out, _) ← bit_stream_hash_and_encrypt out message_signature_bytes encrypt_pos the_cipher;
  Ok out.

Definition unseal (secret : option byte_buffer) (decrypt_pos : Z) (s : bit_stream) : result (bit_stream * bool) :=
  the_cipher ← cipher_of_secret secret;
  '(s, _, ok) ← bit_stream_decrypt_and_check_hash s message_signature_bytes decrypt_pos the_cipher;
  Ok (s, ok).

(** [compute_client_identity_token] *)
Definition compute_client_identity_token (the_address : address) (the_nonce : Z) : M torque_socket Z :=
  random_hash_data ← gets _random_hash_data;
  lift (
    let host := htonl (_host the_address) in
    let port := htonl (_port the_address) in
    state ← sha256_process_all (sha256_init local_hash_state)
              [le_bytes 4 host; le_bytes 4 port; le_bytes 8 the_nonce; random_hash_data];
    hash ← of_option assertion_failed (sha256_done state);
    Ok (le_val (take 4 hash))).
End torque_socket.
