(* ===== verification/Wire.v ===== *)
(** * Messages on the wire

    The datagrams of the handshake as lists of bytes: what a stream holds while a message is
    written ([holds]) and what is still to be read of one ([reads]), with one lemma per kind
    of field.  The senders and handlers of Handshake.v are proved against these lists. *)
From S2P Require Import Prelude Endian BitStream StreamIO Address EventQueue Cipher Net Connection HashStream Sha256 BufferUtils Puzzle AsymmetricKey ThreadQueue Pending Connections SocketState.
#[local] Open Scope Z_scope.

(** The bytes of a value. *)
Class Image (A : Type) `{Codec A} : Type := {
  img : A -> bytes;
  img_bytes a : valid a -> is_bytes (img a);
  img_enc a : valid a -> enc a = byte_bits (img a)
}.

#[export] Program Instance scalar_image n : Image (scalar n) := {| img x := le_bytes n (sval x) |}.
Next Obligation. intros n a _. apply is_bytes_le_bytes. Qed.
Next Obligation. intros n a _. cbn [enc scalar_codec]. by rewrite byte_bits_le_bytes. Qed.

Section wire.
Context `{Machine, Ecc, BlockCipher}.

#[export] Program Instance buffer_image : Image byte_buffer :=
  {| img b := le_bytes 4 (blen (byte_buffer.data b)) ++ byte_buffer.data b |}.
Next Obligation. intros b [Hb _]. apply Forall_app. split; [apply is_bytes_le_bytes | done]. Qed.
Next Obligation. intros b _. cbn [enc byte_buffer_codec]. by rewrite byte_bits_app, byte_bits_le_bytes. Qed.

(** [out] is a packet stream with [b] written so far. *)
Record holds (out : bit_stream) (b : bytes) : Prop := {
  hd_ok : stream_ok out;
  hd_num : bs_bit_num out = 8 * blen b;
  hd_end : bs_bit_end out = 8 * max_datagram_size;
  hd_bytes : is_bytes b;
  hd_base : take (length b) (bs_base out) = b
}.

Lemma holds_new : holds new_packet_stream [].
Proof.
  destruct new_packet_stream_ok as (Hok & Hn & Hsp & _). unfold space in Hsp. split; try done. constructor.
Qed.

Lemma holds_written out b : holds out b -> written out = byte_bits b.
Proof.
  intros [Hok Hn He Hb Ht]. rewrite <- (written_bytes out (blen b)) by done.
  unfold blen. by rewrite Nat2Z.id, Ht.
Qed.

Lemma holds_appended out b i out' :
  holds out b -> is_bytes i -> appended out (byte_bits i) out' -> holds out' (b ++ i).
Proof.
  intros Hh Hi [Hok Hl He Hn _ Hw]. pose proof Hh as [_ Hn0 He0 Hb _]. rewrite length_byte_bits in Hn.
  assert (Hbi : is_bytes (b ++ i)) by (by apply Forall_app).
  assert (Hnum : bs_bit_num out' = 8 * blen (b ++ i)) by (rewrite blen_app; unfold blen in *; lia).
  split; [done | done | by rewrite He | done |]. apply byte_bits_inj; [apply Forall_take, Hok | done |].
  rewrite byte_bits_app, <- (holds_written out b Hh), <- Hw.
  rewrite <- (written_bytes out' (blen (b ++ i))) by done. unfold blen. by rewrite Nat2Z.id.
Qed.

Lemma holds_space out b : holds out b -> space out = 8 * (max_datagram_size - blen b).
Proof. intros [_ Hn He _ _]. unfold space. lia. Qed.

Lemma put_field_holds {A} `{CodecLaws A, !Image A} out b (a : A) :
  holds out b -> valid a -> blen b + blen (img a) <= max_datagram_size ->
  exists out', put_field a out = Ok out' /\ holds out' (b ++ img a).
Proof.
  intros Hh Ha Hl. pose proof (holds_space out b Hh).
  destruct (write_appended out a) as (out' & ok & E & Happ); [apply Hh | done | |].
  { rewrite img_enc, length_byte_bits by done. unfold blen in *. lia. }
  exists out'. unfold put_field. rewrite E. split; [done|]. rewrite img_enc in Happ by done.
  by apply (holds_appended out); [| apply img_bytes |].
Qed.

Lemma write_bytes_holds out b d n :
  holds out b -> is_bytes d -> n = blen d -> blen b + n <= max_datagram_size ->
  exists out', write_bytes out d n = Ok (out', n) /\ holds out' (b ++ d).
Proof.
  intros Hh Hd Hn Hl. pose proof (holds_space out b Hh).
  destruct (write_bytes_appended out d n) as (out' & E & Happ); [apply Hh | done | done | lia |].
  exists out'. split; [done|]. by apply (holds_appended out).
Qed.

Lemma holds_position out b : holds out b -> get_next_byte_position out = blen b.
Proof.
  intros [Hok Hn He _ _]. pose proof Hok as [_ ? _ ?]. unfold get_next_byte_position.
  rewrite Hn, u32_small, Z.shiftr_div_pow2 by (unfold in_u; lia). zlia.
Qed.

(** [out.set_byte_position(out.get_next_byte_position())] leaves the stream alone. *)
Lemma holds_set_position out b : holds out b -> holds (set_byte_position out (blen b)) b.
Proof.
  intros [Hok Hn He Hb Ht]. pose proof Hok as [? ? ? ?].
  assert (Hnum : bs_bit_num (set_byte_position out (blen b)) = 8 * blen b).
  { cbn. rewrite Z.shiftl_mul_pow2, u32_small by (unfold in_u; lia). lia. }
  split; try done. split; rewrite ?Hnum; cbn [bs_base bs_bit_end set_byte_position with_bit_num]; (done || lia).
Qed.

(** Sending: the datagram is what was written. *)
Definition sent (a : address) (d : bytes) (s : torque_socket) : torque_socket :=
  with_net (with_sent (udp_sent (_net s) ++ [(a, d)]) (_net s)) s.

Lemma send_holds out b a s : holds out b -> send_to_socket out a s = Ok (tt, sent a b s).
Proof.
  intros Hh. pose proof Hh as [Hok Hn He _ Ht]. pose proof Hok as [_ ? ? _].
  unfold send_to_socket, net_op, zoom, send_stream, udp_send_to. rewrite (holds_position out b Hh).
  destruct (Z.leb_spec (blen b) (blen (bs_base out))); [|lia].
  unfold mbind, M_bind, lift, modify. cbn [require]. unfold blen. by rewrite Nat2Z.id, Ht.
Qed.

(** [s] is at the end of [pre] in the datagram [pre ++ rest]. *)
Record reads (s : bit_stream) (pre rest : bytes) : Prop := {
  rd_ok : stream_ok s;
  rd_num : bs_bit_num s = 8 * blen pre;
  rd_end : bs_bit_end s = 8 * blen (pre ++ rest);
  rd_bytes : is_bytes (pre ++ rest);
  rd_base : take (length (pre ++ rest)) (bs_base s) = pre ++ rest
}.

Lemma reads_upcoming s pre rest : reads s pre rest -> upcoming s = byte_bits rest.
Proof.
  intros [Hok Hn He _ Ht]. rewrite <- (upcoming_bytes s (blen pre) (blen (pre ++ rest))) by done. f_equal.
  transitivity (drop (length pre) (take (length (pre ++ rest)) (bs_base s))).
  - rewrite take_drop_commute. unfold blen. rewrite length_app. do 2 f_equal; lia.
  - by rewrite Ht, drop_app_length.
Qed.

Lemma reads_consumed s pre i rest s' :
  reads s pre (i ++ rest) -> consumed s (byte_bits i) s' -> reads s' (pre ++ i) rest.
Proof.
  intros [Hok Hn He Hb Ht] [Hok' Hb' He' Hn' _ _]. rewrite length_byte_bits in Hn'.
  split; rewrite <- ?app_assoc; [done | rewrite blen_app; unfold blen in *; lia | congruence | done | congruence].
Qed.

Lemma get_field_reads {A} `{CodecLaws A, !Image A} s pre rest (old a : A) :
  reads s pre (img a ++ rest) -> typed old -> valid a ->
  exists s', get_field s old = Ok (s', a) /\ reads s' (pre ++ img a) rest.
Proof.
  intros Hr Hold Ha. pose proof (reads_upcoming _ _ _ Hr) as Hu. rewrite byte_bits_app, <- img_enc in Hu by done.
  destruct (read_upcoming s old a (byte_bits rest)) as (s' & ok & E & Hc); [apply Hr | done | done | done |].
  exists s'. unfold get_field. rewrite E. split; [done|]. rewrite img_enc in Hc by done.
  by eapply reads_consumed.
Qed.

Lemma read_bytes_reads s pre d rest dest n :
  reads s pre (d ++ rest) -> is_bytes dest -> length dest = length d -> n = blen d ->
  exists s', read_bytes s dest n = Ok (s', d, n) /\ reads s' (pre ++ d) rest.
Proof.
  intros Hr Hd Hl Hn. pose proof (reads_upcoming _ _ _ Hr) as Hu. rewrite byte_bits_app in Hu.
  pose proof Hr as [[_ ? ? ?] Hnum He Hb _]. rewrite !blen_app in He.
  apply Forall_app in Hb as [_ Hb]. apply Forall_app in Hb as [Hb _].
  pose proof (blen_nonneg pre). pose proof (blen_nonneg rest).
  destruct (read_bytes_upcoming s dest d n (byte_bits rest)) as (s' & E & Hc); [apply Hr | done | done | done | done | lia | done |].
  exists s'. split; [done|]. by eapply reads_consumed.
Qed.

Lemma read_bytes_reads_prefix s pre d rest dest n :
  reads s pre (d ++ rest) -> is_bytes dest -> (length d <= length dest)%nat -> n = blen d ->
  exists s' dest', read_bytes s dest n = Ok (s', dest', n) /\ reads s' (pre ++ d) rest /\
    take (length d) dest' = d /\ length dest' = length dest.
Proof.
  intros Hr Hd Hl Hn. pose proof (reads_upcoming _ _ _ Hr) as Hu. rewrite byte_bits_app in Hu.
  pose proof Hr as [[_ ? ? ?] Hnum He Hb _]. rewrite !blen_app in He.
  apply Forall_app in Hb as [_ Hb]. apply Forall_app in Hb as [Hb _].
  pose proof (blen_nonneg pre). pose proof (blen_nonneg rest).
  destruct (read_bytes_prefix s dest d n (byte_bits rest)) as (s' & dest' & E & Hc & Ht); [apply Hr | done | done | done | done | lia | done |].
  exists s', dest'. split; [done|]. split; [by eapply reads_consumed | done].
Qed.

Lemma reads_position s pre rest : reads s pre rest -> get_next_byte_position s = blen pre.
Proof.
  intros [Hok Hn He _ _]. pose proof Hok as [_ ? _ ?]. unfold get_next_byte_position.
  rewrite Hn, u32_small, Z.shiftr_div_pow2 by (unfold in_u; lia). zlia.
Qed.

Lemma reads_set_position s pre rest : reads s pre rest -> reads (set_byte_position s (blen pre)) pre rest.
Proof.
  intros [Hok Hn He Hb Ht]. pose proof Hok as [? ? ? ?].
  assert (Hnum : bs_bit_num (set_byte_position s (blen pre)) = 8 * blen pre).
  { cbn. rewrite Z.shiftl_mul_pow2, u32_small by (unfold in_u; lia). lia. }
  split; try done. split; rewrite ?Hnum; cbn [bs_base bs_bit_end set_byte_position with_bit_num]; (done || lia).
Qed.

(** ** Signed and encrypted messages

    [opens secret e msg content]: whoever has [secret] reads [content] from [msg], the first
    [e] bytes of which are in the clear. *)
Definition signature (content : bytes) : bytes := take 5 (sha256_spec content).

Definition opens (secret : byte_buffer) (e : Z) (msg content : bytes) : Prop :=
  0 <= e <= blen content /\ is_bytes msg /\ is_bytes content /\ blen msg = blen content + 5 /\
  exists ct c', msg = take (Z.to_nat e) content ++ ct /\
    decrypt (new_cipher secret) ct = Ok (c', drop (Z.to_nat e) content ++ signature content).

Lemma length_signature content : length (signature content) = 5%nat.
Proof. unfold signature. rewrite length_take, length_sha256_spec. done. Qed.

Lemma seal_sent out content secret e :
  holds out content -> 0 <= e <= blen content -> blen content + 5 <= max_datagram_size ->
  exists out' msg, seal (Some secret) e out = Ok out' /\ opens secret e msg content /\
    forall a s, send_to_socket out' a s = Ok (tt, sent a msg s).
Proof.
  intros Hh He Hl. pose proof Hh as [Hok Hn Hend Hb Ht]. pose proof (holds_position _ _ Hh) as Hpos.
  destruct (seal_spec out (new_cipher secret) message_signature_bytes e) as
    (s' & c' & ct & E & Hp' & _ & Hct & Htake & Hdec & Hlen);
    [done | apply new_cipher_ok | done | by rewrite Hpos | unfold message_signature_bytes; lia |].
  rewrite Hpos in *. assert (Hc : take (Z.to_nat (blen content)) (bs_base out) = content).
  { unfold blen. by rewrite Nat2Z.id. }
  rewrite Hc in *. change (take (Z.to_nat message_signature_bytes) (sha256_spec content)) with (signature content) in *.
  assert (Hte : take (Z.to_nat e) (content ++ signature content) = take (Z.to_nat e) content).
  { rewrite take_app_le; [done|]. unfold blen in *. lia. }
  assert (Hde : drop (Z.to_nat e) (content ++ signature content) = drop (Z.to_nat e) content ++ signature content).
  { rewrite drop_app_le; [done|]. unfold blen in *. lia. }
  rewrite Hte in *. rewrite Hde in *. rewrite length_app, (length_app content), length_signature in Hlen.
  assert (Hm : blen (take (Z.to_nat e) content ++ ct) = blen content + 5).
  { unfold blen in *. rewrite length_app. lia. }
  exists s', (take (Z.to_nat e) content ++ ct). split_and!.
  - unfold seal, cipher_of_secret. cbn [of_option mbind result_bind]. by rewrite E.
  - split_and!; try done; [lia | lia | | by exists ct, c'].
    apply Forall_app. split; [by apply Forall_take | done].
  - intros a s. unfold send_to_socket, net_op, zoom, send_stream, udp_send_to. rewrite Hp'.
    destruct (Z.leb_spec (blen content + message_signature_bytes) (blen (bs_base s'))) as [|Hgt].
    2: { apply (f_equal length) in Htake. rewrite length_take, !length_app in Htake.
         unfold message_signature_bytes, blen in *. rewrite length_app in Hm. lia. }
    unfold mbind, M_bind, lift, modify. cbn [require]. by rewrite Htake.
Qed.

(** The receiver's side: the rest of the stream is the content without its signature. *)
Lemma unseal_reads s secret e msg content :
  opens secret e msg content -> reads s (take (Z.to_nat e) content) (drop (Z.to_nat e) msg) ->
  exists s', unseal (Some secret) e s = Ok (s', true) /\
    reads s' (take (Z.to_nat e) content) (drop (Z.to_nat e) content).
Proof.
  intros (He & Hbm & Hbc & Hl & ct & c' & -> & Hdec) Hr.
  set (pre := take (Z.to_nat e) content) in *. set (post := drop (Z.to_nat e) content) in *.
  assert (Hpre : length pre = Z.to_nat e) by (unfold pre, blen in *; rewrite length_take; lia).
  assert (Hcont : content = pre ++ post) by (symmetry; apply take_drop).
  assert (Hdrop : drop (Z.to_nat e) (pre ++ ct) = ct) by (by rewrite <- Hpre, drop_app_length).
  rewrite Hdrop in Hr. destruct Hr as [Hok Hn Hend Hb Ht]. pose proof Hok as [Hbb _ Hle Hsz].
  set (tail := drop (length (pre ++ ct)) (bs_base s)).
  assert (Hbase : bs_base s = pre ++ ct ++ tail).
  { rewrite app_assoc, <- Ht at 1. symmetry. apply take_drop. }
  assert (Hlen : length ct = (length post + 5)%nat).
  { rewrite Hcont in Hl. unfold blen in Hl. rewrite !length_app in Hl. lia. }
  assert (Hsize : get_stream_byte_size s = blen (pre ++ ct)).
  { unfold get_stream_byte_size. pose proof (blen_nonneg (pre ++ ct)).
    rewrite Hend, u32_small, Z.shiftr_div_pow2 by (unfold in_u; lia). zlia. }
  assert (Hbl : blen (pre ++ ct) = e + blen post + 5) by (unfold blen in *; rewrite length_app; lia).
  pose proof (blen_nonneg post). unfold unseal, cipher_of_secret. cbn [of_option mbind result_bind].
  unfold bit_stream_decrypt_and_check_hash. rewrite Hsize.
  change message_signature_bytes with 5. rewrite !u32_small by (unfold in_u; lia).
  destruct (Z.ltb_spec (blen (pre ++ ct)) (e + 5)); [lia|].
  unfold in_place. destruct (Z.leb_spec 0 e); [|lia].
  destruct (Z.leb_spec (e + (blen (pre ++ ct) - e)) (blen (bs_base s))); [|lia].
  cbn [andb require mbind result_bind].
  assert (Htk : take (Z.to_nat (blen (pre ++ ct) - e)) (drop (Z.to_nat e) (bs_base s)) = ct).
  { rewrite Hbase, <- Hpre, drop_app_length, take_app_le, take_ge; [done | |]; unfold blen in *; lia. }
  rewrite Htk, Hdec. cbn [mbind result_bind].
  assert (Hov : overwrite (bs_base s) e (post ++ signature content) = pre ++ post ++ signature content ++ tail).
  { unfold overwrite. rewrite Hbase, <- Hpre, take_app_length, <- app_assoc. do 3 f_equal.
    rewrite length_app, length_signature, app_assoc, drop_app_ge by (rewrite length_app; lia).
    replace (_ - _)%nat with 0%nat by (rewrite length_app; lia). done. }
  rewrite Hov. cbn [with_base bs_base].
  assert (Hn5 : blen (pre ++ ct) - 5 = blen content).
  { rewrite Hcont. unfold blen in *. rewrite !length_app. lia. }
  rewrite Hn5, app_assoc, <- Hcont.
  assert (Hbc2 : blen (content ++ signature content ++ tail) = blen content + 5 + blen tail).
  { rewrite !blen_app. unfold blen. rewrite length_signature. lia. }
  pose proof (blen_nonneg tail). pose proof (blen_nonneg content).
  rewrite sha256_of_spec by lia. cbn [mbind result_bind].
  assert (Htc : take (Z.to_nat (blen content)) (content ++ signature content ++ tail) = content).
  { unfold blen. by rewrite Nat2Z.id, take_app_length. }
  rewrite Htc. destruct (Z.leb_spec (blen content + 5) (blen (content ++ signature content ++ tail))); [|lia].
  destruct (Z.leb_spec 5 (blen (sha256_spec content))) as [|Hx];
    [|unfold blen in Hx; rewrite length_sha256_spec in Hx; lia].
  cbn [andb require mbind result_bind].
  rewrite bool_decide_eq_true_2.
  2: { unfold blen. rewrite Nat2Z.id, drop_app_length. change (Z.to_nat 5) with 5%nat.
       rewrite <- (length_signature content) at 1. by rewrite take_app_length. }
  eexists. split; [done|].
  assert (Hu : u32 (blen content * 8) = 8 * blen content) by (rewrite u32_small by (unfold in_u; lia); lia).
  assert (Hpc : blen pre <= blen content) by (rewrite Hcont, blen_app; lia).
  pose proof (blen_nonneg pre).
  split; cbn [bs_bit_num bs_bit_end bs_base set_stream_byte_size with_base]; rewrite ?Hu.
  - split; cbn [bs_bit_num bs_bit_end bs_base set_stream_byte_size with_base]; rewrite ?Hu; try lia.
    rewrite Hbase in Hbb. apply Forall_app in Hbb as [_ Hbb]. apply Forall_app in Hbb as [_ Hbb].
    apply Forall_app. split; [done|]. apply Forall_app. split; [apply Forall_take, is_bytes_sha256_spec | done].
  - done.
  - by rewrite <- Hcont.
  - by rewrite <- Hcont.
  - by rewrite <- Hcont, take_app_length.
Qed.
End wire.

(** ** Writing and reading the fields of a message *)
Notation u8_img v := (img (Scalar v : uint8)).
Notation u32_img v := (img (Scalar v : uint32)).
Notation u64_img v := (img (Scalar v : uint64)).


Ltac side := cbn [valid scalar_codec byte_buffer_codec sval img scalar_image buffer_image];
  rewrite ?blen_app, ?blen_le_bytes; change (blen []) with 0; unfold max_datagram_size in *;
  (done || lia || auto with words).

(** One field more in the stream [out] of [Hh : holds out b]. *)
Ltac put_step Hh :=
  match type of Hh with
  | holds ?out ?b =>
      match goal with
      | |- context [@put_field _ ?C ?a out] =>
          let out' := fresh "out" in let E := fresh "E" in let Hh' := fresh "Hh" in
          destruct (put_field_holds out b a Hh) as (out' & E & Hh'); [side | side |];
          rewrite E; cbn [mbind result_bind]; clear Hh E; rename Hh' into Hh
      end
  end.


Section fields.
Context `{Machine, Ecc, BlockCipher}.

(** Reading the fields back. *)
Lemma read_nonce_reads s pre rest old v :
  reads s pre (u64_img v ++ rest) -> is_u64 old -> is_u64 v ->
  exists s', read_nonce_into old s = Ok (s', v) /\ reads s' (pre ++ u64_img v) rest.
Proof.
  intros Hr Ho Hv. destruct (get_field_reads s pre rest (Scalar old : uint64) (Scalar v) Hr Ho Hv) as (s' & E & Hr').
  exists s'. unfold read_nonce_into. by rewrite E.
Qed.
Lemma read_uint32_reads s pre rest old v :
  reads s pre (u32_img v ++ rest) -> is_u32 old -> is_u32 v ->
  exists s', read_uint32_into old s = Ok (s', v) /\ reads s' (pre ++ u32_img v) rest.
Proof.
  intros Hr Ho Hv. destruct (get_field_reads s pre rest (Scalar old : uint32) (Scalar v) Hr Ho Hv) as (s' & E & Hr').
  exists s'. unfold read_uint32_into. by rewrite E.
Qed.
Lemma read_uint8_reads s pre rest old v :
  reads s pre (u8_img v ++ rest) -> is_u8 old -> is_u8 v ->
  exists s', read_uint8_into old s = Ok (s', v) /\ reads s' (pre ++ u8_img v) rest.
Proof.
  intros Hr Ho Hv. destruct (get_field_reads s pre rest (Scalar old : uint8) (Scalar v) Hr Ho Hv) as (s' & E & Hr').
  exists s'. unfold read_uint8_into. by rewrite E.
Qed.
Lemma read_buffer_reads s pre rest b :
  reads s pre (img b ++ rest) -> byte_buffer.buffer_ok b ->
  exists s', read_buffer_ptr s = Ok (s', b) /\ reads s' (pre ++ img b) rest.
Proof.
  intros Hr Hb. destruct (get_field_reads s pre rest b b Hr (proj1 Hb) Hb) as (s' & E & Hr').
  exists s'. split; [|done]. unfold get_field in E. cbn [read byte_buffer_codec] in E. unfold read_buffer_ptr.
  destruct (byte_buffer.read_buffer s) as [[[s1 b1] ok]|]; [|done]. cbn in *. by injection E as -> ->.
Qed.

Lemma key_of_stream_reads s pre rest b k :
  reads s pre (img b ++ rest) -> byte_buffer.buffer_ok b -> load Uninitialised (byte_buffer.data b) = Ok k ->
  exists s', key_of_stream s = Ok (s', k) /\ reads s' (pre ++ img b) rest.
Proof.
  intros Hr Hb Hk. destruct (read_buffer_reads s pre rest b Hr Hb) as (s' & E & Hr'). exists s'. split; [|done].
  unfold read_buffer_ptr in E. unfold key_of_stream.
  destruct (byte_buffer.read_buffer s) as [[[s1 b1] ok]|]; [|done]. cbn in *. injection E as -> ->. by rewrite Hk.
Qed.

End fields.

(** One field less in the stream of [Hr : reads s pre rest]. *)
Ltac read_with Hr lem :=
  let s' := fresh "st" in let E := fresh "E" in let Hr' := fresh "Hr" in
  destruct lem as (s' & E & Hr');
  [try done; auto using indeterminate_range with words .. |];
  rewrite (lift_step _ _ _ _ E); clear Hr E; rename Hr' into Hr; cbn beta iota.
Ltac read_step Hr :=
  match goal with
  | |- context [(lift (read_nonce_into ?old _) ≫= _) _] => read_with Hr (read_nonce_reads _ _ _ old _ Hr)
  | |- context [(lift (read_uint32_into ?old _) ≫= _) _] => read_with Hr (read_uint32_reads _ _ _ old _ Hr)
  | |- context [(lift (read_uint8_into ?old _) ≫= _) _] => read_with Hr (read_uint8_reads _ _ _ old _ Hr)
  | |- context [(lift (read_bytes _ ?dest ?n) ≫= _) _] => read_with Hr (read_bytes_reads _ _ _ _ dest n Hr)
  | |- context [(lift (read_buffer_ptr _) ≫= _) _] => read_with Hr (read_buffer_reads _ _ _ _ Hr)
  end.
