(* ===== verification/Handshake.v ===== *)
(** * The connection handshake: torque_sockets/torque_socket.h

    The senders and the packet handlers of the class, one definition each: the introduction
    of two peers by a third, the challenge with its client puzzle, the connect request and
    its answers, and disconnects.  A pointer that is followed while it is null, or to an
    object that was deleted, is the fault [null_deref]. *)
From S2P Require Import Prelude Endian BitStream StreamIO Address EventQueue Cipher Net Connection HashStream Sha256 BufferUtils Puzzle AsymmetricKey ThreadQueue Pending Connections SocketState.
#[local] Open Scope Z_scope.
Import pending.
Notation pend_deref := pending.deref.
Notation pend_assign := pending.assign.
Notation conn_deref := connections.deref.
Notation conn_assign := connections.assign.

Section handshake.
Context `{Machine, Ecc, BlockCipher}.

Definition _find_connection (id : Z) : M torque_socket (option loc) := conns (connections._find_connection id).
Definition _find_connection_by_address (a : address) : M torque_socket (option loc) :=
  conns (connections._find_connection_by_address a).

(** [the_connection->...] of a pointer that may be null. *)
Definition conn_of (p : option loc) : M torque_socket torque_connection :=
  p ← lift (of_option null_deref p); conns (conn_deref p).

(** The first record of the pending list that passes a test. *)
Definition find_pending_where (test : pending_connection -> bool) : M torque_socket (option loc) :=
  pend (find_pending test).

(** ** Introductions *)
Definition _send_introduction_request (the_connection : loc) : M torque_socket unit :=
  x ← pend (pend_deref the_connection);
  introducing_connection ← _find_connection (_introducer x);
  match introducing_connection with
  | None => mret tt
  | Some introducing_connection =>
      c ← conns (conn_deref introducing_connection);
      out ← lift (
        out ← packet introduced_connection_request_packet;
        out ← write_nonce (Connection._initiator_nonce c) out;
        out ← write_uint32 (_remote_client_id x) out;
        write_uint8 (if decide (_type x = introduced_connection_initiator) then 1 else 0) out);
      send_to_socket out (Connection._address c)
  end.

Definition _send_introduction (intro_target remote_host initiator_nonce host_nonce : Z) : M torque_socket unit :=
  connection ← _find_connection intro_target;
  remote ← _find_connection remote_host;
  match connection, remote with
  | Some connection, Some remote =>
      c ← conns (conn_deref connection);
      r ← conns (conn_deref remote);
      out ← lift (
        out ← packet connection_introduction_packet;
        out ← write_nonce (Connection._initiator_nonce c) out;
        out ← write_uint32 remote_host out;
        out ← put_field (Connection._address r) out;
        out ← write_nonce initiator_nonce out;
        write_nonce host_nonce out);
      send_to_socket out (Connection._address c)
  | _, _ => mret tt
  end.

Definition with_request_received (is_initiator : bool) (r : introduction_record) : introduction_record :=
  mk_introduction (intro_initiator_nonce r) (intro_host_nonce r) (intro_initiator r) (intro_host r)
    (initiator_request_received r || is_initiator) (host_request_received r || negb is_initiator)
    (initial_intro_sent r) (introduction_time r).

Definition send_to_initiator (r : introduction_record) : M torque_socket unit :=
  _send_introduction (intro_initiator r) (intro_host r) (intro_initiator_nonce r) (intro_host_nonce r).
Definition send_to_host (r : introduction_record) : M torque_socket unit :=
  _send_introduction (intro_host r) (intro_initiator r) (intro_initiator_nonce r) (intro_host_nonce r).

(** The loop over [_introductions], from index [i] on. *)
Fixpoint introduction_loop (n i : nat) (initiating_connection hosting_connection : Z) (is_initiator : bool)
    : M torque_socket unit :=
  match n with
  | O => mret tt
  | S n =>
      intros ← gets _introductions;
      intro ← lift (of_option out_of_bounds (intros !! i));
      _ ← (if (intro_initiator intro =? initiating_connection) && (intro_host intro =? hosting_connection) then
             let intro := with_request_received is_initiator intro in
             _ ← modify (with_introductions (<[i := intro]> intros));
             if initiator_request_received intro && host_request_received intro then
               if negb (initial_intro_sent intro) then
                 _ ← send_to_initiator intro; send_to_host intro
               else if is_initiator then send_to_initiator intro else send_to_host intro
             else mret tt
           else mret tt);
      introduction_loop n (S i) initiating_connection hosting_connection is_initiator
  end.

Definition _handle_introduction_request (addr : address) (stream : bit_stream) : M torque_socket unit :=
  '(stream, requestor_nonce) ← lift (read_nonce stream);
  '(stream, remote_id) ← lift (read_uint32 stream);
  '(stream, is_initiator) ← lift (read_uint8 stream);
  let is_initiator := negb (is_initiator =? 0) in
  requesting ← _find_connection_by_address addr;
  match requesting with
  | None => mret tt
  | Some requesting =>
      c ← conns (conn_deref requesting);
      if negb (Connection._initiator_nonce c =? requestor_nonce) then mret tt else
      let id := Connection._connection_index c in
      let initiating_connection := if is_initiator then id else remote_id in
      let hosting_connection := if is_initiator then remote_id else id in
      n ← gets (fun s => length (_introductions s));
      introduction_loop n 0 initiating_connection hosting_connection is_initiator
  end.

(** One punch packet to every address the peer may have. *)
Fixpoint punch_loop (x : pending_connection) (addresses : list address) : M torque_socket unit :=
  match addresses with
  | [] => mret tt
  | a :: addresses =>
      out ← lift (
        out ← packet punch_packet;
        out ← write_nonce (_initiator_nonce x) out;
        write_nonce (_host_nonce x) out);
      _ ← send_to_socket out a;
      punch_loop x addresses
  end.

Definition _send_punch (the_connection : loc) : M torque_socket unit :=
  x ← pend (pend_deref the_connection); punch_loop x (_possible_addresses x).

Definition _handle_introduction (the_address : address) (packet_stream : bit_stream) : M torque_socket unit :=
  introducer ← _find_connection_by_address the_address;
  '(packet_stream, introducer_nonce) ← lift (read_nonce packet_stream);
  c ← conn_of introducer;
  if negb (Connection._initiator_nonce c =? introducer_nonce) then mret tt else
  '(packet_stream, remote_id) ← lift (read_uint32 packet_stream);
  '(packet_stream, remote_address) ← lift (get_field packet_stream (address_of_name any 0));
  '(packet_stream, initiator_nonce) ← lift (read_nonce packet_stream);
  '(packet_stream, host_nonce) ← lift (read_nonce packet_stream);
  walk ← find_pending_where (fun x =>
    (_introducer x =? Connection._connection_index c) && (_remote_client_id x =? remote_id) &&
    bool_decide (_state x = requesting_introduction));
  match walk with
  | None => mret tt
  | Some walk =>
      now ← get_process_start_time;
      _ ← pend (pend_assign walk (fun x =>
        start_timer punch_retry_count introduced_connection_connect_timeout now
          (set_state sending_punch_packets
            (with_possible_addresses (_possible_addresses x ++ [remote_address])
              (with_host_nonce host_nonce (with_initiator_nonce initiator_nonce x))))));
      _send_punch walk
  end.

(** ** The challenge *)
Definition _send_challenge_request (the_connection : loc) : M torque_socket unit :=
  x ← pend (pend_deref the_connection);
  out ← lift (
    out ← packet connect_challenge_request_packet;
    out ← write_nonce (_initiator_nonce x) out;
    write_nonce (_host_nonce x) out);
  send_to_socket out (_address x).

(** The loop of [_handle_punch], which does not stop at the first match. *)
Fixpoint punched_loop (fuel : nat) (the_address : address) (initiator_nonce host_nonce : Z) (walk : option loc)
    : M torque_socket unit :=
  match walk with
  | None => mret tt
  | Some p =>
      match fuel with
      | O => lift (Fault out_of_fuel)
      | S fuel =>
          x ← pend (pend_deref p);
          _ ← (if (_initiator_nonce x =? initiator_nonce) && (_host_nonce x =? host_nonce) &&
                  bool_decide (_state x = sending_punch_packets) &&
                  bool_decide (_type x = introduced_connection_initiator) then
                 now ← get_process_start_time;
                 _ ← pend (pend_assign p (fun x =>
                   start_timer challenge_retry_count challenge_retry_time now
                     (set_address the_address (set_state requesting_challenge_response x))));
                 _send_challenge_request p
               else mret tt);
          x ← pend (pend_deref p);
          punched_loop fuel the_address initiator_nonce host_nonce (_next x)
      end
  end.

Definition _handle_punch (the_address : address) (packet_stream : bit_stream) : M torque_socket unit :=
  '(packet_stream, initiator_nonce) ← lift (read_nonce packet_stream);
  '(packet_stream, host_nonce) ← lift (read_nonce packet_stream);
  l ← gets _pendings;
  punched_loop (base.size (heap l)) the_address initiator_nonce host_nonce (_pending_connections l).

Definition _send_connect_challenge_response (addr : address) (initiator_nonce : Z) : M torque_socket unit :=
  identity_token ← compute_client_identity_token addr initiator_nonce;
  s ← get;
  out ← lift (
    out ← packet connect_challenge_response_packet;
    out ← write_nonce initiator_nonce out;
    out ← write_uint32 identity_token out;
    out ← write_nonce (get_current_nonce (_puzzle_manager s)) out;
    out ← write_uint32 (get_current_difficulty (_puzzle_manager s)) out;
    key ← of_option null_deref (SocketState._private_key s);
    out ← write_buffer_ptr (AsymmetricKey._public_key key) out;
    write_buffer_ptr (_challenge_response s) out);
  send_to_socket out addr.

(** The host nonce the list is searched with is a local that nothing is read into. *)
Definition _handle_connect_challenge_request (addr : address) (stream : bit_stream) : M torque_socket unit :=
  allow ← gets _allow_connections;
  if negb allow then mret tt else
  '(stream, initiator_nonce) ← lift (read_nonce stream);
  let host_nonce := indeterminate in
  conn ← find_pending_where (fun x =>
    bool_decide (_state x = sending_punch_packets) && bool_decide (_type x = introduced_connection_host) &&
    (initiator_nonce =? _initiator_nonce x) && (host_nonce =? _host_nonce x));
  _ ← match conn with
      | None => mret tt
      | Some conn =>
          now ← get_process_start_time;
          pend (pend_assign conn (fun x =>
            start_timer 0 introduced_connection_connect_timeout now
              (set_state awaiting_connect_request (set_address addr x))))
      end;
  _send_connect_challenge_response addr initiator_nonce.

Definition _handle_connect_challenge_response (the_address : address) (stream : bit_stream) : M torque_socket unit :=
  conn ← pend (_find_pending_connection_by_address the_address);
  match conn with
  | None => mret tt
  | Some conn =>
      x ← pend (pend_deref conn);
      if negb (bool_decide (_state x = requesting_challenge_response)) then mret tt else
      '(stream, initiator_nonce) ← lift (read_nonce stream);
      if negb (initiator_nonce =? _initiator_nonce x) then mret tt else
      '(stream, client_identity) ← lift (read_uint32_into (_client_identity (_puzzle x)) stream);
      _ ← pend (pend_assign conn (with_client_identity client_identity));
      '(stream, host_nonce) ← lift (read_nonce_into (_host_nonce x) stream);
      _ ← pend (pend_assign conn (with_host_nonce host_nonce));
      '(stream, puzzle_difficulty) ← lift (read_uint32_into (_puzzle_difficulty (_puzzle x)) stream);
      _ ← pend (pend_assign conn (with_puzzle_difficulty puzzle_difficulty));
      if max_puzzle_difficulty <? puzzle_difficulty then mret tt else
      '(stream, public_key) ← lift (key_of_stream stream);
      _ ← pend (pend_assign conn (with_public_key (Some public_key)));
      if negb (_is_valid public_key) then mret tt else
      own_key ← gets SocketState._private_key;
      private_key ← lift
        match own_key with
        | Some k => if _key_size k =? _key_size public_key then Ok k else key_of_size (_key_size public_key)
        | None => key_of_size (_key_size public_key)
        end;
      _ ← pend (pend_assign conn (with_private_key (Some private_key)));
      secret ← lift (compute_shared_secret_key private_key public_key);
      _ ← pend (pend_assign conn (set_shared_secret secret));
      symmetric_key ← rand (random_buffer cipher_key_size);
      _ ← pend (pend_assign conn (with_symmetric_key symmetric_key));
      '(stream, response_data) ← lift (read_buffer_ptr stream);
      event ← queue (post_event torque_connection_challenge_response_event_type (_connection_index x));
      k ← lift (get_public_key public_key);
      _ ← queue (set_event_key event (byte_buffer.data k) (byte_buffer.get_buffer_size k));
      _ ← queue (set_event_data event (byte_buffer.data response_data) (byte_buffer.get_buffer_size response_data));
      now ← get_process_start_time;
      pend (pend_assign conn (fun x =>
        start_timer 0 introduction_timeout now (set_state awaiting_local_challenge_accept x)))
  end.

(** ** The connect request *)

(** The message up to the signature, and where the encryption starts. *)
Definition connect_request_message (x : pending_connection) : result (bit_stream * Z) :=
  out ← packet connect_request_packet;
  out ← write_nonce (_initiator_nonce x) out;
  out ← write_nonce (_host_nonce x) out;
  out ← write_uint32 (_client_identity (_puzzle x)) out;
  out ← write_uint32 (_puzzle_difficulty (_puzzle x)) out;
  out ← write_uint32 (_puzzle_solution (_puzzle x)) out;
  key ← of_option null_deref (_private_key x);
  out ← write_buffer_ptr (AsymmetricKey._public_key key) out;
  let encrypt_pos := get_next_byte_position out in
  let out := set_byte_position out encrypt_pos in
  '(out, _) ← write_bytes out (_symmetric_key x) cipher_key_size;
  out ← write_uint32 (_initial_send_sequence x) out;
  out ← write_buffer_ptr (_packet_data x) out;
  Ok (out, encrypt_pos).

Definition _send_connect_request (conn : loc) : M torque_socket unit :=
  x ← pend (pend_deref conn);
  '(out, encrypt_pos) ← lift (connect_request_message x);
  out ← lift (seal (_shared_secret x) encrypt_pos out);
  send_to_socket out (_address x).

Definition _send_connect_accept (conn : loc) : M torque_socket unit :=
  c ← conns (conn_deref conn);
  out ← lift (
    out ← packet connect_accept_packet;
    out ← write_nonce (Connection._initiator_nonce c) out;
    out ← write_nonce (Connection._host_nonce c) out;
    let encrypt_pos := get_next_byte_position out in
    let out := set_byte_position out encrypt_pos in
    out ← write_uint32 (_initial_send_seq (_window c)) out;
    cipher ← of_option null_deref (Connection._symmetric_cipher c);
    '(out, _) ← write_bytes out (get_init_vector cipher) cipher_key_size;
    seal (Connection._shared_secret c) encrypt_pos out);
  send_to_socket out (Connection._address c).

Definition _send_connect_reject (initiator_nonce host_nonce : Z) (the_address : address) (reason : Z)
    : M torque_socket unit :=
  out ← lift (
    out ← packet connect_reject_packet;
    out ← write_nonce initiator_nonce out;
    out ← write_nonce host_nonce out;
    write_uint32 reason out);
  send_to_socket out the_address.

(** The message of [_disconnect]. *)
Definition disconnect_message (c : torque_connection) (reason_code : Z) (disconnect_data : bytes)
    (disconnect_data_size : Z) : result bit_stream :=
  out ← packet disconnect_packet;
  out ← write_nonce (Connection._initiator_nonce c) out;
  out ← write_nonce (Connection._host_nonce c) out;
  let encrypt_pos := get_next_byte_position out in
  let out := set_byte_position out encrypt_pos in
  out ← write_uint32 reason_code out;
  out ← write_uint32 disconnect_data_size out;
  '(out, _) ← write_bytes out disconnect_data disconnect_data_size;
  seal (Connection._shared_secret c) encrypt_pos out.

Definition _disconnect (connection_id : Z) (reason : disconnect_reason) (disconnect_data : bytes)
    (disconnect_data_size : Z) : M torque_socket unit :=
  _ ← lift (require (disconnect_data_size <=? torque_sockets_max_status_datagram_size) assertion_failed);
  connection ← _find_connection connection_id;
  match connection with
  | Some connection =>
      c ← conns (conn_deref connection);
      out ← lift (disconnect_message c (reason_code reason) disconnect_data disconnect_data_size);
      _ ← send_to_socket out (Connection._address c);
      conns (connections._remove_connection connection)
  | None =>
      pending ← pend (_find_pending_connection connection_id);
      match pending with
      | Some pending => pend (_remove_pending_connection pending)
      | None => mret tt
      end
  end.

(** [pending && pending->get_state() == ...], with the nonces. *)
Definition same_nonces (x : pending_connection) (initiator_nonce host_nonce : Z) : bool :=
  (_initiator_nonce x =? initiator_nonce) && (_host_nonce x =? host_nonce).

(** What [_handle_connect_request] does with the record once the message is authentic. *)
Definition accept_request (pending : loc) (the_address : address) (stream : bit_stream) (existing : option loc)
    (host_nonce : Z) (shared_secret : option byte_buffer) (public_key : asymmetric_key) : M torque_socket unit :=
  x ← pend (pend_deref pending);
  '(stream, symmetric_key, _) ← lift (read_bytes stream (_symmetric_key x) cipher_key_size);
  _ ← pend (pend_assign pending (with_symmetric_key symmetric_key));
  init_vector ← rand (random_buffer cipher_key_size);
  _ ← pend (pend_assign pending (with_init_vector init_vector));
  '(stream, connect_sequence) ← lift (read_uint32 stream);
  _ ← match existing with
      | Some existing =>
          c ← conns (conn_deref existing);
          _disconnect (Connection._connection_index c) reason_self_disconnect [] 0
      | None => mret tt
      end;
  _ ← pend (pend_assign pending (fun x =>
        set_symmetric_cipher (Some (new_cipher_key_iv symmetric_key init_vector))
          (set_initial_recv_sequence connect_sequence
            (set_address the_address (set_shared_secret shared_secret (with_host_nonce host_nonce x))))));
  '(stream, connect_request_data) ← lift (read_buffer_ptr stream);
  _ ← pend (_add_pending_connection pending);
  x ← pend (pend_deref pending);
  event ← queue (post_event torque_connection_requested_event_type (_connection_index x));
  k ← lift (get_public_key public_key);
  _ ← queue (set_event_key event (byte_buffer.data k) (byte_buffer.get_buffer_size k));
  queue (set_event_data event (byte_buffer.data connect_request_data)
           (byte_buffer.get_buffer_size connect_request_data)).

(** The record the request is for: the pending one, or a new one for the host. *)
Definition request_record (pending : option loc) (initiator_nonce : Z) : M torque_socket loc :=
  match pending with
  | Some pending => mret pending
  | None =>
      sequence ← rand random_integer;
      index ← new_connection_index;
      pend (pending.allocate (new_pending_connection connection_host initiator_nonce sequence index))
  end.

(** From the identity check on; [existing] and [pending] were looked up before. *)
Definition check_request (the_address : address) (stream : bit_stream) (initiator_nonce host_nonce : Z)
    (existing pending : option loc) (pending_record : option pending_connection) : M torque_socket unit :=
  '(stream, client_identity) ← lift (read_uint32 stream);
  token ← compute_client_identity_token the_address initiator_nonce;
  if negb (client_identity =? token) then mret tt else
  '(stream, puzzle_difficulty) ← lift (read_uint32 stream);
  '(stream, puzzle_solution) ← lift (read_uint32 stream);
  manager ← gets _puzzle_manager;
  '(manager, result) ← lift (check_solution manager puzzle_solution initiator_nonce host_nonce
    puzzle_difficulty client_identity);
  _ ← modify (with_puzzle_manager manager);
  if negb (bool_decide (result = success)) then
    _send_connect_reject initiator_nonce host_nonce the_address (reason_code reason_failed_puzzle)
  else if match pending_record with Some x => negb (same_nonces x initiator_nonce host_nonce) | None => false end
  then mret tt else
  own_key ← gets SocketState._private_key;
  match own_key with
  | None => mret tt
  | Some own_key =>
      '(stream, public_key) ← lift (key_of_stream stream);
      let decrypt_pos := get_next_byte_position stream in
      let stream := set_byte_position stream decrypt_pos in
      shared_secret ← lift (compute_shared_secret_key own_key public_key);
      '(stream, ok) ← lift (unseal shared_secret decrypt_pos stream);
      if negb ok then mret tt else
      pending ← request_record pending initiator_nonce;
      accept_request pending the_address stream existing host_nonce shared_secret public_key
  end.

(** Reading a record through a pointer that may be null. *)
Definition pending_of (p : option loc) : M torque_socket (option pending_connection) :=
  match p with
  | Some p => x ← pend (pend_deref p); mret (Some x)
  | None => mret None
  end.

Definition state_is (s : pending_connection_state) (x : option pending_connection) : bool :=
  match x with Some x => bool_decide (_state x = s) | None => false end.

Definition _handle_connect_request (the_address : address) (stream : bit_stream) : M torque_socket unit :=
  '(stream, initiator_nonce) ← lift (read_nonce stream);
  '(stream, host_nonce) ← lift (read_nonce stream);
  existing ← _find_connection_by_address the_address;
  _ ← match existing with
      | Some existing =>
          c ← conns (conn_deref existing);
          when ((Connection._initiator_nonce c =? initiator_nonce) && (Connection._host_nonce c =? host_nonce))
            (_send_connect_accept existing)
      | None => mret tt
      end;
  pending ← pend (_find_pending_connection_by_address the_address);
  pending_record ← pending_of pending;
  if state_is awaiting_local_accept pending_record &&
     match pending_record with Some x => same_nonces x initiator_nonce host_nonce | None => false end
  then mret tt else
  allow ← gets _allow_connections;
  if negb allow && negb (state_is awaiting_connect_request pending_record) then mret tt else
  check_request the_address stream initiator_nonce host_nonce existing pending pending_record.

(** ** The answers *)

(** The connection made from a pending one. *)
Definition connection_of_pending (x : pending_connection) (is_initiator : bool) (recv_sequence : Z)
    (cipher : option symmetric_cipher) : torque_connection :=
  let c := new_torque_connection (_initiator_nonce x) (_initial_send_sequence x) (_connection_index x) is_initiator in
  let c := with_window (Connection.set_initial_recv_sequence recv_sequence (_window c)) c in
  with_cipher cipher (with_peer (_address x) (_shared_secret x) (_host_nonce x) c).

(** The cipher made from the init vector of the message is not stored. *)
Definition _handle_connect_accept (the_address : address) (stream : bit_stream) : M torque_socket unit :=
  '(stream, initiator_nonce) ← lift (read_nonce stream);
  '(stream, host_nonce) ← lift (read_nonce stream);
  let decrypt_pos := get_next_byte_position stream in
  let stream := set_byte_position stream decrypt_pos in
  pending ← pend (_find_pending_connection_by_address the_address);
  match pending with
  | None => mret tt
  | Some pending =>
      x ← pend (pend_deref pending);
      if negb (bool_decide (_state x = requesting_connection)) || negb (same_nonces x initiator_nonce host_nonce)
      then mret tt else
      '(stream, ok) ← lift (unseal (_shared_secret x) decrypt_pos stream);
      if negb ok then mret tt else
      '(stream, recv_sequence) ← lift (read_uint32 stream);
      '(stream, init_vector, _) ← lift (read_bytes stream (malloc block_size) block_size);
      the_connection ← conns (connections.allocate (connection_of_pending x true recv_sequence None));
      _ ← pend (_remove_pending_connection pending);
      _ ← conns (connections._add_connection the_connection);
      _ ← queue (post_event torque_connection_established_event_type (_connection_index x));
      mret tt
  end.

Definition _handle_connect_reject (the_address : address) (stream : bit_stream) : M torque_socket unit :=
  '(stream, initiator_nonce) ← lift (read_nonce stream);
  '(stream, host_nonce) ← lift (read_nonce stream);
  pending ← pend (_find_pending_connection_by_address the_address);
  match pending with
  | None => mret tt
  | Some pending =>
      x ← pend (pend_deref pending);
      if negb (bool_decide (_state x = requesting_challenge_response)) &&
         negb (bool_decide (_state x = requesting_connection)) then mret tt else
      if negb (same_nonces x initiator_nonce host_nonce) then mret tt else
      '(stream, reason) ← lift (read_uint32 stream);
      if (reason =? reason_code reason_failed_puzzle) && negb (_puzzle_retried (_puzzle x)) then
        now ← get_process_start_time;
        _ ← pend (pend_assign pending (fun x =>
          start_timer challenge_retry_count challenge_retry_time now
            (set_state requesting_challenge_response (with_puzzle_retried true x))));
        fresh ← rand random_nonce;
        _ ← pend (pend_assign pending (with_initiator_nonce fresh));
        _send_challenge_request pending
      else
        _ ← queue (post_event torque_connection_disconnected_event_type (_connection_index x));
        pend (_remove_pending_connection pending)
  end.

(** A disconnect for a pending connection reads the index of the connection that was not
    found: [conn_of conn] is a null dereference there. *)
Definition _handle_disconnect (the_address : address) (stream : bit_stream) : M torque_socket unit :=
  '(stream, initiator_nonce) ← lift (read_nonce stream);
  '(stream, host_nonce) ← lift (read_nonce stream);
  conn ← _find_connection_by_address the_address;
  match conn with
  | Some conn' =>
      c ← conns (conn_deref conn');
      if negb (initiator_nonce =? Connection._initiator_nonce c) || negb (host_nonce =? Connection._host_nonce c)
      then mret tt else
      let decrypt_pos := get_next_byte_position stream in
      let stream := set_byte_position stream decrypt_pos in
      '(stream, ok) ← lift (unseal (Connection._shared_secret c) decrypt_pos stream);
      if negb ok then mret tt else
      '(stream, code) ← lift (read_uint32 stream);
      '(stream, disconnect_data_size) ← lift (read_uint32 stream);
      let disconnect_data_size := Z.min disconnect_data_size torque_sockets_max_status_datagram_size in
      '(stream, disconnect_data, _) ← lift (read_bytes stream (malloc torque_sockets_max_status_datagram_size)
        disconnect_data_size);
      event ← queue (post_event torque_connection_disconnected_event_type (Connection._connection_index c));
      _ ← queue (set_event_data event disconnect_data disconnect_data_size);
      conns (connections._remove_connection conn')
  | None =>
      pending ← pend (_find_pending_connection_by_address the_address);
      match pending with
      | None => mret tt
      | Some pending =>
          x ← pend (pend_deref pending);
          if negb (same_nonces x initiator_nonce host_nonce) then mret tt else
          c ← conn_of conn;
          _ ← queue (post_event torque_connection_disconnected_event_type (Connection._connection_index c));
          pend (_remove_pending_connection pending)
      end
  end.

(** ** Dispatch *)
Definition _handle_info_packet (the_address : address) (stream : bit_stream) : M torque_socket unit :=
  event ← queue (post_event torque_socket_packet_event_type 0);
  _ ← queue (set_event_data event (bs_base stream) (get_stream_byte_size stream));
  queue (update_event event (with_source (to_sockaddr the_address))).

(** [conn->f(...)] for a connection that updates itself through its socket. *)
Definition on_connection {A} (p : loc) (f : torque_connection -> M net (torque_connection * A)) : M torque_socket A :=
  c ← conns (conn_deref p);
  '(c, a) ← net_op (f c);
  _ ← conns (conn_assign p (fun _ => c));
  mret a.

Definition dispatch_packet (packet_type : Z) (the_address : address) (packet_stream : bit_stream) : M torque_socket unit :=
  if first_valid_info_packet_id <=? packet_type then _handle_info_packet the_address packet_stream
  else if packet_type =? connect_challenge_request_packet then
    _handle_connect_challenge_request the_address packet_stream
  else if packet_type =? connect_challenge_response_packet then
    _handle_connect_challenge_response the_address packet_stream
  else if packet_type =? connect_reject_packet then _handle_connect_reject the_address packet_stream
  else if packet_type =? connect_request_packet then _handle_connect_request the_address packet_stream
  else if packet_type =? connect_accept_packet then _handle_connect_accept the_address packet_stream
  else if packet_type =? disconnect_packet then _handle_disconnect the_address packet_stream
  else if packet_type =? introduced_connection_request_packet then
    _handle_introduction_request the_address packet_stream
  else if packet_type =? connection_introduction_packet then _handle_introduction the_address packet_stream
  else if packet_type =? punch_packet then _handle_punch the_address packet_stream
  else mret tt.

Definition _process_packet (the_address : address) (packet_stream : bit_stream) : M torque_socket unit :=
  first ← lift (bget (bs_base packet_stream) 0);
  if negb (Z.land first 0x80 =? 0) then
    conn ← _find_connection_by_address the_address;
    match conn with
    | Some conn =>
        _ ← on_connection conn (fun c => '(c, s, ok) ← read_raw_packet c packet_stream; mret (c, ok)); mret tt
    | None => mret tt
    end
  else
    '(packet_stream, packet_type) ← lift (read_uint8 packet_stream);
    dispatch_packet packet_type the_address packet_stream.
End handshake.
