(* ===== verification/SocketSteps.v ===== *)
(** * Steps of a socket

    What the operations of the components do in the state of a socket: following and updating
    the records of the pending list, looking up connections, drawing random numbers, posting
    events.  Each comes with a tactic that takes the step in a goal [m s = ...]. *)
From S2P Require Import Prelude Endian BitStream StreamIO Address EventQueue Cipher Net Connection HashTable HashTableSpec HashStream Sha256 BufferUtils Puzzle AsymmetricKey ThreadQueue Pending Connections SocketState Wire Handshake.
From stdpp Require Import gmap.
#[local] Open Scope Z_scope.
Import pending.

Section steps.
Context `{Machine, Ecc, BlockCipher}.

(** ** Records of the pending list *)
Lemma with_pendings_id (s : torque_socket) : with_pendings (_pendings s) s = s.
Proof. by destruct s. Qed.
Lemma with_net_id (s : torque_socket) : with_net (_net s) s = s.
Proof. by destruct s. Qed.
Lemma with_connections_id (s : torque_socket) : with_connections (_connections s) s = s.
Proof. by destruct s. Qed.

Lemma pend_deref_spec (s : torque_socket) xs1 p x xs2 ds :
  repr (_pendings s) (xs1 ++ (p, x) :: xs2) ds ->
  exists y, pend (pend_deref p) s = Ok (y, s) /\ x = unlinked y.
Proof.
  intros Hr. destruct (deref_spec _ _ _ _ _ _ Hr) as (y & E & ->). exists y. split; [|done].
  unfold pend, zoom. by rewrite E, with_pendings_id.
Qed.

Lemma pend_assign_spec g (s : torque_socket) xs1 p x xs2 ds :
  blind g -> repr (_pendings s) (xs1 ++ (p, x) :: xs2) ds ->
  exists l, pend (pend_assign p g) s = Ok (tt, with_pendings l s) /\ repr l (xs1 ++ (p, g x) :: xs2) ds.
Proof.
  intros Hg Hr. destruct (assign_spec g _ _ _ _ _ _ Hg Hr) as (l & E & Hl). exists l. split; [|done].
  unfold pend, zoom. by rewrite E.
Qed.

Lemma pend_find_spec test (s : torque_socket) xs ds :
  blind_test test -> repr (_pendings s) xs ds ->
  pend (find_pending test) s = Ok (find_in test xs, s).
Proof.
  intros Hb Hr. unfold pend, zoom. by rewrite (find_pending_spec test _ xs ds), with_pendings_id.
Qed.

Lemma blind_address a : blind_test (fun x => address_eqb (_address x) a).
Proof. done. Qed.

Lemma blind_index id : blind_test (fun x => _connection_index x =? id).
Proof. done. Qed.

(** ** Posting an event *)
Definition with_queue (q : socket_event_queue) (t : torque_socket) : torque_socket :=
  with_net (with_events q (_net t)) t.

Lemma queue_post ty i (t : torque_socket) evs :
  queue_holds (_event_queue (_net t)) evs ->
  exists p q, queue (post_event ty i) t = Ok (p, with_queue q t) /\ posted q evs p (fresh_event (event_code ty) i).
Proof.
  intros Hq. destruct (post_posted _ _ ty i Hq) as (p & q & E & Hp). exists p, q. split; [|done].
  unfold queue, net_op, events, zoom. by rewrite E.
Qed.

Lemma queue_update p g (t : torque_socket) evs e :
  posted (_event_queue (_net t)) evs p e ->
  exists q, queue (update_event p g) t = Ok (tt, with_queue q t) /\ posted q evs p (g e).
Proof.
  intros Hp. destruct (update_posted _ _ _ _ g Hp) as (q' & E & Hp'). exists q'. split; [|done].
  unfold queue, net_op, events, zoom. by rewrite E.
Qed.

(** An event with its key, or its data, filled in. *)
Definition with_event_key (key : bytes) (e : torque_socket_event) : torque_socket_event :=
  mk_event (event_type e) (ev_connection e) (arranger_connection e) (ev_client_identity e) (connection_token e)
    (blen key) key (data_size e) (ev_data e) (packet_sequence e) (delivered e) (source_address e).
Definition with_event_data (data : bytes) (e : torque_socket_event) : torque_socket_event :=
  mk_event (event_type e) (ev_connection e) (arranger_connection e) (ev_client_identity e) (connection_token e)
    (key_size e) (EventQueue.key e) (blen data) data (packet_sequence e) (delivered e) (source_address e).
Definition keyed_event (ty : torque_socket_event_type) (i : Z) (key data : byte_buffer) : torque_socket_event :=
  with_event_data (byte_buffer.data data) (with_event_key (byte_buffer.data key) (fresh_event (event_code ty) i)).

Lemma queue_key p key (t : torque_socket) evs e :
  posted (_event_queue (_net t)) evs p e ->
  exists q, queue (set_event_key p (byte_buffer.data key) (byte_buffer.get_buffer_size key)) t =
    Ok (tt, with_queue q t) /\ posted q evs p (with_event_key (byte_buffer.data key) e).
Proof.
  intros Hp. destruct (queue_update p (with_event_key (byte_buffer.data key)) t evs e Hp) as (q & E & Hq).
  exists q. split; [|done]. rewrite <- E. unfold set_event_key, byte_buffer.get_buffer_size.
  by rewrite Z.leb_refl, take_all_bytes.
Qed.

Lemma queue_data p data (t : torque_socket) evs e :
  posted (_event_queue (_net t)) evs p e ->
  exists q, queue (set_event_data p (byte_buffer.data data) (byte_buffer.get_buffer_size data)) t =
    Ok (tt, with_queue q t) /\ posted q evs p (with_event_data (byte_buffer.data data) e).
Proof.
  intros Hp. destruct (queue_update p (with_event_data (byte_buffer.data data)) t evs e Hp) as (q & E & Hq).
  exists q. split; [|done]. rewrite <- E. unfold set_event_data, byte_buffer.get_buffer_size.
  by rewrite Z.leb_refl, take_all_bytes.
Qed.

Lemma queue_data_prefix p d data (t : torque_socket) evs e :
  posted (_event_queue (_net t)) evs p e -> take (length data) d = data ->
  exists q, queue (set_event_data p d (blen data)) t = Ok (tt, with_queue q t) /\
    posted q evs p (with_event_data data e).
Proof.
  intros Hp Ht. destruct (queue_update p (with_event_data data) t evs e Hp) as (q & E & Hq).
  exists q. split; [|done]. rewrite <- E. unfold set_event_data.
  assert (blen data <= blen d) by (rewrite <- Ht; unfold blen; rewrite length_take; lia).
  destruct (Z.leb_spec (blen data) (blen d)); [|lia]. unfold blen. rewrite Nat2Z.id, Ht. done.
Qed.

Lemma rand_step {A} (m : M random_generator A) (t : torque_socket) a r :
  m (_random_generator (_net t)) = Ok (a, r) -> rand m t = Ok (a, with_net (with_random r (_net t)) t).
Proof. intros E. unfold rand, net_op, random, zoom. by rewrite E. Qed.


(** Allocating a record and linking it. *)
Lemma pend_allocate_spec x (t : torque_socket) xs ds :
  repr (_pendings t) xs ds ->
  exists p l, pend (pending.allocate x) t = Ok (p, with_pendings l t) /\ repr l xs ((p, x) :: ds) /\
    p ∉ xs.*1 ++ ds.*1.
Proof.
  intros Hr. destruct (allocate_spec x _ _ _ Hr) as (l & E & Hl & Hp). exists (fresh_loc (_pendings t)), l.
  split; [|done]. unfold pend, zoom. by rewrite E.
Qed.

Lemma pend_add_spec p x (t : torque_socket) xs ds :
  repr (_pendings t) xs ((p, x) :: ds) ->
  exists l, pend (_add_pending_connection p) t = Ok (tt, with_pendings l t) /\ repr l ((p, unlinked x) :: xs) ds.
Proof.
  intros Hr. destruct (add_spec _ _ _ _ _ Hr) as (l & E & Hl). exists l. split; [|done].
  unfold pend, zoom. by rewrite E.
Qed.

Lemma pend_detached_deref (t : torque_socket) xs p x ds :
  repr (_pendings t) xs ((p, x) :: ds) -> pend (pend_deref p) t = Ok (x, t).
Proof. intros Hr. unfold pend, zoom. by rewrite (detached_deref _ _ _ _ _ Hr), with_pendings_id. Qed.

Lemma pend_detached_assign g (t : torque_socket) xs p x ds :
  repr (_pendings t) xs ((p, x) :: ds) ->
  exists l, pend (pend_assign p g) t = Ok (tt, with_pendings l t) /\ repr l xs ((p, g x) :: ds).
Proof.
  intros Hr. destruct (detached_assign g _ _ _ _ _ Hr) as (l & E & Hl). exists l. split; [|done].
  unfold pend, zoom. by rewrite E.
Qed.

Lemma pend_remove_spec (t : torque_socket) xs1 p x xs2 ds :
  repr (_pendings t) (xs1 ++ (p, x) :: xs2) ds ->
  exists l, pend (_remove_pending_connection p) t = Ok (tt, with_pendings l t) /\ repr l (xs1 ++ xs2) ds.
Proof.
  intros Hr. destruct (remove_spec _ _ _ _ _ _ Hr) as (l & E & Hl). exists l. split; [|done].
  unfold pend, zoom. by rewrite E.
Qed.

(** ** Connections *)
Lemma conns_allocate_spec c (t : torque_socket) xs ds :
  connections.repr (_connections t) xs ds ->
  exists p ct, conns (connections.allocate c) t = Ok (p, with_connections ct t) /\
    connections.repr ct xs ((p, c) :: ds) /\ connections.same_tables (_connections t) ct /\ p ∉ xs.*1.
Proof.
  intros Hr. destruct (connections.conn_allocate_spec c _ _ _ Hr) as (ct & E & Hc & Ht & Hp).
  exists (connections.fresh_loc (_connections t)), ct. split; [|done]. unfold conns, zoom. by rewrite E.
Qed.

Lemma conns_add_spec p c (t : torque_socket) xs ds :
  connections.repr (_connections t) xs ((p, c) :: ds) -> connections.sane (_connections t) ->
  connections.room (_connections t) ->
  exists ct, conns (connections._add_connection p) t = Ok (tt, with_connections ct t) /\
    connections.repr ct ((p, connections.unlinked c) :: xs) ds /\ connections.sane ct /\
    (connections.indexed (_connections t) xs -> connections.indexed ct ((p, connections.unlinked c) :: xs)).
Proof.
  intros Hr Hs Hm. destruct (connections.add_connection_spec p c _ _ _ Hr Hs Hm) as (ct & E & Hc).
  exists ct. split; [|done]. unfold conns, zoom. by rewrite E.
Qed.

Lemma conn_deref_spec (t : torque_socket) xs1 p c xs2 ds :
  connections.repr (_connections t) (xs1 ++ (p, c) :: xs2) ds ->
  exists d, conns (conn_deref p) t = Ok (d, t) /\ c = connections.unlinked d.
Proof.
  intros Hr. destruct (connections.conn_repr_linked _ _ _ _ _ _ Hr) as (d & Hd & ->). exists d.
  split; [|done]. unfold conns, zoom, conn_deref. rewrite Hd. cbn. by rewrite with_connections_id.
Qed.

Lemma conns_remove_spec (t : torque_socket) xs1 p c xs2 ds :
  connections.repr (_connections t) (xs1 ++ (p, c) :: xs2) ds -> connections.sane (_connections t) ->
  exists ct, conns (connections._remove_connection p) t = Ok (tt, with_connections ct t) /\
    connections.repr ct (xs1 ++ xs2) ds /\ connections.sane ct.
Proof.
  intros Hr Hs. destruct (connections.remove_connection_spec p c _ _ _ _ Hr Hs) as (ct & E & Hc).
  exists ct. split; [|done]. unfold conns, zoom. by rewrite E.
Qed.

(** Lookups of a connection that no other shares its key with. *)
Definition alone {K} (key : torque_connection -> K) (c : torque_connection) (xs : list (loc * torque_connection)) : Prop :=
  forall p d, (p, d) ∈ xs -> key d <> key c.

Lemma find_alone {K} (key : torque_connection -> K) xs1 p c xs2 q d :
  alone key c (xs1 ++ xs2) -> (q, d) ∈ xs1 ++ (p, c) :: xs2 -> key d = key c -> q = p.
Proof.
  intros Ha Hin Hk. rewrite elem_of_app, elem_of_cons in Hin. destruct Hin as [Hin|[[= -> ->]|Hin]]; [|done|].
  - exfalso. apply (Ha q d); [apply elem_of_app; by left | done].
  - exfalso. apply (Ha q d); [apply elem_of_app; by right | done].
Qed.

Lemma find_connection_alone (t : torque_socket) xs1 p c xs2 :
  connections.sane (_connections t) -> connections.indexed (_connections t) (xs1 ++ (p, c) :: xs2) ->
  alone Connection._connection_index c (xs1 ++ xs2) ->
  _find_connection (Connection._connection_index c) t = Ok (Some p, t).
Proof.
  intros Hs Hi Ha. destruct (connections.find_connection_spec (Connection._connection_index c) _ Hs) as (o & E & Ho).
  specialize (Ho _ Hi). unfold _find_connection, conns, zoom. rewrite E. cbn. rewrite with_connections_id.
  destruct o as [q|].
  - destruct Ho as (d & Hin & Hd). by rewrite (find_alone Connection._connection_index xs1 p c xs2 q d Ha Hin Hd).
  - exfalso. apply (Ho p c); [apply elem_of_app; right; by left | done].
Qed.

Lemma find_address_alone (t : torque_socket) xs1 p c xs2 :
  connections.sane (_connections t) -> connections.indexed (_connections t) (xs1 ++ (p, c) :: xs2) ->
  alone Connection._address c (xs1 ++ xs2) ->
  _find_connection_by_address (Connection._address c) t = Ok (Some p, t).
Proof.
  intros Hs Hi Ha. destruct (connections.find_connection_by_address_spec (Connection._address c) _ Hs) as (o & E & Ho).
  specialize (Ho _ Hi). unfold _find_connection_by_address, conns, zoom. rewrite E. cbn. rewrite with_connections_id.
  destruct o as [q|].
  - destruct Ho as (d & Hin & Hd). by rewrite (find_alone Connection._address xs1 p c xs2 q d Ha Hin Hd).
  - exfalso. apply (Ho p c); [apply elem_of_app; right; by left | done].
Qed.

Lemma same_tables_room t t' : connections.same_tables t t' -> connections.room t -> connections.room t'.
Proof. intros [Hi Ha]. unfold connections.room. by rewrite Hi, Ha. Qed.
Lemma same_tables_sane t t' : connections.same_tables t t' -> connections.sane t -> connections.sane t'.
Proof. intros [Hi Ha] [? ?]. split; congruence. Qed.
Lemma same_tables_indexed t t' xs :
  connections.same_tables t t' -> connections.indexed t xs -> connections.indexed t' xs.
Proof. intros [Hi Ha] [? ? ? ?]. split; congruence. Qed.

Lemma ret_step {A B} (a : A) (k : A -> M torque_socket B) t : (mret a ≫= k) t = k a t.
Proof. done. Qed.
Lemma gets_bind {A B} (f : torque_socket -> A) (k : A -> M torque_socket B) t : (gets f ≫= k) t = k (f t) t.
Proof. done. Qed.
Lemma modify_bind {B} (f : torque_socket -> torque_socket) (k : unit -> M torque_socket B) t :
  (modify f ≫= k) t = k tt (f t).
Proof. done. Qed.

Lemma find_by_address_step a (t : torque_socket) o :
  connections._find_connection_by_address a (_connections t) = Ok (o, _connections t) ->
  _find_connection_by_address a t = Ok (o, t).
Proof.
  intros E. unfold _find_connection_by_address, conns, zoom. by rewrite E, with_connections_id.
Qed.

Lemma new_connection_index_spec (t : torque_socket) :
  new_connection_index t = Ok (_next_connection_index t, with_next_index (u32 (_next_connection_index t + 1)) t).
Proof. done. Qed.
Lemma process_start_time_spec (t : torque_socket) : get_process_start_time t = Ok (_process_start_time (_net t), t).
Proof. done. Qed.

(** An operation of one connection on the state it shares with the socket. *)
Lemma on_connection_spec {A} (f : torque_connection -> M net (torque_connection * A)) (t : torque_socket)
    cs1 p d cs2 ds c' a n' :
  connections.repr (_connections t) (cs1 ++ (p, connections.unlinked d) :: cs2) ds ->
  connections.heap (_connections t) !! p = Some d -> f d (_net t) = Ok ((c', a), n') ->
  Connection._next c' = Connection._next d /\ Connection._prev c' = Connection._prev d ->
  exists ct, on_connection p f t = Ok (a, with_connections ct (with_net n' t)) /\
    connections.repr ct (cs1 ++ (p, connections.unlinked c') :: cs2) ds /\
    connections.same_tables (_connections t) ct /\ connections.heap ct !! p = Some c'.
Proof.
  intros Hr Hd Ef [Hn Hp].
  assert (Ed : conns (conn_deref p) t = Ok (d, t)).
  { unfold conns, zoom, conn_deref. rewrite Hd. cbn. by rewrite with_connections_id. }
  assert (En : net_op (f d) t = Ok ((c', a), with_net n' t)) by (unfold net_op, zoom; by rewrite Ef).
  destruct (connections.conn_assign_spec (fun _ => c') (_connections t) _ _ _ _ _ d Hr Hd Hn Hp) as (ct & Ea & Hr' & Ht).
  exists ct. unfold on_connection. rewrite (bind_step _ _ _ _ _ Ed), (bind_step _ _ _ _ _ En).
  assert (Ec : conns (conn_assign p (fun _ => c')) (with_net n' t) = Ok (tt, with_connections ct (with_net n' t))).
  { unfold conns, zoom. change (_connections (with_net n' t)) with (_connections t). by rewrite Ea. }
  rewrite (bind_step _ _ _ _ _ Ec). split; [done|]. split; [exact Hr'|]. split; [exact Ht|].
  unfold connections.assign in Ea. rewrite Hd in Ea. injection Ea as <-. cbn. by rewrite lookup_insert_eq.
Qed.

(** ** Sending *)

(** The socket has sent something, and that is all. *)
Definition sends_only (t t' : torque_socket) : Prop := exists l, t' = with_net (with_sent l (_net t)) t.

Lemma sends_only_refl t : sends_only t t.
Proof. exists (udp_sent (_net t)). by destruct t as [[]]. Qed.

Lemma send_sends_only out a (t t' : torque_socket) : send_to_socket out a t = Ok (tt, t') -> sends_only t t'.
Proof.
  intros E. apply zoom_Ok in E as (n & E & ->). unfold send_stream, udp_send_to in E. inv_ok. unfold modify in E. injection E as <-.
  by eexists.
Qed.

Lemma sends_only_sent a d t : sends_only t (sent a d t).
Proof. by eexists. Qed.

Lemma sends_only_trans t1 t2 t3 : sends_only t1 t2 -> sends_only t2 t3 -> sends_only t1 t3.
Proof. intros [l1 ->] [l2 ->]. by exists l2. Qed.
End steps.

(** One assignment to the record [x] of [Hp : repr _ (_ ++ (p, x) :: _) _]. *)
Ltac assign_step Hp :=
  match goal with
  | |- context [(pend (pend_assign ?p ?g) ≫= _) ?t] =>
      let l := fresh "l" in let E := fresh "E" in let Hp' := fresh "Hp" in
      destruct (pend_assign_spec g t _ p _ _ _ ltac:(split; intros; reflexivity) Hp) as (l & E & Hp');
      rewrite (bind_step _ _ _ _ _ E); clear Hp E; rename Hp' into Hp
  | |- context [pend (pend_assign ?p ?g) ?t] =>
      let l := fresh "l" in let E := fresh "E" in let Hp' := fresh "Hp" in
      destruct (pend_assign_spec g t _ p _ _ _ ltac:(split; intros; reflexivity) Hp) as (l & E & Hp');
      rewrite E; clear Hp E; rename Hp' into Hp
  end.
(** The same for a record that is not linked. *)
Ltac assign_detached Hp :=
  match goal with
  | |- context [(pend (pend_assign ?p ?g) ≫= _) ?t] =>
      let l := fresh "l" in let E := fresh "E" in let Hp' := fresh "Hp" in
      destruct (pend_detached_assign g t _ p _ _ Hp) as (l & E & Hp');
      rewrite (bind_step _ _ _ _ _ E); clear Hp E; rename Hp' into Hp
  end.
Ltac rand_with E :=
  match goal with
  | |- context [(rand ?m ≫= _) ?t] => rewrite (bind_step _ _ _ _ _ (rand_step m t _ _ E))
  end.

(** Posting an event to the queue of [Hq], and filling in its key and its data. *)
Ltac take_step E := first [rewrite (bind_step _ _ _ _ _ E) | rewrite E]; clear E.
Ltac post_step Hq :=
  match goal with
  | |- context [queue (post_event ?ty ?i) ≫= ?k] =>
      match goal with
      | |- context [(queue (post_event ty i) ≫= k) ?u] =>
          let e := fresh "e" in let q := fresh "q" in let E := fresh "E" in let Hq' := fresh "Hq" in
          destruct (queue_post ty i u _ Hq) as (e & q & E & Hq'); take_step E; clear Hq; rename Hq' into Hq
      end
  end.
Ltac key_step Hq :=
  match goal with
  | |- context [(queue (set_event_key ?p (byte_buffer.data ?b) _) ≫= _) ?u] =>
      let q := fresh "q" in let E := fresh "E" in let Hq' := fresh "Hq" in
      destruct (queue_key p b u _ _ Hq) as (q & E & Hq'); take_step E; clear Hq; rename Hq' into Hq
  end.
Ltac data_step Hq :=
  match goal with
  | |- context [(queue (set_event_data ?p (byte_buffer.data ?b) _) ≫= _) ?u] =>
      let q := fresh "q" in let E := fresh "E" in let Hq' := fresh "Hq" in
      destruct (queue_data p b u _ _ Hq) as (q & E & Hq'); take_step E; clear Hq; rename Hq' into Hq
  | |- context [queue (set_event_data ?p (byte_buffer.data ?b) _) ?u] =>
      let q := fresh "q" in let E := fresh "E" in let Hq' := fresh "Hq" in
      destruct (queue_data p b u _ _ Hq) as (q & E & Hq'); take_step E; clear Hq; rename Hq' into Hq
  end.
Ltac gets_step :=
  unfold mbind at 1, M_bind at 1; cbn beta iota delta [gets get get_process_start_time].

(** A step whose result does not depend on more than the state. *)
Ltac step_by lem :=
  match goal with
  | |- context [(?m ≫= ?k) ?u] => rewrite (bind_step _ _ _ _ _ (lem u))
  end.
Ltac allocate_step Hp p Hfresh :=
  match goal with
  | |- context [(pend (pending.allocate ?x) ≫= _) ?u] =>
      let l := fresh "l" in let E := fresh "E" in let Hp' := fresh "Hp" in
      destruct (pend_allocate_spec x u _ _ Hp) as (p & l & E & Hp' & Hfresh);
      rewrite (bind_step _ _ _ _ _ E); clear Hp E; rename Hp' into Hp
  end.
Ltac add_step Hp :=
  match goal with
  | |- context [(pend (_add_pending_connection ?p) ≫= _) ?u] =>
      let l := fresh "l" in let E := fresh "E" in let Hp' := fresh "Hp" in
      destruct (pend_add_spec p _ u _ _ Hp) as (l & E & Hp');
      rewrite (bind_step _ _ _ _ _ E); clear Hp E; rename Hp' into Hp
  end.
