(* ===== verification/Socket.v ===== *)
(** * The socket: torque_sockets/torque_socket.h, torque_sockets_c_implementation.h

    Construction and destruction, the periodic work of [process_connections], the arrival of
    datagrams, and the operations of the API, in C++ and in C.  Worker threads finish puzzle
    requests and the reader thread moves datagrams between calls ([solver_finishes],
    [thread_socket_receive]). *)
From S2P Require Import Prelude Endian BitStream StreamIO Address EventQueue Cipher Net Connection HashTable HashStream Sha256 BufferUtils Puzzle AsymmetricKey ThreadQueue Pending Connections SocketState Handshake.
#[local] Open Scope Z_scope.
Import pending.

Section socket.
Context `{Machine, Ecc, BlockCipher, Clock}.

(** ** process_connections *)

(** What is sent again when a pending connection is retried. *)
Definition resend (x : pending_connection) (p : loc) : M torque_socket unit :=
  match _state x with
  | requesting_introduction => _send_introduction_request p
  | sending_punch_packets => _send_punch p
  | requesting_challenge_response => _send_challenge_request p
  | _ => mret tt
  end.

Definition timed_out (x : pending_connection) (now : time) : bool :=
  time_add (_state_last_send_time (_retry x)) (_state_send_retry_interval (_retry x)) <? now.

(** The loop over the pending connections; [link] is the pointer to a pointer [walk]. *)
Fixpoint pending_timeouts (fuel : nat) (link : option loc) : M torque_socket unit :=
  target ← pend (read_link link);
  match target with
  | None => mret tt
  | Some p =>
      match fuel with
      | O => lift (Fault out_of_fuel)
      | S fuel =>
          x ← pend (pend_deref p);
          now ← get_process_start_time;
          if timed_out x now then
            if _state_send_retry_count (_retry x) =? 0 then
              _ ← queue (post_event torque_connection_timed_out_event_type (_connection_index x));
              _ ← pend (write_link link (_next x));
              _ ← pend (delete_pending p);
              pending_timeouts fuel link
            else
              _ ← pend (pend_assign p count_retry);
              _ ← resend x p;
              pending_timeouts fuel (Some p)
          else pending_timeouts fuel (Some p)
      end
  end.

Fixpoint connection_timeouts (fuel : nat) (connection_walk : option loc) : M torque_socket unit :=
  match connection_walk with
  | None => mret tt
  | Some the_connection =>
      match fuel with
      | O => lift (Fault out_of_fuel)
      | S fuel =>
          c ← conns (conn_deref the_connection);
          now ← get_process_start_time;
          late ← on_connection the_connection (fun c => check_timeout c now);
          _ ← (if (late : bool) then
                 c ← conns (conn_deref the_connection);
                 _ ← queue (post_event torque_connection_timed_out_event_type (Connection._connection_index c));
                 conns (connections._remove_connection the_connection)
               else mret tt);
          connection_timeouts fuel (Connection._next c)
      end
  end.

Definition check_timeouts : M torque_socket unit :=
  now ← get_process_start_time;
  last ← gets _last_timeout_check_time;
  if time_add last timeout_check_interval <? now then
    _ ← modify (with_last_timeout_check now);
    l ← gets _pendings;
    _ ← pending_timeouts (base.size (heap l)) None;
    t ← gets _connections;
    connection_timeouts (base.size (connections.heap t)) (connections._connection_list t)
  else mret tt.

(** The first pending connection that waits for this result. *)
Definition use_solution (solution request_index : Z) : M torque_socket unit :=
  walk ← find_pending_where (fun x =>
    bool_decide (_state x = computing_puzzle_solution) && (_puzzle_request_index (_puzzle x) =? request_index));
  match walk with
  | None => mret tt
  | Some walk =>
      _ ← pend (pend_assign walk (fun x => set_state requesting_connection (with_puzzle_solution solution x)));
      _send_connect_request walk
  end.

Definition next_solution : M torque_socket (option (option byte_buffer * Z)) := fun s =>
  let '(q, r) := get_next_result (_puzzle_solver s) in Ok (r, with_puzzle_solver q s).

Fixpoint puzzle_results (fuel : nat) : M torque_socket unit :=
  r ← next_solution;
  match r with
  | None => mret tt
  | Some (result, request_index) =>
      match fuel with
      | O => lift (Fault out_of_fuel)
      | S fuel =>
          buffer ← lift (of_option null_deref result);
          '(_, solution) ← lift (read_uint32 (new_stream (byte_buffer.data buffer) (byte_buffer.get_buffer_size buffer)));
          _ ← use_solution solution request_index;
          puzzle_results fuel
      end
  end.

Definition process_connections : M torque_socket unit :=
  now ← get_current;
  _ ← net_op (modify (with_time now));
  manager ← gets _puzzle_manager;
  manager ← rand (tick manager now);
  _ ← modify (with_puzzle_manager manager);
  _ ← net_op send_delayed_packets;
  _ ← check_timeouts;
  q ← gets _puzzle_solver;
  puzzle_results (length (_process_list q)).

(** ** Datagrams *)

(** [recvfrom] fills the buffer of the stream and drops what does not fit. *)
Definition recv_from (stream : bit_stream) (datagram : bytes) : bit_stream :=
  let data := take (Z.to_nat max_datagram_size) datagram in
  set_buffer (data ++ drop (length data) (bs_base stream)) 0 (u32 (blen data * 8)).

(** One pass of [thread_socket_process]: the reader thread takes a datagram. *)
Definition thread_socket_receive : M torque_socket unit :=
  s ← get;
  match udp_inbox s with
  | [] => mret tt
  | (a, d) :: inbox =>
      let stream := recv_from new_packet_stream d in
      let stream := set_bit_position stream (get_stream_bit_size stream) in
      let p := allocate_packet_record a stream 0 in
      _ ← modify (with_inbox inbox);
      modify (with_received (_received_packet_list s ++ [(remote_address p, packet_data p)]))
  end.

(** [_get_next_packet]: from the reader thread's list or from the operating system. *)
Definition _get_next_packet (stream : bit_stream) : M torque_socket (option (bit_stream * address)) :=
  s ← get;
  if _thread_socket s then
    match _received_packet_list s with
    | [] => mret None
    | (a, d) :: rest =>
        _ ← modify (with_received rest);
        stream ← lift (set_from_buffer stream d);
        mret (Some (stream, a))
    end
  else
    match udp_inbox s with
    | [] => mret None
    | (a, d) :: rest => _ ← modify (with_inbox rest); mret (Some (recv_from stream d, a))
    end.

(** The loop of [get_next_event].  The buffer of [stream] outlives a packet; decryption in
    place changes it behind the nonces only, and of what a datagram leaves behind an empty
    datagram shows its first byte and nothing else. *)
Fixpoint packet_loop (fuel : nat) (stream : bit_stream) : M torque_socket unit :=
  next ← _get_next_packet stream;
  match next with
  | None => mret tt
  | Some (stream, source_address) =>
      match fuel with
      | O => lift (Fault out_of_fuel)
      | S fuel =>
          now ← get_current;
          _ ← net_op (modify (with_time now));
          _ ← _process_packet source_address stream;
          has ← queue (gets has_event);
          if (has : bool) then mret tt else packet_loop fuel stream
      end
  end.

(** The pointer that is returned stays good until the queue is cleared. *)
Definition get_next_event : M torque_socket (option loc) :=
  _ ← process_connections;
  has ← queue (gets has_event);
  _ ← (if (has : bool) then mret tt else
         _ ← queue (modify clear);
         s ← get;
         packet_loop (length (_received_packet_list s) + length (udp_inbox s)) new_packet_stream);
  has ← queue (gets has_event);
  if (has : bool) then e ← queue dequeue; mret (Some e) else mret None.

(** ** The operations of the API *)
Definition set_private_key (k : option asymmetric_key) : M torque_socket unit :=
  modify (SocketState.with_private_key k).
Definition set_challenge_response (data : option byte_buffer) : M torque_socket unit :=
  modify (with_challenge_response data).
Definition does_allow_connections : M torque_socket bool := gets _allow_connections.
Definition set_allows_connections (conn : bool) : M torque_socket unit := modify (with_allow_connections conn).

(** [new byte_buffer(data, size)] *)
Definition buffer_of (data : bytes) (size : Z) : M torque_socket (option byte_buffer) :=
  _ ← lift (require (size <=? blen data) out_of_bounds);
  mret (Some (byte_buffer.of_memory (take (Z.to_nat size) data))).

Definition connect (remote_host : address) (connect_data : bytes) (connect_data_size : Z) : M torque_socket Z :=
  initial_send_sequence ← rand random_integer;
  initiator_nonce ← rand random_nonce;
  index ← new_connection_index;
  data ← buffer_of connect_data connect_data_size;
  now ← get_process_start_time;
  new_connection ← pend (pending.allocate
    (start_timer challenge_retry_count challenge_retry_time now
      (set_address remote_host
        (with_packet_data data
          (new_pending_connection connection_initiator initiator_nonce initial_send_sequence index)))));
  _ ← pend (_add_pending_connection new_connection);
  _ ← _send_challenge_request new_connection;
  mret index.

Definition introduce_connection (initiator host : Z) : M torque_socket unit :=
  i ← _find_connection initiator;
  h ← _find_connection host;
  match i, h with
  | Some _, Some _ =>
      initiator_nonce ← rand random_nonce;
      host_nonce ← rand random_nonce;
      now ← get_current;
      intros ← gets _introductions;
      modify (with_introductions (intros ++
        [mk_introduction initiator_nonce host_nonce initiator host false false false now]))
  | _, _ => mret tt
  end.

Definition connect_introduced (introducer remote_client_identity : Z) (is_host : bool)
    (connect_data_size : Z) (connect_data : bytes) : M torque_socket Z :=
  introducing_connection ← _find_connection introducer;
  match introducing_connection with
  | None => mret invalid_torque_connection
  | Some _ =>
      initial_send_sequence ← rand random_integer;
      initiator_nonce ← rand random_nonce;
      index ← new_connection_index;
      data ← buffer_of connect_data connect_data_size;
      now ← get_process_start_time;
      new_connection ← pend (pending.allocate
        (start_timer challenge_retry_count challenge_retry_time now
          (with_packet_data data
            (with_remote_client_id remote_client_identity
              (with_introducer introducer
                (new_pending_connection
                  (if is_host then introduced_connection_host else introduced_connection_initiator)
                  initiator_nonce initial_send_sequence index))))));
      _ ← pend (_add_pending_connection new_connection);
      _ ← _send_introduction_request new_connection;
      mret index
  end.

Definition post_puzzle (request : byte_buffer) : M torque_socket Z := fun s =>
  let '(q, i) := post_request request (_puzzle_solver s) in Ok (i, with_puzzle_solver q s).

Definition puzzle_message (x : pending_connection) : result byte_buffer :=
  s ← write_nonce (_initiator_nonce x) new_packet_stream;
  s ← write_nonce (_host_nonce x) s;
  s ← write_uint32 (_puzzle_difficulty (_puzzle x)) s;
  s ← write_uint32 (_client_identity (_puzzle x)) s;
  Ok (byte_buffer.of_memory (take (Z.to_nat (get_next_byte_position s)) (bs_base s))).

Definition accept_connection_challenge (the_connection : Z) : M torque_socket unit :=
  conn ← pend (_find_pending_connection the_connection);
  match conn with
  | None => mret tt
  | Some conn =>
      x ← pend (pend_deref conn);
      if negb (bool_decide (_state x = awaiting_local_challenge_accept)) then mret tt else
      now ← get_process_start_time;
      _ ← pend (pend_assign conn (fun x =>
        start_timer 0 puzzle_solution_timeout now (set_state computing_puzzle_solution x)));
      request ← lift (puzzle_message x);
      i ← post_puzzle request;
      pend (pend_assign conn (with_request_index i))
  end.

Definition accept_connection (connection_id : Z) : M torque_socket unit :=
  pending ← pend (_find_pending_connection connection_id);
  match pending with
  | None => mret tt
  | Some pending =>
      x ← pend (pend_deref pending);
      if negb (bool_decide (_state x = awaiting_local_accept)) then mret tt else
      new_connection ← conns (connections.allocate
        (connection_of_pending x false (_initial_recv_sequence x) (_symmetric_cipher x)));
      _ ← pend (_remove_pending_connection pending);
      _ ← conns (connections._add_connection new_connection);
      _ ← queue (post_event torque_connection_established_event_type (_connection_index x));
      _send_connect_accept new_connection
  end.

Definition disconnect (connection_id : Z) (disconnect_data : bytes) (disconnect_data_size : Z) : M torque_socket unit :=
  _disconnect connection_id reason_disconnect_call disconnect_data disconnect_data_size.

Definition send_to_connection (connection_id : Z) (data : bytes) (data_size : Z) : M torque_socket Z :=
  conn ← _find_connection connection_id;
  conn ← lift (of_option null_deref conn);
  on_connection conn (fun c => send_packet c data_packet data data_size).

Definition send_to (the_address : address) (data_size : Z) (data : bytes) : M torque_socket unit :=
  net_op (udp_send_to the_address data data_size).

(** ** Construction and destruction *)

(** [torque_socket(thread_socket, ...)]: the members first, in the order they are declared,
    then the body, whose first key is replaced by the second. *)
Definition new_torque_socket (thread_socket : bool) : result torque_socket :=
  '(manager, r) ← new_client_puzzle_manager (clock 0) new_random_generator;
  '(random_hash_data, r) ← random_buffer 12 r;
  '(_, r) ← generate_key 20 r;
  '(private_key, r) ← generate_key 16 r;
  Ok (mk_socket (mk_net r empty_queue [] (clock 1) []) empty_list connections.empty_table 1
    (Some (byte_buffer.of_size 1500)) (Some private_key) manager empty_thread_queue [] 0 random_hash_data
    true thread_socket [] [] 2).

(** [~torque_socket] *)
Fixpoint close_connections (fuel : nat) : M torque_socket unit :=
  t ← gets _connections;
  match connections._connection_list t with
  | None => mret tt
  | Some p =>
      match fuel with
      | O => lift (Fault out_of_fuel)
      | S fuel =>
          c ← conns (conn_deref p);
          _ ← _disconnect (Connection._connection_index c) reason_self_disconnect [] 0;
          close_connections fuel
      end
  end.

(** ** Other threads, and the network *)

(** A worker of [_puzzle_solver] takes a request, and finishes one. *)
Definition solver_takes : M torque_socket (option positive) := fun s =>
  let '(q, p) := dispatch_begin (_puzzle_solver s) in Ok (p, with_puzzle_solver q s).
Definition solver_finishes (p : positive) (response : option byte_buffer) : M torque_socket unit := fun s =>
  q ← dispatch_end p response (_puzzle_solver s); Ok (tt, with_puzzle_solver q s).

(** A datagram arrives at the socket of the operating system. *)
Definition datagram_arrives (from : address) (datagram : bytes) : M torque_socket unit :=
  modify (fun s => with_inbox (udp_inbox s ++ [(from, datagram)]) s).

(** ** The C API: torque_sockets_c_implementation.h *)

(** [address a] of a socket address: another family leaves the fields as they were. *)
Definition address_of_sockaddr (sa : sockaddr) : address :=
  from_sockaddr (mk_address (u32 indeterminate) (u16 indeterminate)) sa.

Definition torque_socket_create (background_thread : bool) : result torque_socket :=
  new_torque_socket background_thread.
Definition torque_socket_destroy (fuel : nat) : M torque_socket unit := close_connections fuel.
Definition torque_socket_allow_incoming_connections (allowed : Z) : M torque_socket unit :=
  set_allows_connections (negb (allowed =? 0)).
Definition torque_socket_set_key_pair (key_data_size : Z) (the_key : bytes) : M torque_socket unit :=
  _ ← lift (require (key_data_size <=? blen the_key) out_of_bounds);
  key ← lift (load Null (take (Z.to_nat key_data_size) the_key));
  set_private_key (Some key).
Definition torque_socket_set_challenge_response (challenge_response_size : Z) (challenge_response : bytes)
    : M torque_socket unit :=
  b ← buffer_of challenge_response challenge_response_size; set_challenge_response b.
Definition torque_socket_write_entropy (entropy : bytes) : M torque_socket unit :=
  rand (modify (fun r => add_entropy r entropy 32)).
Definition torque_socket_read_entropy : M torque_socket bytes := rand (random_buffer 32).
Definition torque_socket_send_to (remote_host : sockaddr) (data_size : Z) (data : bytes) : M torque_socket unit :=
  send_to (address_of_sockaddr remote_host) data_size data.
Definition torque_socket_connect (remote_host : sockaddr) (connect_data_size : Z) (connect_data : bytes)
    : M torque_socket Z :=
  connect (address_of_sockaddr remote_host) connect_data connect_data_size.
Definition torque_socket_connect_introduced (introducer remote_client_identity is_host connect_data_size : Z)
    (connect_data : bytes) : M torque_socket Z :=
  connect_introduced introducer remote_client_identity (negb (is_host =? 0)) connect_data_size connect_data.
Definition torque_socket_introduce (initiator host : Z) : M torque_socket unit := introduce_connection initiator host.
Definition torque_socket_accept_challenge (pending_connection : Z) : M torque_socket unit :=
  accept_connection_challenge pending_connection.
Definition torque_socket_accept_connection (pending : Z) : M torque_socket unit := accept_connection pending.
Definition torque_socket_close_connection (connection_id disconnect_data_size : Z) (disconnect_data : bytes)
    : M torque_socket unit :=
  disconnect connection_id disconnect_data disconnect_data_size.
Definition torque_socket_send_to_connection (connection_id datagram_size : Z) (buffer : bytes) : M torque_socket Z :=
  send_to_connection connection_id buffer datagram_size.
Definition torque_socket_get_next_event : M torque_socket (option loc) := get_next_event.
End socket.
