(* ===== verification/HandshakeSpec.v ===== *)
(** * What the handshake messages do

    The functional behaviour of the senders and handlers of Handshake.v on the messages the
    program itself sends: what each puts on the wire, as a list of bytes, and what the
    receiver of that list does.  [handshake_establishes] (Establish.v) is put together from
    these steps. *)
From S2P Require Import Prelude Endian BitStream StreamIO Address EventQueue Cipher Net Connection HashTable HashTableSpec HashStream Sha256 BufferUtils Puzzle AsymmetricKey ThreadQueue Pending Connections SocketState Wire Handshake Socket SocketSteps.
From stdpp Require Import gmap.
#[local] Open Scope Z_scope.
Import pending.

Section spec.
Context `{Machine, Ecc, BlockCipher}.

(** ** The messages *)
Definition challenge_request (initiator_nonce host_nonce : Z) : bytes :=
  u8_img connect_challenge_request_packet ++ u64_img initiator_nonce ++ u64_img host_nonce.

Definition challenge_response (initiator_nonce token server_nonce difficulty : Z) (key data : byte_buffer) : bytes :=
  u8_img connect_challenge_response_packet ++ u64_img initiator_nonce ++ u32_img token ++
  u64_img server_nonce ++ u32_img difficulty ++ img key ++ img data.

(** The part of a connect request in the clear, and the part that is encrypted. *)
Definition request_clear (initiator_nonce host_nonce identity difficulty solution : Z) (key : byte_buffer) : bytes :=
  u8_img connect_request_packet ++ u64_img initiator_nonce ++ u64_img host_nonce ++ u32_img identity ++
  u32_img difficulty ++ u32_img solution ++ img key.
Definition request_secret (symmetric_key : bytes) (sequence : Z) (data : byte_buffer) : bytes :=
  symmetric_key ++ u32_img sequence ++ img data.

Definition accept_clear (initiator_nonce host_nonce : Z) : bytes :=
  u8_img connect_accept_packet ++ u64_img initiator_nonce ++ u64_img host_nonce.
Definition accept_secret (sequence : Z) (init_vector : bytes) : bytes := u32_img sequence ++ init_vector.

(** The identity a host gives to a client. *)
Definition identity_token (random_hash_data : bytes) (a : address) (the_nonce : Z) : Z :=
  le_val (take 4 (sha256_spec
    (le_bytes 4 (htonl (_host a)) ++ le_bytes 4 (htonl (_port a)) ++ le_bytes 8 the_nonce ++ random_hash_data))).

Lemma identity_token_range d a n : is_u32 (identity_token d a n).
Proof.
  unfold identity_token. pose proof (le_val_range _ (Forall_take _ 4 _ (is_bytes_sha256_spec
    (le_bytes 4 (htonl (_host a)) ++ le_bytes 4 (htonl (_port a)) ++ le_bytes 8 n ++ d)))) as Hr.
  unfold blen in Hr. rewrite length_take, length_sha256_spec in Hr. done.
Qed.

Lemma identity_token_spec a n (s : torque_socket) :
  compute_client_identity_token a n s = Ok (identity_token (_random_hash_data s) a n, s).
Proof.
  unfold compute_client_identity_token, gets. unfold mbind at 1, M_bind at 1. unfold lift.
  assert (hashing sha256_compress Sha256.initial_state (sha256_init local_hash_state) [] 0 []) as Hi.
  { apply hashing_init. pose proof (malloc_length 64 ltac:(lia)). unfold blen in *; cbn; lia. }
  destruct (process_all_spec _ _ [le_bytes 4 (htonl (_host a)); le_bytes 4 (htonl (_port a)); le_bytes 8 n;
    _random_hash_data s] _ _ _ _ Hi) as (md & k & rest & E & Hh).
  cbn zeta. unfold sha256_process_all. rewrite E. cbn [mbind result_bind]. rewrite (sha256_finish _ _ _ _ Hh).
  cbn [of_option mbind result_bind].
  unfold identity_token. cbn [app concat]. by rewrite app_nil_r.
Qed.

(** ** The challenge request *)
Lemma send_challenge_request_spec (s : torque_socket) xs1 p x xs2 ds :
  repr (_pendings s) (xs1 ++ (p, x) :: xs2) ds -> is_u64 (_initiator_nonce x) -> is_u64 (_host_nonce x) ->
  _send_challenge_request p s =
    Ok (tt, sent (_address x) (challenge_request (_initiator_nonce x) (_host_nonce x)) s).
Proof.
  intros Hr Hi Hn. destruct (pend_deref_spec _ _ _ _ _ _ Hr) as (y & E & ->).
  unfold _send_challenge_request. rewrite (bind_step _ _ _ _ _ E).
  pose proof holds_new as Hh. unfold packet, write_uint8, write_nonce.
  put_step Hh. put_step Hh. put_step Hh. rewrite (lift_step _ _ _ _ eq_refl), (send_holds _ _ _ _ Hh).
  unfold challenge_request. by rewrite <- !app_assoc.
Qed.

(** ** Connecting *)

(** The record [connect] makes. *)
Definition requesting (a : address) (data : bytes) (initiator_nonce sequence index : Z) (now : time)
    : pending_connection :=
  start_timer challenge_retry_count challenge_retry_time now
    (set_address a (with_packet_data (Some (byte_buffer.of_memory data))
      (new_pending_connection connection_initiator initiator_nonce sequence index))).

Lemma buffer_of_spec (data : bytes) (t : torque_socket) :
  buffer_of data (blen data) t = Ok (Some (byte_buffer.of_memory data), t).
Proof. unfold buffer_of. by rewrite Z.leb_refl, take_all_bytes. Qed.

(** The numbers [connect] draws: the first sequence number and the nonce. *)
Definition connect_draws : M random_generator (Z * Z) := sq ← random_integer; n ← random_nonce; mret (sq, n).

Lemma connect_draws_total r : exists sq n r', connect_draws r = Ok ((sq, n), r') /\ is_u32 sq /\ is_u64 n.
Proof.
  unfold connect_draws. destruct (random_integer_total r) as (sq & r1 & E1 & Hsq).
  destruct (random_nonce_total r1) as (n & r2 & E2 & Hn). exists sq, n, r2.
  by rewrite (bind_step _ _ _ _ _ E1), (bind_step _ _ _ _ _ E2).
Qed.

Lemma connect_spec a data (t : torque_socket) xs ds sq n r :
  repr (_pendings t) xs ds -> connect_draws (_random_generator (_net t)) = Ok ((sq, n), r) -> is_u64 n ->
  exists l p,
    let x := requesting a data n sq (_next_connection_index t) (_process_start_time (_net t)) in
    connect a data (blen data) t = Ok (_next_connection_index t,
      sent a (challenge_request n (_host_nonce x))
        (with_pendings l (with_net (with_random r (_net t)) (with_next_index (u32 (_next_connection_index t + 1)) t)))) /\
    repr l ((p, x) :: xs) ds.
Proof.
  intros Hp Hd Hn. unfold connect, connect_draws in *.
  apply M_bind_Ok in Hd as (sq' & r1 & E1 & Hd). apply M_bind_Ok in Hd as (n' & r2 & E2 & Hd).
  injection Hd as -> -> ->.
  rand_with E1. rand_with E2. step_by new_connection_index_spec. step_by (buffer_of_spec data).
  step_by process_start_time_spec.
  allocate_step Hp p Hfr. add_step Hp.
  match goal with
  | |- context [(_send_challenge_request p ≫= _) ?u] =>
      pose proof (send_challenge_request_spec u [] p _ xs ds Hp Hn (u64_range _)) as Ec
  end.
  rewrite (bind_step _ _ _ _ _ Ec). exists l0, p. split; [done | exact Hp].
Qed.

(** ** Handling the challenge request *)

(** No introduced host waits for this request. *)
Definition expected_by (initiator_nonce : Z) (x : pending_connection) : bool :=
  bool_decide (_state x = sending_punch_packets) && bool_decide (_type x = introduced_connection_host) &&
  (initiator_nonce =? _initiator_nonce x) && (indeterminate =? _host_nonce x).

(** ** The challenge response *)

(** A host that answers: it has a key and challenge data that fit a datagram. *)
Record answers (s : torque_socket) (k : asymmetric_key) (key data : byte_buffer) : Prop := {
  an_key : SocketState._private_key s = Some k;
  an_public : AsymmetricKey._public_key k = Some key;
  an_data : _challenge_response s = Some data;
  an_key_ok : is_bytes (byte_buffer.data key);
  an_data_ok : is_bytes (byte_buffer.data data);
  an_fits : blen (byte_buffer.data key) + blen (byte_buffer.data data) + 33 <= max_datagram_size;
  an_nonce : is_u64 (_current_nonce (_puzzle_manager s));
  an_difficulty : is_u32 (_current_difficulty (_puzzle_manager s))
}.

Lemma send_challenge_response_spec a n (s : torque_socket) k key data :
  answers s k key data -> is_u64 n ->
  _send_connect_challenge_response a n s =
    Ok (tt, sent a (challenge_response n (identity_token (_random_hash_data s) a n)
      (_current_nonce (_puzzle_manager s)) (_current_difficulty (_puzzle_manager s)) key data) s).
Proof.
  intros [Hk Hpk Hd Hkb Hdb Hfit Hsn Hdiff] Hn. unfold _send_connect_challenge_response.
  rewrite (bind_step _ _ _ _ _ (identity_token_spec a n s)). pose proof (identity_token_range (_random_hash_data s) a n).
  unfold mbind at 1, M_bind at 1, get. rewrite Hk, Hd. cbn [of_option].
  pose proof (blen_nonneg (byte_buffer.data key)). pose proof (blen_nonneg (byte_buffer.data data)).
  pose proof holds_new as Hh. unfold packet, write_uint8, write_nonce, write_uint32, get_current_nonce, get_current_difficulty.
  put_step Hh. put_step Hh. put_step Hh. put_step Hh. put_step Hh.
  rewrite Hpk. unfold write_buffer_ptr. cbn [of_option mbind result_bind].
  assert (byte_buffer.buffer_ok key) by (split; [done | unfold max_datagram_size in *; lia]).
  assert (byte_buffer.buffer_ok data) by (split; [done | unfold max_datagram_size in *; lia]).
  put_step Hh. put_step Hh.
  rewrite (lift_step _ _ _ _ eq_refl), (send_holds _ _ _ _ Hh).
  unfold challenge_response. by rewrite <- !app_assoc.
Qed.

Lemma handle_challenge_request_spec a n h s (t : torque_socket) xs ds k key data :
  reads s (u8_img connect_challenge_request_packet) (u64_img n ++ u64_img h) -> is_u64 n ->
  _allow_connections t = true -> answers t k key data ->
  repr (_pendings t) xs ds -> find_in (expected_by n) xs = None ->
  _handle_connect_challenge_request a s t =
    Ok (tt, sent a (challenge_response n (identity_token (_random_hash_data t) a n)
      (_current_nonce (_puzzle_manager t)) (_current_difficulty (_puzzle_manager t)) key data) t).
Proof.
  intros Hr Hn Hallow Hans Hp Hno. unfold _handle_connect_challenge_request.
  unfold mbind at 1, M_bind at 1, gets. rewrite Hallow. cbn [negb]. unfold read_nonce.
  read_step Hr.
  assert (Hf : find_pending_where (expected_by n) t = Ok (None, t)).
  { unfold find_pending_where. by rewrite (pend_find_spec _ _ xs ds), Hno. }
  rewrite (bind_step _ _ _ _ _ Hf). unfold mbind at 1, M_bind at 1, mret, M_ret.
  by apply send_challenge_response_spec with (k := k).
Qed.

(** ** Handling the challenge response *)
(** What a client learns from the challenge response. *)
Definition challenged (identity host_nonce difficulty : Z) (public private : asymmetric_key) (secret : byte_buffer)
    (symmetric_key : bytes) (now : time) (x : pending_connection) : pending_connection :=
  start_timer 0 introduction_timeout now (set_state awaiting_local_challenge_accept
    (with_symmetric_key symmetric_key (set_shared_secret (Some secret) (with_private_key (Some private)
      (with_public_key (Some public) (with_puzzle_difficulty difficulty (with_host_nonce host_nonce
        (with_client_identity identity x)))))))).

(** [own] loads the peer's key [key] as [pub] and shares [secret] with it. *)
Record learns (own : asymmetric_key) (key : byte_buffer) (pub : asymmetric_key) (secret : byte_buffer) : Prop := {
  ln_key_ok : byte_buffer.buffer_ok key;
  ln_load p : load p (byte_buffer.data key) = Ok pub;
  ln_valid : _is_valid pub = true;
  ln_public : AsymmetricKey._public_key pub = Some key;
  ln_size : _key_size own = _key_size pub;
  ln_secret : compute_shared_secret_key own pub = Ok (Some secret)
}.

Lemma handle_challenge_response_spec a st (t : torque_socket) xs1 p x xs2 ds evs n id hn d key data own pub secret :
  reads st (u8_img connect_challenge_response_packet)
    (u64_img n ++ u32_img id ++ u64_img hn ++ u32_img d ++ img key ++ img data) ->
  repr (_pendings t) (xs1 ++ (p, x) :: xs2) ds -> queue_holds (_event_queue (_net t)) evs ->
  find_in (fun x => address_eqb (_address x) a) (xs1 ++ (p, x) :: xs2) = Some p ->
  _state x = requesting_challenge_response -> n = _initiator_nonce x ->
  is_u64 n -> is_u32 id -> is_u64 hn -> is_u32 d -> d <= max_puzzle_difficulty ->
  is_u32 (_client_identity (_puzzle x)) -> is_u64 (_host_nonce x) -> is_u32 (_puzzle_difficulty (_puzzle x)) ->
  byte_buffer.buffer_ok data -> SocketState._private_key t = Some own -> learns own key pub secret ->
  exists l q r skey,
    _handle_connect_challenge_response a st t =
      Ok (tt, with_pendings l (with_net (with_events q (with_random r (_net t))) t)) /\
    repr l (xs1 ++ (p, challenged id hn d pub own secret skey (_process_start_time (_net t)) x) :: xs2) ds /\
    queue_holds q (evs ++ [keyed_event torque_connection_challenge_response_event_type (_connection_index x) key data]) /\
    is_bytes skey /\ blen skey = cipher_key_size.
Proof.
  intros Hr Hp Hq Hfind Hst Hn Hnr Hid Hhn Hd Hdm Hx1 Hx2 Hx3 Hdata Hown Hl.
  destruct (pend_deref_spec _ _ _ _ _ _ Hp) as (y & E & Hxy).
  unfold _handle_connect_challenge_response, _find_pending_connection_by_address.
  rewrite (bind_step _ _ _ _ _ (pend_find_spec _ _ _ _ (blind_address a) Hp)), Hfind.
  rewrite (bind_step _ _ _ _ _ E).
  assert (_state y = requesting_challenge_response /\ _initiator_nonce y = n /\ _connection_index y = _connection_index x /\
    _puzzle y = _puzzle x /\ _host_nonce y = _host_nonce x) as (Hys & Hyn & Hyi & Hyp & Hyh) by (by subst).
  rewrite Hys, Hyn, Hyi, Hyp, Hyh, bool_decide_eq_true_2 by done. cbn [negb]. unfold read_nonce.
  read_step Hr. rewrite Z.eqb_refl. cbn [negb].
  read_step Hr. assign_step Hp. read_step Hr. assign_step Hp. read_step Hr. assign_step Hp.
  destruct (Z.ltb_spec max_puzzle_difficulty d); [lia|].
  destruct (key_of_stream_reads _ _ _ _ _ Hr (ln_key_ok _ _ _ _ Hl) (ln_load _ _ _ _ Hl Uninitialised)) as (s1 & Ek & Hr1).
  rewrite (lift_step _ _ _ _ Ek). clear Hr Ek. assign_step Hp. rewrite (ln_valid _ _ _ _ Hl). cbn [negb].
  gets_step. cbn [SocketState._private_key with_pendings]. rewrite Hown, (ln_size _ _ _ _ Hl), Z.eqb_refl.
  rewrite (lift_step _ _ _ _ eq_refl). assign_step Hp. rewrite (ln_secret _ _ _ _ Hl), (lift_step _ _ _ _ eq_refl).
  assign_step Hp.
  destruct (random_buffer_total (_random_generator (_net t)) cipher_key_size) as (skey & r & Er & Hsk & Hskl); [done|].
  rand_with Er. assign_step Hp.
  rewrite <- (app_nil_r (img data)) in Hr1. read_step Hr1.
  post_step Hq. unfold get_public_key. rewrite (ln_public _ _ _ _ Hl). cbn [of_option].
  rewrite (lift_step _ _ _ _ eq_refl). key_step Hq. data_step Hq.
  gets_step. assign_step Hp. exists l6, q1, r, skey. split_and!; [done | exact Hp | | done | done].
  exact (posted_holds _ _ _ _ Hq).
Qed.
(** ** Accepting the challenge *)
Lemma puzzle_message_spec x :
  is_u64 (_initiator_nonce x) -> is_u64 (_host_nonce x) -> is_u32 (_puzzle_difficulty (_puzzle x)) ->
  is_u32 (_client_identity (_puzzle x)) ->
  puzzle_message x = Ok (puzzle_request (_initiator_nonce x) (_host_nonce x) (_puzzle_difficulty (_puzzle x))
    (_client_identity (_puzzle x))).
Proof.
  intros Hn Hhn Hd Hid. unfold puzzle_message, write_nonce, write_uint32. pose proof holds_new as Hh.
  put_step Hh. put_step Hh. put_step Hh. put_step Hh. rewrite (holds_position _ _ Hh).
  destruct Hh as [_ _ _ _ Hb]. unfold blen. rewrite Nat2Z.id, Hb. unfold puzzle_request. by rewrite <- !app_assoc.
Qed.

(** The client while it waits for the solver. *)
Definition solving (index : Z) (now : time) (x : pending_connection) : pending_connection :=
  with_request_index index (start_timer 0 puzzle_solution_timeout now (set_state computing_puzzle_solution x)).

Lemma accept_connection_challenge_spec id (t : torque_socket) xs1 p x xs2 ds :
  repr (_pendings t) (xs1 ++ (p, x) :: xs2) ds ->
  find_in (fun x => _connection_index x =? id) (xs1 ++ (p, x) :: xs2) = Some p ->
  _state x = awaiting_local_challenge_accept ->
  is_u64 (_initiator_nonce x) -> is_u64 (_host_nonce x) -> is_u32 (_puzzle_difficulty (_puzzle x)) ->
  is_u32 (_client_identity (_puzzle x)) ->
  exists l, let '(q, i) := post_request (puzzle_request (_initiator_nonce x) (_host_nonce x)
      (_puzzle_difficulty (_puzzle x)) (_client_identity (_puzzle x))) (_puzzle_solver t) in
    accept_connection_challenge id t = Ok (tt, with_puzzle_solver q (with_pendings l t)) /\
    repr l (xs1 ++ (p, solving i (_process_start_time (_net t)) x) :: xs2) ds.
Proof.
  intros Hp Hfind Hst Hn Hhn Hd Hid. destruct (pend_deref_spec _ _ _ _ _ _ Hp) as (y & E & ->).
  unfold accept_connection_challenge, _find_pending_connection.
  rewrite (bind_step _ _ _ _ _ (pend_find_spec _ _ _ _ (blind_index id) Hp)), Hfind.
  rewrite (bind_step _ _ _ _ _ E). rewrite bool_decide_eq_true_2 by exact Hst. cbn [negb].
  step_by process_start_time_spec. assign_step Hp.
  rewrite (lift_step _ _ _ _ (puzzle_message_spec y Hn Hhn Hd Hid)).
  destruct (post_request _ _) as [q i] eqn:Eq.
  match goal with |- context [(post_puzzle ?r ≫= _) ?u] =>
    assert (post_puzzle r u = Ok (i, with_puzzle_solver q u)) as Ei
      by exact (f_equal (fun qi => let '(q, i) := qi in Ok (i, with_puzzle_solver q u)) Eq)
  end.
  rewrite (bind_step _ _ _ _ _ Ei). assign_step Hp. exists l0. split; [done | exact Hp].
Qed.

(** ** The connect request *)
Lemma connect_request_message_spec x own key data :
  _private_key x = Some own -> AsymmetricKey._public_key own = Some key -> _packet_data x = Some data ->
  is_u64 (_initiator_nonce x) -> is_u64 (_host_nonce x) -> is_u32 (_puzzle_difficulty (_puzzle x)) ->
  is_u32 (_client_identity (_puzzle x)) -> is_u32 (_puzzle_solution (_puzzle x)) ->
  is_u32 (_initial_send_sequence x) -> is_bytes (_symmetric_key x) -> blen (_symmetric_key x) = cipher_key_size ->
  byte_buffer.buffer_ok key -> byte_buffer.buffer_ok data ->
  blen (byte_buffer.data key) + blen (byte_buffer.data data) + 62 <= max_datagram_size ->
  let clear := request_clear (_initiator_nonce x) (_host_nonce x) (_client_identity (_puzzle x))
    (_puzzle_difficulty (_puzzle x)) (_puzzle_solution (_puzzle x)) key in
  let content := clear ++ request_secret (_symmetric_key x) (_initial_send_sequence x) data in
  exists out, connect_request_message x = Ok (out, blen clear) /\ holds out content.
Proof.
  intros Hown Hpk Hdata Hn Hhn Hd Hid Hsol Hsq Hsk Hskl Hkey Hdok Hfit clear content.
  pose proof (blen_nonneg (byte_buffer.data key)). pose proof (blen_nonneg (byte_buffer.data data)).
  unfold connect_request_message, packet, write_uint8, write_nonce, write_uint32, write_buffer_ptr.
  pose proof holds_new as Hh. rewrite Hown, Hdata. cbn [of_option].
  do 6 put_step Hh. cbn [mbind result_bind]. rewrite Hpk. cbn [of_option mbind result_bind]. put_step Hh.
  rewrite (holds_position _ _ Hh). apply holds_set_position in Hh.
  match type of Hh with holds _ ?b => assert (b = clear) as Hclear by (unfold clear, request_clear; by rewrite <- !app_assoc) end.
  rewrite Hclear in *. assert (Hcl : blen clear = 29 + 4 + blen (byte_buffer.data key)).
  { unfold clear, request_clear. cbn [img scalar_image buffer_image]. rewrite !blen_app, !blen_le_bytes. lia. }
  destruct (write_bytes_holds _ _ (_symmetric_key x) cipher_key_size Hh Hsk (eq_sym Hskl)) as (out6 & E & Hh6);
    [unfold max_datagram_size, cipher_key_size in *; lia|].
  rewrite E. cbn [mbind result_bind]. clear Hh E. rename Hh6 into Hh.
  unfold cipher_key_size in Hskl. put_step Hh. put_step Hh. eexists. split; [done|]. unfold content, request_secret. by rewrite <- !app_assoc in Hh.
Qed.

(** The client while it waits for the answer. *)
Definition asking (solution : Z) (x : pending_connection) : pending_connection :=
  set_state requesting_connection (with_puzzle_solution solution x).

Definition waits_for (index : Z) (x : pending_connection) : bool :=
  bool_decide (_state x = computing_puzzle_solution) && (_puzzle_request_index (_puzzle x) =? index).

Lemma use_solution_spec solution index (t : torque_socket) xs1 p x xs2 ds own key data secret :
  repr (_pendings t) (xs1 ++ (p, x) :: xs2) ds -> find_in (waits_for index) (xs1 ++ (p, x) :: xs2) = Some p ->
  _private_key x = Some own -> AsymmetricKey._public_key own = Some key -> _packet_data x = Some data ->
  _shared_secret x = Some secret ->
  is_u64 (_initiator_nonce x) -> is_u64 (_host_nonce x) -> is_u32 (_puzzle_difficulty (_puzzle x)) ->
  is_u32 (_client_identity (_puzzle x)) -> is_u32 solution ->
  is_u32 (_initial_send_sequence x) -> is_bytes (_symmetric_key x) -> blen (_symmetric_key x) = cipher_key_size ->
  byte_buffer.buffer_ok key -> byte_buffer.buffer_ok data ->
  blen (byte_buffer.data key) + blen (byte_buffer.data data) + 62 <= max_datagram_size ->
  let clear := request_clear (_initiator_nonce x) (_host_nonce x) (_client_identity (_puzzle x))
    (_puzzle_difficulty (_puzzle x)) solution key in
  exists l msg, use_solution solution index t = Ok (tt, sent (_address x) msg (with_pendings l t)) /\
    repr l (xs1 ++ (p, asking solution x) :: xs2) ds /\
    opens secret (blen clear) msg (clear ++ request_secret (_symmetric_key x) (_initial_send_sequence x) data).
Proof.
  intros Hp Hfind Hown Hpk Hdata Hsec Hn Hhn Hd Hid Hsol Hsq Hsk Hskl Hkey Hdok Hfit clear.
  unfold use_solution, find_pending_where.
  rewrite (bind_step _ _ _ _ _ (pend_find_spec (waits_for index) _ _ _ (fun _ => eq_refl) Hp)), Hfind.
  assign_step Hp. fold (asking solution x) in Hp. destruct (pend_deref_spec (with_pendings l t) _ _ _ _ _ Hp) as (y & E & Hy).
  unfold _send_connect_request. rewrite (bind_step _ _ _ _ _ E).
  destruct (connect_request_message_spec (asking solution x) own key data) as (out & Em & Hh); try done.
  assert (connect_request_message y = connect_request_message (unlinked y)) as Hyu by done.
  rewrite Hyu, <- Hy, (lift_step _ _ _ _ Em). fold clear in Hh.
  change (_shared_secret y) with (_shared_secret (unlinked y)). change (_address y) with (_address (unlinked y)).
  rewrite <- Hy. clear Hyu E Em Hy.
  change (holds out (clear ++ request_secret (_symmetric_key x) (_initial_send_sequence x) data)) in Hh.
  match goal with |- context [SocketState.seal ?a ?b out] => change (SocketState.seal a b out) with
    (SocketState.seal (_shared_secret x) (blen clear) out) end.
  assert (Hlen : blen (clear ++ request_secret (_symmetric_key x) (_initial_send_sequence x) data) =
    blen (byte_buffer.data key) + blen (byte_buffer.data data) + 57).
  { unfold clear, request_clear, request_secret. cbn [img scalar_image buffer_image].
    unfold cipher_key_size in Hskl. rewrite !blen_app, !blen_le_bytes. lia. }
  destruct (seal_sent out _ secret (blen clear) Hh) as (out' & msg & Es & Ho & Hs).
  { rewrite blen_app. split; [apply blen_nonneg | pose proof (blen_nonneg (request_secret (_symmetric_key x) (_initial_send_sequence x) data)); lia]. }
  { lia. }
  rewrite Hsec, (lift_step _ _ _ _ Es). exists l, msg. split; [apply Hs | done].
Qed.
End spec.
