(* ===== verification/RequestSpec.v ===== *)
(** * What the connect request does, and its answer

    The host's side of the connect request ([handle_connect_request_spec]), the acceptance of
    the connection ([accept_connection_spec]) and what the client does with it
    ([handle_connect_accept_spec]); the messages are those of HandshakeSpec.v. *)
From S2P Require Import Prelude Endian BitStream StreamIO Address EventQueue Cipher Net Connection HashTable HashTableSpec HashStream Sha256 BufferUtils Puzzle AsymmetricKey ThreadQueue Pending Connections SocketState Wire Handshake Socket SocketSteps HandshakeSpec.
From stdpp Require Import gmap.
#[local] Open Scope Z_scope.
Import pending.

Section spec.
Context `{Machine, Ecc, BlockCipher}.

(** ** The host's record of the request *)
Definition host_record (a : address) (n hn sequence index : Z) (secret : byte_buffer) (symmetric_key init_vector : bytes)
    (connect_sequence : Z) : pending_connection :=
  set_symmetric_cipher (Some (new_cipher_key_iv symmetric_key init_vector))
    (set_initial_recv_sequence connect_sequence (set_address a (set_shared_secret (Some secret)
      (with_host_nonce hn (with_init_vector init_vector (with_symmetric_key symmetric_key
        (new_pending_connection connection_host n sequence index))))))).

Lemma accept_request_spec p a st (t : torque_socket) xs ds evs n hn sq index pre skey seq data secret pub key :
  reads st pre (request_secret skey seq data) ->
  repr (_pendings t) xs ((p, new_pending_connection connection_host n sq index) :: ds) ->
  queue_holds (_event_queue (_net t)) evs ->
  is_bytes skey -> blen skey = cipher_key_size -> is_u32 seq -> byte_buffer.buffer_ok data ->
  AsymmetricKey._public_key pub = Some key ->
  exists l q r iv,
    accept_request p a st None hn (Some secret) pub t =
      Ok (tt, with_pendings l (with_net (with_events q (with_random r (_net t))) t)) /\
    repr l ((p, host_record a n hn sq index secret skey iv seq) :: xs) ds /\
    queue_holds q (evs ++ [keyed_event torque_connection_requested_event_type index key data]) /\
    is_bytes iv /\ blen iv = cipher_key_size.
Proof.
  intros Hr Hp Hq Hsk Hskl Hseq Hdata Hkey. unfold accept_request, request_secret in *.
  rewrite (bind_step _ _ _ _ _ (pend_detached_deref _ _ _ _ _ Hp)).
  cbn [_symmetric_key new_pending_connection].
  destruct (read_bytes_reads st pre skey _ (malloc 16) cipher_key_size Hr (malloc_bytes _)) as (s1 & Es & Hr1).
  { pose proof (malloc_length 16 ltac:(lia)). unfold blen, cipher_key_size in *. lia. }
  { done. }
  rewrite (lift_step _ _ _ _ Es). clear Es Hr. rename Hr1 into Hr. assign_detached Hp.
  destruct (random_buffer_total (_random_generator (_net t)) cipher_key_size) as (iv & r & Er & Hiv & Hivl); [done|].
  rand_with Er. assign_detached Hp. unfold read_uint32. read_step Hr.
  unfold mbind at 1, M_bind at 1, mret at 1, M_ret at 1. assign_detached Hp.
  rewrite <- (app_nil_r (img data)) in Hr. read_step Hr. add_step Hp.
  match goal with |- context [(pend (pend_deref p) ≫= _) ?u] =>
    destruct (pend_deref_spec u [] _ _ _ _ Hp) as (y & Ey & Hy) end.
  rewrite (bind_step _ _ _ _ _ Ey).
  assert (_connection_index y = index) as -> by (change (_connection_index (unlinked y) = index); by rewrite <- Hy).
  post_step Hq. unfold get_public_key. rewrite Hkey. cbn [of_option].
  rewrite (lift_step _ _ _ _ eq_refl). key_step Hq. data_step Hq.
  eexists _, _, r, iv. split; [done|]. split; [exact Hp|]. split; [|done]. exact (posted_holds _ _ _ _ Hq).
Qed.

Lemma request_record_spec n (t : torque_socket) xs ds :
  repr (_pendings t) xs ds ->
  exists p l r sq,
    request_record None n t = Ok (p, with_pendings l (with_next_index (u32 (_next_connection_index t + 1))
      (with_net (with_random r (_net t)) t))) /\
    repr l xs ((p, new_pending_connection connection_host n sq (_next_connection_index t)) :: ds) /\ is_u32 sq.
Proof.
  intros Hp. unfold request_record.
  destruct (random_integer_total (_random_generator (_net t))) as (sq & r & E & Hsq).
  rand_with E. step_by new_connection_index_spec.
  match goal with
  | |- context [pend (pending.allocate ?x) ?u] => destruct (pend_allocate_spec x u xs ds Hp) as (p & l & Ea & Hp' & _)
  end.
  exists p, l, r, sq. by rewrite Ea.
Qed.

(** A connect request that opens: the bytes in the clear, then the encrypted rest. *)
Lemma opens_split secret clear secretpart msg :
  opens secret (blen clear) msg (clear ++ secretpart) -> msg = clear ++ drop (length clear) msg.
Proof.
  intros (_ & _ & _ & _ & ct & c' & -> & _). unfold blen. rewrite Nat2Z.id, take_app_length. by rewrite drop_app_length.
Qed.

(** The checks, for a request that passes them and is not known yet. *)
Lemma check_request_spec a st (t : torque_socket) xs ds evs n hn d sol skey seq data key own pub secret msg m' :
  let id := identity_token (_random_hash_data t) a n in
  let clear := request_clear n hn id d sol key in
  opens secret (blen clear) msg (clear ++ request_secret skey seq data) ->
  reads st (u8_img connect_request_packet ++ u64_img n ++ u64_img hn)
    (u32_img id ++ u32_img d ++ u32_img sol ++ img key ++ drop (length clear) msg) ->
  repr (_pendings t) xs ds -> queue_holds (_event_queue (_net t)) evs ->
  check_solution (_puzzle_manager t) sol n hn d id = Ok (m', success) ->
  SocketState._private_key t = Some own -> learns own key pub secret ->
  is_u64 n -> is_u64 hn -> is_u32 d -> is_u32 sol ->
  is_bytes skey -> blen skey = cipher_key_size -> is_u32 seq -> byte_buffer.buffer_ok data ->
  exists p l q r sq iv,
    check_request a st n hn None None None t =
      Ok (tt, with_pendings l (with_net (with_events q (with_random r (_net t)))
        (with_next_index (u32 (_next_connection_index t + 1)) (with_puzzle_manager m' t)))) /\
    repr l ((p, host_record a n hn sq (_next_connection_index t) secret skey iv seq) :: xs) ds /\
    queue_holds q (evs ++ [keyed_event torque_connection_requested_event_type (_next_connection_index t) key data]) /\
    is_u32 sq /\ is_bytes iv /\ blen iv = cipher_key_size.
Proof.
  intros id clear Ho Hr Hp Hq Hsol Hown Hl Hn Hhn Hd Hsolr Hsk Hskl Hseq Hdata.
  pose proof (identity_token_range (_random_hash_data t) a n : is_u32 id) as Hid.
  unfold check_request, read_uint32. read_step Hr. step_by (identity_token_spec a n). fold id.
  rewrite Z.eqb_refl. cbn [negb]. read_step Hr. read_step Hr. rewrite gets_bind, (lift_step _ _ _ _ Hsol), modify_bind.
  rewrite bool_decide_eq_true_2 by done. cbn [negb].
  rewrite gets_bind. cbn [SocketState._private_key with_puzzle_manager]. rewrite Hown.
  destruct (key_of_stream_reads _ _ _ _ _ Hr (ln_key_ok _ _ _ _ Hl) (ln_load _ _ _ _ Hl Uninitialised)) as (s1 & Ek & Hr1).
  rewrite (lift_step _ _ _ _ Ek). clear Hr Ek.
  match type of Hr1 with reads _ ?b _ => assert (b = clear) as Hclear
    by (unfold clear, request_clear; by rewrite <- !app_assoc) end.
  rewrite Hclear in Hr1. rewrite (reads_position _ _ _ Hr1). apply reads_set_position in Hr1.
  rewrite (ln_secret _ _ _ _ Hl), (lift_step _ _ _ _ eq_refl).
  assert (Htk : take (Z.to_nat (blen clear)) (clear ++ request_secret skey seq data) = clear)
    by (unfold blen; by rewrite Nat2Z.id, take_app_length).
  assert (Hdr : drop (Z.to_nat (blen clear)) (clear ++ request_secret skey seq data) = request_secret skey seq data)
    by (unfold blen; by rewrite Nat2Z.id, drop_app_length).
  destruct (unseal_reads _ _ _ _ _ Ho ltac:(rewrite Htk, (Nat2Z.id (length clear) : Z.to_nat (blen clear) = _); exact Hr1)) as (s2 & Eu & Hr2).
  rewrite (lift_step _ _ _ _ Eu). cbn [negb]. rewrite Htk, Hdr in Hr2. unfold request_record.
  destruct (request_record_spec n (with_puzzle_manager m' t) xs ds Hp) as (p & l & r & sq & Er & Hp' & Hsq).
  rewrite (bind_step _ _ _ _ _ Er).
  match goal with |- context [accept_request p a s2 None hn (Some secret) pub ?u] =>
    destruct (accept_request_spec p a s2 u xs ds evs n hn sq _ clear skey seq data secret pub key Hr2 Hp' Hq)
      as (l' & q & r' & iv & Ea & Hp2 & Hq2 & Hiv & Hivl); [done | done | done | done | apply (ln_public _ _ _ _ Hl) |]
  end.
  exists p, l', q, r', sq, iv. rewrite Ea. split; [done|]. split; [exact Hp2 | done].
Qed.

Lemma handle_connect_request_spec a st (t : torque_socket) xs ds evs n hn d sol skey seq data key own pub secret msg m' :
  let id := identity_token (_random_hash_data t) a n in
  let clear := request_clear n hn id d sol key in
  opens secret (blen clear) msg (clear ++ request_secret skey seq data) ->
  reads st (u8_img connect_request_packet) (drop 1 msg) ->
  repr (_pendings t) xs ds -> find_in (fun x => address_eqb (_address x) a) xs = None ->
  connections._find_connection_by_address a (_connections t) = Ok (None, _connections t) ->
  queue_holds (_event_queue (_net t)) evs -> _allow_connections t = true ->
  check_solution (_puzzle_manager t) sol n hn d id = Ok (m', success) ->
  SocketState._private_key t = Some own -> learns own key pub secret ->
  is_u64 n -> is_u64 hn -> is_u32 d -> is_u32 sol ->
  is_bytes skey -> blen skey = cipher_key_size -> is_u32 seq -> byte_buffer.buffer_ok data ->
  exists p l q r sq iv,
    _handle_connect_request a st t =
      Ok (tt, with_pendings l (with_net (with_events q (with_random r (_net t)))
        (with_next_index (u32 (_next_connection_index t + 1)) (with_puzzle_manager m' t)))) /\
    repr l ((p, host_record a n hn sq (_next_connection_index t) secret skey iv seq) :: xs) ds /\
    queue_holds q (evs ++ [keyed_event torque_connection_requested_event_type (_next_connection_index t) key data]) /\
    is_u32 sq /\ is_bytes iv /\ blen iv = cipher_key_size.
Proof.
  intros id clear Ho Hr Hp Hno Hfind Hq Hallow Hsol Hown Hl Hn Hhn Hd Hsolr Hsk Hskl Hseq Hdata.
  rewrite (opens_split _ _ _ _ Ho) in Hr.
  assert (Hcl : clear = u8_img connect_request_packet ++ u64_img n ++ u64_img hn ++ u32_img id ++
    u32_img d ++ u32_img sol ++ img key) by done.
  rewrite Hcl in Hr at 1. rewrite <- !app_assoc in Hr.
  change (drop 1 (u8_img connect_request_packet ++ ?r)) with r in Hr.
  unfold _handle_connect_request. unfold read_nonce. read_step Hr. read_step Hr.
  rewrite (bind_step _ _ _ _ _ (find_by_address_step _ _ _ Hfind)), ret_step.
  unfold _find_pending_connection_by_address.
  rewrite (bind_step _ _ _ _ _ (pend_find_spec _ _ _ _ (blind_address a) Hp)), Hno.
  unfold pending_of. rewrite ret_step. cbn [state_is andb]. rewrite gets_bind, Hallow. cbn [negb andb].
  apply (check_request_spec a st1 t xs ds evs n hn d sol skey seq data key own pub secret msg m'); done.
Qed.

(** ** The answer *)
Lemma init_vector_of skey iv : blen iv = cipher_key_size -> get_init_vector (new_cipher_key_iv skey iv) = iv.
Proof. intros Hl. cbn. apply take_ge. unfold blen, cipher_key_size in *. lia. Qed.

Lemma send_connect_accept_spec p (t : torque_socket) c xs ds secret cipher iv :
  connections.repr (_connections t) ((p, c) :: xs) ds ->
  Connection._shared_secret c = Some secret -> Connection._symmetric_cipher c = Some cipher ->
  get_init_vector cipher = iv -> is_bytes iv -> blen iv = cipher_key_size ->
  is_u64 (Connection._initiator_nonce c) -> is_u64 (Connection._host_nonce c) ->
  is_u32 (_initial_send_seq (_window c)) ->
  let clear := accept_clear (Connection._initiator_nonce c) (Connection._host_nonce c) in
  exists msg, _send_connect_accept p t = Ok (tt, sent (Connection._address c) msg t) /\
    opens secret (blen clear) msg (clear ++ accept_secret (_initial_send_seq (_window c)) iv).
Proof.
  intros Hr Hsec Hci Hiv Hivb Hivl Hn Hhn Hsq clear.
  destruct (conn_deref_spec t [] _ _ _ _ Hr) as (y & E & ->). unfold _send_connect_accept.
  rewrite (bind_step _ _ _ _ _ E). pose proof holds_new as Hh. unfold packet, write_uint8, write_nonce, write_uint32.
  cbn in Hn, Hhn, Hsq, Hsec, Hci. unfold cipher_key_size in Hivl. put_step Hh. put_step Hh. put_step Hh.
  rewrite (holds_position _ _ Hh). apply holds_set_position in Hh.
  match type of Hh with holds _ ?b => change b with clear in * end.
  assert (Hcl : blen clear = 17) by (unfold clear, accept_clear; cbn [img scalar_image]; rewrite !blen_app, !blen_le_bytes; lia).
  put_step Hh. rewrite Hci. cbn [of_option mbind result_bind]. rewrite Hiv.
  destruct (write_bytes_holds _ _ iv cipher_key_size Hh Hivb (eq_sym Hivl)) as (out' & Ew & Hh').
  { rewrite blen_app, Hcl. cbn [img scalar_image]. rewrite blen_le_bytes. done. }
  rewrite Ew. cbn [mbind result_bind]. rewrite <- app_assoc in Hh'.
  assert (Hlen : blen (clear ++ accept_secret (_initial_send_seq (_window y)) iv) = 37).
  { unfold accept_secret. cbn [img scalar_image]. rewrite !blen_app, Hcl, Hivl, blen_le_bytes. done. }
  change (holds out' (clear ++ accept_secret (_initial_send_seq (_window y)) iv)) in Hh'.
  destruct (seal_sent out' _ secret (blen clear) Hh') as (s' & msg & Es & Ho & Hs);
    [rewrite Hlen, Hcl; lia | rewrite Hlen; done |].
  rewrite Hsec, (lift_step _ _ _ _ Es). exists msg. split; [apply Hs | exact Ho].
Qed.

Definition established_event (index : Z) : torque_socket_event :=
  fresh_event (event_code torque_connection_established_event_type) index.

Lemma accept_connection_spec id (t : torque_socket) xs1 p x xs2 ds cxs cds evs secret skey iv :
  repr (_pendings t) (xs1 ++ (p, x) :: xs2) ds ->
  find_in (fun x => _connection_index x =? id) (xs1 ++ (p, x) :: xs2) = Some p ->
  connections.repr (_connections t) cxs cds -> connections.sane (_connections t) -> connections.room (_connections t) ->
  queue_holds (_event_queue (_net t)) evs ->
  _state x = awaiting_local_accept -> _shared_secret x = Some secret ->
  _symmetric_cipher x = Some (new_cipher_key_iv skey iv) -> is_bytes iv -> blen iv = cipher_key_size ->
  is_u64 (_initiator_nonce x) -> is_u64 (_host_nonce x) -> is_u32 (_initial_send_sequence x) ->
  let clear := accept_clear (_initiator_nonce x) (_host_nonce x) in
  let c := connection_of_pending x false (_initial_recv_sequence x) (_symmetric_cipher x) in
  exists l ct q cp msg,
    accept_connection id t = Ok (tt, sent (_address x) msg
      (with_net (with_events q (_net t)) (with_connections ct (with_pendings l t)))) /\
    repr l (xs1 ++ xs2) ds /\ connections.repr ct ((cp, c) :: cxs) cds /\ connections.sane ct /\
    (connections.indexed (_connections t) cxs -> connections.indexed ct ((cp, c) :: cxs)) /\
    queue_holds q (evs ++ [established_event (_connection_index x)]) /\
    opens secret (blen clear) msg (clear ++ accept_secret (_initial_send_seq (_window c)) iv).
Proof.
  intros Hp Hfind Hc Hs Hm Hq Hst Hsec Hci Hivb Hivl Hn Hhn Hsq clear c.
  destruct (pend_deref_spec _ _ _ _ _ _ Hp) as (y & E & Hxy). unfold accept_connection, _find_pending_connection.
  rewrite (bind_step _ _ _ _ _ (pend_find_spec _ _ _ _ (blind_index id) Hp)), Hfind.
  rewrite (bind_step _ _ _ _ _ E). rewrite bool_decide_eq_true_2 by (rewrite <- Hst, Hxy; done). cbn [negb].
  assert (Hcy : connection_of_pending y false (_initial_recv_sequence y) (_symmetric_cipher y) = c) by (subst x; done).
  assert (_connection_index y = _connection_index x) as Hiy by (subst x; done). rewrite Hcy, Hiy.
  destruct (conns_allocate_spec c t cxs cds Hc) as (cp & ct1 & E1 & Hc1 & Ht1 & _). rewrite (bind_step _ _ _ _ _ E1).
  destruct (pend_remove_spec (with_connections ct1 t) _ _ _ _ _ Hp) as (l & E2 & Hl). rewrite (bind_step _ _ _ _ _ E2).
  destruct (conns_add_spec cp c (with_pendings l (with_connections ct1 t)) cxs cds Hc1
    (same_tables_sane _ _ Ht1 Hs) (same_tables_room _ _ Ht1 Hm)) as (ct2 & E3 & Hc2 & Hs2 & Hi2).
  rewrite (bind_step _ _ _ _ _ E3). post_step Hq.
  match goal with |- context [_send_connect_accept cp ?u] =>
    destruct (send_connect_accept_spec cp u _ cxs cds secret _ iv Hc2 Hsec Hci (init_vector_of _ _ Hivl) Hivb Hivl)
      as (msg & Es & Ho); try done
  end.
  exists l, ct2, q, cp, msg. split; [exact Es|]. split_and!; [exact Hl | exact Hc2 | exact Hs2 | |
    exact (posted_holds _ _ _ _ Hq) | exact Ho].
  intros Hi. apply Hi2. exact (same_tables_indexed _ _ _ Ht1 Hi).
Qed.

(** The client's connection: the cipher of the message is not stored. *)
Lemma handle_connect_accept_spec a st (t : torque_socket) xs1 p x xs2 ds cxs cds evs secret n hn seq iv msg :
  let clear := accept_clear n hn in
  opens secret (blen clear) msg (clear ++ accept_secret seq iv) ->
  reads st (u8_img connect_accept_packet) (drop 1 msg) ->
  repr (_pendings t) (xs1 ++ (p, x) :: xs2) ds ->
  find_in (fun x => address_eqb (_address x) a) (xs1 ++ (p, x) :: xs2) = Some p ->
  connections.repr (_connections t) cxs cds -> connections.sane (_connections t) -> connections.room (_connections t) ->
  queue_holds (_event_queue (_net t)) evs ->
  _state x = requesting_connection -> _shared_secret x = Some secret ->
  _initiator_nonce x = n -> _host_nonce x = hn -> is_u64 n -> is_u64 hn ->
  is_u32 seq -> is_bytes iv -> blen iv = cipher_key_size ->
  let c := connection_of_pending x true seq None in
  exists l ct q cp,
    _handle_connect_accept a st t = Ok (tt, with_net (with_events q (_net t)) (with_connections ct (with_pendings l t))) /\
    repr l (xs1 ++ xs2) ds /\ connections.repr ct ((cp, c) :: cxs) cds /\ connections.sane ct /\
    (connections.indexed (_connections t) cxs -> connections.indexed ct ((cp, c) :: cxs)) /\
    queue_holds q (evs ++ [established_event (_connection_index x)]).
Proof.
  intros clear Ho Hr Hp Hfind Hc Hs Hm Hq Hst Hsec Hxn Hxh Hn Hhn Hseq Hivb Hivl c.
  rewrite (opens_split _ _ _ _ Ho) in Hr.
  assert (Hcl : clear = u8_img connect_accept_packet ++ u64_img n ++ u64_img hn) by done.
  rewrite Hcl in Hr at 1. rewrite <- !app_assoc in Hr.
  change (drop 1 (u8_img connect_accept_packet ++ ?r)) with r in Hr.
  unfold _handle_connect_accept, read_nonce. read_step Hr. read_step Hr.
  match type of Hr with reads _ ?b _ => assert (b = clear) as Hclear by (by rewrite <- app_assoc) end.
  rewrite Hclear in Hr. rewrite (reads_position _ _ _ Hr). apply reads_set_position in Hr.
  unfold _find_pending_connection_by_address.
  rewrite (bind_step _ _ _ _ _ (pend_find_spec _ _ _ _ (blind_address a) Hp)), Hfind.
  destruct (pend_deref_spec _ _ _ _ _ _ Hp) as (y & E & Hxy). rewrite (bind_step _ _ _ _ _ E).
  assert (Hcy : connection_of_pending y true seq None = c) by (subst x; done).
  assert (_connection_index y = _connection_index x /\ _state y = _state x /\ _shared_secret y = Some secret /\
    _initiator_nonce y = n /\ _host_nonce y = hn) as (Hiy & -> & -> & Hyn & Hyh) by (subst x; done).
  unfold same_nonces. rewrite Hst, Hyn, Hyh, !Z.eqb_refl, bool_decide_eq_true_2 by done. cbn [negb orb andb].
  destruct (unseal_reads _ _ _ _ _ Ho ltac:(unfold blen; rewrite Nat2Z.id, take_app_length; exact Hr)) as (s2 & Eu & Hr2).
  rewrite (lift_step _ _ _ _ Eu). cbn [negb]. clear Eu Hr.
  unfold blen in Hr2. rewrite Nat2Z.id, take_app_length, drop_app_length in Hr2. unfold accept_secret, read_uint32 in *.
  read_step Hr2. rewrite <- (app_nil_r iv) in Hr2.
  destruct (read_bytes_reads _ _ iv [] (malloc block_size) block_size Hr2 (malloc_bytes _)) as (s3 & Es & _).
  { pose proof (malloc_length 16 ltac:(lia)). unfold blen, cipher_key_size, block_size in *. lia. }
  { done. }
  rewrite (lift_step _ _ _ _ Es), Hcy, Hiy.
  destruct (conns_allocate_spec c t cxs cds Hc) as (cp & ct1 & E1 & Hc1 & Ht1 & _). rewrite (bind_step _ _ _ _ _ E1).
  destruct (pend_remove_spec (with_connections ct1 t) _ _ _ _ _ Hp) as (l & E2 & Hl). rewrite (bind_step _ _ _ _ _ E2).
  destruct (conns_add_spec cp c (with_pendings l (with_connections ct1 t)) cxs cds Hc1
    (same_tables_sane _ _ Ht1 Hs) (same_tables_room _ _ Ht1 Hm)) as (ct2 & E3 & Hc2 & Hs2 & Hi2).
  rewrite (bind_step _ _ _ _ _ E3). post_step Hq. exists l, ct2, q, cp. split; [done|].
  split_and!; [exact Hl | exact Hc2 | exact Hs2 | | exact (posted_holds _ _ _ _ Hq)].
  intros Hi. apply Hi2. exact (same_tables_indexed _ _ _ Ht1 Hi).
Qed.
End spec.
