(* ===== verification/Establish.v ===== *)
(** * Two sockets connect

    The whole handshake between a client and a host: [answer_phase] from the challenge request to
    the connect request, with a worker thread solving the puzzle, and [request_phase] from the
    connect request to the established connections.  [handshake_establishes] shows that it ends with
    two connections that mirror each other, ready for the notify protocol of Delivery.v. *)
From S2P Require Import Prelude Endian BitCopy BitStream StreamIO Address EventQueue Cipher Net Connection Header Exchange Delivery HashTable HashTableSpec HashStream Sha256 BufferUtils Puzzle AsymmetricKey ThreadQueue Pending Connections SocketState Wire Handshake Socket SocketSteps HandshakeSpec RequestSpec.
From stdpp Require Import gmap.
#[local] Open Scope Z_scope.
Import pending.

Section establish.
Context `{Machine, Ecc, BlockCipher}.

(** ** The run *)

(** A datagram is processed the way [packet_loop] does it. *)
Definition deliver (from : address) (d : bytes) : M torque_socket unit :=
  _process_packet from (recv_from new_packet_stream d).

(** The datagram [src] sent last reaches [dst]. *)
Definition pass (from : address) (src dst : torque_socket) : result torque_socket :=
  '(_, d) ← of_option null_deref (last (udp_sent (_net src)));
  '(_, dst) ← deliver from d dst;
  Ok dst.

(** A worker thread takes a request of the puzzle solver and finishes it. *)
Definition worker_pass (fuel : nat) : M torque_socket unit :=
  w ← solver_takes;
  match w with
  | None => mret tt
  | Some w =>
      q ← gets _puzzle_solver;
      e ← lift (of_option null_deref (find (fun e => bool_decide (e.1 = w)) (_process_list q)));
      response ← lift (process_request fuel (fun _ => false) (request_buffer e.2));
      solver_finishes w response
  end.

(** The client accepts the challenge of connection [id], a worker solves the puzzle, and
    [process_connections] picks up the result. *)
Definition solve_challenge (fuel : nat) (id : Z) : M torque_socket unit :=
  _ ← accept_connection_challenge id;
  _ ← worker_pass fuel;
  q ← gets _puzzle_solver;
  puzzle_results (length (_process_list q)).

(** From the arrival of the challenge request to the connect request of connection [id]. *)
Definition answer_phase (fuel : nat) (a b : address) (id : Z) (c h : torque_socket)
    : result (torque_socket * torque_socket) :=
  h ← pass a c h;
  c ← pass b h c;
  '(_, c) ← solve_challenge fuel id c;
  Ok (c, h).

Definition request_phase (a b : address) (id : Z) (c h : torque_socket) : result (torque_socket * torque_socket) :=
  h ← pass a c h;
  '(_, h) ← accept_connection id h;
  c ← pass b h c;
  Ok (c, h).

(** ** Receiving *)
(** A receive buffer, whatever the last datagram left in it. *)
Record reused (s : bit_stream) : Prop := {
  re_bytes : is_bytes (bs_base s);
  re_size : blen (bs_base s) = max_datagram_size
}.

Lemma new_stream_reused : reused new_packet_stream.
Proof. destruct new_packet_stream_ok as ([Hb _ _ _] & _ & _ & Hl). by split. Qed.

Lemma recv_reads s d : reused s -> is_bytes d -> blen d <= max_datagram_size -> reads (recv_from s d) [] d.
Proof.
  intros [Hs Hb] Hd Hl. pose proof (blen_nonneg d).
  unfold recv_from. rewrite (take_ge d) by (unfold blen in *; lia).
  assert (Hu : u32 (blen d * 8) = 8 * blen d) by (rewrite u32_small by (unfold in_u, max_datagram_size in *; lia); lia).
  set (base := d ++ drop (length d) (bs_base s)).
  assert (Hbl : blen base = max_datagram_size).
  { unfold base. rewrite <- Hb. unfold blen in *. rewrite length_app, length_drop. unfold max_datagram_size in *. lia. }
  split; cbn [set_buffer BitStream._init bs_bit_num bs_bit_end bs_base app]; rewrite ?Hu; try done.
  - split; cbn [set_buffer BitStream._init bs_bit_num bs_bit_end bs_base]; rewrite ?Hu.
    + apply Forall_app. split; [done | by apply Forall_drop].
    + lia.
    + fold base. rewrite Hbl. lia.
    + unfold max_datagram_size in *. lia.
  - unfold base. by rewrite take_app_length.
Qed.

Lemma deliver_spec a t d rest (s : torque_socket) :
  d = u8_img t ++ rest -> is_bytes rest -> blen d <= max_datagram_size -> 0 <= t < 128 ->
  exists st, reads st (u8_img t) rest /\ deliver a d s = dispatch_packet t a st s.
Proof.
  intros -> Hb Hl Ht. assert (Hd : is_bytes (u8_img t ++ rest)).
  { apply Forall_app. split; [apply (is_bytes_le_bytes 1) | done]. }
  pose proof (recv_reads _ _ new_stream_reused Hd Hl) as Hr. pose proof Hr as [_ _ _ _ Hbase].
  unfold deliver, _process_packet.
  assert (Hg : bget (bs_base (recv_from new_packet_stream (u8_img t ++ rest))) 0 = Ok t).
  { cbn [app] in Hbase. rewrite <- (take_drop (length (u8_img t ++ rest)) (bs_base _)), Hbase, <- app_assoc.
    cbn. unfold bget. cbn. rewrite u8_small by (unfold in_u; lia). done. }
  rewrite (lift_step _ _ _ _ Hg). assert (Z.land t 0x80 =? 0 = true) as ->.
  { apply Z.eqb_eq, Z.bits_inj'. intros i Hi. rewrite Z.land_spec, Z.bits_0. 
    destruct (Z.eq_dec i 7) as [->|Hne].
    - rewrite (testbit_high 7) by (unfold in_u; lia). done.
    - change 0x80 with (2 ^ 7). rewrite Z.pow2_bits_false by lia. by rewrite andb_false_r. }
  cbn [negb]. unfold read_uint8.
  read_step Hr. exists st. done.
Qed.

(** ** The keys *)
Definition public_of (k : asymmetric_key) (e : bytes) : byte_buffer :=
  byte_buffer.mk (encoded key_type_public (_key_size k) e).

Lemma public_of_ok `{!EccLaws} k ck e :
  key_pair k ck e -> is_bytes (byte_buffer.data (public_of k e)) /\ blen (byte_buffer.data (public_of k e)) <= 205.
Proof.
  intros (_ & _ & _ & _ & He & _). destruct (ecc_export_ok ck e He) as (Hb & Hl & _).
  unfold public_of, encoded. cbn [byte_buffer.data]. split.
  - constructor; [done|]. apply Forall_app. split; [apply be_bytes_is_bytes | done].
  - unfold blen in *. cbn [length]. rewrite length_app, length_be_bytes. lia.
Qed.

Lemma key_pair_learns `{!EccLaws} k1 ck1 e1 k2 ck2 e2 :
  key_pair k1 ck1 e1 -> key_pair k2 ck2 e2 -> _key_size k1 = _key_size k2 ->
  exists pub1 pub2 secret, learns k1 (public_of k2 e2) pub2 secret /\ learns k2 (public_of k1 e1) pub1 secret /\
    length (byte_buffer.data secret) = 32%nat.
Proof.
  intros K1 K2 Hs. pose proof (public_of_ok _ _ _ K1) as [Hb1 Hl1]. pose proof (public_of_ok _ _ _ K2) as [Hb2 Hl2].
  pose proof K1 as (_ & _ & Hs1 & Hp1 & He1 & _). pose proof K2 as (_ & _ & Hs2 & Hp2 & He2 & _).
  eexists _, _, (byte_buffer.mk (sha256_spec (ecc_shared_secret ck1 (ecc_public ck2)))).
  split_and!; [split | split | apply length_sha256_spec].
  - split; [done | lia].
  - intros p. by apply load_encoded.
  - done.
  - done.
  - done.
  - by apply (shared_secret_ok k1 ck1 e1).
  - split; [done | lia].
  - intros p. by apply load_encoded.
  - done.
  - done.
  - done.
  - rewrite ecc_shared_agree by done. by apply (shared_secret_ok k2 ck2 e2).
Qed.

(** ** The puzzle *)
Lemma worker_pass_spec fuel (t : torque_socket) w i req resp :
  _process_list (_puzzle_solver t) = [(w, mk_record not_yet_processed i req None false)] ->
  process_request fuel (fun _ => false) req = Ok (Some resp) ->
  exists q, worker_pass fuel t = Ok (tt, with_puzzle_solver q t) /\
    _process_list q = [(w, mk_record process_complete i req (Some resp) false)].
Proof.
  intros Hl Hr. destruct (_puzzle_solver t) as [ci l nx] eqn:Hq. cbn in Hl. subst l.
  eexists. unfold worker_pass, solver_takes. unfold mbind at 1, M_bind at 1. rewrite Hq.
  unfold dispatch_begin. cbn [_process_list take_first pr_state]. rewrite decide_True by done. cbn beta iota zeta.
  rewrite gets_bind. cbn [_puzzle_solver with_puzzle_solver _process_list find].
  rewrite bool_decide_eq_true_2 by done. cbn [of_option]. rewrite (lift_step _ _ _ _ eq_refl). cbn [snd with_status request_buffer].
  rewrite Hr, (lift_step _ _ _ _ eq_refl). unfold solver_finishes, dispatch_end. cbn [_puzzle_solver with_puzzle_solver _process_list finish].
  rewrite decide_True by done. cbn. done.
Qed.

Lemma puzzle_results_spec (t : torque_socket) w i req sol :
  _process_list (_puzzle_solver t) = [(w, mk_record process_complete i req (Some (byte_buffer.mk (le_bytes 4 sol))) false)] ->
  is_u32 sol ->
  exists q, _process_list q = [] /\ forall t',
    use_solution sol i (with_puzzle_solver q t) = Ok (tt, t') -> _puzzle_solver t' = q ->
    puzzle_results 1 t = Ok (tt, t').
Proof.
  intros Hl Hsol. destruct (_puzzle_solver t) as [ci l nx] eqn:Hq. cbn [_process_list] in Hl. subst l.
  exists (mk_tq ci [] nx). split; [done|]. intros t' Hu Ht'.
  assert (E : next_solution t = Ok (Some (Some (byte_buffer.mk (le_bytes 4 sol)), i), with_puzzle_solver (mk_tq ci [] nx) t)).
  { unfold next_solution, get_next_result. rewrite Hq. cbn [_process_list next_result pr_state].
    by rewrite decide_True. }
  assert (E' : next_solution t' = Ok (None, t')).
  { unfold next_solution. rewrite Ht'. cbn. do 2 f_equal. destruct t'; cbn in *. by subst. }
  cbn [puzzle_results]. rewrite (bind_step _ _ _ _ _ E). cbn [of_option]. rewrite (lift_step _ _ _ _ eq_refl).
  cbn [byte_buffer.data byte_buffer.get_buffer_size]. change (blen (le_bytes 4 sol)) with 4.
  assert (Hr : reads (new_stream (le_bytes 4 sol) 4) [] (u32_img sol ++ [])).
  { rewrite app_nil_r. split; try done; [|apply (is_bytes_le_bytes 4)].
    change (stream_ok (new_stream (le_bytes 4 sol) (blen (le_bytes 4 sol)))). apply new_stream_ok; [apply (is_bytes_le_bytes 4) | done]. }
  unfold read_uint32. read_step Hr. by rewrite (bind_step _ _ _ _ _ Hu), (bind_step _ _ _ _ _ E').
Qed.

(** ** From [connect] to the connect request *)
Record client_ready (c : torque_socket) (own : asymmetric_key) (key : byte_buffer)
    (xs ds : list (loc * pending_connection)) (evs : list torque_socket_event) : Prop := {
  cl_pend : repr (_pendings c) xs ds;
  cl_queue : queue_holds (_event_queue (_net c)) evs;
  cl_key : SocketState._private_key c = Some own;
  cl_public : AsymmetricKey._public_key own = Some key;
  cl_key_ok : byte_buffer.buffer_ok key;
  cl_idle : _process_list (_puzzle_solver c) = []
}.

(** The client at [a] is not known to the host, which knows no introduction with its nonce. *)
Record host_ready (h : torque_socket) (a : address) (n : Z) (own : asymmetric_key) (key data : byte_buffer)
    (xs ds : list (loc * pending_connection)) : Prop := {
  ho_pend : repr (_pendings h) xs ds;
  ho_new : find_in (fun x => address_eqb (_address x) a) xs = None;
  ho_unexpected : find_in (expected_by n) xs = None;
  ho_answers : answers h own key data;
  ho_allow : _allow_connections h = true;
  ho_difficulty : _current_difficulty (_puzzle_manager h) <= max_puzzle_difficulty
}.

Lemma challenge_request_sizes n hn : is_bytes (u64_img n ++ u64_img hn) /\ blen (challenge_request n hn) <= max_datagram_size.
Proof.
  split; [apply Forall_app; split; apply (is_bytes_le_bytes 8)|].
  unfold challenge_request. cbn [img scalar_image]. rewrite !blen_app, !blen_le_bytes. done.
Qed.

Lemma pass_sent from (src dst : torque_socket) a d : pass from (sent a d src) dst = ('(_, t) ← deliver from d dst; Ok t).
Proof. unfold pass. cbn. rewrite last_snoc. done. Qed.

Lemma pass_challenge_request from (src h : torque_socket) b n hn own key data xs ds :
  host_ready h from n own key data xs ds -> is_u64 n ->
  pass from (sent b (challenge_request n hn) src) h =
    Ok (sent from (challenge_response n (identity_token (_random_hash_data h) from n)
      (_current_nonce (_puzzle_manager h)) (_current_difficulty (_puzzle_manager h)) key data) h).
Proof.
  intros [Hp Hnew Hun Hans Hal Hd] Hn. destruct (challenge_request_sizes n hn) as [Hb Hl].
  rewrite pass_sent.
  destruct (deliver_spec from connect_challenge_request_packet (challenge_request n hn) _ h eq_refl Hb Hl) as (st & Hr & E); [done|].
  rewrite E. change (dispatch_packet connect_challenge_request_packet from st h) with (_handle_connect_challenge_request from st h).
  by rewrite (handle_challenge_request_spec from n hn st h xs ds own key data Hr Hn Hal Hans Hp Hun).
Qed.

(** A pending connection to [b] that has asked for the challenge, and asks again on its way. *)
Record asks (x : pending_connection) (b : address) (n sq : Z) (data : byte_buffer) : Prop := {
  as_state : _state x = requesting_challenge_response;
  as_address : _address x = b;
  as_nonce : _initiator_nonce x = n;
  as_sequence : _initial_send_sequence x = sq;
  as_data : _packet_data x = Some data;
  as_identity : is_u32 (_client_identity (_puzzle x));
  as_host_nonce : is_u64 (_host_nonce x);
  as_difficulty : is_u32 (_puzzle_difficulty (_puzzle x))
}.

Lemma requesting_asks b data n sq index now :
  asks (requesting b data n sq index now) b n sq (byte_buffer.mk data).
Proof. split; try done; first [apply u32_range | apply u64_range]. Qed.

(** The client's record when its request is sent. *)
Definition client_record (x : pending_connection) (id s d sol i : Z) (pub own : asymmetric_key)
    (secret : byte_buffer) (skey : bytes) (now : time) : pending_connection :=
  asking sol (solving i now (challenged id s d pub own secret skey now x)).

Lemma pass_challenge_response from (src c : torque_socket) a p x xs ds evs n id s d key data own pub secret :
  repr (_pendings c) ((p, x) :: xs) ds -> queue_holds (_event_queue (_net c)) evs ->
  address_eqb (_address x) from = true -> _state x = requesting_challenge_response -> n = _initiator_nonce x ->
  is_u64 n -> is_u32 id -> is_u64 s -> is_u32 d -> d <= max_puzzle_difficulty ->
  is_u32 (_client_identity (_puzzle x)) -> is_u64 (_host_nonce x) -> is_u32 (_puzzle_difficulty (_puzzle x)) ->
  is_bytes (byte_buffer.data key) -> is_bytes (byte_buffer.data data) ->
  blen (byte_buffer.data key) + blen (byte_buffer.data data) + 33 <= max_datagram_size ->
  SocketState._private_key c = Some own -> learns own key pub secret ->
  exists l q r skey,
    pass from (sent a (challenge_response n id s d key data) src) c =
      Ok (with_pendings l (with_net (with_events q (with_random r (_net c))) c)) /\
    repr l ((p, challenged id s d pub own secret skey (_process_start_time (_net c)) x) :: xs) ds /\
    queue_holds q (evs ++ [keyed_event torque_connection_challenge_response_event_type (_connection_index x) key data]) /\
    is_bytes skey /\ blen skey = cipher_key_size.
Proof.
  intros Hp Hq Ha Hst Hn Hnr Hid Hs Hd Hdm Hx1 Hx2 Hx3 Hkb Hdb Hfit Hown Hl. rewrite pass_sent.
  pose proof (blen_nonneg (byte_buffer.data key)). pose proof (blen_nonneg (byte_buffer.data data)).
  assert (Hfind : find_in (fun x => address_eqb (_address x) from) ([] ++ (p, x) :: xs) = Some p)
    by (unfold find_in; cbn; by rewrite Ha).
  destruct (deliver_spec from connect_challenge_response_packet (challenge_response n id s d key data) _ c eq_refl)
    as (st & Hr & E); [| | done |].
  { cbn [img scalar_image buffer_image]. repeat (apply Forall_app; split); try apply is_bytes_le_bytes; done. }
  { unfold challenge_response. cbn [img scalar_image buffer_image]. rewrite !blen_app, !blen_le_bytes.
    unfold max_datagram_size in *. lia. }
  rewrite E. change (dispatch_packet connect_challenge_response_packet from st c) with (_handle_connect_challenge_response from st c).
  destruct (handle_challenge_response_spec from st c [] p x xs ds evs n id s d key data own pub secret Hr Hp Hq Hfind)
    as (l & q & r & skey & Eh & Hrest); try done.
  { split; [done | unfold max_datagram_size in *; lia]. }
  exists l, q, r, skey. by rewrite Eh.
Qed.

(** A puzzle and its least solution. *)
Record puzzle_solved (n s d id sol : Z) (fuel : nat) : Prop := {
  ps_range : is_u32 sol;
  ps_fuel : (Z.to_nat sol < fuel)%nat;
  ps_least x : 0 <= x < sol -> solves x n s d id = false;
  ps_solves : solves sol n s d id = true
}.

Lemma worker_solves fuel (t : torque_socket) n s d id sol q i :
  post_request (puzzle_request n s d id) (_puzzle_solver t) = (q, i) -> _process_list (_puzzle_solver t) = [] ->
  puzzle_solved n s d id sol fuel -> is_u64 n -> is_u64 s -> is_u32 id -> 0 <= d <= 256 ->
  exists q' w, worker_pass fuel (with_puzzle_solver q t) = Ok (tt, with_puzzle_solver q' t) /\
    _process_list q' = [(w, mk_record process_complete i (puzzle_request n s d id)
      (Some (byte_buffer.mk (le_bytes 4 sol))) false)].
Proof.
  intros Hpost Hidle [Hr Hf Hleast Hsol] Hn Hs Hid Hd. unfold post_request in Hpost. rewrite Hidle in Hpost.
  assert (Hl : _process_list q = [(tq_next (_puzzle_solver t), mk_record not_yet_processed i (puzzle_request n s d id) None false)])
    by (by injection Hpost as <- <-).
  destruct (worker_pass_spec fuel (with_puzzle_solver q t) _ _ _ (byte_buffer.mk (le_bytes 4 sol)) Hl) as (q' & E & Hq').
  { by apply process_request_spec. }
  exists q', (tq_next (_puzzle_solver t)). by rewrite E.
Qed.

Lemma solve_challenge_spec fuel cid (t : torque_socket) p x xs ds own key secret data sol :
  repr (_pendings t) ((p, x) :: xs) ds -> _connection_index x = cid -> _state x = awaiting_local_challenge_accept ->
  _process_list (_puzzle_solver t) = [] ->
  _private_key x = Some own -> AsymmetricKey._public_key own = Some key -> _packet_data x = Some data ->
  _shared_secret x = Some secret -> is_bytes (_symmetric_key x) -> blen (_symmetric_key x) = cipher_key_size ->
  byte_buffer.buffer_ok key -> byte_buffer.buffer_ok data ->
  blen (byte_buffer.data key) + blen (byte_buffer.data data) + 62 <= max_datagram_size ->
  let n := _initiator_nonce x in let s := _host_nonce x in
  let d := _puzzle_difficulty (_puzzle x) in let id := _client_identity (_puzzle x) in
  let clear := request_clear n s id d sol key in
  puzzle_solved n s d id sol fuel ->
  is_u64 n -> is_u64 s -> is_u32 id -> is_u32 d -> 0 <= d <= 256 -> is_u32 (_initial_send_sequence x) ->
  exists l tq i msg,
    solve_challenge fuel cid t = Ok (tt, sent (_address x) msg (with_puzzle_solver tq (with_pendings l t))) /\
    repr l ((p, asking sol (solving i (_process_start_time (_net t)) x)) :: xs) ds /\
    opens secret (blen clear) msg (clear ++ request_secret (_symmetric_key x) (_initial_send_sequence x) data).
Proof.
  intros Hp Hcid Hst Hidle Hown Hpk Hdata Hsec Hsk Hskl Hkok Hdok Hfit n s d id clear Hps Hn Hs Hid Hdr Hd Hsq.
  assert (Hfind : find_in (fun x => _connection_index x =? cid) ([] ++ (p, x) :: xs) = Some p)
    by (unfold find_in; cbn; by rewrite Hcid, Z.eqb_refl).
  destruct (accept_connection_challenge_spec cid t [] p x xs ds Hp Hfind Hst Hn Hs Hdr Hid) as (l1 & Ha).
  fold n s d id in Ha. destruct (post_request _ _) as [q1 i] eqn:Hpost. destruct Ha as [Ea Hp1].
  destruct (worker_solves fuel (with_pendings l1 t) n s d id sol q1 i Hpost Hidle Hps Hn Hs Hid Hd) as (q2 & w & Ew & Hq2).
  unfold solve_challenge. rewrite (bind_step _ _ _ _ _ Ea), (bind_step _ _ _ _ _ Ew), gets_bind.
  cbn [_puzzle_solver with_puzzle_solver]. rewrite Hq2. cbn [length].
  destruct (puzzle_results_spec (with_puzzle_solver q2 (with_pendings l1 t)) w i _ sol Hq2 (ps_range _ _ _ _ _ _ Hps))
    as (q3 & _ & Hres).
  assert (Hw : find_in (waits_for i) ([] ++ (p, solving i (_process_start_time (_net t)) x) :: xs) = Some p)
    by (unfold find_in, waits_for; cbn; by rewrite Z.eqb_refl).
  destruct (use_solution_spec sol i (with_puzzle_solver q3 (with_puzzle_solver q2 (with_pendings l1 t)))
    [] p _ xs ds own key data secret Hp1 Hw Hown Hpk Hdata Hsec
    Hn Hs Hdr Hid (ps_range _ _ _ _ _ _ Hps) Hsq Hsk Hskl Hkok Hdok Hfit) as (l2 & msg & Eu & Hp2 & Ho).
  exists l2, q3, i, msg. split; [exact (Hres _ Eu eq_refl)|]. split; [exact Hp2 | exact Ho].
Qed.


Lemma answer_phase_spec fuel a b data (c0 c h : torque_socket) x p own key xs ds evs hown hkey rdata hxs hds pub secret
    sq n hn sol :
  c = sent b (challenge_request n hn) c0 -> client_ready c own key ((p, x) :: xs) ds evs -> asks x b n sq data ->
  is_u64 n -> is_u32 sq -> is_bytes (byte_buffer.data data) ->
  blen (byte_buffer.data key) + blen (byte_buffer.data data) + 62 <= max_datagram_size ->
  host_ready h a n hown hkey rdata hxs hds -> learns own hkey pub secret ->
  let id := identity_token (_random_hash_data h) a n in
  let s := _current_nonce (_puzzle_manager h) in
  let d := _current_difficulty (_puzzle_manager h) in
  puzzle_solved n s d id sol fuel ->
  exists c' skey i msg resp,
    let y := client_record x id s d sol i pub own secret skey (_process_start_time (_net c)) in
    let clear := request_clear n s id d sol key in
    answer_phase fuel a b (_connection_index x) c h = Ok (sent b msg c', sent a resp h) /\
    opens secret (blen clear) msg (clear ++ request_secret skey sq data) /\
    is_bytes skey /\ blen skey = cipher_key_size /\
    repr (_pendings c') ((p, y) :: xs) ds /\ _connections c' = _connections c /\
    queue_holds (_event_queue (_net c')) (evs ++
      [keyed_event torque_connection_challenge_response_event_type (_connection_index x) hkey rdata]).
Proof.
  intros -> [Hp Hq Hown Hpk Hkok Hidle] [Hxs Hxa Hxn Hxq Hxd Hx1 Hx2 Hx3] Hn Hsq Hdata Hfit Hh Hlearn id s d Hps.
  pose proof Hh as [_ _ _ Hans _ Hdm]. pose proof Hans as [_ _ _ Hkb Hrb Hrfit Hs Hd].
  pose proof (identity_token_range (_random_hash_data h) a n : is_u32 id) as Hid.
  unfold answer_phase. rewrite (pass_challenge_request _ _ _ _ _ _ _ _ _ _ _ Hh Hn). cbn [mbind result_bind]. fold id s d.
  match goal with |- context [pass b (sent a (challenge_response n id s d hkey rdata) h) ?u] =>
    destruct (pass_challenge_response b h u a p _ xs ds evs n id s d hkey rdata own pub secret Hp Hq)
      as (l2 & q2 & r2 & skey & E2 & Hp2 & Hq2 & Hsk & Hskl); try done end.
  { by apply address_eqb_spec. }
  rewrite E2. cbn [mbind result_bind].
  match goal with |- context [solve_challenge fuel ?cid ?u] =>
    destruct (solve_challenge_spec fuel cid u p _ xs ds own key secret data sol Hp2)
      as (l3 & q3 & i & msg & E3 & Hp3 & Ho) end; try done; cbn [_initiator_nonce _initial_send_sequence challenged]; try (subst; done).
  { split; [done|]. pose proof (blen_nonneg (byte_buffer.data key)). unfold max_datagram_size in *. lia. }
  { change (0 <= d <= 256). unfold max_puzzle_difficulty in Hdm. destruct Hd. fold d in Hdm. lia. }
  rewrite E3. cbn [mbind result_bind]. subst b n sq. eexists _, skey, i, msg, _.
  split; [done|]. split; [exact Ho|]. split; [done|]. split; [done|]. split; [exact Hp3|]. split; [done | exact Hq2].
Qed.

(** ** From the connect request to the connections *)
Record hosts (t : torque_socket) (xs ds : list (loc * pending_connection)) (cxs cds : list (loc * torque_connection))
    (evs : list torque_socket_event) : Prop := {
  hs_pend : repr (_pendings t) xs ds;
  hs_conns : connections.repr (_connections t) cxs cds;
  hs_sane : connections.sane (_connections t);
  hs_room : connections.room (_connections t);
  hs_queue : queue_holds (_event_queue (_net t)) evs
}.

(** The socket has one connection more, and has told the application. *)
Record gained (t t' : torque_socket) (xs ds : list (loc * pending_connection)) (cxs cds : list (loc * torque_connection))
    (p : loc) (c : torque_connection) (evs : list torque_socket_event) : Prop := {
  ga_pend : repr (_pendings t') xs ds;
  ga_conns : connections.repr (_connections t') ((p, c) :: cxs) cds;
  ga_sane : connections.sane (_connections t');
  ga_indexed : connections.indexed (_connections t) cxs -> connections.indexed (_connections t') ((p, c) :: cxs);
  ga_queue : queue_holds (_event_queue (_net t')) evs
}.

(** The datagram of an encrypted message starts with its type. *)
Lemma opened_message secret clear content msg t rest :
  opens secret (blen clear) msg (clear ++ content) -> clear = u8_img t ++ rest ->
  msg = u8_img t ++ drop 1 msg /\ is_bytes (drop 1 msg) /\ blen msg = blen (clear ++ content) + 5.
Proof.
  intros Ho ->. pose proof Ho as (_ & Hb & _ & Hl & _). split; [|split; [by apply Forall_drop | done]].
  rewrite (opens_split _ _ _ _ Ho). done.
Qed.

Lemma pass_connect_request from (src h : torque_socket) b xs ds cxs cds evs n hn d sol skey seq data key own pub secret msg m' :
  let id := identity_token (_random_hash_data h) from n in
  let clear := request_clear n hn id d sol key in
  opens secret (blen clear) msg (clear ++ request_secret skey seq data) -> blen msg <= max_datagram_size ->
  hosts h xs ds cxs cds evs -> find_in (fun x => address_eqb (_address x) from) xs = None ->
  connections._find_connection_by_address from (_connections h) = Ok (None, _connections h) ->
  _allow_connections h = true ->
  check_solution (_puzzle_manager h) sol n hn d id = Ok (m', success) ->
  SocketState._private_key h = Some own -> learns own key pub secret ->
  is_u64 n -> is_u64 hn -> is_u32 d -> is_u32 sol ->
  is_bytes skey -> blen skey = cipher_key_size -> is_u32 seq -> byte_buffer.buffer_ok data ->
  exists h' p sq iv,
    pass from (sent b msg src) h = Ok h' /\
    hosts h' ((p, host_record from n hn sq (_next_connection_index h) secret skey iv seq) :: xs) ds cxs cds
      (evs ++ [keyed_event torque_connection_requested_event_type (_next_connection_index h) key data]) /\
    _connections h' = _connections h /\ is_u32 sq /\ is_bytes iv /\ blen iv = cipher_key_size.
Proof.
  intros id clear Ho Hmsg [Hp Hc Hs Hm Hq] Hnew Hno Hallow Hsol Hown Hl Hn Hhn Hd Hsolr Hsk Hskl Hseq Hdata.
  rewrite pass_sent. destruct (opened_message _ _ _ _ connect_request_packet _ Ho eq_refl) as (Hsplit & Hb & _).
  destruct (deliver_spec from connect_request_packet msg _ h Hsplit Hb Hmsg) as (st & Hr & E); [done|].
  rewrite E. change (dispatch_packet connect_request_packet from st h) with (_handle_connect_request from st h).
  destruct (handle_connect_request_spec from st h xs ds evs n hn d sol skey seq data key own pub secret msg m')
    as (p & l & q & r & sq & iv & Eh & Hp' & Hq' & Hsq & Hiv & Hivl); try done.
  eexists _, p, sq, iv. rewrite Eh. split; [done|]. split; [by split|]. done.
Qed.

Lemma accept_gains id (t : torque_socket) p x xs ds cxs cds evs secret skey iv :
  hosts t ((p, x) :: xs) ds cxs cds evs -> _connection_index x = id ->
  _state x = awaiting_local_accept -> _shared_secret x = Some secret ->
  _symmetric_cipher x = Some (new_cipher_key_iv skey iv) -> is_bytes iv -> blen iv = cipher_key_size ->
  is_u64 (_initiator_nonce x) -> is_u64 (_host_nonce x) -> is_u32 (_initial_send_sequence x) ->
  let clear := accept_clear (_initiator_nonce x) (_host_nonce x) in
  let c := connection_of_pending x false (_initial_recv_sequence x) (_symmetric_cipher x) in
  exists t' cp msg,
    accept_connection id t = Ok (tt, sent (_address x) msg t') /\
    gained t t' xs ds cxs cds cp c (evs ++ [established_event id]) /\
    opens secret (blen clear) msg (clear ++ accept_secret (_initial_send_sequence x) iv).
Proof.
  intros [Hp Hc Hs Hm Hq] <- Hst Hsec Hci Hiv Hivl Hn Hhn Hsq clear c.
  assert (Hfind : find_in (fun y => _connection_index y =? _connection_index x) ([] ++ (p, x) :: xs) = Some p)
    by (unfold find_in; cbn; by rewrite Z.eqb_refl).
  destruct (accept_connection_spec _ t [] p x xs ds cxs cds evs secret skey iv Hp Hfind Hc Hs Hm Hq Hst Hsec Hci
    Hiv Hivl Hn Hhn Hsq) as (l & ct & q & cp & msg & E & Hl & Hct & Hst' & Hix & Hq' & Ho).
  eexists _, cp, msg. split; [exact E|]. split; [|exact Ho]. by split.
Qed.

Lemma pass_connect_accept from (src c : torque_socket) a p x xs ds cxs cds evs secret n hn seq iv msg :
  let clear := accept_clear n hn in
  opens secret (blen clear) msg (clear ++ accept_secret seq iv) -> hosts c ((p, x) :: xs) ds cxs cds evs ->
  _address x = from -> _state x = requesting_connection -> _shared_secret x = Some secret ->
  _initiator_nonce x = n -> _host_nonce x = hn -> is_u64 n -> is_u64 hn ->
  is_u32 seq -> is_bytes iv -> blen iv = cipher_key_size ->
  exists c' cp,
    pass from (sent a msg src) c = Ok c' /\
    gained c c' xs ds cxs cds cp (connection_of_pending x true seq None) (evs ++ [established_event (_connection_index x)]).
Proof.
  intros clear Ho [Hp Hc Hs Hm Hq] Ha Hst Hsec Hxn Hxh Hn Hhn Hseq Hiv Hivl. rewrite pass_sent.
  destruct (opened_message _ _ _ _ connect_accept_packet _ Ho eq_refl) as (Hsplit & Hb & Hl).
  assert (Hfind : find_in (fun y => address_eqb (_address y) from) ([] ++ (p, x) :: xs) = Some p).
  { unfold find_in. cbn. assert (address_eqb (_address x) from = true) as -> by (by apply address_eqb_spec). done. }
  destruct (deliver_spec from connect_accept_packet msg _ c Hsplit Hb) as (st & Hr & E); [| done |].
  { unfold clear, accept_clear, accept_secret in Hl. cbn [img scalar_image] in Hl.
    rewrite !blen_app, !blen_le_bytes, Hivl in Hl. unfold cipher_key_size, max_datagram_size in *. lia. }
  rewrite E. change (dispatch_packet connect_accept_packet from st c) with (_handle_connect_accept from st c).
  destruct (handle_connect_accept_spec from st c [] p x xs ds cxs cds evs secret n hn seq iv msg Ho Hr Hp Hfind Hc Hs Hm
    Hq Hst Hsec Hxn Hxh Hn Hhn Hseq Hiv Hivl) as (l & ct & q & cp & Eh & Hl' & Hct & Hst' & Hix & Hq').
  eexists _, cp. rewrite Eh. split; [done|]. by split.
Qed.

Lemma request_phase_spec a b (c h : torque_socket) p x xs ds cxs cds evs hxs hds hcxs hcds hevs
    n hn d sol skey seq data key own pub secret msg m' :
  let id := identity_token (_random_hash_data h) a n in
  let clear := request_clear n hn id d sol key in
  opens secret (blen clear) msg (clear ++ request_secret skey seq data) -> blen msg <= max_datagram_size ->
  hosts c ((p, x) :: xs) ds cxs cds evs -> _address x = b -> _state x = requesting_connection ->
  _shared_secret x = Some secret -> _initiator_nonce x = n -> _host_nonce x = hn ->
  hosts h hxs hds hcxs hcds hevs -> find_in (fun x => address_eqb (_address x) a) hxs = None ->
  connections._find_connection_by_address a (_connections h) = Ok (None, _connections h) ->
  _allow_connections h = true -> check_solution (_puzzle_manager h) sol n hn d id = Ok (m', success) ->
  SocketState._private_key h = Some own -> learns own key pub secret ->
  is_u64 n -> is_u64 hn -> is_u32 d -> is_u32 sol ->
  is_bytes skey -> blen skey = cipher_key_size -> is_u32 seq -> byte_buffer.buffer_ok data ->
  exists c' h' cp hp sq iv msg',
    let hid := _next_connection_index h in
    let hx := host_record a n hn sq hid secret skey iv seq in
    request_phase a b hid (sent b msg c) h = Ok (c', sent a msg' h') /\
    gained c c' xs ds cxs cds cp (connection_of_pending x true sq None) (evs ++ [established_event (_connection_index x)]) /\
    gained h h' hxs hds hcxs hcds hp (connection_of_pending hx false seq (Some (new_cipher_key_iv skey iv)))
      (hevs ++ [keyed_event torque_connection_requested_event_type hid key data; established_event hid]) /\
    is_u32 sq /\ blen iv = cipher_key_size.
Proof.
  intros id clear Ho Hmsg Hc Ha Hst Hsec Hxn Hxh Hh Hnew Hno Hallow Hsol Hown Hl Hn Hhn Hd Hsolr Hsk Hskl Hseq Hdata.
  destruct (pass_connect_request a c h b hxs hds hcxs hcds hevs n hn d sol skey seq data key own pub secret msg m'
    Ho Hmsg Hh Hnew Hno Hallow Hsol Hown Hl Hn Hhn Hd Hsolr Hsk Hskl Hseq Hdata)
    as (h1 & pr & sq & iv & E1 & Hh1 & Hct & Hsq & Hiv & Hivl).
  unfold request_phase. rewrite E1. cbn [mbind result_bind].
  destruct (accept_gains (_next_connection_index h) h1 pr _ hxs hds hcxs hcds _ secret skey iv Hh1 eq_refl eq_refl
    eq_refl eq_refl Hiv Hivl Hn Hhn Hsq) as (h2 & hp & msg' & E2 & [? ? ? Hix ?] & Ho').
  rewrite E2. cbn [mbind result_bind].
  destruct (pass_connect_accept b h2 (sent b msg c) a p x xs ds cxs cds evs secret n hn sq iv msg' Ho')
    as (c' & cp & E3 & [? ? ? Hix' ?]); try done; [by destruct Hc; split|].
  change (_address (host_record a n hn sq (_next_connection_index h) secret skey iv seq)) with a. rewrite E3.
  cbn [mbind result_bind]. exists c', h2, cp, hp, sq, iv, msg'. split; [done|]. split; [by split|].
  split; [|done]. split; try done; [by rewrite <- Hct|]. by rewrite <- app_assoc in *.
Qed.

(** ** The handshake *)

(** From the arrival of the challenge request; the host accepts the connection its
    [connection_requested] event names. *)
Definition establish_phase (fuel : nat) (a b : address) (id : Z) (c h : torque_socket)
    : result (torque_socket * torque_socket) :=
  '(c, h) ← answer_phase fuel a b id c h;
  request_phase a b (_next_connection_index h) c h.

Definition handshake (fuel : nat) (a b : address) (data : bytes) (c h : torque_socket)
    : result (torque_socket * torque_socket) :=
  '(id, c) ← connect b data (blen data) c;
  establish_phase fuel a b id c h.

(** An endpoint of Delivery.v: the connection, once the application has read its events. *)
Definition endpoint_of (c : torque_connection) (t : torque_socket) : endpoint :=
  mk_endpoint c (with_events empty_queue (_net t)) [].

(** The two ends of one connection between [a] and [b]. *)
Record mirrored (a b : address) (cc hc : torque_connection) : Prop := {
  mi_client : Connection._is_initiator cc = true /\ Connection._address cc = b;
  mi_host : Connection._is_initiator hc = false /\ Connection._address hc = a;
  mi_initiator_nonce : Connection._initiator_nonce cc = Connection._initiator_nonce hc;
  mi_host_nonce : Connection._host_nonce cc = Connection._host_nonce hc;
  mi_secret : exists secret, length secret = 32%nat /\
    Connection._shared_secret cc = Some (byte_buffer.mk secret) /\
    Connection._shared_secret hc = Some (byte_buffer.mk secret)
}.

(** The host has not heard of the client at [a], and can answer it. *)
Record fresh_client (h : torque_socket) (a : address) (n : Z) (xs : list (loc * pending_connection))
    (cxs : list (loc * torque_connection)) : Prop := {
  fc_pending : find_in (fun x => address_eqb (_address x) a) xs = None;
  fc_unexpected : find_in (expected_by n) xs = None;
  fc_indexed : connections.indexed (_connections h) cxs;
  fc_connected p c : (p, c) ∈ cxs -> Connection._address c <> a;
  fc_allow : _allow_connections h = true;
  fc_difficulty : _current_difficulty (_puzzle_manager h) <= max_puzzle_difficulty;
  fc_table : Puzzle.table_ok (_current_nonce_table (_puzzle_manager h));
  fc_nonce : ~ in_table n (_current_nonce_table (_puzzle_manager h))
}.

Lemma fresh_client_unknown h a n xs cxs :
  fresh_client h a n xs cxs -> connections.sane (_connections h) ->
  connections._find_connection_by_address a (_connections h) = Ok (None, _connections h).
Proof.
  intros Hf Hs. destruct (connections.find_connection_by_address_spec a _ Hs) as (o & E & Ho).
  specialize (Ho cxs (fc_indexed _ _ _ _ _ Hf)). rewrite E. destruct o as [p|]; [|done].
  destruct Ho as (x & Hin & Hx). by apply (fc_connected _ _ _ _ _ Hf) in Hin.
Qed.

Lemma fresh_client_accepted h a n xs cxs sol id :
  fresh_client h a n xs cxs -> is_u32 (_current_difficulty (_puzzle_manager h)) ->
  solves sol n (_current_nonce (_puzzle_manager h)) (_current_difficulty (_puzzle_manager h)) id = true ->
  exists m', check_solution (_puzzle_manager h) sol n (_current_nonce (_puzzle_manager h))
    (_current_difficulty (_puzzle_manager h)) id = Ok (m', success).
Proof.
  intros [_ _ _ _ _ Hd Ht Hn] [Hd0 _] Hsol.
  destruct (check_solution_accepts (_puzzle_manager h) sol n id (_current_nonce (_puzzle_manager h)))
    as (m' & code & E & Hcode).
  - unfold get_current_difficulty, max_puzzle_difficulty in *. lia.
  - by rewrite Z.eqb_refl.
  - by left.
  - done.
  - exists m'. rewrite Z.eqb_refl in Hcode. unfold get_current_difficulty in E. rewrite E.
    by apply Hcode in Hn as ->.
Qed.

Lemma established_endpoint x is_initiator sq rsq cipher t :
  _initial_send_sequence x = sq -> match cipher with Some k => cipher_ok k | None => True end ->
  connected sq rsq (endpoint_of (connection_of_pending x is_initiator rsq cipher) t).
Proof.
  intros <- Hc. split; [done | done | | apply empty_queue_holds | done].
  unfold conn_cipher_ok. by destruct cipher.
Qed.

Lemma connect_request_fits secret n s id d sol key msg skey sq data :
  let clear := request_clear n s id d sol key in
  opens secret (blen clear) msg (clear ++ request_secret skey sq data) -> blen skey = cipher_key_size ->
  blen (byte_buffer.data key) + blen (byte_buffer.data data) + 62 <= max_datagram_size ->
  blen msg <= max_datagram_size.
Proof.
  intros clear (_ & _ & _ & Hl & _) Hsk Hfit. unfold clear, request_clear, request_secret in Hl.
  cbn [img scalar_image buffer_image] in Hl. rewrite !blen_app, !blen_le_bytes, Hsk in Hl.
  unfold cipher_key_size, max_datagram_size in *. lia.
Qed.

(** The two sockets of a handshake: the client has no puzzle to solve, the host does not know
    the client and its puzzle can be solved. *)
Record ready_to_connect `{!EccLaws} (fuel : nat) (a : address) (n : Z) (c h : torque_socket) (ck hk : asymmetric_key)
    (ce he : bytes) (rdata : byte_buffer) (hxs : list (loc * pending_connection)) (hcxs : list (loc * torque_connection))
    (sol : Z) : Prop := {
  rc_key : SocketState._private_key c = Some ck;
  rc_pair : exists cck, key_pair ck cck ce;
  rc_idle : _process_list (_puzzle_solver c) = [];
  rc_host_pair : exists hck, key_pair hk hck he;
  rc_size : _key_size ck = _key_size hk;
  rc_answers : answers h hk (public_of hk he) rdata;
  rc_fresh : fresh_client h a n hxs hcxs;
  rc_puzzle : puzzle_solved n (_current_nonce (_puzzle_manager h)) (_current_difficulty (_puzzle_manager h))
    (identity_token (_random_hash_data h) a n) sol fuel
}.

(** Once the challenge has been asked for, the connection is established. *)
Lemma establish_phase_spec `{!EccLaws} fuel a b data (c0 c h : torque_socket)
    ck ce hk he rdata p x xs ds cxs cds evs hxs hds hcxs hcds hevs sq n hn sol :
  c = sent b (challenge_request n hn) c0 -> hosts c ((p, x) :: xs) ds cxs cds evs -> asks x b n sq data ->
  is_u64 n -> is_u32 sq -> is_bytes (byte_buffer.data data) -> blen (byte_buffer.data data) <= 1024 ->
  hosts h hxs hds hcxs hcds hevs -> ready_to_connect fuel a n c h ck hk ce he rdata hxs hcxs sol ->
  exists c' h' cp hp cc hc hsq,
    let cid := _connection_index x in
    let hid := _next_connection_index h in
    establish_phase fuel a b cid c h = Ok (c', h') /\
    gained c c' xs ds cxs cds cp cc
      (evs ++ [keyed_event torque_connection_challenge_response_event_type cid (public_of hk he) rdata;
        established_event cid]) /\
    gained h h' hxs hds hcxs hcds hp hc
      (hevs ++ [keyed_event torque_connection_requested_event_type hid (public_of ck ce) data; established_event hid]) /\
    mirrored a b cc hc /\
    connected sq hsq (endpoint_of cc c') /\ connected hsq sq (endpoint_of hc h').
Proof.
  intros Ec Hc Hx Hn Hsq Hdata Hlen Hh [Hkc [cck Kc] Hidle [hck Kh] Hsize Hans Hf Hps].
  pose proof Hans as [Hkh _ _ _ _ _ Hs Hd].
  destruct (key_pair_learns _ _ _ _ _ _ Kc Kh Hsize) as (pubc & pubh & secret & Lc & Lh & Hsecret).
  pose proof (public_of_ok _ _ _ Kc) as [Hcb Hcl]. pose proof Kc as (_ & _ & _ & _ & _ & Hpub).
  pose proof (fresh_client_unknown _ _ _ _ _ Hf (hs_sane _ _ _ _ _ _ Hh)) as Hno.
  destruct (fresh_client_accepted h a n hxs hcxs sol _ Hf Hd (ps_solves _ _ _ _ _ _ Hps)) as (m' & Hcheck).
  assert (client_ready c ck (public_of ck ce) ((p, x) :: xs) ds evs) as Hready.
  { destruct Hc. split; try done. apply (ln_key_ok _ _ _ _ Lh). }
  assert (host_ready h a n hk (public_of hk he) rdata hxs hds) as Hhost by (destruct Hh, Hf; by split).
  destruct (answer_phase_spec fuel a b data c0 c h x p ck _ xs ds evs hk _ rdata hxs hds pubh secret sq n hn sol Ec Hready Hx
    Hn Hsq Hdata ltac:(unfold max_datagram_size; lia) Hhost Lc Hps)
    as (c1 & skey & i & msg & resp & E1 & Ho & Hsk & Hskl & Hp1 & Hc1 & Hq1).
  pose proof (connect_request_fits _ _ _ _ _ _ _ _ _ _ _ Ho Hskl ltac:(unfold max_datagram_size; lia)) as Hmsg.
  assert (hosts c1 _ ds cxs cds _) as Hhc by (split; [exact Hp1 | rewrite Hc1; apply Hc .. | exact Hq1]).
  assert (hosts (sent a resp h) hxs hds hcxs hcds hevs) as Hhh by (by destruct Hh).
  destruct Hx as [Hxs Hxa Hxn Hxq Hxd Hx1 Hx2 Hx3].
  destruct (request_phase_spec a b c1 (sent a resp h) p _ xs ds cxs cds _ hxs hds hcxs hcds hevs
    n _ _ sol skey sq data (public_of ck ce) hk pubc secret msg m' Ho Hmsg Hhc
    Hxa eq_refl eq_refl Hxn eq_refl Hhh (fc_pending _ _ _ _ _ Hf) Hno (fc_allow _ _ _ _ _ Hf) Hcheck Hkh Lh Hn
    Hs Hd (ps_range _ _ _ _ _ _ Hps) Hsk Hskl Hsq)
    as (c2 & h2 & cp & hp & hsq & iv & msg' & E2 & Gc & Gh & Hhsq & Hiv).
  { split; [done | lia]. }
  eexists c2, _, cp, hp, _, _, hsq. unfold establish_phase. rewrite E1. cbn [mbind result_bind].
  destruct Gc as [G1 G2 G3 G4 G5]. rewrite Hc1 in G4. rewrite <- app_assoc in G5. destruct Gh as [H1' H2' H3' H4' H5'].
  split; [exact E2|]. split; [|split; [|split_and!]].
  - split; [exact G1 | exact G2 | exact G3 | exact G4 | exact G5].
  - split; [exact H1' | exact H2' | exact H3' | exact H4' | exact H5'].
  - split; try done. by exists (byte_buffer.data secret); destruct secret.
  - by apply established_endpoint.
  - apply established_endpoint; [done|]. apply new_cipher_key_iv_ok. unfold blen, cipher_key_size in Hiv. lia.
Qed.

(** C1. A handshake establishes a connection.  A client calls [connect]; the host at [b], which
    does not know the client and whose client puzzle the solver can solve, answers; the
    datagrams arrive.  Then every step succeeds, and at the end both sockets have exactly one
    connection more and no pending one, and have told their applications: the client that
    the host answered with its key and its challenge data, the host that the client asked
    with its key and its connect data, and both that the connection is established.  The two
    connections mirror each other - addresses, nonces, a 32-byte shared secret, and the
    sequence numbers each starts from, so that they are [connected] endpoints of the
    notify protocol. *)
Theorem handshake_establishes `{!EccLaws} fuel a b data (c h : torque_socket)
    ck ce hk he rdata xs ds cxs cds evs hxs hds hcxs hcds hevs sq n r sol :
  hosts c xs ds cxs cds evs -> connect_draws (_random_generator (_net c)) = Ok ((sq, n), r) ->
  is_bytes data -> blen data <= 1024 ->
  hosts h hxs hds hcxs hcds hevs -> ready_to_connect fuel a n c h ck hk ce he rdata hxs hcxs sol ->
  exists c' h' cp hp cc hc hsq,
    let cid := _next_connection_index c in
    let hid := _next_connection_index h in
    handshake fuel a b data c h = Ok (c', h') /\
    gained c c' xs ds cxs cds cp cc
      (evs ++ [keyed_event torque_connection_challenge_response_event_type cid (public_of hk he) rdata;
        established_event cid]) /\
    gained h h' hxs hds hcxs hcds hp hc
      (hevs ++ [keyed_event torque_connection_requested_event_type hid (public_of ck ce) (byte_buffer.mk data);
        established_event hid]) /\
    mirrored a b cc hc /\
    connected sq hsq (endpoint_of cc c') /\ connected hsq sq (endpoint_of hc h').
Proof.
  intros Hc Hdraws Hdata Hlen Hh Hr.
  destruct (connect_draws_total (_random_generator (_net c))) as (sq' & n' & r' & Hdr & Hsq & Hn).
  rewrite Hdraws in Hdr. injection Hdr as <- <- <-.
  destruct (connect_spec b data c xs ds sq n r (hs_pend _ _ _ _ _ _ Hc) Hdraws Hn) as (l & p & E & Hp).
  unfold handshake. rewrite E. cbn [mbind result_bind].
  match type of E with _ = Ok (_, ?u) =>
    destruct (establish_phase_spec fuel a b (byte_buffer.mk data) _ u h ck ce hk he rdata p
      (requesting b data n sq (_next_connection_index c) (_process_start_time (_net c))) xs ds cxs cds evs hxs hds hcxs hcds hevs sq n _ sol eq_refl) as (c' & h' & cp & hp & cc & hc & hsq & E' & Gc & Hrest) end.
  { destruct Hc. by split. }
  { apply requesting_asks. }
  1-5: done.
  { destruct Hr. by split. }
  exists c', h', cp, hp, cc, hc, hsq. split; [exact E'|]. split; [|exact Hrest]. by destruct Gc.
Qed.
End establish.

(** ** An example: two sockets that have just been made, with small keys and an easy puzzle. *)
Definition example_key (private public : Z) (e : bytes) : @asymmetric_key counter_prng toy_ecc :=
  mk_key (Points_to (private, public)) 16 true (Some (byte_buffer.mk (encoded key_type_public 16 e)))
    (Some (byte_buffer.mk (encoded key_type_private 16 (le_bytes 4 private)))) true.
Definition client_key : @asymmetric_key counter_prng toy_ecc := example_key 51 63919 [175; 249; 0; 0].
Definition host_key : @asymmetric_key counter_prng toy_ecc := example_key 37 30738 [18; 120; 0; 0].
Definition example_socket (seed : Z) (k : asymmetric_key) : @torque_socket counter_prng toy_ecc toy_cipher :=
  mk_socket (mk_net (@mk_random counter_prng seed 0) empty_queue [] 1000 []) pending.empty_list connections.empty_table 1
    (Some (byte_buffer.mk [7; 7])) (Some k) small_manager empty_thread_queue [] 0 (replicate 12 seed)
    true false [] [] 2.
Definition client_address : address := mk_address 0x0A000001 4000.
Definition host_address : address := mk_address 0x0A000002 5000.
Definition example_nonce : Z := 3107506879873739230.

Lemma example_hosts seed k : hosts (example_socket seed k) [] [] [] [] [].
Proof.
  split; [exact empty_list_repr | exact connections.empty_repr | apply connections.empty_indexed | | exact empty_queue_holds].
  split; vm_compute; done.
Qed.

Lemma example_keys :
  key_pair client_key (51, 63919) [175; 249; 0; 0] /\ key_pair host_key (37, 30738) [18; 120; 0; 0].
Proof. split; split_and!; first [reflexivity | split; [done | vm_compute; reflexivity] | split; done]. Qed.

Lemma example_fresh : fresh_client (example_socket 3 host_key) client_address example_nonce [] [].
Proof.
  split; [done | done | apply connections.empty_indexed | | done | done | exact empty_table_ok |].
  - intros p c Hin. by apply not_elem_of_nil in Hin.
  - intros (chain & Hc & Hin). vm_compute in Hc. injection Hc as <-. by apply not_elem_of_nil in Hin.
Qed.

Lemma example_puzzle :
  puzzle_solved example_nonce 6 2 (identity_token (replicate 12 3) client_address example_nonce) 2 3.
Proof.
  split; [split; lia | cbn; lia | | vm_compute; done].
  intros x Hx. assert (x = 0 \/ x = 1) as [->| ->] by lia; vm_compute; done.
Qed.

Lemma example_ready :
  ready_to_connect 3 client_address example_nonce (example_socket 5 client_key) (example_socket 3 host_key)
    client_key host_key [175; 249; 0; 0] [18; 120; 0; 0] (byte_buffer.mk [7; 7]) [] [] 2.
Proof.
  destruct example_keys as [Kc Kh].
  split; [done | by eexists | done | by eexists | vm_compute; reflexivity | | exact example_fresh | exact example_puzzle].
  split; try done; vm_compute; repeat constructor; try done; repeat split; done.
Qed.

Lemma handshake_establishes_witness :
  exists c' h' cp hp cc hc hsq,
    handshake 3 client_address host_address [104; 105] (example_socket 5 client_key)
      (example_socket 3 host_key) = Ok (c', h') /\
    connections.repr (_connections c') [(cp, cc)] [] /\ connections.repr (_connections h') [(hp, hc)] [] /\
    mirrored client_address host_address cc hc /\
    connected 3116683226 hsq (endpoint_of cc c') /\ connected hsq 3116683226 (endpoint_of hc h').
Proof.
  destruct (handshake_establishes 3 client_address host_address [104; 105] (example_socket 5 client_key)
    (example_socket 3 host_key) client_key _ host_key _ (byte_buffer.mk [7; 7]) [] [] [] [] [] [] [] [] [] [] 3116683226 example_nonce
    (@mk_random counter_prng 7 0) 2 (example_hosts 5 _) ltac:(vm_compute; reflexivity)
    ltac:(repeat constructor; lia) ltac:(vm_compute; done) (example_hosts 3 _) example_ready)
    as (c' & h' & cp & hp & cc & hc & hsq & E & Gc & Gh & Hm & Cc & Ch).
  exists c', h', cp, hp, cc, hc, hsq.
  exact (conj E (conj (ga_conns _ _ _ _ _ _ _ _ _ Gc) (conj (ga_conns _ _ _ _ _ _ _ _ _ Gh) (conj Hm (conj Cc Ch))))).
Defined.
