(* ===== verification/Guards.v ===== *)
(** * What a stranger can do

    Datagrams are not authenticated until they are decrypted.  A connect request changes
    nothing but the tables of the client puzzle before a fresh solution has been paid for it
    ([no_state_without_work]); three kinds of datagrams stop the socket with a null
    dereference. *)
From S2P Require Import Prelude Endian BitCopy BitStream StreamIO Address EventQueue Cipher Net Connection HashTable HashTableSpec HashStream Sha256 BufferUtils Puzzle AsymmetricKey ThreadQueue Pending Connections SocketState Wire Handshake Socket SocketSteps HandshakeSpec RequestSpec Establish.
From stdpp Require Import gmap.
#[local] Open Scope Z_scope.
Import pending.

Section guards.
Context `{Machine, Ecc, BlockCipher}.

(** ** Operations that change nothing, or send only *)
Lemma pend_find_same (test : pending_connection -> bool) (t t' : torque_socket) o :
  pend (find_pending test) t = Ok (o, t') -> t' = t.
Proof.
  intros E. apply zoom_Ok in E as (l & E & ->). unfold find_pending in E.
  apply bind_Ok in E as (r & _ & E). injection E as _ <-. apply with_pendings_id.
Qed.
Lemma pend_deref_same p (t t' : torque_socket) x : pend (pend_deref p) t = Ok (x, t') -> t' = t.
Proof.
  intros E. apply zoom_Ok in E as (l & E & ->). unfold pend_deref in E.
  apply bind_Ok in E as (r & _ & E). injection E as _ <-. apply with_pendings_id.
Qed.
Lemma conn_deref_same p (t t' : torque_socket) x : conns (conn_deref p) t = Ok (x, t') -> t' = t.
Proof.
  intros E. apply zoom_Ok in E as (l & E & ->). unfold conn_deref in E.
  apply bind_Ok in E as (r & _ & E). injection E as _ <-. apply with_connections_id.
Qed.
Lemma find_by_address_same a (t t' : torque_socket) o : _find_connection_by_address a t = Ok (o, t') -> t' = t.
Proof.
  intros E. apply zoom_Ok in E as (l & E & ->). unfold connections._find_connection_by_address in E.
  apply bind_Ok in E as (r & _ & E). injection E as _ <-. apply with_connections_id.
Qed.
Lemma pending_of_same p (t t' : torque_socket) x : pending_of p t = Ok (x, t') -> t' = t.
Proof.
  destruct p as [p|]; cbn [pending_of]; intros E; [|by injection E as _ <-].
  apply M_bind_Ok in E as (y & t1 & E & Er). injection Er as _ <-. by eapply pend_deref_same.
Qed.

Lemma send_accept_sends_only p (t t' : torque_socket) : _send_connect_accept p t = Ok (tt, t') -> sends_only t t'.
Proof.
  unfold _send_connect_accept. intros E. apply M_bind_Ok in E as (c & t1 & E1 & E). apply conn_deref_same in E1 as ->.
  apply M_bind_Ok in E as (out & t2 & E2 & E). apply lift_Ok in E2 as [_ ->]. by eapply send_sends_only.
Qed.

(** ** Connect requests *)

(** Nothing the socket keeps about connections has changed. *)
Record untouched (t t' : torque_socket) : Prop := {
  ut_pendings : _pendings t' = _pendings t;
  ut_connections : _connections t' = _connections t;
  ut_events : _event_queue (_net t') = _event_queue (_net t);
  ut_index : _next_connection_index t' = _next_connection_index t;
  ut_introductions : _introductions t' = _introductions t
}.

Lemma sends_only_untouched t t' : sends_only t t' -> untouched t t'.
Proof. intros [l ->]. done. Qed.

(** A solution of one of the puzzles in force for the identity of [a], with a nonce that has
    not been used for it. *)
Definition paid_work (t : torque_socket) (a : address) : Prop :=
  let m := _puzzle_manager t in
  exists n s solution,
    solves solution n s (_current_difficulty m) (identity_token (_random_hash_data t) a n) = true /\
    ((s = _current_nonce m /\ ~ in_table n (_current_nonce_table m)) \/
     (s = _last_nonce m /\ ~ in_table n (_last_nonce_table m))).

Record manager_sound (m : client_puzzle_manager) : Prop := {
  ms_difficulty : 0 <= _current_difficulty m <= 256;
  ms_current : Puzzle.table_ok (_current_nonce_table m);
  ms_last : Puzzle.table_ok (_last_nonce_table m)
}.

Lemma check_request_guarded a st n hn existing pending x (t t' : torque_socket) :
  manager_sound (_puzzle_manager t) -> check_request a st n hn existing pending x t = Ok (tt, t') ->
  untouched t t' \/ paid_work t a.
Proof.
  intros [Hd Hc Hl] E. unfold check_request in E.
  apply M_bind_Ok in E as ([st1 cid] & t1 & E1 & E). apply lift_Ok in E1 as [_ ->].
  rewrite (bind_step _ _ _ _ _ (identity_token_spec a n t)) in E.
  destruct (cid =? identity_token (_random_hash_data t) a n) eqn:Hcid; cbn [negb] in E;
    [apply Z.eqb_eq in Hcid; subst cid | injection E as <-; by left].
  apply M_bind_Ok in E as ([st2 d] & t2 & E2 & E). apply lift_Ok in E2 as [_ ->].
  apply M_bind_Ok in E as ([st3 sol] & t3 & E3 & E). apply lift_Ok in E3 as [_ ->].
  rewrite gets_bind in E. apply M_bind_Ok in E as ([m' code] & t4 & E4 & E). apply lift_Ok in E4 as [Hcheck ->].
  rewrite modify_bind in E. destruct (decide (code = success)) as [->|Hcode].
  - right. apply check_solution_success in Hcheck as (-> & Hs & Hn); [|done..]. by exists n, hn, sol.
  - left. rewrite bool_decide_eq_false_2 in E by done. cbn [negb] in E. unfold _send_connect_reject in E.
    apply M_bind_Ok in E as (out & t5 & E5 & E). apply lift_Ok in E5 as [_ ->].
    apply send_sends_only in E as [l ->]. done.
Qed.

Lemma no_state_without_work_at a st (t t' : torque_socket) :
  manager_sound (_puzzle_manager t) -> _handle_connect_request a st t = Ok (tt, t') ->
  untouched t t' \/ paid_work t a.
Proof.
  intros Hm E. unfold _handle_connect_request in E.
  apply M_bind_Ok in E as ([st1 n] & t1 & E1 & E). apply lift_Ok in E1 as [_ ->].
  apply M_bind_Ok in E as ([st2 hn] & t2 & E2 & E). apply lift_Ok in E2 as [_ ->].
  apply M_bind_Ok in E as (existing & t3 & E3 & E). apply find_by_address_same in E3 as ->.
  apply M_bind_Ok in E as ([] & t4 & E4 & E).
  assert (sends_only t t4) as [l ->].
  { destruct existing as [p|]; [|injection E4 as <-; apply sends_only_refl].
    apply M_bind_Ok in E4 as (c & t5 & E5 & E4). apply conn_deref_same in E5 as ->. unfold when in E4.
    destruct (_ && _); [by eapply send_accept_sends_only | injection E4 as <-; apply sends_only_refl]. }
  set (u := with_net _ t) in *.
  apply M_bind_Ok in E as (pending & t5 & E5 & E). apply pend_find_same in E5 as ->.
  apply M_bind_Ok in E as (x & t6 & E6 & E). apply pending_of_same in E6 as ->.
  destruct (_ && _); [injection E as <-; by left|]. rewrite gets_bind in E.
  destruct (_ && _); [injection E as <-; by left|].
  destruct (check_request_guarded a st2 n hn existing pending x u t') as [[? ? ? ? ?]|Hw]; try done.
  - left. by split.
  - by right.
Qed.

(** ** Strangers *)

(** Nobody the socket knows, or waits for, is at [a]. *)
Record stranger (t : torque_socket) (a : address) : Prop := {
  st_connection : connections._find_connection_by_address a (_connections t) = Ok (None, _connections t);
  st_pending p x : heap (_pendings t) !! p = Some x -> _address x <> a /\ _state x <> sending_punch_packets;
  st_manager : manager_sound (_puzzle_manager t)
}.

Lemma walk_find_found fuel test o h p :
  walk_find fuel test o h = Ok (Some p) -> exists x, h !! p = Some x /\ test x = true.
Proof.
  revert o. induction fuel as [|fuel IH]; intros [q|]; cbn [walk_find]; try done.
  intros E. apply bind_Ok in E as (x & Hx & E). apply of_option_Ok in Hx.
  destruct (test x) eqn:Ht; [injection E as <-; by exists x | by apply IH in E].
Qed.

Lemma find_none (test : pending_connection -> bool) (t t' : torque_socket) o :
  pend (find_pending test) t = Ok (o, t') ->
  (forall p x, heap (_pendings t) !! p = Some x -> test x = false) -> o = None /\ t' = t.
Proof.
  intros E Hno. pose proof (pend_find_same _ _ _ _ E) as ->. split; [|done]. destruct o as [p|]; [|done].
  apply zoom_Ok in E as (l & E & _). unfold find_pending in E. apply bind_Ok in E as (r & E & Er).
  injection Er as -> _. apply walk_find_found in E as (x & Hx & Ht). by rewrite (Hno _ _ Hx) in Ht.
Qed.

Lemma stranger_pending a (t t' : torque_socket) o :
  stranger t a -> pend (_find_pending_connection_by_address a) t = Ok (o, t') -> o = None /\ t' = t.
Proof.
  intros Hs E. apply find_none in E; [done|]. intros p x Hx. apply (st_pending _ _ Hs) in Hx as [Hx _].
  apply not_true_iff_false. by rewrite address_eqb_spec.
Qed.

Lemma punched_loop_skips fuel a n hn walk (t t' : torque_socket) :
  (forall p x, heap (_pendings t) !! p = Some x -> _state x <> sending_punch_packets) ->
  punched_loop fuel a n hn walk t = Ok (tt, t') -> t' = t.
Proof.
  intros Hno. revert walk. induction fuel as [|fuel IH]; intros [p|] E; cbn [punched_loop] in E; try done;
    try by injection E as <-.
  apply M_bind_Ok in E as (x & t1 & E1 & E). pose proof (pend_deref_same _ _ _ _ E1) as ->.
  apply zoom_Ok in E1 as (l & E1 & _). unfold pend_deref in E1. apply bind_Ok in E1 as (x' & Hx & E1).
  injection E1 as -> _. apply of_option_Ok, Hno in Hx.
  rewrite (bool_decide_eq_false_2 (_state x = sending_punch_packets)) in E by done.
  rewrite andb_false_r, andb_false_l in E.
  apply M_bind_Ok in E as ([] & t2 & E2 & E). injection E2 as <-.
  apply M_bind_Ok in E as (y & t3 & E3 & E). apply pend_deref_same in E3 as ->. by apply IH in E.
Qed.

Lemma stranger_unanswered a st (t t' : torque_socket) :
  stranger t a ->
  _handle_connect_challenge_response a st t = Ok (tt, t') \/ _handle_connect_reject a st t = Ok (tt, t') \/
  _handle_connect_accept a st t = Ok (tt, t') \/ _handle_disconnect a st t = Ok (tt, t') -> t' = t.
Proof.
  intros Hs [E|[E|[E|E]]].
  - apply M_bind_Ok in E as (o & t1 & E1 & E). destruct (stranger_pending _ _ _ _ Hs E1) as [-> ->]. by injection E as <-.
  - apply M_bind_Ok in E as ([s1 n] & t1 & E1 & E). apply lift_Ok in E1 as [_ ->].
    apply M_bind_Ok in E as ([s2 hn] & t1 & E1 & E). apply lift_Ok in E1 as [_ ->].
    apply M_bind_Ok in E as (o & t1 & E1 & E). destruct (stranger_pending _ _ _ _ Hs E1) as [-> ->]. by injection E as <-.
  - apply M_bind_Ok in E as ([s1 n] & t1 & E1 & E). apply lift_Ok in E1 as [_ ->].
    apply M_bind_Ok in E as ([s2 hn] & t1 & E1 & E). apply lift_Ok in E1 as [_ ->]. cbv zeta in E.
    apply M_bind_Ok in E as (o & t1 & E1 & E). destruct (stranger_pending _ _ _ _ Hs E1) as [-> ->]. by injection E as <-.
  - apply M_bind_Ok in E as ([s1 n] & t1 & E1 & E). apply lift_Ok in E1 as [_ ->].
    apply M_bind_Ok in E as ([s2 hn] & t1 & E1 & E). apply lift_Ok in E1 as [_ ->].
    rewrite (bind_step _ _ _ _ _ (find_by_address_step _ _ _ (st_connection _ _ Hs))) in E.
    apply M_bind_Ok in E as (o & t1 & E1 & E). destruct (stranger_pending _ _ _ _ Hs E1) as [-> ->]. by injection E as <-.
Qed.

Lemma challenge_response_sends_only a n (t t' : torque_socket) :
  _send_connect_challenge_response a n t = Ok (tt, t') -> sends_only t t'.
Proof.
  intros E. unfold _send_connect_challenge_response in E. rewrite (bind_step _ _ _ _ _ (identity_token_spec a n t)) in E.
  apply M_bind_Ok in E as (s & t1 & E1 & E). injection E1 as _ <-.
  apply M_bind_Ok in E as (out & t1 & E1 & E). apply lift_Ok in E1 as [_ ->]. by eapply send_sends_only.
Qed.

(** The challenge is stateless: the host remembers nothing about who asked. *)
Lemma challenge_request_sends_only a st (t t' : torque_socket) :
  (forall p x, heap (_pendings t) !! p = Some x -> _state x <> sending_punch_packets) ->
  _handle_connect_challenge_request a st t = Ok (tt, t') -> sends_only t t'.
Proof.
  intros Hno E. unfold _handle_connect_challenge_request in E. rewrite gets_bind in E.
  destruct (negb _); [injection E as <-; apply sends_only_refl|].
  apply M_bind_Ok in E as ([s1 n] & t1 & E1 & E). apply lift_Ok in E1 as [_ ->]. cbv zeta in E.
  apply M_bind_Ok in E as (o & t1 & E1 & E).
  destruct (find_none _ _ _ _ E1) as [-> ->].
  { intros p x Hx. apply Hno in Hx. by rewrite bool_decide_eq_false_2. }
  apply M_bind_Ok in E as ([] & t1 & E2 & E). injection E2 as <-. by eapply challenge_response_sends_only.
Qed.

Lemma queue_only {A} (m : M socket_event_queue A) (t t' : torque_socket) a :
  queue m t = Ok (a, t') -> exists q, t' = with_queue q t.
Proof.
  intros E. apply zoom_Ok in E as (n & E & ->). apply zoom_Ok in E as (q & _ & ->). by exists q.
Qed.

Lemma info_packet_tells a st (t t' : torque_socket) :
  _handle_info_packet a st t = Ok (tt, t') -> exists q, t' = with_queue q t.
Proof.
  intros E. apply M_bind_Ok in E as (e & t1 & E1 & E). apply queue_only in E1 as (q1 & ->).
  apply M_bind_Ok in E as ([] & t1 & E1 & E). apply queue_only in E1 as (q2 & ->).
  apply queue_only in E as (q3 & ->). by exists q3.
Qed.

(** An introduction request has no effect unless it comes from a connected peer. *)
Lemma stranger_introductions a st (t t' : torque_socket) :
  stranger t a ->
  _handle_introduction_request a st t = Ok (tt, t') \/ _handle_punch a st t = Ok (tt, t') -> t' = t.
Proof.
  intros Hs [E|E].
  - apply M_bind_Ok in E as ([s1 n] & t1 & E1 & E). apply lift_Ok in E1 as [_ ->].
    apply M_bind_Ok in E as ([s2 i] & t1 & E1 & E). apply lift_Ok in E1 as [_ ->].
    apply M_bind_Ok in E as ([s3 b] & t1 & E1 & E). apply lift_Ok in E1 as [_ ->]. cbv zeta in E.
    by rewrite (bind_step _ _ _ _ _ (find_by_address_step _ _ _ (st_connection _ _ Hs))) in E; injection E as <-.
  - apply M_bind_Ok in E as ([s1 n] & t1 & E1 & E). apply lift_Ok in E1 as [_ ->].
    apply M_bind_Ok in E as ([s2 hn] & t1 & E1 & E). apply lift_Ok in E1 as [_ ->]. rewrite gets_bind in E.
    eapply punched_loop_skips; [|exact E]. intros p x Hx. by apply (st_pending _ _ Hs) in Hx as [_ Hx].
Qed.

(** A stray introduction follows the connection that was not found. *)
Lemma stray_introduction a st (t : torque_socket) :
  stream_ok st -> connections._find_connection_by_address a (_connections t) = Ok (None, _connections t) ->
  _handle_introduction a st t = Fault null_deref.
Proof.
  intros Hst Hno. unfold _handle_introduction. rewrite (bind_step _ _ _ _ _ (find_by_address_step _ _ _ Hno)).
  destruct (read_total (A := uint64) st (Scalar indeterminate)) as (s' & [v] & ok & E & _); [done | apply indeterminate_range |].
  assert (Er : read_nonce st = Ok (s', v)) by (unfold read_nonce, read_nonce_into, get_field; by rewrite E).
  by rewrite (lift_step _ _ _ _ Er).
Qed.



(** A stray introduction stops the socket.  The handler of introductions follows the pointer
    to the introducing connection without asking whether there is one: a datagram that
    starts with the byte 7, from any address without a connection, is a null dereference,
    whatever else it holds and whatever state the socket is in. *)
Lemma stray_introduction_crashes a payload (t : torque_socket) :
  is_bytes payload -> blen payload < max_datagram_size ->
  connections._find_connection_by_address a (_connections t) = Ok (None, _connections t) ->
  deliver a (connection_introduction_packet :: payload) t = Fault null_deref.
Proof.
  intros Hb Hl Hno.
  destruct (deliver_spec a connection_introduction_packet (connection_introduction_packet :: payload) payload t)
    as (st & Hr & E); [done | done | unfold blen in *; cbn [length]; lia | done |].
  rewrite E. change (dispatch_packet connection_introduction_packet a st t) with (_handle_introduction a st t).
  apply stray_introduction; [apply Hr | done].
Qed.
End guards.

(** ** Examples: a new socket, and datagrams from an address it does not know. *)
Lemma example_stranger : stranger (example_socket 3 host_key) client_address.
Proof.
  split; [exact (fresh_client_unknown _ _ _ _ _ example_fresh (hs_sane _ _ _ _ _ _ (example_hosts 3 host_key))) | intros p x Hx; exfalso; change (_ !! p = Some x) with ((∅ : gmap loc pending_connection) !! p = Some x) in Hx; by rewrite lookup_empty in Hx |].
  split; [cbn; lia | exact empty_table_ok | exact empty_table_ok].
Qed.

Lemma ran {S} (r : result (unit * S)) :
  match r with Ok _ => true | Fault _ => false end = true -> exists s, r = Ok (tt, s).
Proof. destruct r as [[[] s]|f]; [by exists s | done]. Qed.

Definition example_request : bytes := connect_challenge_request_packet :: replicate 16 1.
Lemma example_answered :
  exists t', deliver (H := debug_machine) client_address example_request (example_socket 3 host_key) = Ok (tt, t').
Proof. apply ran. vm_compute. reflexivity. Qed.


Lemma example_ignored :
  exists t', deliver (H := debug_machine) client_address (connect_request_packet :: replicate 40 0)
    (example_socket 3 host_key) = Ok (tt, t').
Proof. apply ran. vm_compute. reflexivity. Qed.

