(* ===== verification/Timeouts.v ===== *)
(** * Requests that nobody answers

    [pending_timeouts], the loop of [process_connections] over the pending connections,
    computes a function of the list of records ([sweep], [expired]): a record whose interval
    has passed is sent again while it has retries left, and dropped and reported when it has
    none.  So a request that nobody answers comes to an end
    ([unanswered_request_ends]). *)
From S2P Require Import Prelude Endian BitCopy BitStream StreamIO Address EventQueue Cipher Net Connection Header Exchange Window HashTable HashTableSpec HashStream Sha256 BufferUtils Puzzle AsymmetricKey ThreadQueue Pending Connections SocketState Wire Handshake Socket SocketSteps HandshakeSpec RequestSpec Establish.
From stdpp Require Import gmap.
#[local] Open Scope Z_scope.
Import pending.

Section timeouts.
Context `{Machine, Ecc, BlockCipher}.

Notation entries := (list (loc * pending_connection)).

(** ** Sending again *)

(** The fields a request is made of are in their ranges. *)
Record typed (x : pending_connection) : Prop := {
  ty_initiator_nonce : is_u64 (_initiator_nonce x);
  ty_host_nonce : is_u64 (_host_nonce x);
  ty_remote : is_u32 (_remote_client_id x)
}.

(** The connections of the socket, through which introductions are asked for. *)
Record introducers_ok (t : torque_socket) : Prop := {
  io_sane : connections.sane (_connections t);
  io_listed : exists cs ds, connections.repr (_connections t) cs ds /\ connections.indexed (_connections t) cs /\
    forall p c, (p, c) ∈ cs -> is_u64 (Connection._initiator_nonce c)
}.

Lemma punch_loop_sends x addresses (t : torque_socket) :
  typed x -> exists t', punch_loop x addresses t = Ok (tt, t') /\ sends_only t t'.
Proof.
  intros [Hn Hh _]. revert t. induction addresses as [|a l IH]; intros t; cbn [punch_loop].
  - exists t. split; [done | apply sends_only_refl].
  - pose proof holds_new as Hs. unfold packet, write_uint8, write_nonce.
    put_step Hs. put_step Hs. put_step Hs. rewrite (lift_step _ _ _ _ eq_refl).
    rewrite (bind_step _ _ _ _ _ (send_holds _ _ _ _ Hs)).
    match goal with |- context [punch_loop x l ?u] => destruct (IH u) as (t' & E & Ht) end.
    exists t'. split; [exact E|]. eapply sends_only_trans; [apply sends_only_sent | exact Ht].
Qed.

Lemma introduction_request_sends (t : torque_socket) xs1 p x xs2 ds :
  repr (_pendings t) (xs1 ++ (p, x) :: xs2) ds -> typed x -> introducers_ok t ->
  exists t', _send_introduction_request p t = Ok (tt, t') /\ sends_only t t'.
Proof.
  intros Hr Hx [Hs (cs & cds & Hc & Hi & Hcn)]. destruct (pend_deref_spec _ _ _ _ _ _ Hr) as (y & E & Hy).
  unfold _send_introduction_request. rewrite (bind_step _ _ _ _ _ E).
  destruct (connections.find_connection_spec (_introducer y) _ Hs) as (o & Eo & Ho). specialize (Ho _ Hi).
  assert (Ef : _find_connection (_introducer y) t = Ok (o, t)).
  { unfold _find_connection, conns, zoom. by rewrite Eo, with_connections_id. }
  rewrite (bind_step _ _ _ _ _ Ef). destruct o as [q|]; [|exists t; split; [done | apply sends_only_refl]].
  destruct Ho as (c & Hin & _). pose proof (Hcn _ _ Hin) as Hn. apply list_elem_of_split in Hin as (cs1 & cs2 & ->).
  destruct (conn_deref_spec t _ _ _ _ _ Hc) as (d & Ed & ->). rewrite (bind_step _ _ _ _ _ Ed).
  assert (Hrem : is_u32 (_remote_client_id y)) by (subst x; apply Hx).
  pose proof holds_new as Hh. unfold packet, write_uint8, write_nonce, write_uint32.
  assert (is_u8 (if decide (_type y = introduced_connection_initiator) then 1 else 0)) by (case_decide; split; cbn; lia).
  put_step Hh. put_step Hh. put_step Hh. put_step Hh. rewrite (lift_step _ _ _ _ eq_refl), (send_holds _ _ _ _ Hh).
  eexists. split; [done | apply sends_only_sent].
Qed.

Lemma resend_sends (t : torque_socket) xs1 p x xs2 ds y :
  repr (_pendings t) (xs1 ++ (p, x) :: xs2) ds -> typed x -> introducers_ok t ->
  exists t', resend y p t = Ok (tt, t') /\ sends_only t t'.
Proof.
  intros Hr Hx Hi. unfold resend.
  destruct (_state y); try (exists t; split; [done | apply sends_only_refl]).
  - by eapply introduction_request_sends.
  - destruct (pend_deref_spec _ _ _ _ _ _ Hr) as (z & E & ->). unfold _send_punch. rewrite (bind_step _ _ _ _ _ E).
    apply punch_loop_sends. destruct Hx. by split.
  - destruct Hx as [Hn Hh _]. rewrite (send_challenge_request_spec _ _ _ _ _ _ Hr Hn Hh).
    eexists. split; [done | apply sends_only_sent].
Qed.

(** ** The sweep over the list *)

(** What happens to a record: it stays as it is, it is sent again, or it is dropped. *)
Inductive verdict : Type := keep | retry | expire.
Definition judge_pending (now : time) (x : pending_connection) : verdict :=
  if timed_out x now then if _state_send_retry_count (_retry x) =? 0 then expire else retry else keep.

Fixpoint sweep (now : time) (xs : entries) : entries :=
  match xs with
  | [] => []
  | (p, x) :: xs =>
      match judge_pending now x with
      | keep => (p, x) :: sweep now xs
      | retry => (p, count_retry x) :: sweep now xs
      | expire => sweep now xs
      end
  end.

(** The application is told of the dropped ones, in the order of the list. *)
Definition timed_out_event (x : pending_connection) : torque_socket_event :=
  fresh_event (event_code torque_connection_timed_out_event_type) (_connection_index x).
Fixpoint expired (now : time) (xs : entries) : list torque_socket_event :=
  match xs with
  | [] => []
  | (_, x) :: xs =>
      match judge_pending now x with
      | expire => timed_out_event x :: expired now xs
      | _ => expired now xs
      end
  end.

(** The pending connections of a socket and the events its application has not taken. *)
Record waits (t : torque_socket) (xs ds : entries) (evs : list torque_socket_event) : Prop := {
  wt_repr : repr (_pendings t) xs ds;
  wt_typed : Forall (fun e => typed e.2) xs;
  wt_queue : queue_holds (_event_queue (_net t)) evs;
  wt_introducers : introducers_ok t
}.

(** Apart from those, a sweep only sends. *)
Record swept (t t' : torque_socket) : Prop := {
  sw_connections : _connections t' = _connections t;
  sw_time : _process_start_time (_net t') = _process_start_time (_net t);
  sw_check : _last_timeout_check_time t' = _last_timeout_check_time t
}.

Lemma swept_trans t1 t2 t3 : swept t1 t2 -> swept t2 t3 -> swept t1 t3.
Proof. intros [? ? ?] [? ? ?]. split; congruence. Qed.

Lemma sends_only_swept t t' : sends_only t t' -> swept t t'.
Proof. by intros [l ->]. Qed.

Lemma sends_only_waits t t' xs ds evs : sends_only t t' -> waits t xs ds evs -> waits t' xs ds evs.
Proof. intros [l ->] [Hr Ht Hq [Hs Hi]]. split; [done..|]. by split. Qed.

Lemma judge_unlinked now y : judge_pending now (unlinked y) = judge_pending now y.
Proof. done. Qed.

Lemma head_link (xs : entries) p x xs2 :
  last_link None (xs ++ [(p, x)]) = Some p /\ (xs ++ [(p, x)]) ++ xs2 = xs ++ (p, x) :: xs2.
Proof. split; [unfold last_link; by rewrite last_snoc | by rewrite <- app_assoc]. Qed.

Definition keeps_going (fuel : nat) : Prop := forall (t : torque_socket) xs1 xs2 ds evs,
  waits t (xs1 ++ xs2) ds evs -> (length xs2 <= fuel)%nat ->
  exists t', pending_timeouts fuel (last_link None xs1) t = Ok (tt, t') /\
    waits t' (xs1 ++ sweep (_process_start_time (_net t)) xs2) ds (evs ++ expired (_process_start_time (_net t)) xs2) /\
    swept t t'.

(** The walk goes on after a record that stays. *)
Lemma goes_on fuel (t u : torque_socket) xs1 p x xs2 ds evs :
  keeps_going fuel -> (length xs2 <= fuel)%nat -> swept t u -> waits u (xs1 ++ (p, x) :: xs2) ds evs ->
  let now := _process_start_time (_net t) in
  exists t', pending_timeouts fuel (Some p) u = Ok (tt, t') /\
    waits t' (xs1 ++ (p, x) :: sweep now xs2) ds (evs ++ expired now xs2) /\ swept t t'.
Proof.
  intros IH Hf Hsw Hw now. destruct (head_link xs1 p x xs2) as [Hl Ha]. rewrite <- Ha in Hw.
  destruct (IH u _ _ _ _ Hw Hf) as (t' & E & Hw' & Hs'). rewrite Hl in E. rewrite (sw_time _ _ Hsw) in Hw'.
  exists t'. split; [exact E|]. split; [|by eapply swept_trans].
  by rewrite (proj2 (head_link xs1 p x _)) in Hw'.
Qed.

(** A record that is out of retries is cut out of the list. *)
Lemma waits_cut (t : torque_socket) xs1 p y xs2 ds evs :
  waits t (xs1 ++ (p, unlinked y) :: xs2) ds evs -> heap (_pendings t) !! p = Some y ->
  exists u, (_ ← queue (post_event torque_connection_timed_out_event_type (_connection_index y));
             _ ← pend (write_link (last_link None xs1) (_next y));
             pend (delete_pending p)) t = Ok (tt, u) /\
    waits u (xs1 ++ xs2) ds (evs ++ [timed_out_event y]) /\ swept t u.
Proof.
  intros [Hr Ht Hq [Hs Hi]] Hy. destruct (cut_spec _ _ _ _ _ _ Hr Hy) as (l & E & Hl).
  apply M_bind_Ok in E as ([] & l1 & E1 & E2).
  destruct (queue_post torque_connection_timed_out_event_type (_connection_index y) t evs Hq) as (e & q & Eq & Hq').
  rewrite (bind_step _ _ _ _ _ Eq). set (u := with_queue q t).
  assert (F1 : pend (write_link (last_link None xs1) (_next y)) u = Ok (tt, with_pendings l1 u)).
  { unfold pend, zoom. change (_pendings u) with (_pendings t). by rewrite E1. }
  assert (F2 : pend (delete_pending p) (with_pendings l1 u) = Ok (tt, with_pendings l (with_pendings l1 u))).
  { unfold pend, zoom. change (_pendings (with_pendings l1 u)) with l1. by rewrite E2. }
  rewrite (bind_step _ _ _ _ _ F1), F2. eexists. split; [done|]. split; [|done]. split; cbn.
  - exact Hl.
  - apply Forall_app in Ht as [Ht1 Ht2]. apply Forall_cons in Ht2 as [_ Ht2]. by apply Forall_app.
  - exact (posted_holds _ _ _ _ Hq').
  - by split.
Qed.

Lemma waits_typed (t : torque_socket) xs1 p x xs2 ds evs : waits t (xs1 ++ (p, x) :: xs2) ds evs -> typed x.
Proof. intros Hw. apply wt_typed in Hw. by apply Forall_app in Hw as [_ [Hx _]%Forall_cons]. Qed.

(** A record with retries left is counted down and sent again. *)
Lemma waits_retry (t : torque_socket) xs1 p y xs2 ds evs :
  waits t (xs1 ++ (p, unlinked y) :: xs2) ds evs ->
  exists u, (_ ← pend (pend_assign p count_retry); resend y p) t = Ok (tt, u) /\
    waits u (xs1 ++ (p, count_retry (unlinked y)) :: xs2) ds evs /\ swept t u.
Proof.
  intros Hw. pose proof (waits_typed _ _ _ _ _ _ _ Hw) as Hx. destruct Hw as [Hr Ht Hq [Hs Hi]].
  assert (Hx' : typed (count_retry (unlinked y))) by by destruct Hx.
  assert (Hb : blind count_retry) by (split; intros; reflexivity).
  destruct (pend_assign_spec count_retry t _ p _ _ _ Hb Hr) as (l & E & Hl). rewrite (bind_step _ _ _ _ _ E).
  destruct (resend_sends (with_pendings l t) _ _ _ _ _ y Hl Hx') as (u & Eu & Hu); [by split|].
  exists u. split; [exact Eu|]. split.
  - apply (sends_only_waits _ _ _ _ _ Hu). split; [exact Hl | | done | by split].
    apply Forall_app in Ht as [Ht1 [_ Ht2]%Forall_cons]. apply Forall_app. split; [done|]. by constructor.
  - apply (swept_trans t (with_pendings l t)); [done | by apply sends_only_swept].
Qed.

Lemma pending_timeouts_spec fuel : keeps_going fuel.
Proof.
  induction fuel as [|fuel IH]; intros t xs1 xs2 ds evs Hw Hf;
    pose proof (read_link_spec _ _ _ _ (wt_repr _ _ _ _ Hw)) as El;
    assert (Er : pend (read_link (last_link None xs1)) t = Ok (fst <$> head xs2, t))
      by (unfold pend, zoom; by rewrite El, with_pendings_id);
    destruct xs2 as [|[p x] xs2]; cbn [length] in Hf; try lia;
    cbn [pending_timeouts]; rewrite (bind_step _ _ _ _ _ Er); cbn [head fmap option_fmap option_map fst].
  1-2: exists t; split; [done|]; cbn [sweep expired]; rewrite (app_nil_r evs); split; [done|];
    apply sends_only_swept, sends_only_refl.
  destruct (repr_linked _ _ _ _ _ _ (wt_repr _ _ _ _ Hw)) as (y & Hy & ->).
  assert (Ed : pend (pend_deref p) t = Ok (y, t)).
  { unfold pend, zoom, pend_deref. rewrite Hy. cbn. by rewrite with_pendings_id. }
  rewrite (bind_step _ _ _ _ _ Ed), (bind_step _ _ _ _ _ (process_start_time_spec t)).
  cbn [sweep expired]. rewrite judge_unlinked. unfold judge_pending. destruct (timed_out y _).
  2: { apply (goes_on fuel t t); [done | lia | apply sends_only_swept, sends_only_refl | done]. }
  destruct (_state_send_retry_count _ =? 0).
  - destruct (waits_cut _ _ _ _ _ _ _ Hw Hy) as (u & E & Hu & Hsw).
    apply M_bind_Ok in E as (e & t1 & E1 & E). rewrite (bind_step _ _ _ _ _ E1).
    apply M_bind_Ok in E as ([] & t2 & E2 & E). rewrite (bind_step _ _ _ _ _ E2), (bind_step _ _ _ _ _ E).
    destruct (IH u _ _ _ _ Hu ltac:(lia)) as (t' & E' & Hw' & Hs'). rewrite (sw_time _ _ Hsw), <- app_assoc in Hw'.
    exists t'. split; [exact E'|]. split; [exact Hw' | by eapply swept_trans].
  - destruct (waits_retry _ _ _ _ _ _ _ Hw) as (u & E & Hu & Hsw).
    apply M_bind_Ok in E as ([] & t1 & E1 & E). rewrite (bind_step _ _ _ _ _ E1), (bind_step _ _ _ _ _ E).
    apply (goes_on fuel t u); [done | lia | done | done].
Qed.

(** ** The established connections *)
Notation conn_entries := (list (loc * torque_connection)).

Definition lost_event (c : torque_connection) : torque_socket_event :=
  fresh_event (event_code torque_connection_timed_out_event_type) (Connection._connection_index c).

(** A connection that left all its pings unanswered is dropped and reported; the others stay. *)
Inductive watch (now : time) : conn_entries -> conn_entries -> list torque_socket_event -> Prop :=
  | watch_nil : watch now [] [] []
  | watch_drop p c cs cs' evs :
      judge_connection now c = dead -> watch now cs cs' evs -> watch now ((p, c) :: cs) cs' (lost_event c :: evs)
  | watch_stay p c c' cs cs' evs :
      judge_connection now c <> dead -> watched now c c' -> watch now cs cs' evs ->
      watch now ((p, c) :: cs) ((p, c') :: cs') evs.

(** The connections of a socket: in good order, with the tables at least walkable. *)
Record watching (t : torque_socket) (cs ds : conn_entries) (evs : list torque_socket_event) : Prop := {
  wg_repr : connections.repr (_connections t) cs ds;
  wg_ok : Forall (fun e => conn_ok e.2) cs;
  wg_sane : connections.sane (_connections t);
  wg_queue : queue_holds (_event_queue (_net t)) evs
}.

(** What the loop leaves alone. *)
Record elsewhere (t t' : torque_socket) : Prop := {
  el_pendings : _pendings t' = _pendings t;
  el_time : _process_start_time (_net t') = _process_start_time (_net t);
  el_check : _last_timeout_check_time t' = _last_timeout_check_time t
}.

Lemma elsewhere_trans t1 t2 t3 : elsewhere t1 t2 -> elsewhere t2 t3 -> elsewhere t1 t3.
Proof. intros [? ? ?] [? ? ?]. split; congruence. Qed.

Lemma watching_sent (t : torque_socket) cs ds evs l :
  watching t cs ds evs -> watching (with_net (with_sent l (_net t)) t) cs ds evs.
Proof. by intros [? ? ? ?]. Qed.

(** One connection is looked at. *)
Lemma on_connection_check (t : torque_socket) cs1 p d cs2 ds evs :
  let now := _process_start_time (_net t) in
  watching t (cs1 ++ (p, connections.unlinked d) :: cs2) ds evs -> connections.heap (_connections t) !! p = Some d ->
  exists c' u, on_connection p (fun c => check_timeout c now) t =
      Ok (if judge_connection now d is dead then true else false, u) /\
    watched now d c' /\ watching u (cs1 ++ (p, connections.unlinked c') :: cs2) ds evs /\ elsewhere t u /\
    connections.heap (_connections u) !! p = Some c'.
Proof.
  intros now [Hr Hok Hs Hq] Hd. apply Forall_app in Hok as [Hok1 [Hokd Hok2]%Forall_cons]. cbn in Hokd.
  assert (Hcd : conn_ok d) by by destruct d.
  destruct (check_timeout_spec d now (_net t) Hcd) as (c' & out & E & Hw & _).
  destruct (on_connection_spec (fun c => check_timeout c now) t _ _ _ _ _ _ _ _ Hr Hd E (sp_links _ _ (wc_peer _ _ _ Hw)))
    as (ct & Eo & Hr' & Ht & Hl).
  exists c', (with_connections ct (with_net (with_sent (udp_sent (_net t) ++ out) (_net t)) t)).
  split; [exact Eo|]. split; [exact Hw|]. split; [|by split].
  split; cbn; [exact Hr' | | exact (same_tables_sane _ _ Ht Hs) | exact Hq].
  apply Forall_app. split; [done|]. constructor; [|done]. cbn. by destruct Hw as [Hc' _ _ _], c'.
Qed.

Lemma watched_unlinked now d c : watched now d c -> watched now (connections.unlinked d) (connections.unlinked c).
Proof. intros [Hok [Ha Hi _ Hn Hse] Hpi Hw]. by split. Qed.

(** One that is given up is reported and deleted. *)
Lemma drop_connection (t : torque_socket) cs1 p c cs2 ds evs :
  watching t (cs1 ++ (p, connections.unlinked c) :: cs2) ds evs -> connections.heap (_connections t) !! p = Some c ->
  exists u, (c ← conns (conn_deref p);
             _ ← queue (post_event torque_connection_timed_out_event_type (Connection._connection_index c));
             conns (connections._remove_connection p)) t = Ok (tt, u) /\
    watching u (cs1 ++ cs2) ds (evs ++ [lost_event c]) /\ elsewhere t u.
Proof.
  intros [Hr Hok Hs Hq] Hc.
  assert (Ed : conns (conn_deref p) t = Ok (c, t)).
  { unfold conns, zoom, conn_deref. rewrite Hc. cbn. by rewrite with_connections_id. }
  rewrite (bind_step _ _ _ _ _ Ed).
  destruct (queue_post torque_connection_timed_out_event_type (Connection._connection_index c) t evs Hq)
    as (e & q & Eq & Hq'). rewrite (bind_step _ _ _ _ _ Eq).
  destruct (conns_remove_spec (with_queue q t) cs1 p _ cs2 ds Hr Hs) as (ct & Er & Hr' & Hs').
  rewrite Er. eexists. split; [done|]. split; [|done]. split; [exact Hr' | | exact Hs' | exact (posted_holds _ _ _ _ Hq')].
  apply Forall_app in Hok as [Hok1 [_ Hok2]%Forall_cons]. by apply Forall_app.
Qed.

Lemma connection_timeouts_spec fuel (t : torque_socket) cs1 cs2 ds evs :
  watching t (cs1 ++ cs2) ds evs -> (length cs2 <= fuel)%nat ->
  exists t' cs2' evs', connection_timeouts fuel (fst <$> head cs2) t = Ok (tt, t') /\
    watch (_process_start_time (_net t)) cs2 cs2' evs' /\ watching t' (cs1 ++ cs2') ds (evs ++ evs') /\ elsewhere t t'.
Proof.
  revert t cs1 cs2 evs. induction fuel as [|fuel IH]; intros t cs1 [|[p x] cs2] evs Hw Hf; cbn [length] in Hf; try lia.
  1-2: exists t, [], []; rewrite (app_nil_r evs); split; [done|]; split; [constructor|]; done.
  destruct (connections.conn_repr_linked _ _ _ _ _ _ (wg_repr _ _ _ _ Hw)) as (d & Hd & ->).
  pose proof (connections.conn_next_head _ _ _ _ _ _ _ (wg_repr _ _ _ _ Hw) Hd) as Hnext.
  assert (Ed : conns (conn_deref p) t = Ok (d, t)).
  { unfold conns, zoom, conn_deref. rewrite Hd. cbn. by rewrite with_connections_id. }
  cbn [connection_timeouts head fmap option_fmap option_map fst]. rewrite (bind_step _ _ _ _ _ Ed).
  rewrite (bind_step _ _ _ _ _ (process_start_time_spec t)).
  set (now := _process_start_time (_net t)) in *.
  destruct (on_connection_check t cs1 p d cs2 ds evs Hw Hd) as (c' & u & E & Hwc & Hu & Hel & Hc'). fold now in E, Hwc.
  rewrite (bind_step _ _ _ _ _ E), Hnext.
  assert (Hstay : forall v, judge_connection now d = v -> v <> dead ->
    exists t' cs2' evs', connection_timeouts fuel (fst <$> head cs2) u = Ok (tt, t') /\
      watch now ((p, connections.unlinked d) :: cs2) cs2' evs' /\ watching t' (cs1 ++ cs2') ds (evs ++ evs') /\
      elsewhere t t').
  { intros v Hv Hne. pose proof Hu as Hu'. change (cs1 ++ ?e :: cs2) with (cs1 ++ [e] ++ cs2) in Hu'. rewrite app_assoc in Hu'.
    destruct (IH u _ cs2 evs Hu' ltac:(lia)) as (t' & cs2' & evs' & E' & Hwa & Hw' & Hel').
    rewrite (el_time _ _ Hel) in Hwa. rewrite <- app_assoc in Hw'. exists t', ((p, connections.unlinked c') :: cs2'), evs'.
    split; [exact E'|]. split; [|split; [exact Hw' | by eapply elsewhere_trans]].
    apply watch_stay; [by subst v | by apply watched_unlinked | exact Hwa]. }
  destruct (judge_connection now d) eqn:Hj; [by apply (Hstay alive) | by apply (Hstay ask) |]. clear Hstay.
  destruct (drop_connection u cs1 p c' cs2 ds evs Hu Hc') as (v & Ev & Hv & Hel2). rewrite (bind_step _ _ _ _ _ Ev).
  destruct (IH v cs1 cs2 _ Hv ltac:(lia)) as (t' & cs2' & evs' & E' & Hwa & Hw' & Hel').
  rewrite (el_time _ _ Hel2), (el_time _ _ Hel) in Hwa. rewrite <- app_assoc in Hw'.
  exists t', cs2', (lost_event c' :: evs'). split; [exact E'|]. split; [|split; [exact Hw' | by do 2 (eapply elsewhere_trans; [eassumption|])]].
  replace (lost_event c') with (lost_event (connections.unlinked d)) by (unfold lost_event; cbn; by rewrite (sp_index _ _ (wc_peer _ _ _ Hwc))).
  by apply watch_drop.
Qed.

(** ** The whole check *)
Definition due (t : torque_socket) : bool :=
  time_add (_last_timeout_check_time t) timeout_check_interval <? _process_start_time (_net t).

(** A check that is due: first the pending connections, then the others. *)
Lemma due_check (t : torque_socket) xs ds evs :
  waits t xs ds evs -> due t = true ->
  let now := _process_start_time (_net t) in
  exists u, waits u (sweep now xs) ds (evs ++ expired now xs) /\
    swept (with_last_timeout_check now t) u /\
    check_timeouts t =
      connection_timeouts (base.size (connections.heap (_connections u))) (connections._connection_list (_connections u)) u.
Proof.
  intros Hw Hdue now. unfold check_timeouts.
  rewrite (bind_step _ _ _ _ _ (process_start_time_spec t)), gets_bind. fold now. unfold due in Hdue. fold now in Hdue.
  rewrite Hdue, modify_bind, gets_bind. set (t1 := with_last_timeout_check now t).
  assert (Hw1 : waits t1 ([] ++ xs) ds evs) by (destruct Hw as [? ? ? [? ?]]; by split).
  pose proof (wt_repr _ _ _ _ Hw1) as [Hc Hn _ _ _]. apply list.NoDup_app in Hn as (Hn & _ & _).
  destruct (pending_timeouts_spec _ t1 [] xs ds evs Hw1 (pchain_size _ _ _ Hc Hn)) as (u & E & Hu & Hsw).
  exists u. split; [exact Hu|]. split; [exact Hsw|]. by rewrite (bind_step _ _ _ _ _ E), gets_bind.
Qed.


(** ** A request that nobody answers *)

(** Checks at the given times, and nothing else: what [process_connections] does about the
    pending connections while no datagram arrives. *)
Fixpoint checks (nows : list time) : M torque_socket unit :=
  match nows with
  | [] => mret tt
  | now :: nows => _ ← net_op (modify (with_time now)); _ ← check_timeouts; checks nows
  end.

(** Each check is due. *)
Fixpoint spaced (last : time) (nows : list time) : Prop :=
  match nows with
  | [] => True
  | now :: nows => time_add last timeout_check_interval < now /\ spaced now nows
  end.

Lemma sweep_locs now xs p : p ∈ (sweep now xs).*1 -> p ∈ xs.*1.
Proof.
  induction xs as [|[q x] xs IH]; cbn [sweep]; [done|].
  destruct (judge_pending now x); cbn; rewrite ?elem_of_cons; tauto.
Qed.

Lemma sweep_retries now xs p x :
  (p, x) ∈ xs -> judge_pending now x = retry -> (p, count_retry x) ∈ sweep now xs.
Proof.
  induction xs as [|[q y] xs IH]; intros Hin Hj; [by apply not_elem_of_nil in Hin|].
  apply elem_of_cons in Hin as [[= <- <-]|Hin].
  - cbn [sweep]. rewrite Hj. by left.
  - specialize (IH Hin Hj). cbn [sweep]. destruct (judge_pending now y); [by right | by right | done].
Qed.

Lemma sweep_expires now xs p x :
  NoDup xs.*1 -> (p, x) ∈ xs -> judge_pending now x = expire ->
  p ∉ (sweep now xs).*1 /\ timed_out_event x ∈ expired now xs.
Proof.
  induction xs as [|[q y] xs IH]; intros Hn Hin Hj; [by apply not_elem_of_nil in Hin|].
  cbn in Hn. apply list.NoDup_cons in Hn as [Hq Hn]. apply elem_of_cons in Hin as [[= <- <-]|Hin]; cbn [sweep expired].
  - rewrite Hj. split; [by intros ?%sweep_locs | by left].
  - destruct (IH Hn Hin Hj) as [Hp He].
    assert (p <> q) by (intros ->; apply Hq; by apply (list_elem_of_fmap_2 fst xs (q, x))).
    destruct (judge_pending now y); cbn; rewrite ?elem_of_cons; tauto.
Qed.

Lemma connection_timeouts_none fuel (t : torque_socket) : connection_timeouts fuel None t = Ok (tt, t).
Proof. by destruct fuel. Qed.

(** One check of a socket without established connections. *)
Lemma check_unconnected now (t : torque_socket) xs ds evs :
  waits t xs ds evs -> connections._connection_list (_connections t) = None ->
  time_add (_last_timeout_check_time t) timeout_check_interval < now ->
  exists u, (_ ← net_op (modify (with_time now)); check_timeouts) t = Ok (tt, u) /\
    waits u (sweep now xs) ds (evs ++ expired now xs) /\ connections._connection_list (_connections u) = None /\
    _last_timeout_check_time u = now.
Proof.
  intros Hw Hno Hdue. set (t0 := with_net (with_time now (_net t)) t).
  assert (Ht : net_op (modify (with_time now)) t = Ok (tt, t0)) by done. rewrite (bind_step _ _ _ _ _ Ht).
  assert (Hw0 : waits t0 xs ds evs) by (destruct Hw as [? ? ? [? ?]]; by split).
  destruct (due_check t0 xs ds evs Hw0) as (u & Hu & [Hc _ Hl] & E); [by apply Z.ltb_lt|].
  cbn in Hc, Hl. rewrite E, Hc, Hno. exists u. rewrite Hc. rewrite connection_timeouts_none.
  split; [done|]. by split.
Qed.

Lemma checks_run nows (t : torque_socket) xs ds evs :
  waits t xs ds evs -> connections._connection_list (_connections t) = None ->
  spaced (_last_timeout_check_time t) nows ->
  exists t' ys reported, checks nows t = Ok (tt, t') /\ waits t' ys ds (evs ++ reported) /\
    (forall p, p ∈ ys.*1 -> p ∈ xs.*1).
Proof.
  revert t xs evs. induction nows as [|now nows IH]; intros t xs evs Hw Hno Hs; cbn [checks].
  - exists t, xs, []. by rewrite app_nil_r.
  - destruct Hs as [Hdue Hs]. destruct (check_unconnected now t xs ds evs Hw Hno Hdue) as (u & E & Hu & Hno' & Hl).
    apply M_bind_Ok in E as ([] & t0 & E0 & E). rewrite (bind_step _ _ _ _ _ E0), (bind_step _ _ _ _ _ E).
    destruct (IH u _ _ Hu Hno') as (t' & ys & reported & E' & Hw' & Hsub); [by rewrite Hl|].
    exists t', ys, (expired now xs ++ reported). rewrite app_assoc. split; [exact E'|]. split; [exact Hw'|].
    intros p Hp. by eapply sweep_locs, Hsub.
Qed.

End timeouts.

(** ** An example: a request with two retries, and a connection whose peer is silent. *)
Section example.
#[local] Existing Instance debug_machine.

Definition example_request_record (count : Z) : @pending_connection counter_prng toy_ecc toy_cipher :=
  unlinked (start_timer count challenge_retry_time 1000 (new_pending_connection connection_initiator 5 100 3)).
Definition example_silent : torque_connection :=
  with_ping (mk_ping 5000 5 5 1000)
    (with_window (Connection.set_initial_recv_sequence 9 (new_window 1)) (new_torque_connection 1 1 7 true)).
Definition example_late : @torque_socket counter_prng toy_ecc toy_cipher :=
  let t := example_socket 5 client_key in with_net (with_time 9000 (_net t)) t.

Lemma example_typed count : typed (example_request_record count).
Proof. split; [split; done | apply u64_range | split; done]. Qed.

Lemma example_silent_ok : conn_ok (connections.unlinked example_silent).
Proof.
  split; [apply fresh_window_ok; split; cbn; lia | split; done].
Qed.

(** The record is in the list of a socket that is otherwise like [t]. *)
Lemma example_waits count (t : torque_socket) :
  repr (_pendings t) [] [] -> queue_holds (_event_queue (_net t)) [] -> introducers_ok t ->
  exists p l, waits (with_pendings l t) [(p, example_request_record count)] [] [].
Proof.
  intros Hr Hq Hi.
  destruct (pend_allocate_spec (example_request_record count) t [] [] Hr) as (p & l & _ & Hl & _).
  destruct (pend_add_spec p _ (with_pendings l t) [] [] Hl) as (l' & _ & Hl').
  exists p, l'. split; [exact Hl' | | exact Hq | destruct Hi; by split].
  repeat constructor; apply (example_typed count).
Qed.

Lemma example_introducers t : hosts t [] [] [] [] [] -> connections.indexed (_connections t) [] -> introducers_ok t.
Proof.
  intros [_ Hr Hs _ _] Hi. split; [exact Hs|]. exists [], []. split; [exact Hr|]. split; [exact Hi|].
  intros p c Hin. by apply not_elem_of_nil in Hin.
Qed.


(** The same socket with the silent connection in its list. *)
Lemma example_watching t : hosts t [] [] [] [] [] -> connections.indexed (_connections t) [] ->
  exists q ct, let u := with_connections ct t in
    watching u [(q, connections.unlinked example_silent)] [] [] /\ introducers_ok u.
Proof.
  intros [_ Hr Hs Hm Hq] Hi.
  destruct (conns_allocate_spec example_silent t [] [] Hr) as (q & ct & _ & Hr1 & Ht & _).
  destruct (conns_add_spec q _ (with_connections ct t) [] [] Hr1 (same_tables_sane _ _ Ht Hs)
    (same_tables_room _ _ Ht Hm)) as (ct' & _ & Hr' & Hs' & Hi').
  exists q, ct'. split.
  - split; [exact Hr' | | exact Hs' | exact Hq]. repeat constructor; apply example_silent_ok.
  - split; [exact Hs'|]. eexists _, _. split; [exact Hr'|]. split; [exact (Hi' (same_tables_indexed _ _ _ Ht Hi))|].
    intros p c [= -> ->]%list_elem_of_singleton. split; done.
Qed.

End example.
