(* ===== verification/Robust.v ===== *)
(** * Any datagram at all

    The datagrams of a connection are neither signed nor encrypted: what arrives from the
    address of a peer may be anything.  Nothing that arrives can stop a connection or spoil
    its state ([any_datagram_is_survived]), apart from the datagram that is empty, which is
    judged by what the buffer held before, and apart from introductions by strangers
    ([datagrams_that_stop_the_process]). *)
From Stdlib Require Import SpecFloat.
From S2P Require Import Prelude Endian BitCopy BitStream StreamIO Address EventQueue Cipher Net Connection Header Exchange Window HashTable HashTableSpec HashStream Sha256 BufferUtils Puzzle AsymmetricKey ThreadQueue Pending Connections SocketState Wire Handshake Socket SocketSteps HandshakeSpec RequestSpec Establish Guards.
From stdpp Require Import gmap.
#[local] Open Scope Z_scope.

(** ** Reading a header from arbitrary bits *)

(** The stream has gone on, and not beyond its end. *)
Record advanced (s s' : bit_stream) : Prop := {
  av_ok : stream_ok s';
  av_base : bs_base s' = bs_base s;
  av_end : bs_bit_end s' = bs_bit_end s
}.

Lemma advanced_refl s : stream_ok s -> advanced s s.
Proof. by split. Qed.
Lemma advanced_trans s1 s2 s3 : advanced s1 s2 -> advanced s2 s3 -> advanced s1 s3.
Proof. intros [? ? ?] [? ? ?]. split; congruence. Qed.
Lemma consumed_advanced s l s' : consumed s l s' -> advanced s s'.
Proof. by intros [? ? ? _ _ _]. Qed.

Lemma read_integer_any s w :
  stream_ok s -> 0 <= w <= 32 -> exists s' v, _read_integer s w = Ok (s', v) /\ in_u w v /\ advanced s s'.
Proof. intros Hok Hw. destruct (read_integer_total s w Hok Hw) as (s' & v & E & Hv & ? & ? & ?). by exists s', v. Qed.

(** A stream whose first byte has the flag of a connection's datagram. *)
Record flagged (s : bit_stream) : Prop := {
  fg_ok : stream_ok s;
  fg_start : bs_bit_num s = 0;
  fg_bytes : bs_bit_end s mod 8 = 0;
  fg_some : 8 <= bs_bit_end s;
  fg_flag : exists b, bget (bs_base s) 0 = Ok b /\ Z.testbit b 7 = true
}.

Lemma first_bits s :
  flagged s -> exists b r, upcoming s = int_bits 2 b ++ int_bits 5 (Z.shiftr b 2) ++ true :: r.
Proof.
  intros [Hok Hs Hm He (b & Hb & Hf)]. exists b, (bits_of (bs_base s) 8 (bs_bit_end s - 8)).
  unfold upcoming. rewrite Hs, Z.sub_0_r. replace (bs_bit_end s) with (8 + (bs_bit_end s - 8)) at 1 by lia.
  rewrite bits_of_app by lia. change (true :: ?l) with ([true] ++ l). rewrite !app_assoc. f_equal.
  apply bget_Ok in Hb as [_ Hb]. destruct (bs_base s) as [|b' base]; [done|]. injection Hb as ->.
  unfold bits_of, int_bits. change (seqZ 0 8) with [0; 1; 2; 3; 4; 5; 6; 7]. change (seqZ 0 2) with [0; 1].
  change (seqZ 0 5) with [0; 1; 2; 3; 4]. cbn [fmap list_fmap app].
  rewrite !bitz_cons, !Z.shiftr_spec by lia. by rewrite <- Hf.
Qed.

Lemma lor_range w a b : 0 <= w -> in_u w a -> in_u w b -> in_u w (Z.lor a b).
Proof.
  intros Hw [Ha Ha'] [Hb Hb']. apply in_u_of_bits; [done | by apply Z.lor_nonneg |]. intros i Hi.
  rewrite Z.lor_spec, (testbit_high w a), (testbit_high w b) by (unfold in_u; lia). done.
Qed.

Lemma read_fields_any s :
  flagged s -> exists s' ty seq ack, read_header_fields s = Ok (s', (ty, seq, true, ack, 0)) /\
    0 <= ty < 4 /\ is_u32 seq /\ in_u 10 ack /\ advanced s s'.
Proof.
  intros Hf. destruct (first_bits s Hf) as (b & r & Hu). pose proof (fg_ok _ Hf) as Hok.
  unfold read_header_fields, sequence_number_bit_size, ack_sequence_number_bit_size.
  change (11 - 5) with 6. change packet_header_pad_bits with 0.
  destruct (read_integer_upcoming s 2 b _ Hok ltac:(lia) Hu) as (s1 & -> & H1). cbn [mbind result_bind].
  pose proof (consumed_upcoming _ _ _ _ H1 Hu) as Hu1.
  destruct (read_integer_upcoming s1 5 _ _ (con_ok _ _ _ H1) ltac:(lia) Hu1) as (s2 & -> & H2). cbn [mbind result_bind].
  pose proof (consumed_upcoming _ _ _ _ H2 Hu1) as Hu2.
  destruct (read_bool_upcoming s2 true r (con_ok _ _ _ H2) Hu2) as (s3 & -> & H3). cbn [mbind result_bind].
  destruct (read_integer_any s3 6 (con_ok _ _ _ H3) ltac:(lia)) as (s4 & high & -> & Hh & H4). cbn [mbind result_bind].
  destruct (read_integer_any s4 10 (av_ok _ _ H4) ltac:(lia)) as (s5 & ack & -> & Ha & H5). cbn [mbind result_bind].
  destruct (read_integer_any s5 0 (av_ok _ _ H5) ltac:(lia)) as (s6 & pad & -> & Hp & H6). cbn [mbind result_bind].
  assert (pad = 0) as -> by (unfold in_u in Hp; lia).
  eexists s6, _, _, ack. split; [done|]. split; [apply (Z.mod_pos_bound b 4); lia|]. split; [|split; [done|]].
  - apply lor_range; [done | | apply u32_range]. pose proof (Z.mod_pos_bound (Z.shiftr b 2) (2 ^ 5) ltac:(lia)). unfold in_u. lia.
  - do 2 (eapply advanced_trans; [eapply consumed_advanced; eassumption|]).
    eapply advanced_trans; [eapply consumed_advanced; eassumption|]. by do 2 (eapply advanced_trans; [eassumption|]).
Qed.

Lemma read_words_any s k g :
  stream_ok s -> 0 <= k <= 4 -> exists s' m,
    read_ack_words (Z.to_nat (Z.shiftr (k + 3) 2)) 0 k (Z.shiftr (k + 3) 2) [g] s = Ok (s', [m]) /\
    advanced s s'.
Proof.
  intros Hok Hk. destruct (Z.eqb_spec k 0) as [->|Hk0]; [exists s, g; split; [done | by apply advanced_refl]|].
  assert (Z.shiftr (k + 3) 2 = 1) as ->.
  { rewrite Z.shiftr_div_pow2 by lia. assert (k = 1 \/ k = 2 \/ k = 3 \/ k = 4) as [-> | [-> | [-> | ->]]] by lia; done. }
  change (Z.to_nat 1) with 1%nat. cbn [read_ack_words]. change (0 =? 1 - 1) with true. cbv iota.
  destruct (read_integer_any s ((k - 0 * 4) * 8) Hok ltac:(lia)) as (s' & v & -> & _ & Hs). by exists s', v.
Qed.

(** The completed numbers. *)
Lemma reconstruct_range p r mask ws : is_u32 p -> is_u32 r -> is_u32 (reconstruct p r mask ws).
Proof.
  intros Hp [Hr Hr']. unfold reconstruct. assert (is_u32 (Z.lor p (Z.land r mask))).
  { apply lor_range; [done | done |]. apply in_u_of_bits; [lia | apply Z.land_nonneg; by left |]. intros i Hi.
    by rewrite Z.land_spec, (testbit_high 32 r) by (unfold in_u; lia). }
  destruct (_ <? r); [apply u32_range | done].
Qed.

Lemma reconstruct_ack p r :
  in_u 10 p -> 0 <= r < limit -> r <= reconstruct p r ack_sequence_number_mask ack_sequence_number_window_size.
Proof.
  intros [Hp Hp'] Hr. unfold limit in Hr.
  pose proof (Z.mod_pos_bound r (2 ^ 10) ltac:(lia)). pose proof (Z.div_mod r (2 ^ 10) ltac:(lia)).
  set (x := r - r mod 2 ^ 10 + p). set (y := if x <? r then x + 2 ^ 10 else x).
  assert (Hy : y mod 2 ^ 10 = p).
  { unfold y, x. destruct (Z.ltb_spec (r - r mod 2 ^ 10 + p) r); symmetry.
    - apply (Z.mod_unique_pos _ _ (r / 2 ^ 10 + 1)); lia.
    - apply (Z.mod_unique_pos _ _ (r / 2 ^ 10)); lia. }
  assert (r <= y < r + 2 ^ 10) by (unfold y, x; destruct (Z.ltb_spec (r - r mod 2 ^ 10 + p) r); lia).
  rewrite <- Hy, (reconstruct_spec 10) by (done || lia).
  destruct (Z.leb_spec r y); [|lia]. destruct (Z.ltb_spec y (r + 2 ^ 10)); lia.
Qed.

Section connection.
Context `{Machine, Prng, BlockCipher}.

(** What a datagram does to a connection and its socket, whatever it holds: at most [k]
    events are posted and one datagram is sent. *)
Record survives (k : nat) (c : torque_connection) (n : net) (evs : list torque_socket_event)
    (c' : torque_connection) (n' : net) : Prop := {
  su_ok : conn_ok c';
  su_peer : same_peer c c';
  su_sent : _last_send_seq (_window c') = _last_send_seq (_window c);
  su_acked : _highest_acked_seq (_window c) <= _highest_acked_seq (_window c') <= _last_send_seq (_window c);
  su_events : exists q out reported, n' = with_events q (with_sent (udp_sent n ++ out) n) /\
    queue_holds q (evs ++ reported) /\ (length reported <= k)%nat /\ (length out <= 1)%nat
}.

Lemma survives_same k c n evs c' :
  conn_ok c -> no_wrap (_window c) -> same_but_cipher c c' -> queue_holds (_event_queue n) evs -> survives k c n evs c' n.
Proof.
  intros Hc Hn Hs Hq. destruct (same_but_cipher_ok _ _ Hc Hs) as (Hc' & Hw & Hp). destruct Hn as [_ Ha _ _ _ _].
  split; [done | done | by rewrite Hw | rewrite Hw; lia |].
  exists (_event_queue n), [], []. rewrite !app_nil_r. split; [by destruct n|]. split; [done|]. cbn. lia.
Qed.

Lemma notes_length w ack m : no_wrap w -> _highest_acked_seq w <= ack <= _last_send_seq w -> (length (notes w ack m) <= 30)%nat.
Proof.
  intros [_ Ha Hs Hw _ _] Hack. unfold notes. rewrite length_fmap, length_seqZ.
  unfold limit in *. rewrite u32_small by (unfold in_u; lia). lia.
Qed.

Lemma code_of ty : 0 <= ty < 3 -> exists t, packet_code t = ty.
Proof.
  intros Ht. assert (ty = 0 \/ ty = 1 \/ ty = 2) as [->|[->| ->]] by lia;
    [by exists data_packet | by exists ping_packet | by exists ack_packet].
Qed.

(** An accepted header, with whatever numbers it has. *)
Lemma process_header_any c c0 ty seq ack m n evs :
  conn_ok c -> no_wrap (_window c) -> same_but_cipher c c0 -> queue_holds (_event_queue n) evs -> 0 <= ty < 3 ->
  is_u32 seq -> u32 (seq - _last_seq_recvd (_window c)) <= 31 ->
  _highest_acked_seq (_window c) <= ack <= _last_send_seq (_window c) ->
  exists c' ret n', process_header c0 ty seq ack [m] n = Ok (c', ret, n') /\ survives 30 c n evs c' n'.
Proof.
  intros Hc Hnw Hs Hq Hty Hseq Hsh Hack. destruct (code_of ty Hty) as [t <-].
  destruct (same_but_cipher_ok _ _ Hc Hs) as (Hc0 & Hw0 & Hp0). pose proof (nw_sent _ Hnw). pose proof (nw_acked _ Hnw).
  pose proof (nw_window _ Hnw). unfold limit in *.
  destruct (process_header_spec c0 t seq ack m n evs) as (c' & q & out & E & Hw' & Hc' & Hp' & Hq' & Hans);
    rewrite ?Hw0; try done; [unfold in_u; lia | rewrite u32_small by (unfold in_u; lia); lia |].
  do 3 eexists. split; [exact E|]. rewrite Hw0 in *. split.
  - exact Hc'.
  - by eapply same_peer_trans.
  - rewrite Hw'. done.
  - rewrite Hw'. cbn. lia.
  - exists q, out, (notify_event (_connection_index c0) <$> notes (_window c) ack m). split; [done|]. split; [exact Hq'|].
    rewrite length_fmap. split; [by apply notes_length|]. unfold answer_of in Hans.
    destruct (Exchange.answers t _); [by destruct Hans as (b & -> & _) | by rewrite Hans; cbn; lia].
Qed.

Lemma read_header_any c s n evs :
  conn_ok c -> no_wrap (_window c) -> queue_holds (_event_queue n) evs -> flagged s ->
  exists c' s' ret n', read_packet_header c s n = Ok (c', s', ret, n') /\ advanced s s' /\
    survives 30 c n evs c' n' /\ (ret = true -> bs_bit_num s' mod 8 = 0).
Proof.
  intros Hc Hnw Hq Hf. pose proof Hc as (Hwok & Hci & Hqu).
  assert (Hdrop : forall c' s', advanced s s' -> same_but_cipher c c' ->
    exists c'' s'' ret n', (mret (c', s', false) : M net _) n = Ok (c'', s'', ret, n') /\ advanced s s'' /\
    survives 30 c n evs c'' n' /\ (ret = true -> bs_bit_num s'' mod 8 = 0)).
  { intros c' s' Ha Hs. exists c', s', false, n. split; [done|]. split; [done|]. split; [by apply survives_same | done]. }
  pose proof (same_but_cipher_refl c Hci) as Hrefl.
  unfold read_packet_header. destruct (read_fields_any s Hf) as (s1 & ty & sq & ak & E1 & Hty & Hsq & Hak & A1).
  rewrite (lift_step _ _ _ _ E1). cbn beta iota zeta. cbn [negb Z.eqb]. rewrite (lift_step _ tt) by done.
  set (seq := reconstruct sq _ _ _). set (ack := reconstruct ak _ _ _).
  destruct (Z.ltb_spec (max_packet_window_size - 1) (u32 (seq - _last_seq_recvd (_window c)))) as [|Hseq]; [by apply Hdrop|].
  destruct (Z.ltb_spec (_last_send_seq (_window c)) ack) as [|Hack]; [by apply Hdrop|].
  destruct (setup_connection_counter_total c seq ack ty Hci) as (k & E2 & Hk). rewrite (lift_step _ _ _ _ E2).
  destruct (read_ranged_total s1 0 max_ack_byte_count (av_ok _ _ A1)) as (s2 & cnt & E3 & Hcnt & A2 & A2' & A2'');
    [done | done | done |]. rewrite (lift_step _ _ _ _ E3). cbn beta iota zeta.
  assert (A12 : advanced s s2) by (eapply advanced_trans; [exact A1 | by split]).
  destruct ((max_ack_byte_count <? cnt) || (packet_code invalid_packet_type <=? ty)) eqn:Hbad;
    [apply Hdrop; [done | by split; [|exists k]]|].
  apply orb_false_iff in Hbad as [Hcnt' Hty']. apply Z.ltb_ge in Hcnt'. apply Z.leb_gt in Hty'. cbn in Hty'.
  change max_ack_byte_count with 4 in Hcnt'. destruct (read_words_any s2 cnt (u32 indeterminate) A2) as (s3 & m & E4 & A3); [destruct Hcnt; lia|].
  rewrite (lift_step _ _ _ _ E4). cbn beta iota zeta. pose proof (advanced_trans _ _ _ A12 A3) as A13.
  destruct (advance_consumed s3 (av_ok _ _ A3)) as (pad & Hadv & _); [rewrite (av_end _ _ A13); apply Hf|].
  destruct (process_header_any c (with_cipher k c) ty seq ack m n evs) as (c' & ret & n' & E5 & Hs); try done; try lia.
  - split; [done | by exists k].
  - apply reconstruct_range; [done | apply Hwok].
  - split; [|done]. apply reconstruct_ack; [done|]. pose proof (nw_acked _ Hnw). pose proof (nw_sent _ Hnw). lia.
  - rewrite (bind_step _ _ _ _ _ E5). exists c', (advance_to_next_byte s3), ret, n'. split; [done|].
    split; [eapply advanced_trans; [exact A13 | by eapply consumed_advanced]|]. split; [exact Hs|]. intros _.
    destruct (advance_num s3 (av_ok _ _ A3)) as [-> _]; [rewrite (av_end _ _ A13); apply Hf|]. zlia.
Qed.

Lemma read_raw_any c s n evs :
  conn_ok c -> no_wrap (_window c) -> queue_holds (_event_queue n) evs -> flagged s ->
  exists c' s' ret n', read_raw_packet c s n = Ok (c', s', ret, n') /\ survives 31 c n evs c' n'.
Proof.
  intros Hc Hnw Hq Hf. destruct (read_header_any c s n evs Hc Hnw Hq Hf) as (c' & s' & ret & n' & E & Ha & Hs & Hr).
  assert (Eloss : simulate_loss c n = Ok (false, n)).
  { unfold simulate_loss. destruct Hc as (_ & _ & _ & Hl). by rewrite Hl. }
  unfold read_raw_packet. rewrite (bind_step _ _ _ _ _ Eloss), (bind_step _ _ _ _ _ E).
  destruct Hs as [Hok Hp Hse Hak (q & out & reported & -> & Hq' & Hl & Ho)]. destruct ret.
  2: { do 4 eexists. split; [done|]. split; try done. exists q, out, reported. split_and!; try done. lia. }
  specialize (Hr eq_refl). destruct (av_ok _ _ Ha) as [_ Hcur Hend Hsize]. pose proof (av_end _ _ Ha) as Hae.
  pose proof (fg_bytes _ Hf) as Hm. rewrite <- Hae in Hm.
  set (n' := with_events q (with_sent (udp_sent n ++ out) n)).
  set (payload := take (Z.to_nat (bs_bit_end s' / 8 - bs_bit_num s' / 8)) (drop (Z.to_nat (bs_bit_num s' / 8)) (bs_base s'))).
  destruct (deliver_event_spec n' q _ (_connection_index c') (_last_seq_recvd (_window c')) payload s'
    (bs_bit_num s' / 8) (bs_bit_end s' / 8) eq_refl Hq') as (q' & Ed & Hq''); [apply Ha | zlia | zlia | done | |].
  { unfold payload. unfold blen in *. rewrite length_take, length_drop. clear -Hcur Hend Hr Hm. zlia. }
  rewrite (bind_step _ _ _ _ _ Ed). do 4 eexists. split; [done|]. split; try done.
  rewrite <- app_assoc in Hq''. eexists q', out, _. split; [done|]. split; [exact Hq''|]. rewrite length_app. cbn. lia.
Qed.
End connection.

(** ** At the socket *)
Section socket.
Context `{Machine, Ecc, BlockCipher}.

(** The byte by which [_process_packet] knows a connection's datagram. *)
Lemma flag_bit b : negb (Z.land b 0x80 =? 0) = Z.testbit b 7.
Proof.
  change 0x80 with (2 ^ 7). destruct (Z.testbit b 7) eqn:Hb.
  - apply negb_true_iff, Z.eqb_neq. intros E. assert (Z.testbit (Z.land b (2 ^ 7)) 7 = true) as Ht.
    { rewrite Z.land_spec, Hb, Z.pow2_bits_true by lia. done. }
    by rewrite E, Z.testbit_0_l in Ht.
  - apply negb_false_iff, Z.eqb_eq, Z.bits_inj'. intros i Hi. rewrite Z.land_spec, Z.testbit_0_l.
    destruct (Z.eq_dec i 7) as [->|Hne]; [by rewrite Hb|]. rewrite Z.pow2_bits_false by lia. apply andb_false_r.
Qed.

Lemma recv_flagged s b d :
  reused s -> is_bytes (b :: d) -> blen (b :: d) <= max_datagram_size -> Z.testbit b 7 = true ->
  flagged (recv_from s (b :: d)) /\ bget (bs_base (recv_from s (b :: d))) 0 = Ok b.
Proof.
  intros Hs Hb Hd Hf. pose proof (recv_reads s _ Hs Hb Hd) as [Hok Hn He _ Hbase]. pose proof (blen_nonneg d).
  assert (blen (b :: d) = blen d + 1) as Hbl by (unfold blen; cbn [length]; lia). cbn [app] in *.
  assert (Hg : bget (bs_base (recv_from s (b :: d))) 0 = Ok b).
  { rewrite <- (take_drop (length (b :: d)) (bs_base _)), Hbase. done. }
  split; [|exact Hg]. split; [done | done | rewrite He; zlia | rewrite He; lia | by exists b].
Qed.

(** The connections of a socket, in working order. *)
Record peers (t : torque_socket) (cs ds : list (loc * torque_connection)) (evs : list torque_socket_event) : Prop := {
  pe_repr : connections.repr (_connections t) cs ds;
  pe_sane : connections.sane (_connections t);
  pe_indexed : connections.indexed (_connections t) cs;
  pe_ok p c : (p, c) ∈ cs -> conn_ok c /\ no_wrap (Connection._window c);
  pe_queue : queue_holds (_event_queue (_net t)) evs
}.

Lemma indexed_update t t' cs1 p c c' cs2 :
  connections.indexed t (cs1 ++ (p, c) :: cs2) -> connections.same_tables t t' -> same_peer c c' ->
  connections.indexed t' (cs1 ++ (p, c') :: cs2).
Proof.
  intros [Hi Ha Hci Hca] [Ti Ta] Hp. rewrite fmap_app in Hci. rewrite fmap_app in Hca. cbn in Hci, Hca.
  split; rewrite ?Ti, ?Ta; try done; rewrite fmap_app; cbn; [by rewrite (sp_index _ _ Hp) | by rewrite (sp_address _ _ Hp)].
Qed.

Lemma survives_unlinked k d n evs c' n' :
  survives k d n evs c' n' -> survives k (connections.unlinked d) n evs (connections.unlinked c') n'.
Proof. intros [Hok [Ha Hi _ Hn Hs] Hse Hak He]. by split. Qed.

(** The connection a datagram belongs to reads it. *)
Lemma peer_reads (t : torque_socket) cs1 p c cs2 ds evs s :
  peers t (cs1 ++ (p, c) :: cs2) ds evs -> flagged s ->
  exists t' ok c', on_connection p (fun c => '(c, s, ok) ← read_raw_packet c s; mret (c, ok)) t = Ok (ok, t') /\
    survives 31 c (_net t) evs c' (_net t') /\ _pendings t' = _pendings t /\
    connections.repr (_connections t') (cs1 ++ (p, c') :: cs2) ds /\ connections.sane (_connections t') /\
    connections.indexed (_connections t') (cs1 ++ (p, c') :: cs2).
Proof.
  intros [Hr Hs Hi Hok Hq] Hf. destruct (connections.conn_repr_linked _ _ _ _ _ _ Hr) as (d & Hd & ->).
  destruct (Hok p (connections.unlinked d)) as [Hcd Hnd]; [apply elem_of_app; right; by left|].
  destruct (read_raw_any d s (_net t) evs) as (c' & s' & ret & n' & E & Hsu); [by destruct d | done | done | done |].
  set (f := fun c => '(c, s, ok) ← read_raw_packet c s; mret (c, ok)).
  assert (Ef : f d (_net t) = Ok ((c', ret), n')) by (unfold f, mbind, M_bind; by rewrite E).
  destruct (on_connection_spec f t _ _ _ _ _ _ _ _ Hr Hd Ef (sp_links _ _ (su_peer _ _ _ _ _ _ Hsu)))
    as (ct & Eo & Hr' & Ht & _).
  apply survives_unlinked in Hsu.
  exists (with_connections ct (with_net n' t)), ret, (connections.unlinked c'). split; [exact Eo|]. split; [exact Hsu|].
  split; [done|]. split; [exact Hr'|]. split; [exact (same_tables_sane _ _ Ht Hs)|].
  exact (indexed_update _ _ _ _ _ _ _ Hi Ht (su_peer _ _ _ _ _ _ Hsu)).
Qed.

(** C7. Any datagram is survived.  A datagram with the flag of a connection, of any content and
    length but not empty, arrives from any address while the connections of the socket are in
    working order, in a buffer that holds anything.  It is processed to the end.  If the
    address is that of a connection, this connection keeps its peer, its place and its
    consistency, does not take back an acknowledgement and does not believe one of a packet
    it has not sent; the application gets at most 31 events and the network at most one
    datagram.  Otherwise nothing happens; and no other connection changes in any case. *)
Theorem any_datagram_is_survived a b d s (t : torque_socket) cs ds evs :
  peers t cs ds evs -> reused s -> is_bytes (b :: d) -> blen (b :: d) <= max_datagram_size -> Z.testbit b 7 = true ->
  exists t', _process_packet a (recv_from s (b :: d)) t = Ok (tt, t') /\ _pendings t' = _pendings t /\
    (t' = t \/ exists cs1 p c c' cs2, cs = cs1 ++ (p, c) :: cs2 /\ Connection._address c = a /\
      survives 31 c (_net t) evs c' (_net t') /\ connections.repr (_connections t') (cs1 ++ (p, c') :: cs2) ds /\
      connections.sane (_connections t') /\ connections.indexed (_connections t') (cs1 ++ (p, c') :: cs2)).
Proof.
  intros Hp Hs Hb Hl Hbit. destruct (recv_flagged s b d Hs Hb Hl Hbit) as [Hf Hg].
  unfold _process_packet. rewrite (lift_step _ _ _ _ Hg), flag_bit, Hbit.
  destruct (connections.find_connection_by_address_spec a _ (pe_sane _ _ _ _ Hp)) as (o & E & Ho).
  rewrite (bind_step _ _ _ _ _ (find_by_address_step _ _ _ E)). specialize (Ho _ (pe_indexed _ _ _ _ Hp)).
  destruct o as [p|]; [|exists t; split; [done|]; split; [done | by left]].
  destruct Ho as (c & Hin & Ha). apply list_elem_of_split in Hin as (cs1 & cs2 & ->).
  destruct (peer_reads t cs1 p c cs2 ds evs _ Hp Hf) as (t' & ok & c' & Eo & Hsu & Hpe & Hr & Hsa & Hi).
  rewrite (bind_step _ _ _ _ _ Eo). exists t'. split; [done|]. split; [exact Hpe|]. right.
  exists cs1, p, c, c', cs2. done.
Qed.

(** ** The empty datagram *)
Lemma read_bits_empty s dest db n :
  bs_bit_num s = bs_bit_end s -> n <> 0 -> _read_bits s dest db n = Ok (raise_error s, dest, 0).
Proof.
  intros E Hn. unfold _read_bits. apply Z.eqb_neq in Hn as ->. cbn [read_bits_loop]. by rewrite E, Z.sub_diag.
Qed.

Lemma read_integer_empty s w :
  bs_bit_num s = bs_bit_end s -> w <> 0 -> _read_integer s w = Ok (raise_error s, 0).
Proof. intros E Hw. unfold _read_integer. by rewrite read_bits_empty. Qed.

Lemma read_bool_empty s : bs_bit_num s = bs_bit_end s -> read_bool s = Ok (raise_error s, false).
Proof. intros E. unfold read_bool. by rewrite read_bits_empty. Qed.

Lemma read_fields_empty s :
  bs_bit_num s = bs_bit_end s -> exists s', read_header_fields s = Ok (s', (0, 0, false, 0, 0)).
Proof.
  intros E. unfold read_header_fields. rewrite read_integer_empty by done. cbn [mbind result_bind].
  rewrite read_integer_empty by done. cbn [mbind result_bind]. rewrite read_bool_empty by done. cbn [mbind result_bind].
  rewrite read_integer_empty by done. cbn [mbind result_bind]. rewrite read_integer_empty by done. cbn [mbind result_bind].
  by eexists.
Qed.

(** The empty datagram traps.  An empty datagram from the address of a connection, in a
    buffer whose first byte still has the flag of the datagram before it, is taken for a
    datagram of the connection; reading its header then fails an assertion, which traps in
    every build for x86. *)
Lemma empty_datagram_traps b s (t : torque_socket) cs1 p c cs2 ds evs :
  peers t (cs1 ++ (p, c) :: cs2) ds evs -> alone Connection._address c (cs1 ++ cs2) ->
  bget (bs_base s) 0 = Ok b -> Z.testbit b 7 = true ->
  _process_packet (Connection._address c) (recv_from s []) t = Fault assertion_failed.
Proof.
  intros [Hr Hs Hi Hok _] Ha Hg Hb. unfold _process_packet.
  assert (Hg' : bget (bs_base (recv_from s [])) 0 = Ok b) by exact Hg.
  rewrite (lift_step _ _ _ _ Hg'), flag_bit, Hb.
  rewrite (bind_step _ _ _ _ _ (find_address_alone t cs1 p c cs2 Hs Hi Ha)).
  destruct (connections.conn_repr_linked _ _ _ _ _ _ Hr) as (d & Hd & ->).
  destruct (Hok p (connections.unlinked d)) as [(_ & _ & _ & Hl) _]; [apply elem_of_app; right; by left|].
  change (float_nonzero (_simulated_packet_loss d) = false) in Hl.
  assert (Ed : conns (conn_deref p) t = Ok (d, t)).
  { unfold conns, zoom, conn_deref. rewrite Hd. cbn. by rewrite with_connections_id. }
  destruct (read_fields_empty (recv_from s []) eq_refl) as (s' & E).
  assert (Er : read_raw_packet d (recv_from s []) (_net t) = Fault assertion_failed).
  { unfold read_raw_packet. assert (simulate_loss d (_net t) = Ok (false, _net t)) as El by (unfold simulate_loss; by rewrite Hl).
    rewrite (bind_step _ _ _ _ _ El). unfold mbind, M_bind, read_packet_header.
    unfold mbind, M_bind, lift. by rewrite E. }
  unfold mbind at 1, M_bind at 1, on_connection. rewrite (bind_step _ _ _ _ _ Ed).
  unfold mbind, M_bind, net_op, zoom. by rewrite Er.
Qed.

(** C25. Two datagrams stop the process.  One that starts with the byte 7 - an introduction -
    from any address without a connection is a null dereference, whatever else it holds and
    whatever state the socket is in, because the handler does not ask whether there is an
    introducing connection.  An empty one from the address of a connection, in a buffer whose
    first byte still has the flag of the datagram before it, is taken for a datagram of the
    connection, and fails an assertion that traps in every build for x86. *)
Theorem datagrams_that_stop_the_process (t : torque_socket) :
  (forall a payload, is_bytes payload -> blen payload < max_datagram_size ->
    connections._find_connection_by_address a (_connections t) = Ok (None, _connections t) ->
    deliver a (connection_introduction_packet :: payload) t = Fault null_deref) /\
  (forall b s cs1 p c cs2 ds evs,
    peers t (cs1 ++ (p, c) :: cs2) ds evs -> alone Connection._address c (cs1 ++ cs2) ->
    bget (bs_base s) 0 = Ok b -> Z.testbit b 7 = true ->
    _process_packet (Connection._address c) (recv_from s []) t = Fault assertion_failed).
Proof. split; intros; [by apply stray_introduction_crashes | by eapply empty_datagram_traps]. Qed.
End socket.

(** ** An example: a host with one connection. *)
Section example.
#[local] Existing Instance debug_machine.

Definition example_peer : torque_connection :=
  with_peer client_address None 2
    (with_window (Connection.set_initial_recv_sequence 9 (new_window 1)) (new_torque_connection 1 1 7 false)).

Lemma example_peers :
  exists (t : @torque_socket counter_prng toy_ecc toy_cipher) p, peers t [(p, connections.unlinked example_peer)] [] [].
Proof.
  destruct (example_hosts 3 host_key) as [_ Hr Hs Hm Hq].
  destruct (conns_allocate_spec example_peer _ [] [] Hr) as (p & ct & _ & Hr1 & Ht & _).
  destruct (conns_add_spec p _ (with_connections ct (example_socket 3 host_key)) [] [] Hr1
    (same_tables_sane _ _ Ht Hs) (same_tables_room _ _ Ht Hm)) as (ct' & _ & Hr' & Hs' & Hi').
  exists (with_connections ct' (example_socket 3 host_key)), p.
  split; [exact Hr' | exact Hs' | | | exact Hq].
  - apply Hi', (same_tables_indexed _ _ _ Ht), connections.empty_indexed.
  - intros q c [= -> ->]%list_elem_of_singleton. split.
    + split; [apply fresh_window_ok; split; cbn; lia | split; done].
    + apply fresh_no_wrap; unfold limit; lia.
Qed.

Definition example_buffer (first : Z) : bit_stream := new_stream (first :: replicate 1535 0) 0.

Lemma any_datagram_is_survived_witness :
  exists (t t' : @torque_socket counter_prng toy_ecc toy_cipher),
    _process_packet client_address (recv_from (example_buffer 1) [0xff; 0xff; 0xff]) t = Ok (tt, t') /\
    _pendings t' = _pendings t.
Proof.
  destruct example_peers as (t & p & Hp).
  destruct (any_datagram_is_survived client_address 0xff [0xff; 0xff] (example_buffer 1) t _ _ _ Hp)
    as (t' & E & Hpe & _).
  - split; [|vm_compute; reflexivity]. apply Forall_cons. split; [split; cbn; lia|]. apply Forall_replicate. split; cbn; lia.
  - repeat constructor; lia.
  - vm_compute. discriminate.
  - reflexivity.
  - exists t, t'. exact (conj E Hpe).
Defined.

Lemma datagrams_that_stop_the_process_witness :
  deliver client_address [connection_introduction_packet] (example_socket 3 host_key) = Fault null_deref /\
  exists (t : @torque_socket counter_prng toy_ecc toy_cipher),
    _process_packet client_address (recv_from (example_buffer 0x80) []) t = Fault assertion_failed.
Proof.
  split.
  - apply (proj1 (datagrams_that_stop_the_process (example_socket 3 host_key)) client_address []).
    + constructor.
    + vm_compute; reflexivity.
    + exact (st_connection _ _ example_stranger).
  - destruct example_peers as (t & p & Hp). exists t.
    refine (proj2 (datagrams_that_stop_the_process t) 0x80 (example_buffer 0x80) [] p _ [] [] [] Hp _ _ _).
    + intros q d Hin. by apply not_elem_of_nil in Hin.
    + vm_compute. reflexivity.
    + reflexivity.
Defined.
End example.
