(* ===== verification/Messages.v ===== *)
(** * Messages of any fields

    Every handshake message is a sequence of numbers, byte buffers and addresses written one
    after the other with the overloads of [core::write] and read with those of [core::read].
    Any such sequence that fits a datagram comes back as it was ([message_roundtrip]), and a
    reader of any such sequence survives any datagram ([any_message_is_read]). *)
From S2P Require Import Prelude Endian BitStream StreamIO Address EventQueue Cipher Net Connection HashStream Sha256 BufferUtils Puzzle AsymmetricKey ThreadQueue Pending Connections SocketState Wire Handshake Socket Establish.
From stdpp Require Import gmap.
#[local] Open Scope Z_scope.

#[export] Program Instance address_image : Image address := {| img a := le_bytes 4 (_host a) ++ le_bytes 2 (_port a) |}.
Next Obligation. intros a _. apply Forall_app. split; apply is_bytes_le_bytes. Qed.
Next Obligation. intros a _. cbn [enc address_codec]. by rewrite byte_bits_app, !byte_bits_le_bytes. Qed.

Section messages.
Context `{Machine, Ecc, BlockCipher}.

(** A field of a message, or the variable it is read into. *)
Inductive field : Type :=
  | u8_field (v : Z)
  | u32_field (v : Z)
  | u64_field (v : Z)
  | buffer_field (b : byte_buffer)
  | address_field (a : address).

Definition put_one (f : field) (s : bit_stream) : result bit_stream :=
  match f with
  | u8_field v => write_uint8 v s
  | u32_field v => write_uint32 v s
  | u64_field v => write_nonce v s
  | buffer_field b => put_field b s
  | address_field a => put_field a s
  end.
Definition get_one (f : field) (s : bit_stream) : result (bit_stream * field) :=
  match f with
  | u8_field v => '(s, v) ← read_uint8_into v s; Ok (s, u8_field v)
  | u32_field v => '(s, v) ← read_uint32_into v s; Ok (s, u32_field v)
  | u64_field v => '(s, v) ← read_nonce_into v s; Ok (s, u64_field v)
  | buffer_field b => '(s, b) ← get_field s b; Ok (s, buffer_field b)
  | address_field a => '(s, a) ← get_field s a; Ok (s, address_field a)
  end.

Fixpoint put_all (fs : list field) (s : bit_stream) : result bit_stream :=
  match fs with
  | [] => Ok s
  | f :: fs => s ← put_one f s; put_all fs s
  end.
Fixpoint get_all (fs : list field) (s : bit_stream) : result (bit_stream * list field) :=
  match fs with
  | [] => Ok (s, [])
  | f :: fs => '(s, g) ← get_one f s; '(s, gs) ← get_all fs s; Ok (s, g :: gs)
  end.

(** The fields have the same types. *)
Definition same_kind (f g : field) : Prop :=
  match f, g with
  | u8_field _, u8_field _ | u32_field _, u32_field _ | u64_field _, u64_field _
  | buffer_field _, buffer_field _ | address_field _, address_field _ => True
  | _, _ => False
  end.

(** A value of the type, and one that can be sent. *)
Definition field_typed (f : field) : Prop :=
  match f with
  | u8_field v => is_u8 v
  | u32_field v => is_u32 v
  | u64_field v => is_u64 v
  | buffer_field b => typed b
  | address_field a => typed a
  end.
Definition field_valid (f : field) : Prop :=
  match f with
  | u8_field v => is_u8 v
  | u32_field v => is_u32 v
  | u64_field v => is_u64 v
  | buffer_field b => valid b
  | address_field a => valid a
  end.

Definition field_bytes (f : field) : bytes :=
  match f with
  | u8_field v => u8_img v
  | u32_field v => u32_img v
  | u64_field v => u64_img v
  | buffer_field b => img b
  | address_field a => img a
  end.
Definition message_bytes (fs : list field) : bytes := concat (field_bytes <$> fs).

Lemma put_one_holds f out b :
  holds out b -> field_valid f -> blen b + blen (field_bytes f) <= max_datagram_size ->
  exists out', put_one f out = Ok out' /\ holds out' (b ++ field_bytes f).
Proof. intros Hh Hf Hl. destruct f; by apply put_field_holds. Qed.

Lemma put_all_holds fs out b :
  holds out b -> Forall field_valid fs -> blen b + blen (message_bytes fs) <= max_datagram_size ->
  exists out', put_all fs out = Ok out' /\ holds out' (b ++ message_bytes fs).
Proof.
  revert out b. induction fs as [|f fs IH]; intros out b Hh Hv Hl; cbn [put_all].
  - exists out. unfold message_bytes. cbn. by rewrite app_nil_r.
  - apply Forall_cons in Hv as [Hf Hv]. unfold message_bytes in *. cbn [fmap list_fmap concat] in *. rewrite blen_app in Hl.
    pose proof (blen_nonneg (concat (field_bytes <$> fs))).
    destruct (put_one_holds f out b Hh Hf ltac:(lia)) as (out1 & -> & Hh1). cbn [mbind result_bind].
    destruct (IH out1 _ Hh1 Hv) as (out' & E & Hh'); [rewrite blen_app; lia|]. exists out'. by rewrite app_assoc.
Qed.

Lemma get_one_reads old f s pre rest :
  reads s pre (field_bytes f ++ rest) -> same_kind old f -> field_typed old -> field_valid f ->
  exists s', get_one old s = Ok (s', f) /\ reads s' (pre ++ field_bytes f) rest.
Proof.
  intros Hr Hk Ho Hf. destruct old, f; try done; cbn [get_one].
  - destruct (read_uint8_reads _ _ _ v v0 Hr Ho Hf) as (s' & -> & Hr'). by exists s'.
  - destruct (read_uint32_reads _ _ _ v v0 Hr Ho Hf) as (s' & -> & Hr'). by exists s'.
  - destruct (read_nonce_reads _ _ _ v v0 Hr Ho Hf) as (s' & -> & Hr'). by exists s'.
  - destruct (get_field_reads _ _ _ b b0 Hr Ho Hf) as (s' & -> & Hr'). by exists s'.
  - destruct (get_field_reads _ _ _ a a0 Hr Ho Hf) as (s' & -> & Hr'). by exists s'.
Qed.

Lemma get_all_reads olds fs s pre rest :
  reads s pre (message_bytes fs ++ rest) -> Forall2 same_kind olds fs -> Forall field_typed olds -> Forall field_valid fs ->
  exists s', get_all olds s = Ok (s', fs) /\ reads s' (pre ++ message_bytes fs) rest.
Proof.
  intros Hr Hk. revert s pre Hr. induction Hk as [|old f olds fs Hk Hks IH]; intros s pre Hr Ho Hf; cbn [get_all].
  - exists s. unfold message_bytes in *. cbn in *. by rewrite app_nil_r.
  - apply Forall_cons in Ho as [Ho Hos]. apply Forall_cons in Hf as [Hf Hfs].
    unfold message_bytes in *. cbn [fmap list_fmap concat] in *. rewrite <- app_assoc in Hr.
    destruct (get_one_reads old f s pre _ Hr Hk Ho Hf) as (s1 & -> & Hr1). cbn [mbind result_bind].
    destruct (IH s1 _ Hr1 Hos Hfs) as (s' & -> & Hr'). exists s'. split; [done|]. by rewrite app_assoc.
Qed.

(** C13. Messages come back.  Any sequence of fields that fits a datagram is written to a packet
    stream without loss and sent as one datagram; a receiver that reads fields of the same
    types, with a buffer that held anything before and into variables of any value, gets the
    same sequence. *)
Theorem message_roundtrip fs olds a (t : torque_socket) s :
  Forall field_valid fs -> blen (message_bytes fs) <= max_datagram_size ->
  Forall2 same_kind olds fs -> Forall field_typed olds -> reused s ->
  exists out d s', put_all fs new_packet_stream = Ok out /\ send_to_socket out a t = Ok (tt, sent a d t) /\
    get_all olds (recv_from s d) = Ok (s', fs).
Proof.
  intros Hf Hl Hk Ho Hs. destruct (put_all_holds fs new_packet_stream [] holds_new Hf Hl) as (out & E & Hh).
  cbn [app] in Hh. pose proof (recv_reads s _ Hs (hd_bytes _ _ Hh) Hl) as Hr. rewrite <- (app_nil_r (message_bytes fs)) in Hr at 2.
  destruct (get_all_reads olds fs _ _ _ Hr Hk Ho Hf) as (s' & E' & _).
  exists out, (message_bytes fs), s'. split; [exact E|]. split; [by apply send_holds | exact E'].
Qed.

(** ** Whatever the stream holds *)
Lemma get_one_total f s :
  stream_ok s -> field_typed f -> exists s' g, get_one f s = Ok (s', g) /\ same_kind f g /\ field_typed g /\
    stream_ok s' /\ bs_base s' = bs_base s /\ bs_bit_end s' = bs_bit_end s.
Proof.
  intros Hs Hf. destruct f as [v|v|v|b|a]; cbn [get_one field_typed] in *.
  - destruct (read_total (A := uint8) s (Scalar v)) as (s' & [w] & ok & E & Hw & Hs'); [done | exact Hf |].
    unfold read_uint8_into, get_field. rewrite E. by exists s', (u8_field w).
  - destruct (read_total (A := uint32) s (Scalar v)) as (s' & [w] & ok & E & Hw & Hs'); [done | exact Hf |].
    unfold read_uint32_into, get_field. rewrite E. by exists s', (u32_field w).
  - destruct (read_total (A := uint64) s (Scalar v)) as (s' & [w] & ok & E & Hw & Hs'); [done | exact Hf |].
    unfold read_nonce_into, get_field. rewrite E. by exists s', (u64_field w).
  - destruct (read_total s b Hs Hf) as (s' & c & ok & E & Hc & Hs'). unfold get_field. rewrite E. by exists s', (buffer_field c).
  - destruct (read_total s a Hs Hf) as (s' & c & ok & E & Hc & Hs'). unfold get_field. rewrite E. by exists s', (address_field c).
Qed.

(** C26. Readers survive any datagram.  Reading fields of any types from a stream in good order,
    whatever it holds and however short it is, never leaves the buffer: it comes to an end
    with values of the right types, the stream in good order and its bytes untouched. *)
Theorem any_message_is_read fs s :
  stream_ok s -> Forall field_typed fs ->
  exists s' gs, get_all fs s = Ok (s', gs) /\ Forall2 same_kind fs gs /\ Forall field_typed gs /\
    stream_ok s' /\ bs_base s' = bs_base s /\ bs_bit_end s' = bs_bit_end s.
Proof.
  revert s. induction fs as [|f fs IH]; intros s Hs Hf; cbn [get_all].
  - exists s, []. split_and!; (done || constructor).
  - apply Forall_cons in Hf as [Hf Hfs]. destruct (get_one_total f s Hs Hf) as (s1 & g & -> & Hk & Hg & Hs1 & Hb1 & He1).
    cbn [mbind result_bind]. destruct (IH s1 Hs1 Hfs) as (s' & gs & -> & Hks & Hgs & Hs' & Hb' & He').
    exists s', (g :: gs). split; [done|]. split; [by constructor|]. split; [by constructor|]. split; [done|]. split; congruence.
Qed.
End messages.

(** ** An example *)
Definition example_fields : list field :=
  [u8_field 3; u64_field 7; buffer_field (byte_buffer.mk [1; 2; 3]); address_field (mk_address 5 80)].
Definition example_variables : list field :=
  [u8_field 0; u64_field 1; buffer_field (byte_buffer.mk []); address_field (mk_address 0 0)].

Lemma message_roundtrip_witness :
  exists out d s', put_all (H := debug_machine) example_fields new_packet_stream = Ok out /\
    send_to_socket (H0 := counter_prng) (H1 := toy_ecc) (H2 := toy_cipher) out client_address (example_socket 3 host_key) =
      Ok (tt, sent client_address d (example_socket 3 host_key)) /\
    get_all example_variables (recv_from new_packet_stream d) = Ok (s', example_fields).
Proof.
  apply (message_roundtrip (H := debug_machine) example_fields example_variables client_address (example_socket 3 host_key)).
  - repeat constructor; cbn; try lia.
  - vm_compute. discriminate.
  - repeat constructor.
  - repeat constructor; cbn; try lia.
  - apply new_stream_reused.
Defined.

Lemma any_message_is_read_witness :
  exists s' gs, get_all (H := debug_machine) example_variables (new_stream [255; 255; 255] 3) = Ok (s', gs) /\
    Forall2 same_kind example_variables gs.
Proof.
  destruct (any_message_is_read (H := debug_machine) example_variables (new_stream [255; 255; 255] 3)) as (s' & gs & E & Hk & _).
  - split; cbn.
    + repeat constructor; lia.
    + vm_compute; split; discriminate.
    + vm_compute; discriminate.
    + vm_compute; reflexivity.
  - repeat constructor; cbn; try lia.
  - exists s', gs. exact (conj E Hk).
Defined.
