(* ===== verification/Introductions.v ===== *)
(** * A third socket introduces two others

    The middleman knows a client and a host that do not know each other.  The application on
    the middleman calls [introduce_connection], those on the two sides [connect_introduced];
    the requests, the introductions and the punch packets that follow are one definition
    each, and [introduction] is the run of all three sockets, with either request first.
    [introduction_connects] composes it with the handshake of Establish.v. *)
From S2P Require Import Prelude Endian BitCopy BitStream StreamIO Address EventQueue Cipher Net Connection Header Exchange Delivery HashTable HashTableSpec HashStream Sha256 BufferUtils Puzzle AsymmetricKey ThreadQueue Pending Connections SocketState Wire Handshake Socket SocketSteps HandshakeSpec RequestSpec Establish Messages.
From stdpp Require Import gmap.
#[local] Open Scope Z_scope.
Import pending.

Notation entries := (list (loc * pending_connection)).
Notation peers := (list (loc * torque_connection)).

Section introductions.
Context `{Machine, Ecc, BlockCipher, Clock}.

(** ** The messages *)
Definition introduction_request (nonce remote_id : Z) (is_initiator : bool) : bytes :=
  u8_img introduced_connection_request_packet ++ u64_img nonce ++ u32_img remote_id ++
  u8_img (if is_initiator then 1 else 0).

Definition introduction_message (nonce remote_id : Z) (remote : address) (initiator_nonce host_nonce : Z) : bytes :=
  u8_img connection_introduction_packet ++ u64_img nonce ++ u32_img remote_id ++ img remote ++
  u64_img initiator_nonce ++ u64_img host_nonce.

Definition punch (initiator_nonce host_nonce : Z) : bytes :=
  u8_img punch_packet ++ u64_img initiator_nonce ++ u64_img host_nonce.

(** ** Peers *)
Record tables (t : torque_socket) (cs cds : peers) : Prop := {
  tb_repr : connections.repr (_connections t) cs cds;
  tb_sane : connections.sane (_connections t);
  tb_indexed : connections.indexed (_connections t) cs
}.

(** Among the connections [cs] is one to [a], with the index [i] and the nonce [n]; no other
    has its address or its index. *)
Definition peer (cs : peers) (a : address) (i n : Z) : Prop :=
  exists cs1 p c cs2, cs = cs1 ++ (p, c) :: cs2 /\
    alone Connection._connection_index c (cs1 ++ cs2) /\ alone Connection._address c (cs1 ++ cs2) /\
    Connection._address c = a /\ Connection._connection_index c = i /\ Connection._initiator_nonce c = n.

Lemma find_peer (t : torque_socket) cs cds a i n :
  tables t cs cds -> peer cs a i n ->
  exists p d, _find_connection i t = Ok (Some p, t) /\ _find_connection_by_address a t = Ok (Some p, t) /\
    conns (conn_deref p) t = Ok (d, t) /\ Connection._address d = a /\ Connection._connection_index d = i /\
    Connection._initiator_nonce d = n.
Proof.
  intros [Hr Hs Hi] (cs1 & p & c & cs2 & -> & A1 & A2 & <- & <- & <-).
  destruct (conn_deref_spec t _ _ _ _ _ Hr) as (d & Ed & Hc). exists p, d.
  rewrite (find_connection_alone t cs1 p c cs2 Hs Hi A1), (find_address_alone t cs1 p c cs2 Hs Hi A2).
  split_and!; try done; by rewrite Hc.
Qed.

(** ** The middleman brokers an introduction *)
Definition introduce_draws : M random_generator (Z * Z) := n ← random_nonce; hn ← random_nonce; mret (n, hn).

Lemma introduce_draws_range r n hn r' : introduce_draws r = Ok ((n, hn), r') -> is_u64 n /\ is_u64 hn.
Proof.
  unfold introduce_draws. destruct (random_nonce_total r) as (v & r1 & E1 & Hv).
  rewrite (bind_step _ _ _ _ _ E1). destruct (random_nonce_total r1) as (w & r2 & E2 & Hw).
  rewrite (bind_step _ _ _ _ _ E2). by intros [= <- <- <-].
Qed.

Definition brokering (i j n hn : Z) (r : random_generator) (t : torque_socket) : torque_socket :=
  with_introductions (_introductions t ++ [mk_introduction n hn i j false false false (clock (clock_reads t))])
    (with_clock_reads (S (clock_reads t)) (with_net (with_random r (_net t)) t)).

Lemma introduce_connection_spec (t : torque_socket) cs cds a i na b j nb n hn r :
  tables t cs cds -> peer cs a i na -> peer cs b j nb ->
  introduce_draws (_random_generator (_net t)) = Ok ((n, hn), r) ->
  introduce_connection i j t = Ok (tt, brokering i j n hn r t).
Proof.
  intros Ht Hi Hj Hd. destruct (find_peer _ _ _ _ _ _ Ht Hi) as (p & c & Ei & _).
  destruct (find_peer _ _ _ _ _ _ Ht Hj) as (q & d & Ej & _). unfold introduce_connection, introduce_draws in *.
  apply M_bind_Ok in Hd as (n' & r1 & E1 & Hd). apply M_bind_Ok in Hd as (hn' & r2 & E2 & Hd). injection Hd as -> -> ->.
  rewrite (bind_step _ _ _ _ _ Ei), (bind_step _ _ _ _ _ Ej). rand_with E1. rand_with E2. done.
Qed.

(** ** Asking for an introduction *)
Definition role (is_host : bool) : pending_connection_type :=
  if is_host then introduced_connection_host else introduced_connection_initiator.

Definition asking_introduction (is_host : bool) (introducer remote_id : Z) (data : bytes) (n sq index : Z) (now : time)
    : pending_connection :=
  start_timer challenge_retry_count challenge_retry_time now
    (with_packet_data (Some (byte_buffer.of_memory data)) (with_remote_client_id remote_id
      (with_introducer introducer (new_pending_connection (role is_host) n sq index)))).

Lemma send_introduction_request_spec (t : torque_socket) p x xs ds cs cds a n is_host :
  repr (_pendings t) ((p, x) :: xs) ds -> tables t cs cds -> peer cs a (_introducer x) n -> is_u64 n ->
  is_u32 (_remote_client_id x) -> _type x = role is_host ->
  _send_introduction_request p t = Ok (tt, sent a (introduction_request n (_remote_client_id x) (negb is_host)) t).
Proof.
  intros Hr Ht Hp Hn Hi Hty. destruct (pend_deref_spec _ [] _ _ _ _ Hr) as (y & E & Hy).
  assert (_introducer y = _introducer x /\ _remote_client_id y = _remote_client_id x /\ _type y = _type x)
    as (Hy1 & Hy2 & Hy3) by (by rewrite Hy).
  destruct (find_peer _ _ _ _ _ _ Ht Hp) as (q & d & Ei & _ & Ed & <- & _ & <-).
  unfold _send_introduction_request. rewrite (bind_step _ _ _ _ _ E), Hy1, Hy2, Hy3, Hty.
  rewrite (bind_step _ _ _ _ _ Ei), (bind_step _ _ _ _ _ Ed).
  assert ((if decide (role is_host = introduced_connection_initiator) then 1 else 0) =
    (if negb is_host then 1 else 0)) as -> by (by destruct is_host).
  assert (is_u8 (if negb is_host then 1 else 0)) by (destruct is_host; split; cbn; lia).
  pose proof holds_new as Hh. unfold packet, write_uint8, write_nonce, write_uint32.
  put_step Hh. put_step Hh. put_step Hh. put_step Hh. rewrite (lift_step _ _ _ _ eq_refl), (send_holds _ _ _ _ Hh).
  unfold introduction_request. by rewrite <- !app_assoc.
Qed.

Lemma connect_introduced_spec is_host introducer remote_id data (t : torque_socket) xs ds cs cds a n sq n0 r :
  repr (_pendings t) xs ds -> tables t cs cds -> peer cs a introducer n -> is_u64 n -> is_u32 remote_id ->
  connect_draws (_random_generator (_net t)) = Ok ((sq, n0), r) ->
  exists l p,
    connect_introduced introducer remote_id is_host (blen data) data t = Ok (_next_connection_index t,
      sent a (introduction_request n remote_id (negb is_host))
        (with_pendings l (with_net (with_random r (_net t)) (with_next_index (u32 (_next_connection_index t + 1)) t)))) /\
    repr l ((p, asking_introduction is_host introducer remote_id data n0 sq (_next_connection_index t)
      (_process_start_time (_net t))) :: xs) ds.
Proof.
  intros Hp Ht Hpe Hn Hi Hd. destruct (find_peer _ _ _ _ _ _ Ht Hpe) as (q & d & Ei & _).
  unfold connect_introduced, connect_draws in *. rewrite (bind_step _ _ _ _ _ Ei).
  apply M_bind_Ok in Hd as (sq' & r1 & E1 & Hd). apply M_bind_Ok in Hd as (n' & r2 & E2 & Hd). injection Hd as -> -> ->.
  rand_with E1. rand_with E2. step_by new_connection_index_spec. step_by (buffer_of_spec data).
  step_by process_start_time_spec. allocate_step Hp p Hfr. add_step Hp.
  match goal with
  | |- context [(_send_introduction_request p ≫= _) ?u] =>
      pose proof (send_introduction_request_spec u p _ xs ds cs cds a n is_host Hp ltac:(destruct Ht; by split) Hpe Hn Hi
        ltac:(by destruct is_host)) as Ec
  end.
  rewrite (bind_step _ _ _ _ _ Ec). exists l0, p. split; [done | exact Hp].
Qed.

(** ** The middleman answers *)
Definition brokers (i j : Z) (r : introduction_record) : bool := (intro_initiator r =? i) && (intro_host r =? j).

Lemma loop_skip i j is_initiator l (t : torque_socket) pre post :
  _introductions t = pre ++ l ++ post -> Forall (fun r => brokers i j r = false) l ->
  introduction_loop (length l) (length pre) i j is_initiator t = Ok (tt, t).
Proof.
  intros Hl Hf. revert pre Hl. induction Hf as [|r l Hr Hf IH]; intros pre Hl; [done|]. cbn [length introduction_loop].
  rewrite gets_bind, Hl. cbn [app]. rewrite list_lookup_middle by done. cbn [of_option]. rewrite (lift_step _ _ _ _ eq_refl).
  unfold brokers in Hr. rewrite Hr, ret_step. replace (S (length pre)) with (length (pre ++ [r])) by (rewrite length_app; cbn; lia).
  apply IH. by rewrite Hl, <- app_assoc.
Qed.

Lemma loop_app i j is_initiator n1 n2 k (t : torque_socket) :
  introduction_loop (n1 + n2) k i j is_initiator t =
    (_ ← introduction_loop n1 k i j is_initiator; introduction_loop n2 (k + n1) i j is_initiator) t.
Proof.
  revert k t. induction n1 as [|n1 IH]; intros k t; [by rewrite Nat.add_0_r|]. cbn [Nat.add introduction_loop].
  unfold mbind, M_bind, gets. destruct (lift _ t) as [[r u]|]; [|done].
  match goal with |- match ?m with _ => _ end = _ => destruct m as [[? v]|]; [|done] end.
  rewrite IH. unfold mbind, M_bind. by rewrite Nat.add_succ_r.
Qed.

Lemma send_introduction_spec (t : torque_socket) cs cds a i na b j nb n hn :
  tables t cs cds -> peer cs a i na -> peer cs b j nb -> address_ok b -> is_u32 j -> is_u64 na -> is_u64 n -> is_u64 hn ->
  _send_introduction i j n hn t = Ok (tt, sent a (introduction_message na j b n hn) t).
Proof.
  intros Ht Hi Hj Hb Hj32 Hna Hn Hhn. destruct (find_peer _ _ _ _ _ _ Ht Hi) as (p & c & Ei & _ & Ec & <- & _ & <-).
  destruct (find_peer _ _ _ _ _ _ Ht Hj) as (q & d & Ej & _ & Ed & <- & _ & _).
  unfold _send_introduction. rewrite (bind_step _ _ _ _ _ Ei), (bind_step _ _ _ _ _ Ej).
  rewrite (bind_step _ _ _ _ _ Ec), (bind_step _ _ _ _ _ Ed). pose proof holds_new as Hh.
  unfold packet, write_uint8, write_nonce, write_uint32.
  put_step Hh. put_step Hh. put_step Hh.
  destruct (put_field_holds _ _ (Connection._address d) Hh (Hb : @valid address address_codec _)) as (out2 & E & Hh2); [side|].
  rewrite E. cbn [mbind result_bind]. clear Hh E. rename Hh2 into Hh.
  put_step Hh. put_step Hh. rewrite (lift_step _ _ _ _ eq_refl), (send_holds _ _ _ _ Hh).
  unfold introduction_message. by rewrite <- !app_assoc.
Qed.

(** Both sides are told, the client first. *)
Definition introducing (a b : address) (i na j nb n hn : Z) (t : torque_socket) : torque_socket :=
  sent b (introduction_message nb i a n hn) (sent a (introduction_message na j b n hn) t).

(** The middleman when it has noted a request: if it is the second it sends the introductions. *)
Definition noted (a b : address) (i na j nb : Z) (r : introduction_record) (pre post : list introduction_record)
    (t : torque_socket) : torque_socket :=
  let t := with_introductions (pre ++ r :: post) t in
  if initiator_request_received r && host_request_received r
  then introducing a b i na j nb (intro_initiator_nonce r) (intro_host_nonce r) t else t.

(** The two sides the middleman knows. *)
Record sides (cs : peers) (a b : address) (i na j nb : Z) : Prop := {
  sd_initiator : peer cs a i na;
  sd_host : peer cs b j nb;
  sd_address : address_ok a /\ address_ok b;
  sd_index : is_u32 i /\ is_u32 j;
  sd_nonce : is_u64 na /\ is_u64 nb
}.

Lemma loop_hit is_initiator (t : torque_socket) cs cds a i na b j nb r pre post :
  tables t cs cds -> sides cs a b i na j nb -> brokers i j r = true -> initial_intro_sent r = false ->
  is_u64 (intro_initiator_nonce r) -> is_u64 (intro_host_nonce r) -> _introductions t = pre ++ r :: post ->
  introduction_loop 1 (length pre) i j is_initiator t =
    Ok (tt, noted a b i na j nb (with_request_received is_initiator r) pre post t).
Proof.
  intros Ht [Hi Hj [Ha Hb] [Hi32 Hj32] [Hna Hnb]] Hr Hs Hn Hhn Hl. cbn [introduction_loop].
  rewrite gets_bind, Hl. cbn [app]. rewrite list_lookup_middle by done. cbn [of_option]. rewrite (lift_step _ _ _ _ eq_refl).
  unfold brokers in Hr. rewrite Hr. apply andb_true_iff in Hr as [Er1%Z.eqb_eq Er2%Z.eqb_eq].
  rewrite (insert_app_r_alt pre), Nat.sub_diag by done. cbn [insert list_insert]. unfold noted. set (r' := with_request_received is_initiator r).
  set (t1 := with_introductions _ t). destruct (initiator_request_received r' && host_request_received r') eqn:Eb; cycle 1.
  { done. }
  unfold mbind at 1, M_bind at 1. unfold mbind at 1, M_bind at 1, modify. fold t1.
  change (initial_intro_sent r') with (initial_intro_sent r). rewrite Hs. cbn [negb].
  unfold send_to_initiator, send_to_host. change (intro_initiator r') with (intro_initiator r).
  change (intro_host r') with (intro_host r). change (intro_initiator_nonce r') with (intro_initiator_nonce r).
  change (intro_host_nonce r') with (intro_host_nonce r). rewrite Er1, Er2.
  rewrite (bind_step _ _ _ _ _ (send_introduction_spec t1 cs cds a i na b j nb _ _ ltac:(by destruct Ht; split) Hi Hj Hb Hj32 Hna Hn Hhn)).
  set (u := sent a _ t1).
  by rewrite (send_introduction_spec u cs cds b j nb a i na _ _ ltac:(by destruct Ht; split) Hj Hi Ha Hi32 Hnb Hn Hhn).
Qed.

Lemma handle_introduction_request_spec (is_initiator : bool) from st (t : torque_socket) cs cds a i na b j nb r pre post :
  let nonce := if is_initiator then na else nb in let remote := if is_initiator then j else i in
  reads st (u8_img introduced_connection_request_packet)
    (u64_img nonce ++ u32_img remote ++ u8_img (if is_initiator then 1 else 0)) ->
  from = (if is_initiator then a else b) ->
  tables t cs cds -> sides cs a b i na j nb -> brokers i j r = true -> initial_intro_sent r = false ->
  is_u64 (intro_initiator_nonce r) -> is_u64 (intro_host_nonce r) -> _introductions t = pre ++ r :: post ->
  Forall (fun r => brokers i j r = false) (pre ++ post) ->
  _handle_introduction_request from st t = Ok (tt, noted a b i na j nb (with_request_received is_initiator r) pre post t).
Proof.
  intros nonce remote Hr -> Ht Hs Hbr Hsent Hn Hhn Hl Hno. pose proof Hs as [Hi Hj _ [Hi32 Hj32] [Hna Hnb]].
  assert (is_u64 nonce) by (by unfold nonce; destruct is_initiator).
  assert (is_u32 remote) by (by unfold remote; destruct is_initiator).
  assert (is_u8 (if is_initiator then 1 else 0)) by (destruct is_initiator; split; cbn; lia).
  unfold _handle_introduction_request, read_nonce, read_uint32, read_uint8. read_step Hr. read_step Hr.
  rewrite <- (app_nil_r (u8_img _)) in Hr. read_step Hr.
  assert (negb ((if is_initiator then 1 else 0) =? 0) = is_initiator) as -> by (by destruct is_initiator).
  assert (Hpe : peer cs (if is_initiator then a else b) (if is_initiator then i else j) nonce)
    by (by unfold nonce; destruct is_initiator).
  destruct (find_peer _ _ _ _ _ _ Ht Hpe) as (p & d & _ & Ef & Ed & _ & Eid & En).
  rewrite (bind_step _ _ _ _ _ Ef), (bind_step _ _ _ _ _ Ed), En, Z.eqb_refl. cbn [negb]. rewrite Eid.
  assert ((if is_initiator then if is_initiator then i else j else remote) = i) as -> by (by unfold remote; destruct is_initiator).
  assert ((if is_initiator then remote else if is_initiator then i else j) = j) as -> by (by unfold remote; destruct is_initiator).
  rewrite gets_bind, Hl, length_app. cbn [length]. apply Forall_app in Hno as [Hno1 Hno2].
  rewrite loop_app. change (S (length post)) with (1 + length post)%nat.
  rewrite (bind_step _ _ _ _ _ (loop_skip i j _ pre t [] (r :: post) Hl Hno1)). cbn [length Nat.add].
  change (S (length post)) with (1 + length post)%nat. rewrite loop_app.
  rewrite (bind_step _ _ _ _ _ (loop_hit is_initiator t cs cds a i na b j nb r pre post Ht Hs Hbr Hsent Hn Hhn Hl)).
  replace (length pre + 1)%nat with (length (pre ++ [with_request_received is_initiator r])) by (rewrite length_app; done).
  apply (loop_skip _ _ _ post _ _ []); [|done]. unfold noted. rewrite app_nil_r, <- app_assoc. by destruct (_ && _).
Qed.

(** ** A side is introduced *)
Definition punching (remote : address) (n hn : Z) (now : time) (x : pending_connection) : pending_connection :=
  start_timer punch_retry_count introduced_connection_connect_timeout now
    (set_state sending_punch_packets (with_possible_addresses (_possible_addresses x ++ [remote])
      (with_host_nonce hn (with_initiator_nonce n x)))).

Lemma send_punch_spec (t : torque_socket) p x xs ds a :
  repr (_pendings t) ((p, x) :: xs) ds -> _possible_addresses x = [a] -> is_u64 (_initiator_nonce x) ->
  is_u64 (_host_nonce x) ->
  _send_punch p t = Ok (tt, sent a (punch (_initiator_nonce x) (_host_nonce x)) t).
Proof.
  intros Hr Ha Hn Hhn. destruct (pend_deref_spec _ [] _ _ _ _ Hr) as (y & E & ->).
  unfold _send_punch. rewrite (bind_step _ _ _ _ _ E). change (_possible_addresses y = [a]) in Ha. rewrite Ha.
  cbn [punch_loop]. pose proof holds_new as Hh. unfold packet, write_uint8, write_nonce.
  change (is_u64 (_initiator_nonce y)) in Hn. change (is_u64 (_host_nonce y)) in Hhn.
  put_step Hh. put_step Hh. put_step Hh. rewrite (lift_step _ _ _ _ eq_refl).
  rewrite (bind_step _ _ _ _ _ (send_holds _ _ _ _ Hh)). unfold punch. by rewrite <- !app_assoc.
Qed.

Lemma handle_introduction_spec mm st (t : torque_socket) p x xs ds cs cds nonce remote_id remote n hn :
  reads st (u8_img connection_introduction_packet)
    (u64_img nonce ++ u32_img remote_id ++ img remote ++ u64_img n ++ u64_img hn) ->
  repr (_pendings t) ((p, x) :: xs) ds -> tables t cs cds -> peer cs mm (_introducer x) nonce ->
  _remote_client_id x = remote_id -> _state x = requesting_introduction -> _possible_addresses x = [] ->
  is_u64 nonce -> is_u32 remote_id -> address_ok remote -> is_u64 n -> is_u64 hn ->
  exists l, _handle_introduction mm st t = Ok (tt, sent remote (punch n hn) (with_pendings l t)) /\
    repr l ((p, punching remote n hn (_process_start_time (_net t)) x) :: xs) ds.
Proof.
  intros Hr Hp Ht Hpe Hid Hst Hpa Hno Hi Hra Hn Hhn.
  destruct (find_peer _ _ _ _ _ _ Ht Hpe) as (q & d & _ & Ef & Ed & _ & Eid & En).
  unfold _handle_introduction, read_nonce, read_uint32. rewrite (bind_step _ _ _ _ _ Ef). read_step Hr.
  assert (Ec : conn_of (Some q) t = Ok (d, t)).
  { unfold conn_of. cbn [of_option]. by rewrite (lift_step _ _ _ _ eq_refl). }
  rewrite (bind_step _ _ _ _ _ Ec), En, Z.eqb_refl. cbn [negb]. read_step Hr.
  destruct (get_field_reads _ _ _ (address_of_name any 0) remote Hr ltac:(by repeat split) Hra) as (s1 & E & Hr1).
  rewrite (lift_step _ _ _ _ E). cbn beta iota. clear Hr E. read_step Hr1.
  rewrite <- (app_nil_r (u64_img hn)) in Hr1. read_step Hr1.
  match goal with |- context [find_pending_where ?f] =>
    assert (Hf : find_pending_where f t = Ok (Some p, t)) end.
  { unfold find_pending_where. rewrite (pend_find_spec _ _ ((p, x) :: xs) ds) by done. unfold find_in. cbn [find snd].
    rewrite Eid, Hid, Hst, !Z.eqb_refl, bool_decide_eq_true_2 by done. done. }
  rewrite (bind_step _ _ _ _ _ Hf). gets_step. change ((p, x) :: xs) with ([] ++ (p, x) :: xs) in Hp. assign_step Hp.
  exists l. split; [|exact Hp].
  match goal with |- _send_punch p ?u = _ =>
    rewrite (send_punch_spec u p _ xs ds remote Hp) by (done || (cbn; by rewrite Hpa)) end.
  done.
Qed.

(** ** A punch arrives *)
Definition punched (n hn : Z) (x : pending_connection) : bool :=
  (_initiator_nonce x =? n) && (_host_nonce x =? hn) && bool_decide (_state x = sending_punch_packets) &&
  bool_decide (_type x = introduced_connection_initiator).

Lemma punched_loop_skip fuel a n hn (t : torque_socket) o xs :
  pchain (heap (_pendings t)) o xs -> Forall (fun e => punched n hn e.2 = false) xs -> (length xs <= fuel)%nat ->
  punched_loop fuel a n hn o t = Ok (tt, t).
Proof.
  intros Hc. revert fuel. induction Hc as [|p x l Hx Hc IH]; intros fuel Hf Hl; [by destruct fuel|].
  destruct fuel as [|fuel]; [cbn in Hl; lia|]. apply Forall_cons in Hf as [Hp Hf]. cbn [punched_loop].
  assert (E : pend (pend_deref p) t = Ok (x, t)).
  { unfold pend, zoom, pend_deref. rewrite Hx. cbn. by rewrite with_pendings_id. }
  change (punched n hn x = false) in Hp. unfold punched in Hp. rewrite (bind_step _ _ _ _ _ E), Hp, ret_step.
  rewrite (bind_step _ _ _ _ _ E). apply IH; [done | cbn in Hl; lia].
Qed.

Lemma handle_punch_ignored a st (t : torque_socket) xs ds n hn :
  reads st (u8_img punch_packet) (u64_img n ++ u64_img hn) -> is_u64 n -> is_u64 hn ->
  repr (_pendings t) xs ds -> Forall (fun e => punched n hn e.2 = false) xs ->
  _handle_punch a st t = Ok (tt, t).
Proof.
  intros Hr Hn Hhn [Hc Hnd _ _ _] Hf. unfold _handle_punch, read_nonce. read_step Hr.
  rewrite <- (app_nil_r (u64_img hn)) in Hr. read_step Hr. rewrite gets_bind.
  apply (punched_loop_skip _ _ _ _ _ _ xs Hc Hf). apply list.NoDup_app in Hnd as (Hnd & _ & _). by eapply pchain_size.
Qed.

(** The client asks the address the punch came from for a challenge. *)
Definition punched_through (a : address) (now : time) (x : pending_connection) : pending_connection :=
  start_timer challenge_retry_count challenge_retry_time now (set_address a (set_state requesting_challenge_response x)).

Lemma handle_punch_spec a st (t : torque_socket) p x xs ds n hn :
  reads st (u8_img punch_packet) (u64_img n ++ u64_img hn) -> is_u64 n -> is_u64 hn ->
  repr (_pendings t) ((p, x) :: xs) ds -> punched n hn x = true -> Forall (fun e => punched n hn e.2 = false) xs ->
  exists l, _handle_punch a st t = Ok (tt, sent a (challenge_request n hn) (with_pendings l t)) /\
    repr l ((p, punched_through a (_process_start_time (_net t)) x) :: xs) ds.
Proof.
  intros Hr Hn Hhn Hp Hx Hf. unfold _handle_punch, read_nonce. read_step Hr.
  rewrite <- (app_nil_r (u64_img hn)) in Hr. read_step Hr. rewrite gets_bind.
  pose proof Hp as [Hc Hnd _ _ _]. apply list.NoDup_app in Hnd as (Hnd & _ & _).
  pose proof (pchain_size _ _ _ Hc Hnd) as Hsize. cbn [length] in Hsize.
  destruct (base.size (heap (_pendings t))) as [|fuel]; [lia|].
  apply pchain_cons_inv in Hc as (y & -> & Hy & Exy & _). cbn [punched_loop].
  assert (E : pend (pend_deref p) t = Ok (y, t)).
  { unfold pend, zoom, pend_deref. rewrite Hy. cbn. by rewrite with_pendings_id. }
  assert (Hxy : punched n hn y = true) by (by rewrite <- Hx, Exy).
  rewrite (bind_step _ _ _ _ _ E). unfold punched in Hxy. rewrite Hxy.
  unfold punched in Hx. rewrite !andb_true_iff, !Z.eqb_eq in Hx. destruct Hx as [[[Exn Exh] _] _].
  change ((p, x) :: xs) with ([] ++ (p, x) :: xs) in Hp.
  match goal with |- context [(?body ≫= ?k) t] =>
    assert (Eb : exists l, body t = Ok (tt, sent a (challenge_request n hn) (with_pendings l t)) /\
      repr l ((p, punched_through a (_process_start_time (_net t)) x) :: xs) ds) end.
  { gets_step. assign_step Hp. exists l. split; [|exact Hp].
    match goal with |- _send_challenge_request p ?u = _ =>
      rewrite (send_challenge_request_spec u [] p _ xs ds Hp) end.
    - by rewrite <- Exn, <- Exh.
    - change (is_u64 (_initiator_nonce x)). by rewrite Exn.
    - change (is_u64 (_host_nonce x)). by rewrite Exh. }
  destruct Eb as (l & Eb & Hl). rewrite (bind_step _ _ _ _ _ Eb). exists l. split; [|exact Hl].
  destruct Hl as [Hcl _ _ _ _]. apply pchain_cons_inv in Hcl as (z & _ & Hz & _ & Hcz).
  set (u := sent a (challenge_request n hn) (with_pendings l t)).
  assert (E' : pend (pend_deref p) u = Ok (z, u)).
  { unfold pend, zoom, pend_deref. cbn. rewrite Hz. done. }
  cbn beta. fold u. rewrite (bind_step _ _ _ _ _ E'). apply (punched_loop_skip _ _ _ _ u _ xs Hcz Hf). lia.
Qed.

(** ** The network *)

(** The last datagram [t] sent to [a], and its arrival. *)
Definition last_to (a : address) (t : torque_socket) : option bytes :=
  snd <$> last (filter (fun m => m.1 = a) (udp_sent (_net t))).

Definition carry (from to : address) (src dst : torque_socket) : result torque_socket :=
  d ← of_option null_deref (last_to to src);
  '(_, dst) ← deliver from d dst;
  Ok dst.

Lemma carry_last from to (src dst : torque_socket) d :
  last_to to src = Some d -> carry from to src dst = ('(_, dst) ← deliver from d dst; Ok dst).
Proof. unfold carry. by intros ->. Qed.

Lemma last_to_sent a d (t : torque_socket) : last_to a (sent a d t) = Some d.
Proof. unfold last_to. cbn. by rewrite filter_app, filter_cons_True, filter_nil, last_snoc by done. Qed.

Lemma last_to_other a b d (t : torque_socket) : a <> b -> last_to a (sent b d t) = last_to a t.
Proof. intros Hab. unfold last_to. cbn. rewrite filter_app, filter_cons_False, filter_nil, app_nil_r; [done|]. cbn. congruence. Qed.

(** A datagram in the program's own format reaches the handler of its type. *)
Lemma carry_dispatch from to (src dst : torque_socket) ty rest :
  last_to to src = Some (u8_img ty ++ rest) -> is_bytes rest -> blen (u8_img ty ++ rest) <= max_datagram_size ->
  0 <= ty < 128 ->
  exists st, reads st (u8_img ty) rest /\
    carry from to src dst = ('(_, dst) ← dispatch_packet ty from st dst; Ok dst).
Proof.
  intros Hl Hb Hs Ht. rewrite (carry_last _ _ _ _ _ Hl).
  destruct (deliver_spec from ty (u8_img ty ++ rest) rest dst eq_refl Hb Hs Ht) as (st & Hr & ->). by exists st.
Qed.

(** ** The run *)

(** The two requests arrive at the middleman in either order. *)
Definition requests (client_first : bool) (mm a b : address) (m c h : torque_socket) : result torque_socket :=
  if client_first then m ← carry a mm c m; carry b mm h m
  else m ← carry b mm h m; carry a mm c m.

(** The middleman at [mm] knows the client at [a] as [i] and the host at [b] as [j]; they know
    the middleman as [ci] and [hi].  The result has the index of the client's connection. *)
Definition introduction (client_first : bool) (mm a b : address) (i j ci hi : Z) (data hdata : bytes)
    (m c h : torque_socket) : result (torque_socket * torque_socket * torque_socket * Z) :=
  '(_, m) ← introduce_connection i j m;
  '(id, c) ← connect_introduced ci j false (blen data) data c;
  '(_, h) ← connect_introduced hi i true (blen hdata) hdata h;
  m ← requests client_first mm a b m c h;
  h ← carry mm b m h;
  c ← carry mm a m c;
  h ← carry a b c h;
  c ← carry b a h c;
  Ok (m, c, h, id).

(** A side that can be introduced. *)
Record introducible (t : torque_socket) (mm : address) (introducer nonce n hn sq : Z) (xs ds : entries) (cs cds : peers)
    (evs : list torque_socket_event) : Prop := {
  in_hosts : hosts t xs ds cs cds evs;
  in_indexed : connections.indexed (_connections t) cs;
  in_peer : peer cs mm introducer nonce;
  in_draws : exists n0 r, connect_draws (_random_generator (_net t)) = Ok ((sq, n0), r);
  in_others : Forall (fun e => punched n hn e.2 = false) xs
}.

Lemma introducible_tables t mm introducer nonce n hn sq xs ds cs cds evs :
  introducible t mm introducer nonce n hn sq xs ds cs cds evs -> tables t cs cds.
Proof. intros [[] ? _ _ _]. by split. Qed.

(** What a side keeps through its introduction. *)
Record same_setup (t t' : torque_socket) : Prop := {
  ss_connections : _connections t' = _connections t;
  ss_events : _event_queue (_net t') = _event_queue (_net t);
  ss_key : SocketState._private_key t' = SocketState._private_key t;
  ss_challenge : _challenge_response t' = _challenge_response t;
  ss_manager : _puzzle_manager t' = _puzzle_manager t;
  ss_solver : _puzzle_solver t' = _puzzle_solver t;
  ss_hash : _random_hash_data t' = _random_hash_data t;
  ss_allow : _allow_connections t' = _allow_connections t;
  ss_time : _process_start_time (_net t') = _process_start_time (_net t)
}.

Lemma same_setup_hosts t t' xs ds cs cds evs xs' :
  same_setup t t' -> hosts t xs ds cs cds evs -> repr (_pendings t') xs' ds -> hosts t' xs' ds cs cds evs.
Proof. intros [Hc He _ _ _ _ _ _ _] [_ ? ? ? ?] Hp. by split; rewrite ?Hc, ?He. Qed.

(** One side: the request goes out, and the introduction comes back. *)
Definition waiting (is_host : bool) (introducer remote_id : Z) (remote : address) (data : bytes) (n hn n0 sq : Z)
    (t : torque_socket) : pending_connection :=
  punching remote n hn (_process_start_time (_net t)) (asking_introduction is_host introducer remote_id data n0 sq
    (_next_connection_index t) (_process_start_time (_net t))).

Lemma asks_for_introduction is_host introducer remote_id data (t : torque_socket) mm nonce n hn sq xs ds cs cds evs :
  introducible t mm introducer nonce n hn sq xs ds cs cds evs -> is_u64 nonce -> is_u32 remote_id ->
  exists u p n0,
    connect_introduced introducer remote_id is_host (blen data) data t = Ok (_next_connection_index t, u) /\
    last_to mm u = Some (introduction_request nonce remote_id (negb is_host)) /\
    repr (_pendings u) ((p, asking_introduction is_host introducer remote_id data n0 sq (_next_connection_index t)
      (_process_start_time (_net t))) :: xs) ds /\
    same_setup t u /\ _next_connection_index u = u32 (_next_connection_index t + 1).
Proof.
  intros Hin Hn Hid. pose proof (introducible_tables _ _ _ _ _ _ _ _ _ _ _ _ Hin) as Ht.
  destruct Hin as [[Hp _ _ _ _] _ Hpe (n0 & r & Hd) _].
  destruct (connect_introduced_spec is_host introducer remote_id data t xs ds cs cds mm nonce sq n0 r Hp Ht Hpe Hn Hid Hd)
    as (l & p & E & Hl).
  eexists _, p, n0. split; [exact E|]. split; [apply last_to_sent|]. split; [exact Hl|]. by split.
Qed.

Lemma is_introduced mm a (m t : torque_socket) is_host introducer remote_id remote data nonce n hn n0 sq p xs ds cs cds index now :
  last_to a m = Some (introduction_message nonce remote_id remote n hn) ->
  repr (_pendings t) ((p, asking_introduction is_host introducer remote_id data n0 sq index now) :: xs) ds ->
  tables t cs cds -> peer cs mm introducer nonce -> is_u64 nonce -> is_u32 remote_id -> address_ok remote ->
  is_u64 n -> is_u64 hn ->
  exists u, carry mm a m t = Ok u /\ last_to remote u = Some (punch n hn) /\
    repr (_pendings u) ((p, punching remote n hn (_process_start_time (_net t))
      (asking_introduction is_host introducer remote_id data n0 sq index now)) :: xs) ds /\
    same_setup t u /\ _next_connection_index u = _next_connection_index t.
Proof.
  intros Hm Hp Ht Hpe Hno Hid Hre Hn Hhn.
  destruct (carry_dispatch mm a m t connection_introduction_packet _ Hm) as (st & Hr & ->); [| | done |].
  { repeat (apply Forall_app; split); apply is_bytes_le_bytes. }
  { cbn [img scalar_image address_image]. by rewrite !blen_app, !blen_le_bytes. }
  destruct (handle_introduction_spec mm st t p _ xs ds cs cds nonce remote_id remote n hn Hr Hp Ht Hpe) as (l & E & Hl);
    try done; [by destruct is_host|].
  change (dispatch_packet connection_introduction_packet mm st t) with (_handle_introduction mm st t). rewrite E.
  eexists. split; [done|]. split; [apply last_to_sent|]. split; [exact Hl|]. by split.
Qed.

(** The middleman: each request is noted, the second starts the introduction. *)
Lemma request_arrives (is_initiator : bool) mm from (src t : torque_socket) cs cds a i na b j nb r pre :
  last_to mm src = Some (introduction_request (if is_initiator then na else nb) (if is_initiator then j else i) is_initiator) ->
  from = (if is_initiator then a else b) -> tables t cs cds -> sides cs a b i na j nb -> brokers i j r = true ->
  initial_intro_sent r = false -> is_u64 (intro_initiator_nonce r) -> is_u64 (intro_host_nonce r) ->
  _introductions t = pre ++ [r] -> Forall (fun r => brokers i j r = false) pre ->
  carry from mm src t = Ok (noted a b i na j nb (with_request_received is_initiator r) pre [] t).
Proof.
  intros Hl Hfrom Ht Hs Hbr Hsent Hn Hhn Hi Hno.
  destruct (carry_dispatch from mm src t introduced_connection_request_packet _ Hl) as (st & Hr & ->); [| | done |].
  { repeat (apply Forall_app; split); apply is_bytes_le_bytes. }
  { cbn [img scalar_image]. by rewrite !blen_app, !blen_le_bytes. }
  change (dispatch_packet introduced_connection_request_packet from st t) with (_handle_introduction_request from st t).
  rewrite (handle_introduction_request_spec is_initiator from st t cs cds a i na b j nb r pre []); try done.
  by rewrite app_nil_r.
Qed.

Lemma requests_spec client_first mm a b i na j nb n hn (m c h : torque_socket) cs cds r :
  tables m cs cds -> sides cs a b i na j nb -> is_u64 n -> is_u64 hn ->
  Forall (fun r => brokers i j r = false) (_introductions m) ->
  last_to mm c = Some (introduction_request na j true) -> last_to mm h = Some (introduction_request nb i false) ->
  exists t, requests client_first mm a b (brokering i j n hn r m) c h = Ok (introducing a b i na j nb n hn t).
Proof.
  intros Ht Hs Hn Hhn Hno Hc Hh. unfold requests.
  assert (Hb : forall x y z w, brokers i j (mk_introduction n hn i j x y z w) = true)
    by (intros; unfold brokers; cbn; by rewrite !Z.eqb_refl).
  assert (Hm : tables (brokering i j n hn r m) cs cds) by (by destruct Ht).
  set (rec := mk_introduction n hn i j false false false (clock (clock_reads m))).
  destruct client_first.
  - rewrite (request_arrives true mm a c _ cs cds a i na b j nb _ _ Hc eq_refl Hm Hs (Hb _ _ _ _) eq_refl Hn Hhn eq_refl Hno).
    cbn [mbind result_bind]. eexists.
    exact (request_arrives false mm b h (with_introductions (_introductions m ++ [with_request_received true rec]) (brokering i j n hn r m))
      cs cds a i na b j nb _ _ Hh eq_refl ltac:(by destruct Ht) Hs (Hb _ _ _ _) eq_refl Hn Hhn eq_refl Hno).
  - rewrite (request_arrives false mm b h _ cs cds a i na b j nb _ _ Hh eq_refl Hm Hs (Hb _ _ _ _) eq_refl Hn Hhn eq_refl Hno).
    cbn [mbind result_bind]. eexists.
    exact (request_arrives true mm a c (with_introductions (_introductions m ++ [with_request_received false rec]) (brokering i j n hn r m))
      cs cds a i na b j nb _ _ Hc eq_refl ltac:(by destruct Ht) Hs (Hb _ _ _ _) eq_refl Hn Hhn eq_refl Hno).
Qed.

(** The punch packets: the host ignores the client's, the client asks for a challenge. *)
Lemma punch_ignored a b (c h : torque_socket) xs ds n hn :
  last_to b c = Some (punch n hn) -> is_u64 n -> is_u64 hn ->
  repr (_pendings h) xs ds -> Forall (fun e => punched n hn e.2 = false) xs -> carry a b c h = Ok h.
Proof.
  intros Hl Hn Hhn Hp Hf. destruct (carry_dispatch a b c h punch_packet _ Hl) as (st & Hr & ->); [| done | done |].
  { repeat (apply Forall_app; split); apply is_bytes_le_bytes. }
  change (dispatch_packet punch_packet a st h) with (_handle_punch a st h).
  by rewrite (handle_punch_ignored a st h xs ds n hn).
Qed.

Lemma punch_answered a b (c h : torque_socket) p x xs ds n hn :
  last_to a h = Some (punch n hn) -> is_u64 n -> is_u64 hn -> repr (_pendings c) ((p, x) :: xs) ds ->
  punched n hn x = true -> Forall (fun e => punched n hn e.2 = false) xs ->
  exists u, carry b a h c = Ok (sent b (challenge_request n hn) u) /\
    repr (_pendings u) ((p, punched_through b (_process_start_time (_net c)) x) :: xs) ds /\ same_setup c u /\
    _next_connection_index u = _next_connection_index c.
Proof.
  intros Hl Hn Hhn Hp Hx Hf. destruct (carry_dispatch b a h c punch_packet _ Hl) as (st & Hr & ->); [| done | done |].
  { repeat (apply Forall_app; split); apply is_bytes_le_bytes. }
  destruct (handle_punch_spec b st c p x xs ds n hn Hr Hn Hhn Hp Hx Hf) as (l & E & Hl').
  change (dispatch_packet punch_packet b st c) with (_handle_punch b st c). rewrite E.
  eexists. split; [done|]. split; [exact Hl'|]. by split.
Qed.

Lemma same_setup_trans t u v : same_setup t u -> same_setup u v -> same_setup t v.
Proof. intros [] []. split; congruence. Qed.

Lemma same_setup_tables t u cs cds : same_setup t u -> tables t cs cds -> tables u cs cds.
Proof. intros [E _ _ _ _ _ _ _ _] []. by split; rewrite E. Qed.

(** The middleman is told to introduce the sides [i] and [j] and draws the nonces of the two. *)
Record introduces (m : torque_socket) (a b : address) (i na j nb n hn : Z) (cs cds : peers) : Prop := {
  it_tables : tables m cs cds;
  it_sides : sides cs a b i na j nb;
  it_distinct : a <> b;
  it_draws : exists r, introduce_draws (_random_generator (_net m)) = Ok ((n, hn), r);
  it_first : Forall (fun r => brokers i j r = false) (_introductions m)
}.

(** The whole introduction: the client has asked the host for a challenge. *)
Lemma introduction_spec client_first mm a b i na j nb ci hi n hn sq hsq data hdata (m c h : torque_socket)
    mcs mcds xs ds cxs cds evs hxs hds hcxs hcds hevs :
  introduces m a b i na j nb n hn mcs mcds ->
  introducible c mm ci na n hn sq xs ds cxs cds evs -> introducible h mm hi nb n hn hsq hxs hds hcxs hcds hevs ->
  exists m' c' h' p q n0 hn0,
    let x := punched_through b (_process_start_time (_net c)) (waiting false ci j b data n hn n0 sq c) in
    introduction client_first mm a b i j ci hi data hdata m c h =
      Ok (m', sent b (challenge_request n hn) c', h', _next_connection_index c) /\
    repr (_pendings c') ((p, x) :: xs) ds /\ same_setup c c' /\
    repr (_pendings h') ((q, waiting true hi i a hdata n hn hn0 hsq h) :: hxs) hds /\ same_setup h h' /\
    _next_connection_index h' = u32 (_next_connection_index h + 1).
Proof.
  intros [Hmt Hs Hab [r Hd] Hno] Hc Hh. pose proof (introduce_draws_range _ _ _ _ Hd) as [Hn Hhn].
  pose proof Hs as [Hi Hj [Ha Hb] [Hi32 Hj32] [Hna Hnb]].
  destruct (asks_for_introduction false ci j data c mm na n hn sq xs ds cxs cds evs Hc Hna Hj32)
    as (c1 & p & n0 & E1 & Hl1 & Hp1 & S1 & _).
  destruct (asks_for_introduction true hi i hdata h mm nb n hn hsq hxs hds hcxs hcds hevs Hh Hnb Hi32)
    as (h1 & q & hn0 & E2 & Hl2 & Hp2 & S2 & X2).
  destruct (requests_spec client_first mm a b i na j nb n hn m c1 h1 mcs mcds r Hmt Hs Hn Hhn Hno Hl1 Hl2) as (t & E3).
  set (m3 := introducing a b i na j nb n hn t) in *.
  assert (Hl3 : last_to b m3 = Some (introduction_message nb i a n hn)) by apply last_to_sent.
  assert (Hl3' : last_to a m3 = Some (introduction_message na j b n hn))
    by (unfold m3, introducing; rewrite last_to_other by done; apply last_to_sent).
  destruct (is_introduced mm b m3 h1 true hi i a hdata nb n hn hn0 hsq q hxs hds hcxs hcds _ _ Hl3 Hp2
    (same_setup_tables _ _ _ _ S2 (introducible_tables _ _ _ _ _ _ _ _ _ _ _ _ Hh)) (in_peer _ _ _ _ _ _ _ _ _ _ _ _ Hh)
    Hnb Hi32 Ha Hn Hhn) as (h2 & E4 & Hl4 & Hp4 & S4 & X4).
  destruct (is_introduced mm a m3 c1 false ci j b data na n hn n0 sq p xs ds cxs cds _ _ Hl3' Hp1
    (same_setup_tables _ _ _ _ S1 (introducible_tables _ _ _ _ _ _ _ _ _ _ _ _ Hc)) (in_peer _ _ _ _ _ _ _ _ _ _ _ _ Hc)
    Hna Hj32 Hb Hn Hhn) as (c2 & E5 & Hl5 & Hp5 & S5 & X5).
  rewrite (ss_time _ _ S1) in Hp5. rewrite (ss_time _ _ S2) in Hp4.
  assert (E6 : carry a b c2 h2 = Ok h2).
  { eapply punch_ignored; [exact Hl5 | done | done | exact Hp4|]. constructor; [|by destruct Hh].
    unfold punched. cbn. by rewrite !andb_false_r. }
  destruct (punch_answered a b c2 h2 p _ xs ds n hn Hl4 Hn Hhn Hp5) as (c3 & E7 & Hp7 & S7 & X7); [| by destruct Hc |].
  { unfold punched. cbn. by rewrite !Z.eqb_refl. }
  rewrite (ss_time _ _ (same_setup_trans _ _ _ S1 S5)) in Hp7.
  exists m3, c3, h2, p, q, n0, hn0. unfold introduction.
  rewrite (introduce_connection_spec m mcs mcds a i na b j nb n hn r Hmt Hi Hj Hd). cbn [mbind result_bind].
  rewrite E1. cbn [mbind result_bind]. rewrite E2. cbn [mbind result_bind]. rewrite E3. cbn [mbind result_bind].
  rewrite E4. cbn [mbind result_bind]. rewrite E5. cbn [mbind result_bind]. rewrite E6. cbn [mbind result_bind].
  rewrite E7. cbn [mbind result_bind]. split; [done|]. split; [exact Hp7|].
  split; [by eapply same_setup_trans, same_setup_trans|]. split; [exact Hp4|].
  split; [by eapply same_setup_trans | congruence].
Qed.

(** ** The introduction and the handshake *)
Lemma ready_after_introduction `{!EccLaws} fuel a n (c c' h h' : torque_socket) ck hk ce he rdata hxs hcxs sol q x :
  same_setup c c' -> same_setup h h' -> ready_to_connect fuel a n c h ck hk ce he rdata hxs hcxs sol ->
  address_eqb (_address x) a = false -> expected_by n x = false ->
  ready_to_connect fuel a n c' h' ck hk ce he rdata ((q, x) :: hxs) hcxs sol.
Proof.
  intros [_ _ K1 _ _ S1 _ _ _] [C2 _ K2 R2 M2 _ D2 A2 _] [Hk Hp Hi Hhp Hs Ha Hf Hz] Hxa Hxe.
  split; rewrite ?K1, ?S1, ?M2, ?D2; try done.
  - destruct Ha. split; rewrite ?K2, ?R2, ?M2; done.
  - destruct Hf. split; rewrite ?C2, ?A2, ?M2; try done; unfold find_in in *; cbn [find snd]; by rewrite ?Hxa, ?Hxe.
Qed.

Lemma gained_setup t u v xs ds cxs cds p c evs :
  same_setup t u -> gained u v xs ds cxs cds p c evs -> gained t v xs ds cxs cds p c evs.
Proof. intros [E _ _ _ _ _ _ _ _] [? ? ? Hi ?]. split; try done. by rewrite <- E. Qed.

(** C2. An introduction connects two sockets.  A middleman is connected to a client and to a
    host, which do not know each other.  It is told to introduce them, both ask for it, and
    their requests arrive in either order; then the datagrams the three sockets send - requests,
    introductions, punch packets, challenge, connect request, acceptance - lead to a connection
    between the client and the host, as if the client had called [connect] with the address
    the middleman sees the host at.  The one difference is what the host keeps: the record of
    the introduction, which is still sending punch packets, beside the connection itself. *)
Theorem introduction_connects `{!EccLaws} fuel client_first mm a b i na j nb ci hi n hn sq hsq data hdata (m c h : torque_socket)
    mcs mcds xs ds cxs cds evs hxs hds hcxs hcds hevs ck ce hk he rdata sol :
  introduces m a b i na j nb n hn mcs mcds ->
  introducible c mm ci na n hn sq xs ds cxs cds evs -> introducible h mm hi nb n hn hsq hxs hds hcxs hcds hevs ->
  ready_to_connect fuel a n c h ck hk ce he rdata hxs hcxs sol ->
  is_bytes data -> blen data <= 1024 -> a <> address_of_name any 0 -> hn <> indeterminate ->
  exists m1 c1 h1 c' h' cp hp cc hc hsq' q x,
    let cid := _next_connection_index c in
    let hid := u32 (_next_connection_index h + 1) in
    introduction client_first mm a b i j ci hi data hdata m c h = Ok (m1, c1, h1, cid) /\
    establish_phase fuel a b cid c1 h1 = Ok (c', h') /\
    gained c c' xs ds cxs cds cp cc
      (evs ++ [keyed_event torque_connection_challenge_response_event_type cid (public_of hk he) rdata;
        established_event cid]) /\
    gained h h' ((q, x) :: hxs) hds hcxs hcds hp hc
      (hevs ++ [keyed_event torque_connection_requested_event_type hid (public_of ck ce) (byte_buffer.mk data);
        established_event hid]) /\
    (_type x = introduced_connection_host /\ _state x = sending_punch_packets /\
      _connection_index x = _next_connection_index h) /\
    mirrored a b cc hc /\
    connected sq hsq' (endpoint_of cc c') /\ connected hsq' sq (endpoint_of hc h').
Proof.
  intros Hm Hc Hh Hr Hdata Hlen Ha Hhn.
  destruct (introduction_spec client_first mm a b i na j nb ci hi n hn sq hsq data hdata m c h mcs mcds xs ds cxs cds evs
    hxs hds hcxs hcds hevs Hm Hc Hh) as (m1 & c1 & h1 & p & q & n0 & hn0 & E1 & Hp & S1 & Hq & S2 & X2).
  destruct Hm as [_ _ _ [r Hd] _]. pose proof (introduce_draws_range _ _ _ _ Hd) as [Hn _].
  destruct Hc as [Hch _ _ [n1 [r1 Hcd]] _]. destruct Hh as [Hhh _ _ _ _].
  destruct (connect_draws_total (_random_generator (_net c))) as (sq' & n1' & r1' & Hdr & Hsq & _).
  rewrite Hcd in Hdr. injection Hdr as <- <- <-.
  destruct (establish_phase_spec fuel a b (byte_buffer.mk data) c1 (sent b (challenge_request n hn) c1) h1 ck ce hk he rdata p
    (punched_through b (_process_start_time (_net c)) (waiting false ci j b data n hn n0 sq c)) xs ds cxs cds evs
    ((q, waiting true hi i a hdata n hn hn0 hsq h) :: hxs) hds hcxs hcds hevs sq n hn sol eq_refl)
    as (c' & h' & cp & hp & cc & hc & hsq' & E2 & Gc & Gh & Hrest).
  - eapply same_setup_hosts; [|exact Hch | exact Hp]. by destruct S1.
  - split; try done; try apply u32_range. by pose proof (introduce_draws_range _ _ _ _ Hd) as [_ ?].
  - done.
  - done.
  - done.
  - done.
  - by eapply same_setup_hosts.
  - eapply (ready_after_introduction fuel a n c _ h h1); [by destruct S1 | exact S2 | exact Hr | |].
    + apply not_true_iff_false. rewrite address_eqb_spec. intros Hx. by apply Ha.
    + unfold expected_by. cbn. apply not_eq_sym, Z.eqb_neq in Hhn. by rewrite Hhn, !andb_false_r.
  - exists m1, (sent b (challenge_request n hn) c1), h1, c', h', cp, hp, cc, hc, hsq', q,
      (waiting true hi i a hdata n hn hn0 hsq h).
    rewrite X2 in *. split; [exact E1|]. split; [exact E2|].
    split; [eapply gained_setup; [|exact Gc]; by destruct S1|]. split; [by eapply gained_setup|]. by split.
Qed.
End introductions.

(** ** An example: three sockets that have just been made. *)
Section example.
#[local] Existing Instance debug_machine.

(** A socket that has connected to [a]: the connection has the index [i], the last one given
    away, and the nonce [n]. *)
Definition acquaintance (a : address) (i n : Z) : @torque_connection toy_cipher :=
  with_peer a None 0 (new_torque_connection n 0 i true).
Definition greet (a : address) (i n : Z) (t : @torque_socket counter_prng toy_ecc toy_cipher) : torque_socket :=
  match (p ← conns (connections.allocate (acquaintance a i n)); conns (connections._add_connection p)) t with
  | Ok (_, t) => with_next_index (i + 1) t
  | Fault _ => t
  end.

Lemma greet_spec a i n t xs ds cs evs :
  hosts t xs ds cs [] evs -> connections.indexed (_connections t) cs ->
  exists p ct, greet a i n t = with_next_index (i + 1) (with_connections ct t) /\
    (connections.room ct -> hosts (greet a i n t) xs ds ((p, connections.unlinked (acquaintance a i n)) :: cs) [] evs) /\
    connections.indexed ct ((p, connections.unlinked (acquaintance a i n)) :: cs).
Proof.
  intros [Hp Hc Hs Hm Hq] Hi. destruct (conns_allocate_spec (acquaintance a i n) t cs [] Hc) as (p & ct & E1 & Hr1 & Ht & _).
  destruct (conns_add_spec p (acquaintance a i n) (with_connections ct t) cs [] Hr1 (same_tables_sane _ _ Ht Hs)
    (same_tables_room _ _ Ht Hm)) as (ct' & E2 & Hr2 & Hs2 & Hi2).
  exists p, ct'. unfold greet. rewrite (bind_step _ _ _ _ _ E1), E2. split; [done|].
  split; [by split | by apply Hi2, (same_tables_indexed _ _ _ Ht)].
Qed.

Definition middleman_address : address := mk_address 0x0A000003 6000.
Definition introducing_clock : Clock := {| clock := fun n => 1000 |}.
#[local] Existing Instance introducing_clock.
Definition example_middleman : torque_socket :=
  greet host_address 2 22 (greet client_address 1 11 (example_socket 9 host_key)).
Definition example_client : torque_socket := greet middleman_address 1 11 (example_socket 5 client_key).
Definition example_host : torque_socket := greet middleman_address 1 22 (example_socket 3 host_key).
Definition introduced_nonces : Z * Z := (11137266060588439629, 13813852455597276530).

Lemma example_alone {K} (key : torque_connection -> K) c p (d : @torque_connection toy_cipher) :
  key d <> key c -> alone key c [(p, d)].
Proof. by intros Hk q e [= -> ->]%list_elem_of_singleton. Qed.
Lemma example_sole {K} (key : torque_connection -> K) (c : @torque_connection toy_cipher) : alone key c [].
Proof. intros q e Hq. by apply not_elem_of_nil in Hq. Qed.

Lemma example_introduces :
  exists cs, introduces example_middleman client_address host_address 1 11 2 22 introduced_nonces.1 introduced_nonces.2 cs [].
Proof.
  destruct (greet_spec client_address 1 11 (example_socket 9 host_key) [] [] [] [] (example_hosts 9 _)
    (proj2 connections.empty_indexed)) as (p & ct & E1 & Hh1 & Hi1).
  rewrite <- (f_equal _connections E1 : _ = ct) in Hh1, Hi1. specialize (Hh1 ltac:(split; vm_compute; reflexivity)).
  destruct (greet_spec host_address 2 22 _ [] [] _ [] Hh1 Hi1) as (q & ct2 & E2 & Hh2 & Hi2).
  rewrite <- (f_equal _connections E2 : _ = ct2) in Hh2, Hi2. specialize (Hh2 ltac:(split; vm_compute; reflexivity)).
  fold example_middleman in Hh2, Hi2. eexists. split.
  - destruct Hh2. split; [done | done | exact Hi2].
  - split; [| | repeat split; vm_compute; done | repeat split; vm_compute; done | repeat split; vm_compute; done].
    + eexists [_], p, _, []. split; [reflexivity|]. cbn [app]. split_and!; [apply example_alone; vm_compute; discriminate .. | reflexivity | reflexivity | reflexivity].
    + eexists [], q, _, [_]. split; [reflexivity|]. cbn [app]. split_and!; [apply example_alone; vm_compute; discriminate .. | reflexivity | reflexivity | reflexivity].
  - done.
  - eexists. vm_compute. reflexivity.
  - constructor.
Qed.

Lemma example_introducible seed k n sq n0 r :
  connections.room (_connections (greet middleman_address 1 n (example_socket seed k))) ->
  connect_draws (_random_generator (_net (example_socket seed k))) = Ok ((sq, n0), r) ->
  exists p, introducible (greet middleman_address 1 n (example_socket seed k)) middleman_address 1 n
    introduced_nonces.1 introduced_nonces.2 sq [] [] [(p, connections.unlinked (acquaintance middleman_address 1 n))] [] [].
Proof.
  intros Hroom Hd. destruct (greet_spec middleman_address 1 n (example_socket seed k) [] [] [] [] (example_hosts seed _)
    (proj2 connections.empty_indexed)) as (p & ct & E & Hh & Hi).
  rewrite <- (f_equal _connections E : _ = ct) in Hh, Hi. exists p. split; [by apply Hh | exact Hi | | | constructor].
  - eexists [], p, _, []. split; [reflexivity|]. split_and!; [apply example_sole .. | reflexivity | reflexivity | reflexivity].
  - exists n0, r. by rewrite E.
Qed.

Lemma example_introduced_puzzle :
  let n := introduced_nonces.1 in
  puzzle_solved n 6 2 (identity_token (replicate 12 3) client_address n) 6 7.
Proof.
  split; [split; lia | cbn; lia | | vm_compute; done].
  intros x Hx. assert (x = 0 \/ x = 1 \/ x = 2 \/ x = 3 \/ x = 4 \/ x = 5) as [->|[->|[->|[->|[->| ->]]]]] by lia;
    vm_compute; done.
Qed.

Lemma example_ready_host p :
  connections.indexed (_connections example_host) [(p, connections.unlinked (acquaintance middleman_address 1 22))] ->
  ready_to_connect 7 client_address introduced_nonces.1 example_client example_host client_key host_key
    [175; 249; 0; 0] [18; 120; 0; 0] (byte_buffer.mk [7; 7]) []
    [(p, connections.unlinked (acquaintance middleman_address 1 22))] 6.
Proof.
  intros Hi. destruct example_ready as [_ Hp _ Hhp Hs Ha Hf _].
  destruct (greet_spec middleman_address 1 11 (example_socket 5 client_key) [] [] [] [] (example_hosts 5 _)
    (proj2 connections.empty_indexed)) as (p1 & ct1 & E1 & _). fold example_client in E1. rewrite E1. clear E1.
  destruct (greet_spec middleman_address 1 22 (example_socket 3 host_key) [] [] [] [] (example_hosts 3 _)
    (proj2 connections.empty_indexed)) as (p2 & ct2 & E2 & _). fold example_host in E2. rewrite E2 in Hi |- *. clear E2.
  split; [reflexivity | exact Hp | reflexivity | exact Hhp | exact Hs | | | exact example_introduced_puzzle].
  - destruct Ha. by split.
  - destruct Hf as [_ _ _ _ ? ? ? ?]. split; [reflexivity | reflexivity | exact Hi | | done | done | done |].
    + by intros q c [= -> ->]%list_elem_of_singleton.
    + intros (chain & Hc & Hin). vm_compute in Hc. injection Hc as <-. by apply not_elem_of_nil in Hin.
Qed.

Lemma introduction_connects_witness :
  exists m1 c1 h1 c' h' cp hp cc hc hsq q x cs hcs,
    introduction true middleman_address client_address host_address 1 2 1 1 [104; 105] [104] example_middleman
      example_client example_host = Ok (m1, c1, h1, 2) /\
    establish_phase 7 client_address host_address 2 c1 h1 = Ok (c', h') /\
    repr (_pendings c') [] [] /\ repr (_pendings h') [(q, x)] [] /\
    mirrored client_address host_address cc hc /\
    connected 3116683226 hsq (endpoint_of cc c') /\ connected hsq 3116683226 (endpoint_of hc h') /\
    connections.repr (_connections c') ((cp, cc) :: cs) [] /\ connections.repr (_connections h') ((hp, hc) :: hcs) [].
Proof.
  destruct example_introduces as [mcs Hm].
  destruct (example_introducible 5 client_key 11 3116683226 3107506879873739230 _ ltac:(vm_compute; done)
    ltac:(vm_compute; reflexivity)) as [p Hc].
  destruct (example_introducible 3 host_key 22 1870300560 16273418332091883412 _ ltac:(vm_compute; done)
    ltac:(vm_compute; reflexivity)) as [q Hh].
  destruct (introduction_connects 7 true middleman_address client_address host_address 1 11 2 22 1 1
    introduced_nonces.1 introduced_nonces.2 3116683226 1870300560 [104; 105] [104] example_middleman example_client example_host
    mcs [] [] [] _ [] [] [] [] _ [] [] client_key [175; 249; 0; 0] host_key [18; 120; 0; 0] (byte_buffer.mk [7; 7]) 6
    Hm Hc Hh (example_ready_host q (in_indexed _ _ _ _ _ _ _ _ _ _ _ _ Hh)) ltac:(repeat constructor; lia)
    ltac:(vm_compute; done) ltac:(done) ltac:(vm_compute; done))
    as (m1 & c1 & h1 & c' & h' & cp & hp & cc & hc & hsq & k & x & E1 & E2 & Gc & Gh & _ & Hmi & Cc & Ch).
  assert (En : _next_connection_index example_client = 2) by (vm_compute; reflexivity). rewrite En in E1, E2.
  exists m1, c1, h1, c', h', cp, hp, cc, hc, hsq, k, x. eexists _, _.
  exact (conj E1 (conj E2 (conj (ga_pend _ _ _ _ _ _ _ _ _ Gc) (conj (ga_pend _ _ _ _ _ _ _ _ _ Gh)
    (conj Hmi (conj Cc (conj Ch (conj (ga_conns _ _ _ _ _ _ _ _ _ Gc) (ga_conns _ _ _ _ _ _ _ _ _ Gh))))))))).
Defined.
End example.
